(* ===== verification/_CoqProject ===== *)
-Q . S2P
Prelude.v
NandEcc.v
Lmb.v
Crc.v
Digest.v
Sha1.v
Sha256.v
Md5.v
CString.v
Div64.v
Vsprintf.v
Env.v
Shell.v
Readline.v
Cread.v
Command.v
Date.v
CircBuf.v
SRec.v
Kermit.v
MemSize.v
Tftp.v
Defrag.v
Image.v
Flash.v
Part.v
Fat.v
Net.v
Bootp.v
Dns.v
Sntp.v
EnvFlash.v
EnvOne.v
EnvNor.v
