(* ===== verification/Prelude.v ===== *)
(** * Das U-Boot: the boot loader's own core, modelled and verified

    U-Boot is a boot loader for embedded boards.  It sizes the memory, sets up a console
    and an environment of variables, reads command lines from the user or from the
    environment, loads an image over the network or a serial line or from a disk or a flash
    memory, checks it and starts it.  Nearly all of the tree is code for particular
    boards, processors and peripherals; this development is about the part that is common
    to all of them and carries the logic: [common/], [lib_generic/] and [net/], and two
    pieces of [drivers/] that are algorithms and not device access.

    ** Parts of the program and files of the development

    - Memory at start: [common/memsize.c] (MemSize: [get_ram_size]); placement of the
      images to boot in it: [lib_generic/lmb.c] (Lmb).
    - Library: character classes and strings ([lib_generic/ctype.c], [string.c]: CString),
      64-bit division ([div64.c]: Div64), number parsing and formatted output
      ([vsprintf.c]: Vsprintf), circular buffers ([circbuf.c]: CircBuf), checksums
      ([crc32.c], [crc16.c]: Crc), digests ([sha1.c], [sha256.c], [md5.c]: Sha1, Sha256 and
      Md5 over what they share, Digest).
    - Command line: the environment ([common/cmd_nvedit.c], [env_common.c]: Env) and its storage in
      NOR flash ([common/env_flash.c]: EnvFlash with two copies, EnvOne with one; EnvNor), input
      ([common/main.c], [readline_into_buffer]: Readline), input with editing and history
      ([cread_line]: Cread), parsing, macros and execution ([common/main.c]: Shell), the
      table of commands, help and completion ([common/command.c]: Command).
    - Loading: over the serial line S-Records ([common/s_record.c], [cmd_load.c]: SRec)
      and Kermit ([cmd_load.c]: Kermit); over Ethernet the network loop with ARP, ICMP, IP and UDP
      ([net/net.c]: Net), BOOTP and DHCP ([net/bootp.c]: Bootp), DNS ([net/dns.c]: Dns), SNTP ([net/sntp.c]: Sntp), reassembly of IP fragments ([net/net.c]: Defrag)
      and TFTP ([net/tftp.c]: Tftp); images in
      the legacy format, made by [tools/mkimage.c] and checked and placed by
      [common/image.c] (Image).
    - Disks: DOS partition tables ([disk/part_dos.c], [part.c]: Part, whose class [Device]
      is what disk drivers promise) and the FAT file system ([fs/fat/fat.c]: Fat).
    - Devices: software ECC of NAND flash ([drivers/mtd/nand/nand_ecc.c]: NandEcc), banks and
      sectors of NOR flash ([common/flash.c], [cmd_flash.c]: Flash), dates of real-time clocks
      ([drivers/rtc/date.c]: Date).

    They interact as the code's calls do: [setenv] computes its checksum with [crc32], and
    so do the checks of images; [boot_ramdisk_high] gets its block from [Lmb] and copies
    with [memmove];
    [EnvFlash] and [EnvOne] write through the class [EnvFlash.Flash_layer], which the functions of [Flash]
    satisfy above any driver of the class [EnvNor.Driver] ([EnvNor.Nor_layer]), also when a call fails or the power goes off in it,
    even inside a byte;
    [Vsprintf.number] divides with [Div64.do_div]; [Shell] runs over the type class
    [Shell.Shell], which states what the interpreter needs of the environment, the command
    table and the console, so that its theorems hold for every implementation; [SRec] and
    [Tftp] print and parse their messages with the interpreter of [Vsprintf];
    [Net] reassembles with [Defrag]; [Bootp] sends its requests as datagrams of [Net], and its theorems follow
    them to whoever receives them, and so does [Dns]; [Sntp] sets the clock by [Date]; [Command] prints through the interpreter, too; the digests are instances of the buffering of [Digest],
    which is parametrised by the block function.

    ** How the code is modelled

    Integers are [Z] with the reduction to their width written out ([u8] to [u64], [s8] to
    [s64]); [int], [long] and pointers have 32 bits unless a file says otherwise.  Memory is
    a function from addresses to bytes ([mem]); where code and theorem are about values
    only, strings and arrays are lists.  Statics are fields of a record that the
    operations pass on, console and network output is a list of what was sent.
    Loops are recursion on the data where they follow it, and otherwise on fuel: the
    functions give [None] (or [Hangs]) when it runs out, and the theorems prove that the fuel their
    definitions give is enough (the length of a string, the number of regions, of bits, of
    records, of holes), so that they state that the code returns and what.  Where C reads or
    writes outside an object the models do that too, or have an outcome of their own for
    it; several theorems are about exactly these cases.

    ** What the theorems show

    - Refinement of an abstract object: the environment as a list of definitions
      ([Env.setenv_spec]), command lines as a sequence of commands
      ([Shell.run_command_spec]), circular buffers as bounded queues
      ([CircBuf.circbuf_refines_queue]), the line editor as a text with a cursor and a list
      of lines ([Cread.readline_edits]), the environment in flash memory as a register that
      power failures do not damage but for the exceptions that the contract names, such as a byte of flags cut off in its middle
      ([EnvFlash.env_register], [EnvFlash.saveenv_atomic], [EnvNor.torn_flag]).
    - Agreement with a reference: CRCs with the shift register, and the error bursts that
      they detect (Crc), digests with their standards, however the input is cut (Sha1, Sha256,
      Md5), division ([Div64.do_div_correct]), dates with a calendar that counts days
      ([Date.to_tm_spec]), partitions with the numbered slots of their tables (Part),
      the cached entries of a FAT with the table on the disk ([Fat.get_fatent_table]).
    - File systems: reading a file by its path gives the bytes of the clusters in its chain
      ([Fat.file_fat_read_spec]).
    - Protocols: two machines that resolve addresses, exchange datagrams and ping each other
      ([Net.arp_exchange], [Net.udp_delivered], [Net.ping_answered], without VLANs), whatever their byte orders; a ping that
      ends whatever happens ([Net.ping_ends]); a Kermit download over a bad line ([Kermit.loadb_receives]); a TFTP transfer with blocks sent repeatedly and block numbers that wrap around
      ([Tftp.tftp_transfer]); a client configured by DHCP, whose requests every machine on the network hears
      ([Bootp.dhcp_binds]), and that nothing but an acknowledgement binds ([Bootp.bound_by_ack]); names resolved
      on little-endian machines ([Dns.query_arrives], [Dns.dns_resolves]) and the clock set ([Sntp.sntp_sets_clock]); IP fragments in any order after the first
      ([Defrag.defrag_reassembles]), by an invariant on the list of holes inside the buffer.
    - Round trips: numbers printed and parsed, [saves] and [loads], [mktime] and [to_tm],
      images made by [mkimage] and checked on the board, whatever the byte orders.
    - Safety and bounds: blocks that [lmb_alloc_base] gives out lie in memory and overlap no
      reservation, for requests within the limit, and are the highest that do; the macro expansion and the line editor keep inside their buffers, and
      the screen always shows what the buffer holds ([Readline.readline_screen]);
      [getenv_r] and its terminator; flash below the top of the address space is written only
      where no sector is protected, and erased only in whole sectors (Flash); NAND single-bit errors are corrected and double-bit
      errors detected; changes to an image are detected; a ramdisk goes to free memory and
      arrives unchanged.
    - Termination: [loads] on every input; elsewhere it is part of the functional statement.
    - Errors in the code that the models show are theorems or facts of the files, too:
      among them a duplicate of TFTP block zero, IP datagrams delivered without
      their first fragment, S-Records with a negative length, the word that the RAM
      test does not put back, a line of 256 characters in the history,
      a Kermit packet lost after its acknowledgement, a protected sector at the top of the
      address space that is written, cyclic partition tables, long file names that overflow
      their buffer, echo replies with a wrong checksum, a saved environment that a second save
      can lose ([EnvNor.saved_and_lost]), DHCP options read behind the end of a packet and padding between them
      misread, replies of DNS that a big-endian machine does not understand.

    ** Not modelled

    Boards ([board/]), processors ([cpu/], [lib_<arch>/]), drivers, the USB and MMC stacks and
    video: device access, which has no meaning without a model of the device.  Library code of
    other projects that the tree contains (zlib, bzip2, LZMA, LZO, dlmalloc, libfdt,
    rbtree, the x86 emulator, UBI, JFFS2, UBIFS, YAFFS2, xyzModem).  The hush parser, FIT
    images and boot commands ([common/image.c], [cmd_bootm.c]), the protocols RARP, NFS and CDP, the other file systems, the partition tables of EFI, ISO, Mac and Amiga, and the storage of the environment in NAND, EEPROM and MMC
    are left out for their size.

    ** This file

    Fixed-width integers, byte lists, the flat byte memory, bounded loops, and the lemmas
    and tactics the component files use.

    - [u8], [u16], [u32], [u64] reduce an integer to the unsigned C type of that width, [s8],
      [s32], [s64] to the signed one.
    - [byte_list l] says that every element of [l] is a byte.
    - [mem] is a byte-addressed memory, a total function from addresses to bytes, compared
      pointwise by [meq].
    - [while] is a C loop with fuel; [while_total] is its total-correctness rule: invariant
      and decreasing measure give termination and the postcondition at once. *)

From Stdlib Require Export ZArith Lia Bool List.
From stdpp Require Export base list numbers.

#[export] Set Default Goal Selector "!".

Open Scope Z_scope.

(** ** Fixed-width integers *)

Definition u8 (x : Z) : Z := x mod 2 ^ 8.
Definition u16 (x : Z) : Z := x mod 2 ^ 16.
Definition u32 (x : Z) : Z := x mod 2 ^ 32.
Definition u64 (x : Z) : Z := x mod 2 ^ 64.
Definition signed (w x : Z) : Z := (x + 2 ^ (w - 1)) mod 2 ^ w - 2 ^ (w - 1).
Definition s8 (x : Z) : Z := signed 8 x.
Definition s32 (x : Z) : Z := signed 32 x.
Definition s64 (x : Z) : Z := signed 64 x.

Lemma u8_range x : 0 <= u8 x < 256.
Proof. unfold u8. change (2 ^ 8) with 256. apply Z.mod_pos_bound. lia. Qed.

Lemma u16_range x : 0 <= u16 x < 65536.
Proof. unfold u16. change (2 ^ 16) with 65536. apply Z.mod_pos_bound. lia. Qed.

Lemma u32_range x : 0 <= u32 x < 2 ^ 32.
Proof. unfold u32. apply Z.mod_pos_bound. lia. Qed.

Lemma u64_range x : 0 <= u64 x < 2 ^ 64.
Proof. unfold u64. apply Z.mod_pos_bound. lia. Qed.

Lemma u8_small x : 0 <= x < 256 -> u8 x = x.
Proof. intros. apply Z.mod_small. lia. Qed.

Lemma u16_small x : 0 <= x < 65536 -> u16 x = x.
Proof. intros. apply Z.mod_small. lia. Qed.

Lemma u32_small x : 0 <= x < 2 ^ 32 -> u32 x = x.
Proof. apply Z.mod_small. Qed.

Lemma u64_small x : 0 <= x < 2 ^ 64 -> u64 x = x.
Proof. apply Z.mod_small. Qed.

Lemma signed_small w x :
  0 < w -> - 2 ^ (w - 1) <= x < 2 ^ (w - 1) -> signed w x = x.
Proof.
  intros Hw Hx. unfold signed.
  assert (2 ^ w = 2 * 2 ^ (w - 1)).
  { rewrite <- Z.pow_succ_r by lia. f_equal. lia. }
  rewrite Z.mod_small by lia. lia.
Qed.

Lemma s32_small x : - 2 ^ 31 <= x < 2 ^ 31 -> s32 x = x.
Proof. intros. apply signed_small; lia. Qed.

Lemma s64_small x : - 2 ^ 63 <= x < 2 ^ 63 -> s64 x = x.
Proof. intros. apply signed_small; lia. Qed.

Lemma u32_add_l x y : u32 (u32 x + y) = u32 (x + y).
Proof. unfold u32. apply Zplus_mod_idemp_l. Qed.

Lemma u32_add_r x y : u32 (x + u32 y) = u32 (x + y).
Proof. unfold u32. apply Zplus_mod_idemp_r. Qed.

Lemma u32_idem x : u32 (u32 x) = u32 x.
Proof. unfold u32. apply Z.mod_mod. lia. Qed.

(** Truth value of a C condition, and C's integer result of a comparison. *)
Definition b2z (b : bool) : Z := if b then 1 else 0.

(** Masking with [2^n - 1] is reduction modulo [2^n]. *)
Lemma land_mask x n m : 0 <= n -> m = 2 ^ n - 1 -> Z.land x m = x mod 2 ^ n.
Proof.
  intros Hn ->. rewrite <- Z.land_ones by lia. f_equal.
  rewrite Z.ones_equiv. lia.
Qed.

(** The high bits. *)
Lemma land_high x n k : 0 <= x < 2 ^ (n + k) -> 0 <= n -> 0 <= k ->
  Z.shiftr (Z.land x (2 ^ (n + k) - 2 ^ n)) n = x / 2 ^ n.
Proof.
  intros Hx Hn Hk. rewrite <- Z.shiftr_div_pow2 by lia. apply Z.bits_inj'. intros i Hi.
  rewrite !Z.shiftr_spec, Z.land_spec by lia.
  replace (2 ^ (n + k) - 2 ^ n) with (Z.shiftl (Z.ones k) n)
    by (rewrite Z.shiftl_mul_pow2, Z.ones_equiv, Z.pow_add_r by lia; lia).
  rewrite Z.shiftl_spec, Z.testbit_ones by lia. replace (i + n - n) with i by lia.
  replace (0 <=? i) with true by lia. destruct (i <? k) eqn:E; [apply andb_true_r|].
  rewrite andb_false_r. symmetry. replace x with (x mod 2 ^ (n + k)) by (apply Z.mod_small; lia).
  apply Z.mod_pow2_bits_high. lia.
Qed.

(** ** Bytes *)

Definition is_byte (x : Z) : Prop := 0 <= x < 256.
Definition byte_list (l : list Z) : Prop := Forall is_byte l.

#[export] Instance is_byte_dec x : Decision (is_byte x).
Proof. unfold is_byte. apply _. Defined.

#[export] Instance byte_list_dec l : Decision (byte_list l).
Proof. unfold byte_list. apply _. Defined.

Lemma byte_list_app l k : byte_list (l ++ k) <-> byte_list l /\ byte_list k.
Proof. apply Forall_app. Qed.

Lemma is_byte_u8 x : is_byte (u8 x).
Proof. apply u8_range. Qed.

(** Array read: element [i] of [l]; the callers prove [0 <= i < length l]. *)
Definition rd (l : list Z) (i : Z) : Z := nth (Z.to_nat i) l 0.

Lemma rd_lookup l i x : 0 <= i -> l !! Z.to_nat i = Some x -> rd l i = x.
Proof.
  intros Hi Hl. unfold rd. rewrite nth_lookup, Hl. done.
Qed.

Lemma rd_3_0 a b c : rd [a; b; c] 0 = a. Proof. done. Qed.
Lemma rd_3_1 a b c : rd [a; b; c] 1 = b. Proof. done. Qed.
Lemma rd_3_2 a b c : rd [a; b; c] 2 = c. Proof. done. Qed.

Lemma rd_byte l i : byte_list l -> is_byte (rd l i).
Proof.
  intros Hl. unfold rd. destruct (nth_in_or_default (Z.to_nat i) l 0) as [Hin| ->].
  - by apply (proj1 (List.Forall_forall _ _) Hl).
  - unfold is_byte; lia.
Qed.

(** A string up to its NUL. *)
Fixpoint until_nul (l : list Z) : list Z :=
  match l with
  | c :: l => if c =? 0 then [] else c :: until_nul l
  | [] => []
  end.

Lemma until_nul_app l k :
  until_nul (l ++ k) = if existsb (Z.eqb 0) l then until_nul l else l ++ until_nul k.
Proof.
  induction l as [|c l IH]; cbn [app until_nul existsb]; [done|]. rewrite (Z.eqb_sym 0 c).
  destruct (c =? 0); [done|]. cbn [orb]. rewrite IH. by destruct (existsb _ l).
Qed.

Lemma until_nul_none l : existsb (Z.eqb 0) l = false -> until_nul l = l.
Proof. intros H. rewrite <- (app_nil_r l) at 1. rewrite until_nul_app, H. cbn. apply app_nil_r. Qed.

(** ** Memory *)

Abbreviation mem := (Z -> Z).

Definition upd (m : mem) (a v : Z) : mem := fun b => if b =? a then v else m b.

Definition meq (m k : mem) : Prop := forall a, m a = k a.

Declare Scope ub_scope.
Notation "m ≡ₘ k" := (meq m k) (at level 70) : ub_scope.
Notation "m .[ a <- v ]" := (upd m a v)
  (at level 1, left associativity, format "m .[ a  <-  v ]") : ub_scope.
Open Scope ub_scope.

#[export] Instance meq_equiv : Equivalence meq.
Proof.
  split.
  - intros m a. done.
  - intros m k H a. by rewrite H.
  - intros m k h H1 H2 a. by rewrite H1, H2.
Qed.

#[export] Instance upd_proper : Proper (meq ==> eq ==> eq ==> meq) upd.
Proof. intros m k H a ? <- v ? <- b. unfold upd. by rewrite H. Qed.

Lemma upd_eq m a v : m.[a <- v] a = v.
Proof. unfold upd. by rewrite Z.eqb_refl. Qed.

Lemma upd_at m a b v : b = a -> m.[a <- v] b = v.
Proof. intros ->. apply upd_eq. Qed.

Lemma upd_ne m a b v : b <> a -> m.[a <- v] b = m b.
Proof. intros H. unfold upd. apply Z.eqb_neq in H. by rewrite H. Qed.

(** [mem_list m a n] reads [n] consecutive bytes from [a]. *)
Fixpoint mem_list (m : mem) (a : Z) (n : nat) : list Z :=
  match n with
  | O => []
  | S n => m a :: mem_list m (a + 1) n
  end.

(** [store_list m a l] writes the bytes of [l] from [a] on. *)
Fixpoint store_list (m : mem) (a : Z) (l : list Z) : mem :=
  match l with
  | [] => m
  | x :: l => store_list (m.[a <- x]) (a + 1) l
  end.

Lemma mem_list_length m a n : length (mem_list m a n) = n.
Proof. revert a. induction n; intros; simpl; auto. Qed.

Lemma mem_list_ext m k a n :
  (forall i, a <= i < a + Z.of_nat n -> m i = k i) ->
  mem_list m a n = mem_list k a n.
Proof.
  revert a. induction n as [|n IH]; intros a H; simpl; [done|].
  f_equal; [apply H; lia | apply IH; intros; apply H; lia].
Qed.

Lemma mem_list_move m k a b n : (forall i, 0 <= i < Z.of_nat n -> m (a + i) = k (b + i)) -> mem_list m a n = mem_list k b n.
Proof.
  revert a b. induction n as [|n IH]; intros a b H; [done|]. cbn [mem_list]. f_equal.
  - specialize (H 0 ltac:(lia)). by rewrite !Z.add_0_r in H.
  - apply IH. intros i Hi. rewrite <- !Z.add_assoc. apply H. lia.
Qed.

Lemma mem_list_app m a n p :
  mem_list m a (n + p) = mem_list m a n ++ mem_list m (a + Z.of_nat n) p.
Proof.
  revert a. induction n as [|n IH]; intros a; simpl.
  - f_equal. lia.
  - rewrite IH. do 3 f_equal. lia.
Qed.

Lemma rd_mem_list m a n i : 0 <= i < Z.of_nat n -> rd (mem_list m a n) i = m (a + i).
Proof.
  revert a i. induction n as [|n IH]; intros a i Hi; [lia|]. simpl.
  destruct (decide (i = 0)) as [->|Hne]; [by rewrite Z.add_0_r|].
  unfold rd. replace (Z.to_nat i) with (S (Z.to_nat (i - 1))) by lia. simpl.
  fold (rd (mem_list m (a + 1) n) (i - 1)). rewrite IH by lia. f_equal. lia.
Qed.

Lemma store_list_out m a l b :
  ~ (a <= b < a + Z.of_nat (length l)) -> store_list m a l b = m b.
Proof.
  revert m a. induction l as [|x l IH]; intros m a H; simpl in *; [done|].
  rewrite IH by lia. apply upd_ne. lia.
Qed.

Lemma store_list_in m a l i :
  0 <= i < Z.of_nat (length l) -> store_list m a l (a + i) = rd l i.
Proof.
  revert m a i. induction l as [|x l IH]; intros m a i H; simpl in *; [lia|].
  destruct (decide (i = 0)) as [->|Hi].
  - rewrite store_list_out by lia. rewrite Z.add_0_r, upd_eq. done.
  - replace (a + i) with (a + 1 + (i - 1)) by lia. rewrite IH by lia.
    unfold rd. replace (Z.to_nat i) with (S (Z.to_nat (i - 1))) by lia. done.
Qed.

Lemma store_bytes m a l :
  (forall x, is_byte (m x)) -> byte_list l -> forall x, is_byte (store_list m a l x).
Proof.
  intros Hm Hl. revert m a Hm. induction Hl as [|c l Hc Hl IH]; intros m a Hm; simpl; [done|].
  apply IH. intros x. unfold upd. by destruct (x =? a).
Qed.

Lemma mem_list_store m a l : mem_list (store_list m a l) a (length l) = l.
Proof.
  revert m a. induction l as [|x l IH]; intros m a; simpl; [done|].
  f_equal; [|apply IH].
  rewrite store_list_out by lia. apply upd_eq.
Qed.

(** The memory after a copy of [n] bytes from [src], pointwise. *)
Lemma store_mem_list m a src n b :
  store_list m a (mem_list m src n) b =
  if (a <=? b) && (b <? a + Z.of_nat n) then m (src + (b - a)) else m b.
Proof.
  destruct (_ && _) eqn:H.
  - replace b with (a + (b - a)) at 1 by lia.
    rewrite store_list_in by (rewrite mem_list_length; lia). apply rd_mem_list. lia.
  - apply store_list_out. rewrite mem_list_length. lia.
Qed.

Lemma store_list_app m a l k :
  store_list m a (l ++ k) = store_list (store_list m a l) (a + Z.of_nat (length l)) k.
Proof.
  revert m a. induction l as [|x l IH]; intros m a; simpl; [by rewrite Z.add_0_r|].
  rewrite IH. f_equal. lia.
Qed.

#[export] Instance store_list_proper : Proper (meq ==> eq ==> eq ==> meq) store_list.
Proof.
  intros m k H a ? <- l ? <-. revert m k H a.
  induction l as [|x l IH]; intros m k H a; simpl; [done|]. apply IH. by rewrite H.
Qed.

Create Rewrite HintDb ub.
#[export] Hint Rewrite upd_eq mem_list_length mem_list_store : ub.
#[export] Hint Rewrite upd_ne store_list_out using lia : ub.

(** The bytes of [l] lie at [a]. *)
Definition holds (m : mem) (a : Z) (l : list Z) : Prop := mem_list m a (length l) = l.

Lemma holds_nil m a : holds m a [].
Proof. done. Qed.

Lemma holds_cons m a x l : holds m a (x :: l) <-> m a = x /\ holds m (a + 1) l.
Proof. unfold holds. simpl. split; [by intros [= -> ->]|by intros [-> ->]]. Qed.

Lemma holds_app m a l k :
  holds m a (l ++ k) <-> holds m a l /\ holds m (a + Z.of_nat (length l)) k.
Proof.
  unfold holds. rewrite length_app, mem_list_app. split.
  - intros H. apply app_inj_1 in H; [done|apply mem_list_length].
  - by intros [-> ->].
Qed.

Lemma holds_ext m k a l :
  (forall b, a <= b < a + Z.of_nat (length l) -> k b = m b) -> holds m a l -> holds k a l.
Proof. intros H Hl. unfold holds in *. rewrite <- Hl at 2. by apply mem_list_ext. Qed.

Lemma holds_store m a l : holds (store_list m a l) a l.
Proof. apply mem_list_store. Qed.

Lemma holds_rd m a l i : holds m a l -> 0 <= i < Z.of_nat (length l) -> m (a + i) = rd l i.
Proof. intros Hl Hi. rewrite <- Hl. by rewrite rd_mem_list. Qed.

Lemma mem_list_eq m a l :
  (forall b, 0 <= b < Z.of_nat (length l) -> m (a + b) = rd l b) -> mem_list m a (length l) = l.
Proof.
  revert a. induction l as [|x l IH]; intros a Hb; cbn [mem_list length]; [done|]. cbn [length] in Hb. f_equal.
  - specialize (Hb 0 ltac:(lia)). by rewrite Z.add_0_r in Hb.
  - apply IH. intros b Hlt. specialize (Hb (b + 1) ltac:(lia)).
    replace (a + 1 + b) with (a + (b + 1)) by lia. rewrite Hb. unfold rd.
    by replace (Z.to_nat (b + 1)) with (S (Z.to_nat b)) by lia.
Qed.

Lemma mem_list_rd p a l i : mem_list p a (length l) = l -> 0 <= i < Z.of_nat (length l) -> p (a + i) = rd l i.
Proof. intros H Hi. rewrite <- H. by rewrite rd_mem_list by (rewrite ?mem_list_length; lia). Qed.

Lemma mem_list_firstn p a n k : (k <= n)%nat -> mem_list p a k = firstn k (mem_list p a n).
Proof.
  revert a n. induction k as [|k IH]; intros a n Hk; [done|]. destruct n as [|n]; [lia|]. cbn [mem_list firstn]. f_equal. apply IH. lia.
Qed.

Lemma mem_list_split p a l k n : mem_list p a n = l ++ k -> n = (length l + length k)%nat ->
  mem_list p a (length l) = l /\ mem_list p (a + Z.of_nat (length l)) (length k) = k.
Proof. intros H ->. rewrite mem_list_app in H. apply app_inj_1 in H; [done|]. apply mem_list_length. Qed.

(** ** Loops *)

(** [while fuel c b s] runs the C loop [while (c) b] from state [s]; [None]
    when the fuel runs out before the condition fails. *)
Fixpoint while {S : Type} (fuel : nat) (c : S -> bool) (b : S -> S) (s : S)
    : option S :=
  match fuel with
  | O => None
  | Datatypes.S n => if c s then while n c b (b s) else Some s
  end.

Lemma while_total {S} (c : S -> bool) (b : S -> S) (I : S -> Prop)
    (m : S -> nat) fuel s :
  I s ->
  (forall s, I s -> c s = true -> I (b s) /\ (m (b s) < m s)%nat) ->
  (m s < fuel)%nat ->
  exists s', while fuel c b s = Some s' /\ I s' /\ c s' = false.
Proof.
  revert s. induction fuel as [|n IH]; intros s HI Hstep Hm; [lia|].
  simpl. destruct (c s) eqn:Hc.
  - destruct (Hstep s HI Hc). apply IH; auto. lia.
  - eauto.
Qed.

(** ** Case analysis *)

Ltac bdestruct_one :=
  match goal with
  | |- context [Z.eqb ?a ?b] => destruct (Z.eqb_spec a b)
  | |- context [Z.ltb ?a ?b] => destruct (Z.ltb_spec a b)
  | |- context [Z.leb ?a ?b] => destruct (Z.leb_spec a b)
  | H : context [Z.eqb ?a ?b] |- _ => destruct (Z.eqb_spec a b)
  | H : context [Z.ltb ?a ?b] |- _ => destruct (Z.ltb_spec a b)
  | H : context [Z.leb ?a ?b] |- _ => destruct (Z.leb_spec a b)
  end.

(** Splits on every integer comparison in sight and closes the impossible or
    arithmetic cases. *)
Ltac bdestruct := repeat (bdestruct_one; simpl in *; try lia).

(** ** Ranges *)

Lemma Forall_seqZ (P : Z -> Prop) m n :
  (forall i, m <= i < m + n -> P i) -> Forall P (seqZ m n).
Proof.
  intros H. apply List.Forall_forall. intros i Hi.
  apply list_elem_of_In, elem_of_seqZ in Hi. auto.
Qed.

(** An invariant of a counting loop. *)
Lemma fold_seqZ {S} (f : S -> Z -> S) (P : Z -> S -> Prop) m n s :
  0 <= n -> P m s -> (forall i s, m <= i < m + n -> P i s -> P (i + 1) (f s i)) -> P (m + n) (fold_left f (seqZ m n) s).
Proof.
  intros Hn H0 Hf. rewrite <- (Z2Nat.id n Hn) in *. clear Hn. induction (Z.to_nat n) as [|k IH].
  - by rewrite Z.add_0_r.
  - rewrite seqZ_S, fold_left_app. cbn [fold_left]. replace (m + Z.of_nat (Datatypes.S k)) with (m + Z.of_nat k + 1) by lia.
    apply Hf; [lia|]. apply IH. intros i t Hi. apply Hf. lia.
Qed.

(** A fact about every number of a range, by evaluation of a boolean test. *)
Lemma forallb_seqZ (f : Z -> bool) n x :
  forallb f (seqZ 0 n) = true -> 0 <= x < n -> f x = true.
Proof.
  intros Hf Hx. rewrite forallb_forall in Hf. apply Hf.
  apply list_elem_of_In, elem_of_seqZ. lia.
Qed.

(** ** Bits of bytes *)

Create Rewrite HintDb zbits.
#[export] Hint Rewrite Z.land_spec Z.lor_spec Z.lxor_spec Z.ldiff_spec : zbits.
#[export] Hint Rewrite Z.shiftl_spec Z.shiftr_spec Z.lnot_spec using lia : zbits.

Lemma byte_bits_high x n : is_byte x -> 8 <= n -> Z.testbit x n = false.
Proof.
  intros Hx Hn. rewrite <- (Z.mod_small x (2 ^ 8)) by (unfold is_byte in Hx; lia).
  apply Z.mod_pow2_bits_high. lia.
Qed.

Lemma byte_ext x y :
  is_byte x -> is_byte y ->
  Forall (fun n => Z.testbit x n = Z.testbit y n) [0; 1; 2; 3; 4; 5; 6; 7] ->
  x = y.
Proof.
  intros Hx Hy H. apply Z.bits_inj'. intros n Hn.
  destruct (Z.lt_ge_cases n 8) as [Hlt|Hge].
  - rewrite List.Forall_forall in H. apply H. simpl. lia.
  - by rewrite !byte_bits_high.
Qed.

Lemma u8_bits x n : 0 <= n < 8 -> Z.testbit (u8 x) n = Z.testbit x n.
Proof. intros. unfold u8. apply Z.mod_pow2_bits_low. lia. Qed.

Lemma u8_lxor x y : u8 (Z.lxor x y) = Z.lxor (u8 x) (u8 y).
Proof.
  unfold u8. rewrite <- !Z.land_ones by lia. apply Z.bits_inj. intros n.
  rewrite !Z.lxor_spec, !Z.land_spec, Z.lxor_spec.
  by destruct (Z.testbit x n), (Z.testbit y n), (Z.testbit _ n).
Qed.

Lemma byte_of_bits x :
  (forall n, 8 <= n -> Z.testbit x n = false) -> 0 <= x -> is_byte x.
Proof.
  intros H Hx. destruct (decide (x = 0)) as [->|]; [unfold is_byte; lia|].
  destruct (Z.lt_ge_cases x 256); [unfold is_byte; lia|].
  assert (8 <= Z.log2 x) by (apply Z.log2_le_pow2; lia).
  pose proof (Z.bit_log2 x ltac:(lia)). rewrite H in H2 by lia. done.
Qed.

Lemma lxor_byte x y : is_byte x -> is_byte y -> is_byte (Z.lxor x y).
Proof.
  intros Hx Hy. apply byte_of_bits.
  - intros n Hn. by rewrite Z.lxor_spec, !byte_bits_high.
  - apply Z.lxor_nonneg. unfold is_byte in *. lia.
Qed.

Lemma lor_byte x y : is_byte x -> is_byte y -> is_byte (Z.lor x y).
Proof.
  intros Hx Hy. apply byte_of_bits.
  - intros n Hn. by rewrite Z.lor_spec, !byte_bits_high.
  - apply Z.lor_nonneg. unfold is_byte in *. lia.
Qed.

Lemma land_byte_r x y : is_byte y -> is_byte (Z.land x y).
Proof.
  intros Hy. apply byte_of_bits.
  - intros n Hn. rewrite Z.land_spec, (byte_bits_high y) by done.
    apply andb_false_r.
  - apply Z.land_nonneg. unfold is_byte in *. lia.
Qed.

Lemma shiftr_byte x n : is_byte x -> 0 <= n -> is_byte (Z.shiftr x n).
Proof.
  intros Hx Hn. apply byte_of_bits.
  - intros k Hk. rewrite Z.shiftr_spec by lia. apply byte_bits_high; [done|lia].
  - apply Z.shiftr_nonneg. unfold is_byte in *. lia.
Qed.

Create HintDb bytes.
#[export] Hint Resolve is_byte_u8 lxor_byte lor_byte land_byte_r shiftr_byte
  rd_byte : bytes.
#[export] Hint Extern 1 (is_byte (Zpos _)) => unfold is_byte; lia : bytes.
#[export] Hint Extern 1 (is_byte 0) => unfold is_byte; lia : bytes.
#[export] Hint Extern 1 (0 <= _) => lia : bytes.

(** Evaluates the bits of numerals and the arithmetic on bit positions. *)
Ltac eval_bits :=
  repeat match goal with
  | |- context [Z.testbit (Zpos ?p) ?k] =>
      let v := eval vm_compute in (Z.testbit (Zpos p) k) in
      change (Z.testbit (Zpos p) k) with v
  | |- context [Z.testbit 0 ?k] =>
      change (Z.testbit 0 k) with false
  | |- context [Z.testbit _ ?k] =>
      progress (let v := eval vm_compute in k in change k with v)
  end.

Lemma shiftl_land_byte x c k :
  is_byte (Z.shiftl c k) -> is_byte (Z.shiftl (Z.land x c) k).
Proof. rewrite Z.shiftl_land. apply land_byte_r. Qed.

(** Closes [is_byte] goals on terms built from byte operations. *)
Ltac solve_byte :=
  lazymatch goal with
  | |- is_byte (u8 _) => apply is_byte_u8
  | |- is_byte (Z.lxor _ _) => apply lxor_byte; solve_byte
  | |- is_byte (Z.lor _ _) => apply lor_byte; solve_byte
  | |- is_byte (Z.land _ _) => apply land_byte_r; solve_byte
  | |- is_byte (Z.shiftr _ _) => apply shiftr_byte; [solve_byte | lia]
  | |- is_byte (Z.shiftl (Z.land _ _) _) =>
      apply shiftl_land_byte; split; vm_compute; congruence
  | |- is_byte (Zpos _) => unfold is_byte; lia
  | |- is_byte 0 => unfold is_byte; lia
  | |- is_byte _ => first [assumption | solve [eauto with bytes]]
  end.

Lemma testbit_shiftr a k n m : 0 <= n -> n + k = m -> Z.testbit (Z.shiftr a k) n = Z.testbit a m.
Proof. intros ? <-. by apply Z.shiftr_spec. Qed.

Lemma testbit_shiftl a k n m : 0 <= n -> n - k = m -> Z.testbit (Z.shiftl a k) n = Z.testbit a m.
Proof. intros ? <-. by apply Z.shiftl_spec. Qed.

Lemma testbit_neg a n : n < 0 -> Z.testbit a n = false.
Proof. apply Z.testbit_neg_r. Qed.

(** Pushes [Z.testbit] at a numeral position through bit operations. *)
Ltac push_testbit :=
  repeat first
  [ rewrite Z.lor_spec | rewrite Z.lxor_spec | rewrite Z.land_spec
  | rewrite Z.lnot_spec by (clear; lia)
  | rewrite u8_bits by (clear; lia)
  | match goal with
    | |- context [Z.testbit (Z.shiftr ?a ?k) ?n] =>
        let m := eval vm_compute in (n + k) in
        rewrite (testbit_shiftr a k n m) by (clear; lia)
    | |- context [Z.testbit (Z.shiftl ?a ?k) ?n] =>
        let m := eval vm_compute in (n - k) in
        rewrite (testbit_shiftl a k n m) by (clear; lia)
    | |- context [Z.testbit (Zpos ?p) ?k] =>
        let v := eval vm_compute in (Z.testbit (Zpos p) k) in
        change (Z.testbit (Zpos p) k) with v
    | |- context [Z.testbit ?a (Zneg ?p)] =>
        rewrite (testbit_neg a (Zneg p)) by (clear; lia)
    end ];
  cbn [andb orb xorb negb];
  rewrite ?andb_true_r, ?andb_false_r, ?orb_false_r, ?orb_false_l, ?orb_true_r.

(** Proves an equality of two bytes built from bit operations, bit by bit. *)
Ltac byte_bitwise :=
  apply byte_ext; [solve_byte .. |];
  repeat constructor; push_testbit;
  repeat match goal with |- context [Z.testbit ?x ?k] =>
    destruct (Z.testbit x k) end; reflexivity.

(** Disjoint bits: [or] is addition. *)
Lemma lor_add a b n :
  0 <= n -> 0 <= b < 2 ^ n -> a mod 2 ^ n = 0 -> Z.lor a b = a + b.
Proof.
  intros Hn Hb Ha. rewrite Z.add_nocarry_lxor; [symmetry; apply Z.lxor_lor|];
    apply Z.bits_inj'; intros i Hi; rewrite Z.land_spec, Z.bits_0.
  all: destruct (Z.lt_ge_cases i n) as [Hlt|Hge].
  all: try (rewrite <- (Z.mod_pow2_bits_low a n i Hlt), Ha, Z.bits_0; done).
  all: rewrite <- (Z.mod_small b (2 ^ n) Hb), Z.mod_pow2_bits_high by lia; apply andb_false_r.
Qed.
