(* ===== verification/NandEcc.v ===== *)
(** Software ECC of the NAND layer, [drivers/mtd/nand/nand_ecc.c]:
    [nand_calculate_ecc] computes a 3-byte code of a 256-byte block and
    [nand_correct_data] repairs a single flipped bit.  [smc] stands for
    CONFIG_MTD_NAND_ECC_SMC, which swaps the first two code bytes; every theorem
    holds for both settings. *)

From S2P Require Import Prelude.

(** ** Definitions *)

(** Column parity of every byte value, with bit 6 the parity of the byte. *)
Definition nand_ecc_precalc_table : list Z :=
  [
   0; 85; 86; 3; 89; 12; 15; 90; 90; 15; 12; 89; 3; 86; 85; 0;
   101; 48; 51; 102; 60; 105; 106; 63; 63; 106; 105; 60; 102; 51; 48; 101;
   102; 51; 48; 101; 63; 106; 105; 60; 60; 105; 106; 63; 101; 48; 51; 102;
   3; 86; 85; 0; 90; 15; 12; 89; 89; 12; 15; 90; 0; 85; 86; 3;
   105; 60; 63; 106; 48; 101; 102; 51; 51; 102; 101; 48; 106; 63; 60; 105;
   12; 89; 90; 15; 85; 0; 3; 86; 86; 3; 0; 85; 15; 90; 89; 12;
   15; 90; 89; 12; 86; 3; 0; 85; 85; 0; 3; 86; 12; 89; 90; 15;
   106; 63; 60; 105; 51; 102; 101; 48; 48; 101; 102; 51; 105; 60; 63; 106;
   106; 63; 60; 105; 51; 102; 101; 48; 48; 101; 102; 51; 105; 60; 63; 106;
   15; 90; 89; 12; 86; 3; 0; 85; 85; 0; 3; 86; 12; 89; 90; 15;
   12; 89; 90; 15; 85; 0; 3; 86; 86; 3; 0; 85; 15; 90; 89; 12;
   105; 60; 63; 106; 48; 101; 102; 51; 51; 102; 101; 48; 106; 63; 60; 105;
   3; 86; 85; 0; 90; 15; 12; 89; 89; 12; 15; 90; 0; 85; 86; 3;
   102; 51; 48; 101; 63; 106; 105; 60; 60; 105; 106; 63; 101; 48; 51; 102;
   101; 48; 51; 102; 60; 105; 106; 63; 63; 106; 105; 60; 102; 51; 48; 101;
   0; 85; 86; 3; 89; 12; 15; 90; 90; 15; 12; 89; 3; 86; 85; 0].

Record ecc_regs := Regs { reg1 : Z; reg2 : Z; reg3 : Z }.

(** Body of the parity loop of [nand_calculate_ecc] for byte [i]. *)
Definition ecc_step (dat : list Z) (r : ecc_regs) (i : Z) : ecc_regs :=
  let idx := rd nand_ecc_precalc_table (rd dat i) in
  let reg1' := Z.lxor (reg1 r) (Z.land idx 0x3f) in
  if Z.land idx 0x40 =? 0 then Regs reg1' (reg2 r) (reg3 r)
  else Regs reg1' (u8 (Z.lxor (reg2 r) (Z.lnot (u8 i)))) (Z.lxor (reg3 r) (u8 i)).

Definition ecc_loop (dat : list Z) : ecc_regs :=
  fold_left (ecc_step dat) (seqZ 0 256) (Regs 0 0 0).

Definition ecc_tmp1 (reg2 reg3 : Z) : Z :=
  let t := Z.shiftr (Z.land reg3 0x80) 0 in
  let t := Z.lor t (Z.shiftr (Z.land reg2 0x80) 1) in
  let t := Z.lor t (Z.shiftr (Z.land reg3 0x40) 1) in
  let t := Z.lor t (Z.shiftr (Z.land reg2 0x40) 2) in
  let t := Z.lor t (Z.shiftr (Z.land reg3 0x20) 2) in
  let t := Z.lor t (Z.shiftr (Z.land reg2 0x20) 3) in
  let t := Z.lor t (Z.shiftr (Z.land reg3 0x10) 3) in
  Z.lor t (Z.shiftr (Z.land reg2 0x10) 4).

Definition ecc_tmp2 (reg2 reg3 : Z) : Z :=
  let t := Z.shiftl (Z.land reg3 0x08) 4 in
  let t := Z.lor t (Z.shiftl (Z.land reg2 0x08) 3) in
  let t := Z.lor t (Z.shiftl (Z.land reg3 0x04) 3) in
  let t := Z.lor t (Z.shiftl (Z.land reg2 0x04) 2) in
  let t := Z.lor t (Z.shiftl (Z.land reg3 0x02) 2) in
  let t := Z.lor t (Z.shiftl (Z.land reg2 0x02) 1) in
  let t := Z.lor t (Z.shiftl (Z.land reg3 0x01) 1) in
  Z.lor t (Z.shiftl (Z.land reg2 0x01) 0).

(** The three code bytes [nand_calculate_ecc] stores in [ecc_code]. *)
Definition nand_calculate_ecc (smc : bool) (dat : list Z) : list Z :=
  let r := ecc_loop dat in
  let tmp1 := ecc_tmp1 (reg2 r) (reg3 r) in
  let tmp2 := ecc_tmp2 (reg2 r) (reg3 r) in
  let b2 := u8 (Z.lor (Z.shiftl (Z.lnot (reg1 r)) 2) 0x03) in
  if smc then [u8 (Z.lnot tmp2); u8 (Z.lnot tmp1); b2]
  else [u8 (Z.lnot tmp1); u8 (Z.lnot tmp2); b2].

(** [countbits] of a 32-bit word, one iteration per bit. *)
Fixpoint countbits_loop (n : nat) (byte res : Z) : Z :=
  match n with
  | O => res
  | S n => if byte =? 0 then res
           else countbits_loop n (Z.shiftr byte 1) (res + Z.land byte 0x01)
  end.

Definition countbits (byte : Z) : Z := countbits_loop 33 byte 0.

Definition EBADMSG : Z := 74.

Definition ecc_byteoffs (s0 s1 : Z) : Z :=
  let b := Z.land (Z.shiftl s1 0) 0x80 in
  let b := Z.lor b (Z.land (Z.shiftl s1 1) 0x40) in
  let b := Z.lor b (Z.land (Z.shiftl s1 2) 0x20) in
  let b := Z.lor b (Z.land (Z.shiftl s1 3) 0x10) in
  let b := Z.lor b (Z.land (Z.shiftr s0 4) 0x08) in
  let b := Z.lor b (Z.land (Z.shiftr s0 3) 0x04) in
  let b := Z.lor b (Z.land (Z.shiftr s0 2) 0x02) in
  Z.lor b (Z.land (Z.shiftr s0 1) 0x01).

Definition ecc_bitnum (s2 : Z) : Z :=
  let b := Z.land (Z.shiftr s2 5) 0x04 in
  let b := Z.lor b (Z.land (Z.shiftr s2 4) 0x02) in
  Z.lor b (Z.land (Z.shiftr s2 3) 0x01).

Definition single_bit_error (s0 s1 s2 : Z) : bool :=
  (Z.land (Z.lxor s0 (Z.shiftr s0 1)) 0x55 =? 0x55) &&
  (Z.land (Z.lxor s1 (Z.shiftr s1 1)) 0x55 =? 0x55) &&
  (Z.land (Z.lxor s2 (Z.shiftr s2 1)) 0x54 =? 0x54).

(** Return value and data buffer after [nand_correct_data]. *)
Definition nand_correct_data (smc : bool) (dat read_ecc calc_ecc : list Z)
    : Z * list Z :=
  let x0 := Z.lxor (rd calc_ecc 0) (rd read_ecc 0) in
  let x1 := Z.lxor (rd calc_ecc 1) (rd read_ecc 1) in
  let s2 := Z.lxor (rd calc_ecc 2) (rd read_ecc 2) in
  let s0 := if smc then x0 else x1 in
  let s1 := if smc then x1 else x0 in
  if Z.lor (Z.lor s0 s1) s2 =? 0 then (0, dat)
  else if single_bit_error s0 s1 s2 then
    let byteoffs := ecc_byteoffs s0 s1 in
    let bitnum := ecc_bitnum s2 in
    (1, <[Z.to_nat byteoffs :=
            u8 (Z.lxor (rd dat byteoffs) (Z.shiftl 1 bitnum))]> dat)
  else if countbits (Z.lor (Z.lor s0 (Z.shiftl s1 8)) (Z.shiftl s2 16)) =? 1
  then (1, dat)
  else (- EBADMSG, dat).

(** ** Linearity of the code *)

(** [flip dat k b] is [dat] with bit [b] of byte [k] inverted. *)
Definition flip (dat : list Z) (k b : Z) : list Z :=
  <[Z.to_nat k := Z.lxor (rd dat k) (2 ^ b)]> dat.

(** Contribution of bit [b] of byte [k] to the parity registers. *)
Definition delta (k b : Z) : ecc_regs :=
  Regs (Z.land (rd nand_ecc_precalc_table (2 ^ b)) 0x3f) (u8 (Z.lnot k)) k.

Definition rx (r d : ecc_regs) : ecc_regs :=
  Regs (Z.lxor (reg1 r) (reg1 d)) (Z.lxor (reg2 r) (reg2 d))
       (Z.lxor (reg3 r) (reg3 d)).

Lemma table_bytes : byte_list nand_ecc_precalc_table.
Proof. apply (bool_decide_unpack _). vm_compute. exact I. Qed.

Lemma table_linear x b :
  is_byte x -> 0 <= b < 8 ->
  rd nand_ecc_precalc_table (Z.lxor x (2 ^ b)) =
  Z.lxor (rd nand_ecc_precalc_table x) (rd nand_ecc_precalc_table (2 ^ b)).
Proof.
  intros Hx Hb.
  assert (H : forallb (fun x => forallb (fun b =>
    rd nand_ecc_precalc_table (Z.lxor x (2 ^ b)) =?
    Z.lxor (rd nand_ecc_precalc_table x) (rd nand_ecc_precalc_table (2 ^ b)))
    (seqZ 0 8)) (seqZ 0 256) = true) by (vm_compute; reflexivity).
  apply (forallb_seqZ _ _ x) in H; [|done].
  apply (forallb_seqZ _ _ b) in H; [|done]. by apply Z.eqb_eq.
Qed.

Lemma table_odd b : 0 <= b < 8 ->
  Z.land (rd nand_ecc_precalc_table (2 ^ b)) 0x40 = 0x40.
Proof.
  intros Hb. apply Z.eqb_eq.
  apply (forallb_seqZ (fun b => Z.land (rd nand_ecc_precalc_table (2 ^ b)) 0x40
    =? 0x40) 8); [vm_compute; reflexivity|done].
Qed.

Lemma land_0x40 x : Z.land x 0x40 = 0 \/ Z.land x 0x40 = 0x40.
Proof.
  destruct (Z.testbit x 6) eqn:E; [right|left]; apply Z.bits_inj'; intros n Hn;
    rewrite Z.land_spec; change 0x40 with (2 ^ 6);
    rewrite (Z.pow2_bits_eqb 6) by lia; destruct (Z.eqb_spec 6 n) as [<-|];
    rewrite ?E, ?Z.bits_0; auto using andb_false_r.
Qed.

Lemma lxor_swap a b c : Z.lxor (Z.lxor a b) c = Z.lxor (Z.lxor a c) b.
Proof. rewrite !Z.lxor_assoc. f_equal. apply Z.lxor_comm. Qed.

Lemma land_lxor_distr a b c : Z.land (Z.lxor a b) c = Z.lxor (Z.land a c) (Z.land b c).
Proof.
  apply Z.bits_inj. intros n. rewrite !Z.lxor_spec, !Z.land_spec, Z.lxor_spec.
  by destruct (Z.testbit a n), (Z.testbit b n), (Z.testbit c n).
Qed.

Definition regs_ok (r : ecc_regs) : Prop :=
  is_byte (reg1 r) /\ is_byte (reg2 r) /\ is_byte (reg3 r).

Lemma delta_ok k b : 0 <= k < 256 -> regs_ok (delta k b).
Proof.
  intros Hk. split_and!; simpl; eauto with bytes.
Qed.

Lemma rx_ok r d : regs_ok r -> regs_ok d -> regs_ok (rx r d).
Proof. intros (?&?&?) (?&?&?). split_and!; simpl; by apply lxor_byte. Qed.

Lemma ecc_step_ok dat r i : regs_ok r -> regs_ok (ecc_step dat r i).
Proof.
  intros (H1&H2&H3). unfold ecc_step. destruct (_ =? 0); split_and!; simpl;
    eauto with bytes.
Qed.

Lemma ecc_step_rx dat r d i :
  regs_ok d ->
  ecc_step dat (rx r d) i = rx (ecc_step dat r i) d.
Proof.
  intros (_&H2&_). unfold ecc_step, rx.
  destruct (_ =? 0); simpl; f_equal; try apply lxor_swap.
  rewrite !u8_lxor, (u8_small (reg2 d)) by apply H2. apply lxor_swap.
Qed.

Lemma fold_step_rx dat l r d :
  regs_ok d ->
  fold_left (ecc_step dat) l (rx r d) = rx (fold_left (ecc_step dat) l r) d.
Proof.
  intros Hd. revert r. induction l as [|i l IH]; intros r; simpl; [done|].
  rewrite ecc_step_rx by done. apply IH.
Qed.

Lemma rd_flip_eq dat k b :
  0 <= k < Z.of_nat (length dat) -> rd (flip dat k b) k = Z.lxor (rd dat k) (2 ^ b).
Proof.
  intros Hk. unfold flip. apply rd_lookup; [lia|].
  apply list_lookup_insert_eq. lia.
Qed.

Lemma rd_flip_ne dat k b i : 0 <= i -> 0 <= k -> i <> k -> rd (flip dat k b) i = rd dat i.
Proof.
  intros. unfold rd, flip. rewrite !nth_lookup, list_lookup_insert_ne by lia. done.
Qed.

Lemma ecc_step_flip_eq dat r k b :
  0 <= k < 256 -> 0 <= b < 8 -> length dat = 256%nat -> byte_list dat ->
  regs_ok r ->
  ecc_step (flip dat k b) r k = rx (ecc_step dat r k) (delta k b).
Proof.
  intros Hk Hb Hl Hd (Hr1&Hr2&Hr3). unfold ecc_step.
  rewrite rd_flip_eq by lia. rewrite table_linear by eauto with bytes.
  rewrite !land_lxor_distr, table_odd, (u8_small k) by done.
  set (t := rd nand_ecc_precalc_table (rd dat k)).
  assert (Ht : Z.land t 0x40 = 0 \/ Z.land t 0x40 = 0x40) by apply land_0x40.
  rewrite !u8_lxor, !(u8_small (reg2 r)) by apply Hr2.
  destruct Ht as [-> | ->]; unfold rx, delta; simpl; f_equal;
    rewrite ?Z.lxor_assoc, ?Z.lxor_nilpotent, ?Z.lxor_0_r; done.
Qed.

Lemma fold_flip_other dat k b l r :
  0 <= k -> Forall (fun i => 0 <= i /\ i <> k) l ->
  fold_left (ecc_step (flip dat k b)) l r = fold_left (ecc_step dat) l r.
Proof.
  intros Hk Hl. revert r. induction Hl as [|i l [Hi Hne] _ IH]; intros r; simpl; [done|].
  rewrite IH. f_equal. unfold ecc_step. by rewrite rd_flip_ne.
Qed.

Lemma fold_step_ok dat l r : regs_ok r -> regs_ok (fold_left (ecc_step dat) l r).
Proof.
  revert r. induction l as [|i l IH]; intros r Hr; simpl; [done|].
  by apply IH, ecc_step_ok.
Qed.

Lemma regs_zero_ok : regs_ok (Regs 0 0 0).
Proof. split_and!; simpl; auto with bytes. Qed.

Lemma ecc_loop_ok dat : regs_ok (ecc_loop dat).
Proof. apply fold_step_ok, regs_zero_ok. Qed.

Lemma seqZ_split k : 0 <= k < 256 ->
  seqZ 0 256 = seqZ 0 k ++ k :: seqZ (k + 1) (255 - k).
Proof.
  intros Hk. replace 256 with (k + (256 - k)) by lia.
  rewrite seqZ_app by lia. f_equal. rewrite seqZ_cons by lia.
  f_equal; try f_equal; lia.
Qed.

(** A flipped data bit changes the parity registers by a constant. *)
Lemma ecc_loop_flip dat k b :
  0 <= k < 256 -> 0 <= b < 8 -> length dat = 256%nat -> byte_list dat ->
  ecc_loop (flip dat k b) = rx (ecc_loop dat) (delta k b).
Proof.
  intros Hk Hb Hl Hd. unfold ecc_loop. rewrite (seqZ_split k Hk), !fold_left_app.
  simpl. rewrite fold_flip_other; [|lia|].
  2: { apply Forall_seqZ. lia. }
  rewrite ecc_step_flip_eq by (done || apply fold_step_ok, regs_zero_ok).
  rewrite fold_flip_other; [|lia|].
  2: { apply Forall_seqZ. lia. }
  apply fold_step_rx, delta_ok, Hk.
Qed.

Lemma flip_length dat k b : length (flip dat k b) = length dat.
Proof. apply length_insert. Qed.

Lemma flip_bytes dat k b :
  byte_list dat -> 0 <= b < 8 -> byte_list (flip dat k b).
Proof.
  intros Hd Hb. apply Forall_insert; [done|]. apply lxor_byte; [by apply rd_byte|].
  unfold is_byte. split; [lia|]. change 256 with (2 ^ 8).
  apply Z.pow_lt_mono_r; lia.
Qed.

(** The syndrome bytes of two register values are the packing of their
    difference. *)
Lemma ecc_tmp1_byte r2 r3 : is_byte r2 -> is_byte r3 -> is_byte (ecc_tmp1 r2 r3).
Proof. intros. unfold ecc_tmp1. solve_byte. Qed.

Lemma ecc_tmp2_byte r2 r3 : is_byte (ecc_tmp2 r2 r3).
Proof. unfold ecc_tmp2. solve_byte. Qed.

Lemma ecc_tmp1_rx r d :
  regs_ok r -> regs_ok d ->
  Z.lxor (u8 (Z.lnot (ecc_tmp1 (reg2 (rx r d)) (reg3 (rx r d)))))
         (u8 (Z.lnot (ecc_tmp1 (reg2 r) (reg3 r)))) = ecc_tmp1 (reg2 d) (reg3 d).
Proof.
  intros (_&?&?) (_&?&?). unfold ecc_tmp1, rx; simpl. byte_bitwise.
Qed.

Lemma ecc_tmp2_rx r d :
  regs_ok r -> regs_ok d ->
  Z.lxor (u8 (Z.lnot (ecc_tmp2 (reg2 (rx r d)) (reg3 (rx r d)))))
         (u8 (Z.lnot (ecc_tmp2 (reg2 r) (reg3 r)))) = ecc_tmp2 (reg2 d) (reg3 d).
Proof.
  intros (_&?&?) (_&?&?). unfold ecc_tmp2, rx; simpl. byte_bitwise.
Qed.

Lemma ecc_b2_rx r d :
  regs_ok r -> regs_ok d ->
  Z.lxor (u8 (Z.lor (Z.shiftl (Z.lnot (reg1 (rx r d))) 2) 3))
         (u8 (Z.lor (Z.shiftl (Z.lnot (reg1 r)) 2) 3)) = u8 (Z.shiftl (reg1 d) 2).
Proof.
  intros (?&_&_) (?&_&_). unfold rx; simpl. byte_bitwise.
Qed.

(** The syndrome [nand_correct_data] computes for register difference [d]. *)
Definition syn0 (d : ecc_regs) : Z := ecc_tmp2 (reg2 d) (reg3 d).
Definition syn1 (d : ecc_regs) : Z := ecc_tmp1 (reg2 d) (reg3 d).
Definition syn2 (d : ecc_regs) : Z := u8 (Z.shiftl (reg1 d) 2).

(** What [nand_correct_data] does when the recomputed code comes from data whose
    parity registers differ by [d] from those of the stored code. *)
Lemma correct_rx smc dat dat' d :
  regs_ok d -> ecc_loop dat' = rx (ecc_loop dat) d ->
  nand_correct_data smc dat' (nand_calculate_ecc smc dat)
    (nand_calculate_ecc smc dat') =
  if Z.lor (Z.lor (syn0 d) (syn1 d)) (syn2 d) =? 0 then (0, dat')
  else if single_bit_error (syn0 d) (syn1 d) (syn2 d) then
    (1, <[Z.to_nat (ecc_byteoffs (syn0 d) (syn1 d)) :=
       u8 (Z.lxor (rd dat' (ecc_byteoffs (syn0 d) (syn1 d)))
                  (Z.shiftl 1 (ecc_bitnum (syn2 d))))]> dat')
  else if countbits (Z.lor (Z.lor (syn0 d) (Z.shiftl (syn1 d) 8))
                           (Z.shiftl (syn2 d) 16)) =? 1
  then (1, dat') else (- EBADMSG, dat').
Proof.
  intros Hd Hx. pose proof (ecc_loop_ok dat) as Hr.
  unfold nand_correct_data, nand_calculate_ecc. rewrite Hx.
  destruct smc; cbv zeta; rewrite !rd_3_0, !rd_3_1, !rd_3_2,
    ecc_tmp1_rx, ecc_tmp2_rx, ecc_b2_rx by done; reflexivity.
Qed.

(** Each data bit has its own syndrome, which locates it. *)
Definition locates (k b : Z) : bool :=
  let d := delta k b in
  negb (Z.lor (Z.lor (syn0 d) (syn1 d)) (syn2 d) =? 0) &&
  single_bit_error (syn0 d) (syn1 d) (syn2 d) &&
  (ecc_byteoffs (syn0 d) (syn1 d) =? k) && (ecc_bitnum (syn2 d) =? b).

Lemma delta_locates k b : 0 <= k < 256 -> 0 <= b < 8 -> locates k b = true.
Proof.
  intros Hk Hb.
  assert (H : forallb (fun k => forallb (locates k) (seqZ 0 8)) (seqZ 0 256) = true)
    by (vm_compute; reflexivity).
  apply (forallb_seqZ _ _ k) in H; [|done].
  by apply (forallb_seqZ _ _ b) in H.
Qed.

Lemma flip_flip dat k b :
  0 <= k < Z.of_nat (length dat) -> 
  <[Z.to_nat k := Z.lxor (rd (flip dat k b) k) (2 ^ b)]> (flip dat k b) = dat.
Proof.
  intros Hk. rewrite rd_flip_eq by done. unfold flip.
  rewrite list_insert_insert_eq, Z.lxor_assoc, Z.lxor_nilpotent, Z.lxor_0_r.
  apply list_insert_id. unfold rd.
  rewrite nth_lookup. destruct (dat !! Z.to_nat k) eqn:E; [done|].
  apply lookup_ge_None in E. lia.
Qed.

(** ** Two differing bits *)

(** Bits where the two halves of each parity pair of [s] differ. *)
Definition pairs (s m : Z) : Z := Z.land (Z.lxor s (Z.shiftr s 1)) m.

Lemma pairs_lxor s t m : pairs (Z.lxor s t) m = Z.lxor (pairs s m) (pairs t m).
Proof.
  unfold pairs. apply Z.bits_inj'. intros n Hn.
  rewrite !Z.land_spec, !Z.lxor_spec, !Z.shiftr_spec, !Z.land_spec, !Z.lxor_spec,
    !Z.shiftr_spec by done.
  by destruct (Z.testbit s n), (Z.testbit t n), (Z.testbit s (n + 1)),
    (Z.testbit t (n + 1)), (Z.testbit m n).
Qed.

Lemma syn0_rx d e : regs_ok d -> regs_ok e -> syn0 (rx d e) = Z.lxor (syn0 d) (syn0 e).
Proof. intros (_&?&?) (_&?&?). unfold syn0, ecc_tmp2, rx; simpl. byte_bitwise. Qed.

Lemma syn1_rx d e : regs_ok d -> regs_ok e -> syn1 (rx d e) = Z.lxor (syn1 d) (syn1 e).
Proof. intros (_&?&?) (_&?&?). unfold syn1, ecc_tmp1, rx; simpl. byte_bitwise. Qed.

Lemma syn2_rx d e : regs_ok d -> regs_ok e -> syn2 (rx d e) = Z.lxor (syn2 d) (syn2 e).
Proof. intros (?&_&_) (?&_&_). unfold syn2, rx; simpl. byte_bitwise. Qed.

Lemma syn_bytes d : regs_ok d -> is_byte (syn0 d) /\ is_byte (syn1 d) /\ is_byte (syn2 d).
Proof.
  intros (?&?&?). split_and!; [apply ecc_tmp2_byte | by apply ecc_tmp1_byte | apply u8_range].
Qed.

(** No word whose parity pairs all agree has exactly one bit set. *)
Lemma agreeing_pairs_not_one s0 s1 s2 :
  is_byte s0 -> is_byte s1 -> is_byte s2 ->
  pairs s0 0x55 = 0 -> pairs s1 0x55 = 0 -> pairs s2 0x54 = 0 -> Z.land s2 3 = 0 ->
  (countbits (Z.lor (Z.lor s0 (Z.shiftl s1 8)) (Z.shiftl s2 16)) =? 1) = false.
Proof.
  intros H0 H1 H2 P0 P1 P2 L2.
  assert (H : forallb (fun s0 => if pairs s0 0x55 =? 0 then
    forallb (fun s1 => if pairs s1 0x55 =? 0 then
    forallb (fun s2 => if (pairs s2 0x54 =? 0) && (Z.land s2 3 =? 0) then
      negb (countbits (Z.lor (Z.lor s0 (Z.shiftl s1 8)) (Z.shiftl s2 16)) =? 1)
    else true) (seqZ 0 256) else true) (seqZ 0 256) else true) (seqZ 0 256) = true)
    by (vm_compute; reflexivity).
  apply (forallb_seqZ _ _ s0) in H; [|done]. cbv beta in H. rewrite P0, Z.eqb_refl in H; cbv iota in H.
  apply (forallb_seqZ _ _ s1) in H; [|done]. cbv beta in H. rewrite P1, Z.eqb_refl in H; cbv iota in H.
  apply (forallb_seqZ _ _ s2) in H; [|done]. cbv beta in H. rewrite P2, L2, Z.eqb_refl in H; cbn [andb] in H; cbv iota in H.
  by apply negb_true_iff.
Qed.

Lemma locates_spec k b :
  0 <= k < 256 -> 0 <= b < 8 ->
  let d := delta k b in
  (Z.lor (Z.lor (syn0 d) (syn1 d)) (syn2 d) =? 0) = false /\
  single_bit_error (syn0 d) (syn1 d) (syn2 d) = true /\
  ecc_byteoffs (syn0 d) (syn1 d) = k /\ ecc_bitnum (syn2 d) = b.
Proof.
  intros Hk Hb d. pose proof (delta_locates k b Hk Hb) as H. unfold locates in H.
  fold d in H. rewrite !andb_true_iff, negb_true_iff, !Z.eqb_eq in H. tauto.
Qed.

Lemma single_pairs s0 s1 s2 :
  single_bit_error s0 s1 s2 = true <->
  pairs s0 0x55 = 0x55 /\ pairs s1 0x55 = 0x55 /\ pairs s2 0x54 = 0x54.
Proof. unfold single_bit_error. rewrite !andb_true_iff, !Z.eqb_eq. unfold pairs. tauto. Qed.

(** The combined syndrome of two different bits is neither zero, nor that of a
    data bit, nor a single code bit. *)
Lemma delta2_syndrome k b k' b' :
  0 <= k < 256 -> 0 <= b < 8 -> 0 <= k' < 256 -> 0 <= b' < 8 -> (k, b) <> (k', b') ->
  let d := rx (delta k b) (delta k' b') in
  (Z.lor (Z.lor (syn0 d) (syn1 d)) (syn2 d) =? 0) = false /\
  single_bit_error (syn0 d) (syn1 d) (syn2 d) = false /\
  (countbits (Z.lor (Z.lor (syn0 d) (Z.shiftl (syn1 d) 8)) (Z.shiftl (syn2 d) 16)) =? 1) = false.
Proof.
  intros Hk Hb Hk' Hb' Hne d. unfold d.
  destruct (locates_spec k b Hk Hb) as (_ & Hs & Hbo & Hbn).
  destruct (locates_spec k' b' Hk' Hb') as (_ & Hs' & Hbo' & Hbn').
  pose proof (delta_ok k b Hk) as Hd. pose proof (delta_ok k' b' Hk') as Hd'.
  rewrite syn0_rx, syn1_rx, syn2_rx by done.
  apply single_pairs in Hs as (P0 & P1 & P2), Hs' as (P0' & P1' & P2').
  assert (Q0 : pairs (Z.lxor (syn0 (delta k b)) (syn0 (delta k' b'))) 0x55 = 0)
    by (by rewrite pairs_lxor, P0, P0').
  assert (Q1 : pairs (Z.lxor (syn1 (delta k b)) (syn1 (delta k' b'))) 0x55 = 0)
    by (by rewrite pairs_lxor, P1, P1').
  assert (Q2 : pairs (Z.lxor (syn2 (delta k b)) (syn2 (delta k' b'))) 0x54 = 0)
    by (by rewrite pairs_lxor, P2, P2').
  destruct (syn_bytes _ Hd) as (?&?&?), (syn_bytes _ Hd') as (?&?&?).
  split_and!.
  - apply Z.eqb_neq. intros [[E0 E1]%Z.lor_eq_0_iff E2]%Z.lor_eq_0_iff.
    apply Z.lxor_eq in E0, E1, E2. apply Hne. congruence.
  - apply not_true_iff_false. rewrite single_pairs. intros (E & _). by rewrite Q0 in E.
  - apply agreeing_pairs_not_one; try done; try by apply lxor_byte.
    apply Z.bits_inj'. intros n Hn. rewrite Z.land_spec, Z.lxor_spec, Z.bits_0.
    unfold syn2. destruct (decide (n < 2)).
    + rewrite !u8_bits, !Z.shiftl_spec, !Z.testbit_neg_r by lia. done.
    + change 3 with (Z.ones 2). rewrite (Z.ones_spec_high 2) by lia. apply andb_false_r.
Qed.

(** ** Properties *)

(** C4: a single inverted bit anywhere in a 256-byte block is repaired: with the code
    stored before the error and the code recomputed after it,
    [nand_correct_data] reports one corrected bit and restores the block. *)
Theorem nand_single_bit_corrected smc dat k b :
  length dat = 256%nat -> byte_list dat -> 0 <= k < 256 -> 0 <= b < 8 ->
  nand_correct_data smc (flip dat k b) (nand_calculate_ecc smc dat)
    (nand_calculate_ecc smc (flip dat k b)) = (1, dat).
Proof.
  intros Hl Hd Hk Hb. destruct (locates_spec k b Hk Hb) as (E0 & Es & Eo & En).
  rewrite (correct_rx smc dat _ (delta k b)) by (by auto using delta_ok, ecc_loop_flip).
  rewrite E0, Es, Eo, En. f_equal. rewrite Z.shiftl_1_l.
  rewrite u8_small; [by apply flip_flip; lia|]. rewrite rd_flip_eq by lia.
  rewrite Z.lxor_assoc, Z.lxor_nilpotent, Z.lxor_0_r. by apply rd_byte.
Qed.

Lemma nand_single_bit_corrected_witness :
  nand_correct_data false (flip (replicate 256 0xa5) 77 3)
    (nand_calculate_ecc false (replicate 256 0xa5))
    (nand_calculate_ecc false (flip (replicate 256 0xa5) 77 3))
  = (1, replicate 256 0xa5).
Proof.
  apply (nand_single_bit_corrected false (replicate 256 0xa5) 77 3);
    [reflexivity | apply Forall_replicate; unfold is_byte; lia | lia | lia].
Defined.

(** two inverted data bits are never miscorrected: [nand_correct_data] returns
    [-EBADMSG] and leaves the buffer alone. *)
Theorem nand_double_bit_detected smc dat k b k' b' :
  length dat = 256%nat -> byte_list dat ->
  0 <= k < 256 -> 0 <= b < 8 -> 0 <= k' < 256 -> 0 <= b' < 8 -> (k, b) <> (k', b') ->
  let bad := flip (flip dat k b) k' b' in
  nand_correct_data smc bad (nand_calculate_ecc smc dat) (nand_calculate_ecc smc bad)
    = (- EBADMSG, bad).
Proof.
  intros Hl Hd Hk Hb Hk' Hb' Hne bad.
  destruct (delta2_syndrome k b k' b' Hk Hb Hk' Hb' Hne) as (E0 & Es & Ec).
  rewrite (correct_rx smc dat bad (rx (delta k b) (delta k' b'))).
  - by rewrite E0, Es, Ec.
  - by apply rx_ok; apply delta_ok.
  - unfold bad. rewrite ecc_loop_flip by (rewrite ?flip_length; auto using flip_bytes).
    rewrite ecc_loop_flip by done. unfold rx; simpl. by rewrite !Z.lxor_assoc.
Qed.

Lemma nand_double_bit_detected_witness :
  let dat := replicate 256 0x3c in
  let bad := flip (flip dat 0 0) 255 7 in
  nand_correct_data true bad (nand_calculate_ecc true dat) (nand_calculate_ecc true bad)
    = (- EBADMSG, bad).
Proof.
  apply (nand_double_bit_detected true (replicate 256 0x3c) 0 0 255 7);
    [reflexivity | apply Forall_replicate; unfold is_byte; lia | lia .. | congruence].
Defined.

(** damage confined to the stored code does no harm: with an intact code the
    block passes untouched, and with one inverted code bit the call reports
    one bit and keeps the data. *)
Theorem nand_code_damage_harmless smc dat j b :
  0 <= j < 3 -> 0 <= b < 8 ->
  let ecc := nand_calculate_ecc smc dat in
  nand_correct_data smc dat ecc ecc = (0, dat) /\
  nand_correct_data smc dat (flip ecc j b) ecc = (1, dat).
Proof.
  intros Hj Hb ecc. split; unfold nand_correct_data.
  { rewrite !Z.lxor_nilpotent. by destruct smc. }
  assert (Hlen : Z.of_nat (length ecc) = 3) by (unfold ecc, nand_calculate_ecc; by destruct smc).
  assert (Hx : forall i, 0 <= i < 3 ->
    Z.lxor (rd ecc i) (rd (flip ecc j b) i) = if i =? j then 2 ^ b else 0).
  { intros i Hi. destruct (Z.eqb_spec i j) as [->|].
    - rewrite rd_flip_eq by lia. by rewrite <- Z.lxor_assoc, Z.lxor_nilpotent, Z.lxor_0_l.
    - rewrite rd_flip_ne by lia. apply Z.lxor_nilpotent. }
  rewrite !Hx by lia.
  assert (j = 0 \/ j = 1 \/ j = 2) as Cj by lia.
  assert (b = 0 \/ b = 1 \/ b = 2 \/ b = 3 \/ b = 4 \/ b = 5 \/ b = 6 \/ b = 7) as Cb by lia.
  destruct smc; intuition (subst; reflexivity).
Qed.

Lemma nand_code_damage_harmless_witness :
  let ecc := nand_calculate_ecc false (replicate 256 0x11) in
  nand_correct_data false (replicate 256 0x11) ecc ecc = (0, replicate 256 0x11) /\
  nand_correct_data false (replicate 256 0x11) (flip ecc 1 6) ecc = (1, replicate 256 0x11).
Proof. apply (nand_code_damage_harmless false (replicate 256 0x11) 1 6); lia. Defined.
