(* ===== verification/Lmb.v ===== *)
(** Logical memory blocks, [lib_generic/lmb.c]: the table of memory and of
    reserved address ranges that boot uses to place the device tree, the ramdisk
    and the kernel arguments.

    [phys_addr_t], [phys_size_t] and [ulong] are 32 bits wide (a board without
    CONFIG_PHYS_64BIT).  The C array [region[MAX_LMB_REGIONS+1]] is a function
    from indices; [cnt] says how many entries are live, and the entries past it
    keep their stale contents, as in C.  *)

From S2P Require Import Prelude.

(** ** Data *)

Definition MAX_LMB_REGIONS : Z := 8.
Definition LMB_ALLOC_ANYWHERE : Z := 0.

Record lmb_property := Prop_ { base : Z; size : Z }.

Record lmb_region := Region {
  cnt : Z;
  rsize : Z;
  region : Z -> lmb_property
}.

Record lmb := Lmb { memory : lmb_region; reserved : lmb_region }.

(** [region[i] = p] *)
Definition set_region (reg : Z -> lmb_property) (i : Z) (p : lmb_property)
    : Z -> lmb_property := fun j => if j =? i then p else reg j.

Definition with_region (r : lmb_region) (reg : Z -> lmb_property) : lmb_region :=
  Region (cnt r) (rsize r) reg.

Definition with_cnt (r : lmb_region) (c : Z) : lmb_region :=
  Region c (rsize r) (region r).

(** ** Operations *)

Definition lmb_addrs_overlap (base1 size1 base2 size2 : Z) : bool :=
  (base1 <? u32 (base2 + size2)) && (base2 <? u32 (base1 + size1)).

Definition lmb_addrs_adjacent (base1 size1 base2 size2 : Z) : Z :=
  if base2 =? u32 (base1 + size1) then 1
  else if base1 =? u32 (base2 + size2) then -1
  else 0.

Definition lmb_regions_adjacent (rgn : lmb_region) (r1 r2 : Z) : Z :=
  let p1 := region rgn r1 in
  let p2 := region rgn r2 in
  lmb_addrs_adjacent (base p1) (size p1) (base p2) (size p2).

(** The loop runs [cnt - 1 - r] times, computed as unsigned. *)
Definition lmb_remove_region (rgn : lmb_region) (r : Z) : lmb_region :=
  let reg := fold_left (fun reg i => set_region reg i (reg (i + 1)))
               (seqZ r (u32 (cnt rgn - 1) - r)) (region rgn) in
  Region (u32 (cnt rgn - 1)) (rsize rgn) reg.

Definition lmb_coalesce_regions (rgn : lmb_region) (r1 r2 : Z) : lmb_region :=
  let p1 := region rgn r1 in
  let reg := set_region (region rgn) r1
               (Prop_ (base p1) (u32 (size p1 + size (region rgn r2)))) in
  lmb_remove_region (with_region rgn reg) r2.

(** The two fields [lmb_init] sets in each table; the other entries keep
    whatever the memory held. *)
Definition lmb_init (l : lmb) : lmb :=
  let init r := Region 1 0 (set_region (region r) 0 (Prop_ 0 0)) in
  Lmb (init (memory l)) (init (reserved l)).

(** Result of the coalescing loop of [lmb_add_region]: the range is already in
    the table, entry [i] was extended, or nothing touched it. *)
Inductive scan_result :=
  | ScanSame
  | ScanHit (i : Z) (rgn : lmb_region)
  | ScanNone.

Fixpoint add_scan (rgn : lmb_region) (b s i : Z) (n : nat) : scan_result :=
  match n with
  | O => ScanNone
  | S n =>
    let p := region rgn i in
    if (base p =? b) && (size p =? s) then ScanSame
    else
      let adjacent := lmb_addrs_adjacent b s (base p) (size p) in
      if 0 <? adjacent then
        ScanHit i (with_region rgn (set_region (region rgn) i
          (Prop_ (u32 (base p - s)) (u32 (size p + s)))))
      else if adjacent <? 0 then
        ScanHit i (with_region rgn (set_region (region rgn) i
          (Prop_ (base p) (u32 (size p + s)))))
      else add_scan rgn b s (i + 1) n
  end.

(** The insertion loop of [lmb_add_region], for [i = n - 1] down to [0]. *)
Fixpoint add_insert (reg : Z -> lmb_property) (b s : Z) (n : nat)
    : Z -> lmb_property :=
  match n with
  | O => reg
  | S n =>
    let i := Z.of_nat n in
    if b <? base (reg i) then add_insert (set_region reg (i + 1) (reg i)) b s n
    else set_region reg (i + 1) (Prop_ b s)
  end.

Definition lmb_add_region (rgn : lmb_region) (b s : Z) : Z * lmb_region :=
  if (cnt rgn =? 1) && (size (region rgn 0) =? 0) then
    (0, with_region rgn (set_region (region rgn) 0 (Prop_ b s)))
  else
    let merge (i : Z) (rgn : lmb_region) (coalesced : Z) :=
      if (i <? u32 (cnt rgn - 1)) && negb (lmb_regions_adjacent rgn i (i + 1) =? 0)
      then (coalesced + 1, lmb_coalesce_regions rgn i (i + 1))
      else (coalesced, rgn) in
    match add_scan rgn b s 0 (Z.to_nat (cnt rgn)) with
    | ScanSame => (0, rgn)
    | ScanHit i rgn => merge i rgn 1
    | ScanNone =>
      let (coalesced, rgn) := merge (cnt rgn) rgn 0 in
      if 0 <? coalesced then (coalesced, rgn)
      else if MAX_LMB_REGIONS <=? cnt rgn then (-1, rgn)
      else
        let reg := add_insert (region rgn) b s (Z.to_nat (s32 (cnt rgn - 1) + 1)) in
        let reg := if b <? base (reg 0) then set_region reg 0 (Prop_ b s) else reg in
        (0, Region (u32 (cnt rgn + 1)) (rsize rgn) reg)
    end.

Definition lmb_add (l : lmb) (b s : Z) : Z * lmb :=
  let (r, m) := lmb_add_region (memory l) b s in (r, Lmb m (reserved l)).

Definition lmb_reserve (l : lmb) (b s : Z) : Z * lmb :=
  let (r, m) := lmb_add_region (reserved l) b s in (r, Lmb (memory l) m).

(** First live entry whose range contains [b, e). *)
Fixpoint free_find (rgn : lmb_region) (b e i : Z) (n : nat) : option Z :=
  match n with
  | O => None
  | S n =>
    let p := region rgn i in
    if (base p <=? b) && (e <=? u32 (base p + size p)) then Some i
    else free_find rgn b e (i + 1) n
  end.

Definition lmb_free (l : lmb) (b s : Z) : Z * lmb :=
  let rgn := reserved l in
  let e := u32 (b + s) in
  let done r rgn := (r, Lmb (memory l) rgn) in
  match free_find rgn b e 0 (Z.to_nat (cnt rgn)) with
  | None => (-1, l)
  | Some i =>
    let p := region rgn i in
    let rgnbegin := base p in
    let rgnend := u32 (base p + size p) in
    let set q := with_region rgn (set_region (region rgn) i q) in
    if (rgnbegin =? b) && (rgnend =? e) then done 0 (lmb_remove_region rgn i)
    else if rgnbegin =? b then done 0 (set (Prop_ e (u32 (size p - s))))
    else if rgnend =? e then done 0 (set (Prop_ (base p) (u32 (size p - s))))
    else
      let (r, rgn) := lmb_add_region (set (Prop_ (base p) (u32 (b - base p))))
                        e (u32 (rgnend - e)) in
      done r rgn
  end.

(** Index of the first live entry that meets [b, b + s), or [-1]. *)
Fixpoint overlaps_from (rgn : lmb_region) (b s i : Z) (n : nat) : Z :=
  match n with
  | O => -1
  | S n =>
    let p := region rgn i in
    if lmb_addrs_overlap b s (base p) (size p) then i
    else overlaps_from rgn b s (i + 1) n
  end.

Definition lmb_overlaps_region (rgn : lmb_region) (b s : Z) : Z :=
  overlaps_from rgn b s 0 (Z.to_nat (cnt rgn)).

Definition lmb_align_down (addr sz : Z) : Z := Z.land addr (u32 (Z.lnot (u32 (sz - 1)))).

Definition lmb_align_up (addr sz : Z) : Z :=
  Z.land (u32 (addr + u32 (sz - 1))) (u32 (Z.lnot (u32 (sz - 1)))).

(** What the inner loop of [__lmb_alloc_base] ends with: the function returns
    this address, or the search goes on in the next memory range. *)
Inductive probe_result :=
  | ProbeReturn (addr : Z) (rgn : lmb_region)
  | ProbeNext.

(** The inner [while]; [None] only if the fuel is too small. *)
Fixpoint alloc_probe (fuel : nat) (res : lmb_region) (lmbbase b s align : Z)
    : option probe_result :=
  match fuel with
  | O => None
  | S fuel =>
    if negb (b =? 0) && (lmbbase <=? b) then
      let j := lmb_overlaps_region res b s in
      if j <? 0 then
        let (r, res') := lmb_add_region res b (lmb_align_up s align) in
        if r <? 0 then Some (ProbeReturn 0 res') else Some (ProbeReturn b res')
      else
        let res_base := base (region res j) in
        if res_base <? s then Some ProbeNext
        else alloc_probe fuel res lmbbase (lmb_align_down (u32 (res_base - s)) align) s align
    else Some ProbeNext
  end.

(** The outer loop of [__lmb_alloc_base], for [i = n - 1] down to [0]. *)
Fixpoint alloc_scan (n : nat) (l : lmb) (s align max_addr : Z) : option (Z * lmb) :=
  match n with
  | O => Some (0, l)
  | S n =>
    let p := region (memory l) (Z.of_nat n) in
    let top := u32 (base p + size p) in
    let probe b :=
      match alloc_probe (S (Z.to_nat (cnt (reserved l)))) (reserved l) (base p) b s align with
      | None => None
      | Some (ProbeReturn a res) => Some (a, Lmb (memory l) res)
      | Some ProbeNext => alloc_scan n l s align max_addr
      end in
    if size p <? s then alloc_scan n l s align max_addr
    else if max_addr =? LMB_ALLOC_ANYWHERE then probe (lmb_align_down (u32 (top - s)) align)
    else if base p <? max_addr then
      probe (lmb_align_down (u32 (Z.min top max_addr - s)) align)
    else alloc_scan n l s align max_addr
  end.

Definition __lmb_alloc_base (l : lmb) (s align max_addr : Z) : option (Z * lmb) :=
  alloc_scan (Z.to_nat (s32 (cnt (memory l) - 1) + 1)) l s align max_addr.

(** Address, state, and whether the failure message is printed. *)
Definition lmb_alloc_base (l : lmb) (s align max_addr : Z) : option (Z * lmb * bool) :=
  match __lmb_alloc_base l s align max_addr with
  | None => None
  | Some (a, l') => Some (a, l', a =? 0)
  end.

Definition lmb_alloc (l : lmb) (s align : Z) : option (Z * lmb * bool) :=
  lmb_alloc_base l s align LMB_ALLOC_ANYWHERE.

Fixpoint reserved_from (rgn : lmb_region) (addr i : Z) (n : nat) : Z :=
  match n with
  | O => 0
  | S n =>
    let p := region rgn i in
    if (base p <=? addr) && (addr <=? u32 (base p + size p - 1)) then 1
    else reserved_from rgn addr (i + 1) n
  end.

Definition lmb_is_reserved (l : lmb) (addr : Z) : Z :=
  reserved_from (reserved l) addr 0 (Z.to_nat (cnt (reserved l))).

(** ** Well-formed tables and the bytes they cover *)

Abbreviation rend p := (base p + size p).

(** Live entries are non-empty, do not wrap, and are strictly separated in
    increasing order. *)
Record wf (r : lmb_region) : Prop := {
  wf_cnt : 1 <= cnt r <= MAX_LMB_REGIONS;
  wf_entry : forall i, 0 <= i < cnt r ->
    0 <= base (region r i) /\ 0 < size (region r i) /\ rend (region r i) < 2 ^ 32;
  wf_sorted : forall i, 0 <= i < cnt r - 1 ->
    rend (region r i) < base (region r (i + 1))
}.

(** The state [lmb_init] leaves: one dummy entry of size zero. *)
Definition dummy (r : lmb_region) : Prop := cnt r = 1 /\ region r 0 = Prop_ 0 0.

Definition in_entry (p : lmb_property) (a : Z) : Prop := base p <= a < rend p.

(** Byte [a] belongs to a live entry. *)
Definition covered (r : lmb_region) (a : Z) : Prop :=
  exists i, 0 <= i < cnt r /\ in_entry (region r i) a.

Lemma set_region_eq reg i p : set_region reg i p i = p.
Proof. unfold set_region. by rewrite Z.eqb_refl. Qed.

Lemma set_region_ne reg i p j : j <> i -> set_region reg i p j = reg j.
Proof. intros H%Z.eqb_neq. unfold set_region. by rewrite H. Qed.

Create Rewrite HintDb lmb.
#[export] Hint Rewrite set_region_eq : lmb.
#[export] Hint Rewrite set_region_ne using lia : lmb.

Lemma dummy_covered r a : dummy r -> ~ covered r a.
Proof.
  intros [Hc Hs] (i & Hi & Ha). assert (i = 0) as -> by lia.
  unfold in_entry in Ha. rewrite Hs in Ha. simpl in Ha. lia.
Qed.

Lemma wf_lt r i j : wf r -> 0 <= i -> i < j -> j < cnt r ->
  rend (region r i) < base (region r j).
Proof.
  intros Hw Hi Hij Hj. assert (exists n, j = i + 1 + Z.of_nat n) as [n ->].
  { exists (Z.to_nat (j - i - 1)). lia. }
  clear Hij. induction n as [|n IH].
  - replace (i + 1 + Z.of_nat 0) with (i + 1) by lia. apply (wf_sorted _ Hw). lia.
  - pose proof (IH ltac:(lia)). pose proof (wf_entry _ Hw (i + 1 + Z.of_nat n) ltac:(lia)).
    pose proof (wf_sorted _ Hw (i + 1 + Z.of_nat n) ltac:(lia)).
    replace (i + 1 + Z.of_nat (S n)) with (i + 1 + Z.of_nat n + 1) by lia. lia.
Qed.

(** The range [b, b + s) is free in the table. *)
Definition apart (r : lmb_region) (b s : Z) : Prop :=
  forall i, 0 <= i < cnt r ->
    b + s <= base (region r i) \/ rend (region r i) <= b.

(** Nothing of [b, b + s) is in the table yet. *)
Definition fresh (r : lmb_region) (b s : Z) : Prop :=
  forall a, b <= a < b + s -> ~ covered r a.

Definition valid_range (b s : Z) : Prop := 0 <= b /\ 0 < s /\ b + s < 2 ^ 32.

Lemma apart_covered r b s :
  wf r -> valid_range b s ->
  apart r b s <-> fresh r b s.
Proof.
  intros Hw Hv. split.
  - intros Ha a Hr (i & Hi & Hin). pose proof (Ha i Hi). unfold in_entry in Hin. lia.
  - intros Hc i Hi. pose proof (wf_entry _ Hw i Hi) as He. unfold valid_range in Hv.
    destruct (Z.le_gt_cases (b + s) (base (region r i))); [by left|].
    destruct (Z.le_gt_cases (rend (region r i)) b); [by right|].
    exfalso. apply (Hc (Z.max b (base (region r i)))); [lia|].
    exists i. unfold in_entry. lia.
Qed.

(** ** Shifting the table *)

Lemma remove_loop reg r n :
  forall j, fold_left (fun reg i => set_region reg i (reg (i + 1)))
    (seqZ r (Z.of_nat n)) reg j =
  if (r <=? j) && (j <? r + Z.of_nat n) then reg (j + 1) else reg j.
Proof.
  induction n as [|n IH]; intros j.
  - rewrite seqZ_nil by lia. simpl. destruct (_ && _) eqn:E; [|done].
    apply andb_true_iff in E as [?%Z.leb_le ?%Z.ltb_lt]. lia.
  - rewrite seqZ_S, fold_left_app. simpl. unfold set_region at 1. rewrite !IH.
    destruct (Z.eqb_spec j (r + Z.of_nat n)) as [->|].
    + rewrite (proj2 (Z.leb_le r (r + Z.of_nat n))) by lia.
      rewrite (proj2 (Z.ltb_lt _ (r + Z.of_nat (S n)))) by lia. simpl.
      destruct (_ && _) eqn:E; [|done].
      apply andb_true_iff in E as [?%Z.leb_le ?%Z.ltb_lt]. lia.
    + f_equal. bdestruct; done.
Qed.

Lemma remove_region_spec rgn r :
  0 <= r < cnt rgn -> cnt rgn <= MAX_LMB_REGIONS ->
  cnt (lmb_remove_region rgn r) = cnt rgn - 1 /\
  (forall j, region (lmb_remove_region rgn r) j =
     if (r <=? j) && (j <? cnt rgn - 1) then region rgn (j + 1) else region rgn j).
Proof.
  intros Hr Hc. unfold lmb_remove_region, MAX_LMB_REGIONS in *. simpl.
  rewrite u32_small by lia. split; [done|]. intros j.
  replace (cnt rgn - 1 - r) with (Z.of_nat (Z.to_nat (cnt rgn - 1 - r))) by lia.
  rewrite remove_loop. by replace (r + _) with (cnt rgn - 1) by lia.
Qed.

Lemma insert_spec reg b s n :
  exists p, (p <= n)%nat /\
  (forall j, Z.of_nat p <= j < Z.of_nat n -> b < base (reg j)) /\
  ((0 < p)%nat -> base (reg (Z.of_nat p - 1)) <= b) /\
  (forall j, add_insert reg b s n j =
     if j <? Z.of_nat p then reg j
     else if j =? Z.of_nat p then (if (0 <? p)%nat then Prop_ b s else reg j)
     else if j <=? Z.of_nat n then reg (j - 1) else reg j).
Proof.
  revert reg. induction n as [|n IH]; intros reg.
  { exists 0%nat. simpl. split_and!; try lia. intros j. by bdestruct. }
  simpl add_insert. destruct (Z.ltb_spec b (base (reg (Z.of_nat n)))) as [Hlt|Hge].
  - destruct (IH (set_region reg (Z.of_nat n + 1) (reg (Z.of_nat n)))) as (p & Hp & Hb & H0 & Hj).
    exists p. split_and!; [lia|..].
    + intros j Hjr. destruct (Z.eq_dec j (Z.of_nat n)) as [->|]; [done|].
      specialize (Hb j ltac:(lia)). by rewrite set_region_ne in Hb by lia.
    + intros Hp0. specialize (H0 Hp0). by rewrite set_region_ne in H0 by lia.
    + intros j. rewrite Hj. clear Hj. unfold set_region.
      destruct (0 <? p)%nat eqn:Ep; bdestruct; try done; f_equal; lia.
  - exists (S n). split_and!; [lia|lia|..].
    + intros _. by replace (Z.of_nat (S n) - 1) with (Z.of_nat n) by lia.
    + intros j. unfold set_region. simpl (0 <? S n)%nat. bdestruct; done.
Qed.

(** ** Adding a range *)

Definition touches (p : lmb_property) (b s : Z) : Prop :=
  base p = b + s \/ rend p = b.

Definition grown (p : lmb_property) (b s : Z) : lmb_property :=
  if base p =? b + s then Prop_ b (size p + s) else Prop_ (base p) (size p + s).

Definition scan_spec (r : lmb_region) (b s i : Z) (res : scan_result) : Prop :=
  match res with
  | ScanSame => False
  | ScanHit k r' => i <= k < cnt r /\ touches (region r k) b s /\
      r' = with_region r (set_region (region r) k (grown (region r k) b s)) /\
      (forall j, i <= j < k -> ~ touches (region r j) b s)
  | ScanNone => forall j, i <= j < cnt r -> ~ touches (region r j) b s
  end.

Lemma grown_bounds p b s :
  0 <= base p -> 0 < size p -> rend p < 2 ^ 32 -> valid_range b s -> touches p b s ->
  0 <= size p + s < 2 ^ 32.
Proof. unfold valid_range, touches. lia. Qed.

Lemma add_scan_spec r b s n i :
  wf r -> valid_range b s -> apart r b s -> 0 <= i -> i + Z.of_nat n = cnt r ->
  scan_spec r b s i (add_scan r b s i n).
Proof.
  intros Hw Hv Ha. revert i. induction n as [|n IH]; intros i Hi Hn; simpl; [lia|].
  pose proof (wf_entry _ Hw i ltac:(lia)) as (Hb & Hs & He).
  pose proof (Ha i ltac:(lia)) as Hap. pose proof Hv as Hv'. unfold valid_range in Hv'.
  destruct ((base (region r i) =? b) && (size (region r i) =? s)) eqn:E.
  { apply andb_true_iff in E as [?%Z.eqb_eq ?%Z.eqb_eq]. lia. }
  unfold lmb_addrs_adjacent. rewrite !(u32_small (_ + _)) by lia.
  destruct (Z.eqb_spec (base (region r i)) (b + s)) as [Heq|Hne]; simpl.
  { split_and!; [lia|lia|by left|..|lia].
    unfold grown. rewrite Heq, Z.eqb_refl, !u32_small by lia. do 3 f_equal. lia. }
  destruct (Z.eqb_spec b (rend (region r i))) as [Heq|Hne']; simpl.
  { split_and!; [lia|lia|right; lia|..|lia].
    unfold grown. apply Z.eqb_neq in Hne. by rewrite Hne. }
  specialize (IH (i + 1) ltac:(lia) ltac:(lia)).
  assert (~ touches (region r i) b s) by (unfold touches; lia).
  assert (Hstep : forall j, i <= j -> j = i \/ i + 1 <= j) by lia.
  destruct (add_scan r b s (i + 1) n); simpl in *; [done|..].
  - destruct IH as (? & ? & ? & Hj). split_and!; try done; try lia.
    intros j Hj'. destruct (Hstep j ltac:(lia)) as [->|]; [done|]. apply Hj. lia.
  - intros j Hj'. destruct (Hstep j ltac:(lia)) as [->|]; [done|]. apply IH. lia.
Qed.

(** What adding the free range [b, b + s) must achieve. *)
Definition added (r r' : lmb_region) (b s : Z) : Prop :=
  wf r' /\ forall a, covered r' a <-> covered r a \/ b <= a < b + s.

(** Extending entry [k] up to a gap keeps the table well-formed. *)
Lemma grow_wf r b s k :
  wf r -> valid_range b s -> apart r b s -> 0 <= k < cnt r ->
  touches (region r k) b s ->
  (forall j, 0 <= j < k -> ~ touches (region r j) b s) ->
  (k < cnt r - 1 -> rend (region r k) = b -> base (region r (k + 1)) <> b + s) ->
  added r (with_region r (set_region (region r) k (grown (region r k) b s))) b s.
Proof.
  intros Hw Hv Ha Hk Ht Hpre Hnext.
  pose proof (wf_entry _ Hw k Hk) as Ek. unfold touches, valid_range in *.
  assert (Hg : base (grown (region r k) b s) = Z.min b (base (region r k)) /\
               size (grown (region r k) b s) = size (region r k) + s).
  { unfold grown. destruct (Z.eqb_spec (base (region r k)) (b + s)); simpl; lia. }
  destruct Hg as [Hgb Hgs]. split.
  - constructor; simpl; [apply Hw|..].
    + intros i Hi. unfold set_region. destruct (Z.eqb_spec i k) as [->|];
        [lia | by apply (wf_entry _ Hw)].
    + intros i Hi. pose proof (wf_sorted _ Hw i Hi). unfold set_region.
      pose proof (Ha (i + 1) ltac:(lia)). pose proof (Ha i ltac:(lia)).
      pose proof (wf_entry _ Hw i ltac:(lia)). pose proof (wf_entry _ Hw (i + 1) ltac:(lia)).
      assert (i < k -> rend (region r i) <> b) by (intros; pose proof (Hpre i); lia).
      destruct (Z.eqb_spec i k), (Z.eqb_spec (i + 1) k); try subst i; try subst k; lia.
  - intros a. unfold covered, with_region; simpl. split.
    + intros (i & Hi & Hin). unfold set_region, in_entry in *.
      destruct (Z.eqb_spec i k) as [->|]; [|left; eauto].
      destruct (Z.lt_ge_cases a b); [left|destruct (Z.lt_ge_cases a (b + s)); [by right|left]];
        exists k; lia.
    + intros [(i & Hi & Hin)|Hin].
      * exists i. split; [done|]. unfold set_region, in_entry in *.
        destruct (Z.eqb_spec i k) as [->|]; lia.
      * exists k. split; [done|]. unfold in_entry. rewrite set_region_eq. lia.
Qed.

(** Two entries and the range between them become one. *)
Lemma bridge_spec r b s k :
  wf r -> valid_range b s -> 0 <= k < cnt r - 1 ->
  rend (region r k) = b -> base (region r (k + 1)) = b + s ->
  added r (lmb_coalesce_regions
    (with_region r (set_region (region r) k (grown (region r k) b s))) k (k + 1)) b s.
Proof.
  intros Hw Hv Hk Hr Hl. unfold valid_range in Hv.
  pose proof (wf_cnt _ Hw) as Hc.
  pose proof (wf_entry _ Hw k ltac:(lia)) as Ek.
  pose proof (wf_entry _ Hw (k + 1) ltac:(lia)) as Ek1.
  unfold lmb_coalesce_regions. simpl.
  set (big := Prop_ (base (region r k)) (size (region r k) + s + size (region r (k + 1)))).
  set (r1 := with_region _ _).
  assert (Hr1 : forall j, region r1 j = if j =? k then big else region r j).
  { intros j. unfold r1, with_region, set_region; simpl.
    destruct (Z.eqb_spec j k) as [->|]; [|done].
    rewrite Z.eqb_refl. destruct (Z.eqb_spec (k + 1) k); [lia|].
    unfold grown. destruct (Z.eqb_spec (base (region r k)) (b + s)); [lia|].
    simpl. by rewrite u32_small by lia. }
  destruct (remove_region_spec r1 (k + 1)) as [Hcnt Hreg]; [unfold r1; simpl; lia..|].
  change (cnt r1) with (cnt r) in Hcnt, Hreg. split.
  - constructor; rewrite ?Hcnt; [lia|..].
    + intros i Hi. rewrite Hreg, !Hr1.
      destruct ((k + 1 <=? i) && (i <? cnt r - 1)) eqn:E.
      * apply andb_true_iff in E as [?%Z.leb_le ?%Z.ltb_lt].
        destruct (Z.eqb_spec (i + 1) k); [lia|]. apply (wf_entry _ Hw). lia.
      * destruct (Z.eqb_spec i k); [simpl; lia|]. apply (wf_entry _ Hw). lia.
    + intros i Hi. rewrite !Hreg, !Hr1. pose proof (wf_sorted _ Hw i ltac:(lia)).
      pose proof (wf_sorted _ Hw (i + 1) ltac:(lia)).
      destruct (Z.lt_trichotomy i k) as [|[->|]].
      * rewrite !(proj2 (Z.leb_gt (k + 1) _)) by lia. simpl.
        destruct (Z.eqb_spec i k); [lia|].
        destruct (Z.eqb_spec (i + 1) k) as [<-|]; simpl; lia.
      * rewrite (proj2 (Z.leb_gt (k + 1) k)), (proj2 (Z.leb_le (k + 1) (k + 1))),
          (proj2 (Z.ltb_lt (k + 1) (cnt r - 1))) by lia. simpl.
        rewrite Z.eqb_refl. destruct (Z.eqb_spec (k + 1 + 1) k); simpl; lia.
      * rewrite !(proj2 (Z.leb_le (k + 1) _)), !(proj2 (Z.ltb_lt _ (cnt r - 1))) by lia.
        simpl. destruct (Z.eqb_spec (i + 1) k), (Z.eqb_spec (i + 1 + 1) k); lia.
  - intros a. unfold covered, in_entry. rewrite Hcnt. split.
    + intros (i & Hi & Hin). rewrite Hreg, !Hr1 in Hin.
      destruct ((k + 1 <=? i) && (i <? cnt r - 1)) eqn:E.
      * apply andb_true_iff in E as [?%Z.leb_le ?%Z.ltb_lt].
        destruct (Z.eqb_spec (i + 1) k); [lia|]. left. exists (i + 1). lia.
      * destruct (Z.eqb_spec i k) as [->|]; [|left; exists i; lia]. simpl in Hin.
        destruct (Z.lt_ge_cases a b); [left; exists k; lia|].
        destruct (Z.lt_ge_cases a (b + s)); [by right|]. left; exists (k + 1); lia.
    + intros [(i & Hi & Hin)|Hin].
      * destruct (Z.le_gt_cases i k); [|destruct (Z.eq_dec i (k + 1)) as [->|]].
        -- exists i. rewrite Hreg, !Hr1, (proj2 (Z.leb_gt (k + 1) i)) by lia. simpl.
           destruct (Z.eqb_spec i k) as [->|]; simpl; lia.
        -- exists k. rewrite Hreg, !Hr1, (proj2 (Z.leb_gt (k + 1) k)) by lia. simpl.
           rewrite Z.eqb_refl. simpl. lia.
        -- exists (i - 1). rewrite Hreg, !Hr1, (proj2 (Z.leb_le (k + 1) _)),
             (proj2 (Z.ltb_lt _ (cnt r - 1))) by lia. simpl.
           replace (i - 1 + 1) with i by lia. destruct (Z.eqb_spec i k); lia.
      * exists k. rewrite Hreg, !Hr1, (proj2 (Z.leb_gt (k + 1) k)) by lia. simpl.
        rewrite Z.eqb_refl. simpl. lia.
Qed.

(** The shifted table after the insertion loop and the fix-up of entry 0. *)
Lemma insert_added r b s :
  wf r -> valid_range b s -> apart r b s -> cnt r < MAX_LMB_REGIONS ->
  (forall j, 0 <= j < cnt r -> ~ touches (region r j) b s) ->
  let reg := add_insert (region r) b s (Z.to_nat (cnt r)) in
  added r (Region (cnt r + 1) (rsize r)
    (if b <? base (reg 0) then set_region reg 0 (Prop_ b s) else reg)) b s.
Proof.
  intros Hw Hv Ha Hc Ht reg. pose proof (wf_cnt _ Hw) as Hc1. unfold valid_range in Hv.
  destruct (insert_spec (region r) b s (Z.to_nat (cnt r))) as (p & Hp & Hhi & Hlo & Hreg).
  fold reg in Hreg. set (q := Z.of_nat p) in *.
  assert (Hloq : 0 < q -> base (region r (q - 1)) <= b) by (intros; apply Hlo; lia).
  set (reg' := if b <? base (reg 0) then _ else _).
  assert (Hreg' : forall j, reg' j =
    if j <? q then region r j else if j =? q then Prop_ b s
    else if j <=? cnt r then region r (j - 1) else region r j).
  { intros j. unfold reg'. rewrite (Hreg 0). destruct (Z.ltb_spec 0 q) as [Hq|Hq].
    - assert (base (region r 0) <= b).
      { destruct (Z.eq_dec q 1) as [->|]; [by apply Hloq|].
        pose proof (wf_lt r 0 (q - 1) Hw). pose proof (wf_entry _ Hw 0 ltac:(lia)). lia. }
      destruct (Z.ltb_spec b (base (region r 0))); [lia|].
      rewrite Hreg, Z2Nat.id by lia. destruct (j <? q), (Z.eqb_spec j q); try done.
      destruct (Nat.ltb_spec 0 p); [done|lia].
    - assert (q = 0) as Hq0 by lia. rewrite Hq0, Z.eqb_refl.
      destruct (Nat.ltb_spec 0 p); [lia|].
      destruct (Z.ltb_spec b (base (region r 0))) as [|Hb]; [|specialize (Hhi 0); lia].
      unfold set_region. rewrite Hreg, Hq0, Z2Nat.id by lia.
      destruct (Z.eqb_spec j 0) as [->|]; [by rewrite Z.ltb_irrefl|].
      by destruct (j <? 0). }
  clearbody reg'. clear Hreg Hlo reg.
  assert (Hprev : 0 < q -> rend (region r (q - 1)) < b).
  { intros Hq. pose proof (Ha (q - 1) ltac:(lia)). pose proof (Ht (q - 1) ltac:(lia)) as Hn.
    pose proof (wf_entry _ Hw (q - 1) ltac:(lia)). unfold touches in Hn. lia. }
  assert (Hnext : q < cnt r -> b + s < base (region r q)).
  { intros Hq. pose proof (Ha q ltac:(lia)). pose proof (Ht q ltac:(lia)) as Hn.
    pose proof (wf_entry _ Hw q ltac:(lia)). specialize (Hhi q ltac:(lia)).
    unfold touches in Hn. lia. }
  split.
  - unfold MAX_LMB_REGIONS in *. constructor; simpl; [unfold MAX_LMB_REGIONS; lia|..].
    + intros i Hi. rewrite Hreg'. destruct (Z.ltb_spec i q); [apply (wf_entry _ Hw); lia|].
      destruct (Z.eqb_spec i q); [simpl; lia|].
      destruct (Z.leb_spec i (cnt r)); [apply (wf_entry _ Hw); lia|lia].
    + intros i Hi. rewrite !Hreg'.
      pose proof (wf_sorted _ Hw i). pose proof (wf_sorted _ Hw (i - 1)).
      replace (i - 1 + 1) with i in * by lia. replace (i + 1 - 1) with i by lia.
      destruct (Z.ltb_spec i q), (Z.ltb_spec (i + 1) q), (Z.eqb_spec i q),
        (Z.eqb_spec (i + 1) q); try lia; simpl.
      * replace i with (q - 1) by lia. lia.
      * subst i. rewrite (proj2 (Z.leb_le (q + 1) (cnt r))) by lia. lia.
      * rewrite !(proj2 (Z.leb_le _ (cnt r))) by lia. lia.
  - intros a. unfold covered, in_entry; simpl. split.
    + intros (i & Hi & Hin). rewrite Hreg' in Hin.
      destruct (Z.ltb_spec i q); [left; exists i; lia|].
      destruct (Z.eqb_spec i q); [right; simpl in Hin; lia|].
      destruct (Z.leb_spec i (cnt r)); [left; exists (i - 1); lia|lia].
    + intros [(i & Hi & Hin)|Hin].
      * destruct (Z.lt_ge_cases i q).
        -- exists i. rewrite Hreg', (proj2 (Z.ltb_lt i q)) by lia. lia.
        -- exists (i + 1). rewrite Hreg', (proj2 (Z.ltb_ge (i + 1) q)),
             (proj2 (Z.eqb_neq (i + 1) q)), (proj2 (Z.leb_le (i + 1) (cnt r))) by lia.
           replace (i + 1 - 1) with i by lia. lia.
      * exists q. rewrite Hreg', Z.ltb_irrefl, Z.eqb_refl. simpl. lia.
Qed.

Lemma dummy_added r b s :
  dummy r -> valid_range b s ->
  added r (with_region r (set_region (region r) 0 (Prop_ b s))) b s.
Proof.
  intros Hd Hv. pose proof Hd as [Hc Hs]. unfold valid_range in Hv. split.
  - constructor; simpl; rewrite Hc; unfold MAX_LMB_REGIONS; try lia.
    intros i Hi. assert (i = 0) as -> by lia. rewrite set_region_eq. simpl. lia.
  - intros a. split.
    + intros (i & Hi & Hin). simpl in *. assert (i = 0) as -> by lia.
      rewrite set_region_eq in Hin. by right.
    + intros [H|Hin]; [by apply dummy_covered in H|].
      exists 0. simpl. rewrite set_region_eq. split; [lia|done].
Qed.

Lemma wf_not_dummy r : wf r -> (cnt r =? 1) && (size (region r 0) =? 0) = false.
Proof.
  intros Hw. pose proof (wf_cnt _ Hw). pose proof (wf_entry _ Hw 0 ltac:(lia)).
  destruct (Z.eqb_spec (size (region r 0)) 0); [lia|]. apply andb_false_r.
Qed.

(** [lmb_add_region] on a usable table, every branch. *)
Lemma add_region_spec r b s :
  wf r \/ dummy r -> valid_range b s -> fresh r b s ->
  let (ret, r') := lmb_add_region r b s in
  (0 <= ret /\ added r r' b s) \/ (ret = -1 /\ r' = r /\ cnt r = MAX_LMB_REGIONS).
Proof.
  intros Hw Hv Hf. unfold lmb_add_region. destruct Hw as [Hw|Hd].
  2: { pose proof Hd as [-> ->]. simpl. left. split; [lia|by apply dummy_added]. }
  rewrite wf_not_dummy by done. pose proof (wf_cnt _ Hw) as Hc.
  assert (Ha : apart r b s) by (by apply apart_covered).
  pose proof (add_scan_spec r b s (Z.to_nat (cnt r)) 0 Hw Hv Ha ltac:(lia) ltac:(lia)) as Hs.
  unfold MAX_LMB_REGIONS in *.
  destruct (add_scan r b s 0 (Z.to_nat (cnt r))) as [|k r'|]; simpl in Hs; [done|..].
  - destruct Hs as (Hk & Ht & -> & Hpre). simpl. rewrite u32_small by lia.
    pose proof (wf_entry _ Hw k Hk) as Ek. pose proof Hv as Hv'. unfold valid_range in Hv'.
    destruct (Z.ltb_spec k (cnt r - 1)) as [Hlt|Hge]; simpl.
    2: { left. split; [lia|]. apply grow_wf; try done. lia. }
    pose proof (wf_sorted _ Hw k ltac:(lia)). pose proof (wf_entry _ Hw (k + 1) ltac:(lia)) as Ek1.
    pose proof (Ha (k + 1) ltac:(lia)).
    unfold lmb_regions_adjacent, lmb_addrs_adjacent; simpl.
    rewrite set_region_eq, set_region_ne by lia.
    assert (Hg : rend (grown (region r k) b s) = rend (region r k) + s /\ rend (region r k) = b
        /\ base (grown (region r k) b s) = base (region r k)
      \/ rend (grown (region r k) b s) = rend (region r k) /\ base (region r k) = b + s
        /\ base (grown (region r k) b s) = b).
    { unfold grown, touches in *. destruct (Z.eqb_spec (base (region r k)) (b + s)); simpl; lia. }
    rewrite !u32_small by lia.
    destruct (Z.eqb_spec (base (region r (k + 1))) (rend (grown (region r k) b s))) as [He|He].
    + simpl. left. split; [lia|]. apply bridge_spec; try done; lia.
    + destruct (Z.eqb_spec (base (grown (region r k) b s)) (rend (region r (k + 1)))); [lia|].
      simpl. left. split; [lia|]. apply grow_wf; try done; lia.
  - rewrite u32_small by lia. destruct (Z.ltb_spec (cnt r) (cnt r - 1)); [lia|]. simpl.
    destruct (Z.leb_spec 8 (cnt r)); [right; split_and!; lia || done|]. left.
    split; [lia|]. rewrite s32_small, Z.sub_add, u32_small by lia. by apply insert_added.
Qed.

(** ** Freeing a range *)

(** What freeing [b, b + s) must achieve on the covered bytes. *)
Definition removed (r r' : lmb_region) (b s : Z) : Prop :=
  forall a, covered r' a <-> covered r a /\ ~ (b <= a < b + s).

Lemma entry_unique r i j a :
  wf r -> 0 <= i < cnt r -> 0 <= j < cnt r ->
  in_entry (region r i) a -> in_entry (region r j) a -> i = j.
Proof.
  intros Hw Hi Hj Hai Haj. unfold in_entry in *.
  destruct (Z.lt_trichotomy i j) as [|[|]]; [|done|].
  - pose proof (wf_lt r i j Hw). lia.
  - pose proof (wf_lt r j i Hw). lia.
Qed.

Lemma shrink_spec r i p :
  wf r -> 0 <= i < cnt r -> base (region r i) <= base p -> 0 < size p ->
  rend p <= rend (region r i) ->
  let r' := with_region r (set_region (region r) i p) in
  wf r' /\ forall a, covered r' a <->
    covered r a /\ (in_entry (region r i) a -> in_entry p a).
Proof.
  intros Hw Hi Hb Hs He r'. pose proof (wf_entry _ Hw i Hi) as Ei. split.
  - constructor; unfold r'; simpl; [apply Hw|..]; intros j Hj; unfold set_region.
    + destruct (Z.eqb_spec j i); [lia|by apply (wf_entry _ Hw)].
    + pose proof (wf_sorted _ Hw j Hj).
      destruct (Z.eqb_spec j i), (Z.eqb_spec (j + 1) i); try subst j; try subst i; lia.
  - intros a. unfold covered, r'; simpl. split.
    + intros (j & Hj & Hin). unfold set_region in Hin.
      destruct (Z.eqb_spec j i) as [->|].
      * split; [exists i; unfold in_entry in *; lia|done].
      * split; [by exists j|]. intros Hai. by rewrite (entry_unique r j i a) in n.
    + intros [(j & Hj & Hin) Himp]. exists j. split; [done|]. unfold set_region.
      destruct (Z.eqb_spec j i) as [->|]; [by apply Himp|done].
Qed.

Lemma remove_spec r i :
  wf r -> 0 <= i < cnt r ->
  let r' := lmb_remove_region r i in
  (1 < cnt r -> wf r') /\ cnt r' = cnt r - 1 /\
  removed r r' (base (region r i)) (size (region r i)).
Proof.
  intros Hw Hi r'. pose proof (wf_cnt _ Hw) as Hc.
  destruct (remove_region_spec r i Hi ltac:(lia)) as [Hcnt Hreg]. fold r' in Hcnt, Hreg.
  assert (Hreg' : forall j, 0 <= j < cnt r - 1 ->
    region r' j = region r (if i <=? j then j + 1 else j)).
  { intros j Hj. rewrite Hreg, (proj2 (Z.ltb_lt j _)), andb_true_r by lia. by destruct (i <=? j). }
  clear Hreg. split_and!; [|done|].
  - intros H1. constructor; rewrite ?Hcnt; [lia|..].
    + intros j Hj. rewrite Hreg' by lia. apply (wf_entry _ Hw). destruct (i <=? j); lia.
    + intros j Hj. rewrite !Hreg' by lia. apply wf_lt; try done;
      destruct (Z.leb_spec i j), (Z.leb_spec i (j + 1)); lia.
  - intros a. unfold covered. rewrite Hcnt. split.
    + intros (j & Hj & Hin). rewrite Hreg' in Hin by lia. split.
      * exists (if i <=? j then j + 1 else j). split; [|done]. destruct (i <=? j); lia.
      * intros Hai. assert (i = if i <=? j then j + 1 else j) as E.
        { apply (entry_unique r _ _ a Hw); try done. destruct (i <=? j); lia. }
        destruct (Z.leb_spec i j); lia.
    + intros [(j & Hj & Hin) Hn]. assert (j <> i) by (intros ->; done).
      exists (if i <? j then j - 1 else j). split; [destruct (Z.ltb_spec i j); lia|].
      rewrite Hreg' by (destruct (Z.ltb_spec i j); lia).
      destruct (Z.ltb_spec i j).
      * rewrite (proj2 (Z.leb_le i (j - 1))) by lia. by rewrite Z.sub_add.
      * rewrite (proj2 (Z.leb_gt i j)) by lia. done.
Qed.

Lemma free_find_spec r b s n i :
  wf r -> valid_range b s -> 0 <= i -> i + Z.of_nat n = cnt r ->
  match free_find r b (u32 (b + s)) i n with
  | Some k => i <= k < cnt r /\ base (region r k) <= b /\ b + s <= rend (region r k)
  | None => forall k, i <= k < cnt r ->
      ~ (base (region r k) <= b /\ b + s <= rend (region r k))
  end.
Proof.
  intros Hw Hv. unfold valid_range in Hv. rewrite u32_small by lia.
  revert i. induction n as [|n IH]; intros i Hi Hn; simpl; [lia|].
  pose proof (wf_entry _ Hw i ltac:(lia)) as Ei. rewrite (u32_small (rend _)) by lia.
  destruct (Z.leb_spec (base (region r i)) b), (Z.leb_spec (b + s) (rend (region r i)));
    simpl; try lia.
  all: specialize (IH (i + 1) ltac:(lia) ltac:(lia)); destruct (free_find _ _ _ _ _); [lia|].
  all: intros k Hk; destruct (Z.eq_dec k i) as [->|]; [lia|apply IH; lia].
Qed.

(** A covered interval lies inside a single entry. *)
Lemma covered_interval r b s :
  wf r -> valid_range b s -> (forall a, b <= a < b + s -> covered r a) ->
  exists i, 0 <= i < cnt r /\ base (region r i) <= b /\ b + s <= rend (region r i).
Proof.
  intros Hw Hv Hcov. unfold valid_range in Hv.
  destruct (Hcov b ltac:(lia)) as (i & Hi & Hin). exists i. unfold in_entry in Hin.
  split; [done|]. split; [lia|]. apply Z.nlt_ge. intros Hlt.
  destruct (Hcov (rend (region r i)) ltac:(lia)) as (j & Hj & Hjn). unfold in_entry in Hjn.
  destruct (Z.lt_trichotomy i j) as [|[<-|]]; [|lia|].
  - pose proof (wf_lt r i j Hw). lia.
  - pose proof (wf_lt r j i Hw). lia.
Qed.

(** Cutting [b, b + s) out of the middle of entry [i]. *)
Lemma split_spec r i b s :
  wf r -> valid_range b s -> cnt r < MAX_LMB_REGIONS -> 0 <= i < cnt r ->
  base (region r i) < b -> b + s < rend (region r i) ->
  let (ret, r') := lmb_add_region (with_region r
    (set_region (region r) i (Prop_ (base (region r i)) (b - base (region r i)))))
    (b + s) (rend (region r i) - (b + s)) in
  0 <= ret /\ removed r r' b s /\ wf r'.
Proof.
  intros Hw Hv Hc Hi Hb He. pose proof (wf_entry _ Hw i Hi) as Ei. unfold valid_range in Hv.
  destruct (shrink_spec r i (Prop_ (base (region r i)) (b - base (region r i))) Hw Hi)
    as [Hw1 Hcov1]; [simpl; lia..|].
  set (r1 := with_region r _) in *. unfold in_entry in Hcov1; simpl in Hcov1.
  pose proof (add_region_spec r1 (b + s) (rend (region r i) - (b + s)) (or_introl Hw1)) as H.
  destruct (lmb_add_region r1 _ _) as [ret r']. destruct H as [H|H].
  - unfold valid_range; lia.
  - intros a Ha [_ Himp]%Hcov1. lia.
  - destruct H as [Hret [Hw' Hcov']]. split_and!; [done| |done]. intros a.
    rewrite Hcov', Hcov1. split.
    + intros [[Hca Himp]|Hin]; [split; [done|lia]|]. split; [|lia].
      exists i. unfold in_entry. lia.
    + intros [Hca Hn]. destruct (decide (in_entry (region r i) a)) as [Hin|Hin];
        unfold in_entry in Hin; [|left; split; [done|lia]].
      destruct (Z.lt_ge_cases a b); [left; split; [done|lia]|right; lia].
  - destruct H as (_ & _ & H). simpl in H. lia.
Qed.

(** [lmb_free] of a reserved range, with room for a split. *)
Lemma free_spec l b s :
  wf (reserved l) -> valid_range b s -> cnt (reserved l) < MAX_LMB_REGIONS ->
  (forall a, b <= a < b + s -> covered (reserved l) a) ->
  let (ret, l') := lmb_free l b s in
  0 <= ret /\ memory l' = memory l /\ removed (reserved l) (reserved l') b s /\
  (wf (reserved l') \/ cnt (reserved l') = 0).
Proof.
  intros Hw Hv Hc Hcov. set (r := reserved l) in *. pose proof Hv as Hv'.
  unfold valid_range in Hv'. unfold lmb_free. fold r.
  destruct (covered_interval r b s Hw Hv Hcov) as (i0 & Hi0 & Hb0 & He0).
  pose proof (free_find_spec r b s (Z.to_nat (cnt r)) 0 Hw Hv ltac:(lia)
    ltac:(pose proof (wf_cnt _ Hw); lia)) as Hfind.
  destruct (free_find _ _ _ _ _) as [i|]; [|by destruct (Hfind i0)].
  destruct Hfind as (Hi & Hb & He). pose proof (wf_entry _ Hw i Hi) as Ei.
  rewrite !(u32_small (base _ + _)), (u32_small (b + s)) by lia.
  assert (Hsub : forall p, base (region r i) <= base p -> 0 < size p ->
    rend p <= rend (region r i) ->
    (forall a, base (region r i) <= a < rend (region r i) ->
      in_entry p a <-> ~ b <= a < b + s) ->
    removed r (with_region r (set_region (region r) i p)) b s /\
    wf (with_region r (set_region (region r) i p))).
  { intros p H1 H2 H3 H4. destruct (shrink_spec r i p Hw Hi H1 H2 H3) as [Hw' Hcov'].
    split; [|done]. intros a. rewrite Hcov'. unfold in_entry at 1. split.
    - intros [Hca Himp]. split; [done|]. intros Hin. by apply (proj1 (H4 a ltac:(lia)) (Himp ltac:(lia))).
    - intros [Hca Hn]. split; [done|]. intros Hin. by apply H4. }
  destruct (Z.eqb_spec (base (region r i)) b) as [Eb|Eb],
    (Z.eqb_spec (rend (region r i)) (b + s)) as [Ee|Ee]; simpl.
  - destruct (remove_spec r i Hw Hi) as (Hw' & Hcnt & Hrem).
    split_and!; [lia|done| |]; cbn [reserved].
    + rewrite Eb in Hrem. by replace s with (size (region r i)) by lia.
    + pose proof (wf_cnt _ Hw). destruct (Z.eq_dec (cnt r) 1) as [E1|]; [right; by rewrite E1|left; apply Hw'; lia].
  - rewrite u32_small by lia. split_and!; [lia|done|apply Hsub|left; apply Hsub];
      simpl; unfold in_entry; simpl; lia.
  - rewrite u32_small by lia. split_and!; [lia|done|apply Hsub|left; apply Hsub];
      simpl; unfold in_entry; simpl; lia.
  - rewrite !u32_small by lia.
    pose proof (split_spec r i b s Hw Hv Hc Hi ltac:(lia) ltac:(lia)) as H.
    destruct (lmb_add_region _ _ _) as [ret r']. destruct H as (?&?&?).
    split_and!; try done. by left.
Qed.

(** ** Allocation *)

Lemma overlap_iff r i b s :
  wf r -> 0 <= i < cnt r -> valid_range b s ->
  lmb_addrs_overlap b s (base (region r i)) (size (region r i)) = true <->
  ~ (b + s <= base (region r i) \/ rend (region r i) <= b).
Proof.
  intros Hw Hi Hv. pose proof (wf_entry _ Hw i Hi). unfold valid_range in Hv.
  unfold lmb_addrs_overlap. rewrite !u32_small by lia.
  rewrite andb_true_iff, !Z.ltb_lt. lia.
Qed.

(** The first overlapping entry, or [-1] when the range is free. *)
Lemma overlaps_spec r b s n i :
  wf r -> valid_range b s -> 0 <= i -> i + Z.of_nat n = cnt r ->
  let j := overlaps_from r b s i n in
  (j = -1 /\ forall k, i <= k < cnt r -> b + s <= base (region r k) \/ rend (region r k) <= b)
  \/ (i <= j < cnt r /\ ~ (b + s <= base (region r j) \/ rend (region r j) <= b)).
Proof.
  intros Hw Hv. revert i. induction n as [|n IH]; intros i Hi Hn; simpl; [left; split; [done|intros; lia]|].
  destruct (lmb_addrs_overlap _ _ _ _) eqn:E.
  - right. split; [lia|]. apply overlap_iff; auto. lia.
  - apply not_true_iff_false in E. rewrite overlap_iff in E by (auto; lia).
    destruct (IH (i + 1) ltac:(lia) ltac:(lia)) as [[-> H]|[Hj H]]; [left|right; split; [lia|done]].
    split; [done|]. intros k Hk. destruct (Z.eq_dec k i) as [->|]; [lia|apply H; lia].
Qed.

(** Aligning with a power of two. *)
Lemma align_mask k : 0 <= k < 32 ->
  forall n, 0 <= n < 32 ->
  Z.testbit (u32 (Z.lnot (u32 (2 ^ k - 1)))) n = (k <=? n).
Proof.
  intros Hk n Hn. assert (0 < 2 ^ k) by (apply Z.pow_pos_nonneg; lia).
  assert (2 ^ k < 2 ^ 32) by (apply Z.pow_lt_mono_r; lia).
  rewrite (u32_small (2 ^ k - 1)) by lia. unfold u32.
  rewrite Z.mod_pow2_bits_low, Z.lnot_spec by lia.
  replace (2 ^ k - 1) with (Z.ones k) by (rewrite Z.ones_equiv; lia).
  rewrite Z.testbit_ones by lia. bdestruct; done.
Qed.

Lemma align_down_spec a k : 0 <= k < 32 -> 0 <= a < 2 ^ 32 ->
  lmb_align_down a (2 ^ k) = a - a mod 2 ^ k.
Proof.
  intros Hk Ha. assert (Hp : 0 < 2 ^ k) by (apply Z.pow_pos_nonneg; lia).
  transitivity (Z.ldiff a (Z.ones k)).
  - unfold lmb_align_down. apply Z.bits_inj'. intros n Hn.
    rewrite Z.land_spec, Z.ldiff_spec, Z.testbit_ones by lia.
    destruct (Z.lt_ge_cases n 32).
    + rewrite align_mask by lia. bdestruct; by rewrite ?andb_true_r, ?andb_false_r.
    + rewrite <- (Z.mod_small a (2 ^ 32)), Z.mod_pow2_bits_high by lia. done.
  - rewrite Z.ldiff_ones_r, Z.shiftl_mul_pow2, Z.shiftr_div_pow2 by lia.
    pose proof (Z.div_mod a (2 ^ k)). lia.
Qed.

Lemma align_down_bounds a k : 0 <= k < 32 -> 0 <= a < 2 ^ 32 ->
  0 <= lmb_align_down a (2 ^ k) <= a /\ lmb_align_down a (2 ^ k) mod 2 ^ k = 0.
Proof.
  intros Hk Ha. assert (Hp : 0 < 2 ^ k) by (apply Z.pow_pos_nonneg; lia).
  rewrite align_down_spec by done. pose proof (Z.mod_pos_bound a (2 ^ k) Hp).
  pose proof (Z.mod_le a (2 ^ k)). split; [lia|].
  rewrite Zminus_mod_idemp_r, Z.sub_diag. apply Z.mod_0_l. lia.
Qed.

Lemma align_up_multiple s k : 0 <= k < 32 -> 0 <= s -> s + 2 ^ k <= 2 ^ 32 ->
  s mod 2 ^ k = 0 -> lmb_align_up s (2 ^ k) = s.
Proof.
  intros Hk Hs Hb Hm. assert (Hp : 0 < 2 ^ k) by (apply Z.pow_pos_nonneg; lia).
  assert (2 ^ k < 2 ^ 32) by (apply Z.pow_lt_mono_r; lia).
  change (lmb_align_up s (2 ^ k)) with (lmb_align_down (u32 (s + u32 (2 ^ k - 1))) (2 ^ k)).
  rewrite !u32_small by (rewrite ?u32_small; lia). rewrite align_down_spec by lia.
  rewrite Z.add_mod, Hm by lia. rewrite Z.add_0_l, Z.mod_mod, Z.mod_small by lia. lia.
Qed.

Definition usable (r : lmb_region) : Prop := wf r \/ dummy r.

(** [lmb_add_region] fails on a full table only. *)
Lemma add_region_full r b s : usable r -> fst (lmb_add_region r b s) < 0 -> cnt r = MAX_LMB_REGIONS.
Proof.
  intros Hu. unfold lmb_add_region. destruct Hu as [Hw|[-> ->]]; [|done]. rewrite wf_not_dummy by done.
  pose proof (wf_cnt _ Hw) as Hc. destruct (add_scan _ _ _ _ _) as [|k r'|]; cbn [fst]; [done| |].
  - destruct (_ && _); cbn [fst]; lia.
  - rewrite u32_small by (unfold MAX_LMB_REGIONS in Hc; lia). rewrite (proj2 (Z.ltb_ge (cnt r) _)) by lia. cbn [andb].
    change (0 <? 0) with false. cbv iota. destruct (Z.leb_spec MAX_LMB_REGIONS (cnt r)); cbn [fst]; lia.
Qed.

(** What would serve between [base] and [top). *)
Definition candidate (res : lmb_region) (lmbbase top s k b : Z) : Prop :=
  b <> 0 /\ b mod 2 ^ k = 0 /\ lmbbase <= b /\ b + s <= top /\ fresh res b s.

(** What a successful probe of [base, top) establishes. *)
Definition block_ok (res : lmb_region) (lmbbase top s k a : Z) (res' : lmb_region) : Prop :=
  candidate res lmbbase top s k a /\ (forall b, candidate res lmbbase top s k b -> b <= a) /\
  (s mod 2 ^ k = 0 -> added res res' a s).

Definition probe_ok (res : lmb_region) (lmbbase top s k : Z) (p : probe_result) : Prop :=
  match p with
  | ProbeNext => forall b, ~ candidate res lmbbase top s k b
  | ProbeReturn a res' =>
      (a = 0 /\ (s mod 2 ^ k = 0 -> res' = res) /\ cnt res = MAX_LMB_REGIONS) \/ block_ok res lmbbase top s k a res'
  end.

(** A range no live entry overlaps is taken. *)
Lemma take_spec res lmbbase top b s k :
  usable res -> 0 <= k < 32 -> 0 < s -> s + 2 ^ k <= 2 ^ 32 -> 0 < b -> top < 2 ^ 32 ->
  b mod 2 ^ k = 0 -> lmbbase <= b -> b + s <= top -> fresh res b s ->
  (forall b', candidate res lmbbase top s k b' -> b' <= b) ->
  probe_ok res lmbbase top s k
    (let (r, res') := lmb_add_region res b (lmb_align_up s (2 ^ k)) in
     if r <? 0 then ProbeReturn 0 res' else ProbeReturn b res').
Proof.
  intros Hu Hk Hs Hsk Hb Ht Hm Hl Hbt Hf Hbest.
  assert (Hadd : s mod 2 ^ k = 0 ->
    let (r, res') := lmb_add_region res b (lmb_align_up s (2 ^ k)) in
    (0 <= r /\ added res res' b s) \/ (r = -1 /\ res' = res)).
  { intros Hsm. rewrite align_up_multiple by (done || lia).
    pose proof (add_region_spec res b s Hu ltac:(unfold valid_range; lia) Hf) as H.
    destruct (lmb_add_region res b s); tauto. }
  pose proof (add_region_full res b (lmb_align_up s (2 ^ k)) Hu) as Hfull.
  destruct (lmb_add_region res b _) as [r res']. destruct (Z.ltb_spec r 0); simpl.
  - left. split; [done|]. split; [|by apply Hfull]. intros [[? _]|[_ H']]%Hadd; [lia|done].
  - right. unfold block_ok, candidate. split_and!; try done; [lia|].
    intros [[_ H']|[? _]]%Hadd; [done|lia].
Qed.

(** Below an aligned address that a block may start at there is nothing between it and the aligned bound. *)
Lemma align_down_best a b k : 0 <= k < 32 -> 0 <= a < 2 ^ 32 -> b mod 2 ^ k = 0 -> b <= a -> b <= lmb_align_down a (2 ^ k).
Proof.
  intros Hk Ha Hb Hle. rewrite align_down_spec by done. assert (Hp : 0 < 2 ^ k) by (apply Z.pow_pos_nonneg; lia).
  pose proof (Z.div_mod b (2 ^ k)). pose proof (Z.div_mod a (2 ^ k)). pose proof (Z.div_le_mono b a (2 ^ k) Hp Hle). nia.
Qed.

(** A block that overlaps an entry: what else would serve below it ends below the entry. *)
Lemma candidate_below res lmbbase top s k b j b' :
  wf res -> 0 <= lmbbase -> top < 2 ^ 32 -> 0 < s -> 0 <= j < cnt res ->
  ~ (b + s <= base (region res j) \/ rend (region res j) <= b) ->
  candidate res lmbbase top s k b' -> b' <= b -> b' <= base (region res j) - s.
Proof.
  intros Hw Hl Ht Hs Hj Hov (H0 & _ & H1 & H2 & Hf) Hle.
  apply apart_covered in Hf; [|done|unfold valid_range; lia]. destruct (Hf j Hj); lia.
Qed.

Lemma probe_spec fuel res lmbbase top b s k m :
  usable res -> 0 <= k < 32 -> 0 < s -> s + 2 ^ k <= 2 ^ 32 -> 0 <= lmbbase -> 0 <= b -> top < 2 ^ 32 ->
  b mod 2 ^ k = 0 -> b + s <= top -> 0 <= m < Z.of_nat fuel -> m <= cnt res ->
  (wf res -> forall j, m <= j < cnt res -> b + s <= base (region res j)) ->
  (forall b', candidate res lmbbase top s k b' -> b' <= b) ->
  exists p, alloc_probe fuel res lmbbase b s (2 ^ k) = Some p /\
    probe_ok res lmbbase top s k p.
Proof.
  intros Hu Hk Hs Hsk Hl0. revert b m. induction fuel as [|fuel IH];
    intros b m Hb Ht Hm Hbt Hfuel Hmc Hbeyond Hbest; [lia|]. simpl.
  destruct (Z.eqb_spec b 0) as [|Hb0]; simpl.
  { eexists. split; [done|]. intros b' Hb'. pose proof (Hbest b' Hb'). destruct Hb' as (? & _ & ? & _). lia. }
  destruct (Z.leb_spec lmbbase b) as [Hl|]; simpl.
  2: { eexists. split; [done|]. intros b' Hb'. pose proof (Hbest b' Hb'). destruct Hb' as (? & _ & ? & _). lia. }
  assert (Htake : fresh res b s -> exists p,
    (let (r, res') := lmb_add_region res b (lmb_align_up s (2 ^ k)) in
     if r <? 0 then Some (ProbeReturn 0 res') else Some (ProbeReturn b res')) = Some p /\
    probe_ok res lmbbase top s k p).
  { intros Hf. pose proof (take_spec res lmbbase top b s k) as H.
    destruct (lmb_add_region _ _ _) as [r res']. eexists.
    split; [|apply H; done || lia]. by destruct (r <? 0). }
  destruct Hu as [Hw|Hd].
  - pose proof (overlaps_spec res b s (Z.to_nat (cnt res)) 0 Hw
      ltac:(unfold valid_range; lia) ltac:(lia) ltac:(pose proof (wf_cnt _ Hw); lia)) as Ho.
    unfold lmb_overlaps_region. set (j := overlaps_from _ _ _ _ _) in *. clearbody j.
    destruct Ho as [[-> Hfree]|[Hj Hov]].
    + apply Htake, apart_covered; [done|unfold valid_range; lia|].
      intros i Hi. by apply Hfree.
    + destruct (Z.ltb_spec j 0); [lia|]. pose proof (wf_entry _ Hw j Hj).
      assert (Hbelow : forall b', candidate res lmbbase top s k b' -> b' <= base (region res j) - s)
        by (intros b' Hb'; by apply (candidate_below res lmbbase top s k b j); [..|apply Hbest]).
      destruct (Z.ltb_spec (base (region res j)) s).
      { eexists. split; [done|]. intros b' Hb'. pose proof (Hbelow b' Hb'). destruct Hb' as (_ & _ & ? & _). lia. }
      rewrite u32_small by lia. specialize (Hbeyond Hw).
      assert (j < m) by (destruct (Z.lt_ge_cases j m); [done|]; specialize (Hbeyond j); lia).
      destruct (align_down_bounds (base (region res j) - s) k Hk ltac:(lia)) as [Had Ham].
      apply (IH _ j); try done; try lia.
      * intros _ i Hi. destruct (Z.eq_dec i j) as [->|]; [lia|]. pose proof (wf_lt res j i Hw). lia.
      * intros b' Hb'. apply align_down_best; [done|lia|apply Hb'|by apply Hbelow].
  - pose proof Hd as [Hc Hs0]. unfold lmb_overlaps_region. rewrite Hc. simpl.
    unfold lmb_addrs_overlap. rewrite Hs0. cbn [base size]. change (u32 (0 + 0)) with 0.
    rewrite (proj2 (Z.ltb_ge b 0)) by lia. simpl. apply Htake. intros a _. by apply dummy_covered.
Qed.

(** Address [a] is a good answer for a request of [s] bytes below [max_addr]. *)
Definition good_block (l : lmb) (s k max_addr a : Z) : Prop :=
  a mod 2 ^ k = 0 /\
  (exists i, 0 <= i < cnt (memory l) /\ base (region (memory l) i) <= a /\
     a + s <= rend (region (memory l) i)) /\
  (max_addr <> 0 -> a + s <= max_addr) /\
  fresh (reserved l) a s.

(** The answer is the highest of the good addresses; it is zero when there is none, or no room in the table. *)
Definition alloc_ok (l : lmb) (s k max_addr : Z) (res : Z * lmb) : Prop :=
  let (a, l') := res in
  memory l' = memory l /\
  ((a = 0 /\ (s mod 2 ^ k = 0 -> reserved l' = reserved l) /\
    (cnt (reserved l) = MAX_LMB_REGIONS \/ forall b, b <> 0 -> ~ good_block l s k max_addr b)) \/
   (a <> 0 /\ good_block l s k max_addr a /\ (forall b, good_block l s k max_addr b -> b <= a) /\
    (s mod 2 ^ k = 0 -> added (reserved l) (reserved l') a s))).

(** A good answer in one of the first [n] ranges. *)
Definition good_below (n : nat) (l : lmb) (s k max_addr a : Z) : Prop :=
  a <> 0 /\ good_block l s k max_addr a /\ exists i, 0 <= i < Z.of_nat n /\
    base (region (memory l) i) <= a /\ a + s <= rend (region (memory l) i).

Definition scan_ok (n : nat) (l : lmb) (s k max_addr : Z) (res : Z * lmb) : Prop :=
  let (a, l') := res in
  memory l' = memory l /\
  ((a = 0 /\ (s mod 2 ^ k = 0 -> reserved l' = reserved l) /\
    (cnt (reserved l) = MAX_LMB_REGIONS \/ forall b, ~ good_below n l s k max_addr b)) \/
   (a <> 0 /\ good_block l s k max_addr a /\ (forall b, good_below n l s k max_addr b -> b <= a) /\
    (s mod 2 ^ k = 0 -> added (reserved l) (reserved l') a s))).

(** Nothing good in range [n]: on to the ones before. *)
Lemma scan_next n l s k max_addr res :
  (forall b, good_block l s k max_addr b -> b <> 0 -> base (region (memory l) (Z.of_nat n)) <= b -> b + s <= rend (region (memory l) (Z.of_nat n)) -> False) ->
  scan_ok n l s k max_addr res -> scan_ok (S n) l s k max_addr res.
Proof.
  intros Hno. assert (H : forall b, good_below (S n) l s k max_addr b -> good_below n l s k max_addr b).
  { intros b (H0 & Hg & i & Hi & H1 & H2). split; [done|]. split; [done|]. exists i. split; [|done].
    destruct (Z.eq_dec i (Z.of_nat n)) as [->|]; [by destruct (Hno b)|lia]. }
  destruct res as [a l']. intros [Hm [(-> & Hr & Hz)|(Ha & Hg & Hb & Hadd)]]; (split; [done|]).
  - left. split; [done|]. split; [done|]. destruct Hz as [Hz|Hz]; [by left|right]. intros b Hb. by apply (Hz b), H.
  - right. split_and!; try done. intros b Hb'. by apply Hb, H.
Qed.

Lemma alloc_scan_spec n l s k max_addr :
  wf (memory l) -> usable (reserved l) -> 0 <= k < 32 -> 0 < s -> s + 2 ^ k <= 2 ^ 32 ->
  (max_addr <> 0 -> s <= max_addr) -> Z.of_nat n <= cnt (memory l) ->
  exists res, alloc_scan n l s (2 ^ k) max_addr = Some res /\ scan_ok n l s k max_addr res.
Proof.
  intros Hw Hu Hk Hs Hsk Hmax. induction n as [|n IH]; intros Hn; simpl.
  { eexists. split; [done|]. split; [done|]. left. split; [done|]. split; [done|]. right. intros b (_ & _ & i & Hi & _). lia. }
  destruct (IH ltac:(lia)) as (res0 & E0 & R0). clear IH. rewrite E0. set (p := region (memory l) (Z.of_nat n)).
  pose proof (wf_entry _ Hw (Z.of_nat n) ltac:(lia)) as Ep. fold p in Ep.
  rewrite (u32_small (rend p)) by lia.
  assert (Hskip : (forall b, good_block l s k max_addr b -> b <> 0 -> base p <= b -> b + s <= rend p -> False) ->
    exists res, Some res0 = Some res /\ scan_ok (S n) l s k max_addr res)
    by (intros H; exists res0; split; [done|by apply scan_next]).
  assert (Hprobe : forall top, top <= rend p -> (max_addr <> 0 -> top <= max_addr) -> s <= top ->
    (forall b, b + s <= rend p -> (max_addr <> 0 -> b + s <= max_addr) -> b + s <= top) ->
    exists res, match alloc_probe (S (Z.to_nat (cnt (reserved l)))) (reserved l) (base p)
        (lmb_align_down (u32 (top - s)) (2 ^ k)) s (2 ^ k) with
      | None => None
      | Some (ProbeReturn a res) => Some (a, Lmb (memory l) res)
      | Some ProbeNext => Some res0
      end = Some res /\ scan_ok (S n) l s k max_addr res).
  { intros top Htop Htm Hst Hall. rewrite u32_small by lia.
    destruct (align_down_bounds (top - s) k Hk ltac:(lia)) as [Hd Hdm].
    assert (Hc : 0 <= cnt (reserved l)).
    { destruct Hu as [Hr|[Hr _]]; [pose proof (wf_cnt _ Hr)|]; lia. }
    assert (Hcand : forall b, good_block l s k max_addr b -> b <> 0 -> base p <= b -> b + s <= rend p ->
      candidate (reserved l) (base p) top s k b).
    { intros b (G1 & _ & G2 & G3) ? ? ?. split_and!; try done. by apply Hall. }
    destruct (probe_spec (S (Z.to_nat (cnt (reserved l)))) (reserved l) (base p) top
      (lmb_align_down (top - s) (2 ^ k)) s k (cnt (reserved l))) as (r & -> & Hr);
      try done; try lia.
    { intros b (_ & B1 & _ & B2 & _). apply align_down_best; [done|lia|done|lia]. }
    destruct r as [a res'|]; [|apply Hskip; intros b G1 G2 G3 G4; by apply (Hr b), Hcand].
    eexists. split; [done|]. split; [done|].
    destruct Hr as [(-> & Hr & Hfull)|((Ha & Ham & Hal & Has & Hf) & Hbest & Hadd)]; [left; split_and!; try done; by left|right].
    split_and!; try done.
    - split_and!; try done; [exists (Z.of_nat n); fold p; lia|]. intros Hm. specialize (Htm Hm). lia.
    - intros b (B0 & G & i & Hi & B1 & B2). destruct (Z.eq_dec i (Z.of_nat n)) as [->|Hne]; [by apply Hbest, Hcand|].
      pose proof (wf_lt _ i (Z.of_nat n) Hw ltac:(lia) ltac:(lia) ltac:(lia)) as Hlt. fold p in Hlt. lia. }
  destruct (Z.ltb_spec (size p) s); [apply Hskip; intros b _ _ ? ?; lia|].
  destruct (Z.eqb_spec max_addr LMB_ALLOC_ANYWHERE) as [E|E]; unfold LMB_ALLOC_ANYWHERE in E.
  - apply Hprobe; lia.
  - destruct (Z.ltb_spec (base p) max_addr); [|apply Hskip; intros b (_ & _ & G & _) _ ? ?; specialize (G E); lia].
    apply Hprobe; [lia..|]. intros b H1 H2. specialize (H2 E). lia.
Qed.

(** ** Properties *)

(** C39: [lmb_reserve] of a free range: either it returns a non-negative value, the
    table stays well-formed (sorted, separated, within bounds) and covers
    exactly the old bytes plus the range, or the table is full of entries the
    range does not touch, the result is -1 and nothing changed. *)
Theorem lmb_reserve_spec l b s :
  usable (reserved l) -> valid_range b s -> fresh (reserved l) b s ->
  let (ret, l') := lmb_reserve l b s in
  memory l' = memory l /\
  ((0 <= ret /\ added (reserved l) (reserved l') b s) \/
   (ret = -1 /\ l' = l /\ cnt (reserved l) = MAX_LMB_REGIONS)).
Proof.
  intros Hu Hv Hf. unfold lmb_reserve. pose proof (add_region_spec _ b s Hu Hv Hf) as H.
  destruct (lmb_add_region _ b s) as [ret r']. split; [done|].
  destruct H as [H|(? & -> & ?)]; [by left|right]. by destruct l.
Qed.

Definition lmb0 : lmb := lmb_init (Lmb (Region 0 0 (fun _ => Prop_ 7 7)) (Region 0 0 (fun _ => Prop_ 7 7))).

(** Two separate reservations, then the gap between them. *)
Definition lmb1 : lmb := snd (lmb_reserve (snd (lmb_reserve lmb0 0x1000 0x100)) 0x1200 0x100).

Lemma wf_two r : cnt r = 2 ->
  0 <= base (region r 0) /\ 0 < size (region r 0) /\ rend (region r 0) < base (region r 1) /\
  0 < size (region r 1) /\ rend (region r 1) < 2 ^ 32 -> wf r.
Proof.
  intros Hc H. constructor; rewrite ?Hc; unfold MAX_LMB_REGIONS; [lia|..]; intros i Hi.
  - assert (i = 0 \/ i = 1) as [-> | ->] by lia; lia.
  - assert (i = 0) as -> by lia. change (0 + 1) with 1. lia.
Qed.

Lemma lmb1_wf : wf (reserved lmb1).
Proof. apply wf_two; [done|]. vm_compute. intuition congruence. Qed.

Lemma lmb_reserve_spec_witness :
  let (ret, l') := lmb_reserve lmb1 0x1100 0x100 in
  memory l' = memory lmb1 /\
  ((0 <= ret /\ added (reserved lmb1) (reserved l') 0x1100 0x100) \/
   (ret = -1 /\ l' = lmb1 /\ cnt (reserved lmb1) = MAX_LMB_REGIONS)).
Proof.
  apply (lmb_reserve_spec lmb1 0x1100 0x100).
  - left. apply lmb1_wf.
  - unfold valid_range. lia.
  - intros a Ha (i & Hi & Hin). change (cnt (reserved lmb1)) with 2 in Hi.
    assert (i = 0 \/ i = 1) as [-> | ->] by lia; unfold in_entry in Hin; simpl in Hin; lia.
Defined.

(** [lmb_free] of a reserved range (with room to split an entry) succeeds and
    un-reserves exactly that range: every other byte keeps its status and the
    memory table is not touched. *)
Theorem lmb_free_spec l b s :
  wf (reserved l) -> valid_range b s -> cnt (reserved l) < MAX_LMB_REGIONS ->
  (forall a, b <= a < b + s -> covered (reserved l) a) ->
  let (ret, l') := lmb_free l b s in
  0 <= ret /\ memory l' = memory l /\ removed (reserved l) (reserved l') b s /\
  (wf (reserved l') \/ cnt (reserved l') = 0).
Proof. apply free_spec. Qed.

Lemma lmb_free_spec_witness :
  let (ret, l') := lmb_free lmb1 0x1240 0x20 in
  0 <= ret /\ memory l' = memory lmb1 /\
  removed (reserved lmb1) (reserved l') 0x1240 0x20 /\
  (wf (reserved l') \/ cnt (reserved l') = 0).
Proof.
  apply (lmb_free_spec lmb1 0x1240 0x20).
  - apply lmb1_wf.
  - unfold valid_range. lia.
  - reflexivity.
  - intros a Ha. exists 1. split; [vm_compute; split; congruence|]. unfold in_entry. simpl. lia.
Defined.

Lemma alloc_base_total l s k max_addr :
  wf (memory l) -> usable (reserved l) -> 0 <= k < 32 -> 0 < s -> s + 2 ^ k <= 2 ^ 32 ->
  (max_addr <> 0 -> s <= max_addr) ->
  exists res, __lmb_alloc_base l s (2 ^ k) max_addr = Some res /\ alloc_ok l s k max_addr res.
Proof.
  intros Hw Hu Hk Hs Hsk Hmax. unfold __lmb_alloc_base. pose proof (wf_cnt _ Hw) as Hc.
  unfold MAX_LMB_REGIONS in Hc. rewrite s32_small, Z.sub_add by lia.
  destruct (alloc_scan_spec (Z.to_nat (cnt (memory l))) l s k max_addr) as ([a l'] & -> & Hm & H); try done; [lia|].
  assert (Hall : forall b, b <> 0 -> good_block l s k max_addr b -> good_below (Z.to_nat (cnt (memory l))) l s k max_addr b).
  { intros b Hb G. split; [done|]. split; [done|]. destruct G as (_ & (i & Hi & G) & _). exists i. split; [lia|done]. }
  eexists. split; [done|]. split; [done|]. destruct H as [(-> & Hr & Hz)|(Ha & Hg & Hb & Hadd)]; [left|right].
  - split; [done|]. split; [done|]. destruct Hz as [Hz|Hz]; [by left|right]. intros b Hb G. by apply (Hz b), Hall.
  - split_and!; try done. intros b G. destruct (Z.eq_dec b 0) as [->|Hb0]; [|by apply Hb, Hall].
    destruct Hg as (_ & (i & Hi & H1 & _) & _). pose proof (wf_entry _ Hw i Hi). lia.
Qed.

(** C3: [__lmb_alloc_base] always terminates.  For a request that is not larger than the limit, if there is one, the
    answer is the highest non-zero address that is aligned, such that the block lies in one
    memory range and below [max_addr] and meets no reserved byte; it is zero only if there is no such address, or
    the reserved table is full.  When the size is a multiple of the alignment the reserved table then gains exactly
    the block, and a zero answer leaves it as it was.  (A request that is larger than the limit can get an address
    outside of memory: [lmb_alloc_base_underflow].) *)
Theorem lmb_alloc_base_spec l s k max_addr :
  wf (memory l) -> usable (reserved l) -> 0 <= k < 32 -> 0 < s -> s + 2 ^ k <= 2 ^ 32 ->
  (max_addr <> 0 -> s <= max_addr) ->
  exists res, __lmb_alloc_base l s (2 ^ k) max_addr = Some res /\ alloc_ok l s k max_addr res.
Proof. apply alloc_base_total. Qed.

Definition lmb2 : lmb := snd (lmb_add (snd (lmb_add lmb1 0 0x100000)) 0x200000 0x100000).

Lemma lmb_alloc_base_spec_witness :
  exists res, __lmb_alloc_base lmb2 0x1000 (2 ^ 12) 0x2800 = Some res /\
    alloc_ok lmb2 0x1000 12 0x2800 res.
Proof.
  apply (lmb_alloc_base_spec lmb2 0x1000 12 0x2800); try lia.
  - apply wf_two; [done|]. vm_compute. intuition congruence.
  - left. apply lmb1_wf.
Defined.

(** freeing the only reserved entry leaves a table the next reservation
    mishandles: if the new range starts above the freed one (and the stale
    entry 1 does not happen to touch entry 0), [lmb_reserve] reports success,
    yet the freed bytes are reserved again and the requested ones are not. *)
Theorem lmb_reserve_after_last_free_lost l b s b2 s2 :
  wf (reserved l) -> cnt (reserved l) = 1 -> region (reserved l) 0 = Prop_ b s ->
  lmb_regions_adjacent (reserved l) 0 1 = 0 -> b + s <= b2 -> 0 < s2 ->
  let l1 := snd (lmb_free l b s) in
  let (ret, l2) := lmb_reserve l1 b2 s2 in
  ret = 0 /\ (forall a, covered (reserved l2) a <-> b <= a < b + s) /\
  lmb_is_reserved l2 b2 = 0.
Proof.
  intros Hw Hc H0 Hadj Hb2 Hs2. destruct l as [m [c rs reg]]. simpl in *. subst c.
  pose proof (wf_entry _ Hw 0 ltac:(simpl; lia)) as E. simpl in E. rewrite H0 in E. simpl in E.
  unfold lmb_free. cbn [reserved cnt region memory]. change (Z.to_nat 1) with 1%nat.
  cbn [free_find region]. rewrite H0. cbn [base size]. rewrite (u32_small (b + s)) by lia.
  rewrite !Z.leb_refl. cbn [andb]. rewrite H0. cbn [base size].
  rewrite (u32_small (b + s)), !Z.eqb_refl by lia. cbn [andb snd].
  unfold lmb_remove_region. cbn [cnt rsize region]. change (u32 (1 - 1)) with 0.
  rewrite seqZ_nil by lia. cbn [fold_left].
  unfold lmb_reserve, lmb_add_region. cbn [reserved cnt region memory].
  change (0 =? 1) with false. cbn [andb]. change (Z.to_nat 0) with 0%nat. cbn [add_scan].
  change (0 <? u32 (0 - 1)) with true. cbn [andb].
  change (lmb_regions_adjacent (Region 0 rs reg) 0 (0 + 1))
    with (lmb_regions_adjacent (Region 1 rs reg) 0 1).
  rewrite Hadj. cbn [Z.eqb negb]. change (0 <? 0) with false. change (MAX_LMB_REGIONS <=? 0) with false.
  cbn [cnt]. change (Z.to_nat (s32 (0 - 1) + 1)) with 0%nat. cbn [add_insert region rsize]. cbv iota.
  rewrite H0. cbn [base]. rewrite (proj2 (Z.ltb_ge b2 b)) by lia. change (u32 (0 + 1)) with 1.
  split_and!; [done|..].
  - intros a. unfold covered; cbn [reserved cnt region]. split.
    + intros (i & Hi & Ha). assert (i = 0) as -> by lia. by rewrite H0 in Ha.
    + intros Ha. exists 0. rewrite H0. split; [lia|done].
  - unfold lmb_is_reserved. cbn [reserved cnt]. change (Z.to_nat 1) with 1%nat.
    cbn [reserved_from region]. rewrite H0. cbn [base size]. rewrite u32_small by lia.
    rewrite (proj2 (Z.leb_gt b2 _)) by lia. by rewrite andb_false_r.
Qed.

Lemma lmb_reserve_after_last_free_lost_witness :
  let l := snd (lmb_reserve lmb0 0x1000 0x100) in
  let l1 := snd (lmb_free l 0x1000 0x100) in
  let (ret, l2) := lmb_reserve l1 0x5000 0x100 in
  ret = 0 /\ (forall a, covered (reserved l2) a <-> 0x1000 <= a < 0x1000 + 0x100) /\
  lmb_is_reserved l2 0x5000 = 0.
Proof.
  apply (lmb_reserve_after_last_free_lost (snd (lmb_reserve lmb0 0x1000 0x100)) 0x1000 0x100 0x5000 0x100);
    try reflexivity; try lia.
  constructor; [vm_compute; intuition congruence|..]; intros i Hi;
    change (cnt (reserved (snd (lmb_reserve lmb0 0x1000 0x100)))) with 1 in Hi; [|lia].
  assert (i = 0) as -> by lia. vm_compute. intuition congruence.
Defined.

(** the bound [max_addr] is not checked against the size: a request larger than
    [max_addr] makes [base - size] wrap, and the allocator hands out an address
    outside the only memory range. *)
Theorem lmb_alloc_base_underflow :
  exists l', __lmb_alloc_base (snd (lmb_add lmb1 0 0x100000)) 0x2000 0x1000 0x1000
    = Some (0xfffff000, l').
Proof. eexists. vm_compute. reflexivity. Qed.
