(* ===== verification/Crc.v ===== *)
(** Cyclic redundancy checks, [lib_generic/crc32.c] and [lib_generic/crc16.c].

    [be] is the byte order of the host: [crc32_no_comp] reads 32-bit words from
    memory and uses a byte-swapped table on big-endian machines; every theorem
    holds for both orders.  The reference is the shift register, one bit at a
    time ([crc_bit]). *)

From S2P Require Import Prelude.

(** ** Definitions *)

(** [crc_table] as the little-endian host stores it ([tole] is the identity). *)
Definition crc_table : list Z :=
  [0x0; 0x77073096; 0xee0e612c; 0x990951ba; 0x76dc419; 0x706af48f;
   0xe963a535; 0x9e6495a3; 0xedb8832; 0x79dcb8a4; 0xe0d5e91e; 0x97d2d988;
   0x9b64c2b; 0x7eb17cbd; 0xe7b82d07; 0x90bf1d91; 0x1db71064; 0x6ab020f2;
   0xf3b97148; 0x84be41de; 0x1adad47d; 0x6ddde4eb; 0xf4d4b551; 0x83d385c7;
   0x136c9856; 0x646ba8c0; 0xfd62f97a; 0x8a65c9ec; 0x14015c4f; 0x63066cd9;
   0xfa0f3d63; 0x8d080df5; 0x3b6e20c8; 0x4c69105e; 0xd56041e4; 0xa2677172;
   0x3c03e4d1; 0x4b04d447; 0xd20d85fd; 0xa50ab56b; 0x35b5a8fa; 0x42b2986c;
   0xdbbbc9d6; 0xacbcf940; 0x32d86ce3; 0x45df5c75; 0xdcd60dcf; 0xabd13d59;
   0x26d930ac; 0x51de003a; 0xc8d75180; 0xbfd06116; 0x21b4f4b5; 0x56b3c423;
   0xcfba9599; 0xb8bda50f; 0x2802b89e; 0x5f058808; 0xc60cd9b2; 0xb10be924;
   0x2f6f7c87; 0x58684c11; 0xc1611dab; 0xb6662d3d; 0x76dc4190; 0x1db7106;
   0x98d220bc; 0xefd5102a; 0x71b18589; 0x6b6b51f; 0x9fbfe4a5; 0xe8b8d433;
   0x7807c9a2; 0xf00f934; 0x9609a88e; 0xe10e9818; 0x7f6a0dbb; 0x86d3d2d;
   0x91646c97; 0xe6635c01; 0x6b6b51f4; 0x1c6c6162; 0x856530d8; 0xf262004e;
   0x6c0695ed; 0x1b01a57b; 0x8208f4c1; 0xf50fc457; 0x65b0d9c6; 0x12b7e950;
   0x8bbeb8ea; 0xfcb9887c; 0x62dd1ddf; 0x15da2d49; 0x8cd37cf3; 0xfbd44c65;
   0x4db26158; 0x3ab551ce; 0xa3bc0074; 0xd4bb30e2; 0x4adfa541; 0x3dd895d7;
   0xa4d1c46d; 0xd3d6f4fb; 0x4369e96a; 0x346ed9fc; 0xad678846; 0xda60b8d0;
   0x44042d73; 0x33031de5; 0xaa0a4c5f; 0xdd0d7cc9; 0x5005713c; 0x270241aa;
   0xbe0b1010; 0xc90c2086; 0x5768b525; 0x206f85b3; 0xb966d409; 0xce61e49f;
   0x5edef90e; 0x29d9c998; 0xb0d09822; 0xc7d7a8b4; 0x59b33d17; 0x2eb40d81;
   0xb7bd5c3b; 0xc0ba6cad; 0xedb88320; 0x9abfb3b6; 0x3b6e20c; 0x74b1d29a;
   0xead54739; 0x9dd277af; 0x4db2615; 0x73dc1683; 0xe3630b12; 0x94643b84;
   0xd6d6a3e; 0x7a6a5aa8; 0xe40ecf0b; 0x9309ff9d; 0xa00ae27; 0x7d079eb1;
   0xf00f9344; 0x8708a3d2; 0x1e01f268; 0x6906c2fe; 0xf762575d; 0x806567cb;
   0x196c3671; 0x6e6b06e7; 0xfed41b76; 0x89d32be0; 0x10da7a5a; 0x67dd4acc;
   0xf9b9df6f; 0x8ebeeff9; 0x17b7be43; 0x60b08ed5; 0xd6d6a3e8; 0xa1d1937e;
   0x38d8c2c4; 0x4fdff252; 0xd1bb67f1; 0xa6bc5767; 0x3fb506dd; 0x48b2364b;
   0xd80d2bda; 0xaf0a1b4c; 0x36034af6; 0x41047a60; 0xdf60efc3; 0xa867df55;
   0x316e8eef; 0x4669be79; 0xcb61b38c; 0xbc66831a; 0x256fd2a0; 0x5268e236;
   0xcc0c7795; 0xbb0b4703; 0x220216b9; 0x5505262f; 0xc5ba3bbe; 0xb2bd0b28;
   0x2bb45a92; 0x5cb36a04; 0xc2d7ffa7; 0xb5d0cf31; 0x2cd99e8b; 0x5bdeae1d;
   0x9b64c2b0; 0xec63f226; 0x756aa39c; 0x26d930a; 0x9c0906a9; 0xeb0e363f;
   0x72076785; 0x5005713; 0x95bf4a82; 0xe2b87a14; 0x7bb12bae; 0xcb61b38;
   0x92d28e9b; 0xe5d5be0d; 0x7cdcefb7; 0xbdbdf21; 0x86d3d2d4; 0xf1d4e242;
   0x68ddb3f8; 0x1fda836e; 0x81be16cd; 0xf6b9265b; 0x6fb077e1; 0x18b74777;
   0x88085ae6; 0xff0f6a70; 0x66063bca; 0x11010b5c; 0x8f659eff; 0xf862ae69;
   0x616bffd3; 0x166ccf45; 0xa00ae278; 0xd70dd2ee; 0x4e048354; 0x3903b3c2;
   0xa7672661; 0xd06016f7; 0x4969474d; 0x3e6e77db; 0xaed16a4a; 0xd9d65adc;
   0x40df0b66; 0x37d83bf0; 0xa9bcae53; 0xdebb9ec5; 0x47b2cf7f; 0x30b5ffe9;
   0xbdbdf21c; 0xcabac28a; 0x53b39330; 0x24b4a3a6; 0xbad03605; 0xcdd70693;
   0x54de5729; 0x23d967bf; 0xb3667a2e; 0xc4614ab8; 0x5d681b02; 0x2a6f2b94;
   0xb40bbe37; 0xc30c8ea1; 0x5a05df1b; 0x2d02ef8d].

Definition swab32 (x : Z) : Z :=
  Z.lor (Z.lor (Z.lor
    (Z.shiftl (Z.land x 0x000000ff) 24)
    (Z.shiftl (Z.land x 0x0000ff00) 8))
    (Z.shiftr (Z.land x 0x00ff0000) 8))
    (Z.shiftr (Z.land x 0xff000000) 24).

(** [cpu_to_le32] and [le32_to_cpu]. *)
Definition cpu_to_le32 (be : bool) (x : Z) : Z := if be then swab32 x else x.

Definition le_word (a b c d : Z) : Z := a + 2 ^ 8 * (b + 2 ^ 8 * (c + 2 ^ 8 * d)).

(** [*(uint32_t * )p] *)
Definition load32 (be : bool) (m : mem) (p : Z) : Z :=
  if be then le_word (m (p + 3)) (m (p + 2)) (m (p + 1)) (m p)
  else le_word (m p) (m (p + 1)) (m (p + 2)) (m (p + 3)).

Definition DO_CRC (be : bool) (crc x : Z) : Z :=
  if be then
    Z.lxor (swab32 (rd crc_table (Z.land (Z.lxor (Z.shiftr crc 24) x) 255)))
           (u32 (Z.shiftl crc 8))
  else
    Z.lxor (rd crc_table (Z.land (Z.lxor crc x) 255)) (Z.shiftr crc 8).

(** The byte loops: [n] bytes from [p] on. *)
Fixpoint crc_bytes (be : bool) (m : mem) (crc p : Z) (n : nat) : Z :=
  match n with
  | O => crc
  | S n => crc_bytes be m (DO_CRC be crc (m p)) (p + 1) n
  end.

(** The word loop: [n] words from [p] on. *)
Fixpoint crc_words (be : bool) (m : mem) (crc p : Z) (n : nat) : Z :=
  match n with
  | O => crc
  | S n =>
    let crc := Z.lxor crc (load32 be m p) in
    let crc := DO_CRC be (DO_CRC be (DO_CRC be (DO_CRC be crc 0) 0) 0) 0 in
    crc_words be m crc (p + 4) n
  end.

(** The alignment loop: bytes up to the next multiple of 4, which are at most
    three.  The result is the register, the position and the length left. *)
Fixpoint crc_align (fuel : nat) (be : bool) (m : mem) (crc p len : Z) : Z * Z * Z :=
  match fuel with
  | O => (crc, p, len)
  | S fuel =>
    let crc := DO_CRC be crc (m p) in
    let p := p + 1 in
    let len := len - 1 in
    if negb (len =? 0) && negb (Z.land p 3 =? 0) then crc_align fuel be m crc p len
    else (crc, p, len)
  end.

Definition crc32_no_comp (be : bool) (m : mem) (crc buf len : Z) : Z :=
  let crc := cpu_to_le32 be crc in
  let '(crc, b, len) :=
    if negb (Z.land buf 3 =? 0) && negb (len =? 0) then crc_align 3 be m crc buf len
    else (crc, buf, len) in
  let rem_len := Z.land len 3 in
  let len := Z.shiftr len 2 in
  let crc := crc_words be m crc b (Z.to_nat len) in
  let crc := crc_bytes be m crc (b + 4 * len) (Z.to_nat rem_len) in
  cpu_to_le32 be crc.

Definition crc32 (be : bool) (m : mem) (crc p len : Z) : Z :=
  Z.lxor (crc32_no_comp be m (Z.lxor crc 0xffffffff) p len) 0xffffffff.

(** [crc32_wd] with a watchdog: chunks of at most [chunk_sz] bytes.  [None] only if
    the fuel, at least one unit per chunk, is too small. *)
Fixpoint crc32_wd (fuel : nat) (be : bool) (m : mem) (crc curr fin chunk_sz : Z) : option Z :=
  match fuel with
  | O => None
  | S fuel =>
    if curr <? fin then
      let chunk := if chunk_sz <? fin - curr then chunk_sz else fin - curr in
      crc32_wd fuel be m (crc32 be m crc curr chunk) (curr + chunk) fin chunk_sz
    else Some crc
  end.

(** One shift of the register, as in [make_crc_table]. *)
Definition crc_bit (poly c : Z) : Z :=
  if Z.land c 1 =? 0 then Z.shiftr c 1 else Z.lxor poly (Z.shiftr c 1).

(** The exclusive-or pattern [make_crc_table] builds from the exponents. *)
Definition crc_poly : Z :=
  fold_left (fun poly p => Z.lor poly (Z.shiftl 1 (31 - p)))
    [0; 1; 2; 4; 5; 7; 8; 10; 11; 12; 16; 22; 23; 26] 0.

Definition crc_entry (n : Z) : Z := Nat.iter 8 (crc_bit crc_poly) n.

Definition make_crc_table : list Z := map crc_entry (seqZ 0 256).

(** [crc16_tab], for the polynomial x^16+x^12+x^5+1. *)
Definition crc16_tab : list Z :=
  [0x0; 0x1021; 0x2042; 0x3063; 0x4084; 0x50a5; 0x60c6; 0x70e7; 0x8108; 0x9129;
   0xa14a; 0xb16b; 0xc18c; 0xd1ad; 0xe1ce; 0xf1ef; 0x1231; 0x210; 0x3273; 0x2252;
   0x52b5; 0x4294; 0x72f7; 0x62d6; 0x9339; 0x8318; 0xb37b; 0xa35a; 0xd3bd; 0xc39c;
   0xf3ff; 0xe3de; 0x2462; 0x3443; 0x420; 0x1401; 0x64e6; 0x74c7; 0x44a4; 0x5485;
   0xa56a; 0xb54b; 0x8528; 0x9509; 0xe5ee; 0xf5cf; 0xc5ac; 0xd58d; 0x3653; 0x2672;
   0x1611; 0x630; 0x76d7; 0x66f6; 0x5695; 0x46b4; 0xb75b; 0xa77a; 0x9719; 0x8738;
   0xf7df; 0xe7fe; 0xd79d; 0xc7bc; 0x48c4; 0x58e5; 0x6886; 0x78a7; 0x840; 0x1861;
   0x2802; 0x3823; 0xc9cc; 0xd9ed; 0xe98e; 0xf9af; 0x8948; 0x9969; 0xa90a; 0xb92b;
   0x5af5; 0x4ad4; 0x7ab7; 0x6a96; 0x1a71; 0xa50; 0x3a33; 0x2a12; 0xdbfd; 0xcbdc;
   0xfbbf; 0xeb9e; 0x9b79; 0x8b58; 0xbb3b; 0xab1a; 0x6ca6; 0x7c87; 0x4ce4; 0x5cc5;
   0x2c22; 0x3c03; 0xc60; 0x1c41; 0xedae; 0xfd8f; 0xcdec; 0xddcd; 0xad2a; 0xbd0b;
   0x8d68; 0x9d49; 0x7e97; 0x6eb6; 0x5ed5; 0x4ef4; 0x3e13; 0x2e32; 0x1e51; 0xe70;
   0xff9f; 0xefbe; 0xdfdd; 0xcffc; 0xbf1b; 0xaf3a; 0x9f59; 0x8f78; 0x9188; 0x81a9;
   0xb1ca; 0xa1eb; 0xd10c; 0xc12d; 0xf14e; 0xe16f; 0x1080; 0xa1; 0x30c2; 0x20e3;
   0x5004; 0x4025; 0x7046; 0x6067; 0x83b9; 0x9398; 0xa3fb; 0xb3da; 0xc33d; 0xd31c;
   0xe37f; 0xf35e; 0x2b1; 0x1290; 0x22f3; 0x32d2; 0x4235; 0x5214; 0x6277; 0x7256;
   0xb5ea; 0xa5cb; 0x95a8; 0x8589; 0xf56e; 0xe54f; 0xd52c; 0xc50d; 0x34e2; 0x24c3;
   0x14a0; 0x481; 0x7466; 0x6447; 0x5424; 0x4405; 0xa7db; 0xb7fa; 0x8799; 0x97b8;
   0xe75f; 0xf77e; 0xc71d; 0xd73c; 0x26d3; 0x36f2; 0x691; 0x16b0; 0x6657; 0x7676;
   0x4615; 0x5634; 0xd94c; 0xc96d; 0xf90e; 0xe92f; 0x99c8; 0x89e9; 0xb98a; 0xa9ab;
   0x5844; 0x4865; 0x7806; 0x6827; 0x18c0; 0x8e1; 0x3882; 0x28a3; 0xcb7d; 0xdb5c;
   0xeb3f; 0xfb1e; 0x8bf9; 0x9bd8; 0xabbb; 0xbb9a; 0x4a75; 0x5a54; 0x6a37; 0x7a16;
   0xaf1; 0x1ad0; 0x2ab3; 0x3a92; 0xfd2e; 0xed0f; 0xdd6c; 0xcd4d; 0xbdaa; 0xad8b;
   0x9de8; 0x8dc9; 0x7c26; 0x6c07; 0x5c64; 0x4c45; 0x3ca2; 0x2c83; 0x1ce0; 0xcc1;
   0xef1f; 0xff3e; 0xcf5d; 0xdf7c; 0xaf9b; 0xbfba; 0x8fd9; 0x9ff8; 0x6e17; 0x7e36;
   0x4e55; 0x5e74; 0x2e93; 0x3eb2; 0xed1; 0x1ef0].

Fixpoint crc16_loop (cksum : Z) (buf : list Z) : Z :=
  match buf with
  | [] => cksum
  | x :: buf =>
    crc16_loop (u16 (Z.lxor
      (rd crc16_tab (Z.land (Z.lxor (Z.shiftr cksum 8) x) 0xff)) (Z.shiftl cksum 8))) buf
  end.

Definition cyg_crc16 (buf : list Z) : Z := crc16_loop 0 buf.

(** ** The reference register *)

Definition crc_byte (c x : Z) : Z := Nat.iter 8 (crc_bit crc_poly) (Z.lxor c x).

Definition crc_ref (c : Z) (l : list Z) : Z := fold_left crc_byte l c.

(** the static table of [crc32.c] is the one [make_crc_table] generates. *)
Theorem crc_table_generated : crc_table = make_crc_table.
Proof. vm_compute. reflexivity. Qed.

Definition is_u32 (x : Z) : Prop := 0 <= x < 2 ^ 32.

Lemma u32_bits_high x n : is_u32 x -> 32 <= n -> Z.testbit x n = false.
Proof.
  intros Hx Hn. rewrite <- (Z.mod_small x (2 ^ 32)) by done.
  apply Z.mod_pow2_bits_high. lia.
Qed.

Lemma u32_of_bits x :
  0 <= x -> (forall n, 32 <= n -> Z.testbit x n = false) -> is_u32 x.
Proof.
  intros Hx H. split; [done|]. destruct (decide (x = 0)) as [->|]; [lia|].
  apply Z.log2_lt_pow2; [lia|]. apply Z.nle_gt. intros Hl.
  pose proof (Z.bit_log2 x ltac:(lia)) as Hb. by rewrite H in Hb.
Qed.

Lemma lxor_u32 x y : is_u32 x -> is_u32 y -> is_u32 (Z.lxor x y).
Proof.
  intros Hx Hy. apply u32_of_bits.
  - apply Z.lxor_nonneg. unfold is_u32 in *. lia.
  - intros n Hn. by rewrite Z.lxor_spec, !u32_bits_high.
Qed.

Lemma shiftr_u32 x k : is_u32 x -> 0 <= k -> is_u32 (Z.shiftr x k).
Proof.
  intros Hx Hk. apply u32_of_bits.
  - apply Z.shiftr_nonneg. unfold is_u32 in *. lia.
  - intros n Hn. rewrite Z.shiftr_spec by lia. apply u32_bits_high; [done|lia].
Qed.

Lemma byte_u32 x : is_byte x -> is_u32 x.
Proof. unfold is_byte, is_u32. lia. Qed.

Lemma crc_bit_lxor p a b :
  crc_bit p (Z.lxor a b) = Z.lxor (crc_bit p a) (crc_bit p b).
Proof.
  unfold crc_bit. rewrite Z.shiftr_lxor.
  assert (H : forall x, (Z.land x 1 =? 0) = negb (Z.testbit x 0)).
  { intros x. rewrite (land_mask x 1 1) by lia. change (2 ^ 1) with 2.
    rewrite <- Z.bit0_mod. by destruct (Z.testbit x 0). }
  rewrite !H, Z.lxor_spec.
  destruct (Z.testbit a 0), (Z.testbit b 0); simpl; try done;
    apply Z.bits_inj; intros n; rewrite !Z.lxor_spec;
    by destruct (Z.testbit p n), (Z.testbit (Z.shiftr a 1) n), (Z.testbit (Z.shiftr b 1) n).
Qed.

Lemma crc_bits_lxor n p a b :
  Nat.iter n (crc_bit p) (Z.lxor a b) =
  Z.lxor (Nat.iter n (crc_bit p) a) (Nat.iter n (crc_bit p) b).
Proof. induction n as [|n IH]; simpl; [done|]. by rewrite IH, crc_bit_lxor. Qed.

(** A register whose low [n] bits are clear is only shifted. *)
Lemma crc_bits_shift n p c : Nat.iter n (crc_bit p) (Z.shiftl c (Z.of_nat n)) = c.
Proof.
  induction n as [|n IH]; [apply Z.shiftl_0_r|].
  rewrite Nat.iter_succ_r. unfold crc_bit at 2.
  replace (Z.land _ 1) with 0.
  - simpl. rewrite Z.shiftr_shiftl_l by lia.
    by replace (Z.of_nat (S n) - 1) with (Z.of_nat n) by lia.
  - symmetry. apply Z.bits_inj'. intros i Hi. rewrite Z.land_spec, Z.bits_0.
    destruct (decide (i = 0)) as [->|].
    + by rewrite Z.shiftl_spec_low by lia.
    + rewrite (Z.bits_above_log2 1) by (simpl; lia). apply andb_false_r.
Qed.

(** ** One table step is eight shifts *)

Lemma crc_table_entry n : 0 <= n < 256 -> rd crc_table n = crc_entry n.
Proof.
  intros Hn. apply Z.eqb_eq.
  apply (forallb_seqZ (fun n => rd crc_table n =? crc_entry n) 256);
    [vm_compute; reflexivity | done].
Qed.

Lemma crc_table_u32 n : is_u32 (rd crc_table n).
Proof.
  unfold rd. destruct (nth_in_or_default (Z.to_nat n) crc_table 0) as [Hin| ->];
    [|unfold is_u32; lia].
  assert (H : forallb (fun x => (0 <=? x) && (x <? 2 ^ 32)) crc_table = true)
    by (vm_compute; reflexivity).
  rewrite forallb_forall in H. apply H in Hin. unfold is_u32. lia.
Qed.

Lemma low_byte_range c : 0 <= Z.land c 255 < 256.
Proof. rewrite (land_mask c 8 255) by lia. apply Z.mod_pos_bound. lia. Qed.

Lemma split_low_byte c : c = Z.lxor (Z.land c 255) (Z.shiftl (Z.shiftr c 8) 8).
Proof.
  apply Z.bits_inj'. intros n Hn. rewrite Z.lxor_spec, Z.land_spec.
  change 255 with (Z.ones 8). rewrite Z.testbit_ones by lia.
  rewrite Z.shiftl_spec by lia. destruct (Z.lt_ge_cases n 8).
  - rewrite (Z.testbit_neg_r _ (n - 8)) by lia. rewrite (proj2 (Z.leb_le 0 n)) by lia.
    rewrite (proj2 (Z.ltb_lt n 8)) by lia. by destruct (Z.testbit c n).
  - rewrite Z.shiftr_spec, Z.sub_add by lia. rewrite (proj2 (Z.ltb_ge n 8)) by lia.
    by rewrite !andb_false_r.
Qed.

(** The table step on a whole register. *)
Definition tab_step (c : Z) : Z :=
  Z.lxor (rd crc_table (Z.land c 255)) (Z.shiftr c 8).

Lemma tab_step_bits c : tab_step c = Nat.iter 8 (crc_bit crc_poly) c.
Proof.
  unfold tab_step. rewrite crc_table_entry by apply low_byte_range.
  rewrite (split_low_byte c) at 3. rewrite crc_bits_lxor.
  change 8 with (Z.of_nat 8) at 3. by rewrite crc_bits_shift.
Qed.

Lemma tab_step_u32 c : is_u32 c -> is_u32 (tab_step c).
Proof. intros. apply lxor_u32; [apply crc_table_u32|apply shiftr_u32; [done|lia]]. Qed.

Lemma crc_byte_tab c x : crc_byte c x = tab_step (Z.lxor c x).
Proof. unfold crc_byte. by rewrite tab_step_bits. Qed.

Lemma shiftr_lxor_byte c x : is_byte x -> Z.shiftr (Z.lxor c x) 8 = Z.shiftr c 8.
Proof.
  intros Hx. rewrite Z.shiftr_lxor. rewrite (Z.shiftr_div_pow2 x) by lia.
  rewrite (Z.div_small x) by (unfold is_byte in Hx; lia). apply Z.lxor_0_r.
Qed.

Lemma DO_CRC_le c x : is_byte x -> DO_CRC false c x = crc_byte c x.
Proof.
  intros Hx. rewrite crc_byte_tab. unfold DO_CRC, tab_step. by rewrite shiftr_lxor_byte.
Qed.

(** ** The big-endian register is the byte-swapped one *)

Lemma u32_ext x y :
  is_u32 x -> is_u32 y ->
  (forall n, 0 <= n < 32 -> Z.testbit x n = Z.testbit y n) -> x = y.
Proof.
  intros Hx Hy H. apply Z.bits_inj'. intros n Hn.
  destruct (Z.lt_ge_cases n 32); [by apply H|by rewrite !u32_bits_high].
Qed.

(** Bit [n] of a byte-swapped word. *)
Definition swab_pos (n : Z) : Z := 8 * (3 - n / 8) + n mod 8.

Lemma swab_pos_range n : 0 <= n < 32 -> 0 <= swab_pos n < 32.
Proof. intros. unfold swab_pos. Z.to_euclidean_division_equations. lia. Qed.

Lemma swab32_alt x :
  swab32 x =
  Z.lor (Z.lor (Z.shiftl (Z.land x 0xff) 24) (Z.shiftl (Z.land x 0xff00) 8))
        (Z.lor (Z.land (Z.shiftr x 8) 0xff00) (Z.land (Z.shiftr x 24) 0xff)).
Proof. unfold swab32. by rewrite !Z.shiftr_land, Z.lor_assoc. Qed.

Lemma swab32_bit x n : 0 <= n < 32 -> Z.testbit (swab32 x) n = Z.testbit x (swab_pos n).
Proof.
  intros Hn. assert (H : Forall (fun n => Z.testbit (swab32 x) n =
    Z.testbit x (swab_pos n)) (seqZ 0 32)).
  { rewrite swab32_alt. vm_compute seqZ. repeat constructor; push_testbit; reflexivity. }
  rewrite List.Forall_forall in H. apply H, list_elem_of_In, elem_of_seqZ. lia.
Qed.

Lemma lor_u32 x y : is_u32 x -> is_u32 y -> is_u32 (Z.lor x y).
Proof.
  intros Hx Hy. apply u32_of_bits.
  - apply Z.lor_nonneg. unfold is_u32 in *. lia.
  - intros n Hn. by rewrite Z.lor_spec, !u32_bits_high.
Qed.

Lemma land_u32 x y : is_u32 y -> is_u32 (Z.land x y).
Proof.
  intros Hy. apply u32_of_bits.
  - apply Z.land_nonneg. unfold is_u32 in *. lia.
  - intros n Hn. rewrite Z.land_spec, (u32_bits_high y) by done. apply andb_false_r.
Qed.

Lemma swab32_u32 x : is_u32 (swab32 x).
Proof.
  rewrite swab32_alt, !Z.shiftl_land.
  repeat apply lor_u32; apply land_u32; vm_compute; intuition congruence.
Qed.

Lemma swab32_lxor x y : swab32 (Z.lxor x y) = Z.lxor (swab32 x) (swab32 y).
Proof.
  apply u32_ext; [apply swab32_u32|apply lxor_u32; apply swab32_u32|].
  intros n Hn. by rewrite Z.lxor_spec, !swab32_bit, Z.lxor_spec.
Qed.

Lemma swab32_involutive x : is_u32 x -> swab32 (swab32 x) = x.
Proof.
  intros Hx. apply u32_ext; [apply swab32_u32|done|]. intros n Hn.
  rewrite !swab32_bit by (done || by apply swab_pos_range). f_equal.
  unfold swab_pos. Z.to_euclidean_division_equations. lia.
Qed.

Lemma swab_index c x :
  is_byte x -> Z.land (Z.lxor (Z.shiftr (swab32 c) 24) x) 255 = Z.land (Z.lxor c x) 255.
Proof.
  intros Hx. apply byte_ext; [solve_byte..|].
  apply (Forall_seqZ _ 0 8). intros n Hn.
  rewrite !Z.land_spec, !Z.lxor_spec, Z.shiftr_spec, swab32_bit by lia. do 3 f_equal.
  unfold swab_pos. Z.to_euclidean_division_equations. lia.
Qed.

Lemma swab_shift c : is_u32 c -> u32 (Z.shiftl (swab32 c) 8) = swab32 (Z.shiftr c 8).
Proof.
  intros Hc. apply u32_ext; [apply u32_range|apply swab32_u32|]. intros n Hn.
  unfold u32. rewrite Z.mod_pow2_bits_low, Z.shiftl_spec, (swab32_bit (Z.shiftr _ _)) by lia.
  pose proof (swab_pos_range n Hn). rewrite Z.shiftr_spec by lia.
  destruct (Z.lt_ge_cases n 8).
  - rewrite Z.testbit_neg_r by lia. symmetry. apply u32_bits_high; [done|].
    unfold swab_pos. Z.to_euclidean_division_equations. lia.
  - rewrite swab32_bit by lia. f_equal.
    unfold swab_pos. Z.to_euclidean_division_equations. lia.
Qed.

Lemma crc_byte_u32 c x : is_u32 c -> is_byte x -> is_u32 (crc_byte c x).
Proof. intros. rewrite crc_byte_tab. by apply tab_step_u32, lxor_u32, byte_u32. Qed.

(** The register as the host keeps it. *)
Lemma DO_CRC_spec be c x :
  is_u32 c -> is_byte x ->
  DO_CRC be (cpu_to_le32 be c) x = cpu_to_le32 be (crc_byte c x).
Proof.
  intros Hc Hx. destruct be; simpl; [|by apply DO_CRC_le].
  rewrite crc_byte_tab. unfold DO_CRC, tab_step.
  by rewrite swab_index, swab_shift, swab32_lxor, shiftr_lxor_byte.
Qed.

Lemma crc_bytes_spec be m c p n :
  is_u32 c -> (forall a, is_byte (m a)) ->
  crc_bytes be m (cpu_to_le32 be c) p n = cpu_to_le32 be (crc_ref c (mem_list m p n)).
Proof.
  intros Hc Hm. revert c p Hc. induction n as [|n IH]; intros c p Hc; simpl; [done|].
  rewrite DO_CRC_spec by done. by apply IH, crc_byte_u32.
Qed.

(** ** Whole words *)

Lemma add_shift_lxor a y : is_byte a -> 0 <= y -> a + 2 ^ 8 * y = Z.lxor a (Z.shiftl y 8).
Proof.
  intros Ha Hy. rewrite Z.shiftl_mul_pow2, (Z.mul_comm y) by lia.
  apply Z.add_nocarry_lxor. rewrite Z.mul_comm, <- Z.shiftl_mul_pow2 by lia.
  apply Z.bits_inj'. intros n Hn. rewrite Z.land_spec, Z.bits_0.
  destruct (Z.lt_ge_cases n 8).
  - rewrite Z.shiftl_spec_low by lia. apply andb_false_r.
  - by rewrite byte_bits_high.
Qed.

Lemma tab_step_word c a y :
  is_byte a -> 0 <= y -> tab_step (Z.lxor c (a + 2 ^ 8 * y)) = Z.lxor (crc_byte c a) y.
Proof.
  intros Ha Hy. rewrite add_shift_lxor, <- Z.lxor_assoc, tab_step_bits, crc_bits_lxor by done.
  change (Z.shiftl y 8) with (Z.shiftl y (Z.of_nat 8)). by rewrite crc_bits_shift.
Qed.

Lemma word_le_spec c a b d e :
  is_byte a -> is_byte b -> is_byte d -> is_byte e ->
  tab_step (tab_step (tab_step (tab_step (Z.lxor c (le_word a b d e))))) =
  crc_ref c [a; b; d; e].
Proof.
  intros Ha Hb Hd He. pose proof Ha. pose proof Hb. pose proof Hd. pose proof He.
  unfold is_byte in H, H0, H1, H2. unfold le_word, crc_ref. simpl fold_left.
  do 3 (rewrite tab_step_word; [|assumption|lia]). by rewrite !crc_byte_tab.
Qed.

Lemma le_word_lxor a b d e :
  is_byte a -> is_byte b -> is_byte d -> is_byte e ->
  le_word a b d e =
  Z.lxor a (Z.shiftl (Z.lxor b (Z.shiftl (Z.lxor d (Z.shiftl e 8)) 8)) 8).
Proof.
  intros Ha Hb Hd He. unfold is_byte in *. unfold le_word.
  rewrite <- (add_shift_lxor d), <- (add_shift_lxor b), <- (add_shift_lxor a)
    by (unfold is_byte; lia). done.
Qed.

Lemma le_word_u32 a b d e :
  is_byte a -> is_byte b -> is_byte d -> is_byte e -> is_u32 (le_word a b d e).
Proof. unfold is_byte, is_u32, le_word. lia. Qed.

Lemma le_word_bit a b d e n :
  is_byte a -> is_byte b -> is_byte d -> is_byte e -> 0 <= n < 32 ->
  Z.testbit (le_word a b d e) n = Z.testbit (rd [a; b; d; e] (n / 8)) (n mod 8).
Proof.
  intros Ha Hb Hd He Hn. rewrite le_word_lxor by done.
  set (f := fun n => Z.testbit (Z.lxor a (Z.shiftl (Z.lxor b
    (Z.shiftl (Z.lxor d (Z.shiftl e 8)) 8)) 8)) n = Z.testbit (rd [a; b; d; e] (n / 8)) (n mod 8)).
  assert (H : Forall f (seqZ 0 32)).
  { vm_compute seqZ. repeat (apply List.Forall_cons; [|]); try apply List.Forall_nil; unfold f;
    match goal with |- _ = Z.testbit (rd ?l (?n / 8)) (?n mod 8) =>
      let q := eval vm_compute in (n / 8) in let r := eval vm_compute in (n mod 8) in
      change (n / 8) with q; change (n mod 8) with r end;
    unfold rd; cbn [Z.to_nat Pos.to_nat Pos.iter_op nth Nat.add]; push_testbit;
    repeat match goal with |- context [xorb (Z.testbit ?x ?k) _] =>
      rewrite (byte_bits_high x k) by (assumption || (clear; lia)) end;
    by rewrite ?xorb_false_r, ?xorb_false_l. }
  rewrite List.Forall_forall in H. apply H, list_elem_of_In, elem_of_seqZ. lia.
Qed.

(** A word read in the other byte order is the swapped word. *)
Lemma swab32_le_word a b d e :
  is_byte a -> is_byte b -> is_byte d -> is_byte e ->
  swab32 (le_word a b d e) = le_word e d b a.
Proof.
  intros Ha Hb Hd He. apply u32_ext; [apply swab32_u32|by apply le_word_u32|].
  intros n Hn. pose proof (swab_pos_range n Hn).
  rewrite swab32_bit, !le_word_bit by done. unfold swab_pos.
  replace ((8 * (3 - n / 8) + n mod 8) / 8) with (3 - n / 8)
    by (Z.to_euclidean_division_equations; lia).
  replace ((8 * (3 - n / 8) + n mod 8) mod 8) with (n mod 8)
    by (Z.to_euclidean_division_equations; lia).
  assert (Hq : 0 <= n / 8 < 4) by (Z.to_euclidean_division_equations; lia).
  assert (n / 8 = 0 \/ n / 8 = 1 \/ n / 8 = 2 \/ n / 8 = 3) as [-> |[-> |[-> | ->]]] by lia;
    done.
Qed.

Lemma load32_spec be m p :
  (forall a, is_byte (m a)) ->
  load32 be m p = cpu_to_le32 be (le_word (m p) (m (p + 1)) (m (p + 2)) (m (p + 3))).
Proof. intros Hm. destruct be; simpl; [by rewrite swab32_le_word|done]. Qed.

Lemma cpu_to_le32_lxor be x y :
  cpu_to_le32 be (Z.lxor x y) = Z.lxor (cpu_to_le32 be x) (cpu_to_le32 be y).
Proof. destruct be; [apply swab32_lxor|done]. Qed.

Lemma cpu_to_le32_involutive be x : is_u32 x -> cpu_to_le32 be (cpu_to_le32 be x) = x.
Proof. destruct be; [apply swab32_involutive|done]. Qed.

Lemma crc_ref_u32 c l : is_u32 c -> byte_list l -> is_u32 (crc_ref c l).
Proof.
  intros Hc Hl. revert c Hc. induction Hl as [|x l Hx Hl IH]; intros c Hc; [done|].
  simpl. by apply IH, crc_byte_u32.
Qed.

Lemma crc_ref_app c l k : crc_ref c (l ++ k) = crc_ref (crc_ref c l) k.
Proof. apply fold_left_app. Qed.

Lemma crc_words_spec be m c p n :
  is_u32 c -> (forall a, is_byte (m a)) ->
  crc_words be m (cpu_to_le32 be c) p n = cpu_to_le32 be (crc_ref c (mem_list m p (4 * n))).
Proof.
  intros Hc Hm. revert c p Hc. induction n as [|n IH]; intros c p Hc; [done|].
  replace (4 * S n)%nat with (4 + 4 * n)%nat by lia. rewrite mem_list_app, crc_ref_app.
  cbn [crc_words]. rewrite load32_spec, <- cpu_to_le32_lxor by done.
  pose proof (le_word_u32 _ _ _ _ (Hm p) (Hm (p + 1)) (Hm (p + 2)) (Hm (p + 3))) as Hw.
  pose proof (lxor_u32 _ _ Hc Hw). pose proof (tab_step_u32 _ H).
  pose proof (tab_step_u32 _ H0). pose proof (tab_step_u32 _ H1).
  assert (Hz : forall c, crc_byte c 0 = tab_step c)
    by (intros; by rewrite crc_byte_tab, Z.lxor_0_r).
  do 4 (rewrite DO_CRC_spec, Hz; [|assumption|unfold is_byte; lia]).
  rewrite word_le_spec by done. cbn [mem_list].
  replace (p + 1 + 1) with (p + 2) by lia. replace (p + 2 + 1) with (p + 3) by lia.
  apply IH. apply crc_ref_u32; [done|]. repeat constructor; apply Hm.
Qed.

Lemma crc_align_spec be m c p len fuel :
  is_u32 c -> (forall a, is_byte (m a)) -> 0 < len ->
  exists k, Z.of_nat k <= len /\
    crc_align fuel be m (cpu_to_le32 be c) p len =
    (cpu_to_le32 be (crc_ref c (mem_list m p k)), p + Z.of_nat k, len - Z.of_nat k).
Proof.
  intros Hc Hm. revert c p len Hc. induction fuel as [|fuel IH]; intros c p len Hc Hl.
  { exists O. simpl. rewrite Z.add_0_r, Z.sub_0_r. split; [lia|done]. }
  cbn [crc_align]. rewrite DO_CRC_spec by done.
  destruct (negb (len - 1 =? 0) && negb (Z.land (p + 1) 3 =? 0)) eqn:Hb.
  - destruct (IH (crc_byte c (m p)) (p + 1) (len - 1)) as (k & Hk & Heq);
      [by apply crc_byte_u32|destruct (Z.eqb_spec (len - 1) 0); [done|lia]|].
    exists (S k). rewrite Heq. cbn [mem_list]. split; [lia|].
    by replace (p + Z.of_nat (S k)) with (p + 1 + Z.of_nat k) by lia;
      replace (len - Z.of_nat (S k)) with (len - 1 - Z.of_nat k) by lia.
  - exists 1%nat. split; [lia|]. done.
Qed.

Lemma mem_list_bytes m p n : (forall a, is_byte (m a)) -> byte_list (mem_list m p n).
Proof.
  intros Hm. revert p. induction n as [|n IH]; intros p; [constructor|].
  apply List.Forall_cons; [apply Hm|apply IH].
Qed.

Lemma crc32_no_comp_spec be m c buf len :
  is_u32 c -> (forall a, is_byte (m a)) -> 0 <= len ->
  crc32_no_comp be m c buf len = crc_ref c (mem_list m buf (Z.to_nat len)).
Proof.
  intros Hc Hm Hl. unfold crc32_no_comp.
  assert (Hk : exists k, Z.of_nat k <= len /\
    (if negb (Z.land buf 3 =? 0) && negb (len =? 0)
     then crc_align 3 be m (cpu_to_le32 be c) buf len
     else (cpu_to_le32 be c, buf, len)) =
    (cpu_to_le32 be (crc_ref c (mem_list m buf k)), buf + Z.of_nat k, len - Z.of_nat k)).
  { destruct (negb _ && _) eqn:Hb.
    - apply crc_align_spec; [done..|]. destruct (Z.eqb_spec len 0); [|lia].
      by rewrite andb_false_r in Hb.
    - exists O. simpl. rewrite Z.add_0_r, Z.sub_0_r. split; [lia|done]. }
  destruct Hk as (k & Hk & ->). set (n := len - Z.of_nat k).
  assert (Hml : forall p q, byte_list (mem_list m p q)).
  { intros. by apply mem_list_bytes. }
  rewrite crc_words_spec by (auto using crc_ref_u32).
  rewrite crc_bytes_spec by (auto using crc_ref_u32).
  rewrite cpu_to_le32_involutive by (auto using crc_ref_u32).
  rewrite <- !crc_ref_app. f_equal.
  rewrite (land_mask n 2 3), Z.shiftr_div_pow2 by lia.
  assert (Hn : 0 <= n) by lia. pose proof (Z.div_mod n (2 ^ 2) ltac:(lia)).
  pose proof (Z.div_pos n (2 ^ 2) Hn ltac:(lia)).
  pose proof (Z.mod_pos_bound n (2 ^ 2) ltac:(lia)).
  set (q := n / 2 ^ 2) in *. set (r := n mod 2 ^ 2) in *.
  replace (Z.to_nat len) with (k + (4 * Z.to_nat q + Z.to_nat r))%nat by lia.
  rewrite !mem_list_app. rewrite !app_assoc. do 2 f_equal. lia.
Qed.

Lemma mask_u32 c : is_u32 c -> is_u32 (Z.lxor c 0xffffffff).
Proof. intros. apply lxor_u32; [done|]. unfold is_u32. lia. Qed.

(** C7: on either byte order and at any alignment, [crc32] (a word-wise table
    implementation) computes the bit-serial CRC-32 of the bytes of the buffer,
    with the register complemented before and after. *)
Theorem crc32_spec be m c p len :
  is_u32 c -> (forall a, is_byte (m a)) -> 0 <= len ->
  crc32 be m c p len =
  Z.lxor (crc_ref (Z.lxor c 0xffffffff) (mem_list m p (Z.to_nat len))) 0xffffffff.
Proof. intros. unfold crc32. by rewrite crc32_no_comp_spec by (auto using mask_u32). Qed.

Lemma crc32_ref be m c p len :
  is_u32 c -> (forall a, is_byte (m a)) -> 0 <= len ->
  crc32 be m c p len =
  Z.lxor (crc_ref (Z.lxor c 0xffffffff) (mem_list m p (Z.to_nat len))) 0xffffffff.
Proof. intros. unfold crc32. by rewrite crc32_no_comp_spec by (auto using mask_u32). Qed.

Lemma crc32_u32 be m c p len :
  is_u32 c -> (forall a, is_byte (m a)) -> 0 <= len -> is_u32 (crc32 be m c p len).
Proof.
  intros. rewrite crc32_ref by done.
  apply mask_u32, crc_ref_u32; auto using mask_u32, mem_list_bytes.
Qed.

(** The checksum is a function of the bytes. *)
Lemma crc32_bytes be be' m k p q len :
  (forall a, is_byte (m a)) -> (forall a, is_byte (k a)) -> 0 <= len ->
  (forall i, 0 <= i < len -> m (p + i) = k (q + i)) -> crc32 be m 0 p len = crc32 be' k 0 q len.
Proof.
  intros Hm Hk Hl H. rewrite !crc32_ref by done. do 2 f_equal.
  apply mem_list_move. intros i Hi. apply H. lia.
Qed.

(** Feeding a buffer in two pieces. *)
Lemma crc32_app be m c p a b :
  is_u32 c -> (forall a, is_byte (m a)) -> 0 <= a -> 0 <= b ->
  crc32 be m (crc32 be m c p a) (p + a) b = crc32 be m c p (a + b).
Proof.
  intros. rewrite (crc32_ref _ _ (crc32 _ _ _ _ _)) by (auto using crc32_u32).
  rewrite !crc32_ref by (auto; lia).
  rewrite Z.lxor_assoc, Z.lxor_nilpotent, Z.lxor_0_r, <- crc_ref_app.
  replace (Z.to_nat (a + b)) with (Z.to_nat a + Z.to_nat b)%nat by lia.
  rewrite mem_list_app. do 4 f_equal. lia.
Qed.

Lemma crc32_wd_step fuel be m crc curr fin chunk_sz :
  crc32_wd (S fuel) be m crc curr fin chunk_sz =
  if curr <? fin then
    let chunk := if chunk_sz <? fin - curr then chunk_sz else fin - curr in
    crc32_wd fuel be m (crc32 be m crc curr chunk) (curr + chunk) fin chunk_sz
  else Some crc.
Proof. done. Qed.

(** computing the checksum in chunks with a watchdog reset between them
    terminates and gives the checksum of the whole buffer, whatever the
    chunk size. *)
Theorem crc32_wd_spec be m c p len chunk :
  is_u32 c -> (forall a, is_byte (m a)) -> 0 <= len -> 0 < chunk ->
  crc32_wd (S (Z.to_nat len)) be m c p (p + len) chunk = Some (crc32 be m c p len).
Proof.
  intros Hc Hm Hl Hch. remember (Z.to_nat len) as n eqn:Hn.
  assert (Hle : (Z.to_nat len <= n)%nat) by lia. clear Hn.
  revert c p len Hc Hl Hle. induction n as [|n IH]; intros c p len Hc Hl Hle.
  all: rewrite crc32_wd_step; destruct (Z.ltb_spec p (p + len)).
  all: try (rewrite <- (Z.lxor_0_r c) at 1; rewrite crc32_ref by done;
    replace len with 0 by lia; simpl; f_equal;
    by rewrite Z.lxor_assoc, Z.lxor_nilpotent).
  - lia.
  - replace (p + len - p) with len by lia.
    set (k := if chunk <? len then chunk else len).
    assert (Hk : 0 < k <= len) by (unfold k; bdestruct).
    replace (p + len) with (p + k + (len - k)) by lia.
    rewrite IH by (auto using crc32_u32 with lia || lia).
    rewrite crc32_app by (done || lia). do 2 f_equal. lia.
Qed.

(** ** Error detection *)

Lemma tab_step_zero x : is_u32 x -> tab_step x = 0 -> x = 0.
Proof.
  intros Hx H. unfold tab_step in H. apply Z.lxor_eq in H.
  assert (Hi : Z.land x 255 = 0).
  { assert (Hlt : rd crc_table (Z.land x 255) < 2 ^ 24).
    { rewrite H, Z.shiftr_div_pow2 by lia. apply Z.div_lt_upper_bound; [lia|].
      unfold is_u32 in Hx. lia. }
    assert (Hb : (negb (rd crc_table (Z.land x 255) <? 2 ^ 24) || (Z.land x 255 =? 0)) = true).
    { apply (forallb_seqZ (fun n => negb (rd crc_table n <? 2 ^ 24) || (n =? 0)) 256);
        [vm_compute; reflexivity|apply low_byte_range]. }
    destruct (Z.ltb_spec (rd crc_table (Z.land x 255)) (2 ^ 24)); [|lia].
    simpl in Hb. lia. }
  rewrite (split_low_byte x), Hi, <- H, Hi. done.
Qed.

Lemma tab_step_inj x y : is_u32 x -> is_u32 y -> tab_step x = tab_step y -> x = y.
Proof.
  intros Hx Hy H. apply Z.lxor_eq, tab_step_zero; [by apply lxor_u32|].
  rewrite !tab_step_bits in *. rewrite crc_bits_lxor, H. apply Z.lxor_nilpotent.
Qed.

Lemma lxor_inj_l c x y : Z.lxor c x = Z.lxor c y -> x = y.
Proof.
  intros H. apply (f_equal (Z.lxor c)) in H.
  by rewrite <- !Z.lxor_assoc, Z.lxor_nilpotent, !Z.lxor_0_l in H.
Qed.

Lemma lxor_inj_r c x y : Z.lxor x c = Z.lxor y c -> x = y.
Proof. rewrite !(Z.lxor_comm _ c). apply lxor_inj_l. Qed.

(** The rest of the message cannot hide a difference of the register. *)
Lemma crc_ref_inj c d l :
  is_u32 c -> is_u32 d -> byte_list l -> crc_ref c l = crc_ref d l -> c = d.
Proof.
  intros Hc Hd Hl. revert c d Hc Hd.
  induction Hl as [|x l Hx Hl IH]; intros c d Hc Hd H; [done|].
  apply IH in H; [|by apply crc_byte_u32..]. rewrite !crc_byte_tab in H.
  apply tab_step_inj in H; [|by apply lxor_u32, byte_u32..]. by apply lxor_inj_r in H.
Qed.

Lemma le_word_inj a b d e a' b' d' e' :
  is_byte a -> is_byte b -> is_byte d -> is_byte e ->
  is_byte a' -> is_byte b' -> is_byte d' -> is_byte e' ->
  le_word a b d e = le_word a' b' d' e' -> [a; b; d; e] = [a'; b'; d'; e'].
Proof.
  unfold is_byte, le_word. intros.
  assert (a = a' /\ b = b' /\ d = d' /\ e = e') by lia. by destruct_and!; subst.
Qed.

Lemma crc_ref_word_inj c l k :
  is_u32 c -> byte_list l -> byte_list k -> length l = 4%nat -> length k = 4%nat ->
  crc_ref c l = crc_ref c k -> l = k.
Proof.
  intros Hc Hl Hk. destruct l as [|a [|b [|d [|e [|]]]]]; try discriminate.
  destruct k as [|a' [|b' [|d' [|e' [|]]]]]; try discriminate. intros _ _ H.
  unfold byte_list in Hl, Hk. rewrite !List.Forall_cons_iff in Hl, Hk. destruct_and!.
  rewrite <- !word_le_spec in H by done.
  do 4 (apply tab_step_inj in H; [|by repeat apply tab_step_u32; apply lxor_u32, le_word_u32..]).
  apply lxor_inj_l, le_word_inj in H; done.
Qed.

Lemma crc32_burst be m k c p len q :
  is_u32 c -> (forall a, is_byte (m a)) -> (forall a, is_byte (k a)) ->
  p <= q -> q + 4 <= p + len ->
  (forall a, ~ (q <= a < q + 4) -> m a = k a) ->
  mem_list m q 4 <> mem_list k q 4 ->
  crc32 be m c p len <> crc32 be k c p len.
Proof.
  intros Hc Hm Hk Hpq Hq Hout Hin H. apply Hin.
  rewrite !crc32_ref in H by (done || lia). apply lxor_inj_r in H.
  replace (Z.to_nat len) with (Z.to_nat (q - p) + (4 + Z.to_nat (p + len - (q + 4))))%nat
    in H by lia.
  rewrite !mem_list_app, !crc_ref_app in H.
  replace (p + Z.of_nat (Z.to_nat (q - p))) with q in H by lia.
  rewrite (mem_list_ext k m p), (mem_list_ext k m (q + Z.of_nat 4)) in H
    by (intros; symmetry; apply Hout; lia).
  pose proof (mask_u32 _ Hc).
  apply crc_ref_inj in H; [|by repeat apply crc_ref_u32; auto using mem_list_bytes..
    |by apply mem_list_bytes].
  apply crc_ref_word_inj in H; auto using crc_ref_u32, mem_list_bytes.
  all: apply mem_list_length.
Qed.

(** CRC-32 detects every error burst confined to four consecutive bytes:
    two buffers that agree outside the four bytes at [q] and differ there have
    different checksums. *)
Theorem crc32_detects_burst be m k c p len q :
  is_u32 c -> (forall a, is_byte (m a)) -> (forall a, is_byte (k a)) ->
  p <= q -> q + 4 <= p + len ->
  (forall a, ~ (q <= a < q + 4) -> m a = k a) ->
  mem_list m q 4 <> mem_list k q 4 ->
  crc32 be m c p len <> crc32 be k c p len.
Proof. apply crc32_burst. Qed.

(** ** CRC-16 *)

(** One shift of the 16-bit register, most significant bit first. *)
Definition crc16_bit (c : Z) : Z :=
  if Z.testbit c 15 then Z.lxor (u16 (Z.shiftl c 1)) 0x1021 else u16 (Z.shiftl c 1).

Definition crc16_ref (l : list Z) : Z :=
  fold_left (fun c x => Nat.iter 8 crc16_bit (Z.lxor c (Z.shiftl x 8))) l 0.

Lemma u16_lxor x y : u16 (Z.lxor x y) = Z.lxor (u16 x) (u16 y).
Proof.
  unfold u16. rewrite <- !Z.land_ones by lia. apply Z.bits_inj. intros n.
  rewrite !Z.lxor_spec, !Z.land_spec, Z.lxor_spec.
  by destruct (Z.testbit x n), (Z.testbit y n), (Z.testbit _ n).
Qed.

Lemma crc16_bit_lxor x y : crc16_bit (Z.lxor x y) = Z.lxor (crc16_bit x) (crc16_bit y).
Proof.
  unfold crc16_bit. rewrite Z.lxor_spec, Z.shiftl_lxor, u16_lxor.
  set (a := u16 (Z.shiftl x 1)). set (b := u16 (Z.shiftl y 1)).
  destruct (Z.testbit x 15), (Z.testbit y 15); simpl xorb; cbv iota; try done;
    apply Z.bits_inj; intros n; rewrite !Z.lxor_spec;
    by destruct (Z.testbit a n), (Z.testbit b n), (Z.testbit 0x1021 n).
Qed.

Lemma crc16_bits_lxor n x y :
  Nat.iter n crc16_bit (Z.lxor x y) = Z.lxor (Nat.iter n crc16_bit x) (Nat.iter n crc16_bit y).
Proof. induction n as [|n IH]; simpl; [done|]. by rewrite IH, crc16_bit_lxor. Qed.

Lemma crc16_tab_entry n :
  0 <= n < 256 -> rd crc16_tab n = Nat.iter 8 crc16_bit (Z.shiftl n 8).
Proof.
  intros Hn. apply Z.eqb_eq.
  apply (forallb_seqZ (fun n => rd crc16_tab n =? Nat.iter 8 crc16_bit (Z.shiftl n 8)) 256);
    [vm_compute; reflexivity | done].
Qed.

Lemma crc16_low n : is_byte n -> Nat.iter 8 crc16_bit n = Z.shiftl n 8.
Proof.
  intros Hn. apply Z.eqb_eq.
  apply (forallb_seqZ (fun n => Nat.iter 8 crc16_bit n =? Z.shiftl n 8) 256);
    [vm_compute; reflexivity | done].
Qed.

Lemma crc16_step c x :
  0 <= c < 65536 -> is_byte x ->
  u16 (Z.lxor (rd crc16_tab (Z.land (Z.lxor (Z.shiftr c 8) x) 0xff)) (Z.shiftl c 8)) =
  Nat.iter 8 crc16_bit (Z.lxor c (Z.shiftl x 8)).
Proof.
  intros Hc Hx. rewrite (split_low_byte c) at 3.
  rewrite Z.lxor_assoc, <- Z.shiftl_lxor, crc16_bits_lxor.
  rewrite crc16_low by (apply low_byte_range).
  assert (Hh : is_byte (Z.shiftr c 8)).
  { rewrite Z.shiftr_div_pow2 by lia. unfold is_byte. split; [apply Z.div_pos; lia|].
    apply Z.div_lt_upper_bound; lia. }
  assert (Hb : is_byte (Z.lxor (Z.shiftr c 8) x)) by (by apply lxor_byte).
  rewrite (land_mask _ 8 0xff), (Z.mod_small (Z.lxor _ _)) by (done || lia).
  rewrite crc16_tab_entry by done. rewrite u16_lxor, Z.lxor_comm. f_equal.
  - rewrite (land_mask c 8 255), !Z.shiftl_mul_pow2 by lia. unfold u16.
    change 65536 with (2 ^ 8 * 2 ^ 8). change (2 ^ 16) with (2 ^ 8 * 2 ^ 8).
    by rewrite Z.mul_mod_distr_r by lia.
  - rewrite <- crc16_tab_entry by done. apply u16_small.
    assert (Hr : (0 <=? rd crc16_tab (Z.lxor (Z.shiftr c 8) x)) &&
      (rd crc16_tab (Z.lxor (Z.shiftr c 8) x) <? 65536) = true).
    { apply (forallb_seqZ (fun n => (0 <=? rd crc16_tab n) && (rd crc16_tab n <? 65536)) 256);
        [vm_compute; reflexivity | done]. }
    lia.
Qed.

Lemma crc16_loop_spec c buf :
  0 <= c < 65536 -> byte_list buf ->
  crc16_loop c buf = fold_left (fun c x => Nat.iter 8 crc16_bit (Z.lxor c (Z.shiftl x 8))) buf c.
Proof.
  intros Hc Hl. revert c Hc. induction Hl as [|x l Hx Hl IH]; intros c Hc; [done|].
  cbn [crc16_loop fold_left]. rewrite <- crc16_step by done. apply IH, u16_range.
Qed.

(** the table-driven CRC-16 is the bit-serial register of the polynomial
    x^16 + x^12 + x^5 + 1, most significant bit first, from 0. *)
Theorem cyg_crc16_spec buf : byte_list buf -> cyg_crc16 buf = crc16_ref buf.
Proof. by apply crc16_loop_spec. Qed.

(** ** Witnesses *)

(** The nine ASCII digits. *)
Definition digits : mem :=
  fun a => if (1 <=? a) && (a <? 10) then 0x30 + a else 0.

Lemma digits_byte a : is_byte (digits a).
Proof. unfold digits, is_byte. destruct (_ && _) eqn:H; lia. Qed.

Lemma crc32_spec_witness :
  crc32 true digits 0 1 9 = 0xcbf43926 /\
  crc32 true digits 0 1 9 =
    Z.lxor (crc_ref (Z.lxor 0 0xffffffff) (mem_list digits 1 (Z.to_nat 9))) 0xffffffff.
Proof.
  split; [vm_compute; reflexivity|]. apply (crc32_spec true digits 0 1 9).
  - unfold is_u32; lia.
  - apply digits_byte.
  - lia.
Defined.

Lemma crc32_wd_spec_witness :
  crc32_wd (S (Z.to_nat 9)) true digits 0 1 (1 + 9) 4 = Some (crc32 true digits 0 1 9).
Proof.
  apply (crc32_wd_spec true digits 0 1 9 4).
  - unfold is_u32; lia.
  - apply digits_byte.
  - lia.
  - lia.
Defined.

Lemma crc32_detects_burst_witness :
  crc32 false digits 0 1 9 <> crc32 false (upd digits 4 0) 0 1 9.
Proof.
  apply (crc32_detects_burst false digits (upd digits 4 0) 0 1 9 3).
  - unfold is_u32; lia.
  - apply digits_byte.
  - intros a. unfold upd. destruct (a =? 4); [unfold is_byte; lia|apply digits_byte].
  - lia.
  - lia.
  - intros a Ha. rewrite upd_ne by lia. reflexivity.
  - vm_compute. congruence.
Defined.

Lemma cyg_crc16_spec_witness :
  cyg_crc16 [0x31; 0x32; 0x33] = crc16_ref [0x31; 0x32; 0x33].
Proof. apply cyg_crc16_spec. repeat constructor; vm_compute; congruence. Defined.
