(* ===== verification/Digest.v ===== *)
(** What the digests of [lib_generic] (SHA-1, SHA-256, MD5) share: 32-bit rotation,
    the byte order of words, messages cut into blocks of 64 bytes, and the
    buffering of input by the update functions, over an arbitrary block function.

    The reference for a digest is a fold of the block function over the blocks of
    the whole padded message; [absorbs] says that a context stands for the message
    received so far, however it was cut into pieces. *)

From S2P Require Import Prelude.

(** ** Words *)

(** Rotation of a 32-bit word, as the standards define it. *)
Definition rotl (n x : Z) : Z := Z.lor (u32 (Z.shiftl x n)) (Z.shiftr (u32 x) (32 - n)).

(** The big-endian and the little-endian word of four bytes. *)
Definition word_be (b : list Z) (i : nat) : Z :=
  nth i b 0 * 2 ^ 24 + nth (i + 1) b 0 * 2 ^ 16 + nth (i + 2) b 0 * 2 ^ 8 + nth (i + 3) b 0.
Definition word_le (b : list Z) (i : nat) : Z :=
  nth i b 0 + nth (i + 1) b 0 * 2 ^ 8 + nth (i + 2) b 0 * 2 ^ 16 + nth (i + 3) b 0 * 2 ^ 24.

Definition bytes_be (n : Z) : list Z :=
  [n / 2 ^ 24 mod 256; n / 2 ^ 16 mod 256; n / 2 ^ 8 mod 256; n mod 256].
Definition bytes_le (n : Z) : list Z := rev (bytes_be n).

(** The sixteen words of a block. *)
Definition words (w : list Z -> nat -> Z) (data : list Z) : list Z :=
  map (fun i => w data (4 * i)%nat) (seq 0 16).

Lemma u32_lor a b : u32 (Z.lor a b) = Z.lor (u32 a) (u32 b).
Proof.
  unfold u32. rewrite <- !Z.land_ones by lia. rewrite !(Z.land_comm _ (Z.ones 32)).
  apply Z.land_lor_distr_r.
Qed.

(** The rotation macros. *)
Lemma rotl_macro n x :
  0 <= n <= 32 ->
  u32 (Z.lor (Z.shiftl x n) (Z.shiftr (Z.land x 4294967295) (32 - n))) = rotl n x.
Proof.
  intros Hn. unfold rotl. rewrite (land_mask _ 32), u32_lor by lia. fold (u32 x). f_equal.
  apply u32_small. rewrite Z.shiftr_div_pow2 by lia. pose proof (u32_range x).
  assert (0 < 2 ^ (32 - n)) by (apply Z.pow_pos_nonneg; lia).
  split; [apply Z.div_pos; lia|]. apply Z.div_lt_upper_bound; nia.
Qed.

(** The logical functions as the code computes them. *)
Lemma choose_spec x y z :
  Z.lxor z (Z.land x (Z.lxor y z)) = Z.lxor (Z.land x y) (Z.land (Z.lnot x) z).
Proof.
  apply Z.bits_inj'. intros i Hi. rewrite !Z.lxor_spec, !Z.land_spec, Z.lxor_spec, Z.lnot_spec by done.
  by destruct (Z.testbit x i), (Z.testbit y i), (Z.testbit z i).
Qed.

Lemma majority_spec x y z :
  Z.lor (Z.land x y) (Z.land z (Z.lor x y)) =
  Z.lxor (Z.lxor (Z.land x y) (Z.land x z)) (Z.land y z).
Proof.
  apply Z.bits_inj'. intros i Hi. rewrite !Z.lxor_spec, !Z.lor_spec, !Z.land_spec, Z.lor_spec.
  by destruct (Z.testbit x i), (Z.testbit y i), (Z.testbit z i).
Qed.

Lemma word_be_range b i : byte_list b -> 0 <= word_be b i < 2 ^ 32.
Proof.
  intros Hb. unfold word_be.
  pose proof (rd_byte b (Z.of_nat i) Hb). pose proof (rd_byte b (Z.of_nat (i + 1)) Hb).
  pose proof (rd_byte b (Z.of_nat (i + 2)) Hb). pose proof (rd_byte b (Z.of_nat (i + 3)) Hb).
  unfold rd, is_byte in *. rewrite !Nat2Z.id in *. lia.
Qed.

(** ** The byte order macros *)

(** [GET_UINT32_BE] and [PUT_UINT32_BE]. *)
Definition get_uint32_be (b : list Z) (i : nat) : Z :=
  Z.lor (Z.lor (Z.lor (Z.shiftl (nth i b 0) 24) (Z.shiftl (nth (i + 1) b 0) 16))
    (Z.shiftl (nth (i + 2) b 0) 8)) (nth (i + 3) b 0).
Definition put_uint32_be (n : Z) : list Z :=
  [u8 (Z.shiftr n 24); u8 (Z.shiftr n 16); u8 (Z.shiftr n 8); u8 n].

Lemma get_uint32_be_spec b i : byte_list b -> get_uint32_be b i = word_be b i.
Proof.
  intros Hb. unfold get_uint32_be, word_be.
  pose proof (rd_byte b (Z.of_nat i) Hb) as H0. pose proof (rd_byte b (Z.of_nat (i + 1)) Hb) as H1.
  pose proof (rd_byte b (Z.of_nat (i + 2)) Hb) as H2. pose proof (rd_byte b (Z.of_nat (i + 3)) Hb) as H3.
  unfold rd, is_byte in *. rewrite !Nat2Z.id in *. rewrite !Z.shiftl_mul_pow2 by lia.
  rewrite (lor_add (nth i b 0 * 2 ^ 24) _ 24), (lor_add (_ + _) _ 16), (lor_add (_ + _) _ 8);
    try lia; Z.to_euclidean_division_equations; lia.
Qed.

Lemma put_uint32_be_spec n : put_uint32_be n = bytes_be n.
Proof. unfold put_uint32_be, bytes_be, u8. by rewrite !Z.shiftr_div_pow2 by lia. Qed.

(** ** Blocks *)

(** The complete blocks of a message, and what is left. *)
Definition nblocks (msg : list Z) : nat := (length msg / 64)%nat.
Definition blocks (msg : list Z) : list (list Z) :=
  map (fun i => firstn 64 (skipn (64 * i) msg)) (seq 0 (nblocks msg)).
Definition tail (msg : list Z) : list Z := skipn (64 * nblocks msg) msg.

Lemma nblocks_app b msg : length b = 64%nat -> nblocks (b ++ msg) = S (nblocks msg).
Proof.
  intros Hb. unfold nblocks. rewrite length_app, Hb.
  replace (64 + length msg)%nat with (length msg + 1 * 64)%nat by lia.
  rewrite Nat.div_add by lia. lia.
Qed.

Lemma blocks_app b msg : length b = 64%nat -> blocks (b ++ msg) = b :: blocks msg.
Proof.
  intros Hb. unfold blocks. rewrite nblocks_app by done. cbn [seq map]. f_equal.
  - rewrite Nat.mul_0_r, skipn_O. rewrite <- Hb at 1. rewrite firstn_app, Nat.sub_diag, firstn_all.
    simpl. apply app_nil_r.
  - rewrite <- seq_shift, map_map. apply map_ext. intros i. f_equal.
    rewrite skipn_app, skipn_all2 by lia. cbn [app]. f_equal. lia.
Qed.

Lemma tail_app b msg : length b = 64%nat -> tail (b ++ msg) = tail msg.
Proof.
  intros Hb. unfold tail. rewrite nblocks_app by done.
  rewrite skipn_app, skipn_all2 by lia. cbn [app]. f_equal. lia.
Qed.

Lemma blocks_short (msg : list Z) : (length msg < 64)%nat -> blocks msg = [] /\ tail msg = msg.
Proof. intros H. unfold blocks, tail, nblocks. by rewrite Nat.div_small by done. Qed.

Lemma msg_cases (msg : list Z) : (length msg < 64)%nat \/ exists b m, length b = 64%nat /\ msg = b ++ m.
Proof.
  destruct (Nat.lt_ge_cases (length msg) 64) as [|Hge]; [by left|right].
  exists (firstn 64 msg), (skipn 64 msg). rewrite length_firstn, firstn_skipn. split; [lia|done].
Qed.

(** Induction on a message, block by block. *)
Lemma msg_ind (P : list Z -> Prop) :
  (forall msg, (length msg < 64)%nat -> P msg) ->
  (forall b msg, length b = 64%nat -> P msg -> P (b ++ msg)) -> forall msg, P msg.
Proof.
  intros Hs Hb msg. remember (length msg) as n eqn:En. revert msg En.
  induction n as [n IH] using lt_wf_ind. intros msg ->.
  destruct (msg_cases msg) as [H|(b & m & H & ->)]; [by apply Hs|].
  apply Hb; [done|]. apply (IH (length m)); [rewrite length_app; lia|done].
Qed.

Lemma tail_length msg : length (tail msg) = (length msg mod 64)%nat.
Proof.
  unfold tail, nblocks. rewrite length_skipn. pose proof (Nat.div_mod_eq (length msg) 64). lia.
Qed.

Lemma tail_short msg : (length (tail msg) < 64)%nat.
Proof. rewrite tail_length. by apply Nat.mod_upper_bound. Qed.

(** What is left over goes in front of what comes next. *)
Lemma blocks_more msg input :
  blocks (msg ++ input) = blocks msg ++ blocks (tail msg ++ input) /\
  tail (msg ++ input) = tail (tail msg ++ input).
Proof.
  induction msg as [msg Hs|b msg Hb [IH1 IH2]] using msg_ind.
  - destruct (blocks_short msg Hs) as [-> ->]. done.
  - rewrite <- app_assoc, (blocks_app b (msg ++ input) Hb), (tail_app b (msg ++ input) Hb).
    rewrite (blocks_app b msg Hb), (tail_app b msg Hb), IH1, IH2. done.
Qed.

(** ** Update *)

(** The context of a digest whose intermediate state is an [S]. *)
Record context (S : Type) : Type := Context {
  total0 : Z;
  total1 : Z;
  state : S;
  buffer : list Z }.
Arguments Context {S}.
Arguments total0 {S}.
Arguments total1 {S}.
Arguments state {S}.
Arguments buffer {S}.

(** [memcpy] of [l] to offset [at] of the buffer. *)
Definition patch (buf : list Z) (at_ : nat) (l : list Z) : list Z :=
  firstn at_ buf ++ l ++ skipn (at_ + length l) buf.

Lemma firstn_repeat_min {A} (x : A) m n : firstn m (repeat x n) = repeat x (Nat.min m n).
Proof. revert n. induction m as [|m IH]; intros [|n]; [done..|]. cbn. by rewrite IH. Qed.

Section Update.
Context {S : Type} (process : S -> list Z -> S).

(** [while (ilen >= 64)] *)
Fixpoint blocks_loop (fuel : nat) (st : S) (input : list Z) : S * list Z :=
  match fuel with
  | O => (st, input)
  | Datatypes.S fuel =>
    if 64 <=? Z.of_nat (length input)
    then blocks_loop fuel (process st (firstn 64 input)) (skipn 64 input)
    else (st, input)
  end.

(** The update function of SHA-1 and SHA-256; [input] has the length passed. *)
Definition update (ctx : context S) (input : list Z) : context S :=
  let ilen := Z.of_nat (length input) in
  if ilen <=? 0 then ctx
  else
    let left_ := Z.land (total0 ctx) 63 in
    let fill := 64 - left_ in
    let t0 := Z.land (u32 (total0 ctx + ilen)) 4294967295 in
    let t1 := if t0 <? ilen then u32 (total1 ctx + 1) else total1 ctx in
    let '(st, buf, input, left_) :=
      if negb (left_ =? 0) && (fill <=? ilen) then
        let buf := patch (buffer ctx) (Z.to_nat left_) (firstn (Z.to_nat fill) input) in
        (process (state ctx) buf, buf, skipn (Z.to_nat fill) input, 0)
      else (state ctx, buffer ctx, input, left_) in
    let '(st, input) := blocks_loop (length input) st input in
    let buf := if 0 <? Z.of_nat (length input) then patch buf (Z.to_nat left_) input else buf in
    Context t0 t1 st buf.

(** The state after a message. *)
Definition absorb (st : S) (msg : list Z) : S := fold_left process (blocks msg) st.

Lemma absorb_app st msg input :
  absorb st (msg ++ input) = absorb (absorb st msg) (tail msg ++ input).
Proof. unfold absorb. destruct (blocks_more msg input) as [-> _]. apply fold_left_app. Qed.

Lemma blocks_loop_spec fuel st input :
  (nblocks input <= fuel)%nat -> blocks_loop fuel st input = (absorb st input, tail input).
Proof.
  revert st fuel. induction input as [input Hs|b input Hb IH] using msg_ind; intros st fuel Hf.
  - unfold absorb. destruct (blocks_short input Hs) as [-> ->].
    destruct fuel; cbn [blocks_loop]; [done|]. by rewrite (proj2 (Z.leb_gt _ _)) by lia.
  - rewrite nblocks_app in Hf by done. destruct fuel as [|fuel]; [lia|]. cbn [blocks_loop].
    rewrite length_app, Hb, (proj2 (Z.leb_le _ _)) by lia.
    rewrite <- Hb, firstn_app, Nat.sub_diag, firstn_all, firstn_O, app_nil_r.
    rewrite skipn_app, Nat.sub_diag, skipn_all. cbn [app skipn].
    rewrite IH by lia. unfold absorb. rewrite blocks_app, tail_app by done. done.
Qed.

(** A context stands for a message. *)
Definition absorbs (st0 : S) (ctx : context S) (msg : list Z) : Prop :=
  total0 ctx + 2 ^ 32 * total1 ctx = Z.of_nat (length msg) mod 2 ^ 64 /\
  0 <= total0 ctx < 2 ^ 32 /\ 0 <= total1 ctx < 2 ^ 32 /\
  state ctx = absorb st0 msg /\
  length (buffer ctx) = 64%nat /\ firstn (length (tail msg)) (buffer ctx) = tail msg.

Lemma absorbs_left st0 ctx msg :
  absorbs st0 ctx msg -> Z.land (total0 ctx) 63 = Z.of_nat (length (tail msg)).
Proof.
  intros (Ht & H0 & _). rewrite (land_mask _ 6) by lia. rewrite tail_length.
  rewrite Nat2Z.inj_mod. change (Z.of_nat 64) with (2 ^ 6).
  assert (E : total0 ctx = Z.of_nat (length msg) mod 2 ^ 64 - 2 ^ 32 * total1 ctx) by lia.
  rewrite E. clear. Z.to_euclidean_division_equations. lia.
Qed.

Lemma total_step t0 t1 len ilen :
  t0 + 2 ^ 32 * t1 = len mod 2 ^ 64 -> 0 <= t0 < 2 ^ 32 -> 0 <= t1 < 2 ^ 32 -> 0 <= ilen < 2 ^ 32 ->
  let t0' := Z.land (u32 (t0 + ilen)) 4294967295 in
  let t1' := if t0' <? ilen then u32 (t1 + 1) else t1 in
  t0' + 2 ^ 32 * t1' = (len + ilen) mod 2 ^ 64 /\ 0 <= t0' < 2 ^ 32 /\ 0 <= t1' < 2 ^ 32.
Proof.
  intros Ht H0 H1 Hi. rewrite (land_mask _ 32) by lia. unfold u32. rewrite Z.mod_mod by lia.
  cbv zeta. destruct (Z.ltb_spec ((t0 + ilen) mod 2 ^ 32) ilen).
  - Z.to_euclidean_division_equations. lia.
  - Z.to_euclidean_division_equations. lia.
Qed.

Lemma patch_length buf i l :
  (i + length l <= length buf)%nat -> length (patch buf i l) = length buf.
Proof. intros H. unfold patch. rewrite !length_app, length_firstn, length_skipn. lia. Qed.

Lemma patch_firstn buf i l :
  (i + length l <= length buf)%nat -> firstn (i + length l) (patch buf i l) = firstn i buf ++ l.
Proof.
  intros H. unfold patch. rewrite app_assoc, firstn_app, length_app, length_firstn.
  rewrite Nat.min_l by lia. rewrite Nat.sub_diag, firstn_O, app_nil_r.
  apply firstn_all2. rewrite length_app, length_firstn. lia.
Qed.

(** The buffer after [memcpy] of what is left of the input. *)
Lemma buffer_patch buf t l :
  length buf = 64%nat -> firstn (length t) buf = t -> (length t + length l < 64)%nat ->
  length (patch buf (length t) l) = 64%nat /\
  firstn (length (t ++ l)) (patch buf (length t) l) = t ++ l.
Proof.
  intros Hb Ht Hl. rewrite patch_length, length_app, patch_firstn, Ht by lia. done.
Qed.

(** The state, buffer and rest of the input after the block that was begun. *)
Lemma update_state st0 ctx msg input :
  absorbs st0 ctx msg ->
  let t := tail msg in
  let ilen := Z.of_nat (length input) in
  let left_ := Z.of_nat (length t) in
  let '(st, buf, input', left') :=
    if negb (left_ =? 0) && (64 - left_ <=? ilen) then
      let buf := patch (buffer ctx) (length t) (firstn (64 - length t) input) in
      (process (state ctx) buf, buf, skipn (64 - length t) input, 0)
    else (state ctx, buffer ctx, input, left_) in
  exists t', left' = Z.of_nat (length t') /\ length buf = 64%nat /\ firstn (length t') buf = t' /\
    (t' = [] \/ (length (t' ++ input') < 64)%nat) /\
    absorb st (t' ++ input') = absorb st0 (msg ++ input) /\
    tail (t' ++ input') = tail (msg ++ input).
Proof.
  intros (_ & _ & _ & Hst & Hlen & Hbuf) t. cbv zeta.
  pose proof (tail_short msg) as Hs. fold t in Hs, Hbuf.
  rewrite (absorb_app st0 msg input), (proj2 (blocks_more msg input)), <- Hst. fold t.
  destruct (Z.eqb_spec (Z.of_nat (length t)) 0) as [E|E];
    [|destruct (Z.leb_spec (64 - Z.of_nat (length t)) (Z.of_nat (length input))) as [Hf|Hf]];
    cbn [negb andb].
  - exists t. split_and!; try done. left. apply nil_length_inv. lia.
  - set (h := firstn (64 - length t) input).
    assert (Hh : length h = (64 - length t)%nat) by (unfold h; rewrite length_firstn; lia).
    assert (Hblk : patch (buffer ctx) (length t) h = t ++ h).
    { unfold patch. rewrite Hbuf, Hh, skipn_all2 by lia. by rewrite app_nil_r. }
    assert (Hb64 : length (t ++ h) = 64%nat) by (rewrite length_app; lia).
    exists []. rewrite Hblk.
    split_and!; try done; [by left| |].
    + rewrite <- (firstn_skipn (64 - length t) input) at 2. fold h.
      rewrite app_assoc. unfold absorb. rewrite (blocks_app (t ++ h)) by done. done.
    + rewrite <- (firstn_skipn (64 - length t) input) at 2. fold h.
      rewrite app_assoc, (tail_app (t ++ h)) by done. done.
  - exists t. split_and!; try done. right. rewrite length_app. lia.
Qed.

Lemma update_absorbs st0 ctx msg input :
  absorbs st0 ctx msg -> Z.of_nat (length input) < 2 ^ 32 ->
  absorbs st0 (update ctx input) (msg ++ input).
Proof.
  intros H Hlen. unfold update.
  destruct (Z.leb_spec (Z.of_nat (length input)) 0) as [Hle|Hpos].
  { destruct input; [by rewrite app_nil_r|simpl in *; lia]. }
  pose proof (update_state st0 ctx msg input H) as Hu. cbv zeta in Hu.
  rewrite (absorbs_left st0 ctx msg H), Nat2Z.id.
  replace (Z.to_nat (64 - Z.of_nat (length (tail msg)))) with (64 - length (tail msg))%nat by lia.
  destruct H as (Ht & H0 & H1 & _).
  pose proof (total_step _ _ _ (Z.of_nat (length input)) Ht H0 H1 ltac:(lia)) as Htot. cbv zeta in Htot.
  set (t0' := Z.land _ _) in *. set (t1' := if t0' <? _ then _ else _) in *.
  rewrite <- Nat2Z.inj_add, <- length_app in Htot.
  destruct (if negb _ && _ then _ else _) as [[[st buf] input'] left'].
  destruct Hu as (t' & -> & Hbl & Hbt & Hcase & Habs & Htail).
  rewrite blocks_loop_spec by (unfold nblocks; apply Nat.Div0.div_le_upper_bound; lia).
  assert (Hsplit : absorb st (t' ++ input') = absorb st input' /\
                   tail (t' ++ input') = t' ++ tail input').
  { destruct Hcase as [->|Hs]; [done|]. unfold absorb.
    destruct (blocks_short _ Hs) as [-> ->]. rewrite length_app in Hs.
    destruct (blocks_short input') as [-> ->]; [lia|done]. }
  destruct Hsplit as [Ha Hta]. rewrite Ha in Habs. rewrite Hta in Htail.
  pose proof (tail_short (msg ++ input)) as Hts. rewrite <- Htail, length_app in Hts.
  destruct (buffer_patch buf t' (tail input') Hbl Hbt Hts) as [Hp1 Hp2].
  unfold absorbs. cbn [total0 total1 state buffer]. rewrite <- Htail, Nat2Z.id.
  split; [apply Htot|]. split; [apply Htot|]. split; [apply Htot|]. split; [exact Habs|].
  destruct (Z.ltb_spec 0 (Z.of_nat (length (tail input')))); [by split|].
  assert (tail input' = []) as -> by (apply nil_length_inv; lia). by rewrite app_nil_r.
Qed.

(** ** Finish *)

Definition padding : list Z := 128 :: repeat 0 63.

(** The length in bits, as the finish functions of SHA-1 and SHA-256 write it. *)
Definition msglen (ctx : context S) : list Z :=
  let high := Z.lor (Z.shiftr (total0 ctx) 29) (u32 (Z.shiftl (total1 ctx) 3)) in
  let low := u32 (Z.shiftl (total0 ctx) 3) in
  put_uint32_be high ++ put_uint32_be low.

(** The two updates of the finish functions. *)
Definition finish (ctx : context S) : context S :=
  let last := Z.land (total0 ctx) 63 in
  let padn := if last <? 56 then 56 - last else 120 - last in
  update (update ctx (firstn (Z.to_nat padn) padding)) (msglen ctx).

(** The padding of the standard: a one bit, the fewest zeros that leave room for the
    length in bits in the last block. *)
Definition pad (len : nat) : list Z :=
  128 :: repeat 0 (Z.to_nat ((55 - Z.of_nat len) mod 64)) ++
  bytes_be (Z.of_nat len * 8 / 2 ^ 32) ++ bytes_be (Z.of_nat len * 8).

Lemma pad_complete msg : (length (msg ++ pad (length msg)) mod 64 = 0)%nat.
Proof.
  apply Nat2Z.inj. rewrite Nat2Z.inj_mod. unfold pad.
  rewrite length_app. cbn [length]. rewrite !length_app, repeat_length. cbn [bytes_be length].
  rewrite !Nat2Z.inj_add, Nat2Z.inj_succ, !Nat2Z.inj_add, Z2Nat.id by (apply Z.mod_pos_bound; lia).
  Z.to_euclidean_division_equations. lia.
Qed.

Lemma bytes_be_mod n : bytes_be (n mod 2 ^ 32) = bytes_be n.
Proof. unfold bytes_be. f_equal; [|f_equal; [|f_equal; [|f_equal]]];
  Z.to_euclidean_division_equations; lia. Qed.

Lemma msglen_spec st0 ctx msg :
  absorbs st0 ctx msg ->
  msglen ctx = bytes_be (Z.of_nat (length msg) * 8 / 2 ^ 32) ++ bytes_be (Z.of_nat (length msg) * 8).
Proof.
  intros (Ht & H0 & H1 & _). set (len := Z.of_nat (length msg)) in *. clearbody len.
  unfold msglen. rewrite !put_uint32_be_spec, Z.lor_comm.
  rewrite Z.shiftr_div_pow2, !Z.shiftl_mul_pow2, (lor_add _ _ 3) by
    (try lia; unfold u32; Z.to_euclidean_division_equations; lia).
  unfold u32. rewrite <- (bytes_be_mod (len * 8)), <- (bytes_be_mod (len * 8 / 2 ^ 32)).
  assert (Hlen : exists q, len = total0 ctx + 2 ^ 32 * total1 ctx + 2 ^ 64 * q).
  { exists (len / 2 ^ 64). rewrite Ht. pose proof (Z.div_mod len (2 ^ 64)). lia. }
  destruct Hlen as [q ->]. f_equal; f_equal.
  - replace ((total0 ctx + 2 ^ 32 * total1 ctx + 2 ^ 64 * q) * 8)
      with (total0 ctx * 2 ^ 3 + (total1 ctx * 2 ^ 3 + q * 2 ^ 35) * 2 ^ 32) by lia.
    rewrite Z.div_add by lia. Z.to_euclidean_division_equations. lia.
  - replace ((total0 ctx + 2 ^ 32 * total1 ctx + 2 ^ 64 * q) * 8)
      with (total0 ctx * 2 ^ 3 + (total1 ctx * 2 ^ 3 + q * 2 ^ 35) * 2 ^ 32) by lia.
    by rewrite Z_mod_plus_full.
Qed.

Lemma padn_spec st0 ctx msg :
  absorbs st0 ctx msg ->
  let last := Z.land (total0 ctx) 63 in
  firstn (Z.to_nat (if last <? 56 then 56 - last else 120 - last)) padding =
  128 :: repeat 0 (Z.to_nat ((55 - Z.of_nat (length msg)) mod 64)).
Proof.
  intros H. cbv zeta. rewrite (absorbs_left st0 ctx msg H), tail_length, Nat2Z.inj_mod.
  change (Z.of_nat 64) with 64. set (len := Z.of_nat (length msg)). unfold padding.
  assert (E : Z.to_nat (if len mod 64 <? 56 then 56 - len mod 64 else 120 - len mod 64) =
              Datatypes.S (Z.to_nat ((55 - len) mod 64))).
  { destruct (Z.ltb_spec (len mod 64) 56); Z.to_euclidean_division_equations; lia. }
  rewrite E. cbn [firstn]. f_equal. rewrite firstn_repeat_min. f_equal.
  pose proof (Z.mod_pos_bound (55 - len) 64). lia.
Qed.

Lemma finish_spec st0 ctx msg :
  absorbs st0 ctx msg -> absorbs st0 (finish ctx) (msg ++ pad (length msg)).
Proof.
  intros H. unfold finish, pad. pose proof (padn_spec st0 ctx msg H) as Hp. cbv zeta in Hp.
  cbv zeta. rewrite Hp, (msglen_spec st0 ctx msg H), app_comm_cons, app_assoc.
  apply update_absorbs; [apply update_absorbs; [done|]|simpl; lia].
  cbn [length]. rewrite repeat_length. pose proof (Z.mod_pos_bound (55 - Z.of_nat (length msg)) 64).
  lia.
Qed.

(** A fresh context, and a sequence of updates. *)
Lemma starts_absorbs st0 buf : length buf = 64%nat -> absorbs st0 (Context 0 0 st0 buf) [].
Proof. intros Hb. unfold absorbs. cbn. split_and!; (done || lia). Qed.

Lemma updates_absorb st0 ctx msg pieces :
  absorbs st0 ctx msg -> Forall (fun p => Z.of_nat (length p) < 2 ^ 32) pieces ->
  absorbs st0 (fold_left update pieces ctx) (msg ++ concat pieces).
Proof.
  intros H Hp. revert ctx msg H. induction Hp as [|p pieces Hp Hps IH]; intros ctx msg H.
  - by rewrite app_nil_r.
  - cbn [fold_left concat]. rewrite app_assoc. by apply IH, update_absorbs.
Qed.
End Update.

(** ** Messages of bytes *)

Lemma bytes_be_bytes n : byte_list (bytes_be n).
Proof.
  unfold bytes_be, byte_list.
  repeat (apply List.Forall_cons; [apply Z.mod_pos_bound; lia|]). apply List.Forall_nil.
Qed.

Lemma pad_bytes len : byte_list (pad len).
Proof.
  unfold pad. change (byte_list ([128] ++ repeat 0 (Z.to_nat ((55 - Z.of_nat len) mod 64)) ++
    bytes_be (Z.of_nat len * 8 / 2 ^ 32) ++ bytes_be (Z.of_nat len * 8))).
  rewrite !byte_list_app. split_and!; try apply bytes_be_bytes.
  - apply List.Forall_cons; [unfold is_byte; lia|apply List.Forall_nil].
  - apply List.Forall_forall. intros x Hx%repeat_spec. subst x. unfold is_byte. lia.
Qed.

Lemma concat_bytes {A} (g : A -> list Z) l : (forall x, byte_list (g x)) -> byte_list (concat (map g l)).
Proof.
  intros Hg. induction l as [|x l IH]; [apply List.Forall_nil|]. cbn. rewrite byte_list_app. by split.
Qed.

Lemma blocks_bytes msg b : byte_list msg -> In b (blocks msg) -> byte_list b.
Proof.
  intros Hm Hb. unfold blocks in Hb. apply in_map_iff in Hb as (i & <- & _).
  apply List.Forall_forall. intros x Hx. unfold byte_list in Hm. rewrite List.Forall_forall in Hm.
  apply Hm. rewrite <- (firstn_skipn (64 * i) msg). apply in_or_app. right.
  rewrite <- (firstn_skipn 64 (skipn _ msg)). apply in_or_app. by left.
Qed.

(** Two block functions that agree on the states that occur. *)
Lemma absorb_ext {S} (p q : S -> list Z -> S) (I : S -> Prop) st msg :
  (forall st b, I st -> byte_list b -> p st b = q st b) ->
  (forall st b, I st -> I (q st b)) -> byte_list msg -> I st ->
  absorb p st msg = absorb q st msg.
Proof.
  intros Hpq HI Hm Hst. unfold absorb. pose proof (fun b => blocks_bytes msg b Hm) as Hb.
  revert st Hst. induction (blocks msg) as [|b bs IH]; intros st Hst; [done|]. cbn [fold_left].
  rewrite Hpq; [|done|apply Hb; by left]. apply IH; [|by apply HI]. intros c Hc. apply Hb. by right.
Qed.

(** ** The checksums with a watchdog *)

(** A message in pieces shorter than [bound]. *)
Definition pieces_ok (bound : Z) (pieces : list (list Z)) : Prop :=
  Forall (fun p => byte_list p /\ Z.of_nat (length p) < bound) pieces.

Lemma pieces_ok_bytes bound pieces : pieces_ok bound pieces -> byte_list (concat pieces).
Proof.
  intros H. induction H as [|p pieces [Hp _] _ IH]; [apply List.Forall_nil|]. cbn.
  rewrite byte_list_app. by split.
Qed.

(** The loop that feeds the input to [update] in chunks and resets the watchdog after
    each; [None] only if the fuel runs out. *)
Fixpoint wd_loop {C} (update : C -> list Z -> C) (fuel : nat) (ctx : C) (curr : list Z) (chunk_sz : nat)
    : option C :=
  match curr with
  | [] => Some ctx
  | _ =>
    match fuel with
    | O => None
    | S fuel =>
      let chunk := if Nat.ltb chunk_sz (length curr) then chunk_sz else length curr in
      wd_loop update fuel (update ctx (firstn chunk curr)) (skipn chunk curr) chunk_sz
    end
  end.

(** With as much fuel as there is input it ends, and has cut the input into pieces. *)
Lemma wd_loop_spec {C} (update : C -> list Z -> C) bound fuel ctx curr chunk_sz :
  (0 < chunk_sz)%nat -> (length curr <= fuel)%nat -> byte_list curr -> Z.of_nat (length curr) < bound ->
  exists pieces, pieces_ok bound pieces /\ concat pieces = curr /\
    wd_loop update fuel ctx curr chunk_sz = Some (fold_left update pieces ctx).
Proof.
  intros Hc. revert ctx curr. induction fuel as [|fuel IH]; intros ctx curr Hf Hb Hlen.
  { destruct curr; [|simpl in Hf; lia]. exists []. split; [apply List.Forall_nil|done]. }
  destruct curr as [|x curr]; [exists []; split; [apply List.Forall_nil|done]|].
  set (l := x :: curr) in *. cbn [wd_loop]. unfold l at 1. fold l.
  set (chunk := if Nat.ltb chunk_sz (length l) then chunk_sz else length l).
  assert (Hch : (0 < chunk <= length l)%nat).
  { unfold chunk. destruct (Nat.ltb_spec chunk_sz (length l)); [lia|]. unfold l. simpl. lia. }
  pose proof (firstn_skipn chunk l) as Hs. rewrite <- Hs, byte_list_app in Hb.
  destruct (IH (update ctx (firstn chunk l)) (skipn chunk l)) as (pieces & H1 & H2 & H3).
  - rewrite length_skipn. lia.
  - apply Hb.
  - rewrite length_skipn. lia.
  - exists (firstn chunk l :: pieces). cbn [concat fold_left]. rewrite H2. split_and!; [|done|done].
    apply List.Forall_cons; [|done]. rewrite length_firstn. split; [apply Hb|lia].
Qed.
