(* ===== verification/Sha1.v ===== *)
(** SHA-1: [lib_generic/sha1.c], with the padding and the buffering of [Digest].

    [sha1_process] is the unrolled block function: line [t] of the eighty works on the
    variables A to E in roles that go round with [t], and the schedule lives in a
    circular buffer of sixteen words.  The reference is that of FIPS 180: registers
    that shift, and a schedule of eighty words. *)

From S2P Require Import Prelude Digest.

(** ** The code *)

Definition S (x n : Z) : Z :=
  u32 (Z.lor (Z.shiftl x n) (Z.shiftr (Z.land x 4294967295) (32 - n))).

(** The macros [F] and [K] as they are at line [t]. *)
Definition F (t : nat) (x y z : Z) : Z :=
  if Nat.ltb t 20 then Z.lxor z (Z.land x (Z.lxor y z))
  else if Nat.ltb t 40 then Z.lxor (Z.lxor x y) z
  else if Nat.ltb t 60 then Z.lor (Z.land x y) (Z.land z (Z.lor x y))
  else Z.lxor (Z.lxor x y) z.

Definition K (t : nat) : Z :=
  if Nat.ltb t 20 then 0x5A827999
  else if Nat.ltb t 40 then 0x6ED9EBA1
  else if Nat.ltb t 60 then 0x8F1BBCDC
  else 0xCA62C1D6.

(** The place among A, B, C, D, E of the [k]th argument of [P] at line [t]:
    [P (A, B, C, D, E)], [P (E, A, B, C, D)], [P (D, E, A, B, C)], ... *)
Definition role (t k : nat) : nat := ((k + 4 * t) mod 5)%nat.

Definition P (t : nat) (x : Z) (vars : list Z) : list Z :=
  let a := nth (role t 0) vars 0 in
  let b := nth (role t 1) vars 0 in
  let c := nth (role t 2) vars 0 in
  let d := nth (role t 3) vars 0 in
  let e := nth (role t 4) vars 0 in
  <[role t 1 := S b 30]> (<[role t 4 := u32 (e + (S a 5 + F t b c d + K t + x))]> vars).

(** [t - 3] and the like, modulo sixteen. *)
Definition R (t : nat) (W : list Z) : Z * list Z :=
  let w k := nth (k mod 16) W 0 in
  let temp := Z.lxor (Z.lxor (Z.lxor (w (t - 3)%nat) (w (t - 8)%nat)) (w (t - 14)%nat)) (w t) in
  (S temp 1, <[(t mod 16)%nat := S temp 1]> W).

Definition line (s : list Z * list Z) (t : nat) : list Z * list Z :=
  let '(vars, W) := s in
  if Nat.ltb t 16 then (P t (nth t W 0) vars, W)
  else let '(x, W) := R t W in (P t x vars, W).

Definition sha1_process (st : list Z) (data : list Z) : list Z :=
  let '(vars, _) := fold_left line (seq 0 80) (st, words get_uint32_be data) in
  zip_with (fun s v => u32 (s + v)) st vars.

Definition sha1_state0 : list Z := [0x67452301; 0xEFCDAB89; 0x98BADCFE; 0x10325476; 0xC3D2E1F0].

Definition sha1_starts (ctx : context (list Z)) : context (list Z) :=
  Context 0 0 sha1_state0 (buffer ctx).

Definition sha1_update : context (list Z) -> list Z -> context (list Z) := update sha1_process.

(** The digest. *)
Definition sha1_finish (ctx : context (list Z)) : list Z :=
  concat (map put_uint32_be (state (finish sha1_process ctx))).

(** [ctx] is the uninitialised context on the stack. *)
Definition sha1_csum (ctx : context (list Z)) (input : list Z) : list Z :=
  sha1_finish (sha1_update (sha1_starts ctx) input).

(** With a watchdog; [None] only if the fuel runs out. *)
Definition sha1_csum_wd (ctx : context (list Z)) (input : list Z) (chunk_sz : nat)
    : option (list Z) :=
  ctx ← wd_loop sha1_update (length input) (sha1_starts ctx) input chunk_sz;
  Some (sha1_finish ctx).

(** The key xored into 64 bytes [c], as far as it goes. *)
Definition key_pad (c : Z) (key : list Z) : list Z :=
  map (fun i => if Nat.ltb i (length key) then Z.lxor c (nth i key 0) else c) (seq 0 64).

Definition sha1_hmac (ctx : context (list Z)) (key input : list Z) : list Z :=
  let k_ipad := key_pad 0x36 key in
  let k_opad := key_pad 0x5C key in
  let tmpbuf := sha1_finish (sha1_update (sha1_update (sha1_starts ctx) k_ipad) input) in
  sha1_finish (sha1_update (sha1_update (sha1_starts ctx) k_opad) tmpbuf).

(** ** The standard *)

Definition f (t : nat) (x y z : Z) : Z :=
  if Nat.ltb t 20 then Z.lxor (Z.land x y) (Z.land (Z.lnot x) z)
  else if Nat.ltb t 40 then Z.lxor (Z.lxor x y) z
  else if Nat.ltb t 60 then Z.lxor (Z.lxor (Z.land x y) (Z.land x z)) (Z.land y z)
  else Z.lxor (Z.lxor x y) z.

(** The first [16 + n] words of the schedule. *)
Fixpoint sched (data : list Z) (n : nat) : list Z :=
  match n with
  | O => words word_be data
  | Datatypes.S n =>
    let w := sched data n in
    w ++ [rotl 1 (Z.lxor (Z.lxor (Z.lxor (nth (n + 13) w 0) (nth (n + 8) w 0)) (nth (n + 2) w 0))
                    (nth n w 0))]
  end.

Record regs : Type := Regs { ra : Z; rb : Z; rc : Z; rd_ : Z; re : Z }.

Definition step (data : list Z) (r : regs) (t : nat) : regs :=
  Regs (u32 (rotl 5 (ra r) + f t (rb r) (rc r) (rd_ r) + re r + K t + nth t (sched data 64) 0))
    (ra r) (rotl 30 (rb r)) (rc r) (rd_ r).

Definition to_list (r : regs) : list Z := [ra r; rb r; rc r; rd_ r; re r].

Definition compress (st data : list Z) : list Z :=
  match st with
  | [a; b; c; d; e] =>
    zip_with (fun s v => u32 (s + v)) st
      (to_list (fold_left (step data) (seq 0 80) (Regs a b c d e)))
  | _ => st
  end.

Definition sha1 (msg : list Z) : list Z :=
  concat (map bytes_be (absorb compress sha1_state0 (msg ++ pad (length msg)))).

(** ** The unrolled block function is the standard's *)

Lemma S_rotl n x : 0 <= n <= 32 -> S x n = rotl n x.
Proof. apply rotl_macro. Qed.

Lemma F_f t x y z : F t x y z = f t x y z.
Proof. unfold F, f. by rewrite choose_spec, majority_spec. Qed.

(** The variables hold the registers in the roles of line [t]. *)
Definition place (t : nat) (r : regs) : list Z :=
  map (fun p => nth ((p + t) mod 5) (to_list r) 0) (seq 0 5).

Lemma mod5_cases t : exists m, (t mod 5 = m /\ m < 5)%nat /\
  (forall p, (p + t) mod 5 = (p + m) mod 5)%nat /\ (forall k, role t k = (k + 4 * m) mod 5)%nat.
Proof.
  exists (t mod 5)%nat. split; [split; [done|by apply Nat.mod_upper_bound]|].
  split; intros k; unfold role.
  - by rewrite Nat.Div0.add_mod_idemp_r.
  - pose proof (Nat.div_mod_eq t 5) as E. set (m := (t mod 5)%nat) in *. rewrite E.
    replace (k + 4 * (5 * (t / 5) + m))%nat with (k + 4 * m + 4 * (t / 5) * 5)%nat by lia.
    apply Nat.Div0.mod_add.
Qed.

Lemma P_step data t r :
  P t (nth t (sched data 64) 0) (place t r) = place (Datatypes.S t) (step data r t).
Proof.
  unfold P, step, place. rewrite !F_f, !S_rotl by lia. generalize (nth t (sched data 64) 0) as x.
  intros x. destruct (mod5_cases t) as (m & [_ Hm] & Hp & Hr). rewrite !Hr.
  rewrite (map_ext _ _ (fun p => f_equal (fun i => nth i (to_list r) 0) (Hp p))).
  rewrite (map_ext (fun p => nth ((p + Datatypes.S t) mod 5) _ 0)
    (fun p => nth ((Datatypes.S p + m) mod 5) (to_list (Regs
       (u32 (rotl 5 (ra r) + f t (rb r) (rc r) (rd_ r) + re r + K t + x)) (ra r) (rotl 30 (rb r))
       (rc r) (rd_ r))) 0)) by (intros p; by rewrite Nat.add_succ_r, <- Nat.add_succ_l, Hp).
  generalize (K t), (f t). intros k g. destruct r as [a b c d e]. cbn [ra rb rc rd_ re].
  assert (He : forall y z w, u32 (e + (y + z + k + w)) = u32 (y + z + e + k + w)).
  { intros. f_equal. lia. }
  do 5 (destruct m as [|m]; [cbn; rewrite ?He; done|]). lia.
Qed.

Lemma sched_length data n : length (sched data n) = (16 + n)%nat.
Proof.
  induction n as [|n IH]; [done|]. cbn [sched]. rewrite length_app, IH. cbn [length]. lia.
Qed.

Lemma sched_le data n m j :
  (n <= m)%nat -> (j < 16 + n)%nat -> nth j (sched data m) 0 = nth j (sched data n) 0.
Proof.
  intros Hnm Hj. induction Hnm as [|m Hnm IH]; [done|]. cbn [sched].
  rewrite app_nth1 by (rewrite sched_length; lia). done.
Qed.

Lemma sched_rec data j :
  (16 <= j < 80)%nat ->
  let w k := nth k (sched data 64) 0 in
  w j = rotl 1 (Z.lxor (Z.lxor (Z.lxor (w (j - 3)%nat) (w (j - 8)%nat)) (w (j - 14)%nat))
                  (w (j - 16)%nat)).
Proof.
  intros Hj w. unfold w. rewrite (sched_le data (j - 15) 64 j) by lia.
  rewrite !(sched_le data (j - 16) 64) by lia.
  replace (j - 15)%nat with (Datatypes.S (j - 16)) by lia. cbn [sched].
  rewrite app_nth2, sched_length by (rewrite sched_length; lia).
  replace (j - (16 + (j - 16)))%nat with O by lia. cbn [nth].
  by replace (j - 16 + 13)%nat with (j - 3)%nat by lia;
    replace (j - 16 + 8)%nat with (j - 8)%nat by lia;
    replace (j - 16 + 2)%nat with (j - 14)%nat by lia.
Qed.

(** The circular buffer holds the last sixteen words of the schedule. *)
Definition circular (data : list Z) (t : nat) (W : list Z) : Prop :=
  length W = 16%nat /\
  forall j, (j < Nat.max t 16)%nat -> (t <= j + 16)%nat ->
    nth (j mod 16) W 0 = nth j (sched data 64) 0.

Lemma circular_start data : circular data 0 (words word_be data).
Proof.
  split; [done|]. intros j Hj _. rewrite Nat.mod_small by lia.
  by rewrite (sched_le data 0 64 j) by lia.
Qed.

Lemma mod16_ne i j : (i < j)%nat -> (j < i + 16)%nat -> (i mod 16 <> j mod 16)%nat.
Proof. intros. pose proof (Nat.div_mod_eq i 16). pose proof (Nat.div_mod_eq j 16). lia. Qed.

Lemma R_spec data t W :
  (16 <= t < 80)%nat -> circular data t W ->
  let '(x, W') := R t W in
  x = nth t (sched data 64) 0 /\ circular data (Datatypes.S t) W'.
Proof.
  intros Ht [Hlen Hw]. unfold R.
  assert (Hm : (t mod 16 = (t - 16) mod 16)%nat).
  { replace t with (t - 16 + 1 * 16)%nat at 1 by lia. apply Nat.Div0.mod_add. }
  rewrite !S_rotl by lia. rewrite Hm, !Hw by lia.
  rewrite <- sched_rec by done.
  split; [done|]. split; [by rewrite length_insert|]. intros j Hj Htj.
  rewrite nth_lookup. destruct (Nat.eq_dec j t) as [->|Hne].
  - rewrite Hm, list_lookup_insert_eq; [done|]. rewrite Hlen. by apply Nat.mod_upper_bound.
  - rewrite list_lookup_insert_ne by (apply mod16_ne; lia).
    rewrite <- nth_lookup. apply Hw; lia.
Qed.

Lemma lines_spec data r n :
  byte_list data -> (n <= 80)%nat ->
  exists W, fold_left line (seq 0 n) (to_list r, words get_uint32_be data) =
    (place n (fold_left (step data) (seq 0 n) r), W) /\ circular data n W.
Proof.
  intros Hb Hn. induction n as [|n IH].
  - exists (words word_be data). split; [|apply circular_start]. cbn [seq fold_left].
    apply f_equal2; [by destruct r|].
    apply map_ext. intros i. by apply get_uint32_be_spec.
  - destruct IH as (W & HW & Hc); [lia|]. rewrite seq_S, !fold_left_app, HW.
    cbn [fold_left line Nat.add]. destruct (Nat.ltb_spec n 16) as [Hlt|Hge].
    + exists W. destruct Hc as [Hlen Hw].
      rewrite <- (Nat.mod_small n 16 Hlt) at 2. rewrite Hw, P_step by lia. split; [done|].
      split; [done|]. intros j Hj Htj. apply Hw; lia.
    + pose proof (R_spec data n W ltac:(lia) Hc) as HR. destruct (R n W) as [x W'].
      destruct HR as [-> HW']. exists W'. by rewrite P_step.
Qed.

Lemma place_80 r : place 80 r = to_list r.
Proof. by destruct r. Qed.

(** The state is five words. *)
Lemma process_spec st data :
  length st = 5%nat -> byte_list data -> sha1_process st data = compress st data.
Proof.
  intros Hst Hb. do 5 (destruct st as [|? st]; [done|]). destruct st; [|done].
  unfold sha1_process, compress.
  destruct (lines_spec data (Regs z z0 z1 z2 z3) 80 Hb (le_n _)) as (W & HW & _).
  unfold to_list at 1 in HW. cbn [ra rb rc rd_ re] in HW. rewrite HW, place_80. done.
Qed.

Lemma compress_length st data : length st = 5%nat -> length (compress st data) = 5%nat.
Proof.
  intros Hst. do 5 (destruct st as [|? st]; [done|]). destruct st; [|done]. done.
Qed.

(** ** The digest of a message *)

(** A context fresh from the stack. *)
Definition fresh (ctx : context (list Z)) : Prop := length (buffer ctx) = 64%nat.

Lemma finish_sha1 ctx msg :
  absorbs sha1_process sha1_state0 ctx msg -> byte_list msg -> sha1_finish ctx = sha1 msg.
Proof.
  intros H Hb. apply finish_spec in H as (_ & _ & _ & Hst & _). unfold sha1_finish, sha1.
  rewrite Hst. rewrite (absorb_ext sha1_process compress (fun st => length st = 5%nat)).
  - f_equal. apply map_ext. intros n. apply put_uint32_be_spec.
  - intros. by apply process_spec.
  - intros. by apply compress_length.
  - rewrite byte_list_app. split; [done|apply pad_bytes].
  - done.
Qed.

Lemma updates_sha1 ctx pieces :
  fresh ctx -> pieces_ok (2 ^ 31) pieces ->
  sha1_finish (fold_left sha1_update pieces (sha1_starts ctx)) = sha1 (concat pieces).
Proof.
  intros Hf Hp. apply finish_sha1; [|by apply (pieces_ok_bytes (2 ^ 31))].
  rewrite <- (app_nil_l (concat pieces)). apply updates_absorb; [by apply starts_absorbs|].
  eapply List.Forall_impl; [|exact Hp]. intros p [_ Hlen]. lia.
Qed.

(** for every way to cut a message into pieces, starting, updating with each piece
    and finishing gives the message's SHA-1 digest as the standard defines it. *)
Theorem sha1_spec ctx pieces :
  fresh ctx -> pieces_ok (2 ^ 31) pieces ->
  sha1_finish (fold_left sha1_update pieces (sha1_starts ctx)) = sha1 (concat pieces).
Proof. apply updates_sha1. Qed.

(** the checksum with a watchdog terminates, for chunks of any positive size, with
    the digest of the whole input. *)
Theorem sha1_csum_wd_spec ctx input chunk_sz :
  fresh ctx -> byte_list input -> Z.of_nat (length input) < 2 ^ 31 -> (0 < chunk_sz)%nat ->
  sha1_csum_wd ctx input chunk_sz = Some (sha1 input) /\ sha1_csum ctx input = sha1 input.
Proof.
  intros Hf Hb Hlen Hc. split.
  - unfold sha1_csum_wd.
    destruct (wd_loop_spec sha1_update (2 ^ 31) (length input) (sha1_starts ctx) input chunk_sz Hc (le_n _) Hb Hlen)
      as (pieces & Hp & <- & ->). cbn. f_equal. by apply updates_sha1.
  - rewrite <- (app_nil_r input) at 2. apply (updates_sha1 ctx [input] Hf).
    apply List.Forall_cons; [done|apply List.Forall_nil].
Qed.

(** The key as HMAC uses it: 64 bytes, filled up with zeros. *)
Definition hmac_key (key : list Z) : list Z := firstn 64 (key ++ repeat 0 64).

Lemma firstn_as_map (n : nat) (l : list Z) :
  (n <= length l)%nat -> firstn n l = map (fun i => nth i l 0) (seq 0 n).
Proof.
  revert l. induction n as [|n IH]; intros [|x l] H; [done|done|simpl in H; lia|].
  cbn [firstn seq map nth]. rewrite <- seq_shift, map_map. f_equal. apply IH. simpl in H. lia.
Qed.

Lemma key_pad_spec c key : key_pad c key = map (Z.lxor c) (hmac_key key).
Proof.
  unfold key_pad, hmac_key. rewrite firstn_as_map by (rewrite length_app, repeat_length; lia).
  rewrite map_map. apply map_ext. intros i. destruct (Nat.ltb_spec i (length key)).
  - by rewrite app_nth1.
  - by rewrite app_nth2, nth_repeat, Z.lxor_0_r.
Qed.

Lemma key_pad_bytes c key : is_byte c -> byte_list key -> byte_list (key_pad c key) /\ length (key_pad c key) = 64%nat.
Proof.
  intros Hc Hk. split; [|unfold key_pad; by rewrite length_map, length_seq].
  unfold key_pad. apply List.Forall_forall. intros x (i & <- & _)%in_map_iff.
  destruct (Nat.ltb i (length key)); [|done]. apply lxor_byte; [done|].
  pose proof (rd_byte key (Z.of_nat i) Hk) as H. unfold rd in H. by rewrite Nat2Z.id in H.
Qed.

Lemma sha1_bytes msg : byte_list (sha1 msg) /\ length (sha1 msg) = 20%nat.
Proof.
  split; [apply concat_bytes, bytes_be_bytes|]. unfold sha1, absorb.
  assert (H : forall bs st, length st = 5%nat -> length (fold_left compress bs st) = 5%nat).
  { induction bs as [|b bs IH]; intros st Hst; [done|]. cbn [fold_left]. by apply IH, compress_length. }
  specialize (H (blocks (msg ++ pad (length msg))) sha1_state0 eq_refl).
  destruct (fold_left _ _ _) as [|a [|b [|c [|d [|e [|]]]]]]; done.
Qed.

(** [sha1_hmac] is HMAC-SHA-1 for keys of up to 64 bytes; of a longer key it uses the
    first 64 bytes. *)
Theorem sha1_hmac_spec ctx key input :
  fresh ctx -> byte_list key -> byte_list input -> Z.of_nat (length input) < 2 ^ 31 ->
  sha1_hmac ctx key input =
  sha1 (map (Z.lxor 0x5C) (hmac_key key) ++ sha1 (map (Z.lxor 0x36) (hmac_key key) ++ input)).
Proof.
  intros Hf Hk Hb Hlen. unfold sha1_hmac. rewrite <- !key_pad_spec.
  destruct (key_pad_bytes 0x36 key) as [Hi1 Hi2]; [unfold is_byte; lia|done|].
  destruct (key_pad_bytes 0x5C key) as [Ho1 Ho2]; [unfold is_byte; lia|done|].
  set (ki := key_pad 0x36 key) in *. set (ko := key_pad 0x5C key) in *. clearbody ki ko.
  assert (Htwo : forall p q, byte_list p -> byte_list q -> Z.of_nat (length p) < 2 ^ 31 ->
    Z.of_nat (length q) < 2 ^ 31 ->
    sha1_finish (sha1_update (sha1_update (sha1_starts ctx) p) q) = sha1 (p ++ q)).
  { intros p q Hp Hq Hlp Hlq. rewrite <- (app_nil_r q) at 2. apply (updates_sha1 ctx [p; q] Hf).
    apply List.Forall_cons; [done|]. apply List.Forall_cons; [done|]. apply List.Forall_nil. }
  rewrite (Htwo ki input) by (done || lia). destruct (sha1_bytes (ki ++ input)) as [Hs1 Hs2].
  apply Htwo; (done || lia).
Qed.

Definition some_ctx : context (list Z) := Context 7 7 [] (repeat 255 64).

(** "abc" and the digest of FIPS 180-1, in two ways. *)
Lemma sha1_spec_witness :
  sha1_finish (fold_left sha1_update [[97]; []; [98; 99]] (sha1_starts some_ctx)) = sha1 [97; 98; 99] /\
  sha1 [97; 98; 99] =
    [0xA9; 0x99; 0x3E; 0x36; 0x47; 0x06; 0x81; 0x6A; 0xBA; 0x3E;
     0x25; 0x71; 0x78; 0x50; 0xC2; 0x6C; 0x9C; 0xD0; 0xD8; 0x9D].
Proof.
  split; [|by vm_compute]. apply (sha1_spec some_ctx [[97]; []; [98; 99]]); [done|].
  apply (bool_decide_unpack _). by vm_compute.
Defined.

Lemma sha1_csum_wd_spec_witness :
  sha1_csum_wd some_ctx [97; 98; 99] 2 = Some (sha1 [97; 98; 99]).
Proof.
  apply (sha1_csum_wd_spec some_ctx [97; 98; 99] 2); [done| |done|lia].
  apply (bool_decide_unpack _). by vm_compute.
Defined.

Lemma sha1_hmac_spec_witness :
  sha1_hmac some_ctx [1; 2] [3] =
  sha1 (map (Z.lxor 0x5C) (hmac_key [1; 2]) ++ sha1 (map (Z.lxor 0x36) (hmac_key [1; 2]) ++ [3])).
Proof.
  apply (sha1_hmac_spec some_ctx [1; 2] [3]); try done.
  all: apply (bool_decide_unpack _); by vm_compute.
Defined.
