(* ===== verification/Sha256.v ===== *)
(** SHA-256: [lib_generic/sha256.c], with the padding and the buffering of [Digest].

    [sha256_process] is the unrolled block function: line [t] of the sixty-four works
    on the variables A to H in roles that go round with [t].  The reference is that of
    FIPS 180, with registers that shift. *)

From S2P Require Import Prelude Digest.

(** ** The code *)

Definition SHR (x n : Z) : Z := Z.shiftr (Z.land x 4294967295) n.
Definition ROTR (x n : Z) : Z := u32 (Z.lor (SHR x n) (Z.shiftl x (32 - n))).

Definition S0 (x : Z) : Z := Z.lxor (Z.lxor (ROTR x 7) (ROTR x 18)) (SHR x 3).
Definition S1 (x : Z) : Z := Z.lxor (Z.lxor (ROTR x 17) (ROTR x 19)) (SHR x 10).
Definition S2 (x : Z) : Z := Z.lxor (Z.lxor (ROTR x 2) (ROTR x 13)) (ROTR x 22).
Definition S3 (x : Z) : Z := Z.lxor (Z.lxor (ROTR x 6) (ROTR x 11)) (ROTR x 25).

Definition F0 (x y z : Z) : Z := Z.lor (Z.land x y) (Z.land z (Z.lor x y)).
Definition F1 (x y z : Z) : Z := Z.lxor z (Z.land x (Z.lxor y z)).

(** The constants of the lines. *)
Definition K : list Z :=
  [0x428A2F98; 0x71374491; 0xB5C0FBCF; 0xE9B5DBA5; 0x3956C25B; 0x59F111F1;
   0x923F82A4; 0xAB1C5ED5; 0xD807AA98; 0x12835B01; 0x243185BE; 0x550C7DC3;
   0x72BE5D74; 0x80DEB1FE; 0x9BDC06A7; 0xC19BF174; 0xE49B69C1; 0xEFBE4786;
   0x0FC19DC6; 0x240CA1CC; 0x2DE92C6F; 0x4A7484AA; 0x5CB0A9DC; 0x76F988DA;
   0x983E5152; 0xA831C66D; 0xB00327C8; 0xBF597FC7; 0xC6E00BF3; 0xD5A79147;
   0x06CA6351; 0x14292967; 0x27B70A85; 0x2E1B2138; 0x4D2C6DFC; 0x53380D13;
   0x650A7354; 0x766A0ABB; 0x81C2C92E; 0x92722C85; 0xA2BFE8A1; 0xA81A664B;
   0xC24B8B70; 0xC76C51A3; 0xD192E819; 0xD6990624; 0xF40E3585; 0x106AA070;
   0x19A4C116; 0x1E376C08; 0x2748774C; 0x34B0BCB5; 0x391C0CB3; 0x4ED8AA4A;
   0x5B9CCA4F; 0x682E6FF3; 0x748F82EE; 0x78A5636F; 0x84C87814; 0x8CC70208;
   0x90BEFFFA; 0xA4506CEB; 0xBEF9A3F7; 0xC67178F2].

(** The place among A to H of the [k]th argument of [P] at line [t]:
    [P(A, B, ..., H)], [P(H, A, ..., G)], ... *)
Definition role (t k : nat) : nat := ((k + 7 * t) mod 8)%nat.

Definition P (t : nat) (x : Z) (vars : list Z) : list Z :=
  let v k := nth (role t k) vars 0 in
  let temp1 := u32 (v 7%nat + S3 (v 4%nat) + F1 (v 4%nat) (v 5%nat) (v 6%nat) + nth t K 0 + x) in
  let temp2 := u32 (S2 (v 0%nat) + F0 (v 0%nat) (v 1%nat) (v 2%nat)) in
  <[role t 7 := u32 (temp1 + temp2)]> (<[role t 3 := u32 (v 3%nat + temp1)]> vars).

(** [W] is the part of the array that is set; [W[t]] is written at its end. *)
Definition R (t : nat) (W : list Z) : list Z :=
  let w k := nth k W 0 in
  W ++ [u32 (S1 (w (t - 2)%nat) + w (t - 7)%nat + S0 (w (t - 15)%nat) + w (t - 16)%nat)].

Definition line (s : list Z * list Z) (t : nat) : list Z * list Z :=
  let '(vars, W) := s in
  let W := if Nat.ltb t 16 then W else R t W in
  (P t (nth t W 0) vars, W).

Definition sha256_process (st : list Z) (data : list Z) : list Z :=
  let '(vars, _) := fold_left line (seq 0 64) (st, words get_uint32_be data) in
  zip_with (fun s v => u32 (s + v)) st vars.

Definition sha256_state0 : list Z :=
  [0x6A09E667; 0xBB67AE85; 0x3C6EF372; 0xA54FF53A; 0x510E527F; 0x9B05688C; 0x1F83D9AB; 0x5BE0CD19].

Definition sha256_starts (ctx : context (list Z)) : context (list Z) :=
  Context 0 0 sha256_state0 (buffer ctx).

Definition sha256_update : context (list Z) -> list Z -> context (list Z) := update sha256_process.

(** The digest. *)
Definition sha256_finish (ctx : context (list Z)) : list Z :=
  concat (map put_uint32_be (state (finish sha256_process ctx))).

(** ** The standard *)

Definition rotr (n x : Z) : Z := rotl (32 - n) x.
Definition Ch (x y z : Z) : Z := Z.lxor (Z.land x y) (Z.land (Z.lnot x) z).
Definition Maj (x y z : Z) : Z := Z.lxor (Z.lxor (Z.land x y) (Z.land x z)) (Z.land y z).
Definition Sigma0 (x : Z) : Z := Z.lxor (Z.lxor (rotr 2 x) (rotr 13 x)) (rotr 22 x).
Definition Sigma1 (x : Z) : Z := Z.lxor (Z.lxor (rotr 6 x) (rotr 11 x)) (rotr 25 x).
Definition sigma0 (x : Z) : Z := Z.lxor (Z.lxor (rotr 7 x) (rotr 18 x)) (Z.shiftr (u32 x) 3).
Definition sigma1 (x : Z) : Z := Z.lxor (Z.lxor (rotr 17 x) (rotr 19 x)) (Z.shiftr (u32 x) 10).

(** The first [16 + n] words of the schedule. *)
Fixpoint sched (data : list Z) (n : nat) : list Z :=
  match n with
  | O => words word_be data
  | S n =>
    let w := sched data n in
    w ++ [u32 (sigma1 (nth (n + 14) w 0) + nth (n + 9) w 0 + sigma0 (nth (n + 1) w 0) + nth n w 0)]
  end.

Record regs : Type := Regs { ra : Z; rb : Z; rc : Z; rd_ : Z; re : Z; rf : Z; rg : Z; rh : Z }.

Definition step (data : list Z) (r : regs) (t : nat) : regs :=
  let T1 := rh r + Sigma1 (re r) + Ch (re r) (rf r) (rg r) + nth t K 0 + nth t (sched data 48) 0 in
  let T2 := Sigma0 (ra r) + Maj (ra r) (rb r) (rc r) in
  Regs (u32 (T1 + T2)) (ra r) (rb r) (rc r) (u32 (rd_ r + T1)) (re r) (rf r) (rg r).

Definition to_list (r : regs) : list Z := [ra r; rb r; rc r; rd_ r; re r; rf r; rg r; rh r].

Definition compress (st data : list Z) : list Z :=
  match st with
  | [a; b; c; d; e; f; g; h] =>
    zip_with (fun s v => u32 (s + v)) st
      (to_list (fold_left (step data) (seq 0 64) (Regs a b c d e f g h)))
  | _ => st
  end.

Definition sha256 (msg : list Z) : list Z :=
  concat (map bytes_be (absorb compress sha256_state0 (msg ++ pad (length msg)))).

(** ** The unrolled block function is the standard's *)

Lemma ROTR_rotr n x : 0 <= n <= 32 -> ROTR x n = rotr n x.
Proof.
  intros Hn. unfold ROTR, SHR, rotr. rewrite Z.lor_comm.
  rewrite <- (rotl_macro (32 - n)) by lia. by replace (32 - (32 - n)) with n by lia.
Qed.

Lemma SHR_spec n x : SHR x n = Z.shiftr (u32 x) n.
Proof. unfold SHR. by rewrite (land_mask _ 32) by lia. Qed.

Lemma sums_spec x :
  S0 x = sigma0 x /\ S1 x = sigma1 x /\ S2 x = Sigma0 x /\ S3 x = Sigma1 x.
Proof.
  unfold S0, S1, S2, S3, sigma0, sigma1, Sigma0, Sigma1. rewrite !ROTR_rotr, !SHR_spec by lia. done.
Qed.

Lemma F_spec x y z : F0 x y z = Maj x y z /\ F1 x y z = Ch x y z.
Proof. unfold F0, F1, Maj, Ch. by rewrite choose_spec, majority_spec. Qed.

(** The variables hold the registers in the roles of line [t]. *)
Definition place (t : nat) (r : regs) : list Z :=
  map (fun p => nth ((p + t) mod 8) (to_list r) 0) (seq 0 8).

Lemma mod8_cases t : exists m, (m < 8)%nat /\
  (forall p, (p + t) mod 8 = (p + m) mod 8)%nat /\ (forall k, role t k = (k + 7 * m) mod 8)%nat.
Proof.
  exists (t mod 8)%nat. split; [by apply Nat.mod_upper_bound|]. split; intros k; unfold role.
  - by rewrite Nat.Div0.add_mod_idemp_r.
  - pose proof (Nat.div_mod_eq t 8) as E. set (m := (t mod 8)%nat) in *. rewrite E.
    replace (k + 7 * (8 * (t / 8) + m))%nat with (k + 7 * m + 7 * (t / 8) * 8)%nat by lia.
    apply Nat.Div0.mod_add.
Qed.

Lemma P256_step data t r : P t (nth t (sched data 48) 0) (place t r) = place (S t) (step data r t).
Proof.
  unfold P, step, place. generalize (nth t (sched data 48) 0) as x. intros x.
  destruct (mod8_cases t) as (m & Hm & Hp & Hr). cbv zeta.
  rewrite (map_ext _ _ (fun p => f_equal (fun i => nth i (to_list r) 0) (Hp p))).
  rewrite (map_ext (fun p => nth ((p + S t) mod 8) _ 0) (fun p => nth ((S p + m) mod 8) (to_list _) 0))
    by (intros p; rewrite Nat.add_succ_r, <- Nat.add_succ_l, Hp; reflexivity).
  generalize (nth t K 0). intros k. destruct r as [a b c d e f g h]. cbn [ra rb rc rd_ re rf rg rh].
  destruct (sums_spec a) as (_ & _ & Ha & _), (sums_spec e) as (_ & _ & _ & He).
  destruct (F_spec a b c) as [Hf0 _], (F_spec e f g) as [_ Hf1].
  assert (Hd : forall y, u32 (d + u32 y) = u32 (d + y)) by (intros; apply u32_add_r).
  assert (Hh : forall y z, u32 (u32 y + u32 z) = u32 (y + z)) by
    (intros; by rewrite u32_add_l, u32_add_r).
  rewrite !Hr. do 8 (destruct m as [|m]; [cbn; rewrite Ha, He, Hf0, Hf1, Hd, Hh; done|]). lia.
Qed.

Lemma sched256_length data n : length (sched data n) = (16 + n)%nat.
Proof.
  induction n as [|n IH]; [done|]. cbn [sched]. rewrite length_app, IH. cbn [length]. lia.
Qed.

Lemma sched256_le data n m j :
  (n <= m)%nat -> (j < 16 + n)%nat -> nth j (sched data m) 0 = nth j (sched data n) 0.
Proof.
  intros Hnm Hj. induction Hnm as [|m Hnm IH]; [done|]. cbn [sched].
  rewrite app_nth1 by (rewrite sched256_length; lia). done.
Qed.

(** [R] goes on with the schedule. *)
Lemma R256_spec data n : R (16 + n) (sched data n) = sched data (S n).
Proof.
  unfold R. cbn [sched]. cbv zeta.
  replace (16 + n - 2)%nat with (n + 14)%nat by lia. replace (16 + n - 7)%nat with (n + 9)%nat by lia.
  replace (16 + n - 15)%nat with (n + 1)%nat by lia. replace (16 + n - 16)%nat with n by lia.
  destruct (sums_spec (nth (n + 14) (sched data n) 0)) as (_ & -> & _).
  by destruct (sums_spec (nth (n + 1) (sched data n) 0)) as (-> & _).
Qed.

Lemma lines256_spec data r n :
  byte_list data -> (n <= 64)%nat ->
  fold_left line (seq 0 n) (to_list r, words get_uint32_be data) =
    (place n (fold_left (step data) (seq 0 n) r), sched data (n - 16)).
Proof.
  intros Hb Hn. induction n as [|n IH].
  - cbn [seq fold_left]. apply f_equal2; [by destruct r|].
    apply map_ext. intros i. by apply get_uint32_be_spec.
  - rewrite seq_S, !fold_left_app, IH by lia. cbn [fold_left line Nat.add].
    assert (HW : (if Nat.ltb n 16 then sched data (n - 16) else R n (sched data (n - 16))) =
                 sched data (S n - 16)).
    { destruct (Nat.ltb_spec n 16).
      - by replace (S n - 16)%nat with (n - 16)%nat by lia.
      - replace n with (16 + (n - 16))%nat at 1 by lia. rewrite R256_spec. f_equal. lia. }
    rewrite HW, <- P256_step. by rewrite (sched256_le data (S n - 16) 48) by lia.
Qed.

Lemma place_64 r : place 64 r = to_list r.
Proof. by destruct r. Qed.

(** The state is eight words. *)
Lemma process256_spec st data :
  length st = 8%nat -> byte_list data -> sha256_process st data = compress st data.
Proof.
  intros Hst Hb. do 8 (destruct st as [|? st]; [done|]). destruct st; [|done].
  unfold sha256_process, compress.
  pose proof (lines256_spec data (Regs z z0 z1 z2 z3 z4 z5 z6) 64 Hb (le_n _)) as HW.
  unfold to_list at 1 in HW. cbn [ra rb rc rd_ re rf rg rh] in HW. rewrite HW, place_64. done.
Qed.

Lemma compress256_length st data : length st = 8%nat -> length (compress st data) = 8%nat.
Proof.
  intros Hst. do 8 (destruct st as [|? st]; [done|]). destruct st; [|done]. done.
Qed.

(** C11: for every way to cut a message into pieces, starting, updating with each piece
    and finishing gives the message's SHA-256 digest as the standard defines it. *)
Theorem sha256_spec ctx pieces :
  length (buffer ctx) = 64%nat ->
  pieces_ok (2 ^ 32) pieces ->
  sha256_finish (fold_left sha256_update pieces (sha256_starts ctx)) = sha256 (concat pieces).
Proof.
  intros Hf Hp.
  pose proof (pieces_ok_bytes _ _ Hp) as Hb.
  assert (H : absorbs sha256_process sha256_state0
    (fold_left sha256_update pieces (sha256_starts ctx)) ([] ++ concat pieces)).
  { apply updates_absorb; [by apply starts_absorbs|]. by eapply List.Forall_impl; [|exact Hp]; intros p []. }
  cbn [app] in H. apply finish_spec in H as (_ & _ & _ & Hst & _).
  unfold sha256_finish, sha256. rewrite Hst.
  rewrite (absorb_ext sha256_process compress (fun st => length st = 8%nat)).
  - f_equal. apply map_ext. intros n. apply put_uint32_be_spec.
  - intros. by apply process256_spec.
  - intros. by apply compress256_length.
  - rewrite byte_list_app. split; [done|apply pad_bytes].
  - done.
Qed.

(** "abc" and the digest of FIPS 180-2. *)
Lemma sha256_spec_witness :
  let ctx := Context 7 7 [] (repeat 255 64) in
  sha256_finish (fold_left sha256_update [[97]; []; [98; 99]] (sha256_starts ctx)) =
    sha256 [97; 98; 99] /\
  sha256 [97; 98; 99] =
    [0xba; 0x78; 0x16; 0xbf; 0x8f; 0x01; 0xcf; 0xea; 0x41; 0x41; 0x40; 0xde; 0x5d; 0xae; 0x22; 0x23;
     0xb0; 0x03; 0x61; 0xa3; 0x96; 0x17; 0x7a; 0x9c; 0xb4; 0x10; 0xff; 0x61; 0xf2; 0x00; 0x15; 0xad].
Proof.
  intros ctx. split; [|by vm_compute]. apply (sha256_spec ctx [[97]; []; [98; 99]]); [done|].
  apply (bool_decide_unpack _). by vm_compute.
Defined.
