(* ===== verification/Md5.v ===== *)
(** MD5: [lib_generic/md5.c].

    The 64 lines of [MD5Transform] are the table [lines] and the macro [MD5STEP] on
    variables in roles that go round; the reference is that of RFC 1321.  The machine
    is little-endian: [byteReverse] gives the words of the buffer and leaves its bytes
    as they are. *)

From S2P Require Import Prelude Digest.

(** ** The code *)

Record MD5Context : Type := Ctx {
  buf : list Z;
  bits0 : Z;
  bits1 : Z;
  in_ : list Z }.

(** The word at byte [i], and the words of the buffer. *)
Definition reverse_word (b : list Z) (i : nat) : Z :=
  Z.lor (Z.shiftl (Z.lor (Z.shiftl (nth (i + 3) b 0) 8) (nth (i + 2) b 0)) 16)
    (Z.lor (Z.shiftl (nth (i + 1) b 0) 8) (nth i b 0)).
Definition byteReverse (b : list Z) (longs : nat) : list Z :=
  map (fun i => reverse_word b (4 * i)) (seq 0 longs).

Definition F1 (x y z : Z) : Z := Z.lxor z (Z.land x (Z.lxor y z)).
Definition F2 (x y z : Z) : Z := F1 z x y.
Definition F3 (x y z : Z) : Z := Z.lxor (Z.lxor x y) z.
Definition F4 (x y z : Z) : Z := Z.lxor y (Z.lor x (u32 (Z.lnot z))).

(** The function of line [t]: sixteen lines each. *)
Definition F (t : nat) : Z -> Z -> Z -> Z :=
  if Nat.ltb t 16 then F1 else if Nat.ltb t 32 then F2 else if Nat.ltb t 48 then F3 else F4.

(** The index into [in], the constant and the shift of each line. *)
Definition lines : list (nat * Z * Z) :=
  [(0%nat, 0xd76aa478, 7); (1%nat, 0xe8c7b756, 12); (2%nat, 0x242070db, 17); (3%nat, 0xc1bdceee, 22);
   (4%nat, 0xf57c0faf, 7); (5%nat, 0x4787c62a, 12); (6%nat, 0xa8304613, 17); (7%nat, 0xfd469501, 22);
   (8%nat, 0x698098d8, 7); (9%nat, 0x8b44f7af, 12); (10%nat, 0xffff5bb1, 17); (11%nat, 0x895cd7be, 22);
   (12%nat, 0x6b901122, 7); (13%nat, 0xfd987193, 12); (14%nat, 0xa679438e, 17); (15%nat, 0x49b40821, 22);
   (1%nat, 0xf61e2562, 5); (6%nat, 0xc040b340, 9); (11%nat, 0x265e5a51, 14); (0%nat, 0xe9b6c7aa, 20);
   (5%nat, 0xd62f105d, 5); (10%nat, 0x02441453, 9); (15%nat, 0xd8a1e681, 14); (4%nat, 0xe7d3fbc8, 20);
   (9%nat, 0x21e1cde6, 5); (14%nat, 0xc33707d6, 9); (3%nat, 0xf4d50d87, 14); (8%nat, 0x455a14ed, 20);
   (13%nat, 0xa9e3e905, 5); (2%nat, 0xfcefa3f8, 9); (7%nat, 0x676f02d9, 14); (12%nat, 0x8d2a4c8a, 20);
   (5%nat, 0xfffa3942, 4); (8%nat, 0x8771f681, 11); (11%nat, 0x6d9d6122, 16); (14%nat, 0xfde5380c, 23);
   (1%nat, 0xa4beea44, 4); (4%nat, 0x4bdecfa9, 11); (7%nat, 0xf6bb4b60, 16); (10%nat, 0xbebfbc70, 23);
   (13%nat, 0x289b7ec6, 4); (0%nat, 0xeaa127fa, 11); (3%nat, 0xd4ef3085, 16); (6%nat, 0x04881d05, 23);
   (9%nat, 0xd9d4d039, 4); (12%nat, 0xe6db99e5, 11); (15%nat, 0x1fa27cf8, 16); (2%nat, 0xc4ac5665, 23);
   (0%nat, 0xf4292244, 6); (7%nat, 0x432aff97, 10); (14%nat, 0xab9423a7, 15); (5%nat, 0xfc93a039, 21);
   (12%nat, 0x655b59c3, 6); (3%nat, 0x8f0ccc92, 10); (10%nat, 0xffeff47d, 15); (1%nat, 0x85845dd1, 21);
   (8%nat, 0x6fa87e4f, 6); (15%nat, 0xfe2ce6e0, 10); (6%nat, 0xa3014314, 15); (13%nat, 0x4e0811a1, 21);
   (4%nat, 0xf7537e82, 6); (11%nat, 0xbd3af235, 10); (2%nat, 0x2ad7d2bb, 15); (9%nat, 0xeb86d391, 21)].

(** The place among a, b, c, d of the [k]th of the four variables of line [t]:
    [(a, b, c, d)], [(d, a, b, c)], [(c, d, a, b)], ... *)
Definition role (t k : nat) : nat := ((k + 3 * t) mod 4)%nat.

Definition MD5STEP (t : nat) (data s : Z) (vars : list Z) : list Z :=
  let v k := nth (role t k) vars 0 in
  let w := u32 (v 0%nat + (F t (v 1%nat) (v 2%nat) (v 3%nat) + data)) in
  let w := u32 (Z.lor (Z.shiftl w s) (Z.shiftr w (32 - s))) in
  <[role t 0 := u32 (w + v 1%nat)]> vars.

Definition md5_line (inw : list Z) (vars : list Z) (t : nat) : list Z :=
  let '(k, c, s) := nth t lines (O, 0, 0) in
  MD5STEP t (u32 (nth k inw 0 + c)) s vars.

Definition MD5Transform (b : list Z) (inw : list Z) : list Z :=
  zip_with (fun s v => u32 (s + v)) b (fold_left (md5_line inw) (seq 0 64) b).

Definition md5_state0 : list Z := [0x67452301; 0xefcdab89; 0x98badcfe; 0x10325476].

Definition MD5Init (ctx : MD5Context) : MD5Context := Ctx md5_state0 0 0 (in_ ctx).

(** [memmove], [byteReverse] and [MD5Transform], while there are 64 bytes. *)
Fixpoint chunk_loop (fuel : nat) (b i : list Z) (input : list Z) : list Z * list Z * list Z :=
  match fuel with
  | O => (b, i, input)
  | S fuel =>
    if 64 <=? Z.of_nat (length input) then
      let i := patch i 0 (firstn 64 input) in
      chunk_loop fuel (MD5Transform b (byteReverse i 16)) i (skipn 64 input)
    else (b, i, input)
  end.

Definition MD5Update (ctx : MD5Context) (input : list Z) : MD5Context :=
  let len := Z.of_nat (length input) in
  let t := bits0 ctx in
  let b0 := u32 (t + u32 (Z.shiftl len 3)) in
  let b1 := if b0 <? t then u32 (bits1 ctx + 1) else bits1 ctx in
  let b1 := u32 (b1 + Z.shiftr len 29) in
  let t := Z.land (Z.shiftr t 3) 63 in
  let whole b i input :=
    let '(b, i, rest) := chunk_loop (length input) b i input in
    Ctx b b0 b1 (patch i 0 rest) in
  if t =? 0 then whole (buf ctx) (in_ ctx) input
  else if len <? 64 - t then Ctx (buf ctx) b0 b1 (patch (in_ ctx) (Z.to_nat t) input)
  else
    let n := Z.to_nat (64 - t) in
    let i := patch (in_ ctx) (Z.to_nat t) (firstn n input) in
    whole (MD5Transform (buf ctx) (byteReverse i 16)) i (skipn n input).

(** The digest: the words of [buf] in memory. *)
Definition MD5Final (ctx : MD5Context) : list Z :=
  let count := Z.land (Z.shiftr (bits0 ctx) 3) 63 in
  let i := patch (in_ ctx) (Z.to_nat count) [128] in
  let p := Z.to_nat (count + 1) in
  let count := 64 - 1 - count in
  let '(b, i) :=
    if count <? 8 then
      let i := patch i p (repeat 0 (Z.to_nat count)) in
      (MD5Transform (buf ctx) (byteReverse i 16), patch i 0 (repeat 0 56))
    else (buf ctx, patch i p (repeat 0 (Z.to_nat (count - 8)))) in
  concat (map bytes_le (MD5Transform b (byteReverse i 14 ++ [bits0 ctx; bits1 ctx]))).

Definition md5 (ctx : MD5Context) (input : list Z) : list Z :=
  MD5Final (MD5Update (MD5Init ctx) input).

(** With a watchdog; [None] only if the fuel runs out. *)
Definition md5_wd (ctx : MD5Context) (input : list Z) (chunk_sz : nat) : option (list Z) :=
  ctx ← wd_loop MD5Update (length input) (MD5Init ctx) input chunk_sz;
  Some (MD5Final ctx).

(** ** RFC 1321 *)

Definition f (t : nat) (x y z : Z) : Z :=
  if Nat.ltb t 16 then Z.lor (Z.land x y) (Z.land (Z.lnot x) z)
  else if Nat.ltb t 32 then Z.lor (Z.land x z) (Z.land y (Z.lnot z))
  else if Nat.ltb t 48 then Z.lxor (Z.lxor x y) z
  else Z.lxor y (Z.lor x (u32 (Z.lnot z))).

(** The word and the shift of step [t]. *)
Definition word_of (t : nat) : nat :=
  (if Nat.ltb t 16 then t
   else if Nat.ltb t 32 then (5 * t + 1) mod 16
   else if Nat.ltb t 48 then (3 * t + 5) mod 16
   else (7 * t) mod 16)%nat.
Definition shift_of (t : nat) : Z :=
  nth (4 * (t / 16) + t mod 4) [7; 12; 17; 22; 5; 9; 14; 20; 4; 11; 16; 23; 6; 10; 15; 21] 0.
Definition constant (t : nat) : Z := snd (fst (nth t lines (O, 0, 0))).

Record regs : Type := Regs { ra : Z; rb : Z; rc : Z; rd_ : Z }.

Definition step (x : list Z) (r : regs) (t : nat) : regs :=
  Regs (rd_ r)
    (u32 (rb r + rotl (shift_of t)
       (u32 (ra r + f t (rb r) (rc r) (rd_ r) + nth (word_of t) x 0 + constant t))))
    (rb r) (rc r).

Definition to_list (r : regs) : list Z := [ra r; rb r; rc r; rd_ r].

Definition compress_words (st x : list Z) : list Z :=
  match st with
  | [a; b; c; d] =>
    zip_with (fun s v => u32 (s + v)) st (to_list (fold_left (step x) (seq 0 64) (Regs a b c d)))
  | _ => st
  end.

Definition compress (st data : list Z) : list Z := compress_words st (words word_le data).

Definition pad_le (len : nat) : list Z :=
  128 :: repeat 0 (Z.to_nat ((55 - Z.of_nat len) mod 64)) ++
  bytes_le (Z.of_nat len * 8) ++ bytes_le (Z.of_nat len * 8 / 2 ^ 32).

Definition md5_digest (msg : list Z) : list Z :=
  concat (map bytes_le (absorb compress md5_state0 (msg ++ pad_le (length msg)))).

(** ** The unrolled block function is the RFC's *)

Lemma md5_F_f t x y z : F t x y z = f t x y z.
Proof.
  unfold F, f. repeat (destruct (Nat.ltb _ _)); try done; apply Z.bits_inj'; intros i Hi;
    unfold F2, F1; rewrite !Z.lxor_spec, !Z.land_spec, !Z.lor_spec, !Z.lxor_spec, !Z.land_spec,
      !Z.lnot_spec by done.
  all: by destruct (Z.testbit x i), (Z.testbit y i), (Z.testbit z i).
Qed.

(** The tables of the lines are the formulas of the RFC. *)
Lemma lines_table t :
  (t < 64)%nat -> nth t lines (O, 0, 0) = (word_of t, constant t, shift_of t) /\ 0 <= shift_of t <= 32.
Proof.
  intros Ht. do 64 (destruct t as [|t]; [split; [reflexivity|vm_compute; split; congruence]|]). lia.
Qed.

(** The variables hold the registers in the roles of line [t]. *)
Definition place (t : nat) (r : regs) : list Z :=
  map (fun p => nth ((p + t) mod 4) (to_list r) 0) (seq 0 4).

Lemma mod4_cases t : exists m, (m < 4)%nat /\
  (forall p, (p + t) mod 4 = (p + m) mod 4)%nat /\ (forall k, role t k = (k + 3 * m) mod 4)%nat.
Proof.
  exists (t mod 4)%nat. split; [by apply Nat.mod_upper_bound|]. split; intros k; unfold role.
  - by rewrite Nat.Div0.add_mod_idemp_r.
  - pose proof (Nat.div_mod_eq t 4) as E. set (m := (t mod 4)%nat) in *. rewrite E.
    replace (k + 3 * (4 * (t / 4) + m))%nat with (k + 3 * m + 3 * (t / 4) * 4)%nat by lia.
    apply Nat.Div0.mod_add.
Qed.

Lemma rot_u32 n x :
  0 <= n <= 32 -> u32 (Z.lor (Z.shiftl (u32 x) n) (Z.shiftr (u32 x) (32 - n))) = rotl n (u32 x).
Proof.
  intros Hn. rewrite <- (rotl_macro n (u32 x) Hn). rewrite (land_mask _ 32) by lia.
  fold (u32 (u32 x)). by rewrite u32_idem.
Qed.

Lemma line_step x t r :
  (t < 64)%nat -> md5_line x (place t r) t = place (S t) (step x r t).
Proof.
  intros Ht. unfold md5_line. destruct (lines_table t Ht) as [-> Hs].
  unfold MD5STEP, step, place. rewrite !rot_u32 by done.
  generalize (nth (word_of t) x 0), (constant t), (shift_of t). intros w c s.
  destruct (mod4_cases t) as (m & Hm & Hp & Hr). cbv zeta.
  rewrite (map_ext _ _ (fun p => f_equal (fun i => nth i (to_list r) 0) (Hp p))).
  rewrite (map_ext (fun p => nth ((p + S t) mod 4) _ 0) (fun p => nth ((S p + m) mod 4) (to_list _) 0))
    by (intros p; rewrite Nat.add_succ_r, <- Nat.add_succ_l, Hp; reflexivity).
  destruct r as [a b c' d]. cbn [ra rb rc rd_].
  assert (Hu : forall y, u32 (a + (y + u32 (w + c))) = u32 (a + y + w + c)).
  { intros y. rewrite Z.add_assoc, u32_add_r. f_equal. lia. }
  assert (Hv : forall y, u32 (rotl s y + b) = u32 (b + rotl s y)) by (intros; f_equal; lia).
  rewrite !Hr. do 4 (destruct m as [|m]; [cbn; rewrite md5_F_f, Hu, Hv; done|]). lia.
Qed.

Lemma md5_lines_spec x r n :
  (n <= 64)%nat ->
  fold_left (md5_line x) (seq 0 n) (to_list r) = place n (fold_left (step x) (seq 0 n) r).
Proof.
  intros Hn. induction n as [|n IH]; [by destruct r|].
  rewrite seq_S, !fold_left_app, IH by lia. cbn [fold_left Nat.add]. apply line_step. lia.
Qed.

Lemma transform_spec st x : length st = 4%nat -> MD5Transform st x = compress_words st x.
Proof.
  intros Hst. do 4 (destruct st as [|? st]; [done|]). destruct st; [|done].
  unfold MD5Transform, compress_words.
  pose proof (md5_lines_spec x (Regs z z0 z1 z2) 64 (le_n _)) as HW.
  unfold to_list at 1 in HW. cbn [ra rb rc rd_] in HW. rewrite HW.
  by destruct (fold_left (step x) (seq 0 64) _).
Qed.

Lemma md5_compress_length st data : length st = 4%nat -> length (compress st data) = 4%nat.
Proof.
  intros Hst. do 4 (destruct st as [|? st]; [done|]). destruct st; [|done]. done.
Qed.

Lemma reverse_word_spec b i : byte_list b -> reverse_word b i = word_le b i.
Proof.
  intros Hb. unfold reverse_word, word_le.
  pose proof (rd_byte b (Z.of_nat i) Hb) as H0. pose proof (rd_byte b (Z.of_nat (i + 1)) Hb) as H1.
  pose proof (rd_byte b (Z.of_nat (i + 2)) Hb) as H2. pose proof (rd_byte b (Z.of_nat (i + 3)) Hb) as H3.
  unfold rd, is_byte in *. rewrite !Nat2Z.id in *. rewrite !Z.shiftl_mul_pow2 by lia.
  rewrite (lor_add (nth (i + 3) b 0 * 2 ^ 8) _ 8), (lor_add (nth (i + 1) b 0 * 2 ^ 8) _ 8)
    by (try lia; Z.to_euclidean_division_equations; lia).
  rewrite (lor_add _ _ 16); try lia; Z.to_euclidean_division_equations; lia.
Qed.

Lemma byteReverse_spec b n :
  byte_list b -> byteReverse b n = map (fun i => word_le b (4 * i)) (seq 0 n).
Proof. intros Hb. apply map_ext. intros i. by apply reverse_word_spec. Qed.

(** One block, as it lies in the buffer. *)
Lemma block_spec st b :
  length st = 4%nat -> byte_list b -> MD5Transform st (byteReverse b 16) = compress st b.
Proof. intros Hst Hb. by rewrite transform_spec, byteReverse_spec. Qed.

(** ** Update *)

(** The block function on the bytes of the buffer. *)
Definition process (st b : list Z) : list Z := MD5Transform st (byteReverse b 16).

(** The context stands for a message: the count is that of its bits. *)
Definition holds_msg (ctx : MD5Context) (msg : list Z) : Prop :=
  bits0 ctx + 2 ^ 32 * bits1 ctx = (Z.of_nat (length msg) * 8) mod 2 ^ 64 /\
  0 <= bits0 ctx < 2 ^ 32 /\ 0 <= bits1 ctx < 2 ^ 32 /\
  buf ctx = absorb process md5_state0 msg /\
  length (in_ ctx) = 64%nat /\ firstn (length (tail msg)) (in_ ctx) = tail msg.

Lemma holds_absorbs ctx msg :
  holds_msg ctx msg ->
  absorbs process md5_state0
    (Context (Z.of_nat (length msg) mod 2 ^ 32) (Z.of_nat (length msg) / 2 ^ 32 mod 2 ^ 32)
       (buf ctx) (in_ ctx)) msg.
Proof.
  intros (_ & _ & _ & Hb & Hl & Ht). unfold absorbs. cbn [total0 total1 state buffer].
  split; [Z.to_euclidean_division_equations; lia|]. split; [apply Z.mod_pos_bound; lia|].
  split; [apply Z.mod_pos_bound; lia|]. done.
Qed.

Lemma count_spec ctx msg :
  holds_msg ctx msg -> Z.land (Z.shiftr (bits0 ctx) 3) 63 = Z.of_nat (length (tail msg)).
Proof.
  intros (Hbits & _). rewrite (land_mask _ 6), Z.shiftr_div_pow2, tail_length by lia.
  rewrite Nat2Z.inj_mod. change (Z.of_nat 64) with (2 ^ 6).
  assert (E : bits0 ctx = (Z.of_nat (length msg) * 8) mod 2 ^ 64 - 2 ^ 32 * bits1 ctx) by lia.
  rewrite E. clear. set (n := Z.of_nat (length msg)). clearbody n. set (b := bits1 ctx). clearbody b.
  assert (exists q, (n * 8) mod 2 ^ 64 = n * 8 - q * 2 ^ 64) as [q ->].
  { exists (n * 8 / 2 ^ 64). pose proof (Z.div_mod (n * 8) (2 ^ 64)). lia. }
  replace (n * 8 - q * 2 ^ 64 - 2 ^ 32 * b) with ((n - q * 2 ^ 61 - 2 ^ 29 * b) * 2 ^ 3) by lia.
  rewrite Z.div_mul by lia.
  replace (n - q * 2 ^ 61 - 2 ^ 29 * b) with (n + (- q * 2 ^ 55 - 2 ^ 23 * b) * 2 ^ 6) by lia.
  apply Z_mod_plus_full.
Qed.

Lemma bits_step b0 b1 n len :
  b0 + 2 ^ 32 * b1 = (n * 8) mod 2 ^ 64 -> 0 <= b0 < 2 ^ 32 -> 0 <= b1 < 2 ^ 32 -> 0 <= len < 2 ^ 32 ->
  let b0' := u32 (b0 + u32 (Z.shiftl len 3)) in
  let b1' := u32 ((if b0' <? b0 then u32 (b1 + 1) else b1) + Z.shiftr len 29) in
  b0' + 2 ^ 32 * b1' = ((n + len) * 8) mod 2 ^ 64 /\ 0 <= b0' < 2 ^ 32 /\ 0 <= b1' < 2 ^ 32.
Proof.
  intros Hb H0 H1 Hl. rewrite Z.shiftl_mul_pow2, Z.shiftr_div_pow2 by lia.
  assert (Hl8 : len * 8 = u32 (len * 2 ^ 3) + 2 ^ 32 * (len / 2 ^ 29)).
  { unfold u32. Z.to_euclidean_division_equations. lia. }
  pose proof (u32_range (len * 2 ^ 3)) as Hlo. set (lo := u32 (len * 2 ^ 3)) in *.
  set (hi := len / 2 ^ 29) in *. clearbody lo hi. cbv zeta.
  assert (Hc : exists c, b0 + lo = u32 (b0 + lo) + 2 ^ 32 * c /\
    u32 ((if u32 (b0 + lo) <? b0 then u32 (b1 + 1) else b1) + hi) = u32 (b1 + c + hi)).
  { unfold u32. destruct (Z.ltb_spec ((b0 + lo) mod 2 ^ 32) b0).
    - exists 1. rewrite Zplus_mod_idemp_l. split; [|done]. Z.to_euclidean_division_equations. lia.
    - exists 0. rewrite (Z.add_0_r b1). split; [|done]. Z.to_euclidean_division_equations. lia. }
  destruct Hc as (c & Hc & ->). pose proof (u32_range (b0 + lo)) as Hr.
  split; [|split; [done|apply u32_range]]. set (x := u32 (b0 + lo)) in *. clearbody x.
  replace ((n + len) * 8) with (n * 8 + (lo + 2 ^ 32 * hi)) by lia.
  rewrite <- Zplus_mod_idemp_l, <- Hb.
  replace (b0 + 2 ^ 32 * b1 + (lo + 2 ^ 32 * hi)) with (x + 2 ^ 32 * (b1 + c + hi)) by lia.
  unfold u32. set (y := b1 + c + hi). clearbody y. clear - Hr. Z.to_euclidean_division_equations. lia.
Qed.

Lemma chunk_loop_spec fuel b i input :
  (nblocks input <= fuel)%nat -> length i = 64%nat ->
  exists i', chunk_loop fuel b i input = (absorb process b input, i', tail input) /\
    length i' = 64%nat.
Proof.
  revert b i fuel. induction input as [input Hs|blk input Hb IH] using msg_ind; intros b i fuel Hf Hi.
  - exists i. unfold absorb. destruct (blocks_short input Hs) as [-> ->].
    destruct fuel; cbn [chunk_loop]; [done|]. by rewrite (proj2 (Z.leb_gt _ _)) by lia.
  - rewrite nblocks_app in Hf by done. destruct fuel as [|fuel]; [lia|]. cbn [chunk_loop].
    rewrite length_app, Hb, (proj2 (Z.leb_le _ _)) by lia.
    rewrite (take_app_length' blk input 64), (drop_app_length' blk input 64) by done.
    assert (Hp : patch i 0 blk = blk).
    { unfold patch. cbn [firstn app Nat.add]. rewrite skipn_all2 by lia. apply app_nil_r. }
    rewrite Hp. destruct (IH (process b blk) blk fuel) as (i' & Hc & Hl); [lia|done|].
    exists i'. split; [|done]. unfold process at 1 in Hc. rewrite Hc.
    unfold absorb. rewrite blocks_app, tail_app by done. done.
Qed.

Lemma update_holds ctx msg input :
  holds_msg ctx msg -> Z.of_nat (length input) < 2 ^ 32 ->
  holds_msg (MD5Update ctx input) (msg ++ input).
Proof.
  intros H Hlen. pose proof (update_state process md5_state0 _ msg input (holds_absorbs ctx msg H)) as Hu.
  cbv zeta in Hu. cbn [state buffer] in Hu. pose proof (count_spec ctx msg H) as Hc.
  destruct H as (Hbits & Hb0 & Hb1 & _).
  pose proof (bits_step _ _ _ (Z.of_nat (length input)) Hbits Hb0 Hb1 ltac:(lia)) as Hstep. cbv zeta in Hstep.
  rewrite <- Nat2Z.inj_add, <- length_app in Hstep.
  unfold MD5Update. rewrite Hc. set (b0 := u32 (bits0 ctx + _)) in *.
  set (b1 := u32 (_ + Z.shiftr _ 29)) in *. clearbody b0 b1.
  pose proof (tail_short msg) as Hts.
  assert (Hwhole : forall st i input', length i = 64%nat ->
    absorb process st input' = absorb process md5_state0 (msg ++ input) ->
    tail input' = tail (msg ++ input) ->
    holds_msg (let '(b, i, rest) := chunk_loop (length input') st i input' in
               Ctx b b0 b1 (patch i 0 rest)) (msg ++ input)).
  { intros st i input' Hi Ha Ht.
    destruct (chunk_loop_spec (length input') st i input') as (i' & -> & Hi');
      [unfold nblocks; apply Nat.Div0.div_le_upper_bound; lia|done|].
    unfold holds_msg. cbn [bits0 bits1 buf in_]. rewrite <- Ht.
    pose proof (tail_short input') as Hs.
    destruct (buffer_patch i' [] (tail input') Hi' eq_refl Hs) as [Hp1 Hp2].
    split; [apply Hstep|]. split; [apply Hstep|]. split; [apply Hstep|]. split; [exact Ha|]. by split. }
  destruct (Z.eqb_spec (Z.of_nat (length (tail msg))) 0) as [E|E].
  - cbn [negb andb] in Hu. destruct Hu as (t' & Ht' & Hi & _ & _ & Ha & Ht).
    assert (t' = []) as -> by (apply nil_length_inv; lia). by apply Hwhole.
  - cbn [negb andb] in Hu. rewrite Z.ltb_antisym.
    destruct (Z.leb_spec (64 - Z.of_nat (length (tail msg))) (Z.of_nat (length input))) as [Hf|Hf];
      cbn [negb].
    + rewrite Nat2Z.id.
      replace (Z.to_nat (64 - Z.of_nat (length (tail msg)))) with (64 - length (tail msg))%nat by lia.
      destruct Hu as (t' & Ht' & Hi & _ & _ & Ha & Ht).
      assert (t' = []) as -> by (apply nil_length_inv; lia). by apply Hwhole.
    + destruct Hu as (t' & Ht' & Hi & Hfi & Hcase & Ha & Ht).
      destruct Hcase as [->|Hs]; [simpl in Ht'; lia|].
      unfold absorb at 1 in Ha. destruct (blocks_short _ Hs) as [Hbl Htl]. rewrite Hbl in Ha.
      rewrite Htl in Ht. rewrite length_app in Hs.
      destruct (buffer_patch _ t' input Hi Hfi Hs) as [Hp1 Hp2].
      unfold holds_msg. cbn [bits0 bits1 buf in_ fold_left] in *. rewrite Ht', Nat2Z.id, <- Ht.
      split; [apply Hstep|]. split; [apply Hstep|]. split; [apply Hstep|]. split; [exact Ha|]. by split.
Qed.

(** ** Final *)

Lemma byteReverse_prefix i n : byteReverse i n = byteReverse (firstn (4 * n) i) n.
Proof.
  apply map_ext_in. intros k Hk%in_seq. unfold reverse_word. rewrite !nth_firstn.
  by rewrite !(proj2 (Nat.ltb_lt _ _)) by lia.
Qed.

Lemma word_le_bytes x : 0 <= x < 2 ^ 32 -> word_le (bytes_le x) 0 = x.
Proof.
  intros Hx. unfold word_le, bytes_le, bytes_be. cbn [rev app nth Nat.add].
  Z.to_euclidean_division_equations. lia.
Qed.

Lemma word_le_app a b i : word_le (a ++ b) (length a + i) = word_le b i.
Proof.
  unfold word_le. rewrite !app_nth2 by lia.
  by replace (length a + i - length a)%nat with i by lia;
    replace (length a + i + 1 - length a)%nat with (i + 1)%nat by lia;
    replace (length a + i + 2 - length a)%nat with (i + 2)%nat by lia;
    replace (length a + i + 3 - length a)%nat with (i + 3)%nat by lia.
Qed.

Lemma word_le_app_l a b i : (i + 4 <= length a)%nat -> word_le (a ++ b) i = word_le a i.
Proof. intros H. unfold word_le. by rewrite !app_nth1 by lia. Qed.

(** The last block: 56 bytes and the two words of the count. *)
Lemma last_block_spec st i x y :
  length st = 4%nat -> (56 <= length i)%nat -> byte_list (firstn 56 i) ->
  0 <= x < 2 ^ 32 -> 0 <= y < 2 ^ 32 ->
  MD5Transform st (byteReverse i 14 ++ [x; y]) =
  compress st (firstn 56 i ++ bytes_le x ++ bytes_le y).
Proof.
  intros Hst Hi Hb Hx Hy. rewrite transform_spec by done. unfold compress. f_equal.
  rewrite byteReverse_prefix. change (4 * 14)%nat with 56%nat. set (b := firstn 56 i) in *.
  assert (Hlen : length b = 56%nat) by (unfold b; rewrite length_firstn; lia). clearbody b.
  rewrite byteReverse_spec by done. unfold words. change 16%nat with (14 + 2)%nat.
  rewrite seq_app, map_app. f_equal.
  - apply map_ext_in. intros k Hk%in_seq. rewrite word_le_app_l by lia. done.
  - cbn [seq map Nat.add Nat.mul].
    change 56%nat with (56 + 0)%nat at 1. change 60%nat with (56 + (length (bytes_le x) + 0))%nat.
    rewrite <- Hlen, !word_le_app, word_le_app_l by (cbn; lia).
    by rewrite (word_le_bytes x), (word_le_bytes y).
Qed.

Lemma bytes_le_mod n : bytes_le (n mod 2 ^ 32) = bytes_le n.
Proof. unfold bytes_le. by rewrite bytes_be_mod. Qed.

Lemma zero_bytes n : byte_list (repeat 0 n).
Proof. apply List.Forall_forall. intros x Hx%repeat_spec. subst x. unfold is_byte. lia. Qed.

Lemma repeat_app_eq {A} (x : A) m n k : (k = m + n)%nat -> repeat x k = repeat x m ++ repeat x n.
Proof. intros ->. apply repeat_app. Qed.

#[local] Opaque compress.

Lemma absorb_one st b : length b = 64%nat -> absorb compress st b = compress st b.
Proof.
  intros Hb. rewrite <- (app_nil_r b) at 1. unfold absorb. rewrite (blocks_app b []) by exact Hb.
  reflexivity.
Qed.

Lemma absorb_cons st b m :
  length b = 64%nat -> absorb compress st (b ++ m) = absorb compress (compress st b) m.
Proof. intros Hb. unfold absorb. rewrite (blocks_app b m) by exact Hb. reflexivity. Qed.

(** The padding when the count fits into the block begun: [t1] is the rest of the
    message and the one bit. *)
Lemma pad_one st i t1 x y :
  length st = 4%nat -> length i = 64%nat -> firstn (length t1) i = t1 -> byte_list t1 ->
  (length t1 <= 56)%nat -> 0 <= x < 2 ^ 32 -> 0 <= y < 2 ^ 32 ->
  let z := repeat 0 (56 - length t1) in
  MD5Transform st (byteReverse (patch i (length t1) z) 14 ++ [x; y]) =
  absorb compress st (t1 ++ z ++ bytes_le x ++ bytes_le y).
Proof.
  intros Hst Hi Hf Hb Hle Hx Hy z.
  assert (Hz : (length t1 + length z = 56)%nat) by (unfold z; rewrite repeat_length; lia).
  assert (Hf56 : firstn 56 (patch i (length t1) z) = t1 ++ z).
  { rewrite <- Hz, patch_firstn, Hf by lia. reflexivity. }
  assert (Hbz : byte_list (t1 ++ z)) by (rewrite byte_list_app; split; [done|apply zero_bytes]).
  rewrite last_block_spec, Hf56; [|done|rewrite patch_length; lia|by rewrite Hf56|done|done].
  rewrite (app_assoc t1), absorb_one; [reflexivity|]. rewrite !length_app. cbn. lia.
Qed.

(** And when it does not. *)
Lemma pad_two st i t1 x y :
  length st = 4%nat -> length i = 64%nat -> firstn (length t1) i = t1 -> byte_list t1 ->
  (length t1 <= 64)%nat -> 0 <= x < 2 ^ 32 -> 0 <= y < 2 ^ 32 ->
  let i' := patch i (length t1) (repeat 0 (64 - length t1)) in
  MD5Transform (MD5Transform st (byteReverse i' 16))
    (byteReverse (patch i' 0 (repeat 0 56)) 14 ++ [x; y]) =
  absorb compress st (t1 ++ repeat 0 (64 - length t1 + 56) ++ bytes_le x ++ bytes_le y).
Proof.
  intros Hst Hi Hf Hb Hle Hx Hy i'. rewrite repeat_app. set (z := repeat 0 (64 - length t1)) in *.
  assert (Hz : (length t1 + length z = 64)%nat) by (unfold z; rewrite repeat_length; lia).
  assert (Hi' : i' = t1 ++ z).
  { unfold i', patch. rewrite Hf, skipn_all2 by lia. by rewrite app_nil_r. }
  assert (Hlen : length (t1 ++ z) = 64%nat) by (rewrite length_app; lia).
  assert (Hbz : byte_list (t1 ++ z)) by (rewrite byte_list_app; split; [done|apply zero_bytes]).
  rewrite Hi', block_spec by done.
  rewrite <- (app_assoc z), app_assoc, (absorb_cons st (t1 ++ z)) by exact Hlen.
  apply (pad_one (compress st (t1 ++ z)) (t1 ++ z) []); try done.
  - by apply md5_compress_length.
  - apply List.Forall_nil.
  - simpl. lia.
Qed.

(** The padding goes on from what the buffer holds. *)
Lemma pad_le_spec ctx msg :
  holds_msg ctx msg ->
  pad_le (length msg) =
    [128] ++ repeat 0 (Z.to_nat ((55 - Z.of_nat (length (tail msg))) mod 64)) ++
    bytes_le (bits0 ctx) ++ bytes_le (bits1 ctx).
Proof.
  intros (Hbits & Hb0 & Hb1 & _). unfold pad_le. cbn [app].
  assert (E0 : bits0 ctx = (Z.of_nat (length msg) * 8) mod 2 ^ 32).
  { Z.to_euclidean_division_equations. lia. }
  assert (E1 : bits1 ctx = (Z.of_nat (length msg) * 8 / 2 ^ 32) mod 2 ^ 32).
  { Z.to_euclidean_division_equations. lia. }
  rewrite E0, E1, !bytes_le_mod, tail_length, Nat2Z.inj_mod. change (Z.of_nat 64) with 64.
  by rewrite Zminus_mod_idemp_r.
Qed.

Lemma MD5Final_spec ctx msg :
  holds_msg ctx msg -> byte_list msg -> length (buf ctx) = 4%nat ->
  MD5Final ctx =
    concat (map bytes_le (absorb compress (buf ctx) (tail msg ++ pad_le (length msg)))).
Proof.
  intros H Hb Hbuf. unfold MD5Final. rewrite (count_spec ctx msg H), (pad_le_spec ctx msg H).
  destruct H as (_ & Hb0 & Hb1 & _ & Hlen & Hin). pose proof (tail_short msg) as Hs.
  assert (Htb : byte_list (tail msg)).
  { unfold tail. rewrite <- (firstn_skipn (64 * nblocks msg) msg), byte_list_app in Hb. apply Hb. }
  set (t := tail msg) in *. clearbody t. rewrite Nat2Z.id, app_assoc.
  assert (Ht1 : byte_list (t ++ [128])).
  { rewrite byte_list_app. split; [done|]. apply List.Forall_cons; [unfold is_byte; lia|apply List.Forall_nil]. }
  replace (Z.to_nat (Z.of_nat (length t) + 1)) with (length (t ++ [128%Z]))
    by (rewrite length_app; simpl; lia).
  assert (Hlt : length (t ++ [128]) = S (length t)) by (rewrite length_app; simpl; lia).
  pose proof (patch_firstn (in_ ctx) (length t) [128] ltac:(simpl; lia)) as H2.
  rewrite Hin, <- length_app in H2.
  pose proof (patch_length (in_ ctx) (length t) [128] ltac:(simpl; lia)) as H1. rewrite Hlen in H1.
  set (i := patch (in_ ctx) (length t) [128]) in *. set (t1 := t ++ [128]) in *. clearbody i t1.
  do 2 f_equal. destruct (Z.ltb_spec (64 - 1 - Z.of_nat (length t)) 8) as [Hbig|Hsmall].
  - replace (Z.to_nat (64 - 1 - Z.of_nat (length t))) with (64 - length t1)%nat by lia.
    rewrite (pad_two (buf ctx) i t1) by (done || lia).
    replace (Z.to_nat ((55 - Z.of_nat (length t)) mod 64)) with (64 - length t1 + 56)%nat
      by (Z.to_euclidean_division_equations; lia). reflexivity.
  - replace (Z.to_nat (64 - 1 - Z.of_nat (length t) - 8)) with (56 - length t1)%nat by lia.
    rewrite (pad_one (buf ctx) i t1) by (done || lia).
    replace (Z.to_nat ((55 - Z.of_nat (length t)) mod 64)) with (56 - length t1)%nat
      by (Z.to_euclidean_division_equations; lia). reflexivity.
Qed.

(** ** The digest of a message *)

Lemma updates_holds ctx msg pieces :
  holds_msg ctx msg -> pieces_ok (2 ^ 32) pieces ->
  holds_msg (fold_left MD5Update pieces ctx) (msg ++ concat pieces).
Proof.
  intros H Hp. revert ctx msg H. induction Hp as [|p pieces [_ Hp] Hps IH]; intros ctx msg H.
  - by rewrite app_nil_r.
  - cbn [fold_left concat]. rewrite app_assoc. apply IH. by apply update_holds.
Qed.

Lemma final_digest ctx msg :
  holds_msg ctx msg -> byte_list msg -> MD5Final ctx = md5_digest msg.
Proof.
  intros H Hb. pose proof H as (_ & _ & _ & Hst & _).
  rewrite (absorb_ext process compress (fun st => length st = 4%nat)) in Hst; try done.
  2: { intros st b H1 H2. exact (block_spec st b H1 H2). }
  2: { intros. by apply md5_compress_length. }
  rewrite (MD5Final_spec ctx msg H Hb).
  - unfold md5_digest. rewrite Hst, <- absorb_app. reflexivity.
  - rewrite Hst. unfold absorb.
    assert (Hl : forall bs st, length st = 4%nat -> length (fold_left compress bs st) = 4%nat).
    { induction bs as [|b bs IH]; intros st Hl; [done|]. cbn [fold_left]. by apply IH, md5_compress_length. }
    by apply Hl.
Qed.

Lemma updates_md5 ctx pieces :
  length (in_ ctx) = 64%nat -> pieces_ok (2 ^ 32) pieces ->
  MD5Final (fold_left MD5Update pieces (MD5Init ctx)) = md5_digest (concat pieces).
Proof.
  intros Hi Hp. apply final_digest.
  - apply (updates_holds (MD5Init ctx) []); [|done]. unfold holds_msg. cbn.
    split_and!; (done || lia).
  - by apply (pieces_ok_bytes (2 ^ 32)).
Qed.

(** [md5], and [md5_wd] for chunks of any positive size, give the MD5 digest of the
    whole input as RFC 1321 defines it. *)
Theorem md5_spec ctx input chunk_sz :
  length (in_ ctx) = 64%nat -> byte_list input -> Z.of_nat (length input) < 2 ^ 31 ->
  (0 < chunk_sz)%nat ->
  md5 ctx input = md5_digest input /\ md5_wd ctx input chunk_sz = Some (md5_digest input).
Proof.
  intros Hi Hb Hlen Hc. split.
  - rewrite <- (app_nil_r input) at 2. apply (updates_md5 ctx [input] Hi).
    apply List.Forall_cons; [split; [done|lia]|apply List.Forall_nil].
  - unfold md5_wd.
    destruct (wd_loop_spec MD5Update (2 ^ 32) (length input) (MD5Init ctx) input chunk_sz Hc (le_n _) Hb ltac:(lia))
      as (pieces & Hp & <- & ->). cbn. f_equal. by apply updates_md5.
Qed.

(** "abc" and the digest of RFC 1321. *)
Lemma md5_spec_witness :
  let ctx := Ctx [] 5 5 (repeat 255 64) in
  md5_wd ctx [97; 98; 99] 2 = Some (md5_digest [97; 98; 99]) /\
  md5_digest [97; 98; 99] =
    [0x90; 0x01; 0x50; 0x98; 0x3c; 0xd2; 0x4f; 0xb0; 0xd6; 0x96; 0x3f; 0x7d; 0x28; 0xe1; 0x7f; 0x72].
Proof.
  intros ctx. split; [|by vm_compute].
  apply (md5_spec ctx [97; 98; 99] 2); [done| |done|lia]. apply (bool_decide_unpack _). by vm_compute.
Defined.
