(* ===== verification/CString.v ===== *)
(** Character classes and C strings, [lib_generic/ctype.c],
    [include/linux/ctype.h] and [lib_generic/string.c].

    A string lives in the byte memory and ends at its first NUL ([cstr]).  A
    loop that stops at a NUL takes fuel and gives [None] when it runs out; the
    theorems give the fuel that is enough (the length of the string and one).  A
    null pointer is [None] in the pointers that may be null.  Machine words are
    [W] bytes wide ([W] is [sizeof(unsigned long)]). *)

From S2P Require Import Prelude.

(** ** Character classes *)

Definition _U : Z := 0x01.
Definition _L : Z := 0x02.
Definition _D : Z := 0x04.
Definition _C : Z := 0x08.
Definition _P : Z := 0x10.
Definition _S : Z := 0x20.
Definition _X : Z := 0x40.
Definition _SP : Z := 0x80.

Definition _ctype : list Z :=
  let SC := Z.lor _S _C in let UX := Z.lor _U _X in let LX := Z.lor _L _X in
  repeat _C 8 ++ [_C; SC; SC; SC; SC; SC; _C; _C] ++ repeat _C 16 ++
  [Z.lor _S _SP] ++ repeat _P 15 ++ repeat _D 10 ++ repeat _P 6 ++
  [_P] ++ repeat UX 6 ++ repeat _U 20 ++ repeat _P 5 ++
  [_P] ++ repeat LX 6 ++ repeat _L 20 ++ repeat _P 4 ++ [_C] ++
  repeat 0 32 ++
  [Z.lor _S _SP] ++ repeat _P 31 ++
  repeat _U 23 ++ [_P] ++ repeat _U 7 ++ [_L] ++
  repeat _L 23 ++ [_P] ++ repeat _L 8.

Definition __ismask (x : Z) : Z := rd _ctype (u8 x).

Definition isalnum (c : Z) : bool := negb (Z.land (__ismask c) (Z.lor (Z.lor _U _L) _D) =? 0).
Definition isdigit (c : Z) : bool := negb (Z.land (__ismask c) _D =? 0).
Definition islower (c : Z) : bool := negb (Z.land (__ismask c) _L =? 0).
Definition isupper (c : Z) : bool := negb (Z.land (__ismask c) _U =? 0).
Definition isspace (c : Z) : bool := negb (Z.land (__ismask c) _S =? 0).
Definition isprint (c : Z) : bool :=
  negb (Z.land (__ismask c) (Z.lor (Z.lor (Z.lor (Z.lor _P _U) _L) _D) _SP) =? 0).
Definition isxdigit (c : Z) : bool := negb (Z.land (__ismask c) (Z.lor _D _X) =? 0).

(** [c -= 'A' - 'a'] and [c -= 'a' - 'A'] *)
Definition tolower (c : Z) : Z := if isupper c then u8 (c - (65 - 97)) else c.
Definition toupper (c : Z) : Z := if islower c then u8 (c - (97 - 65)) else c.

(** ** Copying and filling *)

Fixpoint bcopy_loop (m : mem) (src tmp : Z) (count : nat) : mem :=
  match count with
  | O => m
  | S count => bcopy_loop (m.[tmp <- m src]) (src + 1) (tmp + 1) count
  end.

Definition bcopy (m : mem) (src dest count : Z) : mem := bcopy_loop m src dest (Z.to_nat count).

Fixpoint copy_down (m : mem) (s tmp : Z) (count : nat) : mem :=
  match count with
  | O => m
  | S count => copy_down (m.[tmp - 1 <- m (s - 1)]) (s - 1) (tmp - 1) count
  end.

Definition memmove (m : mem) (dest src count : Z) : mem :=
  if dest <=? src then bcopy_loop m src dest (Z.to_nat count)
  else copy_down m (src + count) (dest + count) (Z.to_nat count).

Section Words.
(** [sizeof(unsigned long)] *)
Variable W : nat.

(** The word loop: [n] words of [W] bytes each, loaded whole and then stored. *)
Fixpoint copy_words (m : mem) (sl dl : Z) (n : nat) : mem :=
  match n with
  | O => m
  | S n => copy_words (store_list m dl (mem_list m sl W)) (sl + Z.of_nat W) (dl + Z.of_nat W) n
  end.

Definition memcpy (m : mem) (dest src count : Z) : mem :=
  let w := Z.of_nat W in
  let words := if Z.land (Z.lor dest src) (w - 1) =? 0 then count / w else 0 in
  let m := copy_words m src dest (Z.to_nat words) in
  bcopy_loop m (src + w * words) (dest + w * words) (Z.to_nat (count - w * words)).

(** The fill word: [W] times [cl <<= 8; cl |= c & 0xff]. *)
Definition memset_word (c : Z) : Z :=
  Nat.iter W (fun cl => Z.lor (Z.shiftl cl 8 mod 2 ^ (8 * Z.of_nat W)) (Z.land c 0xff)) 0.

(** The bytes of a word in memory, lowest first on a little-endian machine. *)
Fixpoint word_bytes (n : nat) (v : Z) : list Z :=
  match n with O => [] | S n => u8 v :: word_bytes n (Z.shiftr v 8) end.

Fixpoint fill_words (m : mem) (sl cl : Z) (n : nat) : mem :=
  match n with
  | O => m
  | S n => fill_words (store_list m sl (word_bytes W cl)) (sl + Z.of_nat W) cl n
  end.

Fixpoint fill_bytes (m : mem) (s8 c : Z) (n : nat) : mem :=
  match n with
  | O => m
  | S n => fill_bytes (m.[s8 <- u8 c]) (s8 + 1) c n
  end.

Definition memset (m : mem) (s c count : Z) : mem :=
  let w := Z.of_nat W in
  let words := if Z.land s (w - 1) =? 0 then count / w else 0 in
  let m := fill_words m s (memset_word c) (Z.to_nat words) in
  fill_bytes m (s + w * words) c (Z.to_nat (count - w * words)).
End Words.

(** ** Comparing *)

Fixpoint memcmp_loop (m : mem) (su1 su2 : Z) (count : nat) (res : Z) : Z :=
  match count with
  | O => res
  | S count =>
    let res := m su1 - m su2 in
    if negb (res =? 0) then res else memcmp_loop m (su1 + 1) (su2 + 1) count res
  end.

Definition memcmp (m : mem) (cs ct count : Z) : Z := memcmp_loop m cs ct (Z.to_nat count) 0.

(** The result goes through a [signed char]. *)
Fixpoint strcmp (fuel : nat) (m : mem) (cs ct : Z) : option Z :=
  match fuel with
  | O => None
  | S fuel =>
    let res := s8 (m cs - m ct) in
    if negb (res =? 0) || (m cs =? 0) then Some res else strcmp fuel m (cs + 1) (ct + 1)
  end.

Fixpoint strncmp_loop (m : mem) (cs ct : Z) (count : nat) (res : Z) : Z :=
  match count with
  | O => res
  | S count =>
    let res := s8 (m cs - m ct) in
    if negb (res =? 0) || (m cs =? 0) then res
    else strncmp_loop m (cs + 1) (ct + 1) count res
  end.

Definition strncmp (m : mem) (cs ct count : Z) : Z := strncmp_loop m cs ct (Z.to_nat count) 0.

Fixpoint strnicmp_loop (m : mem) (s1 s2 : Z) (len : nat) (c1 c2 : Z) : Z * Z :=
  match len with
  | O => (c1, c2)
  | S len =>
    let c1 := m s1 in let c2 := m s2 in
    if c1 =? 0 then (c1, c2)
    else if c2 =? 0 then (c1, c2)
    else if c1 =? c2 then strnicmp_loop m (s1 + 1) (s2 + 1) len c1 c2
    else
      let c1 := tolower c1 in let c2 := tolower c2 in
      if negb (c1 =? c2) then (c1, c2)
      else strnicmp_loop m (s1 + 1) (s2 + 1) len c1 c2
  end.

Definition strnicmp (m : mem) (s1 s2 len : Z) : Z :=
  let '(c1, c2) := strnicmp_loop m s1 s2 (Z.to_nat len) 0 0 in c1 - c2.

(** ** Searching *)

Fixpoint strlen_from (fuel : nat) (m : mem) (s sc : Z) : option Z :=
  match fuel with
  | O => None
  | S fuel => if m sc =? 0 then Some (sc - s) else strlen_from fuel m s (sc + 1)
  end.

Definition strlen (fuel : nat) (m : mem) (s : Z) : option Z := strlen_from fuel m s s.

Fixpoint strnlen_from (m : mem) (s sc : Z) (count : nat) : Z :=
  match count with
  | O => sc - s
  | S count => if m sc =? 0 then sc - s else strnlen_from m s (sc + 1) count
  end.

Definition strnlen (m : mem) (s count : Z) : Z := strnlen_from m s s (Z.to_nat count).

Fixpoint strchr (fuel : nat) (m : mem) (s c : Z) : option (option Z) :=
  match fuel with
  | O => None
  | S fuel =>
    if m s =? u8 c then Some (Some s)
    else if m s =? 0 then Some None
    else strchr fuel m (s + 1) c
  end.

(** Positions [s + n] down to [s]. *)
Fixpoint strrchr_loop (m : mem) (s c : Z) (n : nat) : option Z :=
  if m (s + Z.of_nat n) =? u8 c then Some (s + Z.of_nat n)
  else match n with O => None | S n => strrchr_loop m s c n end.

Definition strrchr (fuel : nat) (m : mem) (s c : Z) : option (option Z) :=
  n ← strlen fuel m s; Some (strrchr_loop m s c (Z.to_nat n)).

(** The inner loop of [strspn] and [strpbrk]: is [ch] one of the characters at [a]? *)
Fixpoint char_in (fuel : nat) (m : mem) (ch a : Z) : option bool :=
  match fuel with
  | O => None
  | S fuel =>
    if m a =? 0 then Some false
    else if ch =? m a then Some true
    else char_in fuel m ch (a + 1)
  end.

Fixpoint strspn_loop (fuel : nat) (m : mem) (p accept count : Z) : option Z :=
  match fuel with
  | O => None
  | S n =>
    if m p =? 0 then Some count
    else
      b ← char_in fuel m (m p) accept;
      if (b : bool) then strspn_loop n m (p + 1) accept (count + 1) else Some count
  end.

Definition strspn (fuel : nat) (m : mem) (s accept : Z) : option Z :=
  strspn_loop fuel m s accept 0.

Fixpoint strpbrk (fuel : nat) (m : mem) (cs ct : Z) : option (option Z) :=
  match fuel with
  | O => None
  | S n =>
    if m cs =? 0 then Some None
    else
      b ← char_in fuel m (m cs) ct;
      if (b : bool) then Some (Some cs) else strpbrk n m (cs + 1) ct
  end.

Fixpoint memscan_loop (m : mem) (p c : Z) (size : nat) : Z :=
  match size with
  | O => p
  | S size => if m p =? c then p else memscan_loop m (p + 1) c size
  end.

Definition memscan (m : mem) (addr c size : Z) : Z := memscan_loop m addr c (Z.to_nat size).

Fixpoint memchr_loop (m : mem) (p c : Z) (n : nat) : option Z :=
  match n with
  | O => None
  | S n => if u8 c =? m p then Some p else memchr_loop m (p + 1) c n
  end.

Definition memchr (m : mem) (s c n : Z) : option Z := memchr_loop m s c (Z.to_nat n).

(** [n] candidate positions, from [s1] on. *)
Fixpoint strstr_loop (m : mem) (s1 s2 l2 : Z) (n : nat) : option Z :=
  match n with
  | O => None
  | S n =>
    if memcmp m s1 s2 l2 =? 0 then Some s1 else strstr_loop m (s1 + 1) s2 l2 n
  end.

Definition strstr (fuel : nat) (m : mem) (s1 s2 : Z) : option (option Z) :=
  l2 ← strlen fuel m s2;
  if l2 =? 0 then Some (Some s1)
  else
    l1 ← strlen fuel m s1;
    (* [while (l1 >= l2) { l1--; ... }] *)
    Some (strstr_loop m s1 s2 l2 (Z.to_nat (l1 - l2 + 1))).

(** ** Copying strings *)

Fixpoint strcpy (fuel : nat) (m : mem) (dest src : Z) : option mem :=
  match fuel with
  | O => None
  | S fuel =>
    let c := m src in
    let m := m.[dest <- c] in
    if negb (c =? 0) then strcpy fuel m (dest + 1) (src + 1) else Some m
  end.

Fixpoint strncpy_loop (m : mem) (dest src : Z) (count : nat) : mem :=
  match count with
  | O => m
  | S count =>
    let c := m src in
    let m := m.[dest <- c] in
    if negb (c =? 0) then strncpy_loop m (dest + 1) (src + 1) count else m
  end.

Definition strncpy (m : mem) (dest src count : Z) : mem :=
  strncpy_loop m dest src (Z.to_nat count).

(** [while ( *dest ) dest++] *)
Fixpoint str_end (fuel : nat) (m : mem) (dest : Z) : option Z :=
  match fuel with
  | O => None
  | S fuel => if m dest =? 0 then Some dest else str_end fuel m (dest + 1)
  end.

Definition strcat (fuel : nat) (m : mem) (dest src : Z) : option mem :=
  d ← str_end fuel m dest; strcpy fuel m d src.

Fixpoint strncat_loop (m : mem) (dest src : Z) (count : nat) : mem :=
  match count with
  | O => m
  | S count =>
    let c := m src in
    let m := m.[dest <- c] in
    if negb (c =? 0) then
      match count with
      | O => m.[dest + 1 <- 0]
      | S _ => strncat_loop m (dest + 1) (src + 1) count
      end
    else m
  end.

Definition strncat (fuel : nat) (m : mem) (dest src count : Z) : option mem :=
  if count =? 0 then Some m
  else d ← str_end fuel m dest; Some (strncat_loop m d src (Z.to_nat count)).

(** [malloc] is the allocator's, [None] when it is out of memory. *)
Definition strdup (malloc : mem -> Z -> option (mem * Z)) (fuel : nat) (m : mem)
    (s : option Z) : option (mem * option Z) :=
  match s with
  | None => Some (m, None)
  | Some s =>
    n ← strlen fuel m s;
    match malloc m (n + 1) with
    | None => Some (m, None)
    | Some (m, new) => m ← strcpy fuel m new s; Some (m, Some new)
    end
  end.

(** ** Tokens *)

(** The static [___strtok] is the second component of the state. *)
Definition strtok (fuel : nat) (m : mem) (___strtok s : option Z) (ct : Z)
    : option (mem * option Z * option Z) :=
  match (match s with Some s => Some s | None => ___strtok end) with
  | None => Some (m, ___strtok, None)
  | Some sbegin =>
    n ← strspn fuel m sbegin ct;
    let sbegin := sbegin + n in
    if m sbegin =? 0 then Some (m, None, None)
    else
      send ← strpbrk fuel m sbegin ct;
      match send with
      | Some e =>
        if negb (m e =? 0) then Some (m.[e <- 0], Some (e + 1), Some sbegin)
        else Some (m, Some e, Some sbegin)
      | None => Some (m, None, Some sbegin)
      end
  end.

(** The new [*s] is the second component. *)
Definition strsep (fuel : nat) (m : mem) (s : option Z) (ct : Z)
    : option (mem * option Z * option Z) :=
  match s with
  | None => Some (m, None, None)
  | Some sbegin =>
    e ← strpbrk fuel m sbegin ct;
    match e with
    | Some e => Some (m.[e <- 0], Some (e + 1), Some sbegin)
    | None => Some (m, None, Some sbegin)
    end
  end.

Fixpoint strswab_loop (fuel : nat) (m : mem) (p : Z) : option mem :=
  match fuel with
  | O => None
  | S fuel =>
    if negb (m p =? 0) && negb (m (p + 1) =? 0) then
      strswab_loop fuel (m.[p <- m (p + 1)].[p + 1 <- m p]) (p + 2)
    else Some m
  end.

Definition strswab (fuel : nat) (m : mem) (s : option Z) : option (mem * option Z) :=
  match s with
  | None => Some (m, None)
  | Some s =>
    if m s =? 0 then Some (m, None)
    else m ← strswab_loop fuel m s; Some (m, Some s)
  end.

(** ** Lemmas on copying *)

#[export] Instance bcopy_loop_proper :
  Proper (meq ==> eq ==> eq ==> eq ==> meq) bcopy_loop.
Proof.
  intros m k H s ? <- d ? <- n ? <-. revert m k H s d.
  induction n as [|n IH]; intros m k H s d; simpl; [done|].
  apply IH. by rewrite (H s), H.
Qed.

Lemma bcopy_loop_app m s d a b :
  bcopy_loop m s d (a + b) =
  bcopy_loop (bcopy_loop m s d a) (s + Z.of_nat a) (d + Z.of_nat a) b.
Proof.
  revert m s d. induction a as [|a IH]; intros m s d; simpl; [by rewrite !Z.add_0_r|].
  rewrite IH. f_equal; lia.
Qed.

(** The forward loop copies when the destination is not inside the source. *)
Lemma bcopy_loop_spec m s d n :
  d <= s \/ s + Z.of_nat n <= d -> bcopy_loop m s d n ≡ₘ store_list m d (mem_list m s n).
Proof.
  intros H b. rewrite store_mem_list. revert m s d H.
  induction n as [|n IH]; intros m s d H; simpl bcopy_loop.
  - bdestruct; done.
  - rewrite IH by lia. unfold upd. bdestruct; simpl; f_equal; lia.
Qed.

Lemma copy_down_spec m s d n :
  s < d ->
  copy_down m (s + Z.of_nat n) (d + Z.of_nat n) n ≡ₘ store_list m d (mem_list m s n).
Proof.
  intros H b. rewrite store_mem_list. revert m.
  induction n as [|n IH]; intros m; cbn [copy_down].
  - bdestruct; done.
  - replace (s + Z.of_nat (S n) - 1) with (s + Z.of_nat n) by lia.
    replace (d + Z.of_nat (S n) - 1) with (d + Z.of_nat n) by lia.
    rewrite IH. unfold upd. bdestruct; simpl; f_equal; lia.
Qed.

Lemma memmove_meq m dest src count :
  memmove m dest src count ≡ₘ store_list m dest (mem_list m src (Z.to_nat count)).
Proof.
  unfold memmove. destruct (Z.leb_spec dest src); [by apply bcopy_loop_spec; left|].
  destruct (Z.lt_ge_cases count 0) as [Hc|Hc].
  - by replace (Z.to_nat count) with O by lia.
  - replace (src + count) with (src + Z.of_nat (Z.to_nat count)) by lia.
    replace (dest + count) with (dest + Z.of_nat (Z.to_nat count)) by lia.
    by apply copy_down_spec.
Qed.

(** C34: [memmove] leaves at the destination the bytes the source held before
    the call and changes nothing else, however the two regions overlap. *)
Theorem memmove_spec m dest src count :
  memmove m dest src count ≡ₘ store_list m dest (mem_list m src (Z.to_nat count)).
Proof. apply memmove_meq. Qed.

Section WordLemmas.
Context (W : nat) (k : Z) (Hk : 0 <= k) (HW : Z.of_nat W = 2 ^ k).

Lemma word_pos : 0 < Z.of_nat W.
Proof. rewrite HW. lia. Qed.

Lemma both_aligned d s :
  Z.land (Z.lor d s) (Z.of_nat W - 1) = 0 -> exists q, d - s = Z.of_nat W * q.
Proof.
  rewrite HW, Z.land_lor_distr_l, Z.lor_eq_0_iff, !(land_mask _ k) by lia.
  intros [Hd Hs]. exists (d / 2 ^ k - s / 2 ^ k).
  pose proof (Z.div_mod d (2 ^ k)). pose proof (Z.div_mod s (2 ^ k)). lia.
Qed.

Lemma copy_words_spec m s d n :
  (exists q, d - s = Z.of_nat W * q) ->
  copy_words W m s d n ≡ₘ bcopy_loop m s d (W * n).
Proof.
  intros [q Hq]. pose proof word_pos. revert m s d Hq.
  induction n as [|n IH]; intros m s d Hq; simpl; [by rewrite Nat.mul_0_r|].
  rewrite IH by lia. replace (W * S n)%nat with (W + W * n)%nat by lia.
  rewrite bcopy_loop_app.
  assert (Hw : bcopy_loop m s d W ≡ₘ store_list m d (mem_list m s W)).
  { apply bcopy_loop_spec. destruct (Z.lt_ge_cases 0 q); [right|left]; nia. }
  by rewrite Hw.
Qed.
End WordLemmas.

(** copying by words when both pointers are aligned is the same as copying
    byte by byte, for all arguments (even overlapping ones); and for regions
    where the destination does not lie inside the source it is the copy. *)
Theorem memcpy_spec W k m dest src count :
  0 <= k -> Z.of_nat W = 2 ^ k -> 0 <= count ->
  memcpy W m dest src count ≡ₘ bcopy m src dest count /\
  (dest <= src \/ src + count <= dest ->
   memcpy W m dest src count ≡ₘ store_list m dest (mem_list m src (Z.to_nat count))).
Proof.
  intros Hk HW Hc.
  assert (H : memcpy W m dest src count ≡ₘ bcopy m src dest count).
  { unfold memcpy, bcopy. pose proof (word_pos W k Hk HW) as Hp.
    destruct (Z.eqb_spec (Z.land (Z.lor dest src) (Z.of_nat W - 1)) 0) as [Ha|Ha].
    - apply (both_aligned W k Hk HW) in Ha. rewrite (copy_words_spec W k Hk HW) by done.
      pose proof (Z.div_mod count (Z.of_nat W) ltac:(lia)).
      pose proof (Z.mod_pos_bound count (Z.of_nat W) Hp).
      pose proof (Z.div_pos count (Z.of_nat W) Hc Hp).
      set (q := count / Z.of_nat W) in *.
      replace (Z.to_nat count) with (W * Z.to_nat q + Z.to_nat (count - Z.of_nat W * q))%nat
        by lia.
      rewrite bcopy_loop_app.
      by replace (Z.of_nat (W * Z.to_nat q)) with (Z.of_nat W * q) by lia.
    - simpl. by rewrite Z.mul_0_r, !Z.add_0_r, Z.sub_0_r. }
  split; [done|]. intros Ho. rewrite H. apply bcopy_loop_spec. lia.
Qed.

(** ** Filling *)

#[export] Instance fill_bytes_proper : Proper (meq ==> eq ==> eq ==> eq ==> meq) fill_bytes.
Proof.
  intros m k H s ? <- c ? <- n ? <-. revert m k H s.
  induction n as [|n IH]; intros m k H s; simpl; [done|]. apply IH. by rewrite H.
Qed.

Lemma fill_bytes_spec m s c n : fill_bytes m s c n = store_list m s (repeat (u8 c) n).
Proof. revert m s. induction n as [|n IH]; intros m s; simpl; [done|]. by rewrite IH. Qed.

Lemma lor_add_byte x b : 0 <= x -> is_byte b -> Z.lor (Z.shiftl x 8) b = 256 * x + b.
Proof.
  intros Hx Hb. rewrite Z.shiftl_mul_pow2 by lia. change (2 ^ 8) with 256.
  pose proof (Z.add_lor_land (x * 256) b). enough (Z.land (x * 256) b = 0) by lia.
  apply Z.bits_inj'. intros n Hn. rewrite Z.land_spec, Z.bits_0.
  change 256 with (2 ^ 8). destruct (Z.lt_ge_cases n 8).
  - by rewrite Z.mul_pow2_bits_low by lia.
  - rewrite (byte_bits_high b) by done. apply andb_false_r.
Qed.

(** The value of [n] equal bytes. *)
Fixpoint rep_bytes (b : Z) (n : nat) : Z :=
  match n with O => 0 | S n => 256 * rep_bytes b n + b end.

Lemma rep_bytes_bound b n : is_byte b -> 0 <= rep_bytes b n < 2 ^ (8 * Z.of_nat n).
Proof.
  intros Hb. unfold is_byte in Hb. induction n as [|n IH]; [done|]. simpl rep_bytes.
  replace (8 * Z.of_nat (S n)) with (8 * Z.of_nat n + 8) by lia.
  rewrite Z.pow_add_r by lia. lia.
Qed.

Lemma memset_word_rep W c : memset_word W c = rep_bytes (u8 c) W.
Proof.
  unfold memset_word. assert (Hb : is_byte (u8 c)) by apply is_byte_u8.
  assert (H : forall n, (n <= W)%nat ->
    Nat.iter n (fun cl => Z.lor (Z.shiftl cl 8 mod 2 ^ (8 * Z.of_nat W)) (Z.land c 255)) 0 =
    rep_bytes (u8 c) n); [|by apply H].
  induction n as [|n IH]; intros Hn; [done|]. simpl Nat.iter. rewrite IH by lia.
  pose proof (rep_bytes_bound (u8 c) n Hb). rewrite (land_mask c 8 255) by lia.
  fold (u8 c). rewrite Z.mod_small.
  - apply lor_add_byte; [lia|done].
  - rewrite Z.shiftl_mul_pow2 by lia. split; [lia|].
    assert (2 ^ (8 * Z.of_nat n + 8) <= 2 ^ (8 * Z.of_nat W)) by (apply Z.pow_le_mono_r; lia).
    rewrite Z.pow_add_r in * by lia. lia.
Qed.

Lemma word_bytes_rep b n : is_byte b -> word_bytes n (rep_bytes b n) = repeat b n.
Proof.
  intros Hb. pose proof Hb as Hb'. unfold is_byte in Hb'.
  induction n as [|n IH]; [done|]. simpl. f_equal.
  - unfold u8. change (2 ^ 8) with 256.
    rewrite Z.add_comm, Z.mul_comm, Z.mod_add by lia. by apply Z.mod_small.
  - rewrite Z.shiftr_div_pow2 by lia. change (2 ^ 8) with 256.
    by rewrite Z.add_comm, Z.mul_comm, Z.div_add, Z.div_small by lia.
Qed.

Lemma fill_words_spec W m s c n :
  fill_words W m s (memset_word W c) n = store_list m s (repeat (u8 c) (W * n)).
Proof.
  rewrite memset_word_rep. revert m s. induction n as [|n IH]; intros m s.
  - by rewrite Nat.mul_0_r.
  - simpl. rewrite IH, word_bytes_rep by apply is_byte_u8.
    replace (W * S n)%nat with (W + W * n)%nat by lia.
    by rewrite repeat_app, store_list_app, repeat_length.
Qed.

(** [memset] stores the low byte of [c] at the [count] addresses from [s] on,
    and nowhere else, whether or not the start is word-aligned. *)
Theorem memset_spec W m s c count :
  (0 < W)%nat -> 0 <= count ->
  memset W m s c count = store_list m s (repeat (u8 c) (Z.to_nat count)).
Proof.
  intros HW Hc. unfold memset.
  rewrite fill_words_spec, fill_bytes_spec. set (q := if Z.land s (Z.of_nat W - 1) =? 0 then count / Z.of_nat W else 0).
  assert (Hq : 0 <= Z.of_nat W * q <= count /\ 0 <= q).
  { unfold q. destruct (_ =? 0); [|lia].
    pose proof (Z.div_pos count (Z.of_nat W)). pose proof (Z.mul_div_le count (Z.of_nat W)). nia. }
  replace (Z.to_nat count) with (W * Z.to_nat q + Z.to_nat (count - Z.of_nat W * q))%nat by nia.
  rewrite repeat_app, store_list_app, repeat_length. f_equal. nia.
Qed.

(** ** Strings in memory *)

(** The NUL-terminated string at [a] is [s]. *)
Fixpoint cstr (m : mem) (a : Z) (s : list Z) : Prop :=
  match s with
  | [] => m a = 0
  | c :: s => m a = c /\ c <> 0 /\ cstr m (a + 1) s
  end.

Lemma cstr_ext m k a s :
  (forall b, a <= b <= a + Z.of_nat (length s) -> m b = k b) -> cstr m a s -> cstr k a s.
Proof.
  revert a. induction s as [|c s IH]; intros a H; simpl in *.
  - intros <-. symmetry. apply H. lia.
  - intros (<- & Hc & Hs). split_and!.
    + symmetry. apply H. lia.
    + done.
    + apply IH; [|done]. intros. apply H. lia.
Qed.

Lemma cstr_tail m a c s : cstr m a (c :: s) -> m a = c /\ c <> 0 /\ cstr m (a + 1) s.
Proof. done. Qed.

Lemma strlen_from_spec m b a s fuel :
  cstr m a s -> (length s < fuel)%nat ->
  strlen_from fuel m b a = Some (a + Z.of_nat (length s) - b).
Proof.
  revert a fuel. induction s as [|c s IH]; intros a [|fuel] Hs Hf; simpl in *; try lia.
  - rewrite Hs. simpl. f_equal. lia.
  - destruct Hs as (Ha & Hc & Hs). bdestruct. rewrite IH by (done || lia). f_equal. lia.
Qed.

Lemma strlen_spec m a s fuel :
  cstr m a s -> (length s < fuel)%nat -> strlen fuel m a = Some (Z.of_nat (length s)).
Proof. intros. unfold strlen. erewrite strlen_from_spec by done. f_equal. lia. Qed.

(** The difference C prescribes: of the first characters that differ, as
    unsigned bytes, the terminating NUL included. *)
Fixpoint strdiff (s t : list Z) : Z :=
  match s, t with
  | [], [] => 0
  | [], d :: _ => - d
  | c :: _, [] => c
  | c :: s, d :: t => if c =? d then strdiff s t else c - d
  end.

Lemma strdiff_zero s t :
  Forall (fun c => c <> 0) s -> Forall (fun c => c <> 0) t -> (strdiff s t = 0 <-> s = t).
Proof.
  intros Hs. revert t. induction Hs as [|c s Hc Hs IH]; intros t Ht; simpl.
  - destruct Ht; [done|]. split; [lia|done].
  - destruct Ht as [|d t Hd Ht]; [split; [lia|done]|].
    destruct (Z.eqb_spec c d) as [->|].
    + rewrite IH by done. split; [by intros ->|congruence].
    + split; [lia|]. congruence.
Qed.

Lemma cstr_nonzero m a s : cstr m a s -> Forall (fun c => c <> 0) s.
Proof.
  revert a. induction s as [|c s IH]; intros a; [constructor|].
  intros (? & ? & ?). constructor; eauto.
Qed.

Lemma s8_zero d : -256 < d < 256 -> (s8 d = 0 <-> d = 0).
Proof.
  intros H. unfold s8, signed. change (2 ^ (8 - 1)) with 128. change (2 ^ 8) with 256.
  split; [|by intros ->]. Z.to_euclidean_division_equations. lia.
Qed.

Lemma strcmp_diff m a b s t fuel :
  (forall x, is_byte (m x)) -> cstr m a s -> cstr m b t -> (length s < fuel)%nat ->
  strcmp fuel m a b = Some (s8 (strdiff s t)).
Proof.
  intros Hm. revert a b t fuel.
  induction s as [|c s IH]; intros a b t [|fuel] Hs Ht Hf; cbn [length] in Hf; try lia;
    cbn [strcmp]; pose proof (Hm a) as Ba; pose proof (Hm b) as Bb; unfold is_byte in Ba, Bb.
  - simpl in Hs. rewrite Hs. rewrite orb_true_r. do 2 f_equal.
    destruct t as [|d t]; [simpl in Ht|destruct Ht as (Hd & _)]; simpl; lia.
  - destruct Hs as (Ha & Hc & Hs). rewrite Ha in *.
    destruct (Z.eqb_spec (s8 (c - m b)) 0) as [H0|H0]; cbn [negb orb].
    + rewrite s8_zero in H0 by lia. rewrite (proj2 (Z.eqb_neq c 0)) by done.
      destruct t as [|d t]; [simpl in Ht; lia|]. destruct Ht as (Hd & ? & Ht).
      cbn [strdiff]. rewrite (proj2 (Z.eqb_eq c d)) by lia. apply IH; (done || lia).
    + do 2 f_equal. destruct t as [|d t]; [simpl in *; lia|].
      destruct Ht as (Hd & ? & Ht). cbn [strdiff]. rewrite Hd in *.
      rewrite (proj2 (Z.eqb_neq c d)); [done|]. intros ->. by rewrite Z.sub_diag in H0.
Qed.

(** [strcmp] terminates; it gives zero exactly for equal strings, and the
    difference C prescribes whenever that difference fits a [signed char]. *)
Theorem strcmp_spec m a b s t fuel :
  (forall x, is_byte (m x)) -> cstr m a s -> cstr m b t -> (length s < fuel)%nat ->
  exists r, strcmp fuel m a b = Some r /\ (r = 0 <-> s = t) /\
    (-128 <= strdiff s t < 128 -> r = strdiff s t).
Proof.
  intros Hm Hs Ht Hf. exists (s8 (strdiff s t)). split; [by apply strcmp_diff|].
  assert (Hd : -256 < strdiff s t < 256).
  { clear Hf. revert a b t Hs Ht. induction s as [|c s IH]; intros a b [|d t] Hs Ht; simpl; try lia.
    - destruct Ht as (Hd & _). pose proof (Hm b). unfold is_byte in *. lia.
    - destruct Hs as (Hd & _). pose proof (Hm a). unfold is_byte in *. lia.
    - destruct Hs as (Ha & _ & Hs). destruct Ht as (Hb & _ & Ht).
      destruct (Z.eqb_spec c d); [by eapply IH|].
      pose proof (Hm a). pose proof (Hm b). unfold is_byte in *. lia. }
  split.
  - rewrite s8_zero by done. apply strdiff_zero; by eapply cstr_nonzero.
  - intros. by apply signed_small.
Qed.

(** the difference goes through a [signed char], so a string that starts with
    a byte above 127 compares as smaller than the empty string. *)
Theorem strcmp_sign_lost :
  exists m, (forall x, is_byte (m x)) /\ cstr m 0 [200] /\ cstr m 8 [] /\
    0 < strdiff [200] [] /\ strcmp 2 m 0 8 = Some (-56).
Proof.
  exists (upd (fun _ => 0) 0 200). split_and!; try done.
  intros x. unfold upd. destruct (x =? 0); unfold is_byte; lia.
Qed.

(** ** Searching *)

Lemma cstr_mem_list m a s : cstr m a s -> mem_list m a (length s) = s.
Proof.
  revert a. induction s as [|c s IH]; intros a; [done|].
  intros (Ha & _ & Hs). simpl. by rewrite Ha, IH.
Qed.

Lemma cstr_sub m a s j n :
  cstr m a s -> (j + n <= length s)%nat ->
  mem_list m (a + Z.of_nat j) n = take n (drop j s).
Proof.
  intros Hs Hj. apply cstr_mem_list in Hs. rewrite <- Hs.
  replace (length s) with (j + (n + (length s - j - n)))%nat by lia.
  rewrite !mem_list_app, drop_app_length' by (by rewrite mem_list_length).
  by rewrite take_app_length' by (by rewrite mem_list_length).
Qed.

Lemma memcmp_loop_zero m p q n :
  memcmp_loop m p q n 0 = 0 <-> mem_list m p n = mem_list m q n.
Proof.
  revert p q. induction n as [|n IH]; intros p q; simpl; [done|].
  destruct (Z.eqb_spec (m p - m q) 0) as [H|H]; simpl.
  - rewrite H, IH. split; [intros ->; f_equal; lia|congruence].
  - split; [done|]. intros [=]. lia.
Qed.

(** An occurrence of [t] in [s] at position [j]. *)
Definition occurs (t s : list Z) (j : nat) : Prop := take (length t) (drop j s) = t.

Lemma occurs_fits t s j : occurs t s j -> t <> [] -> (j + length t <= length s)%nat.
Proof.
  intros H Ht. apply (f_equal length) in H. rewrite length_take, length_drop in H.
  assert (length t <> O) by (by destruct t). lia.
Qed.

Lemma strstr_loop_spec m a b s t j n :
  cstr m a s -> cstr m b t -> (j + n + length t = S (length s))%nat ->
  match strstr_loop m (a + Z.of_nat j) b (Z.of_nat (length t)) n with
  | Some p => exists i, (j <= i)%nat /\ p = a + Z.of_nat i /\ occurs t s i /\
      forall k, (j <= k < i)%nat -> ~ occurs t s k
  | None => forall k, (j <= k < j + n)%nat -> ~ occurs t s k
  end.
Proof.
  intros Hs Ht. revert j. induction n as [|n IH]; intros j Hn; simpl; [intros; lia|].
  assert (Hcmp : memcmp m (a + Z.of_nat j) b (Z.of_nat (length t)) = 0 <-> occurs t s j).
  { unfold memcmp, occurs. rewrite memcmp_loop_zero, Nat2Z.id.
    rewrite (cstr_sub m a s) by (done || lia). by rewrite (cstr_mem_list m b t). }
  destruct (Z.eqb_spec (memcmp m (a + Z.of_nat j) b (Z.of_nat (length t))) 0) as [H|H].
  - exists j. split_and!; [lia|done|by apply Hcmp|lia].
  - replace (a + Z.of_nat j + 1) with (a + Z.of_nat (S j)) by lia.
    specialize (IH (S j) ltac:(lia)).
    assert (Hj : ~ occurs t s j) by (by rewrite <- Hcmp).
    destruct (strstr_loop _ _ _ _ n) as [p|].
    + destruct IH as (i & Hi & -> & Ho & Hmin). exists i. split_and!; [lia|done|done|].
      intros k Hk. destruct (decide (k = j)) as [->|]; [done|]. apply Hmin. lia.
    + intros k Hk. destruct (decide (k = j)) as [->|]; [done|]. apply IH. lia.
Qed.

(** [strstr] terminates and gives the first occurrence of the second string in
    the first, or null exactly when there is none; the empty string occurs at
    the start. *)
Theorem strstr_spec m a b s t fuel :
  cstr m a s -> cstr m b t -> (length s < fuel)%nat -> (length t < fuel)%nat ->
  exists r, strstr fuel m a b = Some r /\
  match r with
  | Some p => exists i, p = a + Z.of_nat i /\ occurs t s i /\
      forall k, (k < i)%nat -> ~ occurs t s k
  | None => forall k, ~ occurs t s k
  end.
Proof.
  intros Hs Ht Hf Hg. unfold strstr. rewrite (strlen_spec m b t) by done. simpl.
  destruct (Z.eqb_spec (Z.of_nat (length t)) 0) as [H0|H0].
  - destruct t; [|simpl in H0; lia]. eexists. split; [done|]. exists O.
    split_and!; [lia|done|lia].
  - rewrite (strlen_spec m a s) by done. simpl. eexists. split; [done|].
    destruct (Nat.le_gt_cases (length t) (length s)) as [Hl|Hl].
    + pose proof (strstr_loop_spec m a b s t 0
        (Z.to_nat (Z.of_nat (length s) - Z.of_nat (length t) + 1)) Hs Ht ltac:(lia)) as H.
      rewrite Z.add_0_r in H. destruct (strstr_loop _ _ _ _ _) as [p|].
      * destruct H as (i & _ & -> & Ho & Hmin). exists i. split_and!; [done..|].
        intros. apply Hmin. lia.
      * intros k Ho. pose proof (occurs_fits t s k Ho). apply (H k); [|done].
        assert (t <> []) by (by intros ->). intuition lia.
    + replace (Z.to_nat _) with O by lia. simpl. intros k Ho.
      assert (t <> []) by (by intros ->). pose proof (occurs_fits t s k Ho). intuition lia.
Qed.

(** ** Tokens *)

Lemma char_in_spec m ch a d fuel :
  cstr m a d -> (length d < fuel)%nat -> char_in fuel m ch a = Some (bool_decide (ch ∈ d)).
Proof.
  revert a fuel.
  induction d as [|c d IH]; intros a [|fuel] Hd Hf; cbn [length] in Hf; try lia; cbn [char_in].
  - simpl in Hd. rewrite Hd. cbn. by rewrite bool_decide_eq_false_2 by apply not_elem_of_nil.
  - destruct Hd as (-> & Hc & Hd). rewrite (proj2 (Z.eqb_neq c 0)) by done.
    destruct (Z.eqb_spec ch c) as [->|Hne].
    + rewrite bool_decide_eq_true_2; [done|]. apply list_elem_of_here.
    + rewrite IH by (done || lia). f_equal. apply bool_decide_ext.
      rewrite elem_of_cons. tauto.
Qed.

(** The longest prefix of [s] all of whose characters satisfy [p], and the rest. *)
Fixpoint span (p : Z -> bool) (s : list Z) : list Z * list Z :=
  match s with
  | [] => ([], [])
  | c :: s' => if p c then let '(f, r) := span p s' in (c :: f, r) else ([], s)
  end.

Definition delim (d : list Z) (c : Z) : bool := bool_decide (c ∈ d).

Lemma span_app p s : s = (span p s).1 ++ (span p s).2.
Proof.
  induction s as [|c s IH]; [done|]. simpl. destruct (p c); [|done].
  destruct (span p s). simpl in *. by rewrite <- IH.
Qed.

Lemma strpbrk_spec m a b s d fuel :
  cstr m a s -> cstr m b d -> (length s + length d < fuel)%nat ->
  strpbrk fuel m a b =
  Some (match (span (fun c => negb (delim d c)) s).2 with
        | [] => None
        | _ :: _ => Some (a + Z.of_nat (length (span (fun c => negb (delim d c)) s).1))
        end).
Proof.
  revert a fuel. induction s as [|c s IH]; intros a [|fuel] Hs Hd Hf; simpl in Hf; try lia.
  - simpl in *. by rewrite Hs.
  - destruct Hs as (Ha & Hc & Hs). cbn [strpbrk]. rewrite Ha.
    rewrite (proj2 (Z.eqb_neq c 0)) by done.
    rewrite (char_in_spec m c b d) by (done || lia). fold (delim d c). simpl.
    destruct (delim d c); simpl; [by rewrite Z.add_0_r|].
    rewrite IH by (done || lia). destruct (span _ s) as [f [|x r]]; simpl; [done|].
    do 2 f_equal. lia.
Qed.

Lemma strspn_loop_spec m a b s d n fuel :
  cstr m a s -> cstr m b d -> (length s + length d < fuel)%nat ->
  strspn_loop fuel m a b n = Some (n + Z.of_nat (length (span (delim d) s).1)).
Proof.
  revert a n fuel. induction s as [|c s IH]; intros a n [|fuel] Hs Hd Hf; simpl in Hf; try lia.
  - simpl in *. rewrite Hs. simpl. f_equal. lia.
  - destruct Hs as (Ha & Hc & Hs). cbn [strspn_loop]. rewrite Ha.
    rewrite (proj2 (Z.eqb_neq c 0)) by done.
    rewrite (char_in_spec m c b d) by (done || lia). fold (delim d c). simpl.
    destruct (delim d c); simpl; [|f_equal; lia].
    rewrite IH by (done || lia). destruct (span _ s) as [f r]; simpl. f_equal. lia.
Qed.

Lemma cstr_app m a s t : cstr m a (s ++ t) -> cstr m (a + Z.of_nat (length s)) t.
Proof.
  revert a. induction s as [|c s IH]; intros a; simpl; [by rewrite Z.add_0_r|].
  intros (_ & _ & H). apply IH in H. by replace (a + Z.of_nat (S (length s)))
    with (a + 1 + Z.of_nat (length s)) by lia.
Qed.

(** Writing a NUL inside a string leaves its prefix. *)
Lemma cstr_cut m a s t : cstr m a (s ++ t) -> cstr (m.[a + Z.of_nat (length s) <- 0]) a s.
Proof.
  revert a. induction s as [|c s IH]; intros a; simpl.
  - intros _. rewrite Z.add_0_r. apply upd_eq.
  - intros (Ha & Hc & H). split_and!; [rewrite upd_ne by lia; done|done|].
    replace (a + Z.of_nat (S (length s))) with (a + 1 + Z.of_nat (length s)) by lia.
    by apply IH.
Qed.

(** The strings at [a] and [b] do not overlap. *)
Definition apart (a : Z) (s : list Z) (b : Z) (d : list Z) : Prop :=
  a + Z.of_nat (length s) < b \/ b + Z.of_nat (length d) < a.

Lemma cut_token m a f c r b d :
  cstr m a (f ++ c :: r) -> cstr m b d -> apart a (f ++ c :: r) b d ->
  let m' := m.[a + Z.of_nat (length f) <- 0] in
  cstr m' a f /\ cstr m' (a + Z.of_nat (length f) + 1) r /\ cstr m' b d.
Proof.
  intros Hs Hd Hap m'. unfold apart in Hap. rewrite length_app in Hap. simpl in Hap.
  split_and!.
  - by eapply cstr_cut.
  - apply cstr_app in Hs. destruct Hs as (_ & _ & Hr).
    eapply cstr_ext; [|done]. intros. symmetry. apply upd_ne. lia.
  - eapply cstr_ext; [|done]. intros. symmetry. apply upd_ne. lia.
Qed.

(** one call of [strsep] cuts the string at its first delimiter: the caller
    gets the field before it (possibly empty) and [*s] is the rest, or null
    when there was no delimiter left; the delimiter string is intact. *)
Theorem strsep_spec m a b s d fuel :
  cstr m a s -> cstr m b d -> apart a s b d -> (length s + length d < fuel)%nat ->
  exists m' next, strsep fuel m (Some a) b = Some (m', next, Some a) /\
  let '(f, r) := span (fun c => negb (delim d c)) s in
  cstr m' a f /\ cstr m' b d /\
  match r with
  | [] => next = None /\ m' = m
  | _ :: r => next = Some (a + Z.of_nat (length f) + 1) /\
      cstr m' (a + Z.of_nat (length f) + 1) r
  end.
Proof.
  intros Hs Hd Hap Hf. unfold strsep. rewrite (strpbrk_spec m a b s d) by done. simpl.
  pose proof (span_app (fun c => negb (delim d c)) s) as Happ.
  destruct (span _ s) as [f [|c r]]; simpl in *.
  - eexists _, _. split; [done|]. rewrite app_nil_r in Happ. by subst.
  - eexists _, _. split; [done|]. subst s.
    destruct (cut_token m a f c r b d Hs Hd Hap) as (H1 & H2 & H3). done.
Qed.

(** one call of [strtok] skips leading delimiters and cuts the token after
    them: null when only delimiters are left, and otherwise the address of a
    non-empty string without delimiters; [___strtok] is where the next call
    continues. *)
Theorem strtok_spec m tok a b s d fuel :
  cstr m a s -> cstr m b d -> apart a s b d -> (length s + length d < fuel)%nat ->
  let '(k, s1) := span (delim d) s in
  let '(f, r) := span (fun c => negb (delim d c)) s1 in
  let p := a + Z.of_nat (length k) in
  exists m' tok' res, strtok fuel m tok (Some a) b = Some (m', tok', res) /\ cstr m' b d /\
  match s1, r with
  | [], _ => m' = m /\ tok' = None /\ res = None
  | _, [] => m' = m /\ tok' = None /\ res = Some p /\ cstr m' p f
  | _, _ :: r => res = Some p /\ cstr m' p f /\
      tok' = Some (p + Z.of_nat (length f) + 1) /\ cstr m' (p + Z.of_nat (length f) + 1) r
  end.
Proof.
  intros Hs Hd Hap Hf. unfold strtok, strspn.
  rewrite (strspn_loop_spec m a b s d 0) by done. rewrite Z.add_0_l. cbn [mbind option_bind].
  pose proof (span_app (delim d) s) as Happ. destruct (span (delim d) s) as [k s1]. simpl in *.
  subst s. pose proof (cstr_app _ _ _ _ Hs) as Hs1. rewrite length_app in Hf.
  pose proof (span_app (fun c => negb (delim d c)) s1) as Happ1.
  pose proof (strpbrk_spec m _ b s1 d fuel Hs1 Hd ltac:(lia)) as Hp.
  destruct s1 as [|c s1].
  - simpl in Hs1 |- *. rewrite Hs1. simpl. by eexists _, _, _.
  - pose proof Hs1 as (Hc1 & Hc0 & _). rewrite Hc1, (proj2 (Z.eqb_neq c 0)) by done.
    rewrite Hp. clear Hp. cbn [mbind option_bind].
    destruct (span _ (c :: s1)) as [f [|x r]]; cbn [fst snd] in *.
    + eexists _, _, _. split; [done|]. rewrite app_nil_r in Happ1. by rewrite Happ1 in Hs1.
    + rewrite Happ1 in Hs1. pose proof (cstr_app _ _ _ _ Hs1) as (Hx & Hx0 & _).
      rewrite Hx, (proj2 (Z.eqb_neq x 0)) by done. cbn [negb].
      eexists _, _, _. split; [done|].
      assert (Hap1 : apart (a + Z.of_nat (length k)) (f ++ x :: r) b d).
      { rewrite <- Happ1. unfold apart in *. rewrite length_app in Hap. lia. }
      by destruct (cut_token _ _ f x r b d Hs1 Hd Hap1) as (H1 & H2 & H3).
Qed.

(** ** Witnesses *)

Definition zeros : mem := fun _ => 0.

(** The strings "a,b" at 0, "," at 16 and "b" at 32. *)
Definition sample : mem :=
  store_list (store_list (store_list zeros 0 [97; 44; 98]) 16 [44]) 32 [98].

Lemma sample_bytes x : is_byte (sample x).
Proof.
  repeat apply store_bytes; try (repeat constructor; vm_compute; congruence).
Qed.

Lemma memcpy_spec_witness :
  memcpy 4 sample 64 0 7 ≡ₘ bcopy sample 0 64 7 /\
  (64 <= 0 \/ 0 + 7 <= 64 ->
   memcpy 4 sample 64 0 7 ≡ₘ store_list sample 64 (mem_list sample 0 (Z.to_nat 7))).
Proof.
  apply (memcpy_spec 4 2 sample 64 0 7); [lia|reflexivity|lia].
Defined.

Lemma memset_spec_witness :
  memset 4 sample 8 0x1ff 6 = store_list sample 8 (repeat (u8 0x1ff) (Z.to_nat 6)).
Proof. apply (memset_spec 4 sample 8 0x1ff 6); lia. Defined.

Lemma strcmp_spec_witness :
  exists r, strcmp 4 sample 0 32 = Some r /\ (r = 0 <-> [97; 44; 98] = [98]) /\
    (-128 <= strdiff [97; 44; 98] [98] < 128 -> r = strdiff [97; 44; 98] [98]).
Proof.
  apply (strcmp_spec sample 0 32 [97; 44; 98] [98] 4).
  - apply sample_bytes.
  - vm_compute. intuition congruence.
  - vm_compute. intuition congruence.
  - simpl. lia.
Defined.

Lemma strstr_spec_witness :
  strstr 9 sample 0 32 = Some (Some 2) /\
  exists r, strstr 9 sample 0 32 = Some r /\
  match r with
  | Some p => exists i, p = 0 + Z.of_nat i /\ occurs [98] [97; 44; 98] i /\
      forall k, (k < i)%nat -> ~ occurs [98] [97; 44; 98] k
  | None => forall k, ~ occurs [98] [97; 44; 98] k
  end.
Proof.
  split; [vm_compute; reflexivity|].
  apply (strstr_spec sample 0 32 [97; 44; 98] [98] 9).
  - vm_compute. intuition congruence.
  - vm_compute. intuition congruence.
  - simpl. lia.
  - simpl. lia.
Defined.

Lemma strsep_spec_witness :
  exists m' next, strsep 9 sample (Some 0) 16 = Some (m', next, Some 0) /\
  let '(f, r) := span (fun c => negb (delim [44] c)) [97; 44; 98] in
  cstr m' 0 f /\ cstr m' 16 [44] /\
  match r with
  | [] => next = None /\ m' = sample
  | _ :: r => next = Some (0 + Z.of_nat (length f) + 1) /\
      cstr m' (0 + Z.of_nat (length f) + 1) r
  end.
Proof.
  apply (strsep_spec sample 0 16 [97; 44; 98] [44] 9).
  - vm_compute. intuition congruence.
  - vm_compute. intuition congruence.
  - unfold apart. simpl. lia.
  - simpl. lia.
Defined.

Lemma strtok_spec_witness :
  let '(k, s1) := span (delim [44]) [97; 44; 98] in
  let '(f, r) := span (fun c => negb (delim [44] c)) s1 in
  let p := 0 + Z.of_nat (length k) in
  exists m' tok' res, strtok 9 sample None (Some 0) 16 = Some (m', tok', res) /\
  cstr m' 16 [44] /\
  match s1, r with
  | [], _ => m' = sample /\ tok' = None /\ res = None
  | _, [] => m' = sample /\ tok' = None /\ res = Some p /\ cstr m' p f
  | _, _ :: r => res = Some p /\ cstr m' p f /\
      tok' = Some (p + Z.of_nat (length f) + 1) /\ cstr m' (p + Z.of_nat (length f) + 1) r
  end.
Proof.
  apply (strtok_spec sample None 0 16 [97; 44; 98] [44] 9).
  - vm_compute. intuition congruence.
  - vm_compute. intuition congruence.
  - unfold apart. simpl. lia.
  - simpl. lia.
Defined.
