(* ===== verification/Div64.v ===== *)
(** 64-by-32 bit division in software, [lib_generic/div64.c] and the [do_div]
    macro of [include/div64.h].  [do_div] is what number formatting
    ([Vsprintf.put_dec]) divides with. *)

From S2P Require Import Prelude.

(** The scaling loop: doubles [b] and [d] until [b] reaches [rem] or its top bit
    is set. *)
Fixpoint scale (fuel : nat) (b rem d : Z) : option (Z * Z) :=
  match fuel with
  | O => None
  | S fuel =>
    if (0 <? s64 b) && (b <? rem) then scale fuel (u64 (b + b)) rem (u64 (d + d))
    else Some (b, d)
  end.

(** The subtraction loop; [None] when the fuel runs out before [d] is zero. *)
Fixpoint subtract (fuel : nat) (rem b res d : Z) : option (Z * Z) :=
  match fuel with
  | O => None
  | S fuel =>
    let '(rem, res) :=
      if b <=? rem then (u64 (rem - b), u64 (res + d)) else (rem, res) in
    let b := Z.shiftr b 1 in
    let d := Z.shiftr d 1 in
    if negb (d =? 0) then subtract fuel rem b res d else Some (res, rem)
  end.

(** Both loops run at most 64 times. *)
Definition div_fuel : nat := 65.

(** The quotient left in [*n] and the remainder returned. *)
Definition __div64_32 (n base : Z) : option (Z * Z) :=
  let rem := n in
  let b := base in
  let high := u32 (Z.shiftr rem 32) in
  let '(res, rem) :=
    if base <=? high then
      let high := high / base in
      (u64 (Z.shiftl high 32), u64 (rem - u64 (Z.shiftl (u32 (high * base)) 32)))
    else (0, rem) in
  '(b, d) ← scale div_fuel b rem 1;
  '(res, rem) ← subtract div_fuel rem b res d;
  Some (res, u32 rem).

Definition do_div (n base : Z) : option (Z * Z) :=
  if Z.shiftr n 32 =? 0 then Some (u32 n / base, u32 n mod base)
  else __div64_32 n base.

(** ** The loops *)

Lemma s64_sign b : 0 <= b < 2 ^ 64 -> (0 <? s64 b) = (0 <? b) && (b <? 2 ^ 63).
Proof.
  intros Hb. unfold s64, signed. change (2 ^ (64 - 1)) with (2 ^ 63).
  destruct (Z.lt_ge_cases b (2 ^ 63)).
  - rewrite Z.mod_small by lia. bdestruct.
  - replace ((b + 2 ^ 63) mod 2 ^ 64) with (b - 2 ^ 63); [bdestruct|].
    apply (Z.mod_unique_pos _ _ 1); lia.
Qed.

(** [k] doublings are left before the top bit. *)
Lemma scale_spec base rem k fuel d :
  0 < base -> 0 <= rem < 2 ^ 64 -> 1 <= d -> base * d < 2 ^ 64 ->
  2 ^ 64 <= base * d * 2 ^ Z.of_nat k -> (k < fuel)%nat -> (exists j, 0 <= j /\ d = 2 ^ j) ->
  exists d', scale fuel (base * d) rem d = Some (base * d', d') /\
    (exists j, 0 <= j /\ d' = 2 ^ j) /\ base * d' < 2 ^ 64 /\ rem < 2 * (base * d').
Proof.
  intros Hb Hr. revert fuel d.
  induction k as [|k IH]; intros [|fuel] d Hd Hlt Hk Hf (j & Hj & Hdj); try lia.
  cbn [scale]. rewrite s64_sign by nia.
  destruct (_ && _) eqn:Hc.
  - assert (Hs : base * d < 2 ^ 63) by (clear - Hc; lia).
    rewrite !u64_small by nia.
    replace (base * d + base * d) with (base * (2 * d)) by lia.
    replace (d + d) with (2 * d) by lia. apply IH; try lia.
    + rewrite Nat2Z.inj_succ, Z.pow_succ_r in Hk by lia. nia.
    + exists (j + 1). split; [lia|]. rewrite Z.pow_add_r, Hdj by lia. lia.
  - exists d. split; [done|]. split; [by exists j|]. split; [done|].
    apply andb_false_iff in Hc. rewrite andb_false_iff in Hc. nia.
Qed.

Lemma subtract_spec base n k fuel rem res :
  0 < base < 2 ^ 32 -> 0 <= n < 2 ^ 64 -> n = res * base + rem -> 0 <= res -> 0 <= rem ->
  rem < 2 * (base * 2 ^ Z.of_nat k) -> (k < fuel)%nat ->
  subtract fuel rem (base * 2 ^ Z.of_nat k) res (2 ^ Z.of_nat k) = Some (n / base, n mod base).
Proof.
  intros Hb Hn. revert fuel rem res.
  induction k as [|k IH]; intros [|fuel] rem res Heq Hres Hrem Hlt Hf; try lia.
  - cbn [subtract]. change (2 ^ Z.of_nat 0) with 1 in *. rewrite Z.mul_1_r in *.
    change (Z.shiftr 1 1) with 0. cbn [Z.eqb negb].
    destruct (Z.leb_spec base rem) as [Hle|Hle].
    + rewrite !u64_small by nia.
      rewrite (Z.div_unique_pos n base (res + 1) (rem - base)) at 1 by nia.
      by rewrite (Z.mod_unique_pos n base (res + 1) (rem - base)) by nia.
    + rewrite (Z.div_unique_pos n base res rem) at 1 by nia.
      by rewrite (Z.mod_unique_pos n base res rem) by nia.
  - cbn [subtract]. rewrite Nat2Z.inj_succ, Z.pow_succ_r in * by lia.
    set (p := 2 ^ Z.of_nat k) in *. assert (0 < p) by (unfold p; lia).
    rewrite !Z.shiftr_div_pow2 by lia. change (2 ^ 1) with 2.
    replace (base * (2 * p) / 2) with (base * p)
      by (rewrite <- (Z.div_mul (base * p) 2) by lia; f_equal; lia).
    replace (2 * p / 2) with p by (rewrite Z.mul_comm, Z.div_mul by lia; done).
    destruct (Z.leb_spec (base * (2 * p)) rem) as [Hle|Hle].
    + rewrite !u64_small by nia. rewrite (proj2 (Z.eqb_neq p 0)) by lia. cbn [negb].
      apply IH; (lia || nia).
    + rewrite (proj2 (Z.eqb_neq p 0)) by lia. cbn [negb]. apply IH; (lia || nia).
Qed.

Lemma div64_32_spec n base :
  0 <= n < 2 ^ 64 -> 0 < base < 2 ^ 32 -> __div64_32 n base = Some (n / base, n mod base).
Proof.
  intros Hn Hb. unfold __div64_32. cbv zeta.
  set (high := Z.shiftr n 32). assert (Hhigh : high = n / 2 ^ 32)
    by (unfold high; by rewrite Z.shiftr_div_pow2 by lia).
  assert (Hh : 0 <= high < 2 ^ 32) by (rewrite Hhigh; Z.to_euclidean_division_equations; lia).
  rewrite (u32_small high) by done.
  assert (Hred : exists res rem, n = res * base + rem /\ 0 <= res /\ 0 <= rem < 2 ^ 64 /\
    (if base <=? high then
       let high := high / base in
       (u64 (Z.shiftl high 32), u64 (n - u64 (Z.shiftl (u32 (high * base)) 32)))
     else (0, n)) = (res, rem)).
  { destruct (Z.leb_spec base high); [|exists 0, n; split_and!; (lia || done)].
    assert (Hq : 0 <= high / base) by (apply Z.div_pos; lia).
    pose proof (Z.mul_div_le high base ltac:(lia)).
    assert (high * 2 ^ 32 <= n) by (rewrite Hhigh; Z.to_euclidean_division_equations; lia).
    exists (high / base * 2 ^ 32), (n - high / base * base * 2 ^ 32).
    cbv zeta. rewrite (u32_small (high / base * base)), !Z.shiftl_mul_pow2 by lia.
    set (q := high / base) in *.
    assert (0 <= q * base * 2 ^ 32 <= n) by nia.
    assert (q <= q * base) by nia.
    rewrite (u64_small (q * 2 ^ 32)), (u64_small (q * base * 2 ^ 32)), u64_small by lia.
    split_and!; (lia || done). }
  cbv zeta in Hred. destruct Hred as (res & rem & Heq & Hres & Hrem & ->).
  destruct (scale_spec base rem 64 div_fuel 1) as (d & Hs & (j & Hj & ->) & Hd & Hlt);
    try (unfold div_fuel; lia).
  { by exists 0. }
  rewrite Z.mul_1_r in Hs. rewrite Hs. cbn [mbind option_bind].
  assert (Hj64 : j < 64).
  { apply Z.nle_gt. intros Hge. assert (2 ^ 64 <= 2 ^ j) by (apply Z.pow_le_mono_r; lia). nia. }
  replace (2 ^ j) with (2 ^ Z.of_nat (Z.to_nat j)) in * by (f_equal; lia).
  rewrite (subtract_spec base n) by (unfold div_fuel; lia).
  cbn [mbind option_bind]. pose proof (Z.mod_pos_bound n base ltac:(lia)).
  by rewrite u32_small by lia.
Qed.

Lemma do_div_spec n base :
  0 <= n < 2 ^ 64 -> 0 < base < 2 ^ 32 -> do_div n base = Some (n / base, n mod base).
Proof.
  intros Hn Hb. unfold do_div. destruct (Z.eqb_spec (Z.shiftr n 32) 0) as [H|H].
  - rewrite Z.shiftr_div_pow2 in H by lia. apply Z.div_small_iff in H; [|lia].
    by rewrite !u32_small by lia.
  - by apply div64_32_spec.
Qed.

(** [do_div] terminates and divides: for every 64-bit dividend and every
    non-zero 32-bit divisor it gives the exact quotient and remainder, with
    no intermediate overflow. *)
Theorem do_div_correct n base :
  0 <= n < 2 ^ 64 -> 0 < base < 2 ^ 32 ->
  exists q r, do_div n base = Some (q, r) /\ n = q * base + r /\ 0 <= r < base /\ 0 <= q < 2 ^ 64.
Proof.
  intros Hn Hb. exists (n / base), (n mod base). split; [by apply do_div_spec|].
  pose proof (Z.div_mod n base ltac:(lia)). pose proof (Z.mod_pos_bound n base ltac:(lia)).
  pose proof (Z.div_pos n base ltac:(lia) ltac:(lia)). split_and!; (lia || nia).
Qed.

Lemma do_div_correct_witness :
  do_div 0xfedcba9876543210 100000 = Some (183647585444930, 64720) /\
  exists q r, do_div 0xfedcba9876543210 100000 = Some (q, r) /\
    0xfedcba9876543210 = q * 100000 + r /\ 0 <= r < 100000 /\ 0 <= q < 2 ^ 64.
Proof.
  split; [vm_compute; reflexivity|].
  apply (do_div_correct 0xfedcba9876543210 100000); lia.
Defined.
