(* ===== verification/Vsprintf.v ===== *)
(** Number parsing and formatting: [lib_generic/vsprintf.c], with the two
    address parsers built on it, [string_to_ip] ([lib_generic/net_utils.c]) and
    [eth_parse_enetaddr] ([net/eth.c]).

    A string is the list of its characters, without the terminating NUL: [rd s 0]
    is the character at the pointer, and 0 at the end.  A pointer into a string
    is the suffix it points to.  Output goes to a list that grows at the end.
    [unsigned long] and [int] are 32 bits wide, [NUM_TYPE] is 64. *)

From S2P Require Import Prelude CString Div64.

(** ** Parsing numbers *)

Definition digit_value (c : Z) : Z :=
  if isdigit c then c - 48 else (if islower c then toupper c else c) - 65 + 10.

(** The prefix of a number: skips ["0"] or ["0x"] and settles the base. *)
Definition strtoul_prefix (cp : list Z) (base : Z) : list Z * Z :=
  let '(cp, base) :=
    if rd cp 0 =? 48 then
      let cp := tl cp in
      let '(cp, base) :=
        if (rd cp 0 =? 120) && isxdigit (rd cp 1) then (tl cp, 16) else (cp, base) in
      (cp, if base =? 0 then 8 else base)
    else (cp, base) in
  (cp, if base =? 0 then 10 else base).

(** The digit loop, for a result of [w] bits. *)
Fixpoint strtoul_loop (w : Z) (cp : list Z) (base result : Z) : Z * list Z :=
  match cp with
  | [] => (result, [])
  | c :: cp' =>
    if isxdigit c && (digit_value c <? base)
    then strtoul_loop w cp' base ((result * base + digit_value c) mod 2 ^ w)
    else (result, cp)
  end.

(** The result and [*endp]. *)
Definition simple_strtoul (cp : list Z) (base : Z) : Z * list Z :=
  let '(cp, base) := strtoul_prefix cp base in strtoul_loop 32 cp base 0.

Definition simple_strtoull (cp : list Z) (base : Z) : Z * list Z :=
  let '(cp, base) := strtoul_prefix cp base in strtoul_loop 64 cp base 0.

Definition simple_strtol (cp : list Z) (base : Z) : Z * list Z :=
  if rd cp 0 =? 45 then
    let '(r, e) := simple_strtoul (tl cp) base in (s32 (- r), e)
  else let '(r, e) := simple_strtoul cp base in (s32 r, e).

Definition ustrtoul (cp : list Z) (base : Z) : Z * list Z :=
  let '(result, endp) := simple_strtoul cp base in
  let c := rd endp 0 in
  if (c =? 71) || (c =? 77) || (c =? 75) || (c =? 107) then
    let result := if c =? 71 then u32 (result * 1024) else result in
    let result := if (c =? 71) || (c =? 77) then u32 (result * 1024) else result in
    let result := u32 (result * 1024) in
    let endp :=
      if rd endp 1 =? 105 then
        if rd endp 2 =? 66 then skipn 3 endp else skipn 2 endp
      else endp in
    (s32 result, endp)
  else (s32 result, endp).

Definition is_digit (c : Z) : bool := (48 <=? c) && (c <=? 57).

Fixpoint skip_atoi_loop (s : list Z) (i : Z) : Z * list Z :=
  match s with
  | [] => (i, [])
  | c :: s' => if is_digit c then skip_atoi_loop s' (s32 (i * 10 + c - 48)) else (i, s)
  end.

Definition skip_atoi (s : list Z) : Z * list Z := skip_atoi_loop s 0.

(** ** Decimal digits *)

(** The digits it stores, least significant first. *)
Definition put_dec_trunc (q : Z) : list Z :=
  let d1 := Z.land (Z.shiftr q 4) 0xf in
  let d2 := Z.land (Z.shiftr q 8) 0xf in
  let d3 := Z.shiftr q 12 in
  let d0 := u32 (6 * (d3 + d2 + d1) + Z.land q 0xf) in
  let q := Z.shiftr (u32 (d0 * 0xcd)) 11 in
  let d0 := u32 (d0 - 10 * q) in
  let d1 := u32 (q + 9 * d3 + 5 * d2 + d1) in
  u8 (d0 + 48) ::
  (if negb (d1 =? 0) then
     let q := Z.shiftr (u32 (d1 * 0xcd)) 11 in
     let d1 := u32 (d1 - 10 * q) in
     let d2 := u32 (q + 2 * d2) in
     u8 (d1 + 48) ::
     (if negb (d2 =? 0) || negb (d3 =? 0) then
        let q := Z.shiftr (u32 (d2 * 0xd)) 7 in
        let d2 := u32 (d2 - 10 * q) in
        let d3 := u32 (q + 4 * d3) in
        u8 (d2 + 48) ::
        (if negb (d3 =? 0) then
           let q := Z.shiftr (u32 (d3 * 0xcd)) 11 in
           let d3 := u32 (d3 - 10 * q) in
           u8 (d3 + 48) :: (if negb (q =? 0) then [u8 (q + 48)] else [])
         else [])
      else [])
   else []).

(** Always five digits. *)
Definition put_dec_full (q : Z) : list Z :=
  let d1 := Z.land (Z.shiftr q 4) 0xf in
  let d2 := Z.land (Z.shiftr q 8) 0xf in
  let d3 := Z.shiftr q 12 in
  let d0 := u32 (6 * (d3 + d2 + d1) + Z.land q 0xf) in
  let q := Z.shiftr (u32 (d0 * 0xcd)) 11 in
  let d0 := u32 (d0 - 10 * q) in
  let d1 := u32 (q + 9 * d3 + 5 * d2 + d1) in
  let q := Z.shiftr (u32 (d1 * 0xcd)) 11 in
  let d1 := u32 (d1 - 10 * q) in
  let d2 := u32 (q + 2 * d2) in
  let q := Z.shiftr (u32 (d2 * 0xd)) 7 in
  let d2 := u32 (d2 - 10 * q) in
  let d3 := u32 (q + 4 * d3) in
  let q := Z.shiftr (u32 (d3 * 0xcd)) 11 in
  let d3 := u32 (d3 - 10 * q) in
  [u8 (d0 + 48); u8 (d1 + 48); u8 (d2 + 48); u8 (d3 + 48); u8 (q + 48)].

Fixpoint put_dec (fuel : nat) (num : Z) : option (list Z) :=
  match fuel with
  | O => None
  | S fuel =>
    if num <? 100000 then Some (put_dec_trunc num)
    else
      '(num, rem) ← do_div num 100000;
      l ← put_dec fuel num; Some (put_dec_full rem ++ l)
  end.

(** ** Fields *)

Definition ZEROPAD : Z := 1.
Definition SIGN : Z := 2.
Definition PLUS : Z := 4.
Definition SPACE : Z := 8.
Definition LEFT : Z := 16.
Definition SMALL : Z := 32.
Definition SPECIAL : Z := 64.

Definition has (type flag : Z) : bool := negb (Z.land type flag =? 0).

(** [static const char digits[16]] of [number]. *)
Definition digits : list Z :=
  [48; 49; 50; 51; 52; 53; 54; 55; 56; 57; 65; 66; 67; 68; 69; 70].

(** The loop for base 8 and 16: a character per [shift] bits, least significant
    first, until nothing is left. *)
Fixpoint pow2_digits (fuel : nat) (num mask shift locase : Z) : option (list Z) :=
  match fuel with
  | O => None
  | S fuel =>
    let c := Z.lor (rd digits (Z.land (u8 num) mask)) locase in
    let num := Z.shiftr num shift in
    if num =? 0 then Some [c]
    else l ← pow2_digits fuel num mask shift locase; Some (c :: l)
  end.

(** [while (--size >= 0) *buf++ = c]: what it stores, and [size] afterwards. *)
Fixpoint pad_loop (n : nat) (c : Z) : list Z :=
  match n with O => [] | S n => c :: pad_loop n c end.

Definition pad (size c : Z) : list Z * Z :=
  (pad_loop (Z.to_nat size) c, Z.min (size - 1) (-1)).

(** Digits of a 64-bit number: at most 22 characters in base 8, five rounds of five
    in base 10. *)
Definition number_fuel : nat := 23.

Definition number (num base size precision type : Z) : option (list Z) :=
  let need_pfx := has type SPECIAL && negb (base =? 10) in
  let locase := Z.land type SMALL in
  let type := if has type LEFT then Z.ldiff type ZEROPAD else type in
  let '(sign, num, size) :=
    if has type SIGN then
      if s64 num <? 0 then (45, u64 (- s64 num), size - 1)
      else if has type PLUS then (43, num, size - 1)
      else if has type SPACE then (32, num, size - 1)
      else (0, num, size)
    else (0, num, size) in
  let size :=
    if need_pfx then (if base =? 16 then size - 1 - 1 else size - 1) else size in
  tmp ←
    (if num =? 0 then Some [48]
     else if negb (base =? 10) then
       let mask := base - 1 in
       let shift := if base =? 16 then 4 else 3 in
       pow2_digits number_fuel num mask shift locase
     else put_dec number_fuel num);
  let i := Z.of_nat (length tmp) in
  let precision := if precision <? i then i else precision in
  let size := size - precision in
  let '(lead, size) :=
    if negb (has type (ZEROPAD + LEFT)) then pad size 32 else ([], size) in
  let sign := if negb (sign =? 0) then [sign] else [] in
  let pfx :=
    if need_pfx then 48 :: (if base =? 16 then [Z.lor 88 locase] else []) else [] in
  let '(fill, size) :=
    if negb (has type LEFT) then pad size (if has type ZEROPAD then 48 else 32)
    else ([], size) in
  let zeros := pad_loop (Z.to_nat (precision - i)) 48 in
  let '(trail, _) := pad size 32 in
  Some (lead ++ sign ++ pfx ++ fill ++ zeros ++ rev tmp ++ trail).

(** [while (len < field_width--)] before and after the text: the first loop leaves
    [field_width] below [len]. *)
Definition string (s : option (list Z)) (field_width precision flags : Z) : list Z :=
  let s := match s with Some s => s | None => [60; 78; 85; 76; 76; 62] end in
  let len := Z.min (Z.of_nat (length s)) (u32 precision) in
  let fill := pad_loop (Z.to_nat (field_width - len)) 32 in
  if negb (has flags LEFT) then fill ++ firstn (Z.to_nat len) s
  else firstn (Z.to_nat len) s ++ fill.

(** ** Addresses *)

Definition hex_asc : list Z :=
  [48; 49; 50; 51; 52; 53; 54; 55; 56; 57; 97; 98; 99; 100; 101; 102].

Definition pack_hex_byte (byte : Z) : list Z :=
  [rd hex_asc (Z.shiftr (Z.land byte 0xf0) 4); rd hex_asc (Z.land byte 0x0f)].

(** The bytes from [i] on, of [n] in all, with [sep] after each but the last. *)
Fixpoint hex_bytes (addr : list Z) (sep : list Z) (i n : nat) : list Z :=
  match n with
  | O => []
  | S n =>
    pack_hex_byte (rd addr (Z.of_nat i)) ++ (match n with O => [] | S _ => sep end) ++
    hex_bytes addr sep (S i) n
  end.

Definition mac_address_string (addr : list Z) (field_width precision flags : Z) : list Z :=
  let sep := if negb (has flags SPECIAL) then [58] else [] in
  string (Some (hex_bytes addr sep 0 6)) field_width precision (Z.ldiff flags SPECIAL).

Fixpoint hex_words (addr : list Z) (sep : list Z) (i n : nat) : list Z :=
  match n with
  | O => []
  | S n =>
    pack_hex_byte (rd addr (2 * Z.of_nat i)) ++ pack_hex_byte (rd addr (2 * Z.of_nat i + 1)) ++
    (match n with O => [] | S _ => sep end) ++ hex_words addr sep (S i) n
  end.

Definition ip6_addr_string (addr : list Z) (field_width precision flags : Z) : list Z :=
  let sep := if negb (has flags SPECIAL) then [58] else [] in
  string (Some (hex_words addr sep 0 8)) field_width precision (Z.ldiff flags SPECIAL).

(** The quads from [i] on, of [n] in all, the digits turned round. *)
Fixpoint quads (addr : list Z) (i n : nat) : list Z :=
  match n with
  | O => []
  | S n =>
    rev (put_dec_trunc (rd addr (Z.of_nat i))) ++ (match n with O => [] | S _ => [46] end) ++
    quads addr (S i) n
  end.

Definition ip4_addr_string (addr : list Z) (field_width precision flags : Z) : list Z :=
  string (Some (quads addr 0 4)) field_width precision (Z.ldiff flags SPECIAL).

(** [%p]: [ptr] is the pointer and [bytes] what it points to; [fmt] is the format
    from the character after the [p] on.  [CONFIG_CMD_NET] is set. *)
Definition pointer (fmt : list Z) (ptr : Z) (bytes : list Z)
    (field_width precision flags : Z) : option (list Z) :=
  if ptr =? 0 then Some (string (Some [40; 110; 117; 108; 108; 41]) field_width precision flags)
  else
    let plain (flags : Z) :=
      let flags := Z.lor flags SMALL in
      let '(field_width, flags) :=
        if field_width =? -1 then (2 * 4, Z.lor flags ZEROPAD) else (field_width, flags) in
      number ptr 16 field_width precision flags in
    let c := rd fmt 0 in
    if (c =? 109) || (c =? 77) then
      let flags := if c =? 109 then Z.lor flags SPECIAL else flags in
      Some (mac_address_string bytes field_width precision flags)
    else if (c =? 105) || (c =? 73) then
      let flags := if c =? 105 then Z.lor flags SPECIAL else flags in
      if rd fmt 1 =? 54 then Some (ip6_addr_string bytes field_width precision flags)
      else if rd fmt 1 =? 52 then Some (ip4_addr_string bytes field_width precision flags)
      else plain (Z.ldiff flags SPECIAL)
    else plain flags.

(** ** The format interpreter *)

(** A variadic argument: an integer of up to 64 bits, a string (or null), a
    pointer with the bytes behind it. *)
Inductive arg : Type :=
  | AInt (v : Z)
  | AStr (s : option (list Z))
  | APtr (p : Z) (bytes : list Z).

(** What the interpreter has done so far: the output, the arguments left, and
    the stores of [%n] (address and value). *)
Record vstate : Type := VState { out : list Z; args : list arg; stores : list (Z * Z) }.

Definition emit (l : list Z) (s : vstate) : vstate :=
  VState (out s ++ l) (args s) (stores s).

(** [va_arg]; [None] when the next argument is missing or has another type. *)
Definition va_int (s : vstate) : option (Z * vstate) :=
  match args s with AInt v :: l => Some (v, VState (out s) l (stores s)) | _ => None end.

Definition va_str (s : vstate) : option (option (list Z) * vstate) :=
  match args s with AStr v :: l => Some (v, VState (out s) l (stores s)) | _ => None end.

Definition va_ptr (s : vstate) : option (Z * list Z * vstate) :=
  match args s with APtr p b :: l => Some (p, b, VState (out s) l (stores s)) | _ => None end.

(** The [repeat:] loop; [fmt] starts after the [%]. *)
Fixpoint parse_flags (fmt : list Z) (flags : Z) : list Z * Z :=
  match fmt with
  | [] => ([], flags)
  | c :: fmt' =>
    if c =? 45 then parse_flags fmt' (Z.lor flags LEFT)
    else if c =? 43 then parse_flags fmt' (Z.lor flags PLUS)
    else if c =? 32 then parse_flags fmt' (Z.lor flags SPACE)
    else if c =? 35 then parse_flags fmt' (Z.lor flags SPECIAL)
    else if c =? 48 then parse_flags fmt' (Z.lor flags ZEROPAD)
    else (fmt, flags)
  end.

Definition parse_width (fmt : list Z) (flags : Z) (s : vstate)
    : option (list Z * Z * Z * vstate) :=
  if is_digit (rd fmt 0) then
    let '(w, fmt) := skip_atoi fmt in Some (fmt, w, flags, s)
  else if rd fmt 0 =? 42 then
    '(w, s) ← va_int s;
    let w := s32 w in
    if w <? 0 then Some (tl fmt, s32 (- w), Z.lor flags LEFT, s) else Some (tl fmt, w, flags, s)
  else Some (fmt, -1, flags, s).

Definition parse_precision (fmt : list Z) (s : vstate) : option (list Z * Z * vstate) :=
  if rd fmt 0 =? 46 then
    let fmt := tl fmt in
    '(fmt, p, s) ←
      (if is_digit (rd fmt 0) then
         let '(p, fmt) := skip_atoi fmt in Some (fmt, p, s)
       else if rd fmt 0 =? 42 then
         '(p, s) ← va_int s; Some (tl fmt, s32 p, s)
       else Some (fmt, -1, s));
    Some (fmt, (if p <? 0 then 0 else p), s)
  else Some (fmt, -1, s).

Definition parse_qualifier (fmt : list Z) : list Z * Z :=
  let c := rd fmt 0 in
  if (c =? 104) || (c =? 108) || (c =? 76) || (c =? 90) || (c =? 122) || (c =? 116) then
    let fmt := tl fmt in
    if (c =? 108) && (rd fmt 0 =? 108) then (tl fmt, 76) else (fmt, c)
  else (fmt, -1).

(** The argument of an integer conversion, extended to [NUM_TYPE]. *)
Definition fetch_num (qualifier flags v : Z) : Z :=
  if qualifier =? 76 then u64 v
  else if qualifier =? 108 then if has flags SIGN then u64 (s32 v) else u32 v
  else if (qualifier =? 90) || (qualifier =? 122) then u32 v
  else if qualifier =? 116 then u64 (s32 v)
  else if qualifier =? 104 then if has flags SIGN then u64 (signed 16 v) else u16 v
  else if has flags SIGN then u64 (s32 v) else u32 v.

(** [while (isalnum(fmt[1])) fmt++], for [fmt] after the [p]. *)
Fixpoint skip_alnum (fmt : list Z) : list Z :=
  match fmt with
  | c :: fmt' => if isalnum c then skip_alnum fmt' else fmt
  | [] => []
  end.

Definition print_integer (c qualifier field_width precision flags : Z) (s : vstate)
    : option vstate :=
  let flags := if c =? 120 then Z.lor flags SMALL
               else if (c =? 100) || (c =? 105) then Z.lor flags SIGN else flags in
  let base := if c =? 111 then 8 else if (c =? 120) || (c =? 88) then 16 else 10 in
  '(v, s) ← va_int s;
  l ← number (fetch_num qualifier flags v) base field_width precision flags;
  Some (emit l s).

Definition print_char (field_width flags : Z) (s : vstate) : option vstate :=
  '(v, s) ← va_int s;
  let fill := pad_loop (Z.to_nat (field_width - 1)) 32 in
  Some (emit (if negb (has flags LEFT) then fill ++ [u8 v] else [u8 v] ++ fill) s).

(** The conversion character [c] and the format [fmt] after it.  The result is the
    state and the format from where the loop goes on. *)
Definition convert (c : Z) (fmt : list Z) (qualifier field_width precision flags : Z)
    (s : vstate) : option (vstate * list Z) :=
  if c =? 99 then
    s ← print_char field_width flags s; Some (s, fmt)
  else if c =? 115 then
    '(v, s) ← va_str s; Some (emit (string v field_width precision flags) s, fmt)
  else if c =? 112 then
    '(p, b, s) ← va_ptr s;
    l ← pointer fmt p b field_width precision flags;
    Some (emit l s, skip_alnum fmt)
  else if c =? 110 then
    '(p, _, s) ← va_ptr s;
    Some (VState (out s) (args s) (stores s ++ [(p, Z.of_nat (length (out s)))]), fmt)
  else if c =? 37 then Some (emit [37] s, fmt)
  else if (c =? 111) || (c =? 120) || (c =? 88) || (c =? 100) || (c =? 105) || (c =? 117) then
    s ← print_integer c qualifier field_width precision flags s; Some (s, fmt)
  else Some (emit (if negb (c =? 0) then [37; c] else [37]) s, fmt).

(** One conversion specification, after its [%]. *)
Definition directive (fmt : list Z) (s : vstate) : option (vstate * list Z) :=
  let '(fmt, flags) := parse_flags fmt 0 in
  '(fmt, field_width, flags, s) ← parse_width fmt flags s;
  '(fmt, precision, s) ← parse_precision fmt s;
  let '(fmt, qualifier) := parse_qualifier fmt in
  convert (rd fmt 0) (tl fmt) qualifier field_width precision flags s.

(** The main loop: every round consumes a character of the format at least. *)
Fixpoint format (fuel : nat) (fmt : list Z) (s : vstate) : option vstate :=
  match fuel with
  | O => None
  | S fuel =>
    match fmt with
    | [] => Some s
    | c :: fmt =>
      if negb (c =? 37) then format fuel fmt (emit [c] s)
      else '(s, fmt) ← directive fmt s; format fuel fmt s
    end
  end.

(** The buffer (with its NUL), the stores of [%n] and the result. *)
Definition vsprintf (fmt : list Z) (l : list arg) : option (list Z * list (Z * Z) * Z) :=
  s ← format (S (length fmt)) fmt (VState [] l []);
  Some (out s ++ [0], stores s, Z.of_nat (length (out s))).

(** [printf]: the text that goes to the console, without the NUL. *)
Definition printf (fmt : list Z) (l : list arg) : option (list Z) :=
  s ← format (S (length fmt)) fmt (VState [] l []); Some (out s).

(** ** The address parsers *)

Fixpoint string_to_ip_loop (n : nat) (s : list Z) (addr : Z) : Z :=
  match n with
  | O => addr
  | S n =>
    let '(val, e) := simple_strtoul s 10 in
    let addr := u32 (Z.shiftl addr 8) in
    let addr := Z.lor addr (Z.land val 0xff) in
    string_to_ip_loop n (match e with [] => e | _ :: e' => e' end) addr
  end.

(** The address in host order, before the final [htonl]; a null pointer is [None]. *)
Definition string_to_ip (s : option (list Z)) : Z :=
  match s with None => 0 | Some s => string_to_ip_loop 4 s 0 end.

Fixpoint eth_parse_loop (n : nat) (addr : option (list Z)) : list Z :=
  match n with
  | O => []
  | S n =>
    match addr with
    | None => 0 :: eth_parse_loop n None
    | Some a =>
      let '(v, e) := simple_strtoul a 16 in
      u8 v :: eth_parse_loop n (Some (match e with [] => e | _ :: e' => e' end))
    end
  end.

Definition eth_parse_enetaddr (addr : option (list Z)) : list Z := eth_parse_loop 6 addr.

(** ** Numerals *)

(** The value of a digit string, most significant digit first. *)
Fixpoint hval (base acc : Z) (s : list Z) : Z :=
  match s with
  | [] => acc
  | c :: s => hval base (acc * base + digit_value c) s
  end.

Definition digit_ok (base c : Z) : Prop :=
  isxdigit c = true /\ 0 <= digit_value c < base.

(** [l] is the numeral of [n], least significant digit first, without leading
    zeros ([0] itself is one digit). *)
Definition numeral (base : Z) (l : list Z) (n : Z) : Prop :=
  Forall (digit_ok base) l /\ l <> [] /\ hval base 0 (rev l) = n /\
  (n <> 0 -> exists k c, l = k ++ [c] /\ digit_value c <> 0) /\ (n = 0 -> length l = 1%nat).

Lemma hval_app base acc s t : hval base acc (s ++ t) = hval base (hval base acc s) t.
Proof. revert acc. induction s as [|c s IH]; intros acc; simpl; [done|]. apply IH. Qed.

Lemma hval_snoc base acc s c : hval base acc (s ++ [c]) = hval base acc s * base + digit_value c.
Proof. by rewrite hval_app. Qed.

Lemma hval_nonneg base s acc :
  0 <= base -> 0 <= acc -> Forall (digit_ok base) s -> 0 <= hval base acc s.
Proof.
  intros Hb Hacc Hs. revert acc Hacc. induction Hs as [|c s [_ Hc] _ IH]; intros acc Hacc; simpl; [done|].
  apply IH. nia.
Qed.

(** The first digit, on its own. *)
Lemma hval_acc base acc s : 0 <= base ->
  hval base acc s = acc * base ^ Z.of_nat (length s) + hval base 0 s.
Proof.
  intros Hb. revert acc. induction s as [|c s IH]; intros acc; cbn [hval length]; [simpl; lia|].
  rewrite IH, (IH (0 * base + _)), Nat2Z.inj_succ, Z.pow_succ_r by lia. lia.
Qed.

Lemma hval_zeros base n s : hval base 0 (pad_loop n 48 ++ s) = hval base 0 s.
Proof. induction n as [|n IH]; [done|]. simpl. apply IH. Qed.

Lemma mod_step r base d w :
  0 <= w -> ((r mod 2 ^ w) * base + d) mod 2 ^ w = (r * base + d) mod 2 ^ w.
Proof. intros. by rewrite Zplus_mod, Zmult_mod_idemp_l, <- Zplus_mod. Qed.

(** Where the digit loop stops. *)
Definition stops (base : Z) (rest : list Z) : Prop :=
  isxdigit (rd rest 0) && (digit_value (rd rest 0) <? base) = false.

Lemma strtoul_loop_spec w base s rest r :
  0 <= w -> Forall (digit_ok base) s -> stops base rest ->
  strtoul_loop w (s ++ rest) base (r mod 2 ^ w) = (hval base r s mod 2 ^ w, rest).
Proof.
  intros Hw Hs Hrest. revert r. induction Hs as [|c s [Hx Hc] _ IH]; intros r.
  - destruct rest as [|c rest]; [done|]. unfold stops, rd in Hrest. simpl in *.
    by rewrite Hrest.
  - cbn [app strtoul_loop hval]. rewrite Hx, (proj2 (Z.ltb_lt _ _)) by lia. cbn [andb].
    rewrite mod_step by done. apply IH.
Qed.

Lemma strtoul_loop0 w base s rest :
  0 <= w -> Forall (digit_ok base) s -> stops base rest ->
  strtoul_loop w (s ++ rest) base 0 = (hval base 0 s mod 2 ^ w, rest).
Proof.
  intros Hw Hs Hr. pose proof (strtoul_loop_spec w base s rest 0 Hw Hs Hr) as H.
  by rewrite Z.mod_0_l in H by lia.
Qed.

Definition strtoul_w (w : Z) (cp : list Z) (base : Z) : Z * list Z :=
  let '(cp, base) := strtoul_prefix cp base in strtoul_loop w cp base 0.

Lemma simple_strtoul_w cp base : simple_strtoul cp base = strtoul_w 32 cp base.
Proof. done. Qed.

(** Parsing the digits of a base gives their value, and stops after them. *)
Lemma strtoul_digits w base s rest :
  0 <= w -> 2 <= base -> s <> [] -> Forall (digit_ok base) s ->
  stops base rest -> rd rest 0 <> 120 ->
  strtoul_w w (s ++ rest) base = (hval base 0 s mod 2 ^ w, rest).
Proof.
  intros Hw Hb Hne Hs Hrest Hx. destruct Hs as [|c s Hc Hs]; [done|].
  unfold strtoul_w, strtoul_prefix. cbv zeta. change (rd ((c :: s) ++ rest) 0) with c.
  destruct (Z.eqb_spec c 48) as [->|Hc48].
  - assert (H120 : (rd (tl ((48 :: s) ++ rest)) 0 =? 120) = false).
    { cbn [app tl]. destruct Hs as [|d s [Hd _] _].
      - simpl app. lia.
      - change (rd _ 0) with d. destruct (Z.eqb_spec d 120) as [->|]; [done|lia]. }
    rewrite H120. cbn [andb app tl]. rewrite !(proj2 (Z.eqb_neq base 0)) by lia.
    replace (hval base 0 (48 :: s)) with (hval base 0 s) by done. by apply strtoul_loop0.
  - rewrite (proj2 (Z.eqb_neq base 0)) by lia.
    apply (strtoul_loop0 w base (c :: s)); [done| |done]. by constructor.
Qed.

(** ** Decimal digits *)

Lemma tenth d : 0 <= d < 1000 -> Z.shiftr (u32 (d * 0xcd)) 11 = d / 10.
Proof.
  intros Hd. rewrite u32_small, Z.shiftr_div_pow2 by lia. change (2 ^ 11) with 2048.
  Z.to_euclidean_division_equations. lia.
Qed.

Lemma tenth_small d : 0 <= d < 69 -> Z.shiftr (u32 (d * 0xd)) 7 = d / 10.
Proof.
  intros Hd. rewrite u32_small, Z.shiftr_div_pow2 by lia. change (2 ^ 7) with 128.
  Z.to_euclidean_division_equations. lia.
Qed.

Lemma tenth_rest d : 0 <= d < 2 ^ 32 -> u32 (d - 10 * (d / 10)) = d mod 10.
Proof. intros Hd. rewrite u32_small; Z.to_euclidean_division_equations; lia. Qed.

(** The character of a decimal digit. *)
Lemma dec_digit_ok d : 0 <= d < 10 -> digit_ok 10 (u8 (d + 48)) /\ digit_value (u8 (d + 48)) = d.
Proof.
  intros Hd. assert (H : forallb (fun d => isxdigit (u8 (d + 48)) &&
    (digit_value (u8 (d + 48)) =? d)) (seqZ 0 10) = true) by (vm_compute; reflexivity).
  pose proof (forallb_seqZ _ 10 d H Hd) as Hd'. cbv beta in Hd'.
  apply andb_true_iff in Hd' as [Hx Hv]. apply Z.eqb_eq in Hv.
  unfold digit_ok. rewrite Hv. split_and!; (done || lia).
Qed.

(** The carries of the two routines, for the nibbles of a number. *)
Record carries (q x0 x1 x2 x3 : Z) : Prop := {
  car_0 : 0 <= x0 < 1000;
  car_1 : 0 <= x1 < 1000;
  car_2 : 0 <= x2 < 69;
  car_3 : 0 <= x3 < 1000;
  car_4 : 0 <= x3 / 10 < 10;
  car_val : q = x0 mod 10 + 10 * (x1 mod 10) + 100 * (x2 mod 10) + 1000 * (x3 mod 10)
                + 10000 * (x3 / 10) }.

Lemma nibble_carries q :
  0 <= q < 100000 ->
  let d1 := Z.land (Z.shiftr q 4) 0xf in
  let d2 := Z.land (Z.shiftr q 8) 0xf in
  let d3 := Z.shiftr q 12 in
  let x0 := 6 * (d3 + d2 + d1) + Z.land q 0xf in
  let x1 := x0 / 10 + 9 * d3 + 5 * d2 + d1 in
  let x2 := x1 / 10 + 2 * d2 in
  let x3 := x2 / 10 + 4 * d3 in
  0 <= d1 /\ 0 <= d2 /\ 0 <= d3 /\ carries q x0 x1 x2 x3.
Proof.
  intros Hq d1 d2 d3. assert (Hd : exists lo, Z.land q 0xf = lo /\ 0 <= lo < 16 /\
    0 <= d1 < 16 /\ 0 <= d2 < 16 /\ 0 <= d3 < 25 /\
    q = 4096 * d3 + 256 * d2 + 16 * d1 + lo).
  { unfold d1, d2, d3. rewrite !(land_mask _ 4 0xf), !Z.shiftr_div_pow2 by lia.
    change (2 ^ 4) with 16. change (2 ^ 8) with 256. change (2 ^ 12) with 4096.
    exists (q mod 16). split; [done|]. Z.to_euclidean_division_equations. lia. }
  destruct Hd as (lo & -> & Hlo & H1 & H2 & H3 & Hv). clearbody d1 d2 d3.
  intros x0 x1 x2 x3. split_and!; [lia..|].
  assert (Hx0 : 0 <= x0 < 340) by (unfold x0; lia).
  assert (Hx1 : 0 <= x1 < 340) by (unfold x1; Z.to_euclidean_division_equations; lia).
  assert (Hx2 : 0 <= x2 < 69) by (unfold x2; Z.to_euclidean_division_equations; lia).
  assert (Hx3 : 0 <= x3 < 120) by (unfold x3; Z.to_euclidean_division_equations; lia).
  assert (Hval : q = x0 mod 10 + 10 * (x1 mod 10) + 100 * (x2 mod 10) + 1000 * (x3 mod 10)
    + 10000 * (x3 / 10)).
  { pose proof (Z.div_mod x0 10 ltac:(lia)). pose proof (Z.div_mod x1 10 ltac:(lia)).
    pose proof (Z.div_mod x2 10 ltac:(lia)). pose proof (Z.div_mod x3 10 ltac:(lia)).
    assert (x0 = 6 * (d3 + d2 + d1) + lo) by done.
    assert (x1 = x0 / 10 + 9 * d3 + 5 * d2 + d1) by done.
    assert (x2 = x1 / 10 + 2 * d2) by done. assert (x3 = x2 / 10 + 4 * d3) by done.
    clearbody x0 x1 x2 x3. lia. }
  clearbody x0 x1 x2 x3. constructor; try lia. Z.to_euclidean_division_equations. lia.
Qed.

Definition dec_char (d : Z) : Z := u8 (d + 48).

(** Both routines in terms of the carries. *)
Lemma put_dec_carries q :
  0 <= q < 100000 ->
  exists d1 d2 d3 x0 x1 x2 x3, carries q x0 x1 x2 x3 /\ 0 <= d1 /\ 0 <= d2 /\ 0 <= d3 /\
  x1 = x0 / 10 + 9 * d3 + 5 * d2 + d1 /\ x2 = x1 / 10 + 2 * d2 /\ x3 = x2 / 10 + 4 * d3 /\
  put_dec_full q = map dec_char [x0 mod 10; x1 mod 10; x2 mod 10; x3 mod 10; x3 / 10] /\
  put_dec_trunc q =
    dec_char (x0 mod 10) ::
    (if negb (x1 =? 0) then dec_char (x1 mod 10) ::
       (if negb (x2 =? 0) || negb (d3 =? 0) then dec_char (x2 mod 10) ::
          (if negb (x3 =? 0) then dec_char (x3 mod 10) ::
             (if negb (x3 / 10 =? 0) then [dec_char (x3 / 10)] else [])
           else [])
        else [])
     else []).
Proof.
  intros Hq. destruct (nibble_carries q Hq) as (H1 & H2 & H3 & Hc).
  unfold put_dec_full, put_dec_trunc. cbv zeta in Hc |- *.
  set (d1 := Z.land (Z.shiftr q 4) 0xf) in *. set (d2 := Z.land (Z.shiftr q 8) 0xf) in *.
  set (d3 := Z.shiftr q 12) in *. set (lo := Z.land q 0xf) in *.
  set (x0 := 6 * (d3 + d2 + d1) + lo) in *. set (x1 := x0 / 10 + 9 * d3 + 5 * d2 + d1) in *.
  set (x2 := x1 / 10 + 2 * d2) in *. set (x3 := x2 / 10 + 4 * d3) in *.
  destruct Hc as [C0 C1 C2 C3 C4 Cv]. exists d1, d2, d3, x0, x1, x2, x3.
  split; [by constructor|].
  rewrite (u32_small x0), (tenth x0), (tenth_rest x0) by lia.
  change (x0 / 10 + 9 * d3 + 5 * d2 + d1) with x1.
  rewrite (u32_small x1), (tenth x1), (tenth_rest x1) by lia.
  change (x1 / 10 + 2 * d2) with x2.
  rewrite (u32_small x2), (tenth_small x2), (tenth_rest x2) by lia.
  change (x2 / 10 + 4 * d3) with x3.
  by rewrite (u32_small x3), (tenth x3), (tenth_rest x3) by lia.
Qed.

Lemma dec_chars_ok l :
  Forall (fun d => 0 <= d < 10) l -> Forall (digit_ok 10) (map dec_char l).
Proof.
  intros Hl. induction Hl as [|d l Hd _ IH]; simpl; constructor; [|done].
  by apply dec_digit_ok.
Qed.

Lemma dec_char_value d : 0 <= d < 10 -> digit_value (dec_char d) = d.
Proof. intros. by apply dec_digit_ok. Qed.

Lemma put_dec_full_spec q :
  0 <= q < 100000 ->
  Forall (digit_ok 10) (put_dec_full q) /\ length (put_dec_full q) = 5%nat /\
  hval 10 0 (rev (put_dec_full q)) = q.
Proof.
  intros Hq. destruct (put_dec_carries q Hq) as
    (d1 & d2 & d3 & x0 & x1 & x2 & x3 & [C0 C1 C2 C3 C4 Cv] & _ & _ & _ & _ & _ & _ & -> & _).
  pose proof (Z.mod_pos_bound x0 10 ltac:(lia)). pose proof (Z.mod_pos_bound x1 10 ltac:(lia)).
  pose proof (Z.mod_pos_bound x2 10 ltac:(lia)). pose proof (Z.mod_pos_bound x3 10 ltac:(lia)).
  split_and!.
  - apply dec_chars_ok. repeat constructor; lia.
  - done.
  - cbn [map rev app hval]. rewrite !dec_char_value by lia. lia.
Qed.

Lemma numeral_dec l n :
  Forall (fun d => 0 <= d < 10) l -> l <> [] -> hval 10 0 (rev (map dec_char l)) = n ->
  (n <> 0 -> exists k d, l = k ++ [d] /\ d <> 0) -> (n = 0 -> length l = 1%nat) ->
  numeral 10 (map dec_char l) n.
Proof.
  intros Hl Hne Hv Hlast Hz. unfold numeral. split_and!.
  - by apply dec_chars_ok.
  - by destruct l.
  - done.
  - intros Hn. destruct (Hlast Hn) as (k & d & -> & Hd). exists (map dec_char k), (dec_char d).
    rewrite map_app. split; [done|]. rewrite dec_char_value; [done|].
    apply List.Forall_app in Hl as [_ Hl]. by inversion Hl.
  - intros Hn. by rewrite length_map, Hz.
Qed.

Lemma put_dec_trunc_spec q :
  0 <= q < 100000 -> numeral 10 (put_dec_trunc q) q /\ (length (put_dec_trunc q) <= 5)%nat.
Proof.
  intros Hq. destruct (put_dec_carries q Hq) as (d1 & d2 & d3 & x0 & x1 & x2 & x3 &
    [C0 C1 C2 C3 C4 Cv] & H1 & H2 & H3 & E1 & E2 & E3 & _ & ->).
  pose proof (Z.mod_pos_bound x0 10 ltac:(lia)). pose proof (Z.mod_pos_bound x1 10 ltac:(lia)).
  pose proof (Z.mod_pos_bound x2 10 ltac:(lia)). pose proof (Z.mod_pos_bound x3 10 ltac:(lia)).
  pose proof (Z.div_mod x0 10 ltac:(lia)). pose proof (Z.div_mod x1 10 ltac:(lia)).
  pose proof (Z.div_mod x2 10 ltac:(lia)). pose proof (Z.div_mod x3 10 ltac:(lia)).
  assert (0 <= x0 / 10 /\ 0 <= x1 / 10 /\ 0 <= x2 / 10)
    by (Z.to_euclidean_division_equations; lia).
  assert (Hcase : exists l, Forall (fun d => 0 <= d < 10) l /\ l <> [] /\ (length l <= 5)%nat /\
    hval 10 0 (rev (map dec_char l)) = q /\
    (q <> 0 -> exists k d, l = k ++ [d] /\ d <> 0) /\ (q = 0 -> length l = 1%nat) /\
    dec_char (x0 mod 10) ::
    (if negb (x1 =? 0) then dec_char (x1 mod 10) ::
       (if negb (x2 =? 0) || negb (d3 =? 0) then dec_char (x2 mod 10) ::
          (if negb (x3 =? 0) then dec_char (x3 mod 10) ::
             (if negb (x3 / 10 =? 0) then [dec_char (x3 / 10)] else [])
           else [])
        else [])
     else []) = map dec_char l).
  2: { destruct Hcase as (l & Hl & Hne & Hlen & Hv & Hlast & Hz & ->). rewrite length_map.
       split; [by apply numeral_dec|done]. }
  destruct (Z.eqb_spec x1 0) as [Z1|Z1]; cbn [negb].
  { exists [x0 mod 10]. split_and!; [repeat constructor; lia|done|simpl; lia| | |done|done].
    - cbn [map rev app hval]. rewrite dec_char_value; lia.
    - intros Hn. exists [], (x0 mod 10). split; [done|lia]. }
  destruct (Z.eqb_spec x2 0) as [Z2|Z2], (Z.eqb_spec d3 0) as [Z3|Z3]; cbn [negb orb].
  { exists [x0 mod 10; x1 mod 10].
    split_and!; [repeat constructor; lia|done|simpl; lia| | |lia|done].
    - cbn [map rev app hval]. rewrite !dec_char_value; lia.
    - intros Hn. exists [x0 mod 10], (x1 mod 10). split; [done|lia]. }
  all: destruct (Z.eqb_spec x3 0) as [Z4|Z4]; cbn [negb]; try lia.
  2: { exists [x0 mod 10; x1 mod 10; x2 mod 10].
    split_and!; [repeat constructor; lia|done|simpl; lia| | |lia|done].
    - cbn [map rev app hval]. rewrite !dec_char_value; lia.
    - intros Hn. exists [x0 mod 10; x1 mod 10], (x2 mod 10). split; [done|lia]. }
  all: destruct (Z.eqb_spec (x3 / 10) 0) as [Z5|Z5]; cbn [negb].
  all: try (exists [x0 mod 10; x1 mod 10; x2 mod 10; x3 mod 10];
    split_and!; [repeat constructor; lia|done|simpl; lia| | |lia|done];
    [cbn [map rev app hval]; rewrite !dec_char_value; lia
    |intros Hn; exists [x0 mod 10; x1 mod 10; x2 mod 10], (x3 mod 10); split; [done|lia]]).
  all: exists [x0 mod 10; x1 mod 10; x2 mod 10; x3 mod 10; x3 / 10];
    split_and!; [repeat constructor; lia|done|simpl; lia| | |lia|done];
    [cbn [map rev app hval]; rewrite !dec_char_value; lia
    |intros Hn; exists [x0 mod 10; x1 mod 10; x2 mod 10; x3 mod 10], (x3 / 10); split; [done|lia]].
Qed.

(** Low digits in front of a non-zero numeral. *)
Lemma numeral_push base f l r q :
  2 <= base -> Forall (digit_ok base) f -> hval base 0 (rev f) = r -> numeral base l q -> 0 < q ->
  numeral base (f ++ l) (q * base ^ Z.of_nat (length f) + r).
Proof.
  intros Hb Hf Hr (Hl & Hne & Hv & Hlast & _) Hq.
  assert (0 <= r) by (subst; apply hval_nonneg; [lia..|by apply Forall_rev]).
  assert (0 < base ^ Z.of_nat (length f)) by (apply Z.pow_pos_nonneg; lia).
  unfold numeral. split_and!.
  - by apply Forall_app.
  - by destruct f.
  - rewrite rev_app_distr, hval_app, Hv, hval_acc, length_rev, Hr by lia. lia.
  - intros _. destruct (Hlast ltac:(lia)) as (k & c & -> & Hc).
    exists (f ++ k), c. by rewrite app_assoc.
  - intros Hz. nia.
Qed.

Lemma numeral_value_nonneg base l n : 0 <= base -> numeral base l n -> 0 <= n.
Proof. intros Hb (Hl & _ & <- & _). apply hval_nonneg; [done..|by apply Forall_rev]. Qed.

(** A numeral has no more digits than its number needs. *)
Lemma numeral_length base l n k :
  2 <= base -> numeral base l n -> n < base ^ Z.of_nat k -> (1 <= k)%nat -> (length l <= k)%nat.
Proof.
  intros Hb Hn Hlt Hk. pose proof (numeral_value_nonneg base l n ltac:(lia) Hn).
  destruct Hn as (Hl & Hne & Hv & Hlast & Hz). destruct (decide (n = 0)) as [->|Hn0]; [lia|].
  destruct (Hlast Hn0) as (l' & c & -> & Hc). rewrite rev_app_distr in Hv. simpl in Hv.
  apply List.Forall_app in Hl as [Hl' Hc']. inversion Hc' as [|? ? [_ Hok] _]; subst.
  rewrite hval_acc, length_rev in Hlt by lia.
  assert (0 <= hval base 0 (rev l')) by (apply hval_nonneg; [lia..|by apply Forall_rev]).
  rewrite length_app. simpl. apply Nat.nlt_ge. intros Hgt.
  assert (base ^ Z.of_nat k <= base ^ Z.of_nat (length l')) by (apply Z.pow_le_mono_r; lia).
  nia.
Qed.

Lemma put_dec_spec k num fuel :
  0 <= num < 2 ^ 64 -> num < 100000 ^ Z.of_nat (S k) -> (k < fuel)%nat ->
  exists l, put_dec fuel num = Some l /\ numeral 10 l num.
Proof.
  revert num fuel. induction k as [|k IH]; intros num [|fuel] Hn Hk Hf; try lia; cbn [put_dec].
  - change (100000 ^ Z.of_nat 1) with 100000 in Hk. rewrite (proj2 (Z.ltb_lt _ _)) by lia.
    eexists. split; [done|]. apply put_dec_trunc_spec. lia.
  - destruct (Z.ltb_spec num 100000).
    + eexists. split; [done|]. apply put_dec_trunc_spec. lia.
    + rewrite do_div_spec by lia. cbn [mbind option_bind].
      rewrite (Nat2Z.inj_succ (S k)), Z.pow_succ_r in Hk by lia.
      destruct (IH (num / 100000) fuel) as (l & Hl & Hnum); [|apply Z.div_lt_upper_bound; lia|lia|].
      { Z.to_euclidean_division_equations. lia. }
      rewrite Hl. cbn [mbind option_bind]. eexists. split; [done|].
      pose proof (Z.div_mod num 100000 ltac:(lia)) as Hdm.
      pose proof (Z.mod_pos_bound num 100000 ltac:(lia)) as Hm.
      destruct (put_dec_full_spec (num mod 100000) Hm) as (Hok & Hlen & Hv).
      assert (0 < num / 100000) by (apply Z.div_str_pos; lia).
      pose proof (numeral_push 10 _ l _ _ ltac:(lia) Hok Hv Hnum ltac:(lia)) as Hp.
      rewrite Hlen in Hp. change (10 ^ Z.of_nat 5) with 100000 in Hp.
      by replace (num / 100000 * 100000 + num mod 100000) with num in Hp by lia.
Qed.

Definition shift_of (base : Z) : Z := if base =? 16 then 4 else 3.

Lemma digit_char_ok base d locase :
  base = 8 \/ base = 16 -> 0 <= d < base -> locase = 0 \/ locase = 32 ->
  digit_ok base (Z.lor (rd digits d) locase) /\ digit_value (Z.lor (rd digits d) locase) = d.
Proof.
  intros Hb Hd Hl.
  assert (H : forallb (fun d => forallb (fun lc => isxdigit (Z.lor (rd digits d) lc) &&
    (digit_value (Z.lor (rd digits d) lc) =? d)) [0; 32]) (seqZ 0 16) = true)
    by (vm_compute; reflexivity).
  pose proof (forallb_seqZ _ 16 d H ltac:(lia)) as Hd'. cbv beta in Hd'.
  rewrite forallb_forall in Hd'. specialize (Hd' locase).
  assert (Hin : In locase [0; 32]) by (simpl; lia). apply Hd' in Hin.
  apply andb_true_iff in Hin as [Hx Hv]. apply Z.eqb_eq in Hv.
  unfold digit_ok. rewrite Hv. split_and!; (done || lia).
Qed.

Lemma pow2_digits_spec base locase k num fuel :
  base = 8 \/ base = 16 -> locase = 0 \/ locase = 32 ->
  0 < num < base ^ Z.of_nat (S k) -> (k < fuel)%nat ->
  exists l, pow2_digits fuel num (base - 1) (shift_of base) locase = Some l /\ numeral base l num.
Proof.
  intros Hb Hloc. revert num fuel.
  assert (Hs : base = 2 ^ shift_of base /\ 0 < shift_of base <= 8)
    by (destruct Hb as [-> | ->]; done).
  assert (Hdig : forall num, 0 < num -> Z.land (u8 num) (base - 1) = num mod base).
  { intros num Hp. rewrite (land_mask _ (shift_of base)) by lia. unfold u8.
    destruct Hb as [-> | ->]; unfold shift_of; simpl; Z.to_euclidean_division_equations; lia. }
  induction k as [|k IH]; intros num [|fuel] Hn Hf; try lia; cbn [pow2_digits];
    rewrite Hdig, Z.shiftr_div_pow2, <- (proj1 Hs) by lia;
    pose proof (Z.mod_pos_bound num base ltac:(lia)) as Hm;
    pose proof (Z.div_mod num base ltac:(lia)) as Hdm;
    destruct (digit_char_ok base (num mod base) locase Hb Hm Hloc) as [Hok Hval];
    set (c := Z.lor _ locase) in *.
  all: assert (Hone : num / base = 0 -> numeral base [c] num);
    [intros H0; unfold numeral; split_and!; [by constructor|done| | |done];
      [simpl; lia|intros _; exists [], c; split; [done|lia]]|].
  - rewrite Z.pow_1_r in Hn. rewrite Z.div_small by lia. simpl. eexists. split; [done|].
    apply Hone, Z.div_small. lia.
  - destruct (Z.eqb_spec (num / base) 0) as [H0|H0]; [eauto|].
    assert (Hq : 0 < num / base) by (pose proof (Z.div_pos num base); lia).
    rewrite Nat2Z.inj_succ, Z.pow_succ_r in Hn by lia.
    destruct (IH (num / base) fuel) as (l & -> & Hl);
      [split; [done|apply Z.div_lt_upper_bound; lia]|lia|].
    cbn [mbind option_bind]. eexists. split; [done|].
    pose proof (numeral_push base [c] l (num mod base) (num / base)) as Hp.
    simpl length in Hp. rewrite Z.pow_1_r in Hp.
    replace (num / base * base + num mod base) with num in Hp by lia.
    apply Hp; [lia|by constructor|simpl; lia|done|done].
Qed.

(** The digits [number] generates, least significant first. *)
Definition num_digits (num base locase : Z) : option (list Z) :=
  if num =? 0 then Some [48]
  else if negb (base =? 10) then pow2_digits number_fuel num (base - 1) (shift_of base) locase
  else put_dec number_fuel num.

Lemma num_digits_spec num base locase :
  base = 8 \/ base = 10 \/ base = 16 -> locase = 0 \/ locase = 32 -> 0 <= num < 2 ^ 64 ->
  exists l, num_digits num base locase = Some l /\ numeral base l num /\ (length l <= 22)%nat.
Proof.
  intros Hb Hl Hn. unfold num_digits.
  destruct (Z.eqb_spec num 0) as [->|H0].
  { exists [48]. split_and!; [done| |simpl; lia]. unfold numeral.
    split_and!; try done.
    repeat constructor; destruct Hb as [-> |[-> | ->]]; vm_compute; congruence. }
  assert (Hlen : forall l, numeral base l num -> (length l <= 22)%nat).
  { intros l Hnl. apply (numeral_length base l num 22); [lia|done| |lia].
    apply Z.lt_le_trans with (2 ^ 64); [lia|].
    destruct Hb as [-> |[-> | ->]]; vm_compute; congruence. }
  destruct (Z.eqb_spec base 10) as [->|H10]; cbn [negb].
  - destruct (put_dec_spec 4 num number_fuel) as (l & Hd & Hnl); [lia|simpl; lia| |by eauto].
    unfold number_fuel. lia.
  - destruct (pow2_digits_spec base locase 21 num number_fuel) as (l & Hd & Hnl); [lia|done| | |by eauto].
    + split; [lia|]. apply Z.lt_le_trans with (2 ^ 64); [lia|].
      destruct Hb as [-> |[? | ->]]; [|lia|]; vm_compute; congruence.
    + unfold number_fuel. lia.
Qed.

(** ** Fields *)

Lemma pad_loop_repeat n c : pad_loop n c = repeat c n.
Proof. induction n as [|n IH]; simpl; by rewrite ?IH. Qed.

Lemma pad_loop_length n c : length (pad_loop n c) = n.
Proof. rewrite pad_loop_repeat. apply repeat_length. Qed.

Lemma locase_cases type : Z.land type SMALL = 0 \/ Z.land type SMALL = 32.
Proof.
  destruct (Z.testbit type 5) eqn:H; [right|left]; apply Z.bits_inj'; intros n Hn;
    rewrite Z.land_spec; unfold SMALL; change 32 with (2 ^ 5);
    rewrite Z.pow2_bits_eqb, ?Z.bits_0 by lia; destruct (Z.eqb_spec 5 n) as [<-|];
    rewrite ?H; simpl; done || apply andb_false_r.
Qed.

(** The sign character, the magnitude and the field width left after the sign. *)
Definition sign_of (type num size : Z) : Z * Z * Z :=
  if has type SIGN then
    if s64 num <? 0 then (45, u64 (- s64 num), size - 1)
    else if has type PLUS then (43, num, size - 1)
    else if has type SPACE then (32, num, size - 1)
    else (0, num, size)
  else (0, num, size).

(** The layout of [number]: given the magnitude's digits, the field is made of
    blanks, sign, prefix, fill, zeros, digits and blanks, in this order. *)
Definition layout (tmp : list Z) (sign base size precision type : Z) : list Z :=
  let need_pfx := has type SPECIAL && negb (base =? 10) in
  let zpad := has type ZEROPAD && negb (has type LEFT) in
  let size := if need_pfx then (if base =? 16 then size - 1 - 1 else size - 1) else size in
  let i := Z.of_nat (length tmp) in
  let precision := Z.max precision i in
  let room := repeat 32 (Z.to_nat (size - precision)) in
  (if zpad || has type LEFT then [] else room) ++
  (if sign =? 0 then [] else [sign]) ++
  (if need_pfx then 48 :: (if base =? 16 then [Z.lor 88 (Z.land type SMALL)] else []) else []) ++
  (if zpad then repeat 48 (Z.to_nat (size - precision)) else []) ++
  repeat 48 (Z.to_nat (precision - i)) ++ rev tmp ++
  (if has type LEFT then room else []).

Lemma has_ldiff_zeropad type :
  has (Z.ldiff type ZEROPAD) ZEROPAD = false /\
  has (Z.ldiff type ZEROPAD) LEFT = has type LEFT /\
  has (Z.ldiff type ZEROPAD) SIGN = has type SIGN /\
  has (Z.ldiff type ZEROPAD) PLUS = has type PLUS /\
  has (Z.ldiff type ZEROPAD) SPACE = has type SPACE.
Proof.
  assert (H : forall f, Z.land (Z.ldiff type ZEROPAD) f = Z.land type (Z.ldiff f ZEROPAD)).
  { intros f. apply Z.bits_inj'. intros n Hn. rewrite !Z.land_spec, !Z.ldiff_spec.
    by destruct (Z.testbit type n), (Z.testbit f n), (Z.testbit ZEROPAD n). }
  unfold has. rewrite !H. split_and!; try done. by rewrite Z.land_0_r.
Qed.

Lemma has_or type : has type (ZEROPAD + LEFT) = has type ZEROPAD || has type LEFT.
Proof.
  unfold has. change (ZEROPAD + LEFT) with (Z.lor ZEROPAD LEFT).
  rewrite Z.land_lor_distr_r.
  destruct (Z.eqb_spec (Z.land type ZEROPAD) 0) as [->|H1],
    (Z.eqb_spec (Z.land type LEFT) 0) as [->|H2]; simpl; try done;
    apply negb_true_iff, Z.eqb_neq; intros H; apply Z.lor_eq_0_iff in H; tauto.
Qed.

Lemma number_layout num base size precision type sign mag room tmp :
  base = 8 \/ base = 10 \/ base = 16 ->
  sign_of type num size = (sign, mag, room) ->
  num_digits mag base (Z.land type SMALL) = Some tmp ->
  number num base size precision type = Some (layout tmp sign base room precision type).
Proof.
  intros Hb Hs Ht. unfold number. cbv zeta.
  destruct (has_ldiff_zeropad type) as (HZ & HL & HS & HP & HSp).
  set (type' := if has type LEFT then Z.ldiff type ZEROPAD else type).
  assert (Hf : has type' SIGN = has type SIGN /\ has type' PLUS = has type PLUS /\
    has type' SPACE = has type SPACE /\ has type' LEFT = has type LEFT /\
    has type' ZEROPAD = has type ZEROPAD && negb (has type LEFT)).
  { unfold type'. destruct (has type LEFT) eqn:E; rewrite ?HZ, ?HL, ?HS, ?HP, ?HSp, ?E;
      by rewrite ?andb_false_r, ?andb_true_r. }
  destruct Hf as (F1 & F2 & F3 & F4 & F5). rewrite has_or, F1, F2, F3, F4, F5.
  fold (sign_of type num size). rewrite Hs. cbv beta iota zeta.
  fold (shift_of base). fold (num_digits mag base (Z.land type SMALL)).
  rewrite Ht. cbn [mbind option_bind]. unfold layout. cbv zeta.
  set (need := has type SPECIAL && negb (base =? 10)).
  set (sz := if need then _ else room). set (i := Z.of_nat (length tmp)).
  replace (if precision <? i then i else precision) with (Z.max precision i) by bdestruct.
  set (p := Z.max precision i). unfold pad. rewrite !pad_loop_repeat.
  assert (Hneg : forall x, Z.to_nat (Z.min x (-1)) = O) by lia.
  destruct (has type ZEROPAD), (has type LEFT), (Z.eqb_spec sign 0); cbn [andb orb negb];
    rewrite ?Hneg, ?pad_loop_repeat; cbn [repeat app]; by rewrite ?app_nil_r.
Qed.

(** for the bases it is used with, [number] terminates on every 64-bit number
    with every combination of flags, and the field is at least as wide as
    asked and at most three characters wider than the digits, precision and
    width need. *)
Theorem number_width num base size precision type :
  base = 8 \/ base = 10 \/ base = 16 -> 0 <= num < 2 ^ 64 ->
  exists l, number num base size precision type = Some l /\
    size <= Z.of_nat (length l) <= Z.max size (Z.max precision 22 + 3).
Proof.
  intros Hb Hn. destruct (sign_of type num size) as [[sign mag] room] eqn:Hs.
  assert (Hm : 0 <= mag < 2 ^ 64 /\ size - 1 <= room <= size /\
    room = size - Z.of_nat (length (if sign =? 0 then [] else [sign]))).
  { unfold sign_of in Hs. pose proof (u64_range (- s64 num)).
    repeat case_match; simplify_eq; simpl; lia. }
  destruct (num_digits_spec mag base (Z.land type SMALL)) as (tmp & Ht & _ & Hlen);
    [done|apply locase_cases|tauto|].
  exists (layout tmp sign base room precision type).
  split; [by eapply number_layout|]. destruct Hm as (_ & Hr1 & Hr2).
  unfold layout. cbv zeta. repeat rewrite ?length_app, ?length_rev, ?repeat_length.
  destruct (has type SPECIAL), (has type ZEROPAD), (has type LEFT), (Z.eqb_spec base 10),
    (Z.eqb_spec base 16), (Z.eqb_spec sign 0); cbn [andb orb negb length] in *;
    rewrite ?repeat_length; lia.
Qed.

(** ** Round trips *)

Lemma hval_repeat_zeros base n s : hval base 0 (repeat 48 n ++ s) = hval base 0 s.
Proof. induction n as [|n IH]; [done|]. simpl. apply IH. Qed.

Lemma parse_numeral w base tmp n z rest :
  0 <= w -> 2 <= base -> numeral base tmp n -> stops base rest -> rd rest 0 <> 120 ->
  strtoul_w w ((repeat 48 z ++ rev tmp) ++ rest) base = (n mod 2 ^ w, rest).
Proof.
  intros Hw Hb (Hl & Hne & Hv & _) Hs Hx. rewrite strtoul_digits; try done.
  - by rewrite hval_repeat_zeros, Hv.
  - destruct tmp; [done|]. simpl. destruct z; simpl; [|done]. by destruct (rev tmp).
  - apply Forall_app. split; [|by apply Forall_rev].
    apply List.Forall_forall. intros x Hin. apply repeat_spec in Hin. subst x.
    split; [done|]. change (digit_value 48) with 0. lia.
Qed.

Lemma stops_nil base : stops base [].
Proof. done. Qed.

Lemma strtoull_numeral base tmp n z :
  2 <= base -> numeral base tmp n -> n < 2 ^ 64 ->
  simple_strtoull (repeat 48 z ++ rev tmp) base = (n, []).
Proof.
  intros Hb Hn Hlt. pose proof (numeral_value_nonneg base tmp n ltac:(lia) Hn).
  change (strtoul_w 64 (repeat 48 z ++ rev tmp) base = (n, [])).
  rewrite <- (app_nil_r (repeat 48 z ++ rev tmp)).
  rewrite (parse_numeral 64 base tmp n); try done. by rewrite Z.mod_small by lia.
Qed.

(** C32: what [number] prints without sign, prefix or left adjustment, [simple_strtoull] reads back: for every
    64-bit number in base 8, 10 or 16, any precision, in either case, zero-padded to any
    width (or not padded), parsing in the same base gives the number again and
    consumes the whole string. *)
Theorem number_roundtrip num base size precision type :
  base = 8 \/ base = 10 \/ base = 16 -> 0 <= num < 2 ^ 64 ->
  has type SIGN = false -> has type SPECIAL = false -> has type LEFT = false ->
  has type ZEROPAD = true \/ size <= 0 ->
  exists l, number num base size precision type = Some l /\ simple_strtoull l base = (num, []).
Proof.
  intros Hb Hn HS HX HL Hp.
  destruct (num_digits_spec num base (Z.land type SMALL)) as (tmp & Ht & Hnum & Hlen);
    [done|apply locase_cases|done|].
  eexists. split.
  - eapply number_layout; [done| |done]. unfold sign_of. by rewrite HS.
  - unfold layout. rewrite HX, HL. cbn [andb orb negb app Z.eqb]. rewrite app_nil_r.
    assert (Hroom : has type ZEROPAD = false ->
      repeat 32 (Z.to_nat (size - Z.max precision (Z.of_nat (length tmp)))) = []).
    { intros HZ. rewrite HZ in Hp. destruct Hp; [done|].
      by replace (Z.to_nat _) with O by lia. }
    destruct (has type ZEROPAD); cbn [andb orb negb app].
    + rewrite app_assoc, <- repeat_app. apply strtoull_numeral; [lia|done|lia].
    + rewrite Hroom by done. apply strtoull_numeral; [lia|done|lia].
Qed.

Lemma strtoul_numeral base tmp n :
  2 <= base -> numeral base tmp n -> n < 2 ^ 32 -> simple_strtoul (rev tmp) base = (n, []).
Proof.
  intros Hb Hn Hlt. pose proof (numeral_value_nonneg base tmp n ltac:(lia) Hn).
  change (strtoul_w 32 (repeat 48 0 ++ rev tmp) base = (n, [])).
  rewrite <- (app_nil_r (repeat 48 0 ++ rev tmp)).
  rewrite (parse_numeral 32 base tmp n); try done. by rewrite Z.mod_small by lia.
Qed.

Definition fmt_d : list Z := [37; 100].
Definition fmt_lx : list Z := [37; 108; 120].

(** A plain integer conversion. *)
Lemma number_plain num base type sign mag room tmp :
  base = 8 \/ base = 10 \/ base = 16 -> has type SPECIAL = false ->
  has type ZEROPAD = false -> has type LEFT = false ->
  sign_of type num (-1) = (sign, mag, room) ->
  num_digits mag base (Z.land type SMALL) = Some tmp ->
  number num base (-1) (-1) type = Some ((if sign =? 0 then [] else [sign]) ++ rev tmp).
Proof.
  intros Hb HX HZ HL Hs Ht. erewrite number_layout by done. unfold layout.
  rewrite HX, HZ, HL. cbn [andb orb negb app].
  assert (Hr : room <= -1) by (unfold sign_of in Hs; repeat case_match; simplify_eq; lia).
  replace (Z.to_nat (room - _)) with O by lia.
  replace (Z.to_nat (Z.max _ _ - _)) with O by lia. cbn [repeat app]. by rewrite app_nil_r.
Qed.

(** [number] always has a result. *)
Lemma number_total num base size precision type :
  base = 8 \/ base = 10 \/ base = 16 -> 0 <= num < 2 ^ 64 -> exists l, number num base size precision type = Some l.
Proof.
  intros Hb Hn. destruct (sign_of type num size) as [[sign mag] room] eqn:Hs.
  assert (Hm : 0 <= mag < 2 ^ 64).
  { unfold sign_of in Hs. pose proof (u64_range (- s64 num)). repeat case_match; simplify_eq; lia. }
  destruct (num_digits_spec mag base (Z.land type SMALL)) as (tmp & Ht & _); [done|apply locase_cases|done|].
  eexists. by eapply number_layout.
Qed.

(** The loop of the interpreter, a character of the format at a time. *)
Lemma format_plain fuel c fmt s :
  (c =? 37) = false -> format (S fuel) (c :: fmt) s = format fuel fmt (emit [c] s).
Proof. intros Hc. cbn [format]. by rewrite Hc. Qed.

Lemma format_conv fuel fmt s :
  format (S fuel) (37 :: fmt) s = '(s, fmt) ← directive fmt s; format fuel fmt s.
Proof. reflexivity. Qed.

(** The two formats, as the interpreter runs them. *)
Lemma vsprintf_d v :
  vsprintf fmt_d [AInt v] =
  l ← number (fetch_num (-1) SIGN v) 10 (-1) (-1) SIGN; Some (l ++ [0], [], Z.of_nat (length l)).
Proof.
  assert (H : directive [100] (VState [] [AInt v] []) =
    s ← (l ← number (fetch_num (-1) SIGN v) 10 (-1) (-1) SIGN; Some (VState l [] []));
    Some (s, [])) by reflexivity.
  unfold vsprintf. cbn [fmt_d length format Z.eqb Pos.eqb negb].
  rewrite H. by destruct (number _ _ _ _ _).
Qed.

Lemma vsprintf_lx v :
  vsprintf fmt_lx [AInt v] =
  l ← number (fetch_num 108 SMALL v) 16 (-1) (-1) SMALL; Some (l ++ [0], [], Z.of_nat (length l)).
Proof.
  assert (H : directive [108; 120] (VState [] [AInt v] []) =
    s ← (l ← number (fetch_num 108 SMALL v) 16 (-1) (-1) SMALL; Some (VState l [] []));
    Some (s, [])) by reflexivity.
  unfold vsprintf. cbn [fmt_lx length format Z.eqb Pos.eqb negb].
  rewrite H. by destruct (number _ _ _ _ _).
Qed.

(** through the whole interpreter: "%d" of any [int] and "%lx" of any [unsigned
    long] terminate, return the length of what they stored, and
    [simple_strtol] in base 10, [simple_strtoul] in base 16, read the argument
    back from it. *)
Theorem vsprintf_roundtrip v :
  (- 2 ^ 31 <= v < 2 ^ 31 ->
   exists l, vsprintf fmt_d [AInt v] = Some (l ++ [0], [], Z.of_nat (length l)) /\
     simple_strtol l 10 = (v, [])) /\
  (0 <= v < 2 ^ 32 ->
   exists l, vsprintf fmt_lx [AInt v] = Some (l ++ [0], [], Z.of_nat (length l)) /\
     simple_strtoul l 16 = (v, [])).
Proof.
  split; intros Hv.
  - set (mag := Z.abs v). destruct (num_digits_spec mag 10 0) as (tmp & Ht & Hnum & _); [lia..|].
    set (sign := if v <? 0 then 45 else 0).
    assert (Hs : exists room, sign_of SIGN (fetch_num (-1) SIGN v) (-1) = (sign, mag, room)).
    { unfold sign_of, sign, mag, fetch_num. cbn.
      change (has SIGN SIGN) with true. change (has SIGN PLUS) with false.
      change (has SIGN SPACE) with false. cbv iota. rewrite s32_small by lia.
      destruct (Z.ltb_spec v 0).
      - assert (Hu : u64 v = v + 2 ^ 64) by (symmetry; apply (Z.mod_unique_pos _ _ (-1)); lia).
        assert (H64 : s64 (u64 v) = v).
        { rewrite Hu. unfold s64, signed. change (2 ^ (64 - 1)) with (2 ^ 63).
          enough ((v + 2 ^ 64 + 2 ^ 63) mod 2 ^ 64 = v + 2 ^ 63) by lia.
          symmetry. apply (Z.mod_unique_pos _ _ 1); lia. }
        rewrite H64, (proj2 (Z.ltb_lt v 0)), (u64_small (- v)), Z.abs_neq by lia. by eexists.
      - rewrite u64_small, s64_small, (proj2 (Z.ltb_ge v 0)), Z.abs_eq by lia. by eexists. }
    destruct Hs as [room Hs].
    pose proof (number_plain _ 10 SIGN sign mag room tmp ltac:(lia) eq_refl eq_refl eq_refl Hs Ht)
      as Hnb.
    exists ((if sign =? 0 then [] else [sign]) ++ rev tmp). split.
    { rewrite vsprintf_d, Hnb. done. }
    assert (Htmp : Forall (digit_ok 10) tmp) by apply Hnum.
    unfold simple_strtol, sign. destruct (Z.ltb_spec v 0).
    + change (rd _ 0) with 45. cbn [Z.eqb Pos.eqb app tl].
      rewrite (strtoul_numeral 10 tmp mag) by (done || lia). f_equal.
      unfold mag. rewrite s32_small; lia.
    + cbn [Z.eqb app]. replace (rd (rev tmp) 0 =? 45) with false.
      * rewrite (strtoul_numeral 10 tmp mag) by (done || lia). f_equal.
        unfold mag. rewrite s32_small; lia.
      * symmetry. apply Z.eqb_neq. intros H45. apply Forall_rev in Htmp.
        destruct Htmp as [|c l [Hc _] _]; [done|]. change (c = 45) in H45. by subst.
  - destruct (num_digits_spec v 16 32) as (tmp & Ht & Hnum & _); [lia..|].
    assert (Hs : sign_of SMALL (fetch_num 108 SMALL v) (-1) = (0, v, -1))
      by (unfold sign_of, fetch_num; cbn; change (has SMALL SIGN) with false; cbv iota;
        by rewrite u32_small by lia).
    pose proof (number_plain _ 16 SMALL 0 v (-1) tmp ltac:(lia) eq_refl eq_refl eq_refl Hs Ht)
      as Hnb.
    exists (rev tmp). split.
    { rewrite vsprintf_lx, Hnb. done. }
    apply strtoul_numeral; (done || lia).
Qed.

(** ** Addresses *)

Lemma string_plain s : Z.of_nat (length s) < 2 ^ 32 - 1 -> string (Some s) (-1) (-1) 0 = s.
Proof.
  intros Hs. unfold string. change (u32 (-1)) with (2 ^ 32 - 1). rewrite Z.min_l by lia.
  change (has 0 LEFT) with false. cbn [negb].
  replace (Z.to_nat (-1 - _)) with O by lia. cbn [pad_loop app].
  rewrite Nat2Z.id. apply firstn_all.
Qed.

(** A number ends at a separator, or at the end of the string. *)
Lemma sep_stops base sep rest :
  rest = [] \/ hd 0 rest = sep -> isxdigit sep = false -> sep <> 120 ->
  stops base rest /\ rd rest 0 <> 120.
Proof.
  intros Hr Hx Hs. unfold stops. destruct rest as [|c rest]; [by split|].
  destruct Hr as [Hr|Hr]; [done|]. change (rd (c :: rest) 0) with c. simpl in Hr. subst c.
  by rewrite Hx.
Qed.

(** Reading a quad that a separator (or nothing) follows. *)
Lemma parse_quad b rest :
  is_byte b -> rest = [] \/ hd 0 rest = 46 ->
  simple_strtoul (rev (put_dec_trunc b) ++ rest) 10 = (b, rest).
Proof.
  intros Hb Hr. unfold is_byte in Hb.
  destruct (put_dec_trunc_spec b) as [Hn _]; [lia|].
  destruct (sep_stops 10 46 rest Hr) as [Hs Hx]; [done..|].
  pose proof (parse_numeral 32 10 _ b 0 rest ltac:(lia) ltac:(lia) Hn Hs Hx) as H.
  rewrite Z.mod_small in H by lia. cbn [repeat app] in H. by rewrite simple_strtoul_w.
Qed.

Lemma quad_length b : is_byte b -> (length (put_dec_trunc b) <= 3)%nat.
Proof.
  intros Hb. unfold is_byte in Hb. destruct (put_dec_trunc_spec b) as [Hn _]; [lia|].
  apply (numeral_length 10 _ b); [lia|done|change (10 ^ Z.of_nat 3) with 1000; lia|lia].
Qed.

Lemma quads_S addr i n :
  quads addr i (S n) =
  rev (put_dec_trunc (rd addr (Z.of_nat i))) ++ (match n with O => [] | S _ => [46] end) ++
  quads addr (S i) n.
Proof. done. Qed.

Lemma quads_length addr i n :
  byte_list addr -> (length (quads addr i (S n)) <= 4 * n + 3)%nat.
Proof.
  intros Ha. revert i. induction n as [|n IH]; intros i; rewrite quads_S;
    pose proof (quad_length _ (rd_byte addr (Z.of_nat i) Ha)) as Hlen;
    rewrite !length_app, length_rev; cbn [length].
  - change (length (quads addr (S i) 0)) with O. lia.
  - specialize (IH (S i)). lia.
Qed.

Definition quad_addr (a b c d : Z) : Z :=
  Z.lor (Z.shiftl (Z.lor (Z.shiftl (Z.lor (Z.shiftl a 8) b) 8) c) 8) d.

(** dotted-decimal addresses survive the round trip: what "%pI4" prints for four
    bytes is at most fifteen characters long and [string_to_ip] reads the same
    four bytes back from it. *)
Theorem ip4_roundtrip a b c d :
  is_byte a -> is_byte b -> is_byte c -> is_byte d ->
  let s := ip4_addr_string [a; b; c; d] (-1) (-1) 0 in
  string_to_ip (Some s) = quad_addr a b c d /\ (length s <= 15)%nat.
Proof.
  intros Ha Hb Hc Hd s.
  assert (Hl : byte_list [a; b; c; d])
    by (repeat (apply List.Forall_cons; [assumption|]); apply List.Forall_nil).
  pose proof (quads_length _ 0 3 Hl) as Hlen.
  assert (Hs : s = quads [a; b; c; d] 0 4) by (apply string_plain; lia).
  rewrite Hs. split; [|done]. unfold string_to_ip, quads.
  change (rd _ (Z.of_nat 0)) with a. change (rd _ (Z.of_nat 1)) with b.
  change (rd _ (Z.of_nat 2)) with c. change (rd _ (Z.of_nat 3)) with d.
  cbn [string_to_ip_loop]. pose proof Ha as Ha'. pose proof Hb as Hb'. pose proof Hc as Hc'.
  pose proof Hd as Hd'. unfold is_byte in Ha', Hb', Hc', Hd'.
  assert (Hmask : forall x, is_byte x -> Z.land x 0xff = x).
  { intros x Hx. unfold is_byte in Hx. rewrite (land_mask x 8 0xff) by lia. by apply Z.mod_small. }
  do 3 (rewrite parse_quad by (done || (right; done)); cbn [app]).
  rewrite parse_quad by (done || (left; done)). rewrite !Hmask by done. unfold quad_addr.
  change (u32 (Z.shiftl 0 8)) with 0. rewrite Z.lor_0_l.
  assert (Hor : forall x y k, 0 <= x < 2 ^ k -> 0 <= k <= 24 -> is_byte y ->
    u32 (Z.shiftl x 8) = Z.shiftl x 8 /\ 0 <= Z.lor (Z.shiftl x 8) y < 2 ^ (k + 8)).
  { intros x y k Hx Hk Hy. rewrite lor_add_byte by (done || lia). unfold is_byte in Hy.
    rewrite Z.shiftl_mul_pow2, Z.pow_add_r by lia. change (2 ^ 8) with 256.
    assert (2 ^ k <= 2 ^ 24) by (apply Z.pow_le_mono_r; lia). rewrite u32_small; lia. }
  destruct (Hor a b 8) as [E1 R1]; [lia..|done|]. destruct (Hor _ c 16 R1) as [E2 R2]; [lia|done|].
  destruct (Hor _ d 24 R2) as [E3 R3]; [lia|done|]. by rewrite E1, E2, E3.
Qed.

Lemma hex_byte_ok b :
  is_byte b -> Forall (digit_ok 16) (pack_hex_byte b) /\ hval 16 0 (pack_hex_byte b) = b.
Proof.
  intros Hb. assert (H : forallb (fun b =>
    forallb (fun c => isxdigit c && (0 <=? digit_value c) && (digit_value c <? 16))
      (pack_hex_byte b) && (hval 16 0 (pack_hex_byte b) =? b)) (seqZ 0 256) = true)
    by (vm_compute; reflexivity).
  pose proof (forallb_seqZ _ 256 b H Hb) as Hb'. cbv beta in Hb'.
  apply andb_true_iff in Hb' as [Hf Hv]. apply Z.eqb_eq in Hv. split; [|done].
  rewrite forallb_forall in Hf. apply List.Forall_forall. intros c Hc.
  apply Hf in Hc. unfold digit_ok. destruct (isxdigit c); [|done]. lia.
Qed.

Lemma parse_hex_byte b rest :
  is_byte b -> rest = [] \/ hd 0 rest = 58 ->
  simple_strtoul (pack_hex_byte b ++ rest) 16 = (b, rest).
Proof.
  intros Hb Hr. destruct (hex_byte_ok b Hb) as [Hok Hv].
  destruct (sep_stops 16 58 rest Hr) as [Hs Hx]; [done..|].
  pose proof (strtoul_digits 32 16 (pack_hex_byte b) rest ltac:(lia) ltac:(lia) ltac:(done)
    Hok Hs Hx) as H.
  unfold is_byte in Hb. rewrite Hv, Z.mod_small in H by lia. exact H.
Qed.

(** Ethernet addresses survive the round trip: [eth_parse_enetaddr] reads back
    the six bytes that "%pM" prints. *)
Theorem mac_roundtrip a b c d e f :
  byte_list [a; b; c; d; e; f] ->
  eth_parse_enetaddr (Some (mac_address_string [a; b; c; d; e; f] (-1) (-1) 0)) =
  [a; b; c; d; e; f].
Proof.
  intros Hl. unfold mac_address_string. change (has 0 SPECIAL) with false.
  change (Z.ldiff 0 SPECIAL) with 0. cbn [negb]. rewrite string_plain by (simpl; lia).
  unfold byte_list in Hl. rewrite !List.Forall_cons_iff in Hl. destruct_and!.
  unfold eth_parse_enetaddr, hex_bytes.
  change (rd _ (Z.of_nat 0)) with a. change (rd _ (Z.of_nat 1)) with b.
  change (rd _ (Z.of_nat 2)) with c. change (rd _ (Z.of_nat 3)) with d.
  change (rd _ (Z.of_nat 4)) with e. change (rd _ (Z.of_nat 5)) with f.
  cbn [eth_parse_loop].
  do 5 (rewrite parse_hex_byte by (done || (right; done)); cbn [app]).
  rewrite parse_hex_byte by (done || (left; done)). by rewrite !u8_small.
Qed.

(** ** Witnesses *)

Lemma number_width_witness :
  exists l, number 255 16 8 (-1) SPECIAL = Some l /\
    8 <= Z.of_nat (length l) <= Z.max 8 (Z.max (-1) 22 + 3).
Proof. apply (number_width 255 16 8 (-1) SPECIAL); lia. Defined.

Lemma number_roundtrip_witness :
  number 0xdeadbeef 16 12 (-1) (Z.lor ZEROPAD SMALL) =
    Some [48; 48; 48; 48; 100; 101; 97; 100; 98; 101; 101; 102] /\
  exists l, number 0xdeadbeef 16 12 (-1) (Z.lor ZEROPAD SMALL) = Some l /\
    simple_strtoull l 16 = (0xdeadbeef, []).
Proof.
  split; [vm_compute; reflexivity|].
  apply (number_roundtrip 0xdeadbeef 16 12 (-1) (Z.lor ZEROPAD SMALL)); (lia || reflexivity || (left; reflexivity)).
Defined.

Lemma vsprintf_roundtrip_witness :
  exists l, vsprintf fmt_d [AInt (-42)] = Some (l ++ [0], [], Z.of_nat (length l)) /\
    simple_strtol l 10 = (-42, []).
Proof. apply (vsprintf_roundtrip (-42)). lia. Defined.

Lemma ip4_roundtrip_witness :
  let s := ip4_addr_string [192; 168; 0; 1] (-1) (-1) 0 in
  string_to_ip (Some s) = quad_addr 192 168 0 1 /\ (length s <= 15)%nat.
Proof. apply (ip4_roundtrip 192 168 0 1); unfold is_byte; lia. Defined.

Lemma mac_roundtrip_witness :
  eth_parse_enetaddr (Some (mac_address_string [0; 17; 34; 51; 68; 255] (-1) (-1) 0)) =
  [0; 17; 34; 51; 68; 255].
Proof. apply mac_roundtrip. repeat constructor; vm_compute; congruence. Defined.
