(* ===== verification/Env.v ===== *)
(** The environment: [common/cmd_nvedit.c] and [common/env_common.c].

    The environment is a byte array ([env_data], addresses from 0 on) holding
    "name=value" strings one after the other, each with its NUL, and one more
    NUL after the last.  The configuration modelled has the array in RAM
    ([GD_FLG_RELOC]), no [CONFIG_ENV_OVERWRITE], no [CONFIG_HAS_UID], no
    [CONFIG_OVERWRITE_ETHADDR_ONCE], the plain console ([console_assign]) and
    the network.  Argument strings are values: they are taken not to lie inside
    the environment array.  Messages and the wait for a key after a change of
    baud rate are left out.

    The abstract environment is the list of (name, value) pairs in order
    ([reprs]); the theorems say what each operation does to that list, that
    nothing beyond [ENV_SIZE] is written, and when the checksum is valid. *)

From S2P Require Import Prelude CString Vsprintf Crc.

(** What the environment depends on: its size, the byte order (for the checksum),
    the supported baud rates, and [console_assign], which switches a standard
    stream to a named device and is negative when it cannot. *)
Record env_config : Type := {
  ENV_SIZE : Z;
  host_be : bool;
  baudrate_table : list Z;
  console_assign : Z -> list Z -> Z }.

(** [gd->env_valid], the RAM copy with its checksum, the built-in default, and
    the variables [_do_setenv] keeps in step. *)
Record envst : Type := EnvSt {
  env_valid : bool;
  env_data : mem;
  env_crc : Z;
  default_environment : mem;
  env_id : Z;
  gd_baudrate : Z;
  bi_ip_addr : Z;
  load_addr : Z;
  BootFile : list Z }.

Definition str_stdin : list Z := [115; 116; 100; 105; 110].
Definition str_stdout : list Z := [115; 116; 100; 111; 117; 116].
Definition str_stderr : list Z := [115; 116; 100; 101; 114; 114].
Definition str_serial : list Z := [115; 101; 114; 105; 97; 108; 35].
Definition str_ethaddr : list Z := [101; 116; 104; 97; 100; 100; 114].
Definition str_baudrate : list Z := [98; 97; 117; 100; 114; 97; 116; 101].
Definition str_ipaddr : list Z := [105; 112; 97; 100; 100; 114].
Definition str_loadaddr : list Z := [108; 111; 97; 100; 97; 100; 100; 114].
Definition str_bootfile : list Z := [98; 111; 111; 116; 102; 105; 108; 101].

(** [strcmp(s, t) == 0] for strings given by value ([CString.strcmp_spec]). *)
Definition streq (s t : list Z) : bool := bool_decide (s = t).

(** ** Reading *)

(** The array [env_get_addr] points into. *)
Definition env_bytes (s : envst) : mem :=
  if env_valid s then env_data s else default_environment s.

Definition env_get_char (s : envst) (index : Z) : Z := env_bytes s index.

(** [envmatch]: -1, or the index of the value.  [None] when it would read the
    name past its NUL. *)
Fixpoint envmatch (m : mem) (s1 : list Z) (i2 : Z) : option Z :=
  match s1 with
  | [] => if m i2 =? 0 then None else if m i2 =? 61 then Some (i2 + 1) else Some (-1)
  | c :: s1 =>
    if c =? m i2 then
      if c =? 61 then Some (i2 + 1) else envmatch m s1 (i2 + 1)
    else Some (-1)
  end.

(** [for (nxt = i; env_get_char(nxt) != 0; ++nxt)], which gives up at
    [CONFIG_ENV_SIZE]: [Some None] then. *)
Fixpoint entry_end (fuel : nat) (size : Z) (m : mem) (nxt : Z) : option (option Z) :=
  match fuel with
  | O => None
  | S fuel =>
    if m nxt =? 0 then Some (Some nxt)
    else if size <=? nxt then Some None
    else entry_end fuel size m (nxt + 1)
  end.

(** The scan of [getenv]: the index of the value, or null. *)
Fixpoint getenv_from (fuel : nat) (size : Z) (m : mem) (name : list Z) (i : Z)
    : option (option Z) :=
  match fuel with
  | O => None
  | S n =>
    if m i =? 0 then Some None
    else
      e ← entry_end fuel size m i;
      match e with
      | None => Some None
      | Some nxt =>
        val ← envmatch m name i;
        if val <? 0 then getenv_from n size m name (nxt + 1) else Some (Some val)
      end
  end.

Definition getenv (fuel : nat) (size : Z) (s : envst) (name : list Z) : option (option Z) :=
  getenv_from fuel size (env_bytes s) name 0.

(** The copy loop of [getenv_r]: bytes stored (from [buf] on) and the final [n]. *)
Fixpoint getenv_copy (fuel : nat) (m : mem) (len val n : Z) : option (list Z * Z) :=
  match fuel with
  | O => None
  | S fuel =>
    if n <? len then
      if m val =? 0 then Some ([0], n + 1)
      else '(l, n) ← getenv_copy fuel m len (val + 1) (n + 1); Some (m val :: l, n)
    else Some ([], n + 1)
  end.

(** The bytes stored and the result. *)
Definition getenv_r (fuel : nat) (size : Z) (s : envst) (name : list Z) (len : Z)
    : option (list Z * Z) :=
  v ← getenv fuel size s name;
  match v with
  | None => Some ([], -1)
  | Some val =>
    '(l, n) ← getenv_copy fuel (env_bytes s) len val 0;
    Some (if n =? len then (l ++ [0], n) else (l, n))
  end.

(** ** Writing *)

(** [for (env = env_data; *env; env = nxt + 1)] of [_do_setenv]: the final [env],
    [nxt] and [oldval]. *)
Fixpoint find_var (fuel : nat) (m : mem) (name : list Z) (env nxt oldval : Z)
    : option (Z * Z * Z) :=
  match fuel with
  | O => None
  | S n =>
    if m env =? 0 then Some (env, nxt, oldval)
    else
      nxt ← str_end fuel m env;
      oldval ← envmatch m name env;
      if 0 <=? oldval then Some (env, nxt, oldval) else find_var n m name (nxt + 1) nxt oldval
  end.

(** [for (;;) { *env = *nxt++; if (both NUL) break; ++env; }] *)
Fixpoint shift_down (fuel : nat) (m : mem) (env nxt : Z) : option (mem * Z) :=
  match fuel with
  | O => None
  | S fuel =>
    let m := m.[env <- m nxt] in
    let nxt := nxt + 1 in
    if (m env =? 0) && (m nxt =? 0) then Some (m, env) else shift_down fuel m (env + 1) nxt
  end.

(** Deletes the definition that starts at [env] and ends at [nxt]. *)
Definition delete_def (fuel : nat) (m : mem) (env nxt : Z) : option mem :=
  let nxt := nxt + 1 in
  '(m, env) ←
    (if m nxt =? 0 then
       if 0 <? env then Some (m, env - 1) else Some (m.[env <- 0], env)
     else shift_down fuel m env nxt);
  Some (m.[env + 1 <- 0]).

(** [for (env = env_data; *env || *(env+1); ++env)] *)
Fixpoint env_end (fuel : nat) (m : mem) (env : Z) : option Z :=
  match fuel with
  | O => None
  | S fuel => if negb (m env =? 0) || negb (m (env + 1) =? 0) then env_end fuel m (env + 1) else Some env
  end.

(** Copies a string with its NUL; the second component points at the NUL. *)
Fixpoint put_string (m : mem) (env : Z) (s : list Z) : mem * Z :=
  match s with
  | [] => (m.[env <- 0], env)
  | c :: s => put_string (m.[env <- c]) (env + 1) s
  end.

(** The values, each after its separator. *)
Fixpoint put_values (m : mem) (env sep : Z) (vals : list (list Z)) : mem * Z :=
  match vals with
  | [] => (m, env)
  | v :: vals =>
    let '(m, env) := put_string (m.[env <- sep]) (env + 1) v in
    put_values m env 32 vals
  end.

(** The new definition; [None] on overflow. *)
Definition append_def (cfg : env_config) (m : mem) (env : Z) (name : list Z) (vals : list (list Z))
    : option mem :=
  let len := Z.of_nat (length name) + 2 in
  let len := fold_left (fun len v => len + (Z.of_nat (length v) + 1)) vals len in
  if ENV_SIZE cfg - env <? len then None
  else
    let '(m, env) := put_string m env name in
    let '(m, env) := put_values m env 61 vals in
    Some (m.[env + 1 <- 0]).

Definition copy_filename (src : list Z) (size : Z) : list Z :=
  let '(src, size) := if rd src 0 =? 34 then (tl src, size - 1) else (src, size) in
  let fix loop (src : list Z) (n : nat) : list Z :=
    match n, src with
    | S n, c :: src => if c =? 34 then [] else c :: loop src n
    | _, _ => []
    end in
  loop src (Z.to_nat (size - 1)).

(** Updates of the array in use. *)
Definition set_bytes (s : envst) (m : mem) : envst :=
  if env_valid s
  then EnvSt true m (env_crc s) (default_environment s) (env_id s)
         (gd_baudrate s) (bi_ip_addr s) (load_addr s) (BootFile s)
  else EnvSt false (env_data s) (env_crc s) m (env_id s)
         (gd_baudrate s) (bi_ip_addr s) (load_addr s) (BootFile s).

Definition set_env_id (s : envst) (i : Z) : envst :=
  EnvSt (env_valid s) (env_data s) (env_crc s) (default_environment s) i
    (gd_baudrate s) (bi_ip_addr s) (load_addr s) (BootFile s).

Definition set_baudrate (s : envst) (b : Z) : envst :=
  EnvSt (env_valid s) (env_data s) (env_crc s) (default_environment s) (env_id s)
    b (bi_ip_addr s) (load_addr s) (BootFile s).

(** [env_ptr->crc = crc32(0, env_ptr->data, ENV_SIZE)] *)
Definition env_crc_update (cfg : env_config) (s : envst) : envst :=
  EnvSt (env_valid s) (env_data s) (crc32 (host_be cfg) (env_data s) 0 0 (ENV_SIZE cfg))
    (default_environment s) (env_id s) (gd_baudrate s) (bi_ip_addr s) (load_addr s) (BootFile s).

(** The variables that follow the environment; [val] is [argv[2]]. *)
Definition after_set (s : envst) (name val : list Z) : envst :=
  if streq name str_ethaddr then s
  else if streq name str_ipaddr then
    EnvSt (env_valid s) (env_data s) (env_crc s) (default_environment s) (env_id s)
      (gd_baudrate s) (string_to_ip_loop 4 val 0) (load_addr s) (BootFile s)
  else if streq name str_loadaddr then
    EnvSt (env_valid s) (env_data s) (env_crc s) (default_environment s) (env_id s)
      (gd_baudrate s) (bi_ip_addr s) (fst (simple_strtoul val 16)) (BootFile s)
  else if streq name str_bootfile then
    EnvSt (env_valid s) (env_data s) (env_crc s) (default_environment s) (env_id s)
      (gd_baudrate s) (bi_ip_addr s) (load_addr s) (copy_filename val 128)
  else s.

Definition console_of (name : list Z) : Z :=
  if streq name str_stdin then 0
  else if streq name str_stdout then 1
  else if streq name str_stderr then 2
  else -1.

(** How the checks before the deletion end: with a result for the caller, with a
    null pointer read, or with the state to go on from. *)
Inductive check : Type :=
  | Stop (s : envst) (r : Z)
  | NullRead
  | Go (s : envst).

Definition check_console (cfg : env_config) (name : list Z) (vals : list (list Z)) (s : envst)
    : check :=
  let console := console_of name in
  if negb (console =? -1) then
    match vals with
    | [] => Stop s 1
    | v :: _ => if console_assign cfg console v <? 0 then Stop s 1 else Go s
    end
  else Go s.

(** [argv2] is the pointer [argv[2]]. *)
Definition check_overwrite (cfg : env_config) (name : list Z) (argv2 : option (list Z)) (s : envst)
    : check :=
  if streq name str_serial || streq name str_ethaddr then Stop s 1
  else if streq name str_baudrate then
    match argv2 with
    | None => NullRead
    | Some v =>
      let baudrate := s32 (fst (simple_strtoul v 10)) in
      if existsb (fun b => u32 baudrate =? b) (baudrate_table cfg) then Go (set_baudrate s baudrate)
      else Stop s 1
    end
  else Go s.

(** The end of [_do_setenv]: appends the new definition, if any. *)
Definition setenv_finish (cfg : env_config) (fuel : nat) (name : list Z) (vals : list (list Z))
    (s : envst) : option (envst * Z) :=
  match vals with
  | [] => Some (env_crc_update cfg s, 0)
  | v :: _ =>
    let m := env_bytes s in
    env ← env_end fuel m 0;
    let env := if 0 <? env then env + 1 else env in
    match append_def cfg m env name vals with
    | None => Some (s, 1)
    | Some m => Some (after_set (env_crc_update cfg (set_bytes s m)) name v, 0)
    end
  end.

(** [_do_setenv] for [argv = {_, name, vals...}], [argc] counting the values, with
    [argv2] the pointer after the name: the state and the result.  [None] stands
    for a null pointer read (or, with too little fuel, for a loop that did not
    end). *)
Definition _do_setenv (cfg : env_config) (fuel : nat) (name : list Z) (vals : list (list Z))
    (argv2 : option (list Z)) (s : envst) : option (envst * Z) :=
  if existsb (fun c => c =? 61) name then Some (s, 1)
  else
    let s := set_env_id s (env_id s + 1) in
    '(env, nxt, oldval) ← find_var fuel (env_bytes s) name 0 0 (-1);
    match check_console cfg name vals s with
    | Stop s r => Some (s, r)
    | NullRead => None
    | Go s =>
      if 0 <=? oldval then
        match check_overwrite cfg name argv2 s with
        | Stop s r => Some (s, r)
        | NullRead => None
        | Go s =>
          m ← delete_def fuel (env_bytes s) env nxt;
          setenv_finish cfg fuel name vals (set_bytes s m)
        end
      else setenv_finish cfg fuel name vals s
    end.

Definition setenv (cfg : env_config) (fuel : nat) (varname : list Z) (varvalue : option (list Z))
    (s : envst) : option (envst * Z) :=
  match varvalue with
  | None | Some [] => _do_setenv cfg fuel varname [] varvalue s
  | Some v => _do_setenv cfg fuel varname [v] varvalue s
  end.

(** The [setenv] command: [argv] ends with a null pointer. *)
Definition do_setenv (cfg : env_config) (fuel : nat) (name : list Z) (vals : list (list Z))
    (s : envst) : option (envst * Z) :=
  _do_setenv cfg fuel name vals (hd_error vals) s.

(** [default_size] is [sizeof(default_environment)]. *)
Definition set_default_env (cfg : env_config) (default_size : Z) (s : envst) : envst :=
  if ENV_SIZE cfg <? default_size then s
  else
    let m := memset 4 (env_data s) 0 0 (ENV_SIZE cfg) in
    let m := store_list m 0 (mem_list (default_environment s) 0 (Z.to_nat default_size)) in
    let s := env_crc_update cfg (EnvSt (env_valid s) m 0 (default_environment s) (env_id s)
      (gd_baudrate s) (bi_ip_addr s) (load_addr s) (BootFile s)) in
    EnvSt true (env_data s) (env_crc s) (default_environment s) (env_id s)
      (gd_baudrate s) (bi_ip_addr s) (load_addr s) (BootFile s).

(** ** The abstract environment *)

Definition def : Type := list Z * list Z.

Definition encode (d : def) : list Z := fst d ++ 61 :: snd d.

(** The definitions one after the other, each with its NUL. *)
Definition defs (l : list def) : list Z := concat (map (fun d => encode d ++ [0]) l).

(** What the array starts with; an empty environment has two NULs. *)
Definition image (l : list def) : list Z :=
  match l with [] => [0; 0] | _ => defs l ++ [0] end.

Definition name_ok (k : list Z) : Prop := Forall (fun c => c <> 0 /\ c <> 61) k.
Definition value_ok (v : list Z) : Prop := Forall (fun c => c <> 0) v.
Definition def_ok (d : def) : Prop := name_ok (fst d) /\ value_ok (snd d).

(** The array holds the definitions [l], within the first [size] bytes. *)
Definition reprs (size : Z) (m : mem) (l : list def) : Prop :=
  holds m 0 (image l) /\ Forall def_ok l /\ Z.of_nat (length (image l)) <= size.

Definition assoc (name : list Z) (l : list def) : option (list Z) :=
  option_map snd (find (fun d => streq (fst d) name) l).

(** Removes the first definition of [name]. *)
Fixpoint remove_def (name : list Z) (l : list def) : list def :=
  match l with
  | [] => []
  | d :: l => if streq (fst d) name then l else d :: remove_def name l
  end.

Fixpoint join (vals : list (list Z)) : list Z :=
  match vals with
  | [] => []
  | v :: vals => match vals with [] => v | _ => v ++ 32 :: join vals end
  end.

(** ** Layout lemmas *)

Lemma streq_true s t : streq s t = true <-> s = t.
Proof. unfold streq. apply bool_decide_eq_true. Qed.

Lemma streq_false s t : streq s t = false <-> s <> t.
Proof. unfold streq. apply bool_decide_eq_false. Qed.

Lemma defs_app l k : defs (l ++ k) = defs l ++ defs k.
Proof. unfold defs. by rewrite map_app, concat_app. Qed.

Lemma defs_cons d l : defs (d :: l) = (encode d ++ [0]) ++ defs l.
Proof. done. Qed.

Lemma defs_length_cons d l :
  length (defs (d :: l)) = (length (encode d) + 1 + length (defs l))%nat.
Proof. rewrite defs_cons, !length_app. simpl. lia. Qed.

Lemma encode_length d : length (encode d) = (length (fst d) + 1 + length (snd d))%nat.
Proof. unfold encode. rewrite length_app. simpl. lia. Qed.

Lemma encode_nonzero d : def_ok d -> Forall (fun c => c <> 0) (encode d).
Proof.
  intros [Hk Hv]. unfold encode. apply Forall_app. split.
  - eapply List.Forall_impl; [|done]. by intros c [? _].
  - by constructor.
Qed.

Lemma image_defs m l : holds m 0 (image l) -> holds m 0 (defs l ++ [0]).
Proof. destruct l; [|done]. intros H. apply holds_cons in H as [H _]. by apply holds_cons. Qed.

Lemma image_length l : (length (defs l) + 1 <= length (image l) <= length (defs l) + 2)%nat.
Proof. destruct l; [simpl; lia|]. unfold image. rewrite length_app. simpl. lia. Qed.

(** The end of a string without NULs. *)
Lemma str_end_spec m a s fuel :
  Forall (fun c => c <> 0) s -> holds m a (s ++ [0]) -> (length s < fuel)%nat ->
  str_end fuel m a = Some (a + Z.of_nat (length s)).
Proof.
  intros Hs. revert a fuel.
  induction Hs as [|c s Hc Hs IH]; intros a [|fuel] Hm Hf; cbn [length] in Hf; try lia; cbn [str_end].
  - apply holds_cons in Hm as [-> _]. simpl. f_equal. lia.
  - apply holds_cons in Hm as [-> Hm]. rewrite (proj2 (Z.eqb_neq c 0)) by done.
    rewrite IH by (done || lia). f_equal. cbn [length]. lia.
Qed.

Lemma entry_end_spec m a s fuel size :
  Forall (fun c => c <> 0) s -> holds m a (s ++ [0]) -> (length s < fuel)%nat ->
  a + Z.of_nat (length s) <= size ->
  entry_end fuel size m a = Some (Some (a + Z.of_nat (length s))).
Proof.
  intros Hs. revert a fuel.
  induction Hs as [|c s Hc Hs IH]; intros a [|fuel] Hm Hf Hle; cbn [length] in Hf, Hle; try lia;
    cbn [entry_end].
  - apply holds_cons in Hm as [-> _]. simpl. do 2 f_equal. lia.
  - apply holds_cons in Hm as [-> Hm]. rewrite (proj2 (Z.eqb_neq c 0)) by done.
    rewrite (proj2 (Z.leb_gt size a)) by lia.
    rewrite IH by (done || lia). do 2 f_equal. cbn [length]. lia.
Qed.

(** Matching a plain name against a definition. *)
Lemma envmatch_spec m a k name :
  name_ok k -> name_ok name -> holds m a (k ++ [61]) ->
  envmatch m name a = Some (if streq k name then a + Z.of_nat (length k) + 1 else -1).
Proof.
  intros Hk Hn. revert a k Hk. induction Hn as [|d name [Hd0 Hd] Hn IH]; intros a k Hk Hm.
  - destruct Hk as [|c k [Hc0 Hc] Hk]; apply holds_cons in Hm as [Ha Hm]; cbn [envmatch]; rewrite Ha.
    + simpl. f_equal. lia.
    + rewrite (proj2 (Z.eqb_neq c 0)), (proj2 (Z.eqb_neq c 61)) by done. by cbn.
  - destruct Hk as [|c k [Hc0 Hc] Hk]; apply holds_cons in Hm as [Ha Hm]; cbn [envmatch]; rewrite Ha.
    + rewrite (proj2 (Z.eqb_neq d 61)) by done. by cbn.
    + destruct (Z.eqb_spec d c) as [->|Hne].
      * rewrite (proj2 (Z.eqb_neq c 61)), (IH (a + 1) k) by done. f_equal.
        destruct (streq k name) eqn:E.
        -- apply streq_true in E as ->. rewrite (proj2 (streq_true _ _)) by done.
           cbn [length]. lia.
        -- apply streq_false in E. by rewrite (proj2 (streq_false _ _)) by congruence.
      * rewrite (proj2 (streq_false _ _)); [done|congruence].
Qed.

Lemma envmatch_def m a d name :
  def_ok d -> name_ok name -> holds m a (encode d ++ [0]) ->
  envmatch m name a = Some (if streq (fst d) name then a + Z.of_nat (length (fst d)) + 1 else -1).
Proof.
  intros [Hk _] Hn Hm. apply envmatch_spec; [done..|].
  unfold encode in Hm. rewrite <- app_assoc in Hm. apply holds_app in Hm as [H1 H2].
  apply holds_app. split; [done|]. apply holds_cons in H2 as [H2 _]. by apply holds_cons.
Qed.

Lemma def_here m a d l :
  holds m a (defs (d :: l) ++ [0]) ->
  holds m a (encode d ++ [0]) /\
  holds m (a + Z.of_nat (length (encode d)) + 1) (defs l ++ [0]).
Proof.
  rewrite defs_cons, <- app_assoc. intros H. apply holds_app in H as [H1 H2].
  split; [done|]. rewrite length_app in H2. simpl in H2.
  by replace (a + Z.of_nat (length (encode d)) + 1)
    with (a + Z.of_nat (length (encode d) + 1)) by lia.
Qed.

Lemma def_start m a d l : def_ok d -> holds m a (defs (d :: l) ++ [0]) -> (m a =? 0) = false.
Proof.
  intros Hd H. apply def_here in H as [H _]. pose proof (encode_nonzero d Hd) as Hnz.
  unfold encode in *. destruct (fst d); simpl in *; apply holds_cons in H as [-> _];
    inversion Hnz; subst; by apply Z.eqb_neq.
Qed.

(** ** Reading *)

Lemma getenv_from_spec m a l name fuel size :
  Forall def_ok l -> name_ok name -> holds m a (defs l ++ [0]) ->
  (length (defs l) < fuel)%nat -> 0 <= a -> a + Z.of_nat (length (defs l)) <= size ->
  exists r, getenv_from fuel size m name a = Some r /\
  match assoc name l, r with
  | Some v, Some p => holds m p (v ++ [0]) /\ a <= p
  | None, None => True
  | _, _ => False
  end.
Proof.
  intros Hl Hn. revert a fuel. induction Hl as [|d l Hd Hl IH]; intros a [|fuel] Hm Hf Ha Hs; try lia.
  { exists None. apply holds_cons in Hm as [Hm _]. cbn [getenv_from]. by rewrite Hm. }
  cbn [getenv_from]. rewrite (def_start m a d l) by done. apply def_here in Hm as [Hh Hm].
  rewrite defs_length_cons in Hf, Hs. pose proof (encode_nonzero d Hd) as Hnz.
  rewrite (entry_end_spec m a (encode d)) by (done || lia). cbn [mbind option_bind].
  rewrite (envmatch_def m a d name) by done. cbn [mbind option_bind].
  unfold assoc. cbn [find]. destruct (streq (fst d) name) eqn:E.
  - exists (Some (a + Z.of_nat (length (fst d)) + 1)).
    rewrite (proj2 (Z.ltb_ge _ 0)) by lia. split; [done|]. simpl. split; [|lia].
    unfold encode in Hh. rewrite <- app_assoc in Hh. apply holds_app in Hh as [_ Hh].
    by apply holds_cons in Hh as [_ Hh].
  - rewrite (proj2 (Z.ltb_lt (-1) 0)) by lia.
    destruct (IH (a + Z.of_nat (length (encode d)) + 1) fuel) as (r & Hr & Hv);
      [done|lia|lia|lia|].
    exists r. split; [done|]. fold (assoc name l).
    destruct (assoc name l), r; try done. destruct Hv. split; [done|lia].
Qed.

(** [getenv] terminates and agrees with the abstract environment: it gives null
    when no definition has the name, and otherwise the address of the value of
    the first one. *)
Theorem getenv_spec size s l name fuel :
  reprs size (env_bytes s) l -> name_ok name -> size < Z.of_nat fuel ->
  exists r, getenv fuel size s name = Some r /\
  match assoc name l, r with
  | Some v, Some p => holds (env_bytes s) p (v ++ [0])
  | None, None => True
  | _, _ => False
  end.
Proof.
  intros (Hm & Hl & Hs) Hn Hf. pose proof (image_length l).
  destruct (getenv_from_spec (env_bytes s) 0 l name fuel size) as (r & Hr & Hv);
    [done|done|by apply image_defs|lia|lia|lia|].
  exists r. split; [done|]. destruct (assoc name l), r; try done. by destruct Hv.
Qed.

(** ** Finding the definition to replace *)

Lemma find_var_none m a l name fuel nxt :
  Forall def_ok l -> name_ok name -> holds m a (defs l ++ [0]) ->
  (length (defs l) < fuel)%nat -> assoc name l = None ->
  exists e n, find_var fuel m name a nxt (-1) = Some (e, n, -1).
Proof.
  intros Hl Hn. revert a fuel nxt.
  induction Hl as [|d l Hd Hl IH]; intros a [|fuel] nxt Hm Hf Ha; try lia.
  { apply holds_cons in Hm as [Hm _]. cbn [find_var]. rewrite Hm. by eexists _, _. }
  cbn [find_var]. rewrite (def_start m a d l) by done. apply def_here in Hm as [Hh Hm].
  rewrite defs_length_cons in Hf. pose proof (encode_nonzero d Hd) as Hnz.
  rewrite (str_end_spec m a (encode d)) by (done || lia). cbn [mbind option_bind].
  rewrite (envmatch_def m a d name) by done. cbn [mbind option_bind].
  unfold assoc in Ha. cbn [find] in Ha. destruct (streq (fst d) name); [done|].
  change (0 <=? -1) with false. apply IH; (done || lia).
Qed.

Lemma find_var_some m a l name v fuel nxt :
  Forall def_ok l -> name_ok name -> holds m a (defs l ++ [0]) -> 0 <= a ->
  (length (defs l) < fuel)%nat -> assoc name l = Some v ->
  exists pre d post o, l = pre ++ d :: post /\ remove_def name l = pre ++ post /\ 0 <= o /\
    find_var fuel m name a nxt (-1) =
    Some (a + Z.of_nat (length (defs pre)),
          a + Z.of_nat (length (defs pre)) + Z.of_nat (length (encode d)), o).
Proof.
  intros Hl Hn. revert a fuel nxt.
  induction Hl as [|d l Hd Hl IH]; intros a [|fuel] nxt Hm Ha Hf Has; try lia; [done|].
  cbn [find_var]. rewrite (def_start m a d l) by done. apply def_here in Hm as [Hh Hm].
  rewrite defs_length_cons in Hf. pose proof (encode_nonzero d Hd) as Hnz.
  rewrite (str_end_spec m a (encode d)) by (done || lia). cbn [mbind option_bind].
  rewrite (envmatch_def m a d name) by done. cbn [mbind option_bind remove_def].
  unfold assoc in Has. cbn [find] in Has. destruct (streq (fst d) name) eqn:E.
  - exists [], d, l, (a + Z.of_nat (length (fst d)) + 1).
    rewrite (proj2 (Z.leb_le 0 _)) by lia. simpl. rewrite Z.add_0_r. split_and!; (done || lia).
  - change (0 <=? -1) with false.
    destruct (IH (a + Z.of_nat (length (encode d)) + 1) fuel (a + Z.of_nat (length (encode d))))
      as (pre & d' & post & o & -> & Hrm & Ho & Hfv); [done|lia|lia|done|].
    exists (d :: pre), d', post, o. rewrite Hrm. split_and!; [done..|].
    rewrite Hfv, defs_length_cons. do 3 f_equal; lia.
Qed.

(** ** Deleting *)

(** A run of bytes that ends with its first NUL that another NUL follows. *)
Fixpoint run_ok (s : list Z) : Prop :=
  match s with
  | [] => False
  | c :: t => match t with [] => c = 0 | d :: _ => (c <> 0 \/ d <> 0) /\ run_ok t end
  end.

Lemma run_ok_defs l : Forall def_ok l -> l <> [] -> run_ok (defs l).
Proof.
  assert (Hone : forall s t, Forall (fun c => c <> 0) s -> t = [] \/ (hd 0 t <> 0 /\ run_ok t) ->
    run_ok (s ++ 0 :: t)).
  { intros s t Hs Ht. induction Hs as [|c s Hc Hs IH].
    - destruct t as [|d t]; [done|]. destruct Ht as [?|[Hd Ht]]; [done|]. simpl. auto.
    - simpl in *. destruct (s ++ 0 :: t) eqn:E; [by destruct s|]. auto. }
  induction 1 as [|d l Hd Hl IH]; [done|]. intros _. rewrite defs_cons, <- app_assoc.
  apply Hone; [by apply encode_nonzero|]. destruct l as [|d' l]; [by left|right].
  split; [|by apply IH]. rewrite defs_cons. apply List.Forall_inv in Hl.
  pose proof (encode_nonzero d' Hl) as Hnz. unfold encode in *.
  destruct (fst d'); simpl in *; by inversion Hnz.
Qed.

Lemma shift_down_spec m env nxt s fuel :
  run_ok s -> holds m nxt (s ++ [0]) -> env < nxt -> (length s <= fuel)%nat ->
  exists m', shift_down fuel m env nxt = Some (m', env + Z.of_nat (length s) - 1) /\
    holds m' env s /\ forall b, ~ (env <= b < env + Z.of_nat (length s)) -> m' b = m b.
Proof.
  revert m env nxt fuel. induction s as [|c s IH]; intros m env nxt [|fuel] Hr Hm Hlt Hf;
    cbn [length] in Hf; try lia; try done.
  apply holds_cons in Hm as [Hc Hm]. cbn [shift_down]. rewrite Hc, upd_eq.
  assert (Hnext : m.[env <- c] (nxt + 1) = m (nxt + 1)) by (apply upd_ne; lia).
  rewrite Hnext. destruct s as [|d s].
  - simpl in Hr. subst c. apply holds_cons in Hm as [-> _]. simpl.
    eexists. split; [f_equal; f_equal; lia|]. split.
    + apply holds_cons. split; [apply upd_eq|done].
    + intros b Hb. apply upd_ne. lia.
  - destruct Hr as [Hcd Hr]. pose proof Hm as Hm0. apply holds_cons in Hm0 as [Hd _].
    rewrite Hd. replace ((c =? 0) && (d =? 0)) with false by (symmetry; bdestruct).
    destruct (IH (m.[env <- c]) (env + 1) (nxt + 1) fuel Hr) as (m' & Hs & Hh & Hout); [|lia|cbn [length] in *; lia|].
    { eapply holds_ext; [|done]. intros b Hb. apply upd_ne. lia. }
    exists m'. rewrite Hs. split; [do 2 f_equal; cbn [length]; lia|]. split.
    + apply holds_cons. split; [|done]. rewrite Hout by lia. apply upd_eq.
    + intros b Hb. cbn [length] in *. rewrite Hout by lia. apply upd_ne. lia.
Qed.

Lemma delete_def_spec m pre d post fuel :
  Forall def_ok (pre ++ d :: post) -> holds m 0 (image (pre ++ d :: post)) ->
  (length (defs post) <= fuel)%nat ->
  let env := Z.of_nat (length (defs pre)) in
  exists m', delete_def fuel m env (env + Z.of_nat (length (encode d))) = Some m' /\
    holds m' 0 (image (pre ++ post)) /\
    forall b, ~ (0 <= b < Z.of_nat (length (image (pre ++ d :: post)))) -> m' b = m b.
Proof.
  intros Hok Hm Hf env. apply Forall_app in Hok as [Hpre Hok].
  apply List.Forall_cons_iff in Hok as [Hd Hpost].
  assert (Himg : image (pre ++ d :: post) = defs pre ++ (encode d ++ [0]) ++ defs post ++ [0]).
  { unfold image. destruct (pre ++ d :: post) eqn:E; [by destruct pre|]. rewrite <- E.
    by rewrite defs_app, defs_cons, <- !app_assoc. }
  rewrite Himg in *. rewrite !length_app. apply holds_app in Hm as [Hp Hm].
  apply holds_app in Hm as [He Hm]. rewrite Z.add_0_l in *. fold env in He, Hm |- *.
  rewrite length_app in Hm. cbn [length] in *. unfold delete_def.
  replace (env + Z.of_nat (length (encode d)) + 1)
    with (env + Z.of_nat (length (encode d) + 1)) by lia.
  destruct post as [|d2 post].
  - apply holds_cons in Hm as [Hm _]. rewrite Hm. simpl Z.eqb. cbv iota. rewrite app_nil_r.
    destruct (Z.ltb_spec 0 env) as [Hpos|Hz]; cbn [mbind option_bind].
    + eexists. split; [done|]. split.
      * destruct pre as [|d0 pre]; [simpl in env; lia|]. unfold image. apply holds_app.
        replace (env - 1 + 1) with env by lia. split.
        -- eapply holds_ext; [|done]. intros. apply upd_ne. unfold env. lia.
        -- apply holds_cons. split; [|done]. apply upd_eq.
      * intros b Hb. apply upd_ne. lia.
    + assert (env = 0) by lia. destruct pre as [|d0 pre].
      * eexists. split; [done|]. split.
        -- apply holds_cons. split; [rewrite upd_ne by lia; rewrite H; apply upd_eq|].
           apply holds_cons. split; [rewrite H; apply upd_eq|done].
        -- intros b Hb. rewrite !upd_ne by lia. done.
      * exfalso. unfold env in H. rewrite defs_length_cons in H. lia.
  - assert (Hne : (m (env + Z.of_nat (length (encode d) + 1)) =? 0) = false).
    { apply (def_start m _ d2 post); [|done]. by apply List.Forall_inv in Hpost. }
    rewrite Hne.
    destruct (shift_down_spec m env (env + Z.of_nat (length (encode d) + 1)) (defs (d2 :: post)) fuel)
      as (m' & Hs & Hh & Hout); [by apply run_ok_defs|done|lia|done|].
    rewrite Hs. cbn [mbind option_bind]. eexists. split; [done|].
    assert (0 <= env) by (unfold env; lia).
    replace (env + Z.of_nat (length (defs (d2 :: post))) - 1 + 1)
      with (env + Z.of_nat (length (defs (d2 :: post)))) by lia.
    split.
    + assert (Himg2 : image (pre ++ d2 :: post) = defs pre ++ defs (d2 :: post) ++ [0]).
      { unfold image. destruct (pre ++ d2 :: post) eqn:E; [by destruct pre|]. rewrite <- E.
        by rewrite defs_app, <- app_assoc. }
      rewrite Himg2. apply holds_app. split.
      * eapply holds_ext; [|done]. intros b Hb. rewrite upd_ne by (unfold env in *; lia).
        apply Hout. unfold env. lia.
      * rewrite Z.add_0_l. fold env. apply holds_app. split.
        -- eapply holds_ext; [|done]. intros b Hb. apply upd_ne. lia.
        -- apply holds_cons. split; [apply upd_eq|done].
    + intros b Hb. rewrite upd_ne by lia. apply Hout. lia.
Qed.

(** ** Appending *)

Lemma env_end_from m a s fuel :
  run_ok s -> holds m a (s ++ [0]) -> (length s <= fuel)%nat ->
  env_end fuel m a = Some (a + Z.of_nat (length s) - 1).
Proof.
  revert a fuel. induction s as [|c s IH]; intros a [|fuel] Hr Hm Hf; cbn [length] in Hf;
    try lia; try done.
  apply holds_cons in Hm as [Hc Hm]. cbn [env_end]. rewrite Hc. destruct s as [|d s].
  - simpl in Hr. subst c. apply holds_cons in Hm as [-> _]. simpl. f_equal. lia.
  - destruct Hr as [Hcd Hr]. pose proof Hm as Hm0. apply holds_cons in Hm0 as [-> _].
    replace (negb (c =? 0) || negb (d =? 0)) with true by (symmetry; bdestruct).
    rewrite IH by (done || (cbn [length] in *; lia)). f_equal. cbn [length]. lia.
Qed.

(** Where the new definition goes. *)
Lemma env_end_spec m l fuel :
  Forall def_ok l -> holds m 0 (image l) -> (length (defs l) < fuel)%nat ->
  exists e, env_end fuel m 0 = Some e /\
    (if 0 <? e then e + 1 else e) = Z.of_nat (length (defs l)).
Proof.
  intros Hl Hm Hf. destruct l as [|d l].
  - destruct fuel; [simpl in Hf; lia|]. apply holds_cons in Hm as [H0 Hm].
    apply holds_cons in Hm as [H1 _]. exists 0. cbn [env_end]. by rewrite H0, H1.
  - assert (Hr : run_ok (defs (d :: l))) by (by apply run_ok_defs).
    rewrite (env_end_from m 0 (defs (d :: l))) by (done || lia). eexists. split; [done|].
    rewrite defs_length_cons, encode_length. bdestruct.
Qed.

Lemma put_string_spec m a s m' e :
  put_string m a s = (m', e) ->
  e = a + Z.of_nat (length s) /\ holds m' a (s ++ [0]) /\
  forall b, ~ (a <= b <= a + Z.of_nat (length s)) -> m' b = m b.
Proof.
  revert m a. induction s as [|c s IH]; intros m a H; cbn [put_string length] in *.
  - simplify_eq. split_and!; [lia|apply holds_cons; split; [apply upd_eq|done]|].
    intros b Hb. apply upd_ne. lia.
  - apply IH in H as (-> & Hh & Hout). split_and!; [lia| |].
    + apply holds_cons. split; [|done]. rewrite Hout by lia. apply upd_eq.
    + intros b Hb. rewrite Hout by lia. apply upd_ne. lia.
Qed.

(** The text of the values, each after its separator. *)
Fixpoint flat (sep : Z) (vals : list (list Z)) : list Z :=
  match vals with [] => [] | v :: vals => sep :: v ++ flat 32 vals end.

Lemma flat_join sep vals : vals <> [] -> flat sep vals = sep :: join vals.
Proof.
  revert sep. induction vals as [|v vals IH]; intros sep H; [done|]. cbn [flat join].
  destruct vals as [|w vals]; [simpl; by rewrite app_nil_r|]. by rewrite IH.
Qed.

Lemma put_values_spec m a sep vals m' e :
  m a = 0 -> put_values m a sep vals = (m', e) ->
  e = a + Z.of_nat (length (flat sep vals)) /\ holds m' a (flat sep vals ++ [0]) /\
  forall b, ~ (a <= b <= a + Z.of_nat (length (flat sep vals))) -> m' b = m b.
Proof.
  revert m a sep. induction vals as [|v vals IH]; intros m a sep Ha H; cbn [put_values flat] in *.
  - simplify_eq. split_and!; [simpl; lia|by apply holds_cons|done].
  - destruct (put_string _ _ _) as [m1 e1] eqn:E.
    apply put_string_spec in E as (-> & Hh & Hout).
    apply holds_app in Hh as [Hv H0]. apply holds_cons in H0 as [H0 _].
    apply IH in H as (-> & Hh' & Hout'); [|done].
    cbn [length]. rewrite length_app. split_and!; [lia| |].
    + cbn [app]. apply holds_cons. split.
      * rewrite Hout', Hout by lia. apply upd_eq.
      * rewrite <- app_assoc. apply holds_app. split; [|done].
        eapply holds_ext; [|done]. intros b Hb. apply Hout'. lia.
    + intros b Hb. rewrite Hout', Hout by lia. apply upd_ne. lia.
Qed.

Lemma values_length vals n :
  fold_left (fun len v => len + (Z.of_nat (length v) + 1)) vals n =
  n + Z.of_nat (length (flat 61 vals)).
Proof.
  assert (H : forall sep, fold_left (fun len v => len + (Z.of_nat (length v) + 1)) vals n =
    n + Z.of_nat (length (flat sep vals))); [|apply H]. revert n.
  induction vals as [|v vals IH]; intros n sep; simpl; [lia|].
  rewrite (IH _ 32), length_app. lia.
Qed.

Lemma append_def_spec cfg m l name vals :
  holds m 0 (image l) -> vals <> [] ->
  let l' := l ++ [(name, join vals)] in
  match append_def cfg m (Z.of_nat (length (defs l))) name vals with
  | Some m' => Z.of_nat (length (image l')) <= ENV_SIZE cfg /\ holds m' 0 (image l') /\
      forall b, ~ (0 <= b < Z.of_nat (length (image l'))) -> m' b = m b
  | None => ENV_SIZE cfg < Z.of_nat (length (image l'))
  end.
Proof.
  intros Hm Hv l'. set (e := Z.of_nat (length (defs l))).
  assert (Himg : image l' = defs l ++ name ++ flat 61 vals ++ [0; 0]).
  { unfold image, l'. destruct (l ++ _) eqn:E; [by destruct l|]. rewrite <- E.
    rewrite defs_app, flat_join by done. unfold defs at 2, encode. cbn [map concat fst snd].
    rewrite app_nil_r. by rewrite <- !app_assoc. }
  assert (Hlen : Z.of_nat (length (image l')) =
    e + (Z.of_nat (length name) + 2 + Z.of_nat (length (flat 61 vals)))).
  { rewrite Himg, !length_app. cbn [length]. unfold e. lia. }
  unfold append_def. rewrite values_length.
  destruct (Z.ltb_spec (ENV_SIZE cfg - e)
    (Z.of_nat (length name) + 2 + Z.of_nat (length (flat 61 vals)))); [lia|].
  destruct (put_string m e name) as [m1 e1] eqn:E1.
  apply put_string_spec in E1 as (-> & Hn & Hout1).
  apply holds_app in Hn as [Hn H0]. apply holds_cons in H0 as [H0 _].
  destruct (put_values m1 _ 61 vals) as [m2 e2] eqn:E2.
  apply put_values_spec in E2 as (-> & Hvs & Hout2); [|done].
  split; [lia|]. rewrite Hlen. split.
  - rewrite Himg. apply image_defs, holds_app in Hm as [Hd _].
    apply holds_app. split; [|apply holds_app; split; [|apply holds_app; split]].
    + eapply holds_ext; [|done]. intros b Hb.
      rewrite upd_ne, Hout2, Hout1 by (unfold e in *; lia). done.
    + eapply holds_ext; [|done]. intros b Hb. fold e in Hb.
      rewrite upd_ne, Hout2 by lia. done.
    + rewrite Z.add_0_l. fold e. apply holds_app in Hvs as [Hvs _].
      eapply holds_ext; [|done]. intros b Hb. apply upd_ne. lia.
    + rewrite Z.add_0_l. fold e. apply holds_app in Hvs as [_ Hvs].
      apply holds_cons in Hvs as [Hz _]. apply holds_cons. split.
      * rewrite upd_ne by lia. done.
      * apply holds_cons. split; [apply upd_eq|done].
  - assert (0 <= e) by (unfold e; lia).
    intros b Hb. rewrite upd_ne, Hout2, Hout1 by lia. done.
Qed.

(** ** Setting a variable *)

Lemma env_bytes_set s m : env_bytes (set_bytes s m) = m.
Proof. unfold env_bytes, set_bytes. by destruct (env_valid s). Qed.

Lemma env_bytes_id s i : env_bytes (set_env_id s i) = env_bytes s.
Proof. done. Qed.

Lemma env_bytes_crc cfg s : env_bytes (env_crc_update cfg s) = env_bytes s.
Proof. done. Qed.

Lemma env_bytes_after s name v : env_bytes (after_set s name v) = env_bytes s.
Proof. unfold after_set. by repeat case_match. Qed.

Lemma valid_set_bytes s m : env_valid (set_bytes s m) = env_valid s.
Proof. unfold set_bytes. by destruct (env_valid s). Qed.

(** The RAM copy is in use and its checksum is right. *)
Definition crc_ok (cfg : env_config) (s : envst) : Prop :=
  env_crc s = crc32 (host_be cfg) (env_data s) 0 0 (ENV_SIZE cfg).

Lemma crc_ok_update cfg s : crc_ok cfg (env_crc_update cfg s).
Proof. done. Qed.

Lemma crc_ok_after cfg s name v : crc_ok cfg s -> crc_ok cfg (after_set s name v).
Proof. unfold after_set, crc_ok. by repeat case_match. Qed.

(** The specification: the definitions afterwards and the result. *)
Definition setenv_result (size : Z) (l : list def) (name : list Z) (vals : list (list Z))
    : list def * Z :=
  let l1 := remove_def name l in
  match vals with
  | [] => (l1, 0)
  | _ =>
    let l2 := l1 ++ [(name, join vals)] in
    if Z.of_nat (length (image l2)) <=? size then (l2, 0) else (l1, 1)
  end.

(** A name that _do_setenv treats like any other. *)
Definition plain (name : list Z) : Prop :=
  name_ok name /\ console_of name = -1 /\
  name <> str_serial /\ name <> str_ethaddr /\ name <> str_baudrate.

Lemma join_ok vals : Forall value_ok vals -> value_ok (join vals).
Proof.
  intros Hv. induction Hv as [|v vals H1 H2 IH]; simpl; [constructor|].
  destruct vals; [done|]. unfold value_ok. apply Forall_app. split; [done|].
  by constructor.
Qed.

Lemma setenv_finish_spec cfg fuel name vals s l :
  reprs (ENV_SIZE cfg) (env_bytes s) l -> name_ok name -> Forall value_ok vals ->
  ENV_SIZE cfg < Z.of_nat fuel ->
  let '(l', r) :=
    match vals with
    | [] => (l, 0)
    | _ => let l2 := l ++ [(name, join vals)] in
           if Z.of_nat (length (image l2)) <=? ENV_SIZE cfg then (l2, 0) else (l, 1)
    end in
  exists s', setenv_finish cfg fuel name vals s = Some (s', r) /\
    reprs (ENV_SIZE cfg) (env_bytes s') l' /\ (r = 0 -> crc_ok cfg s') /\
    forall b, ~ (0 <= b < ENV_SIZE cfg) -> env_bytes s' b = env_bytes s b.
Proof.
  intros (Hm & Hl & Hs) Hn Hv Hf. pose proof (image_length l).
  destruct vals as [|v vals]; cbn [setenv_finish].
  { eexists. split; [done|]. rewrite env_bytes_crc. split_and!; try done. }
  destruct (env_end_spec (env_bytes s) l fuel Hl Hm) as (e & He & Hpos); [lia|].
  unfold setenv_finish. rewrite He. cbn [mbind option_bind]. rewrite Hpos.
  pose proof (append_def_spec cfg (env_bytes s) l name (v :: vals) Hm ltac:(done)) as Happ.
  set (l2 := l ++ [(name, join (v :: vals))]) in *. cbv zeta in Happ.
  destruct (append_def _ _ _ _ _) as [m'|].
  - destruct Happ as (Hfit & Hh & Hout). rewrite (proj2 (Z.leb_le _ _)) by done.
    eexists. split; [done|]. rewrite env_bytes_after, env_bytes_crc, env_bytes_set.
    split_and!; [|by intros _; apply crc_ok_after, crc_ok_update|].
    + split_and!; [done| |done]. apply Forall_app. split; [done|]. apply List.Forall_cons; [|done].
      split; [done|]. by apply join_ok.
    + intros b Hb. apply Hout. lia.
  - rewrite (proj2 (Z.leb_gt _ _)) by done. eexists. split; [done|]. split_and!; done.
Qed.

Lemma remove_absent name l : assoc name l = None -> remove_def name l = l.
Proof.
  unfold assoc. induction l as [|d l IH]; simpl; [done|].
  destruct (streq (fst d) name); [done|]. intros H. by rewrite IH.
Qed.

Lemma do_setenv_spec cfg fuel name vals argv2 s l :
  plain name -> Forall value_ok vals -> reprs (ENV_SIZE cfg) (env_bytes s) l ->
  ENV_SIZE cfg < Z.of_nat fuel ->
  let '(l', r) := setenv_result (ENV_SIZE cfg) l name vals in
  exists s', _do_setenv cfg fuel name vals argv2 s = Some (s', r) /\
    reprs (ENV_SIZE cfg) (env_bytes s') l' /\ (r = 0 -> crc_ok cfg s') /\
    forall b, ~ (0 <= b < ENV_SIZE cfg) -> env_bytes s' b = env_bytes s b.
Proof.
  intros (Hn & Hc & Hser & Heth & Hbaud) Hv Hr Hf. pose proof Hr as (Hm & Hl & Hs).
  pose proof (image_length l) as Hil. unfold _do_setenv.
  assert (Heq : existsb (fun c => c =? 61) name = false).
  { apply not_true_iff_false. intros He. apply existsb_exists in He as (c & Hin & Hc61).
    unfold name_ok in Hn. rewrite List.Forall_forall in Hn. apply Hn in Hin. lia. }
  rewrite Heq. rewrite env_bytes_id. set (s1 := set_env_id s (env_id s + 1)).
  assert (Hgo : check_console cfg name vals s1 = Go s1).
  { unfold check_console. by rewrite Hc. }
  assert (How : check_overwrite cfg name argv2 s1 = Go s1).
  { unfold check_overwrite. by rewrite !(proj2 (streq_false _ _)) by done. }
  destruct (assoc name l) as [v|] eqn:Has.
  - destruct (find_var_some (env_bytes s) 0 l name v fuel 0 Hl Hn) as
      (pre & d & post & o & -> & Hrm & Ho & Hfv); [by apply image_defs|lia|lia|done|].
    rewrite Hfv. cbn [mbind option_bind]. rewrite Hgo, (proj2 (Z.leb_le 0 o)), How by done.
    rewrite Z.add_0_l. change (env_bytes s1) with (env_bytes s).
    pose proof (defs_app pre (d :: post)) as Hda. apply (f_equal length) in Hda.
    rewrite length_app, defs_length_cons, encode_length in Hda.
    destruct (delete_def_spec (env_bytes s) pre d post fuel Hl Hm) as (m' & Hdel & Hh & Hout); [lia|].
    rewrite Hdel. cbn [mbind option_bind].
    assert (Hl' : Forall def_ok (pre ++ post)).
    { apply Forall_app in Hl as [H1 H2]. apply List.Forall_cons_iff in H2 as [_ H2].
      by apply Forall_app. }
    assert (Hlen : Z.of_nat (length (image (pre ++ post))) <= ENV_SIZE cfg).
    { pose proof (image_length (pre ++ post)). rewrite defs_app, length_app in *. lia. }
    pose proof (setenv_finish_spec cfg fuel name vals (set_bytes s1 m') (pre ++ post)) as Hfin.
    rewrite env_bytes_set in Hfin. specialize (Hfin ltac:(done) Hn Hv Hf).
    unfold setenv_result. rewrite Hrm.
    destruct (match vals with [] => _ | _ => _ end) as [l' r] in Hfin |- *.
    destruct Hfin as (s' & Hres & Hrep & Hcrc & Hframe). exists s'. split_and!; try done.
    intros b Hb. rewrite Hframe by done. apply Hout. lia.
  - destruct (find_var_none (env_bytes s) 0 l name fuel 0 Hl Hn) as (e & n & Hfv);
      [by apply image_defs|lia|done|].
    rewrite Hfv. cbn [mbind option_bind]. rewrite Hgo. change (0 <=? -1) with false. cbv iota.
    pose proof (setenv_finish_spec cfg fuel name vals s1 l Hr Hn Hv Hf) as Hfin.
    unfold setenv_result. rewrite (remove_absent name l) by done.
    by destruct (match vals with [] => _ | _ => _ end) as [l' r].
Qed.

(** C1: [setenv] (the command, and through it every caller) implements the abstract
    operation for every plain name (none of those that are refused or change more than the environment:
    [ethaddr], [serial#], [baudrate], [stdin], [stdout] and [stderr]): without values it deletes the definition;
    with values it replaces it by one at the end whose value is the values
    joined by blanks; when that does not fit it deletes the old definition and
    gives 1.  It terminates, writes nothing outside the array, and leaves a
    valid checksum when it gives 0. *)
Theorem setenv_spec cfg fuel name vals s l :
  plain name -> Forall value_ok vals -> reprs (ENV_SIZE cfg) (env_bytes s) l ->
  ENV_SIZE cfg < Z.of_nat fuel ->
  let '(l', r) := setenv_result (ENV_SIZE cfg) l name vals in
  exists s', do_setenv cfg fuel name vals s = Some (s', r) /\
    reprs (ENV_SIZE cfg) (env_bytes s') l' /\ (r = 0 -> crc_ok cfg s') /\
    forall b, ~ (0 <= b < ENV_SIZE cfg) -> env_bytes s' b = env_bytes s b.
Proof. apply do_setenv_spec. Qed.

(** ** Reading what was set *)

Lemma assoc_app name l k :
  assoc name (l ++ k) = match assoc name l with Some v => Some v | None => assoc name k end.
Proof.
  unfold assoc. induction l as [|d l IH]; simpl; [done|].
  by destruct (streq (fst d) name).
Qed.

Lemma assoc_none name l : assoc name l = None <-> ~ In name (map fst l).
Proof.
  unfold assoc. induction l as [|d l IH]; simpl; [tauto|].
  destruct (streq (fst d) name) eqn:E.
  - apply streq_true in E. simpl. split; [done|]. intros H. exfalso. auto.
  - apply streq_false in E. rewrite IH. tauto.
Qed.

Lemma remove_other name other l :
  other <> name -> assoc other (remove_def name l) = assoc other l.
Proof.
  intros Hne. unfold assoc. induction l as [|d l IH]; simpl; [done|].
  destruct (streq (fst d) name) eqn:E.
  - apply streq_true in E. by rewrite (proj2 (streq_false _ _)) by congruence.
  - simpl. by destruct (streq (fst d) other).
Qed.

Lemma remove_in name l x : In x (map fst (remove_def name l)) -> In x (map fst l).
Proof.
  induction l as [|d l IH]; simpl; [done|]. destruct (streq (fst d) name); simpl; tauto.
Qed.

Lemma remove_unique name l :
  List.NoDup (map fst l) ->
  List.NoDup (map fst (remove_def name l)) /\ assoc name (remove_def name l) = None.
Proof.
  induction l as [|d l IH]; simpl; [done|]. inversion 1 as [|? ? Hnin Hnd]; subst.
  destruct (streq (fst d) name) eqn:E.
  - apply streq_true in E. split; [done|]. apply assoc_none. by rewrite <- E.
  - destruct (IH Hnd) as [H1 H2]. split.
    + simpl. constructor; [|done]. intros Hin. by apply remove_in in Hin.
    + unfold assoc. simpl. by rewrite E.
Qed.

(** after a successful [setenv] with values, [getenv] of that name gives the
    values joined by blanks, [getenv] of every other name gives what it gave
    before, and no name is defined twice. *)
Theorem setenv_getenv cfg fuel name vals s s' l :
  plain name -> vals <> [] -> Forall value_ok vals ->
  reprs (ENV_SIZE cfg) (env_bytes s) l -> List.NoDup (map fst l) ->
  ENV_SIZE cfg < Z.of_nat fuel ->
  do_setenv cfg fuel name vals s = Some (s', 0) ->
  exists l', reprs (ENV_SIZE cfg) (env_bytes s') l' /\ List.NoDup (map fst l') /\
  forall other, name_ok other ->
  exists r, getenv fuel (ENV_SIZE cfg) s' other = Some r /\
  match (if streq other name then Some (join vals) else assoc other l), r with
  | Some v, Some p => holds (env_bytes s') p (v ++ [0])
  | None, None => True
  | _, _ => False
  end.
Proof.
  intros Hp Hne Hv Hr Hnd Hf Hset.
  pose proof (do_setenv_spec cfg fuel name vals (hd_error vals) s l Hp Hv Hr Hf) as Hspec.
  unfold setenv_result in Hspec. destruct vals as [|v vals]; [done|].
  set (l2 := remove_def name l ++ _) in *. destruct (remove_unique name l Hnd) as [Hnd1 Habs].
  destruct (Z.leb_spec (Z.of_nat (length (image l2))) (ENV_SIZE cfg)) as [Hfit|Hover];
    destruct Hspec as (s2 & Hs2 & Hrep & _ & _); unfold do_setenv in Hset; rewrite Hset in Hs2;
    simplify_eq.
  exists l2. split; [done|]. split.
  - unfold l2. rewrite map_app. apply NoDup_app; [done|constructor; [intros []|constructor]|].
    intros x Hin [Hx|[]]. simpl in Hx. subst x. by apply assoc_none in Habs.
  - intros other Ho. destruct Hrep as (Hm & Hl & Hs). pose proof (image_length l2).
    destruct (getenv_from_spec (env_bytes s2) 0 l2 other fuel (ENV_SIZE cfg)) as (r & Hg & Hval);
      [done|done|by apply image_defs|lia|lia|lia|].
    exists r. split; [done|]. unfold l2 in Hval. rewrite assoc_app in Hval.
    destruct (streq other name) eqn:E.
    + apply streq_true in E as ->. rewrite Habs in Hval. unfold assoc in Hval. simpl find in Hval.
      rewrite (proj2 (streq_true _ _)) in Hval by done. simpl in Hval.
      destruct r; [|done]. by destruct Hval.
    + apply streq_false in E. rewrite remove_other in Hval by done.
      destruct (assoc other l); [destruct r; [|done]; by destruct Hval|].
      unfold assoc in Hval. simpl in Hval. by rewrite (proj2 (streq_false _ _)) in Hval by congruence.
Qed.

Lemma getenv_copy_spec m p v len n fuel :
  holds m p (v ++ [0]) -> Forall (fun c => c <> 0) v -> (length v + 1 < fuel)%nat -> n <= len ->
  getenv_copy fuel m len p n =
  Some (if n + Z.of_nat (length v) <? len then (v ++ [0], n + Z.of_nat (length v) + 1)
        else (firstn (Z.to_nat (len - n)) v, len + 1)).
Proof.
  intros Hm Hv. revert p n fuel Hm. induction Hv as [|c v Hc Hv IH]; intros p n [|fuel] Hm Hf Hn; try lia;
    cbn [length] in Hf; apply holds_cons in Hm as [Hp Hm]; cbn [getenv_copy]; rewrite Hp.
  - simpl. rewrite Z.add_0_r. destruct (Z.ltb_spec n len); [done|].
    rewrite firstn_nil. do 3 f_equal. lia.
  - rewrite (proj2 (Z.eqb_neq c 0)) by done. destruct (Z.ltb_spec n len) as [Hlt|Hge].
    + rewrite IH by (done || lia). cbn [mbind option_bind length].
      replace (n + 1 + Z.of_nat (length v)) with (n + Z.of_nat (S (length v))) by lia.
      destruct (_ <? len); [done|].
      by replace (Z.to_nat (len - n)) with (S (Z.to_nat (len - (n + 1)))) by lia.
    + cbn [length]. rewrite (proj2 (Z.ltb_ge _ _)) by lia.
      replace (Z.to_nat (len - n)) with O by lia. simpl. do 3 f_equal. lia.
Qed.

(** what [getenv_r] stores in a buffer of [len] bytes for a variable with value
    [v].  With room to spare it is the string with its NUL.  When the buffer
    fits the string and its NUL exactly, a second NUL goes one byte past the
    end of the buffer.  When the buffer is shorter, it is filled and not
    terminated, and the result is [len + 1]. *)
Theorem getenv_r_spec size s l name v len fuel :
  reprs size (env_bytes s) l -> name_ok name -> assoc name l = Some v ->
  size < Z.of_nat fuel -> 0 <= len ->
  getenv_r fuel size s name len =
  Some (if Z.of_nat (length v) + 1 <? len then (v ++ [0], Z.of_nat (length v) + 1)
        else if Z.of_nat (length v) + 1 =? len then (v ++ [0; 0], len)
        else (firstn (Z.to_nat len) v, len + 1)).
Proof.
  intros (Hm & Hl & Hs) Hn Ha Hf Hlen. pose proof (image_length l).
  destruct (getenv_from_spec (env_bytes s) 0 l name fuel size) as (r & Hr & Hv);
    [done|done|by apply image_defs|lia|lia|lia|].
  unfold getenv_r, getenv. rewrite Hr. rewrite Ha in Hv. destruct r as [p|]; [|done].
  destruct Hv as [Hp _]. cbn [mbind option_bind].
  assert (Hd : exists d, In d l /\ snd d = v).
  { unfold assoc in Ha. destruct (find (fun d => streq (fst d) name) l) as [d|] eqn:E; [|done]. apply find_some in E as [Hin _].
    exists d. split; [done|]. by injection Ha. }
  destruct Hd as (d & Hin & Hdv). assert (Hvok : Forall (fun c => c <> 0) v).
  { rewrite List.Forall_forall in Hl. apply Hl in Hin as [_ Hv]. by rewrite <- Hdv. }
  assert (Hvlen : (length v + 1 < fuel)%nat).
  { apply in_split in Hin as (l1 & l2 & ->). rewrite defs_app, length_app, defs_length_cons,
      encode_length in *. rewrite Hdv in *. lia. }
  rewrite (getenv_copy_spec _ p v len 0 fuel Hp Hvok Hvlen Hlen).
  rewrite Z.add_0_l, Z.sub_0_r. cbn [mbind option_bind].
  destruct (Z.ltb_spec (Z.of_nat (length v)) len) as [Hlt|Hge].
  - destruct (Z.ltb_spec (Z.of_nat (length v) + 1) len) as [H1|H1].
    + by rewrite (proj2 (Z.eqb_neq _ _)) by lia.
    + rewrite !(proj2 (Z.eqb_eq _ _)) by lia. rewrite <- app_assoc. do 2 f_equal. lia.
  - rewrite (proj2 (Z.ltb_ge _ _)), !(proj2 (Z.eqb_neq _ _)) by lia. done.
Qed.

(** deleting "baudrate" while it is defined reads a null pointer: the new rate is
    parsed from [argv[2]] before the check whether there is a value. *)
Theorem setenv_delete_baudrate cfg fuel v s l :
  reprs (ENV_SIZE cfg) (env_bytes s) l -> assoc str_baudrate l = Some v ->
  ENV_SIZE cfg < Z.of_nat fuel ->
  (exists e n o, find_var fuel (env_bytes s) str_baudrate 0 0 (-1) = Some (e, n, o) /\ 0 <= o) /\
  (forall s0, check_overwrite cfg str_baudrate None s0 = NullRead) /\
  do_setenv cfg fuel str_baudrate [] s = None.
Proof.
  intros (Hm & Hl & Hs) Ha Hf. pose proof (image_length l).
  assert (Hn : name_ok str_baudrate) by (repeat constructor; done).
  destruct (find_var_some (env_bytes s) 0 l str_baudrate v fuel 0 Hl Hn) as
    (pre & d & post & o & _ & _ & Ho & Hfv); [by apply image_defs|lia|lia|done|].
  split_and!; [by eexists _, _, _|done|].
  unfold do_setenv, _do_setenv. change (existsb _ str_baudrate) with false. cbv iota.
  rewrite env_bytes_id, Hfv. cbn [mbind option_bind].
  by rewrite (proj2 (Z.leb_le 0 o)) by done.
Qed.

(** when the new definition does not fit, the old one is gone from the array but
    the checksum is not brought up to date. *)
Theorem setenv_overflow_stale_crc :
  exists cfg fuel name vals s s', env_valid s = true /\ crc_ok cfg s /\
    do_setenv cfg fuel name vals s = Some (s', 1) /\
    getenv fuel (ENV_SIZE cfg) s' name = Some None /\ ~ crc_ok cfg s'.
Proof.
  set (cfg := {| ENV_SIZE := 16; host_be := false; baudrate_table := [];
                 console_assign := fun _ _ => 0 |}).
  set (m := store_list zeros 0 (image [([97], [49]); ([98], [50])])).
  exists cfg, 17%nat, [97], [[49; 50; 51; 52; 53; 54; 55; 56; 57]],
    (EnvSt true m (crc32 false m 0 0 16) zeros 1 0 0 0 []).
  eexists. split_and!; [done|done|vm_compute; reflexivity|vm_compute; reflexivity|].
  vm_compute. congruence.
Qed.

(** ** Witnesses *)

Definition demo_cfg : env_config :=
  {| ENV_SIZE := 64; host_be := true; baudrate_table := [9600; 115200];
     console_assign := fun _ _ => 0 |}.

(** a=1, bd=23 and baudrate=9600. *)
Definition demo_defs : list def :=
  [([97], [49]); ([98; 100], [50; 51]); (str_baudrate, [57; 54; 48; 48])].

Definition demo : envst :=
  EnvSt true (store_list zeros 0 (image demo_defs)) 0 zeros 1 115200 0 0 [].

Lemma demo_reprs : reprs 64 (env_bytes demo) demo_defs.
Proof.
  split_and!; [vm_compute; reflexivity| |vm_compute; congruence].
  repeat (apply List.Forall_cons; [split; repeat constructor; done|]). apply List.Forall_nil.
Qed.

Lemma demo_plain c : c <> 0 -> c <> 61 -> plain [c].
Proof.
  intros H0 H61. split_and!; [apply List.Forall_cons; [done|apply List.Forall_nil]|
    unfold console_of; by rewrite !(proj2 (streq_false _ _)) by discriminate|discriminate..].
Qed.

Lemma getenv_spec_witness :
  exists r, getenv 65 64 demo [98; 100] = Some r /\
  match assoc [98; 100] demo_defs, r with
  | Some v, Some p => holds (env_bytes demo) p (v ++ [0])
  | None, None => True
  | _, _ => False
  end.
Proof.
  apply (getenv_spec 64 demo demo_defs [98; 100] 65); [apply demo_reprs| |reflexivity].
  repeat constructor; discriminate.
Defined.

Lemma setenv_spec_witness :
  let '(l', r) := setenv_result 64 demo_defs [97] [[120]; [121]] in
  exists s', do_setenv demo_cfg 65 [97] [[120]; [121]] demo = Some (s', r) /\
    reprs 64 (env_bytes s') l' /\ (r = 0 -> crc_ok demo_cfg s') /\
    forall b, ~ (0 <= b < 64) -> env_bytes s' b = env_bytes demo b.
Proof.
  apply (setenv_spec demo_cfg 65 [97] [[120]; [121]] demo demo_defs).
  - apply demo_plain; discriminate.
  - repeat constructor; discriminate.
  - apply demo_reprs.
  - reflexivity.
Defined.

(** The state after [setenv a x]. *)
Definition demo_set : envst :=
  match do_setenv demo_cfg 65 [97] [[120]] demo with Some (s, _) => s | None => demo end.

Lemma setenv_getenv_witness :
  exists l', reprs 64 (env_bytes demo_set) l' /\ List.NoDup (map fst l') /\
  forall other, name_ok other ->
  exists r, getenv 65 64 demo_set other = Some r /\
  match (if streq other [97] then Some (join [[120]]) else assoc other demo_defs), r with
  | Some v, Some p => holds (env_bytes demo_set) p (v ++ [0])
  | None, None => True
  | _, _ => False
  end.
Proof.
  apply (setenv_getenv demo_cfg 65 [97] [[120]] demo demo_set demo_defs).
  - apply demo_plain; discriminate.
  - discriminate.
  - repeat constructor; discriminate.
  - apply demo_reprs.
  - repeat constructor; simpl; intuition discriminate.
  - reflexivity.
  - reflexivity.
Defined.

Lemma getenv_r_spec_witness :
  getenv_r 65 64 demo [98; 100] 3 = Some ([50; 51; 0; 0], 3) /\
  getenv_r 65 64 demo [98; 100] 3 =
  Some (if 2 + 1 <? 3 then ([50; 51] ++ [0], 2 + 1)
        else if 2 + 1 =? 3 then ([50; 51] ++ [0; 0], 3)
        else (firstn (Z.to_nat 3) [50; 51], 3 + 1)).
Proof.
  split; [vm_compute; reflexivity|].
  apply (getenv_r_spec 64 demo demo_defs [98; 100] [50; 51] 3 65).
  - apply demo_reprs.
  - repeat constructor; discriminate.
  - reflexivity.
  - reflexivity.
  - lia.
Defined.

Lemma setenv_delete_baudrate_witness :
  (exists e n o, find_var 65 (env_bytes demo) str_baudrate 0 0 (-1) = Some (e, n, o) /\ 0 <= o) /\
  (forall s0, check_overwrite demo_cfg str_baudrate None s0 = NullRead) /\
  do_setenv demo_cfg 65 str_baudrate [] demo = None.
Proof.
  apply (setenv_delete_baudrate demo_cfg 65 [57; 54; 48; 48] demo demo_defs).
  - apply demo_reprs.
  - reflexivity.
  - reflexivity.
Defined.
