(* ===== verification/Shell.v ===== *)
(** The command line interpreter of [common/main.c]: splitting a line into
    arguments ([parse_line]), macro and quote processing ([process_macros]), and
    the execution of a command line ([run_command], [do_run]).

    Strings are lists of characters without the NUL.  The interpreter runs over a
    world [W] that it sees through an interface ([Shell]): the environment
    lookup, the command table and the Control-C flag.  Messages are left out. *)

From S2P Require Import Prelude CString.

(** What the interpreter needs from the rest of the system. *)
Class Shell (W : Type) : Type := {
  CONFIG_SYS_CBSIZE : Z;
  CONFIG_SYS_MAXARGS : nat;
  getenv : W -> list Z -> option (list Z);
  cmd_tbl : Type;
  find_cmd : W -> list Z -> option cmd_tbl;
  maxargs : cmd_tbl -> Z;
  repeatable : cmd_tbl -> Z;
  is_bootd : cmd_tbl -> bool;
  cmd_run : cmd_tbl -> Z -> list (list Z) -> W -> W * Z;
  clear_ctrlc : W -> W;
  had_ctrlc : W -> bool }.

(** ** Arguments *)

Definition blank (c : Z) : bool := (c =? 32) || (c =? 9).

Fixpoint skip_blanks (line : list Z) : list Z :=
  match line with
  | c :: line' => if blank c then skip_blanks line' else line
  | [] => []
  end.

(** The argument at the start of the line, and the rest from its end on. *)
Fixpoint take_word (line : list Z) : list Z * list Z :=
  match line with
  | [] => ([], [])
  | c :: line' =>
    if negb (c =? 32) && negb (c =? 9) then
      let '(w, r) := take_word line' in (c :: w, r)
    else ([], line)
  end.

(** The arguments, [n] at most, and whether [argv] ends with a null pointer (it
    does not after "Too many args"). *)
Fixpoint parse_line (n : nat) (line : list Z) : list (list Z) * bool :=
  match n with
  | O => ([], false)
  | S n =>
    match skip_blanks line with
    | [] => ([], true)
    | line =>
      let '(w, line) := take_word line in
      match line with
      | [] => ([w], true)
      | _ :: line => let '(argv, ok) := parse_line n line in (w :: argv, ok)
      end
    end
  end.

(** ** Macros *)

(** The state of the loop: the input left, the room left, the output so far, the
    automaton's state, [varname_start], and the previous character. *)
Record macro_state : Type := Macro {
  input : list Z;
  outputcnt : nat;
  output : list Z;
  mstate : Z;
  varname_start : list Z;
  prev : Z }.

(** Stores the characters of an expansion as long as there is room. *)
Fixpoint put_all (s : list Z) (room : nat) (out : list Z) : nat * list Z :=
  match s, room with
  | c :: s, S room => put_all s room (out ++ [c])
  | _, _ => (room, out)
  end.

(** The [switch]: [c] is the character, [input] what follows it, [prev] the character
    before it (a removed backslash counts). *)
Definition macro_switch (getenv : list Z -> option (list Z)) (c prev : Z) (input : list Z)
    (s : macro_state) : macro_state :=
  let room := outputcnt s in let out := output s in let vs := varname_start s in
  if mstate s =? 0 then
    if (c =? 39) && negb (prev =? 92) then Macro input room out 3 vs c
    else if (c =? 36) && negb (prev =? 92) then Macro input room out 1 vs c
    else Macro input (pred room) (out ++ [c]) 0 vs c
  else if mstate s =? 1 then
    if (c =? 40) || (c =? 123) then Macro input room out 2 input c
    else
      let '(room, out) := put_all [36; c] room out in Macro input room out 0 vs c
  else if mstate s =? 2 then
    if (c =? 41) || (c =? 125) then
      let envcnt := (length vs - length input - 1)%nat in
      let '(room, out) :=
        match getenv (firstn envcnt vs) with
        | Some envval => put_all envval room out
        | None => (room, out)
        end in
      Macro input room out 0 vs c
    else Macro input room out 2 vs c
  else
    if (c =? 39) && negb (prev =? 92) then Macro input room out 0 vs c
    else Macro input (pred room) (out ++ [c]) 3 vs c.

(** [while (inputcnt && outputcnt)]; every round consumes a character. *)
Fixpoint macro_loop (fuel : nat) (getenv : list Z -> option (list Z)) (s : macro_state)
    : option macro_state :=
  match fuel with
  | O => None
  | S fuel =>
    match input s, outputcnt s with
    | c :: inp, S _ =>
      if negb (mstate s =? 3) && ((c =? 92) && negb (prev s =? 92)) then
        (* one level of escapes is removed *)
        match inp with
        | [] => Some (Macro [] (outputcnt s) (output s) (mstate s) (varname_start s) (prev s))
        | c' :: inp => macro_loop fuel getenv (macro_switch getenv c' c inp s)
        end
      else macro_loop fuel getenv (macro_switch getenv c (prev s) inp s)
    | _, _ => Some s
    end
  end.

(** The text stored before the NUL. *)
Definition process_macros (size : Z) (getenv : list Z -> option (list Z)) (inp : list Z)
    : option (list Z) :=
  s ← macro_loop (S (length inp)) getenv (Macro inp (Z.to_nat size) [] 0 [] 0);
  Some (match outputcnt s with O => removelast (output s) | S _ => output s end).

(** ** Execution *)

(** The separator scan from [sep] on: [before] is the character in front of it and
    [first] says that [sep] is the start of the token.  The token, and what
    follows the separator if there is one. *)
Fixpoint find_sep (s : list Z) (before : Z) (inquotes first : bool)
    : list Z * option (list Z) :=
  match s with
  | [] => ([], None)
  | c :: s =>
    let inquotes := if (c =? 39) && negb (before =? 92) then negb inquotes else inquotes in
    if negb inquotes && (c =? 59) && negb first && negb (before =? 92) then ([], Some s)
    else let '(t, r) := find_sep s c inquotes false in (c :: t, r)
  end.

Definition CMD_FLAG_BOOTD : Z := 1.

Section Run.
Context {W : Type} {sh : Shell W}.

(** What one round of the loop does with its token. *)
Inductive outcome : Type :=
  | Failed (w : W)                           (* [rc = -1; continue] *)
  | Ran (w : W) (flag : Z) (res rep : Z)     (* the command's result and [repeatable] *)
  | Stuck.                                   (* out of fuel *)

Definition run_token (flag : Z) (token : list Z) (w : W) : outcome :=
  match process_macros CONFIG_SYS_CBSIZE (getenv w) token with
  | None => Stuck
  | Some finaltoken =>
    match parse_line CONFIG_SYS_MAXARGS finaltoken with
    | ([], _) => Failed w
    | (argv0 :: args, _) =>
      let argv := argv0 :: args in
      match find_cmd w argv0 with
      | None => Failed w
      | Some cmdtp =>
        if maxargs cmdtp <? Z.of_nat (length argv) then Failed w
        else
          if is_bootd cmdtp && negb (Z.land flag CMD_FLAG_BOOTD =? 0) then Failed w
          else
            let flag := if is_bootd cmdtp then Z.lor flag CMD_FLAG_BOOTD else flag in
            let '(w, res) := cmd_run cmdtp flag argv w in
            Ran w flag res (repeatable cmdtp)
      end
    end
  end.

(** [while ( *str )]; [before] is the character in front of [str]. *)
Fixpoint run_loop (fuel : nat) (flag : Z) (before : Z) (str : list Z) (rc rep : Z) (w : W)
    : option (W * Z) :=
  match fuel with
  | O => None
  | S fuel =>
    match str with
    | [] => Some (w, if negb (rc =? 0) then rc else rep)
    | _ =>
      let '(token, rest) := find_sep str before false true in
      let str := match rest with Some s => s | None => [] end in
      match run_token flag token w with
      | Stuck => None
      | Failed w => run_loop fuel flag 0 str (-1) rep w
      | Ran w flag res r =>
        let rc := if negb (res =? 0) then -1 else rc in
        let rep := Z.land rep r in
        if had_ctrlc w then Some (w, -1) else run_loop fuel flag 0 str rc rep w
      end
    end
  end.

(** [before] is the byte in front of the local [cmdbuf], which the scan looks at when
    the line starts with a quote. *)
Definition run_command (before : Z) (cmd : option (list Z)) (flag : Z) (w : W)
    : option (W * Z) :=
  let w := clear_ctrlc w in
  match cmd with
  | None | Some [] => Some (w, -1)
  | Some cmd =>
    if CONFIG_SYS_CBSIZE <=? Z.of_nat (length cmd) then Some (w, -1)
    else run_loop (S (length cmd)) flag before cmd 0 1 w
  end.

(** The variables named by [argv[1]] and on, each run as a command line. *)
Fixpoint do_run_loop (before : Z) (flag : Z) (names : list (list Z)) (w : W) : option (W * Z) :=
  match names with
  | [] => Some (w, 0)
  | name :: names =>
    match getenv w name with
    | None => Some (w, 1)
    | Some arg =>
      '(w, r) ← run_command before (Some arg) flag w;
      if r =? -1 then Some (w, 1) else do_run_loop before flag names w
    end
  end.

Definition do_run (before : Z) (flag : Z) (argv : list (list Z)) (w : W) : option (W * Z) :=
  match tl argv with [] => Some (w, 1) | names => do_run_loop before flag names w end.
End Run.

(** ** Macro processing stays inside its buffer *)

Lemma put_all_room s room out :
  let '(room', out') := put_all s room out in
  (length out' + room' = length out + room)%nat.
Proof.
  revert room out. induction s as [|c s IH]; intros [|room] out; simpl; try lia.
  specialize (IH room (out ++ [c])). destruct (put_all s room (out ++ [c])).
  rewrite length_app in IH. simpl in IH. lia.
Qed.

Definition total (s : macro_state) : nat := length (output s) + outputcnt s.

Lemma macro_switch_spec g c p inp s :
  (0 < outputcnt s)%nat ->
  total (macro_switch g c p inp s) = total s /\ input (macro_switch g c p inp s) = inp.
Proof.
  intros Hr. unfold macro_switch, total. destruct s as [inp0 room out st vs pv]; simpl in *.
  pose proof (put_all_room [36; c] room out) as Hp.
  destruct (put_all [36; c] room out) as [r1 o1] eqn:E1.
  destruct (g (firstn (length vs - length inp - 1) vs)) as [v|].
  - pose proof (put_all_room v room out) as Hv. destruct (put_all v room out) as [r2 o2] eqn:E2.
    repeat case_match; simplify_eq; simpl in *; rewrite ?length_app; simpl; (split; [lia|done]).
  - repeat case_match; simplify_eq; simpl in *; rewrite ?length_app; simpl; (split; [lia|done]).
Qed.

Lemma macro_loop_total g fuel s :
  (length (input s) < fuel)%nat ->
  exists s', macro_loop fuel g s = Some s' /\ total s' = total s.
Proof.
  revert s. induction fuel as [|fuel IH]; intros s Hf; [lia|]. cbn [macro_loop].
  destruct (input s) as [|c inp] eqn:Ei; [by eexists|].
  destruct (outputcnt s) as [|room] eqn:Eo; [by eexists|]. cbn [length] in Hf.
  assert (Hr : (0 < outputcnt s)%nat) by lia.
  destruct (negb _ && _).
  - destruct inp as [|c' inp].
    + eexists. split; [done|]. unfold total. simpl. by rewrite Eo.
    + destruct (macro_switch_spec g c' c inp s Hr) as [Ht Hi].
      destruct (IH (macro_switch g c' c inp s)) as (s' & Hs & Hs'); [rewrite Hi; simpl in *; lia|].
      exists s'. by rewrite Hs, Hs', Ht.
  - destruct (macro_switch_spec g c (prev s) inp s Hr) as [Ht Hi].
    destruct (IH (macro_switch g c (prev s) inp s)) as (s' & Hs & Hs'); [rewrite Hi; lia|].
    exists s'. by rewrite Hs, Hs', Ht.
Qed.

(** C40: [process_macros] terminates on every input and every environment, and what
    it stores, with its NUL, fits the output buffer. *)
Theorem process_macros_bounded size g inp :
  0 < size -> exists out, process_macros size g inp = Some out /\
    Z.of_nat (length out) + 1 <= size.
Proof.
  intros Hs. unfold process_macros.
  destruct (macro_loop_total g (S (length inp)) (Macro inp (Z.to_nat size) [] 0 [] 0))
    as (s & Hm & Ht); [simpl; lia|].
  rewrite Hm. cbn [mbind option_bind]. eexists. split; [done|].
  unfold total in Ht. cbn in Ht. destruct (outputcnt s) eqn:E; [|lia].
  rewrite removelast_firstn_len, length_firstn. lia.
Qed.

(** ** What macro processing computes *)

(** A line as a sequence of pieces: text without special characters, a macro in
    either kind of brackets, a quoted string. *)
Inductive piece : Type :=
  | Text (t : list Z)
  | Brace (name : list Z)
  | Paren (name : list Z)
  | Quoted (q : list Z).

Definition render (p : piece) : list Z :=
  match p with
  | Text t => t
  | Brace name => 36 :: 123 :: name ++ [125]
  | Paren name => 36 :: 40 :: name ++ [41]
  | Quoted q => 39 :: q ++ [39]
  end.

Definition meaning (g : list Z -> option (list Z)) (p : piece) : list Z :=
  match p with
  | Text t => t
  | Brace name | Paren name => match g name with Some v => v | None => [] end
  | Quoted q => q
  end.

Definition text_char (c : Z) : Prop := c <> 36 /\ c <> 39 /\ c <> 92.
Definition macro_char (c : Z) : Prop := c <> 41 /\ c <> 125 /\ c <> 92.

Definition piece_ok (p : piece) : Prop :=
  match p with
  | Text t => Forall text_char t
  | Brace name | Paren name => Forall macro_char name
  | Quoted q => Forall (fun c => c <> 39 /\ c <> 92) q
  end.

Lemma put_all_fits v room out :
  (length v <= room)%nat -> put_all v room out = ((room - length v)%nat, out ++ v).
Proof.
  revert room out. induction v as [|c v IH]; intros [|room] out H; simpl in *; try lia;
    rewrite ?app_nil_r; try done.
  rewrite IH by lia. by rewrite <- app_assoc.
Qed.

(** Copying: state 0 on text, state 3 inside quotes. *)
Lemma loop_copy g t rest fuel room out st vs p :
  (st = 0 /\ Forall text_char t) \/ (st = 3 /\ Forall (fun c => c <> 39 /\ c <> 92) t) ->
  (length t < room)%nat -> p <> 92 ->
  exists p', p' <> 92 /\
  macro_loop (length t + fuel) g (Macro (t ++ rest) room out st vs p) =
  macro_loop fuel g (Macro rest (room - length t) (out ++ t) st vs p').
Proof.
  intros Ht. revert room out p. induction t as [|c t IH]; intros room out p Hr Hp.
  { exists p. simpl. by rewrite Nat.sub_0_r, app_nil_r. }
  assert (Htail : (st = 0 /\ Forall text_char t) \/ (st = 3 /\ Forall (fun c => c <> 39 /\ c <> 92) t)).
  { destruct Ht as [[-> H]|[-> H]]; apply List.Forall_cons_iff in H as [_ H]; auto. }
  cbn [length] in Hr. destruct room as [|room]; [lia|].
  destruct (IH Htail room (out ++ [c]) c) as (p' & Hp' & Heq).
  - lia.
  - destruct Ht as [[-> H]|[-> H]]; apply List.Forall_cons_iff in H as [H _];
      unfold text_char in H; tauto.
  - exists p'. split; [done|]. cbn [length Nat.add app macro_loop input outputcnt mstate Shell.prev].
    rewrite Nat.sub_succ. rewrite <- app_assoc in Heq. cbn [app] in Heq. rewrite <- Heq.
    unfold macro_switch. cbn [mstate outputcnt output varname_start pred].
    destruct Ht as [[-> H]|[-> H]]; apply List.Forall_cons_iff in H as [H _];
      unfold text_char in H; cbn [Z.eqb Pos.eqb negb andb].
    + rewrite !(proj2 (Z.eqb_neq c _)) by tauto. done.
    + rewrite (proj2 (Z.eqb_neq c 39)) by tauto. done.
Qed.

(** Scanning a macro name, state 2. *)
Lemma loop_name g t rest fuel room out vs p :
  Forall macro_char t -> p <> 92 ->
  exists p', p' <> 92 /\
  macro_loop (length t + fuel) g (Macro (t ++ rest) (S room) out 2 vs p) =
  macro_loop fuel g (Macro rest (S room) out 2 vs p').
Proof.
  intros Ht. revert p. induction Ht as [|c t (H1 & H2 & H3) Ht IH]; intros p Hp.
  { by exists p. }
  destruct (IH c H3) as (p' & Hp' & Heq). exists p'. split; [done|].
  cbn [length Nat.add app macro_loop input outputcnt mstate Shell.prev].
  unfold macro_switch. cbn [mstate outputcnt output varname_start].
  rewrite (proj2 (Z.eqb_neq c 92)), (proj2 (Z.eqb_neq c 41)), (proj2 (Z.eqb_neq c 125)) by done. cbn [Z.eqb Pos.eqb negb andb orb]. done.
Qed.

(** A round on a character that is not a backslash. *)
Lemma loop_char g c inp fuel room out st vs p :
  c <> 92 ->
  macro_loop (S fuel) g (Macro (c :: inp) (S room) out st vs p) =
  macro_loop fuel g (macro_switch g c p inp (Macro (c :: inp) (S room) out st vs p)).
Proof.
  intros Hc. cbn [macro_loop input outputcnt mstate Shell.prev].
  rewrite (proj2 (Z.eqb_neq c 92)) by done. cbn [andb]. by rewrite andb_false_r.
Qed.

Ltac run_switch :=
  unfold macro_switch; cbn [mstate outputcnt output varname_start Z.eqb Pos.eqb andb orb negb].

Lemma loop_piece g q rest fuel room out vs p :
  piece_ok q -> (length (meaning g q) < room)%nat -> p <> 92 ->
  exists vs' p', p' <> 92 /\
  macro_loop (length (render q) + fuel) g (Macro (render q ++ rest) room out 0 vs p) =
  macro_loop fuel g (Macro rest (room - length (meaning g q)) (out ++ meaning g q) 0 vs' p').
Proof.
  intros Hq Hr Hp. pose proof (proj2 (Z.eqb_neq p 92) Hp) as Hpb.
  assert (Hmacro : forall o cl name, (o = 123 \/ o = 40) -> (cl = 125 \/ cl = 41) ->
    Forall macro_char name ->
    let v := match g name with Some v => v | None => [] end in (length v < room)%nat ->
    exists vs' p', p' <> 92 /\
    macro_loop (length (36 :: o :: name ++ [cl]) + fuel) g
      (Macro ((36 :: o :: name ++ [cl]) ++ rest) room out 0 vs p) =
    macro_loop fuel g (Macro rest (room - length v) (out ++ v) 0 vs' p')).
  { intros o cl name Ho Hcl Hn v Hv. destruct room as [|room]; [lia|].
    destruct (loop_name g name ([cl] ++ rest) (1 + fuel) room out (name ++ [cl] ++ rest) o Hn)
      as (p' & Hp' & Heq); [lia|].
    cbn [app Nat.add] in Heq.
    exists (name ++ [cl] ++ rest), cl. split; [lia|].
    cbn [length app Nat.add]. rewrite length_app. cbn [length].
    replace (length name + 1 + fuel)%nat with (length name + S fuel)%nat by lia.
    rewrite <- app_assoc. cbn [app]. rewrite loop_char by done. run_switch. rewrite Hpb.
    cbn [negb]. rewrite loop_char by lia. run_switch.
    replace ((o =? 40) || (o =? 123)) with true by lia. rewrite Heq.
    rewrite loop_char by lia. run_switch.
    replace ((cl =? 41) || (cl =? 125)) with true by lia.
    replace (length (name ++ cl :: rest) - length rest - 1)%nat with (length name)
      by (rewrite length_app; simpl; lia).
    rewrite take_app_length. unfold v in *. destruct (g name) as [val|].
    - by rewrite put_all_fits by lia.
    - simpl. by rewrite app_nil_r. }
  destruct q as [t|name|name|q]; cbn [piece_ok meaning render] in *.
  - destruct (loop_copy g t rest fuel room out 0 vs p) as (p' & Hp' & Heq); [by left|done|done|].
    by exists vs, p'.
  - apply Hmacro; auto.
  - apply Hmacro; auto.
  - destruct room as [|room]; [lia|].
    destruct (loop_copy g q ([39] ++ rest) (1 + fuel) (S room) out 3 vs 39) as (p' & Hp' & Heq);
      [by right|done|done|].
    cbn [app Nat.add] in Heq.
    exists vs, 39. split; [done|]. cbn [length app Nat.add]. rewrite length_app. cbn [length].
    replace (length q + 1 + fuel)%nat with (length q + S fuel)%nat by lia.
    rewrite <- app_assoc. cbn [app]. rewrite loop_char by done. run_switch. rewrite Hpb.
    cbn [negb]. rewrite Heq. destruct (S room - length q)%nat as [|room'] eqn:Er; [lia|].
    rewrite loop_char by done. run_switch.
    by rewrite (proj2 (Z.eqb_neq p' 92)).
Qed.

(** C13: a line made of plain text, "${name}" and "$(name)" macros and 'quoted' strings
    becomes the text with the macros replaced by the values of the variables
    (nothing for an undefined one) and the quoted strings copied as they are,
    whenever the result fits the buffer. *)
Theorem process_macros_spec size g ps :
  Forall piece_ok ps -> Z.of_nat (length (concat (map (meaning g) ps))) < size ->
  process_macros size g (concat (map render ps)) = Some (concat (map (meaning g) ps)).
Proof.
  intros Hps Hfit. unfold process_macros.
  assert (H : forall ps room out vs p, Forall piece_ok ps ->
    (length (concat (map (meaning g) ps)) < room)%nat -> p <> 92 ->
    exists room' vs' p', (0 < room')%nat /\
    macro_loop (S (length (concat (map render ps)))) g
      (Macro (concat (map render ps)) room out 0 vs p) =
    Some (Macro [] room' (out ++ concat (map (meaning g) ps)) 0 vs' p')).
  { clear. intros ps. induction ps as [|q ps IH]; intros room out vs p Hps Hr Hp.
    - exists room, vs, p. split; [simpl in Hr; lia|]. simpl. by rewrite app_nil_r.
    - apply List.Forall_cons_iff in Hps as [Hq Hps]. cbn [map concat] in *.
      rewrite length_app in *.
      destruct (loop_piece g q (concat (map render ps)) (S (length (concat (map render ps))))
        room out vs p Hq) as (vs1 & p1 & Hp1 & Heq); [lia|done|].
      destruct (IH (room - length (meaning g q))%nat (out ++ meaning g q) vs1 p1 Hps)
        as (room' & vs' & p' & Hroom & Heq2); [lia|done|].
      exists room', vs', p'. split; [done|].
      replace (S (length (render q) + length (concat (map render ps))))
        with (length (render q) + S (length (concat (map render ps))))%nat by lia.
      by rewrite Heq, Heq2, <- app_assoc. }
  destruct (H ps (Z.to_nat size) [] [] 0 Hps) as (room & vs & p & Hroom & ->); [lia|done|].
  cbn [mbind option_bind outputcnt output app]. destruct room; [lia|done].
Qed.

(** ** What argument splitting computes *)

(** [splits line ws]: the words of the line are [ws], each a non-empty run without
    blanks that ends at a blank or at the end. *)
Inductive splits : list Z -> list (list Z) -> Prop :=
  | splits_nil b : Forall (fun c => blank c = true) b -> splits b []
  | splits_cons b w rest ws :
      Forall (fun c => blank c = true) b -> w <> [] -> Forall (fun c => blank c = false) w ->
      rest = [] \/ blank (hd 0 rest) = true -> splits rest ws -> splits (b ++ w ++ rest) (w :: ws).

Lemma skip_blanks_app b s :
  Forall (fun c => blank c = true) b -> skip_blanks (b ++ s) = skip_blanks s.
Proof. induction 1 as [|c b Hc _ IH]; [done|]. cbn [app skip_blanks]. by rewrite Hc. Qed.

Lemma skip_blanks_id s : s = [] \/ blank (hd 0 s) = false -> skip_blanks s = s.
Proof. destruct s as [|c s]; [done|]. intros [?|Hc]; [done|]. simpl in *. by rewrite Hc. Qed.

Lemma take_word_app w s :
  Forall (fun c => blank c = false) w -> s = [] \/ blank (hd 0 s) = true ->
  take_word (w ++ s) = (w, s).
Proof.
  assert (Hb : forall c, negb (c =? 32) && negb (c =? 9) = negb (blank c))
    by (intros c; unfold blank; by destruct (c =? 32), (c =? 9)).
  induction 1 as [|c w Hc _ IH]; intros Hs.
  - destruct s as [|c s]; [done|]. destruct Hs as [?|Hc]; [done|]. simpl in Hc.
    cbn [app take_word]. by rewrite Hb, Hc.
  - cbn [app take_word]. by rewrite Hb, Hc, IH.
Qed.

Lemma splits_total line : exists ws, splits line ws.
Proof.
  assert (H : forall n line, (length line <= n)%nat -> exists ws, splits line ws).
  2: { by apply (H (length line)). }
  clear line. induction n as [|n IH]; intros line Hn.
  { destruct line; [|simpl in Hn; lia]. exists []. by constructor. }
  assert (Hpre : exists b s, line = b ++ s /\ Forall (fun c => blank c = true) b /\
    (s = [] \/ blank (hd 0 s) = false)).
  { clear. induction line as [|c line (b & s & -> & Hb & Hs)]; [by exists [], []; auto|].
    destruct (blank c) eqn:E; [exists (c :: b), s; auto|exists [], (c :: b ++ s); auto]. }
  destruct Hpre as (b & s & -> & Hb & Hs). destruct s as [|c s].
  { rewrite app_nil_r. exists []. by constructor. }
  destruct Hs as [?|Hc]; [done|]. simpl in Hc.
  assert (Hw : exists w r, s = w ++ r /\ Forall (fun c => blank c = false) w /\
    (r = [] \/ blank (hd 0 r) = true)).
  { clear. induction s as [|c s (w & r & -> & Hw & Hr)]; [by exists [], []; auto|].
    destruct (blank c) eqn:E; [exists [], (c :: w ++ r); auto|exists (c :: w), r; auto]. }
  destruct Hw as (w & r & -> & Hw & Hr). destruct (IH r) as (ws & Hws).
  { rewrite length_app in Hn. simpl in Hn. rewrite length_app in Hn. lia. }
  exists ((c :: w) :: ws). apply (splits_cons b (c :: w) r); auto.
Qed.

Lemma splits_empty line ws : splits line ws -> line = [] -> ws = [].
Proof.
  destruct 1 as [|b w rest ws _ Hne _ _ _]; [done|]. intros H.
  apply app_eq_nil in H as [_ H]. by apply app_eq_nil in H as [H _].
Qed.

Lemma parse_line_blank n c line : blank c = true -> parse_line n (c :: line) = parse_line n line.
Proof. intros Hc. destruct n; cbn [parse_line skip_blanks]; [done|]. by rewrite Hc. Qed.

Lemma parse_line_splits line ws n :
  splits line ws ->
  fst (parse_line n line) = firstn n ws /\
  ((length ws < n)%nat -> snd (parse_line n line) = true) /\
  ((n < length ws)%nat -> snd (parse_line n line) = false).
Proof.
  intros H. revert n. induction H as [b Hb|b w rest ws Hb Hne Hw Hr Hs IH]; intros [|n];
    cbn [parse_line]; try (simpl; split_and!; (done || lia)).
  - rewrite <- (app_nil_r b), skip_blanks_app by done. simpl. split_and!; (done || lia).
  - rewrite skip_blanks_app by done. destruct w as [|c w]; [done|].
    pose proof Hw as Hw'. apply List.Forall_cons_iff in Hw' as [Hc _].
    rewrite skip_blanks_id by (right; done). cbn [app].
    change (c :: w ++ rest) with ((c :: w) ++ rest). rewrite take_word_app by done.
    destruct rest as [|d rest].
    + rewrite (splits_empty _ _ Hs eq_refl). simpl. rewrite firstn_nil. split_and!; (done || lia).
    + destruct Hr as [?|Hd]; [done|]. simpl in Hd. destruct (IH n) as (I1 & I2 & I3).
      rewrite parse_line_blank in I1, I2, I3 by done.
      destruct (parse_line n rest) as [argv ok]. cbn [fst snd firstn length] in *.
      split_and!; [by rewrite I1|intros; apply I2; lia|intros; apply I3; lia].
Qed.

(** every line splits into words in exactly one way, and [parse_line] gives the
    first [CONFIG_SYS_MAXARGS] of them, reporting "too many" when there are
    more and never when there are fewer. *)
Theorem parse_line_spec line n :
  exists ws, splits line ws /\ (forall ws', splits line ws' -> ws' = ws) /\
  fst (parse_line n line) = firstn n ws /\
  ((length ws < n)%nat -> snd (parse_line n line) = true) /\
  ((n < length ws)%nat -> snd (parse_line n line) = false).
Proof.
  destruct (splits_total line) as [ws Hws]. exists ws. split; [done|]. split.
  - intros ws' Hws'. set (k := (length ws + length ws')%nat).
    destruct (parse_line_splits line ws k Hws) as [H1 _].
    destruct (parse_line_splits line ws' k Hws') as [H2 _].
    rewrite !firstn_all2 in * by (unfold k; lia). congruence.
  - by apply parse_line_splits.
Qed.

(** ** What running a line does *)

Section RunSpec.
Context {W : Type} {sh : Shell W} (Hsize : 0 < CONFIG_SYS_CBSIZE).

(** The commands of a line one after the other. *)
Fixpoint exec (flag : Z) (tokens : list (list Z)) (rc rep : Z) (w : W) : W * Z :=
  match tokens with
  | [] => (w, if negb (rc =? 0) then rc else rep)
  | token :: tokens =>
    match run_token flag token w with
    | Stuck => (w, rc)
    | Failed w => exec flag tokens (-1) rep w
    | Ran w flag res r =>
      let rc := if negb (res =? 0) then -1 else rc in
      let rep := Z.land rep r in
      if had_ctrlc w then (w, -1) else exec flag tokens rc rep w
    end
  end.

(** Commands joined by semicolons. *)
Fixpoint join_cmds (tokens : list (list Z)) : list Z :=
  match tokens with
  | [] => []
  | [t] => t
  | t :: tokens => t ++ 59 :: join_cmds tokens
  end.

(** A command without quotes, semicolons and backslashes. *)
Definition simple_cmd (t : list Z) : Prop :=
  t <> [] /\ Forall (fun c => c <> 39 /\ c <> 59 /\ c <> 92) t.

Lemma run_token_total flag token w : run_token flag token w <> Stuck.
Proof.
  unfold run_token.
  destruct (process_macros_bounded CONFIG_SYS_CBSIZE (getenv w) token Hsize) as (out & -> & _).
  by repeat case_match.
Qed.

Lemma find_sep_simple t rest before first :
  Forall (fun c => c <> 39 /\ c <> 59 /\ c <> 92) t ->
  t <> [] \/ (first = false /\ before <> 92) ->
  find_sep (t ++ 59 :: rest) before false first = (t, Some rest) /\
  find_sep t before false first = (t, None).
Proof.
  intros Ht. revert before first.
  induction Ht as [|c t (H1 & H2 & H3) Ht IH]; intros before first Hf.
  - destruct Hf as [?|[-> Hb]]; [done|]. cbn. by rewrite (proj2 (Z.eqb_neq before 92)).
  - cbn [app find_sep]. rewrite (proj2 (Z.eqb_neq c 39)), (proj2 (Z.eqb_neq c 59)) by done.
    cbn [andb negb]. destruct (IH c false) as [-> ->]; [by right|done].
Qed.

Lemma join_cons t t2 tokens : join_cmds (t :: t2 :: tokens) = t ++ 59 :: join_cmds (t2 :: tokens).
Proof. done. Qed.

Lemma run_loop_spec flag before tokens rc rep w fuel :
  Forall simple_cmd tokens -> (length (join_cmds tokens) < fuel)%nat ->
  run_loop fuel flag before (join_cmds tokens) rc rep w = Some (exec flag tokens rc rep w).
Proof.
  intros Ht. revert flag before rc rep w fuel.
  induction Ht as [|t tokens [Hne Hc] Ht IH]; intros flag before rc rep w [|fuel] Hf; try lia.
  { done. }
  assert (Hsep : find_sep (join_cmds (t :: tokens)) before false true =
    (t, match tokens with [] => None | _ => Some (join_cmds tokens) end)).
  { destruct tokens as [|t2 tokens]; [|rewrite join_cons];
      apply find_sep_simple; auto. }
  assert (Hnil : join_cmds (t :: tokens) <> []).
  { destruct tokens; [done|]. rewrite join_cons. by destruct t. }
  assert (Hrest : match (match tokens with [] => None | _ => Some (join_cmds tokens) end) with
    Some s => s | None => [] end = join_cmds tokens) by (by destruct tokens).
  assert (Hlen : (length (join_cmds tokens) < fuel)%nat).
  { destruct tokens as [|t2 tokens]; [destruct t; simpl in *; [done|lia]|].
    rewrite join_cons, length_app in Hf. cbn [length] in Hf. lia. }
  cbn [run_loop]. destruct (join_cmds (t :: tokens)) eqn:Ej; [done|]. rewrite Hsep, Hrest.
  pose proof (run_token_total flag t w) as Hstuck. cbn [exec].
  destruct (run_token flag t w) as [w1|w1 flag1 res r|]; [by apply IH| |done].
  destruct (had_ctrlc w1); [done|]. by apply IH.
Qed.

(** C2: a line of commands separated by semicolons terminates and runs them in
    order, whatever byte happens to precede the buffer: a command that is not
    found, has too many arguments or fails does not stop those after it, the
    result is -1 when one of them failed, and an interrupt ends the line. *)
Theorem run_command_spec before tokens flag w :
  Forall simple_cmd tokens -> tokens <> [] ->
  Z.of_nat (length (join_cmds tokens)) < CONFIG_SYS_CBSIZE ->
  run_command before (Some (join_cmds tokens)) flag w =
  Some (exec flag tokens 0 1 (clear_ctrlc w)).
Proof.
  intros Ht Hne Hlen. unfold run_command.
  assert (Hnil : join_cmds tokens <> []).
  { destruct tokens as [|t tokens]; [done|]. apply List.Forall_inv in Ht as [Ht _].
    destruct tokens; [done|]. rewrite join_cons. by destruct t. }
  rewrite (proj2 (Z.leb_gt _ _)) by done.
  destruct (join_cmds tokens) eqn:E; [done|]. rewrite <- E. apply run_loop_spec; (done || lia).
Qed.
End RunSpec.

(** ** An instance, and witnesses *)

(** Logs the commands it runs; names that start with a "u" are unknown, and the
    variable "x" is "1". *)
#[local] Instance log_shell : Shell (list (list (list Z))) := {|
  CONFIG_SYS_CBSIZE := 64;
  CONFIG_SYS_MAXARGS := 4;
  getenv := fun _ name => if bool_decide (name = [120]) then Some [49] else None;
  cmd_tbl := unit;
  find_cmd := fun _ name => if hd 0 name =? 117 then None else Some tt;
  maxargs := fun _ => 4;
  repeatable := fun _ => 1;
  is_bootd := fun _ => false;
  cmd_run := fun _ _ argv w => (w ++ [argv], 0);
  clear_ctrlc := fun w => w;
  had_ctrlc := fun _ => false |}.

(** a line that starts with a quote is scanned with the byte in front of the
    buffer: with a backslash there, the quote does not open and the closing one
    does, so the line is cut at other places. *)
Theorem run_command_reads_before :
  run_command 0 (Some [39; 97; 39; 59; 98]) 0 [] = Some ([[[97]]; [[98]]], 1) /\
  run_command 92 (Some [39; 97; 39; 59; 98]) 0 [] = Some ([[[97; 59; 98]]], 1).
Proof. split; vm_compute; reflexivity. Qed.

Lemma process_macros_bounded_witness :
  process_macros 4 (fun _ => Some [49; 50; 51; 52]) [36; 123; 97; 125] = Some [49; 50; 51] /\
  exists out, process_macros 4 (fun _ => Some [49; 50; 51; 52]) [36; 123; 97; 125] = Some out /\
    Z.of_nat (length out) + 1 <= 4.
Proof. split; [vm_compute; reflexivity|apply process_macros_bounded; lia]. Defined.

(** echo ${x} '$y' *)
Definition sample_pieces : list piece :=
  [Text [101; 99; 104; 111; 32]; Brace [120]; Text [32]; Quoted [36; 121]].

Lemma process_macros_spec_witness :
  process_macros 64 (getenv (@nil (list (list Z)))) (concat (map render sample_pieces)) =
  Some (concat (map (meaning (getenv (@nil (list (list Z))))) sample_pieces)).
Proof.
  apply process_macros_spec; [|vm_compute; reflexivity].
  repeat constructor; vm_compute; discriminate.
Defined.

(** a; u; b 1 *)
Definition sample_cmds : list (list Z) := [[97]; [117]; [98; 32; 49]].

Lemma run_command_spec_witness :
  run_command 0 (Some (join_cmds sample_cmds)) 0 [] = Some ([[[97]]; [[98]; [49]]], -1) /\
  run_command 0 (Some (join_cmds sample_cmds)) 0 [] =
  Some (exec 0 sample_cmds 0 1 (clear_ctrlc (@nil (list (list Z))))).
Proof.
  split; [vm_compute; reflexivity|]. apply run_command_spec.
  - reflexivity.
  - repeat constructor; discriminate.
  - discriminate.
  - reflexivity.
Defined.
