(* ===== verification/Readline.v ===== *)
(** Line input without history: [readline_into_buffer] and [delete_char] of
    [common/main.c] (neither [CONFIG_CMDLINE_EDITING] nor [CONFIG_AUTO_COMPLETE] nor
    [CONFIG_BOOT_RETRY_TIME]).

    The input is the list of characters [getc] returns, and every character sent
    to the console is recorded.  A small terminal ([term]) says what those
    characters put on the screen; the main theorem is that the screen always
    shows the prompt and the buffer. *)

From S2P Require Import Prelude.

Definition erase_seq : list Z := [8; 32; 8].
Definition tab_seq : list Z := [32; 32; 32; 32; 32; 32; 32; 32].

(** The characters before [p], the output column, and the console output.  [n] is
    the length of [text]. *)
Record line_state : Type := Line { text : list Z; col : Z; console : list Z }.

(** Echoes one character of the line at a column. *)
Definition echo (col c : Z) : list Z * Z :=
  if c =? 9 then (skipn (Z.to_nat (Z.land col 7)) tab_seq, col + (8 - Z.land col 7))
  else ([c], col + 1).

(** Retypes a text: [for (s = buffer; s < p; ++s)]. *)
Fixpoint retype (t : list Z) (col : Z) : list Z * Z :=
  match t with
  | [] => ([], col)
  | c :: t =>
    let '(o, col) := echo col c in
    let '(os, col) := retype t col in (o ++ os, col)
  end.

(** [while (col > plen) { puts(erase_seq); col--; }] *)
Definition erase_to (plen col : Z) : list Z :=
  concat (repeat erase_seq (Z.to_nat (col - plen))).

(** The deleted character is what [*p] reads afterwards. *)
Definition delete_char (plen : Z) (s : line_state) : line_state * option Z :=
  match rev (text s) with
  | [] => (s, None)
  | c :: r =>
    let t := rev r in
    if c =? 9 then
      let '(o, col') := retype t (Z.min (col s) plen) in
      (Line t col' (console s ++ erase_to plen (col s) ++ o), Some c)
    else (Line t (col s - 1) (console s ++ erase_seq), Some c)
  end.

(** [while ((n > 0) && ( *p != ' '))] of the erase-word key; the deleted character is
    the one [p] points at. *)
Fixpoint erase_word (fuel : nat) (plen : Z) (sd : line_state * option Z) : line_state :=
  let '(s, d) := sd in
  match fuel with
  | O => s
  | S fuel =>
    match d with
    | Some c =>
      if (0 <? Z.of_nat (length (text s))) && negb (c =? 32)
      then erase_word fuel plen (delete_char plen s) else s
    | None => s
    end
  end.

Inductive outcome : Type :=
  | More (s : line_state)
  | Line_done (s : line_state)
  | Break (s : line_state).

(** The [switch] on one character. *)
Definition key (cbsize plen : Z) (c : Z) (s : line_state) : outcome :=
  if (c =? 13) || (c =? 10) then Line_done (Line (text s) (col s) (console s ++ [13; 10]))
  else if c =? 0 then More s
  else if c =? 3 then Break (Line [] (col s) (console s))
  else if c =? 21 then
    More (Line [] (Z.min (col s) plen) (console s ++ erase_to plen (col s)))
  else if c =? 23 then More (erase_word (S (length (text s))) plen (delete_char plen s))
  else if (c =? 8) || (c =? 127) then More (fst (delete_char plen s))
  else if Z.of_nat (length (text s)) <? cbsize - 2 then
    let '(o, col') := echo (col s) c in More (Line (text s ++ [c]) col' (console s ++ o))
  else More (Line (text s) (col s) (console s ++ [7])).

(** The [for (;;)] over the input: [None] while the line is not finished.  The
    result is the buffer and its length, or -1 for an interrupt. *)
Fixpoint read_loop (cbsize plen : Z) (input : list Z) (s : line_state) : option (line_state * Z) :=
  match input with
  | [] => None
  | c :: input =>
    match key cbsize plen c s with
    | More s => read_loop cbsize plen input s
    | Line_done s => Some (s, Z.of_nat (length (text s)))
    | Break s => Some (s, -1)
    end
  end.

Definition start (prompt : list Z) : line_state :=
  Line [] (Z.of_nat (length prompt)) prompt.

Definition readline_into_buffer (cbsize : Z) (prompt input : list Z) : option (line_state * Z) :=
  read_loop cbsize (Z.of_nat (length prompt)) input (start prompt).

(** ** The terminal *)

(** The cells left of the cursor, last first, and the cells from the cursor on. *)
Definition term : Type := list Z * list Z.

Definition put (t : term) (c : Z) : term :=
  let '(l, r) := t in
  if c =? 7 then t
  else if c =? 8 then match l with x :: l => (l, x :: r) | [] => t end
  else (c :: l, tl r).

Definition show (t : term) (s : list Z) : term := fold_left put s t.

Definition blank_right (t : term) : Prop := Forall (fun c => c = 32) (snd t).

(** A character that occupies one cell. *)
Definition printable (c : Z) : Prop := 32 <= c /\ c <> 127.

(** A key that types a printable character or edits. *)
Definition known_key (c : Z) : Prop := printable c \/ In c [0; 8; 9; 21; 23; 127].

Definition text_ok (t : list Z) : Prop := Forall (fun c => printable c \/ c = 9) t.

Lemma show_app t a b : show t (a ++ b) = show (show t a) b.
Proof. apply fold_left_app. Qed.

Lemma show_printable l r s :
  Forall printable s -> Forall (fun c => c = 32) r ->
  exists r', show (l, r) s = (rev s ++ l, r') /\ Forall (fun c => c = 32) r'.
Proof.
  intros Hs. revert l r. induction Hs as [|c s [Hc1 Hc2] Hs IH]; intros l r Hr; [by exists r|].
  unfold show. cbn [fold_left put]. rewrite (proj2 (Z.eqb_neq c 7)), (proj2 (Z.eqb_neq c 8)) by lia.
  destruct (IH (c :: l) (tl r)) as (r' & Hshow & Hr').
  { destruct r; [done|]. by apply List.Forall_cons_iff in Hr as [_ Hr]. }
  exists r'. split; [|done]. unfold show in Hshow. rewrite Hshow. simpl. by rewrite <- app_assoc.
Qed.

Lemma tabs_printable n : Forall printable (skipn n tab_seq).
Proof.
  assert (H : Forall printable tab_seq) by (repeat constructor; unfold printable; lia).
  apply List.Forall_forall. intros c Hc. rewrite List.Forall_forall in H. apply H.
  rewrite <- (firstn_skipn n tab_seq). apply in_or_app. by right.
Qed.

(** What a text looks like from a column on, and where it ends. *)
Lemma echo_ok col c :
  0 <= col -> printable c \/ c = 9 ->
  Forall printable (fst (echo col c)) /\
  snd (echo col c) = col + Z.of_nat (length (fst (echo col c))).
Proof.
  intros Hcol Hc. unfold echo. destruct (Z.eqb_spec c 9) as [->|Hne]; cbn [fst snd].
  - split; [apply tabs_printable|]. rewrite length_skipn.
    rewrite (land_mask col 3 7) by lia. pose proof (Z.mod_pos_bound col (2 ^ 3) ltac:(lia)).
    change (length tab_seq) with 8%nat. change (2 ^ 3) with 8 in *. lia.
  - split; [|simpl; lia]. apply List.Forall_cons; [|apply List.Forall_nil]. by destruct Hc.
Qed.

Lemma retype_ok t col :
  0 <= col -> text_ok t ->
  Forall printable (fst (retype t col)) /\
  snd (retype t col) = col + Z.of_nat (length (fst (retype t col))).
Proof.
  intros Hcol Ht. revert col Hcol. induction Ht as [|c t Hc Ht IH]; intros col Hcol.
  { simpl. split; [constructor|lia]. }
  cbn [retype]. destruct (echo_ok col c Hcol Hc) as [Ho Hco]. destruct (echo col c) as [o col1].
  cbn [fst snd] in *. destruct (IH col1) as [Hos Hcos]; [lia|]. destruct (retype t col1) as [os col2].
  cbn [fst snd] in *. split; [by apply Forall_app|]. rewrite length_app. lia.
Qed.

Lemma retype_snoc t c col :
  retype (t ++ [c]) col =
  let '(os, col1) := retype t col in let '(o, col2) := echo col1 c in (os ++ o, col2).
Proof.
  revert col. induction t as [|d t IH]; intros col; cbn [app retype].
  - destruct (echo col c) as [o col1]. by rewrite app_nil_r.
  - destruct (echo col d) as [o col1]. rewrite IH. destruct (retype t col1) as [os col2].
    destruct (echo col2 c) as [o2 col3]. by rewrite app_assoc.
Qed.

(** The invariant: the screen shows the prompt and the text, nothing is right of
    the cursor, and [col] is the cursor's column. *)
Definition shows (prompt : list Z) (s : line_state) : Prop :=
  let '(d, c) := retype (text s) (Z.of_nat (length prompt)) in
  text_ok (text s) /\ col s = c /\
  exists r, show ([], []) (console s) = (rev (prompt ++ d), r) /\ Forall (fun c => c = 32) r.

Lemma erase_ok l k r n :
  length k = n -> Forall (fun c => c = 32) r ->
  exists r', show (k ++ l, r) (concat (repeat erase_seq n)) = (l, r') /\ Forall (fun c => c = 32) r'.
Proof.
  intros Hk. revert k r Hk. induction n as [|n IH]; intros k r Hk Hr.
  { destruct k; [|done]. by exists r. }
  destruct k as [|x k]; [done|]. cbn [repeat concat app]. rewrite show_app.
  change (show (x :: k ++ l, r) erase_seq) with (k ++ l, 32 :: r).
  apply IH; [by injection Hk|by constructor].
Qed.

Lemma start_shows prompt : Forall printable prompt -> shows prompt (start prompt).
Proof.
  intros Hp. unfold shows, start. cbn [text col console retype]. split_and!; [constructor|done|].
  destruct (show_printable [] [] prompt Hp) as (r & Hs & Hr); [constructor|].
  exists r. by rewrite Hs, !app_nil_r.
Qed.

Lemma shows_erase prompt s :
  shows prompt s ->
  exists r, show ([], []) (console s ++ erase_to (Z.of_nat (length prompt)) (col s)) =
    (rev prompt, r) /\ Forall (fun c => c = 32) r.
Proof.
  unfold shows, erase_to. pose proof (retype_ok (text s) (Z.of_nat (length prompt)) ltac:(lia)) as Hr.
  destruct (retype _ _) as [d c]. intros (Ht & Hc & r & Hs & Hb). destruct (Hr Ht) as [_ Hlen].
  cbn [fst snd] in Hlen. rewrite show_app, Hs, rev_app_distr.
  apply erase_ok; [|done]. rewrite length_rev. lia.
Qed.

Lemma delete_shows prompt s :
  shows prompt s -> shows prompt (fst (delete_char (Z.of_nat (length prompt)) s)).
Proof.
  intros Hs. unfold delete_char. destruct (rev (text s)) as [|c r] eqn:Er; [done|].
  assert (Htext : text s = rev r ++ [c]) by (rewrite <- (rev_involutive (text s)), Er; done).
  pose proof Hs as Hs0. unfold shows in Hs. rewrite Htext, retype_snoc in Hs.
  pose proof (retype_ok (rev r) (Z.of_nat (length prompt)) ltac:(lia)) as Hr.
  destruct (retype (rev r) _) as [os col1] eqn:Ere. destruct (echo col1 c) as [o col2] eqn:Eec.
  destruct Hs as (Ht & Hc & rr & Hshow & Hb).
  apply List.Forall_app in Ht as [Ht Hct]. apply List.Forall_inv in Hct.
  destruct (Hr Ht) as [Hpr Hlen]. cbn [fst snd] in Hpr, Hlen.
  destruct (Z.eqb_spec c 9) as [->|Hne].
  - pose proof (echo_ok col1 9 ltac:(lia) ltac:(auto)) as [_ He]. rewrite Eec in He. cbn [fst snd] in He.
    rewrite Z.min_r by lia. rewrite Ere. cbn [fst]. unfold shows. cbn [text col console].
    rewrite Ere. split_and!; [done|done|].
    destruct (shows_erase prompt s Hs0) as (r1 & Hs1 & Hb1).
    rewrite app_assoc, show_app, Hs1. destruct (show_printable (rev prompt) r1 os Hpr Hb1) as (r2 & Hs2 & Hb2).
    exists r2. by rewrite Hs2, rev_app_distr.
  - cbn [fst]. unfold shows. cbn [text col console]. rewrite Ere.
    unfold echo in Eec. rewrite (proj2 (Z.eqb_neq c 9)) in Eec by done. simplify_eq.
    split_and!; [done|lia|]. rewrite show_app, Hshow, app_assoc, (rev_app_distr (prompt ++ os) [c]).
    cbn [rev app]. exists (32 :: rr). split; [done|by constructor].
Qed.

Lemma erase_word_shows prompt fuel sd :
  shows prompt (fst sd) -> shows prompt (erase_word fuel (Z.of_nat (length prompt)) sd).
Proof.
  revert sd. induction fuel as [|fuel IH]; intros [s d] Hs; [done|]. cbn [erase_word fst] in *.
  destruct d; [|done]. destruct (_ && _); [|done]. by apply IH, delete_shows.
Qed.

Lemma key_shows prompt cbsize c s s' :
  shows prompt s -> known_key c -> key cbsize (Z.of_nat (length prompt)) c s = More s' ->
  shows prompt s'.
Proof.
  intros Hs Hc. unfold key.
  destruct ((c =? 13) || (c =? 10)); [done|]. destruct (Z.eqb_spec c 0); [by intros [= <-]|].
  destruct (Z.eqb_spec c 3); [done|]. destruct (Z.eqb_spec c 21).
  { intros [= <-]. destruct (shows_erase prompt s Hs) as (r & Hr & Hb).
    unfold shows in Hs |- *. pose proof (retype_ok (text s) (Z.of_nat (length prompt)) ltac:(lia)) as Hrt.
    cbn [text col console retype]. destruct (retype (text s) _) as [d c1].
    destruct Hs as (Ht & Hcol & _). destruct (Hrt Ht) as [_ Hlen]. cbn [fst snd] in Hlen.
    split_and!; [constructor|lia|]. exists r. by rewrite app_nil_r. }
  destruct (Z.eqb_spec c 23); [intros [= <-]; by apply (erase_word_shows prompt (S _)), delete_shows|].
  destruct ((c =? 8) || (c =? 127)) eqn:Edel; [intros [= <-]; by apply delete_shows|].
  assert (Hp : printable c \/ c = 9) by (destruct Hc as [?|Hin]; [by left|simpl in Hin; lia]).
  unfold shows in Hs. pose proof (retype_ok (text s) (Z.of_nat (length prompt)) ltac:(lia)) as Hrt.
  destruct (retype (text s) _) as [d c1] eqn:Ere. destruct Hs as (Ht & Hcol & r & Hshow & Hb).
  destruct (Hrt Ht) as [_ Hlen]. cbn [fst snd] in Hlen. destruct (_ <? _).
  - pose proof (echo_ok (col s) c ltac:(lia) Hp) as [Hpr He].
    destruct (echo (col s) c) as [o c2] eqn:Ee. cbn [fst snd] in *. intros [= <-].
    unfold shows. cbn [text col console]. rewrite retype_snoc, Ere, <- Hcol, Ee.
    split_and!; [apply Forall_app; split; [done|by constructor]|done|].
    rewrite show_app, Hshow. destruct (show_printable (rev (prompt ++ d)) r o Hpr Hb) as (r2 & Hs2 & Hb2).
    exists r2. by rewrite Hs2, app_assoc, (rev_app_distr (prompt ++ d)).
  - intros [= <-]. unfold shows. cbn [text col console]. rewrite Ere. split_and!; [done..|].
    exists r. by rewrite show_app, Hshow.
Qed.

(** The states the editor goes through. *)
Inductive reached (cbsize : Z) (prompt : list Z) : line_state -> Prop :=
  | reached_start : reached cbsize prompt (start prompt)
  | reached_key s c s' :
      reached cbsize prompt s -> known_key c ->
      key cbsize (Z.of_nat (length prompt)) c s = More s' -> reached cbsize prompt s'.

(** C38: while a line is typed and edited with printable characters, tabs and the
    editing keys, the screen always shows the prompt followed by the buffer with
    its tabs expanded, and the column counter is where the cursor is. *)
Theorem readline_screen cbsize prompt s :
  Forall printable prompt -> reached cbsize prompt s -> shows prompt s.
Proof.
  intros Hp Hr. induction Hr as [|s c s' _ IH Hc Hk]; [by apply start_shows|].
  by apply (key_shows prompt cbsize c s s').
Qed.

Lemma delete_length plen s : (length (text (fst (delete_char plen s))) <= length (text s))%nat.
Proof.
  unfold delete_char. destruct (rev (text s)) as [|c r] eqn:E; [done|].
  apply (f_equal length) in E. rewrite length_rev in E. cbn [length] in E.
  destruct (c =? 9); [destruct (retype _ _)|]; cbn [fst text]; rewrite length_rev; lia.
Qed.

Lemma erase_word_length plen fuel sd :
  (length (text (erase_word fuel plen sd)) <= length (text (fst sd)))%nat.
Proof.
  revert sd. induction fuel as [|fuel IH]; intros [s d]; [done|]. cbn [erase_word fst].
  destruct d; [|done]. destruct (_ && _); [|done]. etransitivity; [apply IH|apply delete_length].
Qed.

(** whatever is typed, the line that is returned, with its NUL, fits the buffer,
    and its length is the result; an interrupt gives -1 and an empty line. *)
Theorem readline_bounded cbsize prompt input s r :
  2 <= cbsize -> readline_into_buffer cbsize prompt input = Some (s, r) ->
  Z.of_nat (length (text s)) + 1 < cbsize /\
  (r = Z.of_nat (length (text s)) \/ r = -1 /\ text s = []).
Proof.
  intros Hcb. unfold readline_into_buffer. set (plen := Z.of_nat (length prompt)).
  assert (H0 : Z.of_nat (length (text (start prompt))) <= cbsize - 2) by (simpl; lia).
  revert H0. generalize (start prompt) as s0.
  induction input as [|c input IH]; intros s0 H0; [done|]. cbn [read_loop].
  destruct (key cbsize plen c s0) as [s1|s1|s1] eqn:Hk.
  - apply IH. unfold key in Hk. pose proof (delete_length plen s0) as Hd.
    pose proof (erase_word_length plen (S (length (text s0))) (delete_char plen s0)) as He.
    set (w := erase_word _ _ _) in *. set (d := delete_char _ _) in *.
    destruct (echo (col s0) c). repeat case_match; simplify_eq; cbn [text length] in *;
      rewrite ?length_app; cbn [length]; lia.
  - intros [= <- <-]. unfold key in Hk. repeat case_match; simplify_eq; cbn [text] in *.
    split; [lia|by left].
  - intros [= <- <-]. unfold key in Hk. repeat case_match; simplify_eq; cbn [text length] in *.
    split; [lia|by right].
Qed.

(** ** Witnesses *)

Lemma readline_screen_witness :
  shows [61; 62] (fst (delete_char 2 (Line [97; 9] 8 [61; 62; 97; 32; 32; 32; 32; 32]))).
Proof.
  apply (readline_screen 16).
  - repeat constructor; discriminate.
  - apply (reached_key _ _ (Line [97; 9] 8 [61; 62; 97; 32; 32; 32; 32; 32]) 8).
    + apply (reached_key _ _ (Line [97] 3 [61; 62; 97]) 9).
      * apply (reached_key _ _ (start [61; 62]) 97); [constructor| |reflexivity].
        left. split; [lia|discriminate].
      * right. simpl. auto.
      * reflexivity.
    + right. simpl. auto.
    + reflexivity.
Defined.

Lemma readline_bounded_witness :
  Z.of_nat (length (text (Line [97] 1 [97; 8; 32; 8; 97; 7; 13; 10]))) + 1 < 3 /\
  (1 = Z.of_nat (length (text (Line [97] 1 [97; 8; 32; 8; 97; 7; 13; 10]))) \/
   1 = -1 /\ text (Line [97] 1 [97; 8; 32; 8; 97; 7; 13; 10]) = []).
Proof.
  apply (readline_bounded 3 [] [97; 8; 97; 98; 13]); [lia|reflexivity].
Defined.
