(* ===== verification/Cread.v ===== *)
(** Line input with editing and history: [cread_line] of [common/main.c]
    ([CONFIG_CMDLINE_EDITING], without [CONFIG_AUTO_COMPLETE] and [CONFIG_BOOT_RETRY_TIME]).

    The line buffer and the array of history lines are byte memories from address 0 on;
    line [i] of the history is at [HIST_SIZE * i].  Characters are unsigned.  What [getc]
    returns is a list, and what goes to the console is recorded; the terminal is that
    of [Readline].  The print buffer of [printf] is taken to be large enough. *)

From S2P Require Import Prelude CString Readline.

Definition MAX_CMDBUF_SIZE : Z := 256.
Definition CTL_BACKSPACE : Z := 8.
Definition DEL : Z := 255.
Definition DEL7 : Z := 127.
Definition CREAD_HIST_CHAR : Z := 33.
Definition HIST_MAX : Z := 20.
Definition HIST_SIZE : Z := MAX_CMDBUF_SIZE.

(** The string at an address, of fewer than [fuel] characters. *)
Fixpoint c_str (fuel : nat) (m : mem) (a : Z) : option (list Z) :=
  match fuel with
  | O => None
  | S fuel => if m a =? 0 then Some [] else s ← c_str fuel m (a + 1); Some (m a :: s)
  end.

(** [putnstr]: up to [n] characters of a string. *)
Fixpoint putnstr (m : mem) (a : Z) (n : nat) : list Z :=
  match n with
  | O => []
  | S n => if m a =? 0 then [] else m a :: putnstr m (a + 1) n
  end.

(** ** The history *)

Record history : Type := History {
  hist_max : Z; hist_add_idx : Z; hist_cur : Z; hist_num : Z; hist_lines : mem }.

Definition hist_init (m : mem) : history :=
  History 0 0 (-1) 0 (fold_left (fun m i => m.[HIST_SIZE * i <- 0]) (seqZ 0 HIST_MAX) m).

(** [strcpy] of a line to its place. *)
Definition cread_add_to_hist (line : list Z) (h : history) : history :=
  let lines := store_list (hist_lines h) (HIST_SIZE * hist_add_idx h) (line ++ [0]) in
  let add := if HIST_MAX <=? hist_add_idx h + 1 then 0 else hist_add_idx h + 1 in
  History (if hist_max h <? add then add else hist_max h) add (hist_cur h) (u32 (hist_num h + 1)) lines.

(** What they return: NULL, the empty string, or a line of the history. *)
Inductive hline : Type := Null | Empty | Row (i : Z).

Definition set_cur (c : Z) (h : history) : history :=
  History (hist_max h) (hist_add_idx h) c (hist_num h) (hist_lines h).

Definition hist_prev (h : history) : history * hline :=
  if hist_cur h <? 0 then (h, Null)
  else
    let cur := hist_cur h - 1 in
    let cur := if cur <? 0 then hist_max h else cur in
    if cur =? hist_add_idx h then (h, Null) else (set_cur cur h, Row cur).

Definition hist_next (h : history) : history * hline :=
  if hist_cur h <? 0 then (h, Null)
  else if hist_cur h =? hist_add_idx h then (h, Null)
  else
    let cur := hist_cur h + 1 in
    let cur := if hist_max h <? cur then 0 else cur in
    if cur =? hist_add_idx h then (set_cur cur h, Empty) else (set_cur cur h, Row cur).

(** ** The editor *)

Record ed : Type := Ed {
  buf : mem; num : Z; eol_num : Z; insert : bool; esc_save : list Z; hist : history; out : list Z }.

Definition putch (o : list Z) (s : ed) : ed :=
  Ed (buf s) (num s) (eol_num s) (insert s) (esc_save s) (hist s) (out s ++ o).
Definition place (n e : Z) (s : ed) : ed := Ed (buf s) n e (insert s) (esc_save s) (hist s) (out s).
Definition set_buf (b : mem) (s : ed) : ed := Ed b (num s) (eol_num s) (insert s) (esc_save s) (hist s) (out s).
Definition set_esc (e : list Z) (s : ed) : ed := Ed (buf s) (num s) (eol_num s) (insert s) e (hist s) (out s).
Definition set_hist (h : history) (s : ed) : ed := Ed (buf s) (num s) (eol_num s) (insert s) (esc_save s) h (out s).
Definition toggle (s : ed) : ed :=
  Ed (buf s) (num s) (eol_num s) (negb (insert s)) (esc_save s) (hist s) (out s).

Definition copies (n : Z) (c : Z) : list Z := repeat c (Z.to_nat n).

Definition BEGINNING_OF_LINE (s : ed) : ed := place 0 (eol_num s) (putch (copies (num s) CTL_BACKSPACE) s).

Definition ERASE_TO_EOL (s : ed) : ed :=
  if num s <? eol_num s then
    place (num s) (num s)
      (putch (copies (eol_num s - num s) 32 ++ copies (eol_num s - num s) CTL_BACKSPACE) s)
  else s.

Definition REFRESH_TO_EOL (s : ed) : ed :=
  if num s <? eol_num s then
    place (eol_num s) (eol_num s) (putch (putnstr (buf s) (num s) (Z.to_nat (eol_num s - num s))) s)
  else s.

Definition cread_add_char (ichar : Z) (ins : bool) (len : Z) (s : ed) : ed :=
  let more := ins || (num s =? eol_num s) in
  if more && (len - 1 <? eol_num s) then putch [7] s
  else
    let s := if more then place (num s) (eol_num s + 1) s else s in
    if ins then
      let wlen := eol_num s - num s in
      let b := if 1 <? wlen then memmove (buf s) (num s + 1) (num s) (wlen - 1) else buf s in
      let b := b.[num s <- ichar] in
      let s := putch (putnstr b (num s) (Z.to_nat wlen)) (set_buf b s) in
      putch (copies (wlen - 1) CTL_BACKSPACE) (place (num s + 1) (eol_num s) s)
    else
      let b := (buf s).[num s <- ichar] in
      place (num s + 1) (eol_num s) (putch (putnstr b (num s) 1) (set_buf b s)).

Definition cread_add_str (str : list Z) (ins : bool) (len : Z) (s : ed) : ed :=
  fold_left (fun s c => cread_add_char c ins len s) str s.

(** What a character leads to: more input, the end of the line, an interrupt, or a
    [strcpy] that finds no NUL in the history. *)
Inductive outcome : Type := More (s : ed) | Newline (s : ed) | Break (s : ed) | Unterminated.

(** [case CTL_CH('p')] and [case CTL_CH('n')]. *)
Definition recall (prev : bool) (s : ed) : outcome :=
  let s := set_esc [] s in
  let '(h, l) := if prev then hist_prev (hist s) else hist_next (hist s) in
  let s := set_hist h s in
  let replace line :=
    let s := ERASE_TO_EOL (BEGINNING_OF_LINE s) in
    let s := set_buf (store_list (buf s) 0 (line ++ [0])) s in
    More (REFRESH_TO_EOL (place (num s) (Z.of_nat (length line)) s)) in
  match l with
  | Null => More (putch [7] s)
  | Empty => replace []
  | Row i =>
    match c_str (Z.to_nat (HIST_MAX * HIST_SIZE)) (hist_lines (hist s)) (HIST_SIZE * i) with
    | None => Unterminated
    | Some line => replace line
    end
  end.

(** ["impossible condition #876\n"], printed by [edit] in a state it is never called in. *)
Definition impossible : list Z :=
  [105; 109; 112; 111; 115; 115; 105; 98; 108; 101; 32; 99; 111; 110; 100; 105; 116; 105; 111; 110; 32; 35; 56; 55; 54; 10].

(** The [switch] on a character. *)
Definition edit (len ichar : Z) (s : ed) : outcome :=
  if ichar =? 27 then
    match esc_save s with [] => More (set_esc [ichar] s) | _ => More (set_esc [] (putch impossible s)) end
  else if ichar =? 1 then More (BEGINNING_OF_LINE s)
  else if ichar =? 3 then Break (set_buf ((buf s).[0 <- 0]) s)
  else if ichar =? 6 then
    More (if num s <? eol_num s then place (num s + 1) (eol_num s) (putch [buf s (num s)] s) else s)
  else if ichar =? 2 then
    More (if negb (num s =? 0) then place (num s - 1) (eol_num s) (putch [CTL_BACKSPACE] s) else s)
  else if ichar =? 4 then
    More (if num s <? eol_num s then
      let wlen := eol_num s - num s - 1 in
      let s := if negb (wlen =? 0) then
                 let b := memmove (buf s) (num s) (num s + 1) wlen in
                 putch (putnstr b (num s) (Z.to_nat wlen)) (set_buf b s)
               else s in
      place (num s) (eol_num s - 1) (putch ([32] ++ copies (wlen + 1) CTL_BACKSPACE) s)
    else s)
  else if ichar =? 11 then More (ERASE_TO_EOL s)
  else if ichar =? 5 then More (REFRESH_TO_EOL s)
  else if ichar =? 15 then More (toggle s)
  else if (ichar =? 24) || (ichar =? 21) then More (ERASE_TO_EOL (BEGINNING_OF_LINE s))
  else if (ichar =? DEL) || (ichar =? DEL7) || (ichar =? 8) then
    More (if negb (num s =? 0) then
      let wlen := eol_num s - num s in
      let n := num s - 1 in
      let b := memmove (buf s) n (n + 1) wlen in
      place n (eol_num s - 1)
        (putch ([CTL_BACKSPACE] ++ putnstr b n (Z.to_nat wlen) ++ [32] ++ copies (wlen + 1) CTL_BACKSPACE)
           (set_buf b s))
    else s)
  else if ichar =? 16 then recall true s
  else if ichar =? 14 then recall false s
  else More (cread_add_char ichar (insert s) len s).

(** The character that the last one of an escape sequence stands for. *)
Definition arrow (ichar : Z) : option Z :=
  if ichar =? 68 then Some 2
  else if ichar =? 67 then Some 6
  else if ichar =? 72 then Some 1
  else if ichar =? 65 then Some 16
  else if ichar =? 66 then Some 14
  else None.

(** One round of [while (1)]. *)
Definition cread_char (len ichar : Z) (s : ed) : outcome :=
  if (ichar =? 10) || (ichar =? 13) then Newline (putch [10] s)
  else
    match esc_save s with
    | [] => edit len ichar s
    | [_] =>
      if ichar =? 91 then More (set_esc (esc_save s ++ [ichar]) s)
      else More (set_esc [] (cread_add_str (esc_save s) (insert s) len s))
    | _ =>
      match arrow ichar with
      | Some c => edit len c (set_esc [] s)
      | None => More (set_esc [] (cread_add_str (esc_save s ++ [ichar]) (insert s) len s))
      end
    end.

(** The end of [cread_line]: the new history; [None] as for [Unterminated]. *)
Definition finish_line (s : ed) : option ed :=
  let s := set_buf ((buf s).[eol_num s <- 0]) s in
  h ← (if negb (buf s 0 =? 0) && negb (buf s 0 =? CREAD_HIST_CHAR) then
         line ← c_str (S (Z.to_nat (eol_num s))) (buf s) 0; Some (cread_add_to_hist line (hist s))
       else Some (hist s));
  Some (set_hist (set_cur (hist_add_idx h) h) s).

(** The results: the state and the length or -1, more input wanted, or a [strcpy]
    without an end. *)
Inductive result : Type := Done (s : ed) (rc : Z) | Wanting (s : ed) | Lost.

Fixpoint cread_loop (len : Z) (input : list Z) (s : ed) : result :=
  match input with
  | [] => Wanting s
  | c :: input =>
    match cread_char len c s with
    | More s => cread_loop len input s
    | Newline s => match finish_line s with Some s => Done s (eol_num s) | None => Lost end
    | Break s => Done s (-1)
    | Unterminated => Lost
    end
  end.

(** [init] is the string in the buffer; [o] what is on the console (the prompt). *)
Definition cread_line (len : Z) (b : mem) (init : list Z) (h : history) (o input : list Z) : result :=
  cread_loop len input (cread_add_str init true len (Ed b 0 0 true [] h o)).

(** ** The abstract editor *)

(** The line left and right of the cursor, the insert mode, and how far back in the
    history the user is. *)
Record line_editor : Type := LineEditor { before : list Z; after : list Z; inserting : bool; back : nat }.

Inductive command : Type :=
  | Type_ (c : Z) | Home | End_ | Left | Right | Delete | Backspace | Kill_to_end | Kill_line | Toggle
  | Previous | Next_.

Definition contents (a : line_editor) : list Z := before a ++ after a.

(** [H] is the history, latest line first. *)
Definition perform (len : Z) (H : list (list Z)) (cmd : command) (a : line_editor) : line_editor :=
  let '(LineEditor b t i p) := a in
  match cmd with
  | Type_ c =>
    if i || match t with [] => true | _ => false end then
      if Z.of_nat (length (b ++ t)) <? len then LineEditor (b ++ [c]) t i p else a
    else LineEditor (b ++ [c]) (tl t) i p
  | Home => LineEditor [] (b ++ t) i p
  | End_ => LineEditor (b ++ t) [] i p
  | Left => LineEditor (removelast b) (match b with [] => t | _ => last b 0 :: t end) i p
  | Right => LineEditor (b ++ firstn 1 t) (tl t) i p
  | Delete => LineEditor b (tl t) i p
  | Backspace => LineEditor (removelast b) t i p
  | Kill_to_end => LineEditor b [] i p
  | Kill_line => LineEditor [] [] i p
  | Toggle => LineEditor b t (negb i) p
  | Previous => match H !! p with Some l => LineEditor l [] i (S p) | None => a end
  | Next_ =>
    match p with
    | O => a
    | S O => LineEditor [] [] i O
    | S p => LineEditor (default [] (H !! (p - 1)%nat)) [] i p
    end
  end.

(** What the user types for a command. *)
Definition codes (cmd : command) : list (list Z) :=
  match cmd with
  | Type_ c => [[c]]
  | Home => [[1]; [27; 91; 72]]
  | End_ => [[5]]
  | Left => [[2]; [27; 91; 68]]
  | Right => [[6]; [27; 91; 67]]
  | Delete => [[4]]
  | Backspace => [[8]; [127]; [255]]
  | Kill_to_end => [[11]]
  | Kill_line => [[24]; [21]]
  | Toggle => [[15]]
  | Previous => [[16]; [27; 91; 65]]
  | Next_ => [[14]; [27; 91; 66]]
  end.

(** A character that takes one place on the screen and is no command. *)
Definition plain (c : Z) : Prop := 32 <= c < 255 /\ c <> 127.

Definition typable (cmd : command) : Prop := match cmd with Type_ c => plain c | _ => True end.

(** ** Strings in memory *)

Definition nonzero (t : list Z) : Prop := Forall (fun c => c <> 0) t.

Lemma plain_nonzero t : Forall plain t -> nonzero t.
Proof. apply Forall_impl. unfold plain. intros c Hc. lia. Qed.

Lemma c_str_holds m t : forall fuel a,
  holds m a (t ++ [0]) -> nonzero t -> (length t < fuel)%nat -> c_str fuel m a = Some t.
Proof.
  induction t as [|c t IH]; intros fuel a H Hn Hf; (destruct fuel as [|fuel]; [cbn in Hf; lia|]);
    cbn [app] in H; apply holds_cons in H as [Hc H]; cbn [c_str]; rewrite Hc.
  - done.
  - apply List.Forall_cons_iff in Hn as [Hc0 Hn]. rewrite (proj2 (Z.eqb_neq c 0)) by done.
    rewrite (IH fuel (a + 1) H Hn) by (cbn in Hf; lia). done.
Qed.

Lemma putnstr_holds m t : forall a n,
  holds m a t -> nonzero t -> n = length t -> putnstr m a n = t.
Proof.
  induction t as [|c t IH]; intros a n H Hn ->; [done|]. apply holds_cons in H as [Hc H].
  apply List.Forall_cons_iff in Hn as [Hc0 Hn]. cbn [length putnstr]. rewrite Hc, (proj2 (Z.eqb_neq c 0)) by done.
  by rewrite IH.
Qed.

Lemma holds_meq m k a l : m ≡ₘ k -> holds k a l -> holds m a l.
Proof. intros E. apply holds_ext. intros b _. apply E. Qed.

Lemma holds_upd_out m a l n c :
  n < a \/ a + Z.of_nat (length l) <= n -> holds m a l -> holds (m.[n <- c]) a l.
Proof. intros Hn. apply holds_ext. intros b Hb. apply upd_ne. lia. Qed.

(** Inserting a character, and deleting one. *)
Lemma holds_insert m x y c n w :
  holds m 0 (x ++ y) -> n = Z.of_nat (length x) -> w = Z.of_nat (length y) ->
  holds ((memmove m (n + 1) n w).[n <- c]) 0 (x ++ [c] ++ y).
Proof.
  intros [Hx Hy]%holds_app -> ->. rewrite Z.add_0_l in Hy. apply holds_app. rewrite Z.add_0_l. split.
  - revert Hx. apply holds_ext. intros b Hb. rewrite upd_ne, memmove_meq by lia.
    apply store_list_out. lia.
  - cbn [app]. apply holds_cons. split; [apply upd_eq|].
    apply holds_ext with (m := store_list m (Z.of_nat (length x) + 1) y).
    + intros b Hb. rewrite upd_ne, memmove_meq by lia. rewrite Nat2Z.id. by rewrite Hy.
    + apply holds_store.
Qed.

Lemma holds_delete m x c y n w :
  holds m 0 (x ++ c :: y) -> n = Z.of_nat (length x) -> w = Z.of_nat (length y) ->
  holds (memmove m n (n + 1) w) 0 (x ++ y).
Proof.
  intros [Hx Hy]%holds_app -> ->. rewrite Z.add_0_l in Hy. apply holds_cons in Hy as [_ Hy].
  apply holds_app. rewrite Z.add_0_l. split.
  - revert Hx. apply holds_ext. intros b Hb. rewrite memmove_meq. apply store_list_out. rewrite mem_list_length. lia.
  - apply holds_meq with (k := store_list m (Z.of_nat (length x)) y).
    + intros b. rewrite memmove_meq, Nat2Z.id. by rewrite Hy.
    + apply holds_store.
Qed.

(** ** The screen *)

Lemma show_plain t : forall l r, Forall plain t -> show (l, r) t = (rev t ++ l, skipn (length t) r).
Proof.
  induction t as [|c t IH]; intros l r Ht; [done|]. apply List.Forall_cons_iff in Ht as [Hc Ht].
  unfold show. cbn [fold_left put]. unfold plain in Hc.
  rewrite (proj2 (Z.eqb_neq c 7)), (proj2 (Z.eqb_neq c 8)) by lia.
  fold (show (c :: l, tl r) t). rewrite (IH (c :: l) (tl r) Ht). cbn [rev length]. rewrite <- app_assoc.
  by destruct r; [rewrite !skipn_nil|].
Qed.

Lemma show_left n : forall k l r, length k = n -> show (k ++ l, r) (repeat 8 n) = (l, rev k ++ r).
Proof.
  induction n as [|n IH]; intros k l r Hk; (destruct k as [|x k]; [|]); try done.
  injection Hk as Hk. cbn [repeat app].
  change (show (x :: k ++ l, r) (8 :: repeat 8 n)) with (show (k ++ l, x :: r) (repeat 8 n)).
  rewrite (IH k l (x :: r) Hk). cbn [rev]. by rewrite <- app_assoc.
Qed.

Lemma blanks_plain n : Forall plain (repeat 32 n).
Proof. apply List.Forall_forall. intros x Hx%repeat_spec. subst. unfold plain. lia. Qed.

(** ** The history as a list *)

#[local] Ltac bsplit := repeat (bdestruct_one; try lia).

(** The place in the array of the line [p] lines back. *)
Definition slot (h : history) (p : Z) : Z :=
  if p <=? hist_add_idx h then hist_add_idx h - p else hist_add_idx h - p + hist_max h + 1.

Definition line_ok (len : Z) (l : list Z) : Prop := Forall plain l /\ Z.of_nat (length l) <= len.

(** [h] holds the lines [H], latest first, and the user is [p] lines back. *)
Record recalls (len : Z) (h : history) (H : list (list Z)) (p : nat) : Prop := {
  re_max : hist_max h = Z.of_nat (length H) /\ hist_max h <= 19;
  re_add : 0 <= hist_add_idx h <= hist_max h;
  re_grow : hist_max h < 19 -> hist_add_idx h = hist_max h;
  re_lines : forall i l, H !! i = Some l ->
    holds (hist_lines h) (HIST_SIZE * slot h (Z.of_nat i + 1)) (l ++ [0]);
  re_ok : Forall (line_ok len) H;
  re_back : (p <= length H)%nat;
  re_cur : (hist_cur h = -1 /\ H = []) \/ hist_cur h = slot h (Z.of_nat p) }.

Lemma init_recalls len m : recalls len (hist_init m) [] 0.
Proof.
  split; cbn [hist_init hist_max hist_add_idx hist_cur length]; try lia; try done.
  by left.
Qed.

Lemma set_cur_recalls len h H p p' :
  recalls len h H p -> (p' <= length H)%nat -> recalls len (set_cur (slot h (Z.of_nat p')) h) H p'.
Proof. intros [Hm Ha Hg Hl Hok Hb Hc] Hp. split; try done. by right. Qed.

Lemma prev_spec len h H p :
  recalls len h H p ->
  match H !! p with
  | Some l => hist_prev h = (set_cur (slot h (Z.of_nat (S p))) h, Row (slot h (Z.of_nat (S p))))
  | None => hist_prev h = (h, Null)
  end.
Proof.
  intros [[Hm Hm19] Ha Hg Hl Hok Hb Hc]. unfold hist_prev.
  destruct Hc as [[Hc ->]|Hc].
  { rewrite Hc. by destruct p. }
  assert (Hs : 0 <= slot h (Z.of_nat p)) by (unfold slot; bsplit).
  rewrite Hc, (proj2 (Z.ltb_ge _ 0)) by lia.
  assert (E : (if slot h (Z.of_nat p) - 1 <? 0 then hist_max h else slot h (Z.of_nat p) - 1) = slot h (Z.of_nat (S p))).
  { unfold slot in *. bsplit. }
  rewrite E. destruct (H !! p) as [l|] eqn:Hp.
  - apply lookup_lt_Some in Hp. by rewrite (proj2 (Z.eqb_neq _ _)) by (unfold slot; bsplit).
  - apply lookup_ge_None in Hp. by rewrite (proj2 (Z.eqb_eq _ _)) by (unfold slot; bsplit).
Qed.

Lemma next_spec len h H p :
  recalls len h H p ->
  match p with
  | O => hist_next h = (h, Null)
  | S O => hist_next h = (set_cur (slot h 0) h, Empty)
  | S p' => hist_next h = (set_cur (slot h (Z.of_nat p')) h, Row (slot h (Z.of_nat p')))
  end.
Proof.
  intros [[Hm Hm19] Ha Hg Hl Hok Hb Hc]. unfold hist_next.
  destruct Hc as [[Hc ->]|Hc].
  { rewrite Hc. cbn in Hb. assert (p = O) as -> by lia. done. }
  assert (Hs : 0 <= slot h (Z.of_nat p)) by (unfold slot; bsplit).
  rewrite Hc, (proj2 (Z.ltb_ge _ 0)) by lia. destruct p as [|p].
  { by rewrite (proj2 (Z.eqb_eq _ _)) by (unfold slot; bsplit). }
  rewrite (proj2 (Z.eqb_neq _ _)) by (unfold slot; bsplit).
  assert (E : (if hist_max h <? slot h (Z.of_nat (S p)) + 1 then 0 else slot h (Z.of_nat (S p)) + 1) = slot h (Z.of_nat p)).
  { unfold slot in *. bsplit. }
  rewrite E. destruct p as [|p].
  - by rewrite (proj2 (Z.eqb_eq _ _)) by (unfold slot; bsplit).
  - by rewrite (proj2 (Z.eqb_neq _ _)) by (unfold slot; bsplit).
Qed.

(** A new line goes to the front; the oldest is forgotten when there are nineteen. *)
Lemma add_spec len h H p line :
  recalls len h H p -> line_ok len line -> len < HIST_SIZE ->
  let h' := cread_add_to_hist line h in
  recalls len (set_cur (hist_add_idx h') h') (firstn 19 (line :: H)) 0.
Proof.
  intros [[Hm Hm19] Ha Hg Hl Hok Hb _] Hline Hlen. unfold cread_add_to_hist, HIST_MAX. cbn zeta.
  set (add := if 20 <=? hist_add_idx h + 1 then 0 else hist_add_idx h + 1).
  set (mx := if hist_max h <? add then add else hist_max h).
  assert (Hmx : mx = Z.of_nat (length (firstn 19 (line :: H))) /\ mx <= 19 /\ 0 <= add <= mx /\ (mx < 19 -> add = mx)).
  { rewrite length_firstn. cbn [length]. unfold mx, add. bsplit. }
  destruct Hmx as (Hmx & Hmx19 & Hadd & Hgrow).
  split; cbn [hist_max hist_add_idx hist_cur hist_lines set_cur]; try done.
  - intros i l Hi. pose proof (lookup_lt_Some _ _ _ Hi) as Hlt. unfold slot. cbn [set_cur hist_max hist_add_idx].
    unfold HIST_SIZE, MAX_CMDBUF_SIZE in *. destruct Hline as [_ Hline].
    rewrite lookup_take in Hi. rewrite decide_True in Hi by (rewrite length_firstn in Hlt; lia).
    destruct i as [|i]; cbn [lookup list_lookup] in Hi.
    + injection Hi as <-. replace (if Z.of_nat 0 + 1 <=? add then add - (Z.of_nat 0 + 1) else add - (Z.of_nat 0 + 1) + mx + 1)
        with (hist_add_idx h) by (unfold mx, add in *; bsplit). apply holds_store.
    + specialize (Hl i l Hi). apply lookup_lt_Some in Hi as Hi'.
      assert (Hll : line_ok len l) by (apply (proj1 (List.Forall_forall _ _) Hok); by apply list_elem_of_In, (list_elem_of_lookup_2 _ i)).
      replace (if Z.of_nat (S i) + 1 <=? add then add - (Z.of_nat (S i) + 1) else add - (Z.of_nat (S i) + 1) + mx + 1)
        with (slot h (Z.of_nat i + 1)) by (rewrite length_firstn in Hlt; cbn [length] in Hlt; unfold slot, mx, add in *; bsplit).
      revert Hl. apply holds_ext. intros b Hb'. apply store_list_out. rewrite length_app in Hb' |- *. cbn [length] in *.
      destruct Hll as [_ Hll].
      assert (slot h (Z.of_nat i + 1) <> hist_add_idx h) by (rewrite length_firstn in Hlt; cbn [length] in Hlt; unfold slot; bsplit).
      lia.
  - apply Forall_take. by apply List.Forall_cons.
  - lia.
  - right. unfold slot. cbn [set_cur hist_max hist_add_idx]. bsplit.
Qed.

(** ** The screen, while editing *)

(** The prompt and the text are shown with the cursor between [b] and [t], and nothing after. *)
Definition screen (prompt b t o : list Z) : Prop :=
  exists j, show ([], []) o = (rev (prompt ++ b), t ++ repeat 32 j).

Lemma skipn_repeat (x : Z) n : forall j, skipn n (repeat x j) = repeat x (j - n).
Proof. induction n as [|n IH]; intros [|j]; try done. apply IH. Qed.

Lemma skipn_blanks t n j : exists k, skipn n (t ++ repeat 32 j) = skipn n t ++ repeat 32 k.
Proof. rewrite skipn_app, skipn_repeat. by eexists. Qed.

Lemma screen_type p b t o x : screen p b t o -> Forall plain x -> screen p (b ++ x) (skipn (length x) t) (o ++ x).
Proof.
  intros [j Ho] Hx. destruct (skipn_blanks t (length x) j) as [k Hk]. exists k.
  by rewrite show_app, Ho, show_plain, Hk, app_assoc, (rev_app_distr (p ++ b)).
Qed.

Lemma screen_back p b x t o n :
  screen p (b ++ x) t o -> n = Z.of_nat (length x) -> screen p b (x ++ t) (o ++ copies n CTL_BACKSPACE).
Proof.
  intros [j Ho] ->. exists j. unfold copies, CTL_BACKSPACE. rewrite Nat2Z.id, show_app, Ho, app_assoc, rev_app_distr.
  by rewrite show_left, rev_involutive, app_assoc by apply length_rev.
Qed.

Lemma screen_blank p b t n o : screen p b (t ++ repeat 32 n) o -> screen p b t o.
Proof. intros [j Ho]. exists (n + j)%nat. by rewrite Ho, repeat_app, <- app_assoc. Qed.

Lemma screen_bell p b t o : screen p b t o -> screen p b t (o ++ [7]).
Proof. intros [j Ho]. exists j. by rewrite show_app, Ho. Qed.

(** Everything that is printed after the cursor when characters there go away: what
    remains, [n] blanks, and back. *)
Lemma screen_close p b k t n m o :
  screen p b k o -> (length k <= length t + n)%nat -> Forall plain t -> m = Z.of_nat (length t + n) ->
  screen p b t (o ++ t ++ repeat 32 n ++ copies m CTL_BACKSPACE).
Proof.
  intros Ho Hk Ht Hm. apply screen_blank with n.
  replace (o ++ t ++ repeat 32 n ++ copies m CTL_BACKSPACE)
    with ((o ++ t ++ repeat 32 n) ++ copies m CTL_BACKSPACE) by (by rewrite <- !app_assoc).
  rewrite <- (app_nil_r (t ++ repeat 32 n)) at 1. apply screen_back; [|by rewrite length_app, repeat_length].
  apply (screen_type _ _ _ _ (t ++ repeat 32 n)) in Ho.
  - by rewrite skipn_all2 in Ho by (rewrite length_app, repeat_length; lia).
  - apply List.Forall_app. split; [done|apply blanks_plain].
Qed.

(** ** The editor implements the abstract one *)

(** The state is that of the abstract editor; the history lines are at most 255 long. *)
Record tracks (prompt : list Z) (len : Z) (H : list (list Z)) (a : line_editor) (s : ed) : Prop := {
  tr_num : num s = Z.of_nat (length (before a));
  tr_eol : eol_num s = Z.of_nat (length (contents a));
  tr_len : Z.of_nat (length (contents a)) <= len;
  tr_buf : holds (buf s) 0 (contents a);
  tr_insert : insert s = inserting a;
  tr_esc : esc_save s = [];
  tr_plain : Forall plain (contents a);
  tr_hist : recalls 255 (hist s) H (back a);
  tr_screen : screen prompt (before a) (after a) (out s) }.

Section tracking.
Context (prompt : list Z) (len : Z) (H : list (list Z)).
Context (Hlen : 255 <= len).

Abbreviation tracks := (tracks prompt len H).

Lemma home_tracks b t i p s :
  tracks (LineEditor b t i p) s -> tracks (LineEditor [] (b ++ t) i p) (BEGINNING_OF_LINE s).
Proof using.
  intros [Hnum Heol Hl Hbuf Hins Hesc Hp Hh Hs]. split; try done. cbn in *.
  rewrite <- (app_nil_l b) in Hs. by apply (screen_back _ [] b t).
Qed.

Lemma erase_tracks b t i p s :
  tracks (LineEditor b t i p) s -> tracks (LineEditor b [] i p) (ERASE_TO_EOL s).
Proof using.
  intros [Hnum Heol Hl Hbuf Hins Hesc Hp Hh Hs]. unfold contents in *. cbn [before after] in *.
  rewrite length_app in *. unfold ERASE_TO_EOL.
  destruct (Z.ltb_spec (num s) (eol_num s)).
  - apply holds_app in Hbuf as [Hbuf _]. apply List.Forall_app in Hp as [Hp _].
    split; unfold contents; cbn; rewrite ?app_nil_r; try done; try lia.
    replace (eol_num s - num s) with (Z.of_nat (length t)) by lia.
    unfold copies at 1. rewrite Nat2Z.id.
    apply (screen_close prompt b t [] (length t)); try done; lia.
  - assert (t = []) as -> by (destruct t; [done|cbn [length] in *; lia]).
    split; unfold contents; cbn; rewrite ?length_app; try done; lia.
Qed.

Lemma refresh_tracks b t i p s :
  tracks (LineEditor b t i p) s -> tracks (LineEditor (b ++ t) [] i p) (REFRESH_TO_EOL s).
Proof using.
  intros [Hnum Heol Hl Hbuf Hins Hesc Hp Hh Hs]. unfold contents in *. cbn [before after] in *.
  unfold REFRESH_TO_EOL. destruct (Z.ltb_spec (num s) (eol_num s)) as [Hlt|Hge].
  - split; unfold contents; cbn; rewrite ?app_nil_r; try done.
    apply List.Forall_app in Hp as [_ Hp]. apply holds_app in Hbuf as [_ Hbuf].
    rewrite (putnstr_holds _ t); try done.
    + apply (screen_type _ _ _ _ t) in Hs; [|done]. by rewrite skipn_all in Hs.
    + by rewrite Hnum.
    + by apply plain_nonzero.
    + rewrite length_app in *. lia.
  - rewrite length_app in *. assert (t = []) as -> by (destruct t; [done|cbn [length] in *; lia]).
    rewrite app_nil_r in *. split; unfold contents; cbn; rewrite ?app_nil_r, ?length_app; try done; lia.
Qed.

(** Typing over the character at the cursor, or at the end. *)
Lemma overtype_tracks b t i p s c e :
  tracks (LineEditor b t i p) s -> plain c -> e = Z.of_nat (length (b ++ [c] ++ tl t)) -> e <= len ->
  tracks (LineEditor (b ++ [c]) (tl t) i p)
    (place (num s + 1) e (putch (putnstr ((buf s).[num s <- c]) (num s) 1) (set_buf ((buf s).[num s <- c]) s))).
Proof using.
  intros [Hnum Heol Hl Hbuf Hins Hesc Hp Hh Hs] Hc -> He. unfold contents in *. cbn [before after] in *.
  apply List.Forall_app in Hp as [Hpb Hpt]. apply holds_app in Hbuf as [Hbuf Hbt].
  assert (Hb : holds ((buf s).[num s <- c]) 0 (b ++ [c] ++ tl t)).
  { apply holds_app. split; [|cbn [app]; apply holds_cons; split].
    - apply holds_upd_out; [lia|done].
    - by rewrite <- Hnum, upd_eq.
    - destruct t as [|x t]; [done|]. apply holds_cons in Hbt as [_ Hbt]. apply holds_upd_out; [lia|done]. }
  split; unfold contents; cbn [place putch set_buf num eol_num buf insert esc_save hist out before after back inserting];
    rewrite <- ?(app_assoc b); try done.
  - rewrite length_app. cbn [length]. lia.
  - apply List.Forall_app. split; [done|]. apply List.Forall_cons; [done|]. by destruct t; [|inversion Hpt].
  - rewrite (putnstr_holds _ [c]); try done.
    + apply (screen_type _ _ _ _ [c]) in Hs; [|by apply List.Forall_cons].
      by destruct t.
    + apply holds_app in Hb as [_ Hb]. rewrite Z.add_0_l, <- Hnum in Hb. by apply (holds_app _ _ [c]) in Hb as [Hb _].
    + apply plain_nonzero. by apply List.Forall_cons.
Qed.

Lemma type_tracks c a s :
  tracks a s -> plain c -> tracks (perform len H (Type_ c) a) (cread_add_char c (insert s) len s).
Proof using Hlen.
  destruct a as [b t i p]. intros Ht Hc. pose proof Ht as [Hnum Heol Hl Hbuf Hins Hesc Hp Hh Hs].
  unfold contents in *. cbn [before after inserting back] in *. unfold cread_add_char, perform. rewrite Hins.
  assert (Hz : (num s =? eol_num s) = match t with [] => true | _ => false end).
  { rewrite length_app in *. destruct t; cbn [length] in *; bsplit. }
  rewrite Hz. destruct (i || match t with [] => true | _ => false end) eqn:Hmore; cbn [andb]; cycle 1.
  { destruct i; [done|]. destruct t as [|x t]; [done|]. apply (overtype_tracks b (x :: t)); try done.
    - rewrite Heol. rewrite !length_app. done.
    - lia. }
  replace (len - 1 <? eol_num s) with (negb (Z.of_nat (length (b ++ t)) <? len)) by (rewrite Heol; bsplit).
  destruct (Z.ltb_spec (Z.of_nat (length (b ++ t))) len) as [Hroom|Hroom]; cbn [negb]; cycle 1.
  { split; try done. by apply screen_bell. }
  destruct i; cycle 1.
  { destruct t; [|done]. rewrite app_nil_r in Hroom, Heol.
    apply (overtype_tracks b [] false p s c (eol_num s + 1)); rewrite ?length_app; cbn [tl length]; try done; lia. }
  cbn [place num eol_num buf set_buf].
  assert (Hb : holds ((if 1 <? eol_num s + 1 - num s then memmove (buf s) (num s + 1) (num s) (eol_num s + 1 - num s - 1)
                       else buf s).[num s <- c]) 0 (b ++ [c] ++ t)).
  { rewrite length_app in *. destruct (Z.ltb_spec 1 (eol_num s + 1 - num s)).
    - apply holds_insert; [done|done|lia].
    - assert (t = []) as -> by (destruct t; [done|cbn [length] in *; lia]). rewrite app_nil_r in *.
      apply holds_app. split; [apply holds_upd_out; [lia|done]|]. apply holds_cons. split; [|done].
      by rewrite <- Hnum, upd_eq. }
  set (k := (_).[num s <- c]) in *. clearbody k.
  apply List.Forall_app in Hp as [Hpb Hpt].
  assert (Hct : Forall plain ([c] ++ t)) by (by apply List.Forall_cons).
  rewrite length_app in *.
  split; unfold contents; cbn [place putch set_buf num eol_num buf insert esc_save hist out before after back inserting];
    rewrite <- ?(app_assoc b), ?length_app; cbn [length app]; try done; try lia.
  - by apply List.Forall_app.
  - rewrite (putnstr_holds _ ([c] ++ t)); [|..|cbn [length app]; lia].
    + apply (screen_type _ _ _ _ ([c] ++ t)) in Hs; [|done]. rewrite skipn_all2 in Hs by (cbn; lia).
      rewrite app_assoc in Hs. rewrite <- (app_nil_r t). apply (screen_back _ _ t []); [by rewrite app_nil_r|lia].
    + apply holds_app in Hb as [_ Hb]. by rewrite Z.add_0_l, <- Hnum in Hb.
    + by apply plain_nonzero.
Qed.

(** What [^D] and a backspace do once the cursor is in front of the character. *)
Lemma delete_tracks b c t i p s o' bf :
  tracks (LineEditor b (c :: t) i p) s -> screen prompt b (c :: t) o' ->
  holds bf 0 (b ++ t) ->
  tracks (LineEditor b t i p)
    (Ed bf (Z.of_nat (length b)) (eol_num s - 1) (insert s) (esc_save s) (hist s)
      (o' ++ t ++ [32] ++ copies (Z.of_nat (length t) + 1) CTL_BACKSPACE)).
Proof using.
  intros [Hnum Heol Hl Hbuf Hins Hesc Hp Hh _] Hs Hb. unfold contents in *. cbn [before after] in *.
  rewrite length_app in *. cbn [length] in *. apply List.Forall_app in Hp as [Hpb [_ Hpt]%List.Forall_cons_iff].
  split; unfold contents; cbn [num eol_num buf insert esc_save hist out before after back inserting];
    rewrite ?length_app; try done; try lia.
  - by apply List.Forall_app.
  - apply (screen_close prompt b (c :: t) t 1); cbn [length]; try done; lia.
Qed.

Lemma recall_tracks b t i p p' s l h :
  tracks (LineEditor b t i p) s -> recalls 255 h H p' -> line_ok 255 l ->
  tracks (LineEditor l [] i p')
    (let s := ERASE_TO_EOL (BEGINNING_OF_LINE (set_hist h (set_esc [] s))) in
     let s := set_buf (store_list (buf s) 0 (l ++ [0])) s in
     REFRESH_TO_EOL (place (num s) (Z.of_nat (length l)) s)).
Proof using Hlen.
  intros Ht Hh [Hp Hll]. apply home_tracks, erase_tracks in Ht.
  assert (E : ERASE_TO_EOL (BEGINNING_OF_LINE (set_hist h (set_esc [] s)))
              = set_hist h (set_esc [] (ERASE_TO_EOL (BEGINNING_OF_LINE s)))).
  { unfold ERASE_TO_EOL. cbn. by destruct (0 <? eol_num s). }
  rewrite E. set (r := ERASE_TO_EOL _) in *. clearbody r.
  destruct Ht as [Hnum _ _ _ Hins _ _ _ Hs]. cbn [before after inserting] in *. cbn zeta.
  unfold REFRESH_TO_EOL. cbn [place set_buf set_hist set_esc num eol_num buf]. rewrite Hnum. change (Z.of_nat (length [])) with 0.
  pose proof (holds_store (buf r) 0 (l ++ [0])) as Hb. apply holds_app in Hb as [Hb _].
  destruct (Z.ltb_spec 0 (Z.of_nat (length l))) as [Hlt|Hge].
  - split; unfold contents; cbn; rewrite ?app_nil_r; try done; try lia.
    rewrite (putnstr_holds _ l); [|done|by apply plain_nonzero|cbn; lia].
    apply (screen_type _ _ _ _ l) in Hs; [|done]. by rewrite skipn_nil in Hs.
  - destruct l; [|done]. split; try done. cbn. lia.
Qed.

Lemma recall_step prev a s :
  tracks a s -> exists s', recall prev s = More s' /\ tracks (perform len H (if prev then Previous else Next_) a) s'.
Proof using Hlen.
  destruct a as [b t i p]. intros Ht. pose proof (tr_hist _ _ _ _ _ Ht) as Hh. cbn [back] in Hh.
  assert (Hrow : forall j l, H !! j = Some l ->
    c_str (Z.to_nat (HIST_MAX * HIST_SIZE)) (hist_lines (hist s)) (HIST_SIZE * slot (hist s) (Z.of_nat (S j))) = Some l
    /\ line_ok 255 l /\ recalls 255 (set_cur (slot (hist s) (Z.of_nat (S j))) (hist s)) H (S j)).
  { intros j l Hj. pose proof (lookup_lt_Some _ _ _ Hj).
    assert (Hl : line_ok 255 l).
    { apply (proj1 (List.Forall_forall _ _) (re_ok _ _ _ _ Hh)). by apply list_elem_of_In, (list_elem_of_lookup_2 _ j). }
    split; [|split; [done|]].
    - apply c_str_holds.
      + replace (Z.of_nat (S j)) with (Z.of_nat j + 1) by lia. by apply (re_lines _ _ _ _ Hh).
      + apply plain_nonzero. apply Hl.
      + destruct Hl as [_ Hl]. unfold HIST_MAX, HIST_SIZE, MAX_CMDBUF_SIZE. lia.
    - by apply (set_cur_recalls _ _ _ p). }
  assert (Hbell : forall h, h = hist s -> tracks (LineEditor b t i p) (putch [7] (set_hist h (set_esc [] s)))).
  { intros h ->. destruct Ht. split; try done. by apply screen_bell. }
  unfold recall. cbn [hist set_esc]. destruct prev; unfold perform.
  - pose proof (prev_spec _ _ _ _ Hh) as Hprev. destruct (H !! p) as [l|] eqn:Hp; rewrite Hprev.
    + destruct (Hrow p l Hp) as (E & Hl & Hr). cbn [hist set_hist set_cur hist_lines]. rewrite E.
      eexists. split; [done|]. by apply (recall_tracks b t i p).
    + eexists. split; [done|]. by apply Hbell.
  - pose proof (next_spec _ _ _ _ Hh) as Hnext. pose proof (re_back _ _ _ _ Hh) as Hback.
    destruct p as [|[|p]]; rewrite Hnext.
    + eexists. split; [done|]. by apply Hbell.
    + eexists. split; [done|]. apply (recall_tracks b t i 1); [done| |].
      * apply (set_cur_recalls _ _ _ 1 0); [done|lia].
      * split; [by apply List.Forall_nil|cbn; lia].
    + destruct (lookup_lt_is_Some_2 H p) as [l Hl]; [lia|]. destruct (Hrow p l Hl) as (E & Hok & Hr).
      cbn [hist set_hist set_cur hist_lines]. rewrite E. replace (S p - 1)%nat with p by lia. rewrite Hl.
      eexists. split; [done|]. by apply (recall_tracks b t i (S (S p))).
Qed.

Lemma right_tracks a s :
  tracks a s ->
  tracks (perform len H Right a)
    (if num s <? eol_num s then place (num s + 1) (eol_num s) (putch [buf s (num s)] s) else s).
Proof using.
  destruct a as [b t i p]. intros [Hnum Heol Hl Hbuf Hins Hesc Hp Hh Hs]. unfold contents in *.
  cbn [before after back inserting] in *. unfold perform.
  pose proof Hbuf as [_ Hbt]%holds_app. rewrite Z.add_0_l, <- Hnum in Hbt.
  pose proof Hp as [_ Hpt]%List.Forall_app.
  assert (E : (b ++ firstn 1 t) ++ tl t = b ++ t) by (rewrite <- app_assoc; by destruct t).
  destruct (Z.ltb_spec (num s) (eol_num s)) as [Hlt|Hge]; destruct t as [|c t];
    try (rewrite app_nil_r in *; lia); try (rewrite length_app in *; cbn [length] in *; lia).
  - apply holds_cons in Hbt as [Hc _]. apply List.Forall_cons_iff in Hpt as [Hpc _].
    split; unfold contents; cbn [before after back inserting place putch num eol_num buf insert esc_save hist out];
      rewrite ?E; try done.
    + rewrite length_app, length_take. cbn [length]. lia.
    + rewrite Hc. apply (screen_type _ _ _ _ [c]) in Hs; [done|by apply List.Forall_cons].
  - cbn [firstn tl]. rewrite app_nil_r in *. split; unfold contents; cbn; by rewrite ?app_nil_r.
Qed.

Lemma left_tracks a s :
  tracks a s ->
  tracks (perform len H Left a)
    (if negb (num s =? 0) then place (num s - 1) (eol_num s) (putch [CTL_BACKSPACE] s) else s).
Proof using.
  destruct a as [b t i p]. intros Ht. pose proof Ht as [Hnum Heol Hl Hbuf Hins Hesc Hp Hh Hs]. unfold contents in *.
  cbn [before after back inserting] in *. unfold perform.
  destruct b as [|c b _] using rev_ind.
  - by rewrite Hnum.
  - rewrite length_app in Hnum. cbn [length] in Hnum. rewrite (proj2 (Z.eqb_neq _ 0)) by lia. cbn [negb].
    rewrite removelast_last, last_last.
    replace (match b ++ [c] with [] => t | _ :: _ => c :: t end) with (c :: t) by (by destruct b).
    rewrite <- app_assoc in *. cbn [app] in *.
    split; unfold contents; cbn [before after back inserting place putch num eol_num buf insert esc_save hist out]; try done.
    + lia.
    + by apply (screen_back _ b [c] t _ 1).
Qed.

Lemma delete_step a s :
  tracks a s ->
  exists s', edit len 4 s = More s' /\ tracks (perform len H Delete a) s'.
Proof using.
  destruct a as [b t i p]. intros Ht. pose proof Ht as [Hnum Heol Hl Hbuf Hins Hesc Hp Hh Hs]. unfold contents in *.
  cbn [before after back inserting] in *. cbn [edit Z.eqb Pos.eqb]. eexists. split; [done|]. unfold perform.
  destruct (Z.ltb_spec (num s) (eol_num s)) as [Hlt|Hge]; destruct t as [|c t];
    try (rewrite app_nil_r in *; lia); try (rewrite length_app in *; cbn [length] in *; lia); [|done].
  rewrite length_app in Heol. cbn [length tl] in *.
  pose proof Hp as [_ [_ Hpt]%List.Forall_cons_iff]%List.Forall_app.
  assert (Hb : forall m, holds m 0 (b ++ t) -> putnstr m (num s) (Z.to_nat (Z.of_nat (length t))) = t).
  { intros m [_ Hm]%holds_app. apply putnstr_holds; [by rewrite Hnum|by apply plain_nonzero|lia]. }
  replace (eol_num s - num s - 1) with (Z.of_nat (length t)) by lia. rewrite Hnum in *.
  destruct (Z.eqb_spec (Z.of_nat (length t)) 0) as [H0|H0]; cbn [negb].
  - destruct t; [|done]. rewrite Hnum. apply (delete_tracks b c [] i p s (out s)); try done.
    apply holds_app in Hbuf as [Hbuf _]. by rewrite app_nil_r.
  - assert (Hd : holds (memmove (buf s) (Z.of_nat (length b)) (Z.of_nat (length b) + 1) (Z.of_nat (length t))) 0 (b ++ t))
      by (by apply (holds_delete _ b c t)).
    unfold place, putch, set_buf. cbn [buf num eol_num insert esc_save hist out]. rewrite Hnum, (Hb _ Hd), <- app_assoc.
    by apply (delete_tracks b c t i p s (out s)).
Qed.

Lemma backspace_tracks a s :
  tracks a s ->
  tracks (perform len H Backspace a)
    (if negb (num s =? 0) then
       let wlen := eol_num s - num s in
       let n := num s - 1 in
       let b := memmove (buf s) n (n + 1) wlen in
       place n (eol_num s - 1)
         (putch ([CTL_BACKSPACE] ++ putnstr b n (Z.to_nat wlen) ++ [32] ++ copies (wlen + 1) CTL_BACKSPACE)
            (set_buf b s))
     else s).
Proof using.
  destruct a as [b t i p]. intros Ht. pose proof Ht as [Hnum Heol Hl Hbuf Hins Hesc Hp Hh Hs].
  pose proof (left_tracks _ _ Ht) as Hleft. unfold contents in *. cbn [before after back inserting] in *. unfold perform in *.
  destruct b as [|c b _] using rev_ind.
  - by rewrite Hnum.
  - rewrite length_app in Hnum. cbn [length] in Hnum. rewrite (proj2 (Z.eqb_neq _ 0)) in * by lia. cbn [negb] in *.
    rewrite removelast_last, last_last in *.
    replace (match b ++ [c] with [] => t | _ :: _ => c :: t end) with (c :: t) in Hleft by (by destruct b).
    rewrite !length_app in Heol. cbn [length] in Heol.
    replace (eol_num s - num s) with (Z.of_nat (length t)) by lia. replace (num s - 1) with (Z.of_nat (length b)) in * by lia.
    cbn zeta. rewrite <- app_assoc in Hbuf. pose proof (holds_delete _ _ _ _ _ _ Hbuf eq_refl eq_refl) as Hd.
    apply List.Forall_app in Hp as [_ Hpt]. rewrite (putnstr_holds _ t); [|by apply holds_app in Hd as [_ Hd]|by apply plain_nonzero|lia].
    unfold putch, set_buf in *. cbn [buf num eol_num insert esc_save hist out] in *.
    rewrite (app_assoc (out s) [CTL_BACKSPACE]).
    apply (delete_tracks b c t i p _ (out s ++ [CTL_BACKSPACE]) _ Hleft); [|done].
    apply Hleft.
Qed.

Lemma edit_step cmd c a s :
  In [c] (codes cmd) -> typable cmd -> tracks a s ->
  exists s', edit len c s = More s' /\ tracks (perform len H cmd a) s'.
Proof using Hlen.
  intros Hin Hty Ht. destruct cmd; cbn [codes In] in Hin;
    repeat match type of Hin with _ \/ _ => destruct Hin as [[= <-]|Hin] end; try done.
  - exists (cread_add_char c0 (insert s) len s). split; [|by apply type_tracks].
    cbn [typable] in Hty. unfold plain in Hty. unfold edit, DEL, DEL7. cbn zeta.
    repeat rewrite (proj2 (Z.eqb_neq c0 _)) by lia. done.
  - eexists. split; [done|]. destruct a. by apply home_tracks.
  - eexists. split; [done|]. destruct a. by apply refresh_tracks.
  - eexists. split; [done|]. by apply left_tracks.
  - eexists. split; [done|]. by apply right_tracks.
  - by apply delete_step.
  - eexists. split; [done|]. by apply backspace_tracks.
  - eexists. split; [done|]. by apply backspace_tracks.
  - eexists. split; [done|]. by apply backspace_tracks.
  - eexists. split; [done|]. destruct a. by apply (erase_tracks before0 after0).
  - eexists. split; [done|]. destruct a. by apply (erase_tracks [] (before0 ++ after0)), home_tracks.
  - eexists. split; [done|]. destruct a. by apply (erase_tracks [] (before0 ++ after0)), home_tracks.
  - eexists. split; [done|]. destruct a. destruct Ht. split; try done. cbn in *. congruence.
  - by apply (recall_step true).
  - by apply (recall_step false).
Qed.

(** A command by any of its codes. *)
Lemma command_step cmd code a s rest :
  In code (codes cmd) -> typable cmd -> tracks a s ->
  exists s', cread_loop len (code ++ rest) s = cread_loop len rest s' /\ tracks (perform len H cmd a) s'.
Proof using Hlen.
  intros Hin Hty Ht. pose proof (tr_esc _ _ _ _ _ Ht) as Hesc.
  assert (Hc : exists c, In [c] (codes cmd) /\
    ((code = [c] /\ c <> 10 /\ c <> 13) \/
     exists x, code = [27; 91; x] /\ x <> 10 /\ x <> 13 /\ arrow x = Some c)).
  { destruct cmd; cbn [codes In] in *;
      repeat match type of Hin with _ \/ _ => destruct Hin as [<-|Hin] end; try done;
      try (eexists; split; [by left|left; done]);
      try (eexists; split; [by left|right; eexists; split; [done|done]]).
    - exists c. cbn [typable] in Hty. unfold plain in Hty. split; [by left|]. left. split; [done|lia].
    - exists 127. split; [by right; left|by left].
    - exists 255. split; [by right; right; left|by left].
    - exists 21. split; [by right; left|by left]. }
  destruct Hc as (c & Hc & Hcode). destruct (edit_step cmd c a s Hc Hty Ht) as (s' & He & Ht').
  exists s'. split; [|done].
  destruct Hcode as [(-> & H10 & H13)|(x & -> & H10 & H13 & Hx)]; cbn [app cread_loop]; unfold cread_char.
  - rewrite (proj2 (Z.eqb_neq c 10)), (proj2 (Z.eqb_neq c 13)) by done. cbn [orb]. by rewrite Hesc, He.
  - cbn [Z.eqb Pos.eqb orb]. rewrite Hesc. unfold edit at 1. cbn [Z.eqb Pos.eqb]. rewrite Hesc.
    cbn [set_esc esc_save app]. rewrite (proj2 (Z.eqb_neq x 10)), (proj2 (Z.eqb_neq x 13)) by done. cbn [orb].
    rewrite Hx. replace (set_esc [] _) with s by (destruct s; cbn in *; by subst). by rewrite He.
Qed.

Lemma commands_step cmds : forall codess a s rest,
  Forall2 (fun cmd code => In code (codes cmd)) cmds codess -> Forall typable cmds -> tracks a s ->
  exists s', cread_loop len (concat codess ++ rest) s = cread_loop len rest s' /\
    tracks (fold_left (fun a cmd => perform len H cmd a) cmds a) s'.
Proof using Hlen.
  induction cmds as [|cmd cmds IH]; intros codess a s rest Hc Hty Ht.
  - inversion Hc; subst. by exists s.
  - inversion Hc as [|? code ? codess' Hcode Hcodes]; subst. apply List.Forall_cons_iff in Hty as [Hty1 Hty].
    cbn [concat fold_left]. rewrite <- app_assoc.
    destruct (command_step cmd code a s (concat codess' ++ rest) Hcode Hty1 Ht) as (s1 & E1 & Ht1). rewrite E1.
    by apply IH.
Qed.
End tracking.

(** What the history becomes: the line is remembered if it has a character and the first is no [!]. *)
Definition remember (line : list Z) (H : list (list Z)) : list (list Z) :=
  match line with
  | [] => H
  | c :: _ => if c =? CREAD_HIST_CHAR then H else firstn 19 (line :: H)
  end.

Lemma finish_line_spec prompt len H a s :
  tracks prompt len H a s -> Z.of_nat (length (contents a)) < HIST_SIZE ->
  exists s', finish_line s = Some s' /\ eol_num s' = eol_num s /\ out s' = out s /\
    holds (buf s') 0 (contents a ++ [0]) /\ recalls 255 (hist s') (remember (contents a) H) 0.
Proof.
  intros [Hnum Heol Hl Hbuf Hins Hesc Hp Hh Hs] Hlt. unfold finish_line. cbn zeta. cbn [buf set_buf hist eol_num].
  set (m := (buf s).[eol_num s <- 0]).
  assert (Hm : holds m 0 (contents a ++ [0])).
  { apply holds_app. split; [apply holds_upd_out; [lia|done]|]. apply holds_cons. split; [|done].
    rewrite Z.add_0_l, <- Heol. apply upd_eq. }
  rewrite (c_str_holds m (contents a)); [|done|by apply plain_nonzero|lia]. cbn [mbind option_bind].
  assert (Hback : recalls 255 (set_cur (hist_add_idx (hist s)) (hist s)) H 0).
  { pose proof (re_add _ _ _ _ Hh) as Hadd.
    replace (hist_add_idx (hist s)) with (slot (hist s) (Z.of_nat 0)) at 1 by (unfold slot; bsplit).
    apply (set_cur_recalls _ _ _ (back a)); [done|lia]. }
  destruct (contents a) as [|c l] eqn:Ea.
  - cbn [app] in Hm. apply holds_cons in Hm as [Hm _]. rewrite Hm. cbn [Z.eqb negb andb].
    eexists. split; [done|]. split; [done|]. split; [done|]. split; [|done]. cbn. apply holds_cons. by split.
  - pose proof Hm as Hm'. cbn [app] in Hm'. apply holds_cons in Hm' as [Hc _]. rewrite Hc.
    pose proof Hp as [Hpc _]%List.Forall_cons_iff. unfold plain in Hpc. rewrite (proj2 (Z.eqb_neq c 0)) by lia.
    cbn [negb andb remember]. destruct (c =? CREAD_HIST_CHAR); cbn [negb].
    + eexists. split; [done|]. by split_and!.
    + eexists. split; [done|]. split_and!; try done. apply (add_spec _ _ _ (back a)); [done| |done].
      split; [done|]. unfold HIST_SIZE, MAX_CMDBUF_SIZE in Hlt. lia.
Qed.

(** ** Reading a line *)

(** [readline] after relocation: [initted] says whether the history is set up. *)
Definition readline_edited (initted : bool) (prompt : list Z) (b : mem) (h : history) (input : list Z) : result :=
  cread_line MAX_CMDBUF_SIZE (b.[0 <- 0]) [] (if initted then h else hist_init (hist_lines h)) prompt input.

(** C14: The editor implements the abstract one.  Whatever editing commands the user
    types, each by any of its codes (control character or escape sequence), and then
    Enter: if the line has less than 256 characters, [readline] returns its length, the
    buffer has the line, NUL-terminated, the screen showed the prompt and the line with
    the cursor in its place and nothing else, and the line is the first of the history,
    unless it is empty or starts with [!]; the history has the nineteen latest lines. *)
Theorem readline_edits initted prompt b h H cmds codess e rest :
  Forall plain prompt -> (if initted : bool then recalls 255 h H 0 else H = []) ->
  Forall2 (fun cmd code => In code (codes cmd)) cmds codess -> Forall typable cmds -> e = 10 \/ e = 13 ->
  let a := fold_left (fun a cmd => perform MAX_CMDBUF_SIZE H cmd a) cmds (LineEditor [] [] true 0) in
  Z.of_nat (length (contents a)) < 256 ->
  exists s o, readline_edited initted prompt b h (concat codess ++ e :: rest) = Done s (Z.of_nat (length (contents a))) /\
    holds (buf s) 0 (contents a ++ [0]) /\ recalls 255 (hist s) (remember (contents a) H) 0 /\
    out s = o ++ [10] /\ screen prompt (before a) (after a) o.
Proof.
  intros Hprompt Hh Hcodes Hty He a Hlt. unfold readline_edited, cread_line. cbn [cread_add_str fold_left].
  set (h0 := if initted then h else _). set (s0 := Ed _ _ _ _ _ _ _).
  assert (Ht : tracks prompt MAX_CMDBUF_SIZE H (LineEditor [] [] true 0) s0).
  { split; try done.
    - cbn. unfold h0. destruct initted; [done|]. subst. apply init_recalls.
    - exists O. cbn [before after]. rewrite app_nil_r. change (out s0) with prompt. by rewrite show_plain, skipn_nil, app_nil_r. }
  destruct (commands_step prompt MAX_CMDBUF_SIZE H ltac:(done) cmds codess _ s0 (e :: rest) Hcodes Hty Ht) as (s & E & Ht').
  rewrite E. fold a in Ht'. cbn [cread_loop]. unfold cread_char.
  replace ((e =? 10) || (e =? 13)) with true by (by destruct He as [->| ->]).
  destruct (finish_line_spec prompt MAX_CMDBUF_SIZE H a s Ht' Hlt) as (s' & Hf & Heol & Hout & Hb & Hr).
  assert (Hf' : finish_line (putch [10] s) = Some (putch [10] s')).
  { unfold finish_line in *. cbn [putch buf eol_num hist set_buf] in *.
    destruct (_ && _).
    - destruct (c_str _ _ _); [|done]. cbn [mbind option_bind] in *. by simplify_eq.
    - cbn [mbind option_bind] in *. by simplify_eq. }
  rewrite Hf'. exists (putch [10] s'), (out s). cbn [putch eol_num buf hist out].
  rewrite Heol, (tr_eol _ _ _ _ _ Ht'), Hout. split_and!; try done. apply (tr_screen _ _ _ _ _ Ht').
Qed.

(** [x], the left arrow, [l], the home key, [s] and Delete: the line is [sx], after a
    first call that sets the history up. *)
Lemma readline_edits_witness :
  exists s o, readline_edited false [62] (fun _ => 0) (History 0 0 0 0 (fun _ => 0))
      (concat [[120]; [27; 91; 68]; [108]; [27; 91; 72]; [115]; [4]] ++ 13 :: []) = Done s 2 /\
    holds (buf s) 0 [115; 120; 0] /\ recalls 255 (hist s) [[115; 120]] 0 /\
    out s = o ++ [10] /\ screen [62] [115] [120] o.
Proof.
  apply (readline_edits false [62] (fun _ => 0) (History 0 0 0 0 (fun _ => 0)) []
    [Type_ 120; Left; Type_ 108; Home; Type_ 115; Delete] [[120]; [27; 91; 68]; [108]; [27; 91; 72]; [115]; [4]] 13 []).
  - by apply (bool_decide_unpack _).
  - reflexivity.
  - repeat constructor; cbn; tauto.
  - repeat constructor; cbn; lia.
  - by right.
  - vm_compute. reflexivity.
Defined.

(** The result, the line and the next bytes of the buffer, and the first byte of a row of the history. *)
Definition glance (r : result) (n : nat) (row : Z) : option (Z * list Z * Z) :=
  match r with
  | Done s rc => Some (rc, mem_list (buf s) 0 n, hist_lines (hist s) (HIST_SIZE * row))
  | _ => None
  end.

(** The second line is the first one, recalled with the up arrow and edited. *)
Example recall_and_edit :
  match readline_edited false [62] (fun _ => 0) (History 0 0 0 0 (fun _ => 0)) [108; 115; 13] with
  | Done s _ => glance (readline_edited true [62] (buf s) (hist s) [27; 91; 65; 8; 97; 10]) 3 1 = Some (2, [108; 97; 0], 108)
  | _ => False
  end.
Proof. vm_compute. reflexivity. Qed.

(** A line of 256 characters is accepted, and its NUL is one past a row of the history
    (and one past a buffer of 256 bytes). *)
Lemma full_line_past_row line h :
  length line = 256%nat -> hist_lines (cread_add_to_hist line h) (HIST_SIZE * (hist_add_idx h + 1)) = 0.
Proof.
  intros Hl. unfold cread_add_to_hist. cbn [hist_lines].
  pose proof (holds_store (hist_lines h) (HIST_SIZE * hist_add_idx h) (line ++ [0])) as Hs.
  apply holds_app in Hs as [_ [Hs _]%holds_cons]. rewrite Hl in Hs. rewrite <- Hs at 2. f_equal.
  unfold HIST_SIZE, MAX_CMDBUF_SIZE. lia.
Qed.

(** Such a line empties the oldest one, in the next row. *)
Fact full_line_accepted :
  match readline_edited true [62] (fun _ => 0) (History 19 0 0 20 ((fun _ => 0).[HIST_SIZE <- 120])) (repeat 97 256 ++ [13]) with
  | Done s rc => rc = 256 /\ buf s 256 = 0 /\ hist_lines (hist s) HIST_SIZE = 0
  | _ => False
  end.
Proof. vm_compute. split_and!; reflexivity. Qed.
