(* ===== verification/Command.v ===== *)
(** The command table: [common/command.c] (with [CONFIG_SYS_LONGHELP] and
    [CONFIG_AUTO_COMPLETE]): looking commands up, the help list and its sort, and
    completion.

    Names are strings by value, the table is the list of its entries in link
    order; a fixed-size array of pointers ([cmdv]) is the list of its entries.
    Printed text goes through the interpreter of [vsprintf]. *)

From S2P Require Import Prelude CString Vsprintf.
From Stdlib Require Import Permutation Sorted.

(** [cmd_tbl_t], without the function; [complete] takes [argv], the last
    character and [maxv]. *)
Record cmd_tbl_t : Type := Cmd {
  name : list Z;
  maxargs : Z;
  repeatable : Z;
  usage : option (list Z);
  help : option (list Z);
  complete : option (list (list Z) -> Z -> Z -> list (list Z)) }.

(** ** Lookup *)

(** The part of a command before its first dot. *)
Fixpoint before_dot (cmd : list Z) : list Z :=
  match cmd with
  | [] => []
  | c :: cmd => if c =? 46 then [] else c :: before_dot cmd
  end.

(** [strncmp(cmd, s, len) == 0], for [len] at most the length of [cmd]. *)
Definition starts (len : nat) (cmd s : list Z) : bool :=
  bool_decide (firstn len cmd = firstn len s).

(** The loop of [find_cmd_tbl]: the last abbreviation seen and their number. *)
Fixpoint find_scan (cmd : list Z) (len : nat) (table : list cmd_tbl_t)
    (cmdtp_temp : option cmd_tbl_t) (n_found : nat) : option cmd_tbl_t :=
  match table with
  | [] => if Nat.eqb n_found 1 then cmdtp_temp else None
  | cmdtp :: table =>
    if starts len cmd (name cmdtp) then
      if Nat.eqb len (length (name cmdtp)) then Some cmdtp
      else find_scan cmd len table (Some cmdtp) (S n_found)
    else find_scan cmd len table cmdtp_temp n_found
  end.

Definition find_cmd_tbl (cmd : list Z) (table : list cmd_tbl_t) : option cmd_tbl_t :=
  find_scan cmd (length (before_dot cmd)) table (hd_error table) 0.

(** ** Help *)

(** [strcmp(a, b) > 0] ([CString.strcmp_spec]). *)
Definition after (a b : cmd_tbl_t) : bool := 0 <? s8 (strdiff (name a) (name b)).

(** One sweep of the bubble sort over the first [n + 1] entries, and whether it
    swapped. *)
Fixpoint sweep (n : nat) (l : list cmd_tbl_t) : list cmd_tbl_t * bool :=
  match n, l with
  | S n, a :: b :: l =>
    if after a b then let '(l, _) := sweep n (a :: l) in (b :: l, true)
    else let '(l, s) := sweep n (b :: l) in (a :: l, s)
  | _, _ => (l, false)
  end.

(** [for (i = cmd_items - 1; i > 0; --i)], left when a sweep did not swap. *)
Fixpoint bubble (i : nat) (l : list cmd_tbl_t) : list cmd_tbl_t :=
  match i with
  | O => l
  | S n => let '(l, swaps) := sweep i l in if swaps then bubble n l else l
  end.

Definition sort_cmds (l : list cmd_tbl_t) : list cmd_tbl_t := bubble (length l - 1) l.

(** "%-*s- %s\n", "%s - %s\n\n" and "Usage:\n%s " *)
Definition fmt_short : list Z := [37; 45; 42; 115; 45; 32; 37; 115; 10].
Definition fmt_usage : list Z := [37; 115; 32; 45; 32; 37; 115; 10; 10].
Definition fmt_long : list Z := [85; 115; 97; 103; 101; 58; 10; 37; 115; 32].

(** "- No additional help available.\n" *)
Definition no_help : list Z :=
  [45; 32; 78; 111; 32; 97; 100; 100; 105; 116; 105; 111; 110; 97; 108; 32; 104; 101; 108;
   112; 32; 97; 118; 97; 105; 108; 97; 98; 108; 101; 46; 10].

(** "Unknown command '%s' - try 'help' without arguments for list of all known
    commands\n\n" *)
Definition fmt_unknown : list Z :=
  [85; 110; 107; 110; 111; 119; 110; 32; 99; 111; 109; 109; 97; 110; 100; 32; 39; 37;
   115; 39; 32; 45; 32; 116; 114; 121; 32; 39; 104; 101; 108; 112; 39; 32; 119; 105;
   116; 104; 111; 117; 116; 32; 97; 114; 103; 117; 109; 101; 110; 116; 115; 32; 102;
   111; 114; 32; 108; 105; 115; 116; 32; 111; 102; 32; 97; 108; 108; 32; 107; 110;
   111; 119; 110; 32; 99; 111; 109; 109; 97; 110; 100; 115; 10; 10].

(** The output and the result. *)
Definition cmd_usage (cmdtp : cmd_tbl_t) : option (list Z * Z) :=
  a ← printf fmt_usage [AStr (Some (name cmdtp)); AStr (usage cmdtp)];
  b ← printf fmt_long [AStr (Some (name cmdtp))];
  Some (match help cmdtp with
        | None => (a ++ b ++ no_help, 1)
        | Some h => (a ++ b ++ h ++ [10], 0)
        end).

(** The short list; [ctrlc] answers the successive polls. *)
Fixpoint help_list (width : Z) (cmds : list cmd_tbl_t) (ctrlc : list bool)
    : option (list Z * Z) :=
  match cmds with
  | [] => Some ([], 0)
  | c :: cmds =>
    if hd false ctrlc then Some ([], 1)
    else
      line ← (match usage c with
              | None => Some []
              | Some u => printf fmt_short [AInt width; AStr (Some (name c)); AStr (Some u)]
              end);
      '(rest, r) ← help_list width cmds (tl ctrlc);
      Some (line ++ rest, r)
  end.

Fixpoint help_named (table : list cmd_tbl_t) (argv : list (list Z)) (rcode : Z)
    : option (list Z * Z) :=
  match argv with
  | [] => Some ([], rcode)
  | a :: argv =>
    match find_cmd_tbl a table with
    | Some cmdtp =>
      '(o, r) ← cmd_usage cmdtp;
      '(rest, rc) ← help_named table argv (Z.lor rcode r);
      Some (o ++ rest, rc)
    | None =>
      o ← printf fmt_unknown [AStr (Some a)];
      '(rest, rc) ← help_named table argv 1;
      Some (o ++ rest, rc)
    end
  end.

(** [argv] includes the command itself. *)
Definition _do_help (width : Z) (table : list cmd_tbl_t) (argv : list (list Z)) (ctrlc : list bool)
    : option (list Z * Z) :=
  match argv with
  | [_] => help_list width (sort_cmds table) ctrlc
  | _ => help_named table (tl argv) 0
  end.

(** ** Completion *)

Definition dots : list Z := [46; 46; 46].

(** Collects the names of the entries that pass [p], giving up with "..." when
    [maxv - 2] are there. *)
Fixpoint collect (p : cmd_tbl_t -> bool) (maxv : Z) (table : list cmd_tbl_t) (n_found : Z)
    : list (list Z) :=
  match table with
  | [] => []
  | cmdtp :: table =>
    if p cmdtp then
      if maxv - 2 <=? n_found then [dots]
      else name cmdtp :: collect p maxv table (n_found + 1)
    else collect p maxv table n_found
  end.

Definition is_space (last_char : Z) : bool :=
  (last_char =? 0) || (last_char =? 32) || (last_char =? 9).

(** The completions; [None] is the result -2. *)
Definition complete_cmdv (table : list cmd_tbl_t) (argv : list (list Z)) (last_char maxv : Z)
    : option (list (list Z)) :=
  if maxv <? 2 then None
  else
    match argv with
    | [] => Some (collect (fun _ => true) maxv table 0)
    | cmd :: args =>
      if (1 <? Z.of_nat (length argv)) || is_space last_char then
        match find_cmd_tbl cmd table with
        | None => Some []
        | Some cmdtp =>
          match complete cmdtp with
          | None => Some []
          | Some f => Some (f argv last_char maxv)
          end
        end
      else
        let len := length (before_dot cmd) in
        Some (collect (fun c =>
          negb (Z.of_nat (length (name c)) <? Z.of_nat len) && starts len cmd (name c)) maxv table 0)
    end.

(** The arguments of a line, [n] at most. *)
Fixpoint make_argv_loop (fuel n : nat) (s : list Z) : list (list Z) :=
  match fuel, n with
  | S fuel, S n =>
    let fix skip (s : list Z) : list Z :=
      match s with c :: s' => if (c =? 32) || (c =? 9) then skip s' else s | [] => [] end in
    let fix word (s : list Z) : list Z * list Z :=
      match s with
      | [] => ([], [])
      | c :: s' =>
        if negb (c =? 32) && negb (c =? 9) then let '(w, r) := word s' in (c :: w, r) else ([], s)
      end in
    match skip s with
    | [] => []
    | s =>
      let '(w, r) := word s in
      match r with [] => [w] | _ :: r => w :: make_argv_loop fuel n r end
    end
  | _, _ => []
  end.

Definition make_argv (s : list Z) (argvsz : nat) : list (list Z) :=
  make_argv_loop (S (length s)) (argvsz - 1) s.

(** How many characters of [s], up to [len], agree with [t]. *)
Fixpoint agree (len : nat) (s t : list Z) : nat :=
  match len, s, t with
  | S len, c :: s, d :: t => if c =? d then S (agree len s t) else O
  | _, _, _ => O
  end.

Definition find_common_prefix (argv : list (list Z)) : nat :=
  match argv with
  | [] => O
  | anchor :: argv => fold_left (fun len t => agree len anchor t) argv (length anchor)
  end.

(** What completion does to the line: the bell, nothing, a list to print, or text
    to add (and a bell when it is not the whole word).  [Overrun] is the case
    in which the name is read behind its NUL, or [argv] or [cmdv] outside what was
    stored in them. *)
Inductive completion : Type :=
  | NotHandled
  | Bell
  | Choices (cmdv : list (list Z))
  | Extend (added : list Z) (bell : bool)
  | Overrun.

(** [cmd_auto_complete] on the line [buf], when the prompt is the console's.  [n] is
    [*np], [argvsz] the size of [argv], and [cmdv] has 20 entries. *)
Definition cmd_auto_complete (cbsize : Z) (argvsz : nat) (table : list cmd_tbl_t) (buf : list Z) (n : Z)
    : completion :=
  let last_char := List.last buf 0 in
  let argv := make_argv buf argvsz in
  match complete_cmdv table argv last_char 20 with
  | None => Overrun
  | Some [] => if 1 <? Z.of_nat (length argv) then NotHandled else Bell
  | Some cmdv =>
    let word := List.last argv [] in
    let k := length word in
    let fits (added : list Z) (bell : bool) :=
      if cbsize - 2 <=? n + Z.of_nat (length added) then Bell else Extend added bell in
    match cmdv with
    | [one] =>
      if Nat.eqb (length argv) 0 || Nat.ltb (length one) k then Overrun else fits (skipn k one ++ [32]) false
    | one :: _ =>
      let j := find_common_prefix cmdv in
      if Nat.eqb j 0 then Choices cmdv
      else if Nat.eqb (length argv) 0 then Overrun
      else if Nat.ltb k j then fits (firstn (j - k) (skipn k one)) true
      else Choices cmdv
    | [] => Bell
    end
  end.

(** [cmd_get_data_size] *)
Definition cmd_get_data_size (arg : list Z) (default_size : Z) : Z :=
  let len := Z.of_nat (length arg) in
  if (2 <? len) && (rd arg (len - 2) =? 46) then
    let c := rd arg (len - 1) in
    if c =? 98 then 1
    else if c =? 119 then 2
    else if c =? 108 then 4
    else if c =? 115 then -2
    else -1
  else default_size.

(** ** Lookup is exact match or unique abbreviation *)

Definition named (s : list Z) (c : cmd_tbl_t) : bool := bool_decide (name c = s).
Definition abbreviates (s : list Z) (c : cmd_tbl_t) : bool :=
  bool_decide (firstn (length s) (name c) = s).

Lemma before_dot_prefix cmd : firstn (length (before_dot cmd)) cmd = before_dot cmd.
Proof.
  induction cmd as [|c cmd IH]; [done|]. cbn [before_dot]. destruct (c =? 46); [done|].
  cbn [length firstn]. by rewrite IH.
Qed.

Lemma starts_spec cmd c :
  starts (length (before_dot cmd)) cmd (name c) = abbreviates (before_dot cmd) c.
Proof.
  unfold starts, abbreviates. rewrite before_dot_prefix. apply bool_decide_ext.
  split; intros H; by symmetry.
Qed.

Lemma named_spec s c :
  abbreviates s c = true -> Nat.eqb (length s) (length (name c)) = named s c.
Proof.
  unfold abbreviates, named. intros H%bool_decide_eq_true.
  destruct (Nat.eqb_spec (length s) (length (name c))) as [E|E]; symmetry.
  - apply bool_decide_eq_true. rewrite E, firstn_all in H. done.
  - apply bool_decide_eq_false. intros <-. done.
Qed.

Lemma named_abbreviates s c : named s c = true -> abbreviates s c = true.
Proof.
  unfold named, abbreviates. intros ->%bool_decide_eq_true. apply bool_decide_eq_true.
  apply firstn_all.
Qed.

Lemma find_scan_spec cmd table temp n :
  let base := before_dot cmd in
  find_scan cmd (length base) table temp n =
  match find (named base) table with
  | Some c => Some c
  | None =>
    match List.filter (abbreviates base) table with
    | [] => if Nat.eqb n 1 then temp else None
    | [c] => if Nat.eqb n 0 then Some c else None
    | _ => None
    end
  end.
Proof.
  intros base. revert temp n. induction table as [|c table IH]; intros temp n; [done|].
  cbn [find_scan find List.filter]. rewrite (starts_spec cmd c : starts (length base) cmd (name c) = abbreviates base c).
  destruct (abbreviates base c) eqn:Ea.
  - rewrite (named_spec base c Ea). destruct (named base c); [done|]. rewrite IH.
    destruct (find (named base) table); [done|].
    destruct (List.filter (abbreviates base) table) as [|d [|]]; by destruct n.
  - destruct (named base c) eqn:En; [|apply IH].
    apply named_abbreviates in En. congruence.
Qed.

(** a command is found by the part of its name before the first dot: the first
    entry with exactly that name; otherwise the entry it abbreviates, when
    there is exactly one; otherwise nothing. *)
Theorem find_cmd_tbl_spec cmd table :
  find_cmd_tbl cmd table =
  match find (named (before_dot cmd)) table with
  | Some c => Some c
  | None =>
    match List.filter (abbreviates (before_dot cmd)) table with
    | [c] => Some c
    | _ => None
    end
  end.
Proof.
  unfold find_cmd_tbl. rewrite find_scan_spec.
  destruct (find _ table); [done|]. by destruct (List.filter _ table) as [|? [|]].
Qed.

(** ** The help list is sorted *)

(** Characters of command names. *)
Definition ascii_name (c : cmd_tbl_t) : Prop := Forall (fun x => 0 < x < 128) (name c).

Definition name_le (a b : cmd_tbl_t) : Prop := strdiff (name a) (name b) <= 0.

Lemma strdiff_range s t :
  Forall (fun x => 0 < x < 128) s -> Forall (fun x => 0 < x < 128) t -> -128 < strdiff s t < 128.
Proof.
  intros Hs. revert t. induction Hs as [|c s Hc Hs IH]; intros t Ht; destruct Ht as [|d t Hd Ht];
    cbn [strdiff]; try lia.
  destruct (Z.eqb_spec c d); [by apply IH|lia].
Qed.

Lemma name_le_refl a : name_le a a.
Proof.
  unfold name_le. induction (name a) as [|c s IH]; cbn [strdiff]; [lia|].
  by rewrite Z.eqb_refl.
Qed.

Lemma strdiff_swap s t : strdiff s t = - strdiff t s.
Proof.
  revert t. induction s as [|c s IH]; intros [|d t]; cbn [strdiff]; try lia.
  rewrite Z.eqb_sym. destruct (Z.eqb_spec d c); [apply IH|lia].
Qed.

Lemma strdiff_trans s t u :
  Forall (fun x => 0 < x < 128) s -> Forall (fun x => 0 < x < 128) t ->
  Forall (fun x => 0 < x < 128) u ->
  strdiff s t <= 0 -> strdiff t u <= 0 -> strdiff s u <= 0.
Proof.
  intros Hs. revert t u. induction Hs as [|c s Hc Hs IH]; intros t u Ht Hu.
  - destruct Hu; cbn [strdiff]; lia.
  - destruct Ht as [|d t Hd Ht]; cbn [strdiff]; [lia|].
    destruct Hu as [|e u He Hu]; cbn [strdiff]; [lia|].
    destruct (Z.eqb_spec c d), (Z.eqb_spec d e), (Z.eqb_spec c e); try lia; subst; try lia.
    by apply IH.
Qed.

Lemma after_spec a b :
  ascii_name a -> ascii_name b -> after a b = (0 <? strdiff (name a) (name b)).
Proof.
  intros Ha Hb. unfold after. pose proof (strdiff_range _ _ Ha Hb).
  unfold s8. by rewrite signed_small by lia.
Qed.

(** One sweep permutes and leaves a greatest element at its end. *)
Lemma sweep_spec n l k :
  Forall ascii_name l -> length l = S n ->
  exists l' x, sweep n (l ++ k) = (l' ++ [x] ++ k, snd (sweep n (l ++ k))) /\
    Permutation l (l' ++ [x]) /\ Forall (fun y => name_le y x) l' /\
    (snd (sweep n (l ++ k)) = false -> l = l' ++ [x] /\ Sorted name_le l).
Proof.
  revert l. induction n as [|n IH]; intros l Hl Hn.
  { destruct l as [|a [|]]; try done. exists [], a. split_and!; try done. by repeat constructor. }
  destruct l as [|a [|b l]]; try done. cbn [length] in Hn. cbn [app sweep].
  apply List.Forall_cons_iff in Hl as [Ha Hl]. pose proof Hl as Hbl.
  apply List.Forall_cons_iff in Hbl as [Hb Hl'].
  rewrite after_spec by done. destruct (Z.ltb_spec 0 (strdiff (name a) (name b))) as [Hgt|Hle].
  - destruct (IH (a :: l)) as (l' & x & Hs & Hp & Hmax & _); [by constructor|simpl; lia|].
    cbn [app] in Hs. destruct (sweep n (a :: l ++ k)) as [r s]. cbn [fst snd] in *. simplify_eq.
    exists (b :: l'), x. split_and!; [done| | |done].
    + rewrite perm_swap. by rewrite Hp.
    + constructor; [|done].
      assert (Hax : name_le a x).
      { assert (Hin : In a (l' ++ [x])) by (apply (Permutation_in a Hp); by left).
        apply in_app_or in Hin as [Hin|[->|[]]].
        - rewrite List.Forall_forall in Hmax. by apply Hmax.
        - apply name_le_refl. }
      assert (Hx : ascii_name x).
      { assert (Hin : In x (a :: l)).
        { apply (Permutation_in x (Permutation_sym Hp)), in_or_app. right. by left. }
        assert (Hall : Forall ascii_name (a :: l)) by (by constructor).
        rewrite List.Forall_forall in Hall. by apply Hall. }
      unfold name_le in *. apply (strdiff_trans _ (name a)); try done.
      rewrite strdiff_swap. lia.
  - destruct (IH (b :: l)) as (l' & x & Hs & Hp & Hmax & Hsort); [done|simpl; lia|].
    cbn [app] in Hs, Hsort. destruct (sweep n (b :: l ++ k)) as [r s]. cbn [fst snd] in *.
    simplify_eq. exists (a :: l'), x. split_and!; [done|by rewrite Hp| |].
    + constructor; [|done].
      assert (Hin : In b (l' ++ [x])) by (apply (Permutation_in b Hp); by left).
      assert (Hx : ascii_name x).
      { assert (Hix : In x (b :: l)).
        { apply (Permutation_in x (Permutation_sym Hp)), in_or_app. right. by left. }
        rewrite List.Forall_forall in Hl. by apply Hl. }
      assert (Hbx : name_le b x).
      { apply in_app_or in Hin as [Hin|[->|[]]].
        - rewrite List.Forall_forall in Hmax. by apply Hmax.
        - apply name_le_refl. }
      unfold name_le in *. by apply (strdiff_trans _ (name b)).
    + intros Hf. destruct (Hsort Hf) as [Heq Hso]. split; [by rewrite Heq|].
      constructor; [done|]. by constructor.
Qed.

Lemma sorted_snoc l x k :
  Sorted name_le l -> Forall (fun y => name_le y x) l -> Sorted name_le (x :: k) ->
  Sorted name_le (l ++ x :: k).
Proof.
  intros Hl Hx Hk. induction Hl as [|a l Hl IH Ha]; [done|].
  apply List.Forall_cons_iff in Hx as [Hax Hx]. simpl. constructor; [by apply IH|].
  destruct Ha; simpl; by constructor.
Qed.

Lemma bubble_spec i l k :
  Forall ascii_name (l ++ k) -> length l = S i -> Sorted name_le k ->
  (forall a b, In a l -> In b k -> name_le a b) ->
  Permutation (l ++ k) (bubble i (l ++ k)) /\ Sorted name_le (bubble i (l ++ k)).
Proof.
  revert l k. induction i as [|i IH]; intros l k Hok Hn Hk Hlk.
  { destruct l as [|a [|]]; try done. split; [done|]. simpl. constructor; [done|].
    destruct k; constructor. apply Hlk; by left. }
  apply Forall_app in Hok as [Hl Hkok]. cbn [bubble].
  destruct (sweep_spec (S i) l k Hl Hn) as (l' & x & Hs & Hp & Hmax & Hsort).
  destruct (sweep (S i) (l ++ k)) as [r s]. cbn [snd] in *. simplify_eq.
  assert (Hxk : Sorted name_le (x :: k)).
  { constructor; [done|]. destruct k as [|b k]; constructor. apply Hlk; [|by left].
    apply (Permutation_in x (Permutation_sym Hp)), in_or_app. right. by left. }
  destruct s.
  - assert (Hlen : length l' = S i).
    { apply Permutation_length in Hp. rewrite length_app in Hp. simpl in Hp. lia. }
    assert (Hok' : Forall ascii_name (l' ++ x :: k)).
    { change (x :: k) with ([x] ++ k). rewrite app_assoc. apply Forall_app. split; [|done].
      apply List.Forall_forall. intros y Hy. rewrite List.Forall_forall in Hl. apply Hl.
      by apply (Permutation_in y (Permutation_sym Hp)). }
    destruct (IH l' (x :: k) Hok' Hlen Hxk) as [H1 H2].
    + intros a b Ha [<-|Hb].
      * rewrite List.Forall_forall in Hmax. by apply Hmax.
      * apply Hlk; [|done]. apply (Permutation_in a (Permutation_sym Hp)), in_or_app. by left.
    + split; [|done]. rewrite Hp, <- app_assoc. apply H1.
  - destruct (Hsort eq_refl) as [-> Hso]. split; [by rewrite <- app_assoc|].
    change ([x] ++ k) with (x :: k). apply sorted_snoc; [|done|done].
    clear - Hso. induction l' as [|a l' IH]; [constructor|].
    apply Sorted_inv in Hso as [Hso Ha]. constructor; [by apply IH|].
    destruct l'; constructor. by inversion Ha.
Qed.

(** the help command lists every entry of the table once, in the order of
    [strcmp] on the names. *)
Theorem sort_cmds_spec table :
  Forall ascii_name table ->
  Permutation table (sort_cmds table) /\ Sorted name_le (sort_cmds table).
Proof.
  intros Hok. unfold sort_cmds. destruct table as [|a table]; [by split; [|constructor]|].
  pose proof (bubble_spec (length (a :: table) - 1) (a :: table) []) as H.
  rewrite app_nil_r in H. apply H; [done|simpl; lia|constructor|done].
Qed.

(** ** Completion *)

Lemma collect_spec p maxv table n :
  collect p maxv table n = map name (List.filter p table) \/ In dots (collect p maxv table n).
Proof.
  revert n. induction table as [|c table IH]; intros n; [by left|]. cbn [collect List.filter].
  destruct (p c); [|apply IH]. destruct (maxv - 2 <=? n); [right; by left|].
  destruct (IH (n + 1)) as [-> |Hin]; [by left|right; by right].
Qed.

Lemma agree_spec len s t :
  (agree len s t <= len)%nat /\ firstn (agree len s t) s = firstn (agree len s t) t /\
  (agree len s t <= length s)%nat.
Proof.
  revert s t. induction len as [|len IH]; intros [|c s] [|d t]; cbn [agree]; try (simpl; split_and!; (done || lia)).
  destruct (Z.eqb_spec c d) as [->|]; [|simpl; split_and!; (done || lia)].
  destruct (IH s t) as (H1 & H2 & H3). cbn [firstn length]. split_and!; [lia|by rewrite H2|lia].
Qed.

Lemma firstn_le {A} (m n : nat) (s t : list A) :
  (m <= n)%nat -> firstn n s = firstn n t -> firstn m s = firstn m t.
Proof.
  intros Hle H. rewrite <- (Nat.min_l m n) by done. by rewrite <- !firstn_firstn, H.
Qed.

Lemma common_prefix_fold anchor argv len :
  let j := fold_left (fun len t => agree len anchor t) argv len in
  (j <= len)%nat /\ forall t, In t argv -> firstn j t = firstn j anchor.
Proof.
  revert len. induction argv as [|t argv IH]; intros len; cbn [fold_left]; [split; [lia|done]|].
  destruct (IH (agree len anchor t)) as [Hle Hall].
  destruct (agree_spec len anchor t) as (H1 & H2 & _). split; [lia|].
  intros u [<-|Hu]; [|by apply Hall]. symmetry. by eapply firstn_le.
Qed.

(** The common prefix is one: of every entry. *)
Lemma find_common_prefix_spec argv s :
  In s argv -> firstn (find_common_prefix argv) s = firstn (find_common_prefix argv) (hd [] argv) /\
  (find_common_prefix argv <= length (hd [] argv))%nat.
Proof.
  destruct argv as [|anchor argv]; [done|]. unfold find_common_prefix. cbn [hd].
  destruct (common_prefix_fold anchor argv (length anchor)) as [Hle Hall].
  intros [<-|Hs]; split; auto.
Qed.

(** Nothing is collected when nothing matches; a single entry is the single match. *)
Lemma collect_nil p maxv table n :
  collect p maxv table n = [] -> List.filter p table = [].
Proof.
  revert n. induction table as [|c table IH]; intros n; [done|]. cbn [collect List.filter].
  destruct (p c); [by destruct (maxv - 2 <=? n)|apply IH].
Qed.

Lemma collect_one p maxv table n one :
  n < maxv - 2 -> collect p maxv table n = [one] ->
  exists c, List.filter p table = [c] /\ one = name c.
Proof.
  intros Hn. induction table as [|c table IH]; [done|]. cbn [collect List.filter].
  destruct (p c); [|apply IH]. rewrite (proj2 (Z.leb_gt _ _)) by done.
  intros [= <- Hc]. exists c. by rewrite (collect_nil _ _ _ _ Hc).
Qed.

(** The first of several is the name of a match. *)
Lemma collect_hd p maxv table n one l :
  n < maxv - 2 -> collect p maxv table n = one :: l ->
  exists c, In c table /\ p c = true /\ one = name c.
Proof.
  intros Hn. induction table as [|c table IH]; [done|]. cbn [collect].
  destruct (p c) eqn:Ep.
  - rewrite (proj2 (Z.leb_gt _ _)) by done. intros [= <- _]. exists c. split; [by left|done].
  - intros H. destruct (IH H) as (d & Hd & Hp). exists d. split; [by right|done].
Qed.

(** The first dot ends the name that is looked up. *)
Lemma starts_abbreviates cmd c :
  before_dot cmd = cmd ->
  negb (Z.of_nat (length (name c)) <? Z.of_nat (length cmd)) && starts (length cmd) cmd (name c) =
  abbreviates cmd c.
Proof.
  intros Hdot. pose proof (starts_spec cmd c) as Hst. rewrite Hdot in Hst. rewrite Hst.
  destruct (abbreviates cmd c) eqn:E; [|by rewrite andb_false_r].
  unfold abbreviates in E. apply bool_decide_eq_true in E. apply (f_equal length) in E.
  rewrite length_firstn in E. by rewrite (proj2 (Z.ltb_ge _ _)) by lia.
Qed.

Lemma before_dot_no_dot cmd : before_dot cmd = cmd -> ~ In 46 cmd.
Proof.
  induction cmd as [|c cmd IH]; [by intros _ []|]. cbn [before_dot].
  destruct (Z.eqb_spec c 46); [done|]. intros [= H] [Hc|Hc]; [done|by apply IH].
Qed.

(** [complete_cmdv] for the only word of the line. *)
Lemma complete_cmdv_word table cmd last_char :
  is_space last_char = false -> before_dot cmd = cmd ->
  complete_cmdv table [cmd] last_char 20 = Some (collect (abbreviates cmd) 20 table 0).
Proof.
  intros Hsp Hdot. unfold complete_cmdv. rewrite Hsp. change (20 <? 2) with false.
  change (1 <? Z.of_nat (length [cmd])) with false. cbn [orb]. rewrite Hdot. f_equal.
  generalize 0. induction table as [|c table IH]; intros k; [done|]. cbn [collect].
  rewrite (starts_abbreviates cmd c Hdot). destruct (abbreviates cmd c); [|apply IH].
  by rewrite IH.
Qed.

(** A word that a common prefix longer than the word extends. *)
Lemma extend_common cmd one j c :
  firstn (length cmd) one = cmd -> (length cmd < j)%nat -> (j <= length one)%nat ->
  firstn j (name c) = firstn j one ->
  firstn (j - length cmd) (skipn (length cmd) one) <> [] /\
  abbreviates (cmd ++ firstn (j - length cmd) (skipn (length cmd) one)) c = true.
Proof.
  intros Hone Hj Hlen Hc.
  assert (He : cmd ++ firstn (j - length cmd) (skipn (length cmd) one) = firstn j one).
  { rewrite <- Hone at 1. rewrite <- (firstn_skipn (length cmd) one) at 3.
    rewrite firstn_app, firstn_firstn, length_firstn, Nat.min_r by lia.
    rewrite Nat.min_l by lia. done. }
  split.
  - intros E. apply (f_equal length) in E. rewrite length_firstn, length_skipn in E. simpl in E. lia.
  - rewrite He. apply bool_decide_eq_true. by rewrite length_firstn, Nat.min_l by done.
Qed.

(** completing the only word of a line, a command name without a dot, stays
    within the buffer, and what it adds is right: with one candidate the rest of
    its name and a blank; otherwise something that every command the word
    abbreviates goes on with. *)
Theorem auto_complete_sound cbsize argvsz table buf n cmd added bell :
  make_argv buf argvsz = [cmd] -> is_space (List.last buf 0) = false -> cmd <> [] ->
  before_dot cmd = cmd ->
  cmd_auto_complete cbsize argvsz table buf n = Extend added bell ->
  n + Z.of_nat (length added) < cbsize - 2 /\
  (bell = false ->
    exists c, List.filter (abbreviates cmd) table = [c] /\ cmd ++ added = name c ++ [32]) /\
  (bell = true -> added <> [] /\
    forall c, In c table -> abbreviates cmd c = true -> abbreviates (cmd ++ added) c = true).
Proof.
  intros Hargv Hsp Hne Hdot. unfold cmd_auto_complete.
  rewrite Hargv, (complete_cmdv_word table cmd _ Hsp Hdot). cbn [List.last].
  change (Nat.eqb (length [cmd]) 0) with false. cbn [orb].
  pose proof (collect_spec (abbreviates cmd) 20 table 0) as Hcol.
  destruct (collect (abbreviates cmd) 20 table 0) as [|one [|two cmdv]] eqn:Ec; [done| |].
  - destruct (collect_one _ 20 _ 0 _ eq_refl Ec) as (c & Hf & ->).
    destruct (Nat.ltb_spec (length (name c)) (length cmd)) as [Hlt|Hlt]; [done|].
    destruct (Z.leb_spec (cbsize - 2) (n + Z.of_nat (length (skipn (length cmd) (name c) ++ [32]))));
      [done|].
    intros [= <- <-]. split; [done|]. split; [intros _|done]. exists c. split; [done|].
    assert (Hc : In c (List.filter (abbreviates cmd) table)) by (rewrite Hf; by left).
    apply filter_In in Hc as [_ Hc%bool_decide_eq_true].
    rewrite app_assoc. f_equal. rewrite <- Hc at 1. apply firstn_skipn.
  - destruct (collect_hd _ 20 _ 0 _ _ eq_refl Ec) as (c & _ & Hc%bool_decide_eq_true & ->).
    set (l := name c :: two :: cmdv) in *. destruct (Nat.eqb_spec (find_common_prefix l) 0); [done|].
    destruct (Nat.ltb_spec (length cmd) (find_common_prefix l)) as [Hj|]; [|done].
    destruct (Z.leb_spec (cbsize - 2) (n + Z.of_nat (length
      (firstn (find_common_prefix l - length cmd) (skipn (length cmd) (name c)))))); [done|].
    intros [= <- <-]. split; [done|]. split; [done|]. intros _.
    destruct Hcol as [Hcol|Hcol].
    + destruct (find_common_prefix_spec l (name c)) as [_ Hle]; [by left|]. cbn [l hd] in Hle.
      split; [by apply (extend_common cmd (name c) _ c)|].
      intros d Hd Had. apply extend_common; try done.
      destruct (find_common_prefix_spec l (name d)) as [Heq _]; [|done].
      rewrite Hcol. apply in_map, filter_In. done.
    + (* the table was cut with "...", which shares no prefix with a name *)
      exfalso. destruct (find_common_prefix_spec l dots Hcol) as [Heq Hle]. cbn [l hd] in Heq, Hle.
      assert (Hd : In 46 cmd); [|by apply (before_dot_no_dot cmd Hdot)].
      apply (firstn_le (length cmd)) in Heq; [|lia]. rewrite Hc in Heq.
      rewrite <- Heq. destruct cmd as [|x cmd]; [done|]. by left.
Qed.

(** "md", "mm", "mw", "cp", "cmp" *)
Definition some_cmds : list cmd_tbl_t :=
  map (fun s => Cmd s 4 1 None None None)
    [[109; 100]; [109; 109]; [109; 119]; [99; 112]; [99; 109; 112]].

Lemma sort_cmds_spec_witness :
  Permutation some_cmds (sort_cmds some_cmds) /\ Sorted name_le (sort_cmds some_cmds) /\
  map name (sort_cmds some_cmds) =
    [[99; 109; 112]; [99; 112]; [109; 100]; [109; 109]; [109; 119]].
Proof.
  assert (Hok : Forall ascii_name some_cmds).
  { apply List.Forall_forall. intros c Hc. unfold ascii_name. apply List.Forall_forall.
    simpl in Hc. repeat (destruct Hc as [<-|Hc]; [simpl; lia|]). done. }
  destruct (sort_cmds_spec some_cmds Hok) as [H1 H2]. split_and!; [done|done|by vm_compute].
Defined.

Lemma auto_complete_sound_witness :
  exists c, List.filter (abbreviates [99; 109]) some_cmds = [c] /\
    [99; 109] ++ [112; 32] = name c ++ [32].
Proof.
  apply (auto_complete_sound 256 17 some_cmds [99; 109] 2 [99; 109] [112; 32] false);
    [by vm_compute..|done].
Defined.

(** the length of the word that was typed is used for the name that completes
    it, also when they have nothing in common: after "cp.b" the name "cp" is read
    behind its NUL, and "setenv ", with the only variable "bootdelay", becomes
    "setenv lay ". *)
Theorem auto_complete_wrong_length :
  cmd_auto_complete 256 17 some_cmds [99; 112; 46; 98] 4 = Overrun /\
  let setenv := Cmd [115; 101; 116; 101; 110; 118] 4 0 None None
    (Some (fun _ _ _ => [[98; 111; 111; 116; 100; 101; 108; 97; 121]])) in
  cmd_auto_complete 256 17 [setenv] [115; 101; 116; 101; 110; 118; 32] 7 =
    Extend [108; 97; 121; 32] false.
Proof. split; by vm_compute. Qed.

(** the size of a data access is read off a suffix of the command: ".b", ".w",
    ".l" and ".s" after at least one character, anything else after the dot is an
    error, and a command without a suffix has the default size. *)
Theorem cmd_get_data_size_spec base c default_size :
  base <> [] ->
  cmd_get_data_size (base ++ [46; c]) default_size =
    (if c =? 98 then 1 else if c =? 119 then 2 else if c =? 108 then 4
     else if c =? 115 then -2 else -1) /\
  (~ In 46 base -> cmd_get_data_size base default_size = default_size).
Proof.
  intros Hne. assert (0 < length base)%nat by (by destruct base; [|simpl; lia]). split.
  - unfold cmd_get_data_size, rd. rewrite length_app. cbn [length].
    replace (Z.to_nat _) with (length base) by lia.
    replace (Z.to_nat (Z.of_nat (length base + 2) - 1)) with (S (length base)) by lia.
    rewrite !app_nth2 by lia. rewrite Nat.sub_diag.
    replace (S (length base) - length base)%nat with 1%nat by lia. cbn [nth].
    by rewrite (proj2 (Z.ltb_lt _ _)) by lia.
  - intros Hno. unfold cmd_get_data_size.
    destruct (Z.ltb_spec 2 (Z.of_nat (length base))); [|done].
    destruct (Z.eqb_spec (rd base (Z.of_nat (length base) - 2)) 46) as [E|]; [|done].
    destruct Hno. rewrite <- E. unfold rd. apply nth_In. lia.
Qed.

Lemma cmd_get_data_size_spec_witness :
  cmd_get_data_size ([109; 100] ++ [46; 98]) 4 = 1 /\ cmd_get_data_size [109; 100] 4 = 4.
Proof.
  destruct (cmd_get_data_size_spec [109; 100] 98 4) as [H _]; [done|].
  destruct (cmd_get_data_size_spec [109; 100] 98 4) as [_ H2]; [done|].
  split; [exact H|apply H2]. simpl. lia.
Defined.
