(* ===== verification/Date.v ===== *)
(** Dates and times of the real time clock: [drivers/rtc/date.c].

    Years, months and the like are integers; [int] and [long] have 32 bits and
    wrap where the code's do.  The reference is a calendar that goes on day by day
    from the first of January 1970, with the Gregorian leap years. *)

From S2P Require Import Prelude.

Record rtc_time : Type := Tm {
  tm_sec : Z;
  tm_min : Z;
  tm_hour : Z;
  tm_mday : Z;
  tm_mon : Z;
  tm_year : Z;
  tm_wday : Z }.

Definition SECDAY : Z := 86400.
Definition STARTOFTIME : Z := 1970.
Definition leapyear (year : Z) : bool := Z.rem year 4 =? 0.
Definition days_in_year (a : Z) : Z := if leapyear a then 366 else 365.

(** The table [month_days], with February's entry as it is in a year of that
    length: [to_tm] sets it to 29 for a leap year and back to 28. *)
Definition days_in_month (february a : Z) : Z :=
  nth (Z.to_nat (a - 1)) [31; february; 31; 30; 31; 30; 31; 31; 30; 31; 30; 31] 0.

Definition MonthOffset (mon : Z) : Z :=
  nth (Z.to_nat (mon - 1)) [0; 31; 59; 90; 120; 151; 181; 212; 243; 273; 304; 334] 0.

Definition GregorianDay (tm : rtc_time) : rtc_time :=
  let lastYear := tm_year tm - 1 in
  let leapsToDate := Z.quot lastYear 4 - Z.quot lastYear 100 + Z.quot lastYear 400 in
  let day :=
    if (Z.rem (tm_year tm) 4 =? 0) &&
       (negb (Z.rem (tm_year tm) 100 =? 0) || (Z.rem (tm_year tm) 400 =? 0)) &&
       (2 <? tm_mon tm)
    then 1 else 0 in
  let day := day + (lastYear * 365 + leapsToDate + MonthOffset (tm_mon tm) + tm_mday tm) in
  Tm (tm_sec tm) (tm_min tm) (tm_hour tm) (tm_mday tm) (tm_mon tm) (tm_year tm) (Z.rem day 7).

(** The two loops of [to_tm]: the year, or the month, and the days left. *)
Fixpoint year_loop (fuel : nat) (i day : Z) : Z * Z :=
  match fuel with
  | O => (i, day)
  | S fuel =>
    if days_in_year i <=? day then year_loop fuel (i + 1) (day - days_in_year i) else (i, day)
  end.

Fixpoint month_loop (fuel : nat) (february i day : Z) : Z * Z :=
  match fuel with
  | O => (i, day)
  | S fuel =>
    if days_in_month february i <=? day
    then month_loop fuel february (i + 1) (day - days_in_month february i)
    else (i, day)
  end.

(** A year takes at least 365 days, so the days are fuel enough; twelve months are
    enough for the days of a year. *)
Definition to_tm (tim : Z) : rtc_time :=
  let day := Z.quot tim SECDAY in
  let hms := Z.rem tim SECDAY in
  let '(year, day) := year_loop (S (Z.to_nat day)) STARTOFTIME day in
  let february := if leapyear year then 29 else 28 in
  let '(mon, day) := month_loop 13 february 1 day in
  GregorianDay
    (Tm (Z.rem (Z.rem hms 3600) 60) (Z.quot (Z.rem hms 3600) 60) (Z.quot hms 3600)
       (day + 1) mon year 0).

Definition mktime (year mon day hour min sec : Z) : Z :=
  let mon := u32 (mon - 2) in
  let '(year, mon) := if s32 mon <=? 0 then (u32 (year - 1), u32 (mon + 12)) else (year, mon) in
  let days :=
    u32 (u32 (u32 (u32 (year / 4 - year / 100) + year / 400) + u32 (367 * mon) / 12) + day) in
  let days := u32 (u32 (days + u32 (year * 365)) - 719499) in
  let hours := u32 (u32 (days * 24) + hour) in
  let mins := u32 (u32 (hours * 60) + min) in
  u32 (u32 (mins * 60) + sec).

(** ** The calendar *)

Definition is_leap (y : Z) : bool :=
  (y mod 4 =? 0) && (negb (y mod 100 =? 0) || (y mod 400 =? 0)).

Definition month_len (y m : Z) : Z := days_in_month (if is_leap y then 29 else 28) m.

Definition next_day (ymd : Z * Z * Z) : Z * Z * Z :=
  let '(y, m, d) := ymd in
  if d <? month_len y m then (y, m, d + 1)
  else if m <? 12 then (y, m + 1, 1)
  else (y + 1, 1, 1).

(** The date [n] days after the first of January 1970. *)
Definition date (n : nat) : Z * Z * Z := Nat.iter n next_day (1970, 1, 1).

Definition valid (ymd : Z * Z * Z) : Prop :=
  let '(y, m, d) := ymd in 1970 <= y /\ 1 <= m <= 12 /\ 1 <= d <= month_len y m.

(** The days before a year, and before a month in its year. *)
Definition year_start (y : Z) : Z :=
  365 * (y - 1970) + ((y - 1) / 4 - (y - 1) / 100 + (y - 1) / 400 - 477).

Definition month_start (y m : Z) : Z :=
  MonthOffset m + (if is_leap y && (2 <? m) then 1 else 0).

Definition days (ymd : Z * Z * Z) : Z :=
  let '(y, m, d) := ymd in year_start y + month_start y m + (d - 1).

Lemma div_pred y k : 0 < k -> y / k = (y - 1) / k + (if y mod k =? 0 then 1 else 0).
Proof.
  intros Hk. pose proof (Z.div_mod y k ltac:(lia)) as Hdm.
  pose proof (Z.mod_pos_bound y k Hk) as Hb. destruct (Z.eqb_spec (y mod k) 0) as [E|E].
  - rewrite E in Hdm. rewrite <- (Z.div_unique_pos (y - 1) k (y / k - 1) (k - 1)); nia.
  - rewrite <- (Z.div_unique_pos (y - 1) k (y / k) (y mod k - 1)); nia.
Qed.

Lemma year_start_succ y : year_start (y + 1) = year_start y + (if is_leap y then 366 else 365).
Proof.
  unfold year_start, is_leap. replace (y + 1 - 1) with y by lia.
  rewrite (div_pred y 4), (div_pred y 100), (div_pred y 400) by lia.
  destruct (Z.eqb_spec (y mod 4) 0), (Z.eqb_spec (y mod 100) 0), (Z.eqb_spec (y mod 400) 0);
    simpl; try lia; exfalso; Z.to_euclidean_division_equations; lia.
Qed.

Lemma month_cases m :
  1 <= m <= 12 ->
  m = 1 \/ m = 2 \/ m = 3 \/ m = 4 \/ m = 5 \/ m = 6 \/ m = 7 \/ m = 8 \/ m = 9 \/ m = 10 \/
  m = 11 \/ m = 12 \/ False.
Proof. lia. Qed.

#[local] Ltac by_month H :=
  apply month_cases in H;
  repeat match type of H with _ \/ _ => destruct H as [->|H] end; [..|destruct H].

Lemma month_start_succ y m :
  1 <= m <= 12 ->
  month_start y m + month_len y m =
  if m <? 12 then month_start y (m + 1) else if is_leap y then 366 else 365.
Proof.
  intros H. unfold month_start, month_len. by_month H; by destruct (is_leap y).
Qed.

Lemma month_len_pos y m : 1 <= m <= 12 -> 28 <= month_len y m <= 31.
Proof.
  intros H. unfold month_len. by_month H; destruct (is_leap y); vm_compute; (split; congruence).
Qed.

Lemma next_day_days x : valid x -> valid (next_day x) /\ days (next_day x) = days x + 1.
Proof.
  destruct x as [[y m] d]. intros (Hy & Hm & Hd). unfold next_day.
  pose proof (month_start_succ y m Hm) as Hs. pose proof (year_start_succ y) as Hys.
  destruct (Z.ltb_spec d (month_len y m)); [cbn [valid days]; lia|].
  assert (d = month_len y m) as -> by lia.
  destruct (Z.ltb_spec m 12) as [Hlt|Hge] in Hs |- *.
  - pose proof (month_len_pos y (m + 1) ltac:(lia)). cbn [valid days]. lia.
  - pose proof (month_len_pos (y + 1) 1 ltac:(lia)). cbn [valid days].
    change (month_start (y + 1) 1) with (0 + if is_leap (y + 1) && false then 1 else 0).
    rewrite andb_false_r. lia.
Qed.

Lemma date_days n : valid (date n) /\ days (date n) = Z.of_nat n.
Proof.
  induction n as [|n [Hv Hd]]; [by vm_compute|].
  change (date (S n)) with (next_day (date n)). destruct (next_day_days _ Hv) as [H1 H2].
  split; [done|]. rewrite H2, Hd. lia.
Qed.

(** ** A day count belongs to one date *)

Lemma year_start_le y k : 0 <= k -> year_start y + 365 * k <= year_start (y + k).
Proof.
  intros Hk. revert k Hk. apply natlike_ind; [rewrite (Z.add_0_r y); lia|]. intros k Hk IH.
  replace (y + Z.succ k) with (y + k + 1) by lia. rewrite year_start_succ.
  destruct (is_leap _); lia.
Qed.

Lemma month_start_le y m k :
  1 <= m -> 0 < k -> m + k <= 12 -> month_start y m + month_len y m <= month_start y (m + k).
Proof.
  intros Hm Hk Hmk. assert (H1 : 1 <= m <= 12) by lia. assert (H2 : 1 <= m + k <= 12) by lia.
  remember (m + k) as m' eqn:E. clear Hmk.
  unfold month_start, month_len.
  by_month H1; by_month H2; try lia; destruct (is_leap y); vm_compute; congruence.
Qed.

Lemma day_of_year x : 
  valid x -> let '(y, m, d) := x in
  0 <= month_start y m + (d - 1) < (if is_leap y then 366 else 365).
Proof.
  destruct x as [[y m] d]. intros (Hy & Hm & Hd).
  pose proof (month_start_succ y m Hm) as Hs.
  assert (0 <= month_start y m).
  { unfold month_start. by_month Hm; destruct (is_leap y); vm_compute; congruence. }
  destruct (Z.eqb_spec m 12) as [->|]; [rewrite Z.ltb_irrefl in Hs; lia|].
  rewrite (proj2 (Z.ltb_lt _ _)) in Hs by lia.
  pose proof (month_start_le y m (12 - m) ltac:(lia) ltac:(lia) ltac:(lia)) as Hle.
  replace (m + (12 - m)) with 12 in Hle by lia.
  assert (month_start y 12 < (if is_leap y then 366 else 365)); [|lia].
  unfold month_start. by destruct (is_leap y).
Qed.

Lemma valid_unique x x' : valid x -> valid x' -> days x = days x' -> x = x'.
Proof.
  intros Hv Hv' Heq. pose proof (day_of_year _ Hv) as Hd. pose proof (day_of_year _ Hv') as Hd'.
  destruct x as [[y m] d], x' as [[y' m'] d']. cbn [days] in Heq.
  destruct Hv as (_ & Hm & Hdm), Hv' as (_ & Hm' & Hdm').
  assert (y = y') as <-.
  { pose proof (year_start_succ y). pose proof (year_start_succ y').
    destruct (Z.lt_trichotomy y y') as [Hlt|[?|Hlt]]; [|done|].
    - pose proof (year_start_le (y + 1) (y' - (y + 1)) ltac:(lia)) as Hle.
      replace (y + 1 + (y' - (y + 1))) with y' in Hle by lia. lia.
    - pose proof (year_start_le (y' + 1) (y - (y' + 1)) ltac:(lia)) as Hle.
      replace (y' + 1 + (y - (y' + 1))) with y in Hle by lia. lia. }
  assert (m = m') as <-; [|f_equal; lia].
  destruct (Z.lt_trichotomy m m') as [Hlt|[?|Hlt]]; [|done|].
  - pose proof (month_start_le y m (m' - m) ltac:(lia) ltac:(lia) ltac:(lia)) as Hle.
    replace (m + (m' - m)) with m' in Hle by lia. lia.
  - pose proof (month_start_le y m' (m - m') ltac:(lia) ltac:(lia) ltac:(lia)) as Hle.
    replace (m' + (m - m')) with m in Hle by lia. lia.
Qed.

Lemma date_of_days x n : valid x -> days x = Z.of_nat n -> x = date n.
Proof.
  intros Hv Hd. destruct (date_days n) as [Hv' Hd']. apply valid_unique; [done|done|lia].
Qed.

(** ** [to_tm] *)

(** Until 2099 the Gregorian leap years are those divisible by four. *)
Lemma leapyear_is_leap y : 1970 <= y < 2100 -> leapyear y = is_leap y.
Proof.
  intros Hy. unfold leapyear, is_leap. rewrite Z.rem_mod_nonneg by lia.
  destruct (Z.eqb_spec (y mod 4) 0), (Z.eqb_spec (y mod 100) 0), (Z.eqb_spec (y mod 400) 0);
    try done; exfalso; Z.to_euclidean_division_equations; lia.
Qed.

Lemma year_loop_spec fuel i day n :
  1970 <= i -> 0 <= day -> (Z.to_nat day < fuel)%nat -> year_start i + day = n ->
  n < year_start 2100 ->
  let '(y, day') := year_loop fuel i day in
  1970 <= y < 2100 /\ 0 <= day' < (if is_leap y then 366 else 365) /\ year_start y + day' = n.
Proof.
  revert i day. induction fuel as [|fuel IH]; intros i day Hi Hday Hfuel Hn Hmax; [lia|].
  assert (Hi' : i < 2100).
  { destruct (Z.lt_ge_cases i 2100) as [|Hge]; [done|].
    pose proof (year_start_le 2100 (i - 2100) ltac:(lia)) as Hle.
    replace (2100 + (i - 2100)) with i in Hle by lia. lia. }
  cbn [year_loop]. unfold days_in_year. rewrite leapyear_is_leap by lia.
  pose proof (year_start_succ i) as Hs.
  destruct (is_leap i) eqn:El.
  - destruct (Z.leb_spec 366 day); [apply IH; lia|]. rewrite El. lia.
  - destruct (Z.leb_spec 365 day); [apply IH; lia|]. rewrite El. lia.
Qed.

Lemma month_loop_spec y fuel m day n :
  1 <= m <= 12 -> 0 <= day -> 13 - m <= Z.of_nat fuel -> month_start y m + day = n ->
  n < (if is_leap y then 366 else 365) ->
  let '(m', day') := month_loop fuel (if is_leap y then 29 else 28) m day in
  1 <= m' <= 12 /\ 0 <= day' < month_len y m' /\ month_start y m' + day' = n.
Proof.
  revert m day. induction fuel as [|fuel IH]; intros m day Hm Hday Hfuel Hn Hmax; [lia|].
  cbn [month_loop]. pose proof (month_start_succ y m Hm) as Hs. unfold month_len in Hs |- *.
  destruct (Z.leb_spec (days_in_month (if is_leap y then 29 else 28) m) day) as [Hle|Hlt]; [|lia].
  destruct (Z.ltb_spec m 12) as [Hm'|] in Hs; [apply IH; lia|lia].
Qed.

Lemma GregorianDay_spec tm n :
  valid (tm_year tm, tm_mon tm, tm_mday tm) -> days (tm_year tm, tm_mon tm, tm_mday tm) = n ->
  tm_wday (GregorianDay tm) = (n + 4) mod 7.
Proof.
  intros Hv Hn. pose proof (day_of_year _ Hv) as Hd. destruct Hv as (Hy & Hm & _).
  unfold GregorianDay. cbn [tm_wday days] in *. unfold year_start, month_start, is_leap in *.
  rewrite !(Z.rem_mod_nonneg (tm_year tm)), !Z.quot_div_nonneg by lia.
  set (a := (tm_year tm - 1) / 4) in *. set (b := (tm_year tm - 1) / 100) in *.
  set (c := (tm_year tm - 1) / 400) in *.
  assert (Habc : 0 <= a - b + c) by (unfold a, b, c; Z.to_euclidean_division_equations; lia).
  set (l := if _ && _ && (2 <? tm_mon tm) then 1 else 0) in *. rewrite Z.rem_mod_nonneg by lia.
  replace (l + _) with (n + 4 + 102737 * 7) by lia. apply Z_mod_plus_full.
Qed.

(** The fields [to_tm] computes: a valid date, with the day number of the time. *)
Lemma to_tm_fields tim :
  0 <= tim < 2 ^ 31 ->
  let tm := to_tm tim in
  let ymd := (tm_year tm, tm_mon tm, tm_mday tm) in
  valid ymd /\ days ymd = tim / 86400 /\
  tm_hour tm * 3600 + tm_min tm * 60 + tm_sec tm = tim mod 86400 /\
  0 <= tm_hour tm < 24 /\ 0 <= tm_min tm < 60 /\ 0 <= tm_sec tm < 60 /\
  tm_wday tm = (tim / 86400 + 4) mod 7.
Proof.
  intros Ht. unfold to_tm, SECDAY, STARTOFTIME. rewrite (Z.quot_div_nonneg tim 86400), (Z.rem_mod_nonneg tim 86400) by lia.
  assert (Hq : 0 <= tim / 86400 < 24856) by (Z.to_euclidean_division_equations; lia).
  set (n := tim / 86400) in *. pose proof (Z.mod_pos_bound tim 86400 ltac:(lia)) as Hr.
  set (hms := tim mod 86400) in *. clearbody n hms. clear tim Ht.
  pose proof (year_loop_spec (S (Z.to_nat n)) 1970 n n) as Hy.
  destruct (year_loop _ 1970 n) as [y dy].
  destruct Hy as (Hy & Hdy & Hn); [lia|lia|lia|by change (year_start 1970) with 0|
    change (year_start 2100) with 47482; lia|].
  rewrite leapyear_is_leap by done.
  pose proof (month_loop_spec y 13 1 dy dy) as Hm. destruct (month_loop 13 _ 1 dy) as [m dm].
  assert (Hs1 : month_start y 1 = 0).
  { unfold month_start. change (2 <? 1) with false. by rewrite andb_false_r. }
  destruct Hm as (Hm & Hdm & Hnm); [lia|lia|lia|lia|lia|].
  set (tm := Tm _ _ _ (dm + 1) m y 0).
  assert (Hv : valid (tm_year tm, tm_mon tm, tm_mday tm)) by (unfold tm, valid; cbn [tm_year tm_mon tm_mday]; lia).
  assert (Hd : days (tm_year tm, tm_mon tm, tm_mday tm) = n).
  { unfold tm. cbn [days tm_year tm_mon tm_mday]. lia. }
  rewrite (GregorianDay_spec tm n Hv Hd). split; [exact Hv|]. split; [exact Hd|].
  unfold GregorianDay, tm. cbn [tm_hour tm_min tm_sec]. clear - Hr.
  Z.to_euclidean_division_equations. lia.
Qed.

(** for every time that an [int] holds, [to_tm] gives the date of its day in
    the calendar, the time within that day and the day of the week (the first of
    January 1970 was a Thursday). *)
Theorem to_tm_spec tim :
  0 <= tim < 2 ^ 31 ->
  let tm := to_tm tim in
  (tm_year tm, tm_mon tm, tm_mday tm) = date (Z.to_nat (tim / 86400)) /\
  tm_hour tm * 3600 + tm_min tm * 60 + tm_sec tm = tim mod 86400 /\
  0 <= tm_hour tm < 24 /\ 0 <= tm_min tm < 60 /\ 0 <= tm_sec tm < 60 /\
  tm_wday tm = (tim / 86400 + 4) mod 7.
Proof.
  intros Ht tm. destruct (to_tm_fields tim Ht) as (Hv & Hd & Hrest). fold tm in Hv, Hd, Hrest.
  split; [|exact Hrest].
  apply date_of_days; [done|]. rewrite Hd, Z2Nat.id; [done|].
  Z.to_euclidean_division_equations. lia.
Qed.

Lemma to_tm_spec_witness :
  let tm := to_tm 951782400 in (tm_year tm, tm_mon tm, tm_mday tm) = (2000, 2, 29) /\ tm_wday tm = 2.
Proof.
  destruct (to_tm_spec 951782400) as (H & _ & _ & _ & _ & Hw); [lia|].
  split; [rewrite H; by vm_compute|rewrite Hw; by vm_compute].
Defined.

(** ** [mktime] *)

Lemma mon_shift m :
  1 <= m <= 12 ->
  (s32 (u32 (m - 2)) <=? 0) = (m <=? 2) /\
  u32 (367 * (if m <=? 2 then u32 (u32 (m - 2) + 12) else u32 (m - 2))) / 12 =
    MonthOffset m - 29 + (if m <=? 2 then 365 else 0).
Proof. intros H. by_month H; by vm_compute. Qed.

Lemma valid_year x n : valid x -> days x < n -> let '(y, _, _) := x in 365 * (y - 1970) < n.
Proof.
  intros Hv Hd. pose proof (day_of_year _ Hv) as H. destruct x as [[y m] d]. destruct Hv as [Hy _].
  pose proof (year_start_le 1970 (y - 1970) ltac:(lia)) as Hle.
  replace (1970 + (y - 1970)) with y in Hle by lia. change (year_start 1970) with 0 in Hle.
  cbn [days] in Hd. lia.
Qed.

(** The day number that [mktime] computes in the shifted year. *)
Lemma mktime_days y m d :
  valid (y, m, d) ->
  days (y, m, d) =
    let y' := if m <=? 2 then y - 1 else y in
    y' / 4 - y' / 100 + y' / 400 + (MonthOffset m - 29 + (if m <=? 2 then 365 else 0)) + d +
    y' * 365 - 719499.
Proof.
  intros (Hy & Hm & _). cbn [days]. pose proof (year_start_succ y) as Hs.
  unfold year_start, month_start in *. replace (y + 1 - 1) with y in Hs by lia.
  destruct (Z.leb_spec m 2).
  - rewrite (proj2 (Z.ltb_ge _ _)), andb_false_r by lia. cbv zeta. lia.
  - rewrite (proj2 (Z.ltb_lt _ _)), andb_true_r by lia. cbv zeta. destruct (is_leap y); lia.
Qed.

Lemma mktime_lemma y m d hour min sec :
  valid (y, m, d) -> 0 <= hour < 24 -> 0 <= min < 60 -> 0 <= sec < 60 ->
  days (y, m, d) * 86400 + hour * 3600 + min * 60 + sec < 2 ^ 32 ->
  mktime y m d hour min sec = days (y, m, d) * 86400 + hour * 3600 + min * 60 + sec.
Proof.
  intros Hv Hh Hmi Hs Hmax.
  pose proof (valid_year _ 49711 Hv ltac:(lia)) as Hy. cbv beta iota in Hy.
  pose proof (mktime_days y m d Hv) as Hd. cbv zeta in Hd.
  assert (Hpos : 0 <= days (y, m, d)).
  { pose proof (day_of_year _ Hv) as H. cbv beta iota in H. cbn [days]. destruct Hv as [Hy0 _].
    pose proof (year_start_le 1970 (y - 1970) ltac:(lia)) as Hle.
    replace (1970 + (y - 1970)) with y in Hle by lia. change (year_start 1970) with 0 in Hle. lia. }
  destruct Hv as (Hy0 & Hm & Hdm). pose proof (month_len_pos y m Hm).
  unfold mktime. destruct (mon_shift m Hm) as [-> Hq].
  set (q := MonthOffset m - 29 + _) in *.
  assert (Hqb : 0 <= q < 400).
  { unfold q. clear - Hm. by_month Hm; vm_compute; (split; congruence). }
  clearbody q. set (dn := days (y, m, d)) in *. clearbody dn.
  assert (Hy' : exists y', (if m <=? 2 then (u32 (y - 1), u32 (u32 (m - 2) + 12)) else (y, u32 (m - 2)))
    = (y', if m <=? 2 then u32 (u32 (m - 2) + 12) else u32 (m - 2)) /\
    y' = (if m <=? 2 then y - 1 else y)).
  { destruct (m <=? 2); [|by exists y]. exists (y - 1). split; [|done]. by rewrite (u32_small (y - 1)) by lia. }
  destruct Hy' as (y' & -> & Ey). rewrite <- Ey in Hd. rewrite Hq.
  assert (Hyb : 1969 <= y' < 2107) by (destruct (m <=? 2); lia). clear - Hd Hh Hmi Hs Hmax Hpos Hyb Hqb Hdm H.
  assert (0 <= y' / 4 - y' / 100 < 1000) by (Z.to_euclidean_division_equations; lia).
  assert (0 <= y' / 400 < 10) by (Z.to_euclidean_division_equations; lia).
  repeat match goal with |- context [u32 ?x] =>
    lazymatch x with context [u32 _] => fail | _ => rewrite (u32_small x) by lia end end.
  lia.
Qed.

(** [mktime] gives the seconds of every date and time of the calendar up to
    the end of the 32-bit range (February 2106). *)
Theorem mktime_spec n hour min sec :
  0 <= hour < 24 -> 0 <= min < 60 -> 0 <= sec < 60 ->
  Z.of_nat n * 86400 + hour * 3600 + min * 60 + sec < 2 ^ 32 ->
  let '(y, m, d) := date n in
  mktime y m d hour min sec = Z.of_nat n * 86400 + hour * 3600 + min * 60 + sec.
Proof.
  intros Hh Hm Hs Hmax. destruct (date_days n) as [Hv Hd]. destruct (date n) as [[y m] d].
  rewrite <- Hd in Hmax |- *. by apply mktime_lemma.
Qed.

Lemma mktime_spec_witness : mktime 1972 12 31 23 59 59 = 1095 * 86400 + 23 * 3600 + 59 * 60 + 59.
Proof. apply (mktime_spec 1095 23 59 59); by vm_compute. Defined.

(** the seconds of the date and time that [to_tm] gives are the ones it was
    given. *)
Theorem mktime_to_tm tim :
  0 <= tim < 2 ^ 31 ->
  let tm := to_tm tim in
  mktime (tm_year tm) (tm_mon tm) (tm_mday tm) (tm_hour tm) (tm_min tm) (tm_sec tm) = tim.
Proof.
  intros Ht tm. destruct (to_tm_fields tim Ht) as (Hv & Hd & Hsec & Hh & Hm & Hs & _).
  fold tm in Hv, Hd, Hsec, Hh, Hm, Hs. pose proof (Z.div_mod tim 86400 ltac:(lia)).
  rewrite mktime_lemma; try done; rewrite Hd; lia.
Qed.

Lemma mktime_to_tm_witness :
  let tm := to_tm 2147483647 in
  mktime (tm_year tm) (tm_mon tm) (tm_mday tm) (tm_hour tm) (tm_min tm) (tm_sec tm) = 2147483647.
Proof. apply (mktime_to_tm 2147483647). lia. Defined.
