(* ===== verification/CircBuf.v ===== *)
(** Circular buffers: [lib_generic/circbuf.c].

    The pointers into the buffer are offsets from [data]; [end] is [totalsize].  The
    abstract buffer is a queue that holds the last [totalsize] characters pushed. *)

From S2P Require Import Prelude.

Record circbuf_t : Type := Buf {
  size : nat;
  totalsize : nat;
  top : nat;
  tail : nat;
  data : list Z }.

(** [data] is what [malloc] returned, with whatever it holds. *)
Definition buf_init (data : list Z) : circbuf_t := Buf 0 (length data) 0 0 data.

(** [p++], and back to [data] at the end. *)
Definition next (n p : nat) : nat := if Nat.eqb (p + 1) n then O else (p + 1)%nat.

Fixpoint pop_loop (n : nat) (data : list Z) (len p : nat) : list Z * nat :=
  match len with
  | O => ([], p)
  | S len => let '(dest, p') := pop_loop n data len (next n p) in (nth p data 0 :: dest, p')
  end.

(** The characters that are copied to [dest] (their number is the result) and the
    buffer left. *)
Definition buf_pop (buf : circbuf_t) (len : nat) : list Z * circbuf_t :=
  let len := if Nat.ltb (size buf) len then size buf else len in
  let '(dest, p) := pop_loop (totalsize buf) (data buf) len (top buf) in
  (dest, Buf (size buf - len) (totalsize buf) p (tail buf) (data buf)).

(** One character; the local variable [p] is kept in [tail]. *)
Definition push_char (buf : circbuf_t) (c : Z) : circbuf_t :=
  let n := totalsize buf in
  let data := <[tail buf := c]> (data buf) in
  let p := next n (tail buf) in
  if Nat.ltb (size buf) n then Buf (size buf + 1) n (top buf) p data
  else Buf (size buf) n (next n (top buf)) p data.

Definition buf_push (buf : circbuf_t) (src : list Z) : circbuf_t := fold_left push_char src buf.

(** ** The queue *)

(** The last [n] of [q]. *)
Definition keep (n : nat) (q : list Z) : list Z := skipn (length q - n) q.

(** [buf] holds the queue [q]. *)
Definition represents (buf : circbuf_t) (q : list Z) : Prop :=
  let n := totalsize buf in
  (0 < n)%nat /\ length (data buf) = n /\ size buf = length q /\ (length q <= n)%nat /\
  (top buf < n)%nat /\ tail buf = ((top buf + length q) mod n)%nat /\
  forall i, (i < length q)%nat -> nth ((top buf + i) mod n) (data buf) 0 = nth i q 0.

Lemma next_mod n p : (0 < n)%nat -> next n (p mod n) = ((p + 1) mod n)%nat.
Proof.
  intros Hn. unfold next. pose proof (Nat.mod_upper_bound p n ltac:(lia)).
  rewrite <- Nat.Div0.add_mod_idemp_l. destruct (Nat.eqb_spec (p mod n + 1) n) as [E|E].
  - rewrite E. symmetry. apply Nat.Div0.mod_same.
  - symmetry. apply Nat.mod_small. lia.
Qed.

Lemma mod_ne n t i j :
  (i < j)%nat -> (j < i + n)%nat -> ((t + i) mod n <> (t + j) mod n)%nat.
Proof.
  intros Hij Hj E. pose proof (Nat.div_mod_eq (t + i) n). pose proof (Nat.div_mod_eq (t + j) n).
  assert ((t + j) / n = (t + i) / n \/ (t + j) / n >= (t + i) / n + 1 \/ (t + j) / n + 1 <= (t + i) / n)%nat
    as [?|[?|?]] by lia; nia.
Qed.

Lemma represents_init data : data <> [] -> represents (buf_init data) [].
Proof.
  intros H. assert (0 < length data)%nat by (destruct data; [done|simpl; lia]).
  unfold represents. cbn. split_and!; try done; try lia.
  symmetry. apply Nat.mod_small. lia.
Qed.

Lemma pop_loop_spec n data q k t :
  (0 < n)%nat -> (t < n)%nat -> (k <= length q)%nat ->
  (forall i, (i < length q)%nat -> nth ((t + i) mod n) data 0 = nth i q 0) ->
  pop_loop n data k t = (firstn k q, ((t + k) mod n)%nat).
Proof.
  intros Hn. revert t q. induction k as [|k IH]; intros t q Ht Hk Hq.
  { cbn. by rewrite Nat.add_0_r, Nat.mod_small. }
  destruct q as [|c q]; [simpl in Hk; lia|]. cbn [pop_loop].
  pose proof (Hq O ltac:(simpl; lia)) as H0. rewrite Nat.add_0_r, (Nat.mod_small t n Ht) in H0.
  assert (Hnext : next n t = ((t + 1) mod n)%nat) by (rewrite <- (Nat.mod_small t n Ht) at 1; by apply next_mod).
  rewrite (IH (next n t) q).
  - rewrite Hnext, H0. cbn [firstn nth]. f_equal. rewrite Nat.Div0.add_mod_idemp_l. f_equal. lia.
  - rewrite Hnext. apply Nat.mod_upper_bound. lia.
  - simpl in Hk. lia.
  - intros i Hi. rewrite Hnext, Nat.Div0.add_mod_idemp_l.
    specialize (Hq (S i) ltac:(simpl; lia)). cbn [nth] in Hq. rewrite <- Hq. do 2 f_equal. lia.
Qed.

Lemma push_char_spec buf q c :
  represents buf q -> represents (push_char buf c) (keep (totalsize buf) (q ++ [c])) /\
  totalsize (push_char buf c) = totalsize buf.
Proof.
  intros (Hn & Hd & Hs & Hle & Ht & Htail & Hq). unfold push_char. set (n := totalsize buf) in *.
  assert (Hnext : next n (top buf) = ((top buf + 1) mod n)%nat).
  { rewrite <- (Nat.mod_small (top buf) n Ht) at 1. by apply next_mod. }
  assert (Hset : forall i, (i < length q)%nat -> (length q < i + n)%nat ->
    nth ((top buf + i) mod n) (<[tail buf := c]> (data buf)) 0 = nth i q 0).
  { intros i Hi Hin. rewrite <- Hq by done. rewrite !nth_lookup.
    rewrite list_lookup_insert_ne; [done|]. rewrite Htail. apply not_eq_sym. by apply mod_ne. }
  assert (Hnew : nth ((top buf + length q) mod n) (<[tail buf := c]> (data buf)) 0 = c).
  { rewrite <- Htail, nth_lookup, list_lookup_insert_eq; [done|].
    rewrite Hd, Htail. apply Nat.mod_upper_bound. lia. }
  rewrite Hs. unfold keep. rewrite length_app. cbn [length].
  destruct (Nat.ltb_spec (length q) n) as [Hlt|Hge]; (split; [|done]).
  - replace (length q + 1 - n)%nat with O by lia. rewrite skipn_O.
    unfold represents. cbn [size totalsize top tail data]. rewrite length_app, length_insert. cbn [length].
    split_and!; try done; try lia.
    + rewrite Htail, next_mod by lia. f_equal. lia.
    + intros i Hi. destruct (Nat.eq_dec i (length q)) as [->|Hne].
      * rewrite Hnew, app_nth2 by lia. by rewrite Nat.sub_diag.
      * rewrite Hset, app_nth1 by lia. done.
  - assert (length q = n) as Hqn by lia. replace (length q + 1 - n)%nat with 1%nat by lia.
    destruct q as [|c0 q]; [simpl in *; lia|]. cbn [app]. rewrite skipn_cons, skipn_O.
    cbn [length] in *. unfold represents. cbn [size totalsize top tail data].
    rewrite length_app, length_insert. cbn [length]. split_and!; try done; try lia.
    + rewrite Hnext. apply Nat.mod_upper_bound. lia.
    + rewrite Htail, Hnext, next_mod, Nat.Div0.add_mod_idemp_l by lia. f_equal. lia.
    + intros i Hi. rewrite Hnext, Nat.Div0.add_mod_idemp_l.
      replace (top buf + 1 + i)%nat with (top buf + S i)%nat by lia.
      destruct (Nat.eq_dec i (length q)) as [->|Hne].
      * rewrite Hnew, app_nth2 by lia. by rewrite Nat.sub_diag.
      * rewrite (Hset (S i)), app_nth1 by lia. done.
Qed.

Lemma keep_keep n q r : keep n (keep n q ++ r) = keep n (q ++ r).
Proof.
  unfold keep. rewrite !length_app, length_skipn.
  destruct (Nat.le_gt_cases (length q) n) as [H|H].
  - by replace (length q - n)%nat with O by lia; rewrite skipn_O, Nat.sub_0_r.
  - replace (length q - (length q - n))%nat with n by lia.
    rewrite !skipn_app, length_skipn, skipn_skipn.
    replace (length q - (length q - n))%nat with n by lia.
    destruct (Nat.le_gt_cases (length r) n) as [Hr|Hr].
    + f_equal; [f_equal; lia|f_equal; lia].
    + f_equal; [|f_equal; lia]. rewrite !skipn_all2; [done|lia|lia].
Qed.

Lemma keep_short n q : (length q <= n)%nat -> keep n q = q.
Proof. intros H. unfold keep. by replace (length q - n)%nat with O by lia. Qed.

Lemma push_spec buf q src :
  represents buf q ->
  represents (buf_push buf src) (keep (totalsize buf) (q ++ src)) /\
  totalsize (buf_push buf src) = totalsize buf.
Proof.
  unfold buf_push. revert buf q. induction src as [|c src IH]; intros buf q H.
  - rewrite app_nil_r. pose proof H as (_ & _ & _ & Hle & _). by rewrite keep_short.
  - cbn [fold_left]. destruct (push_char_spec buf q c H) as [H1 Ht]. specialize (IH _ _ H1).
    rewrite Ht, keep_keep, <- app_assoc in IH. exact IH.
Qed.

Lemma pop_spec buf q len :
  represents buf q ->
  let '(dest, buf') := buf_pop buf len in
  dest = firstn len q /\ represents buf' (skipn len q) /\ totalsize buf' = totalsize buf.
Proof.
  intros (Hn & Hd & Hs & Hle & Ht & Htail & Hq). unfold buf_pop. rewrite Hs.
  set (k := if Nat.ltb (length q) len then length q else len).
  assert (Hk : (k <= length q)%nat /\ firstn k q = firstn len q /\ skipn k q = skipn len q /\
    (length q - k = length (skipn len q))%nat).
  { unfold k. rewrite length_skipn. destruct (Nat.ltb_spec (length q) len).
    - rewrite !firstn_all2, !skipn_all2 by lia. split_and!; (done || lia).
    - split_and!; (done || lia). }
  clearbody k. destruct Hk as (Hk & Hf & Hsk & Hlen).
  rewrite (pop_loop_spec _ _ q) by done. rewrite Hf. split; [done|]. split; [|done].
  rewrite <- Hsk in Hlen |- *. unfold represents. cbn [size totalsize top tail data].
  split_and!; try done; try lia.
  - apply Nat.mod_upper_bound. lia.
  - rewrite Htail, Nat.Div0.add_mod_idemp_l, <- Hlen. f_equal. lia.
  - intros i Hi. rewrite Nat.Div0.add_mod_idemp_l, nth_skipn, <- Hq by lia. do 2 f_equal. lia.
Qed.

(** Sequences of operations, and what they return. *)
Inductive op : Type :=
  | Push (src : list Z)
  | Pop (len : nat).

Fixpoint run (buf : circbuf_t) (ops : list op) : list (list Z) :=
  match ops with
  | [] => []
  | Push src :: ops => run (buf_push buf src) ops
  | Pop len :: ops => let '(dest, buf) := buf_pop buf len in dest :: run buf ops
  end.

(** The queue of the last [n] characters. *)
Fixpoint run_queue (n : nat) (q : list Z) (ops : list op) : list (list Z) :=
  match ops with
  | [] => []
  | Push src :: ops => run_queue n (keep n (q ++ src)) ops
  | Pop len :: ops => firstn len q :: run_queue n (skipn len q) ops
  end.

(** C31: whatever is pushed and popped, in any order, a circular buffer returns what a
    queue does that forgets all but the last [totalsize] characters. *)
Theorem circbuf_refines_queue data ops :
  data <> [] -> run (buf_init data) ops = run_queue (length data) [] ops.
Proof.
  intros Hd. pose proof (represents_init data Hd) as H.
  assert (Hn : totalsize (buf_init data) = length data) by done. revert H Hn.
  generalize (buf_init data) ([] : list Z). induction ops as [|[src|len] ops IH]; intros buf q H Hn; [done|..].
  - cbn [run run_queue]. destruct (push_spec buf q src H) as [H1 Ht]. rewrite Hn in H1, Ht. by apply IH.
  - cbn [run run_queue]. pose proof (pop_spec buf q len H) as Hp. destruct (buf_pop buf len) as [dest buf'].
    destruct Hp as (-> & H1 & Ht). f_equal. apply IH; [done|]. by rewrite Ht.
Qed.

Lemma circbuf_refines_queue_witness :
  run (buf_init [0; 0; 0]) [Push [1; 2]; Pop 1; Push [3; 4; 5]; Pop 2; Pop 9] =
    run_queue 3 [] [Push [1; 2]; Pop 1; Push [3; 4; 5]; Pop 2; Pop 9] /\
  run (buf_init [0; 0; 0]) [Push [1; 2]; Pop 1; Push [3; 4; 5]; Pop 2; Pop 9] = [[1]; [3; 4]; [5]].
Proof.
  split; [|by vm_compute].
  apply (circbuf_refines_queue [0; 0; 0] [Push [1; 2]; Pop 1; Push [3; 4; 5]; Pop 2; Pop 9]). done.
Defined.
