(* ===== verification/SRec.v ===== *)
(** Motorola S-Records: [common/s_record.c], and the commands [loads] and [saves] of
    [common/cmd_load.c] (their record readers and writers, without baud rate changes,
    echo and flash memory: [CONFIG_SYS_NO_FLASH]).

    A string is the list of its characters, without the NUL: reading at the end of
    the list gives the NUL.  Characters received on the console are a list; it ends
    when nobody types any more, and then [getc] waits for ever.  [unsigned long] has
    32 bits. *)

From S2P Require Import Prelude CString Vsprintf.

(** ** Decoding a record *)

Definition hex1_bin (c : Z) : Z :=
  if (48 <=? c) && (c <=? 57) then c - 48
  else if (97 <=? c) && (c <=? 102) then c + 10 - 97
  else if (65 <=? c) && (c <=? 70) then c + 10 - 65
  else -1.

(** At the end of the string the first or the second read is of the NUL. *)
Definition hex2_bin (s : list Z) : Z :=
  let i := hex1_bin (rd s 0) in
  if i <? 0 then -1
  else
    let j := hex1_bin (rd s 1) in
    if j <? 0 then -1 else Z.shiftl i 4 + j.

Definition SREC_START : Z := 0.
Definition SREC_DATA2 : Z := 1.
Definition SREC_DATA3 : Z := 2.
Definition SREC_DATA4 : Z := 3.
Definition SREC_COUNT : Z := 5.
Definition SREC_END4 : Z := 7.
Definition SREC_END3 : Z := 8.
Definition SREC_END2 : Z := 9.
Definition SREC_EMPTY : Z := 10.
Definition SREC_E_BADTYPE : Z := -1.
Definition SREC_E_NOSREC : Z := -2.
Definition SREC_E_BADCHKS : Z := -3.

(** What is after the first 'S'. *)
Fixpoint skip_to_S (input : list Z) : list Z :=
  match input with
  | [] => []
  | c :: input => if c =? 83 then input else skip_to_S input
  end.

(** The result for a type character, what its record's address field and checksum
    take of the count ([None]: all of it), and the bytes of the address field. *)
Definition record_type (v : Z) : option (Z * option Z * nat) :=
  if v =? 48 then Some (SREC_START, Some 3, 2%nat)
  else if v =? 49 then Some (SREC_DATA2, Some 3, 2%nat)
  else if v =? 50 then Some (SREC_DATA3, Some 4, 3%nat)
  else if v =? 51 then Some (SREC_DATA4, Some 5, 4%nat)
  else if v =? 53 then Some (SREC_COUNT, None, 2%nat)
  else if v =? 55 then Some (SREC_END4, Some 5, 4%nat)
  else if v =? 56 then Some (SREC_END3, Some 4, 3%nat)
  else if v =? 57 then Some (SREC_END2, Some 3, 2%nat)
  else None.

(** [n] bytes of the address field: the rest of the input, the address, the sum. *)
Fixpoint read_addr (n : nat) (input : list Z) (addr chksum : Z) : option (list Z * Z * Z) :=
  match n with
  | O => Some (input, addr, chksum)
  | S n =>
    let v := hex2_bin input in
    if v <? 0 then None
    else read_addr n (skipn 2 input) (u32 (u32 (Z.shiftl addr 8) + v)) (u8 (chksum + v))
  end.

(** [n] data bytes: the rest of the input, the data, the sum. *)
Fixpoint read_data (n : nat) (input : list Z) (chksum : Z) : option (list Z * list Z * Z) :=
  match n with
  | O => Some (input, [], chksum)
  | S n =>
    let v := hex2_bin input in
    if v <? 0 then None
    else
      '(input, data, chksum) ← read_data n (skipn 2 input) (u8 (chksum + v));
      Some (input, v :: data, chksum)
  end.

(** The result, [*count], [*addr] and the data stored when the result is not an
    error. *)
Definition srec_decode (input : list Z) : Z * Z * Z * list Z :=
  match skip_to_S input with
  | [] => (SREC_EMPTY, 0, 0, [])
  | v :: input =>
    let count := hex2_bin input in
    if count <? 0 then (SREC_E_NOSREC, count, 0, [])
    else
      let chksum := u8 count in
      let input := skipn 2 input in
      match record_type v with
      | None => (SREC_E_BADTYPE, count, 0, [])
      | Some (srec_type, less, n) =>
        let count := match less with Some less => count - less | None => 0 end in
        match read_addr n input 0 chksum with
        | None => (SREC_E_NOSREC, count, 0, [])
        | Some (input, addr, chksum) =>
          match read_data (Z.to_nat count) input chksum with
          | None => (SREC_E_NOSREC, count, addr, [])
          | Some (input, data, chksum) =>
            let v := hex2_bin input in
            if v <? 0 then (SREC_E_NOSREC, count, addr, data)
            else if negb (u8 v =? u8 (Z.lnot chksum)) then (SREC_E_BADCHKS, count, addr, data)
            else (srec_type, count, addr, data)
          end
        end
      end
    end.

(** ** Loading *)

(** What [getc] and [ctrlc] make of a line: its text and the characters after it,
    an abort, or waiting for more. *)
Inductive line : Type :=
  | Line (text rest : list Z)
  | Break
  | Waiting.

(** [n] is the room, without the NUL. *)
Fixpoint read_record (n : nat) (typed : list Z) : line :=
  match n with
  | O => Line [] typed
  | S n =>
    match typed with
    | [] => Waiting
    | c :: typed =>
      if (c =? 13) || (c =? 10) then Line [] typed
      else if (c =? 0) || (c =? 3) then Break
      else match read_record n typed with
           | Line text rest => Line (c :: text) rest
           | r => r
           end
    end
  end.

(** How loading ends: with the memory, the result and the size, when it was set;
    waiting; or with a [memcpy] of a negative length. *)
Inductive loaded : Type :=
  | Loaded (m : mem) (result : Z) (size : option Z)
  | Waits (m : mem)
  | Overrun (m : mem).

Definition SREC_MAXRECLEN : nat := 516.

(** The fuel is one more than the number of characters typed ([loads_total]). *)
Fixpoint load_serial (fuel : nat) (m : mem) (offset : Z) (typed : list Z) (start_addr end_addr : Z)
    : option loaded :=
  match fuel with
  | O => None
  | S fuel =>
    match read_record SREC_MAXRECLEN typed with
    | Waiting => Some (Waits m)
    | Break => Some (Loaded m (u32 (-1)) None)
    | Line record typed =>
      let '(type, binlen, addr, binbuf) := srec_decode record in
      if type <? 0 then Some (Loaded m (u32 (-1)) None)
      else if (type =? SREC_DATA2) || (type =? SREC_DATA3) || (type =? SREC_DATA4) then
        if binlen <? 0 then Some (Overrun m)
        else
          let store_addr := u32 (addr + offset) in
          let m := store_list m store_addr binbuf in
          let start_addr := if store_addr <? start_addr then store_addr else start_addr in
          let last := u32 (store_addr + binlen - 1) in
          let end_addr := if end_addr <? last then last else end_addr in
          load_serial fuel m offset typed start_addr end_addr
      else if (type =? SREC_END2) || (type =? SREC_END3) || (type =? SREC_END4) then
        Some (Loaded m addr (Some (u32 (end_addr - start_addr + 1))))
      else load_serial fuel m offset typed start_addr end_addr
    end
  end.

Definition loads (m : mem) (offset : Z) (typed : list Z) : option loaded :=
  load_serial (S (length typed)) m offset typed (u32 (-1)) 0.

(** ** Saving *)

(** "S0030000FC\n" and "S70500000000FA\n", and "S3%02X%08lX%s%02X\n" *)
Definition SREC3_START : list Z := [83; 48; 48; 51; 48; 48; 48; 48; 70; 67; 10].
Definition SREC3_END : list Z := [83; 55; 48; 53; 48; 48; 48; 48; 48; 48; 48; 48; 70; 65; 10].
Definition SREC3_FORMAT : list Z :=
  [83; 51; 37; 48; 50; 88; 37; 48; 56; 108; 88; 37; 115; 37; 48; 50; 88; 10].
Definition SREC_BYTES_PER_RECORD : Z := 16.

Definition hex : list Z := [48; 49; 50; 51; 52; 53; 54; 55; 56; 57; 65; 66; 67; 68; 69; 70].

(** [sum] and the bytes [x >> (8 * i)] for [i] below [n]. *)
Fixpoint add_bytes (n : nat) (x checksum : Z) : Z :=
  match n with
  | O => checksum
  | S n => add_bytes n x checksum + Z.land (Z.shiftr x (8 * Z.of_nat n)) 255
  end.

(** The record of the [reclen] bytes whose digits are [data] and whose sum is
    [checksum]; [None] only if [sprintf] runs out of fuel. *)
Definition build_record (address reclen checksum : Z) (data : list Z) : option (list Z) :=
  let length := 4 + reclen + 1 in
  let checksum := add_bytes 2 length checksum in
  let checksum := add_bytes 4 address checksum in
  let checksum := Z.land (Z.lnot checksum) 255 in
  s ← format (S (List.length SREC3_FORMAT)) SREC3_FORMAT
    (VState [] [AInt length; AInt address; AStr (Some data); AInt checksum] []);
  Some (out s).

(** The loop; [ctrlc] answers the polls after each record.  The output and the
    result; the fuel is one more than [count]. *)
Fixpoint save_loop (fuel : nat) (m : mem) (address count reclen checksum : Z) (data : list Z)
    (ctrlc : list bool) : option (list Z * list bool * Z) :=
  match fuel with
  | O => None
  | S fuel =>
    let '(reclen, checksum, data, count) :=
      if negb (count =? 0) then
        let c := m (u32 (address + reclen)) in
        (reclen + 1, checksum + c,
         data ++ [rd hex (Z.land (Z.shiftr c 4) 15); rd hex (Z.land c 15)], count - 1)
      else (reclen, checksum, data, count) in
    if (reclen =? SREC_BYTES_PER_RECORD) || (count =? 0) then
      text ← (if negb (reclen =? 0) then build_record address reclen checksum data else Some []);
      let stop := negb (reclen =? 0) && hd false ctrlc in
      let ctrlc := if negb (reclen =? 0) then tl ctrlc else ctrlc in
      if stop then Some (text, ctrlc, -1)
      else if count =? 0 then Some (text, ctrlc, 0)
      else
        '(rest, ctrlc, r) ← save_loop fuel m (u32 (address + reclen)) count 0 0 [] ctrlc;
        Some (text ++ rest, ctrlc, r)
    else
      if count =? 0 then Some ([], ctrlc, 0)
      else save_loop fuel m address count reclen checksum data ctrlc
  end.

(** What goes to the console, and the result. *)
Definition save_serial (m : mem) (address count : Z) (ctrlc : list bool) : option (list Z * Z) :=
  if hd false ctrlc then Some (SREC3_START, -1)
  else
    '(text, ctrlc, r) ← save_loop (S (Z.to_nat count)) m address count 0 0 [] (tl ctrlc);
    if r <? 0 then Some (SREC3_START ++ text, -1)
    else if hd false ctrlc then Some (SREC3_START ++ text ++ SREC3_END, -1)
    else Some (SREC3_START ++ text ++ SREC3_END, 0).

(** ** Hexadecimal fields *)

Definition dig (d : Z) : Z := rd digits d.

(** The last [n] digits of [x]. *)
Fixpoint hexn (n : nat) (x : Z) : list Z :=
  match n with
  | O => []
  | S n => hexn n (x / 16) ++ [dig (x mod 16)]
  end.

Lemma hexn_0 n : hexn n 0 = repeat 48 n.
Proof.
  induction n as [|n IH]; [done|]. cbn [hexn]. change (0 / 16) with 0. rewrite IH.
  change [dig (0 mod 16)] with (repeat 48 1). rewrite <- repeat_app. f_equal. lia.
Qed.

Lemma hexn_length n x : length (hexn n x) = n.
Proof.
  revert x. induction n as [|n IH]; intros x; [done|]. cbn [hexn]. rewrite length_app, IH. simpl. lia.
Qed.

Lemma hexn_digits n x fuel :
  0 < x < 16 ^ Z.of_nat (S n) -> (n < fuel)%nat ->
  exists l, pow2_digits fuel x 15 4 0 = Some l /\ (1 <= length l <= S n)%nat /\
    repeat 48 (S n - length l) ++ rev l = hexn (S n) x.
Proof.
  revert x fuel. induction n as [|n IH]; intros x [|fuel] Hx Hf; try lia; cbn [pow2_digits].
  all: assert (Hd : Z.lor (rd digits (Z.land (u8 x) 15)) 0 = dig (x mod 16)).
  all: try (rewrite Z.lor_0_r, (land_mask _ 4) by lia; unfold dig, u8; f_equal;
            Z.to_euclidean_division_equations; lia).
  all: rewrite Hd, Z.shiftr_div_pow2 by lia; change (2 ^ 4) with 16.
  - change (16 ^ Z.of_nat 1) with 16 in Hx. rewrite (Z.div_small x 16) by lia. cbn [Z.eqb].
    eexists. split; [done|]. split; [done|]. done.
  - rewrite Nat2Z.inj_succ, Z.pow_succ_r in Hx by lia.
    destruct (Z.eqb_spec (x / 16) 0) as [E|E].
    + eexists. split; [done|]. split; [simpl; lia|].
      cbn [length rev app]. change (hexn (S (S n)) x) with (hexn (S n) (x / 16) ++ [dig (x mod 16)]).
      rewrite E, hexn_0. done.
    + destruct (IH (x / 16) fuel) as (l & Hl & Hlen & Heq); [|lia|].
      { split; [|apply Z.div_lt_upper_bound; lia].
        assert (0 <= x / 16) by (apply Z.div_pos; lia). lia. }
      rewrite Hl. cbn [mbind option_bind]. eexists. split; [done|]. split; [simpl; lia|].
      change (hexn (S (S n)) x) with (hexn (S n) (x / 16) ++ [dig (x mod 16)]).
      rewrite <- Heq. cbn [rev length]. rewrite app_assoc. do 3 f_equal.
Qed.

(** "%0nX" *)
Lemma number_hex n x :
  0 <= x < 16 ^ Z.of_nat (S n) -> (n < 16)%nat ->
  number x 16 (Z.of_nat (S n)) (-1) ZEROPAD = Some (hexn (S n) x).
Proof.
  intros Hx Hn.
  assert (Hd : exists l, num_digits x 16 0 = Some l /\ (length l <= S n)%nat /\ l <> [] /\
    repeat 48 (S n - length l) ++ rev l = hexn (S n) x).
  { unfold num_digits. destruct (Z.eqb_spec x 0) as [->|H0].
    - eexists. split; [done|]. split; [simpl; lia|]. split; [done|]. rewrite hexn_0.
      change (rev [48]) with (repeat 48 1). cbn [length]. rewrite <- repeat_app. f_equal. lia.
    - destruct (hexn_digits n x number_fuel) as (l & Hl & Hlen & Heq); [lia|unfold number_fuel; lia|].
      exists l. split; [done|]. split; [lia|]. split; [|done]. intros ->. simpl in Hlen. lia. }
  destruct Hd as (l & Hl & Hlen & Hne & Heq).
  assert (Hs : sign_of ZEROPAD x (Z.of_nat (S n)) = (0, x, Z.of_nat (S n))) by done.
  rewrite (number_layout x 16 _ (-1) ZEROPAD 0 x (Z.of_nat (S n)) l); [|lia|done|done].
  f_equal. unfold layout. change (has ZEROPAD SPECIAL) with false. change (has ZEROPAD ZEROPAD) with true.
  change (has ZEROPAD LEFT) with false. cbn [andb negb orb app Z.eqb]. rewrite app_nil_r.
  assert (1 <= Z.of_nat (length l)) by (destruct l; [done|simpl; lia]).
  rewrite Z.max_r, Z.sub_diag by lia. cbn [Z.to_nat repeat app]. rewrite <- Heq. do 2 f_equal. lia.
Qed.

(** [v] is printed with "%02X" or "%08lX" in upper case. *)
Lemma record_format length address data checksum :
  0 <= length < 256 -> 0 <= address < 2 ^ 32 -> 0 <= checksum < 256 ->
  Z.of_nat (List.length data) < 2 ^ 31 ->
  format (S (List.length SREC3_FORMAT)) SREC3_FORMAT
    (VState [] [AInt length; AInt address; AStr (Some data); AInt checksum] []) =
  Some (VState ([83; 51] ++ hexn 2 length ++ hexn 8 address ++ data ++ hexn 2 checksum ++ [10]) [] []).
Proof.
  intros Hl Ha Hc Hd.
  assert (H2 : forall fmt o v l, 0 <= v < 256 ->
    directive (48 :: 50 :: 88 :: fmt) (VState o (AInt v :: l) []) =
    Some (VState (o ++ hexn 2 v) l [], fmt)).
  { intros fmt o v l Hv.
    assert (E : directive (48 :: 50 :: 88 :: fmt) (VState o (AInt v :: l) []) =
      s ← (n ← number (u32 v) 16 2 (-1) ZEROPAD; Some (VState (o ++ n) l [])); Some (s, fmt))
      by reflexivity.
    pose proof (number_hex 1 v ltac:(simpl; lia) ltac:(lia)) as N. change (Z.of_nat 2) with 2 in N.
    by rewrite E, u32_small, N by lia. }
  assert (H8 : forall fmt o v l, 0 <= v < 2 ^ 32 ->
    directive (48 :: 56 :: 108 :: 88 :: fmt) (VState o (AInt v :: l) []) =
    Some (VState (o ++ hexn 8 v) l [], fmt)).
  { intros fmt o v l Hv.
    assert (E : directive (48 :: 56 :: 108 :: 88 :: fmt) (VState o (AInt v :: l) []) =
      s ← (n ← number (u32 v) 16 8 (-1) ZEROPAD; Some (VState (o ++ n) l [])); Some (s, fmt))
      by reflexivity.
    pose proof (number_hex 7 v ltac:(simpl; lia) ltac:(lia)) as N. change (Z.of_nat 8) with 8 in N.
    by rewrite E, u32_small, N by lia. }
  assert (Hs : forall fmt o l,
    directive (115 :: fmt) (VState o (AStr (Some data) :: l) []) =
    Some (VState (o ++ data) l [], fmt)).
  { intros fmt o l.
    assert (E : directive (115 :: fmt) (VState o (AStr (Some data) :: l) []) =
      Some (VState (o ++ string (Some data) (-1) (-1) 0) l [], fmt)) by reflexivity.
    rewrite E, string_plain by lia. done. }
  unfold SREC3_FORMAT. cbn [List.length].
  rewrite !(format_plain _ 83), !(format_plain _ 51) by done. unfold emit. cbn [out args stores app].
  rewrite format_conv, H2 by done. cbn [mbind option_bind].
  rewrite format_conv, H8 by done. cbn [mbind option_bind].
  rewrite format_conv, Hs. cbn [mbind option_bind].
  rewrite format_conv, H2 by done. cbn [mbind option_bind].
  rewrite (format_plain _ 10) by done. cbn [format emit out args stores].
  unfold emit. cbn [out args stores]. rewrite <- !app_assoc. reflexivity.
Qed.

(** ** Reading hexadecimal digits *)

Lemma hex1_dig d : 0 <= d < 16 -> hex1_bin (dig d) = d.
Proof.
  intros Hd. assert (H : forallb (fun d => hex1_bin (dig d) =? d) (seqZ 0 16) = true)
    by (vm_compute; reflexivity).
  apply Z.eqb_eq. by apply (forallb_seqZ _ 16 d H).
Qed.

Lemma hex2_bin_spec b rest :
  is_byte b -> hex2_bin (hexn 2 b ++ rest) = b /\ skipn 2 (hexn 2 b ++ rest) = rest.
Proof.
  intros Hb. unfold is_byte in Hb. split; [|done]. unfold hex2_bin. cbn [hexn app].
  change (rd (dig (b / 16 mod 16) :: dig (b mod 16) :: rest) 0) with (dig (b / 16 mod 16)).
  change (rd (dig (b / 16 mod 16) :: dig (b mod 16) :: rest) 1) with (dig (b mod 16)).
  rewrite !hex1_dig by (apply Z.mod_pos_bound; lia).
  rewrite !(proj2 (Z.ltb_ge _ _)) by (apply Z.mod_pos_bound; lia). rewrite Z.shiftl_mul_pow2 by lia.
  Z.to_euclidean_division_equations. lia.
Qed.

Lemma hexn_8 a :
  hexn 8 a = hexn 2 (a / 2 ^ 24 mod 256) ++ hexn 2 (a / 2 ^ 16 mod 256) ++
             hexn 2 (a / 2 ^ 8 mod 256) ++ hexn 2 (a mod 256).
Proof.
  cbn [hexn app]. rewrite !Z.div_div by lia. change (16 * 16) with (2 ^ 8).
  repeat (apply f_equal2; [apply (f_equal dig); Z.to_euclidean_division_equations; lia|]). done.
Qed.

(** ** The text of a record *)

Definition sum (l : list Z) : Z := fold_right Z.add 0 l.
Definition hexs (l : list Z) : list Z := concat (map (hexn 2) l).
Definition addr_bytes (a : Z) : list Z := [a / 2 ^ 24 mod 256; a / 2 ^ 16 mod 256; a / 2 ^ 8 mod 256; a mod 256].
Definition check_byte (address : Z) (d : list Z) : Z :=
  u8 (Z.lnot (5 + Z.of_nat (length d) + sum (addr_bytes address) + sum d)).

(** Without the 'S' and the newline. *)
Definition record_body (address : Z) (d : list Z) : list Z :=
  [51] ++ hexn 2 (5 + Z.of_nat (length d)) ++ hexs (addr_bytes address) ++ hexs d ++
  hexn 2 (check_byte address d).
Definition record_text (address : Z) (d : list Z) : list Z := [83] ++ record_body address d ++ [10].

Lemma hexs_length l : length (hexs l) = (2 * length l)%nat.
Proof.
  unfold hexs. induction l as [|b l IH]; [done|]. cbn [map concat]. rewrite length_app, hexn_length, IH.
  simpl. lia.
Qed.

Lemma hexs_app l k : hexs (l ++ k) = hexs l ++ hexs k.
Proof. unfold hexs. by rewrite map_app, concat_app. Qed.

Lemma sum_app l k : sum (l ++ k) = sum l + sum k.
Proof. unfold sum. induction l as [|b l IH]; cbn [app fold_right]; lia. Qed.

Lemma addr_bytes_bytes a : byte_list (addr_bytes a).
Proof.
  unfold addr_bytes, byte_list.
  repeat (apply List.Forall_cons; [apply Z.mod_pos_bound; lia|]). apply List.Forall_nil.
Qed.

Lemma read_addr_spec bs rest a c :
  byte_list bs ->
  read_addr (length bs) (hexs bs ++ rest) a c =
  Some (rest, fold_left (fun a b => u32 (u32 (Z.shiftl a 8) + b)) bs a,
        fold_left (fun c b => u8 (c + b)) bs c).
Proof.
  intros Hb. revert a c. induction Hb as [|b bs Hb _ IH]; intros a c; [done|].
  unfold hexs in *. cbn [length map concat read_addr fold_left]. rewrite <- app_assoc.
  destruct (hex2_bin_spec b (concat (map (hexn 2) bs) ++ rest) Hb) as [-> ->].
  rewrite (proj2 (Z.ltb_ge _ _)) by apply Hb. apply IH.
Qed.

Lemma read_data_spec bs rest c :
  byte_list bs ->
  read_data (length bs) (hexs bs ++ rest) c = Some (rest, bs, fold_left (fun c b => u8 (c + b)) bs c).
Proof.
  intros Hb. revert c. induction Hb as [|b bs Hb _ IH]; intros c; [done|].
  unfold hexs in *. cbn [length map concat read_data fold_left]. rewrite <- app_assoc.
  destruct (hex2_bin_spec b (concat (map (hexn 2) bs) ++ rest) Hb) as [-> ->].
  rewrite (proj2 (Z.ltb_ge _ _)) by apply Hb. by rewrite IH.
Qed.

Lemma fold_u8_sum bs c : fold_left (fun c b => u8 (c + b)) bs (u8 c) = u8 (c + sum bs).
Proof.
  revert c. induction bs as [|b bs IH]; intros c; cbn [fold_left sum fold_right].
  - f_equal. lia.
  - replace (u8 (u8 c + b)) with (u8 (c + b)) by (symmetry; apply Zplus_mod_idemp_l).
    rewrite IH. f_equal. unfold sum. lia.
Qed.

Lemma fold_addr a :
  0 <= a < 2 ^ 32 -> fold_left (fun a b => u32 (u32 (Z.shiftl a 8) + b)) (addr_bytes a) 0 = a.
Proof.
  intros Ha. unfold addr_bytes. cbn [fold_left]. rewrite !Z.shiftl_mul_pow2 by lia.
  repeat match goal with |- context [u32 ?x] =>
    lazymatch x with context [u32 _] => fail | _ =>
      rewrite (u32_small x) by (Z.to_euclidean_division_equations; lia) end end.
  Z.to_euclidean_division_equations. lia.
Qed.

(** A record is decoded to what it was made of. *)
Lemma decode_record address d :
  0 <= address < 2 ^ 32 -> byte_list d -> (length d <= 250)%nat ->
  srec_decode (83 :: record_body address d) = (SREC_DATA4, Z.of_nat (length d), address, d).
Proof.
  intros Ha Hd Hlen. unfold srec_decode. cbn [skip_to_S Z.eqb Pos.eqb]. unfold record_body. cbn [app].
  destruct (hex2_bin_spec (5 + Z.of_nat (length d))
    (hexs (addr_bytes address) ++ hexs d ++ hexn 2 (check_byte address d))) as [-> ->]; [unfold is_byte; lia|].
  rewrite (proj2 (Z.ltb_ge _ _)) by lia. change (record_type 51) with (Some (SREC_DATA4, Some 5, 4%nat)).
  cbv iota beta. change 4%nat with (length (addr_bytes address)).
  rewrite (read_addr_spec (addr_bytes address)) by apply addr_bytes_bytes. rewrite fold_addr, fold_u8_sum by done.
  replace (5 + Z.of_nat (length d) - 5) with (Z.of_nat (length d)) by lia. rewrite Nat2Z.id.
  rewrite read_data_spec, fold_u8_sum by done.
  rewrite <- (app_nil_r (hexn 2 (check_byte address d))).
  destruct (hex2_bin_spec (check_byte address d) [] (is_byte_u8 _)) as [-> _].
  rewrite (proj2 (Z.ltb_ge _ _)) by apply is_byte_u8.
  assert (Hck : u8 (check_byte address d) =
    u8 (Z.lnot (u8 (5 + Z.of_nat (length d) + sum (addr_bytes address) + sum d)))).
  { unfold check_byte. generalize (5 + Z.of_nat (length d) + sum (addr_bytes address) + sum d). intros x.
    unfold u8, Z.lnot. Z.to_euclidean_division_equations. lia. }
  by rewrite Hck, Z.eqb_refl.
Qed.

(** And it is what [save_serial] writes. *)
Lemma add_bytes_addr a c : 0 <= a < 2 ^ 32 -> add_bytes 4 a c = c + sum (addr_bytes a).
Proof.
  intros Ha. unfold add_bytes, addr_bytes, sum. cbn [fold_right].
  change (8 * Z.of_nat 0) with 0. change (8 * Z.of_nat 1) with 8. change (8 * Z.of_nat 2) with 16.
  change (8 * Z.of_nat 3) with 24.
  rewrite !(land_mask _ 8), Z.shiftr_0_r, !Z.shiftr_div_pow2 by lia. change (2 ^ 8) with 256. lia.
Qed.

Lemma build_record_spec address d :
  0 <= address < 2 ^ 32 -> (length d <= 16)%nat ->
  build_record address (Z.of_nat (length d)) (sum d) (hexs d) = Some (record_text address d).
Proof.
  intros Ha Hd. unfold build_record.
  assert (Hl : add_bytes 2 (4 + Z.of_nat (length d) + 1) (sum d) = sum d + (5 + Z.of_nat (length d))).
  { unfold add_bytes. change (8 * Z.of_nat 0) with 0. change (8 * Z.of_nat 1) with 8.
    rewrite !(land_mask _ 8), Z.shiftr_0_r, !Z.shiftr_div_pow2 by lia. Z.to_euclidean_division_equations. lia. }
  rewrite Hl, add_bytes_addr, (land_mask _ 8) by done.
  replace (sum d + (5 + Z.of_nat (length d)) + sum (addr_bytes address))
    with (5 + Z.of_nat (length d) + sum (addr_bytes address) + sum d) by lia.
  fold (u8 (Z.lnot (5 + Z.of_nat (length d) + sum (addr_bytes address) + sum d))).
  fold (check_byte address d). replace (4 + Z.of_nat (length d) + 1) with (5 + Z.of_nat (length d)) by lia.
  rewrite record_format; [|lia|done|apply u8_range|rewrite hexs_length; lia].
  cbn [mbind option_bind out]. unfold record_text, record_body. f_equal. cbn [app]. rewrite <- !app_assoc.
  do 3 f_equal. rewrite hexn_8. unfold hexs at 2, addr_bytes. cbn [map concat]. by rewrite app_nil_r, <- !app_assoc.
Qed.

(** ** Saving writes the records *)

(** The records for the bytes [l], when [d] is already collected for [address]. *)
Fixpoint records (address : Z) (d l : list Z) : list Z :=
  match l with
  | [] => match d with [] => [] | _ => record_text address d end
  | c :: l =>
    if Nat.eqb (length (d ++ [c])) 16
    then record_text address (d ++ [c]) ++ records (address + 16) [] l
    else records address (d ++ [c]) l
  end.

Lemma hex_digits c :
  is_byte c -> [rd hex (Z.land (Z.shiftr c 4) 15); rd hex (Z.land c 15)] = hexs [c].
Proof.
  intros Hc. unfold hexs. cbn [map concat hexn app].
  rewrite !(land_mask _ 4), Z.shiftr_div_pow2 by lia. done.
Qed.

Lemma mem_list_cons m a n : mem_list m a (S n) = m a :: mem_list m (a + 1) n.
Proof. done. Qed.

(** The step of the loop that takes a byte. *)
Lemma save_take fuel m address d c n :
  is_byte c -> 0 <= address -> address + Z.of_nat (length d) < 2 ^ 32 ->
  m (address + Z.of_nat (length d)) = c -> (length d < 16)%nat ->
  save_loop (S fuel) m address (Z.of_nat (S n)) (Z.of_nat (length d)) (sum d) (hexs d) [] =
  if Nat.eqb (length (d ++ [c])) 16 || Nat.eqb n 0 then
    if Nat.eqb n 0 then Some (record_text address (d ++ [c]), [], 0)
    else '(rest, ctrlc, r) ← save_loop fuel m (u32 (address + Z.of_nat (length (d ++ [c])))) (Z.of_nat n) 0 0 [] [];
         Some (record_text address (d ++ [c]) ++ rest, ctrlc, r)
  else save_loop fuel m address (Z.of_nat n) (Z.of_nat (length (d ++ [c]))) (sum (d ++ [c])) (hexs (d ++ [c])) [].
Proof.
  intros Hc Ha Hlt Hm Hd. cbn [save_loop]. rewrite (proj2 (Z.eqb_neq (Z.of_nat (S n)) 0)) by lia. cbn [negb].
  rewrite (u32_small (address + Z.of_nat (length d))), Hm, hex_digits, <- hexs_app by (done || lia).
  assert (Hs : sum d + c = sum (d ++ [c])) by (rewrite sum_app; unfold sum at 3; cbn [fold_right]; lia).
  assert (Hl : Z.of_nat (length d) + 1 = Z.of_nat (length (d ++ [c]))) by (rewrite length_app; simpl; lia).
  assert (Hl16 : (length (d ++ [c]) <= 16)%nat) by (rewrite length_app; simpl; lia).
  rewrite Hs, Hl. replace (Z.of_nat (S n) - 1) with (Z.of_nat n) by lia.
  assert (E16 : (Z.of_nat (length (d ++ [c])) =? SREC_BYTES_PER_RECORD) = Nat.eqb (length (d ++ [c])) 16).
  { unfold SREC_BYTES_PER_RECORD. destruct (Nat.eqb_spec (length (d ++ [c])) 16); [apply Z.eqb_eq|apply Z.eqb_neq]; lia. }
  assert (E0 : (Z.of_nat n =? 0) = Nat.eqb n 0) by (destruct n; done).
  assert (Er : (Z.of_nat (length (d ++ [c])) =? 0) = false) by (apply Z.eqb_neq; lia).
  rewrite E16, E0, Er. cbn [negb]. rewrite build_record_spec by lia. cbn [mbind option_bind andb hd].
  by destruct (Nat.eqb _ 16), (Nat.eqb n 0).
Qed.

Lemma save_loop_spec m l : forall fuel address d,
  byte_list l -> 0 <= address -> address + Z.of_nat (length d) + Z.of_nat (length l) <= 2 ^ 32 ->
  mem_list m (address + Z.of_nat (length d)) (length l) = l -> (length d < 16)%nat ->
  l <> [] \/ d = [] -> (length l < fuel)%nat ->
  save_loop fuel m address (Z.of_nat (length l)) (Z.of_nat (length d)) (sum d) (hexs d) [] =
  Some (records address d l, [], 0).
Proof.
  induction l as [|c l IH]; intros [|fuel] address d Hb Ha Hmax Hm Hd Hne Hf; try (simpl in Hf; lia).
  - destruct Hne as [?| ->]; [done|]. reflexivity.
  - apply List.Forall_cons_iff in Hb as [Hc Hb]. cbn [length] in *. rewrite mem_list_cons in Hm.
    injection Hm as Hmc Hm.
    rewrite (save_take fuel m address d c (length l)) by (done || lia). cbn [records].
    assert (Hl : Z.of_nat (length (d ++ [c])) = Z.of_nat (length d) + 1) by (rewrite length_app; simpl; lia).
    destruct (Nat.eqb_spec (length (d ++ [c])) 16) as [E|E]; cbn [orb].
    + destruct (Nat.eqb_spec (length l) 0) as [E0|E0].
      * apply nil_length_inv in E0. subst l. cbn [records]. by rewrite app_nil_r.
      * rewrite E, u32_small by lia.
        pose proof (IH fuel (address + 16) []) as IH'. cbn [length sum fold_right hexs map concat] in IH'.
        change (Z.of_nat 0) with 0 in IH'. change (Z.of_nat 16) with 16. rewrite IH'; try done; try lia.
        -- replace (address + 16 + 0) with (address + Z.of_nat (length d) + 1) by lia. done.
        -- by right.
    + destruct (Nat.eqb_spec (length l) 0) as [E0|E0].
      * apply nil_length_inv in E0. subst l. cbn [records]. by destruct d.
      * rewrite length_app in E. simpl in E. apply IH; try done; try lia.
        -- rewrite Hl. by rewrite Z.add_assoc.
        -- left. by intros ->.
Qed.

(** ** Loading reads them back *)

Definition plain_char (c : Z) : Prop := c <> 0 /\ c <> 3 /\ c <> 10 /\ c <> 13.

Lemma read_line text rest n :
  Forall plain_char text -> (length text < n)%nat -> read_record n (text ++ 10 :: rest) = Line text rest.
Proof.
  intros Ht. revert n. induction Ht as [|c text (H0 & H3 & H10 & H13) _ IH]; intros [|n] Hn;
    try (simpl in Hn; lia); [done|].
  cbn [app read_record]. rewrite !(proj2 (Z.eqb_neq _ _)) by done. cbn [orb].
  rewrite IH; [done|]. simpl in Hn. lia.
Qed.

Lemma hexn_plain n x : Forall plain_char (hexn n x).
Proof.
  revert x. induction n as [|n IH]; intros x; [apply List.Forall_nil|]. cbn [hexn].
  apply Forall_app. split; [apply IH|]. apply List.Forall_cons; [|apply List.Forall_nil].
  assert (H : forallb (fun d => negb ((dig d =? 0) || (dig d =? 3) || (dig d =? 10) || (dig d =? 13))) (seqZ 0 16) = true)
    by (vm_compute; reflexivity).
  pose proof (forallb_seqZ _ 16 (x mod 16) H (Z.mod_pos_bound x 16 ltac:(lia))) as Hd. cbv beta in Hd.
  unfold plain_char. bdestruct.
Qed.

Lemma hexs_plain l : Forall plain_char (hexs l).
Proof.
  unfold hexs. induction l as [|b l IH]; [apply List.Forall_nil|]. cbn [map concat].
  apply Forall_app. split; [apply hexn_plain|done].
Qed.

Lemma body_plain address d : Forall plain_char (83 :: record_body address d).
Proof.
  unfold record_body. cbn [app]. repeat (apply List.Forall_cons; [unfold plain_char; lia|]).
  apply Forall_app; split; [apply hexn_plain|]. apply Forall_app; split; [apply hexs_plain|].
  apply Forall_app; split; [apply hexs_plain|apply hexn_plain].
Qed.

Lemma body_length address d : length (83 :: record_body address d) = (14 + 2 * length d)%nat.
Proof.
  unfold record_body. cbn [length app]. rewrite !length_app, !hexn_length, !hexs_length. simpl. lia.
Qed.

(** One record. *)
Lemma load_one fuel m offset address d rest st en :
  0 <= address < 2 ^ 32 -> 0 <= address + offset -> byte_list d ->
  (0 < length d <= 16)%nat -> address + offset + Z.of_nat (length d) <= 2 ^ 32 ->
  load_serial (S fuel) m offset (record_text address d ++ rest) st en =
  load_serial fuel (store_list m (address + offset) d) offset rest
    (Z.min st (address + offset)) (Z.max en (address + offset + Z.of_nat (length d) - 1)).
Proof.
  intros Ha Hp Hb Hd Hmax. cbn [load_serial].
  replace (record_text address d ++ rest) with ((83 :: record_body address d) ++ 10 :: rest)
    by (unfold record_text; cbn [app]; by rewrite <- app_assoc).
  rewrite read_line; [|apply body_plain|rewrite body_length; unfold SREC_MAXRECLEN; lia].
  rewrite decode_record by (done || lia).
  change (SREC_DATA4 <? 0) with false. change ((SREC_DATA4 =? SREC_DATA2) || (SREC_DATA4 =? SREC_DATA3) || (SREC_DATA4 =? SREC_DATA4)) with true.
  cbv iota. rewrite (proj2 (Z.ltb_ge _ _)) by lia. rewrite (u32_small (address + offset)) by lia.
  rewrite (u32_small (address + offset + Z.of_nat (length d) - 1)) by lia. f_equal.
  - bdestruct.
  - bdestruct.
Qed.

(** The records of a block of memory. *)
Lemma load_records offset rest l : forall fuel m address d st en,
  0 <= address -> 0 <= address + offset -> byte_list (d ++ l) -> (length d < 16)%nat ->
  address + Z.of_nat (length (d ++ l)) <= 2 ^ 32 -> address + offset + Z.of_nat (length (d ++ l)) <= 2 ^ 32 ->
  (length (records address d l ++ rest) < fuel)%nat -> d ++ l <> [] ->
  exists fuel', (length rest < fuel')%nat /\
  load_serial fuel m offset (records address d l ++ rest) st en =
  load_serial fuel' (store_list m (address + offset) (d ++ l)) offset rest
    (Z.min st (address + offset)) (Z.max en (address + offset + Z.of_nat (length (d ++ l)) - 1)).
Proof.
  assert (Hone : forall fuel m address d st en rest',
    0 <= address -> 0 <= address + offset -> byte_list d -> (0 < length d <= 16)%nat ->
    address + Z.of_nat (length d) <= 2 ^ 32 -> address + offset + Z.of_nat (length d) <= 2 ^ 32 ->
    (length (record_text address d ++ rest') < fuel)%nat ->
    exists fuel', (length rest' < fuel')%nat /\
    load_serial fuel m offset (record_text address d ++ rest') st en =
    load_serial fuel' (store_list m (address + offset) d) offset rest'
      (Z.min st (address + offset)) (Z.max en (address + offset + Z.of_nat (length d) - 1))).
  { intros fuel m address d st en rest' Ha Hp Hb Hd H1 H2 Hf. rewrite length_app in Hf.
    destruct fuel as [|fuel]; [lia|]. exists fuel. split; [unfold record_text in Hf; simpl in Hf; lia|].
    apply load_one; (done || lia). }
  induction l as [|c l IH]; intros fuel m address d st en Ha Hp Hb Hd H1 H2 Hf Hne.
  - rewrite app_nil_r in *. destruct d as [|c0 d]; [done|].
    cbn [records] in *. apply Hone; try done. simpl in Hd |- *. lia.
  - assert (Hsplit : d ++ c :: l = (d ++ [c]) ++ l) by (by rewrite <- app_assoc).
    rewrite Hsplit in *. cbn [records] in Hf |- *. rewrite length_app in H1, H2.
    destruct (Nat.eqb_spec (length (d ++ [c])) 16) as [E|E].
    + rewrite byte_list_app in Hb. destruct Hb as [Hb1 Hb2]. rewrite <- app_assoc in Hf |- *.
      destruct (Hone fuel m address (d ++ [c]) st en (records (address + 16) [] l ++ rest)) as (f1 & Hf1 & ->);
        try done; try lia.
      destruct l as [|c1 l]; [exists f1; rewrite app_nil_r; by split|]. set (l' := c1 :: l) in *.
      destruct (IH f1 (store_list m (address + offset) (d ++ [c])) (address + 16) []
        (Z.min st (address + offset)) (Z.max en (address + offset + Z.of_nat (length (d ++ [c])) - 1)))
        as (f2 & Hf2 & ->); try done; try (cbn [app length]; lia).
      exists f2. split; [done|]. cbn [app]. rewrite (store_list_app m (address + offset) (d ++ [c]) l'), E.
      replace (address + 16 + offset) with (address + offset + Z.of_nat 16) by lia.
      f_equal; [lia|]. rewrite length_app, E. lia.
    + apply IH; try done.
      * rewrite length_app in E |- *. simpl in E |- *. lia.
      * rewrite length_app. lia.
      * rewrite length_app. lia.
Qed.

(** The end record. *)
Lemma load_end fuel m offset st en :
  load_serial (S fuel) m offset SREC3_END st en = Some (Loaded m 0 (Some (u32 (en - st + 1)))).
Proof. reflexivity. Qed.

Lemma load_start fuel m offset rest st en :
  load_serial (S fuel) m offset (SREC3_START ++ rest) st en = load_serial fuel m offset rest st en.
Proof. reflexivity. Qed.

(** C12: what [saves] prints for a block of memory, [loads] with any offset stores again:
    the block's bytes, at its address plus the offset, and nothing else; and it reports
    the block's size. *)
Theorem saves_loads m k address count offset :
  0 <= address -> 0 < count < 2 ^ 32 -> address + count <= 2 ^ 32 ->
  0 <= address + offset -> address + offset + count <= 2 ^ 32 ->
  byte_list (mem_list m address (Z.to_nat count)) ->
  exists text, save_serial m address count [] = Some (text, 0) /\
    loads k offset text =
      Some (Loaded (store_list k (address + offset) (mem_list m address (Z.to_nat count))) 0 (Some count)).
Proof.
  intros Ha Hc Hmax Hp Hmax' Hb. set (l := mem_list m address (Z.to_nat count)) in *.
  assert (Hl : length l = Z.to_nat count) by (unfold l; apply mem_list_length).
  assert (Hne : l <> []) by (intros E; rewrite E in Hl; simpl in Hl; lia).
  exists (SREC3_START ++ records address [] l ++ SREC3_END). split.
  - pose proof (save_loop_spec m l (S (Z.to_nat count)) address []) as Hs.
    cbn [length sum fold_right hexs map concat] in Hs. change (Z.of_nat 0) with 0 in Hs.
    rewrite Z.add_0_r, Hl, Z2Nat.id in Hs by lia.
    unfold save_serial. cbn [hd tl]. rewrite Hs; try done; try lia. by left.
  - unfold loads. rewrite length_app. change (length SREC3_START) with 11%nat. cbn [Nat.add].
    rewrite load_start.
    destruct (load_records offset SREC3_END l (S (10 + length (records address [] l ++ SREC3_END)))
      k address [] (u32 (-1)) 0) as (fuel & Hf & Heq); try done; try (cbn [app length]; lia).
    change (S (10 + length (records address [] l ++ SREC3_END)))
      with (11 + length (records address [] l ++ SREC3_END))%nat in Heq.
    cbn [Nat.add] in Heq. rewrite Heq. destruct fuel as [|fuel]; [lia|]. rewrite load_end. cbn [app].
    do 3 f_equal. change (u32 (-1)) with (2 ^ 32 - 1). rewrite Hl, Z2Nat.id, Z.min_r, Z.max_r by lia.
    rewrite u32_small; lia.
Qed.

Lemma saves_loads_witness :
  exists text, save_serial (fun a => a mod 256) 0x2000 20 [] = Some (text, 0) /\
    loads (fun _ => 0) (-0x1000) text =
      Some (Loaded (store_list (fun _ => 0) (0x2000 + -0x1000)
        (mem_list (fun a => a mod 256) 0x2000 (Z.to_nat 20))) 0 (Some 20)).
Proof.
  apply (saves_loads (fun a => a mod 256) (fun _ => 0) 0x2000 20 (-0x1000)); try lia.
  apply (bool_decide_unpack _). by vm_compute.
Defined.

(** ** Termination *)

Lemma read_record_step n c typed :
  read_record (S n) (c :: typed) =
  if (c =? 13) || (c =? 10) then Line [] typed
  else if (c =? 0) || (c =? 3) then Break
  else match read_record n typed with
       | Line text rest => Line (c :: text) rest
       | r => r
       end.
Proof. reflexivity. Qed.

Lemma read_record_shorter n typed text rest :
  read_record (S n) typed = Line text rest -> (length rest < length typed)%nat.
Proof.
  revert typed text. induction n as [|n IH]; intros [|c typed] text; try done;
    rewrite read_record_step; (destruct (_ || _); [intros [= _ ->]; simpl; lia|]);
    (destruct (_ || _); [done|]).
  - intros [= _ ->]. simpl. lia.
  - destruct (read_record (S n) typed) as [t r| |] eqn:E; [|done..]. intros [= _ <-].
    apply IH in E. simpl. lia.
Qed.

(** [loads] comes to an end, or waits for input, whatever is typed: the fuel, one
    more than the number of characters, is enough. *)
Theorem loads_total m offset typed : loads m offset typed <> None.
Proof.
  unfold loads. generalize (u32 (-1)) 0. assert (Hf : (length typed < S (length typed))%nat) by lia.
  revert Hf. generalize (S (length typed)) as fuel. intros fuel.
  revert m typed. induction fuel as [|fuel IH]; intros m typed Hf st en; [lia|]. cbn [load_serial].
  destruct (read_record SREC_MAXRECLEN typed) as [text rest| |] eqn:E; [|done..].
  apply read_record_shorter in E. destruct (srec_decode text) as [[[type binlen] addr] data].
  destruct (type <? 0); [done|].
  destruct (_ || _); [destruct (binlen <? 0); [done|apply IH; lia]|]. destruct (_ || _); [done|apply IH; lia].
Qed.

(** a record whose count is smaller than its address field and checksum is accepted
    when its sum is right: "S1000000FF" is a data record of -3 bytes, and loading it
    copies a negative length.  And a file without data is reported to have two bytes. *)
Theorem loads_negative_count m :
  srec_decode [83; 49; 48; 48; 48; 48; 48; 48; 70; 70] = (SREC_DATA2, -3, 0, []) /\
  loads m 0 [83; 49; 48; 48; 48; 48; 48; 48; 70; 70; 10] = Some (Overrun m) /\
  loads m 0 (SREC3_START ++ SREC3_END) = Some (Loaded m 0 (Some 2)).
Proof. split_and!; reflexivity. Qed.
