(* ===== verification/Kermit.v ===== *)
(** The Kermit receiver of [loadb]: [common/cmd_load.c].

    What [getc] returns is a list; when it is used up the receiver waits for more.
    Characters are unsigned; what goes to the console is a list.  The destination is
    memory ([CONFIG_SYS_NO_FLASH] or not: [k_recv] knows no flash). *)

From S2P Require Import Prelude CString Vsprintf.

Definition START_CHAR : Z := 1.
Definition ETX_CHAR : Z := 3.
Definition END_CHAR : Z := 13.
Definition SPACE : Z := 32.
Definition K_ESCAPE : Z := 35.
Definition SEND_TYPE : Z := 83.
Definition DATA_TYPE : Z := 68.
Definition ACK_TYPE : Z := 89.
Definition NACK_TYPE : Z := 78.
Definition BREAK_TYPE : Z := 66.
Definition tochar (x : Z) : Z := u8 (x + SPACE).
Definition untochar (x : Z) : Z := u8 (x - SPACE).

(** ** The state *)

(** What the sender asks for: [his_eol], [his_pad_count], [his_pad_char], [his_quote]. *)
Record proto : Type := Proto { his_eol : Z; his_pad_count : Z; his_pad_char : Z; his_quote : Z }.

Definition default_proto : proto := Proto END_CHAR 0 0 K_ESCAPE.

(** What [k_data_save] saves: [k_data_escape], [os_data_state], [os_data_addr]. *)
Record cursor : Type := Cursor { k_data_escape : bool; os_data_state : Z; os_data_addr : Z }.

(** The receiver: the memory, the parameters, the position in the data and the saved
    one, the buffer [send_parms] and the pointer into it, [k_state] and its saved value, [n]
    and [last_n], and what is sent. *)
Record krecv : Type := K {
  data : mem; pr : proto; cur : cursor; saved : cursor; send_parms : mem; send_ptr : Z;
  k_state : Z; k_state_saved : Z; n : Z; last_n : Z; sent : list Z }.

Definition set_pr (p : proto) (s : krecv) : krecv :=
  K (data s) p (cur s) (saved s) (send_parms s) (send_ptr s) (k_state s) (k_state_saved s) (n s) (last_n s) (sent s).
Definition set_n (x : Z) (s : krecv) : krecv :=
  K (data s) (pr s) (cur s) (saved s) (send_parms s) (send_ptr s) (k_state s) (k_state_saved s) x (last_n s) (sent s).
Definition set_parms (p : mem) (a : Z) (s : krecv) : krecv :=
  K (data s) (pr s) (cur s) (saved s) p a (k_state s) (k_state_saved s) (n s) (last_n s) (sent s).
Definition set_state (x : Z) (s : krecv) : krecv :=
  K (data s) (pr s) (cur s) (saved s) (send_parms s) (send_ptr s) x (k_state_saved s) (n s) (last_n s) (sent s).
Definition set_data (m : mem) (c : cursor) (s : krecv) : krecv :=
  K m (pr s) c (saved s) (send_parms s) (send_ptr s) (k_state s) (k_state_saved s) (n s) (last_n s) (sent s).
Definition putc (l : list Z) (s : krecv) : krecv :=
  K (data s) (pr s) (cur s) (saved s) (send_parms s) (send_ptr s) (k_state s) (k_state_saved s) (n s) (last_n s) (sent s ++ l).

(** [k_state = k_state_saved; k_data_restore ()]. *)
Definition restore (s : krecv) : krecv :=
  K (data s) (pr s) (saved s) (saved s) (send_parms s) (send_ptr s) (k_state_saved s) (k_state_saved s) (n s) (last_n s) (sent s).

(** [last_n = n; k_state_saved = k_state; k_data_save ()]. *)
Definition checkpoint (s : krecv) : krecv :=
  K (data s) (pr s) (cur s) (cur s) (send_parms s) (send_ptr s) (k_state s) (k_state s) (n s) (n s) (sent s).

(** ** Sending *)

(** The characters up to the first NUL. *)
Fixpoint upto_nul (s : list Z) : list Z :=
  match s with
  | [] => []
  | c :: s => if c =? 0 then [] else c :: upto_nul s
  end.

Definition chk1 (buffer : list Z) : Z :=
  let total := fold_left Z.add (upto_nul buffer) 0 in
  Z.land (total + Z.land (Z.shiftr total 6) 3) 63.

Definition ktrans (c : Z) : Z :=
  if Z.land c 96 =? 64 then Z.land c (Z.lnot 64)
  else if Z.land c 127 =? 63 then Z.lor c 64
  else c.

Definition send_pad (s : krecv) : krecv :=
  putc (repeat (his_pad_char (pr s)) (Z.to_nat (his_pad_count (pr s)))) s.

Definition s1_sendpacket (packet : list Z) (s : krecv) : krecv := putc (upto_nul packet) (send_pad s).

(** [a_b] is packed: the start, a length, the number, a type and data, the check, the end. *)
Definition a_b (length n type : Z) (fields : list Z) (eol : Z) : list Z :=
  let text := [tochar length; tochar n; type] ++ fields in
  [START_CHAR] ++ text ++ [tochar (chk1 text); eol; 0].

Definition send_ack (n : Z) (s : krecv) : krecv :=
  s1_sendpacket (a_b 3 n ACK_TYPE [] (his_eol (pr s))) s.

Definition send_nack (n : Z) (s : krecv) : krecv :=
  s1_sendpacket (a_b 3 n NACK_TYPE [] (his_eol (pr s))) s.

(** ** Data *)

Definition os_data_char (new_char : Z) (s : krecv) : krecv :=
  let c := cur s in
  if os_data_state c =? 0 then
    set_data ((data s).[os_data_addr c <- new_char]) (Cursor (k_data_escape c) (os_data_state c) (os_data_addr c + 1)) s
  else s.

Definition set_escape (e : bool) (s : krecv) : krecv :=
  set_data (data s) (Cursor e (os_data_state (cur s)) (os_data_addr (cur s))) s.

Definition k_data_char (new_char : Z) (s : krecv) : krecv :=
  if k_data_escape (cur s) then set_escape false (os_data_char (ktrans new_char) s)
  else if new_char =? his_quote (pr s) then set_escape true s
  else os_data_char new_char s.

(** ** The send-initiate packet *)

Definition SEND_DATA_SIZE : Z := 20.

(** What the parameters at the head of the packet set, in their order, and the reply to each:
    MAXL, TIME, NPAD, PADC, EOL, QCTL, QBIN, CHKT, REPT, CAPAS. *)
Definition parameters (parms : mem) : list ((proto -> proto) * list Z) :=
  [ (fun p => p, [tochar 94]);
    (fun p => p, [tochar 1]);
    (fun p => Proto (his_eol p) (untochar (parms 2)) (his_pad_char p) (his_quote p), [tochar 0]);
    (fun p => Proto (his_eol p) (his_pad_count p) (ktrans (parms 3)) (his_quote p), [64]);
    (fun p => Proto (untochar (parms 4)) (his_pad_count p) (his_pad_char p) (his_quote p), [tochar END_CHAR]);
    (fun p => Proto (his_eol p) (his_pad_count p) (his_pad_char p) (parms 5), [35]);
    (fun p => p, [78]);
    (fun p => p, [49]);
    (fun p => p, [78]);
    (fun p => p, [tochar 2; tochar 0; tochar 94; tochar 94]) ].

(** The [do ... while (0)] with its breaks. *)
Fixpoint crack (bytes : Z) (l : list ((proto -> proto) * list Z)) (p : proto) (reply : list Z) : proto * list Z :=
  match l with
  | [] => (p, reply)
  | (f, r) :: l => if bytes <=? 0 then (p, reply) else crack (bytes - 1) l (f p) (reply ++ r)
  end.

Definition handle_send_packet (n : Z) (s : krecv) : krecv :=
  let ptr := if send_ptr s =? SEND_DATA_SIZE - 1 then send_ptr s - 1 else send_ptr s in
  let s := set_parms (send_parms s) ptr s in
  let '(p, reply) := crack ptr (parameters (send_parms s)) default_proto [] in
  let s := set_pr p s in
  s1_sendpacket (a_b (3 + Z.of_nat (length reply)) n ACK_TYPE reply (his_eol p)) s.

(** ** Receiving *)

(** How a packet ends: more input wanted, an error or a packet, with the rest of the input. *)
Inductive packet_end : Type :=
  | Starved
  | Packet_error (s : krecv) (rest : list Z)
  | Received (s : krecv) (rest : list Z).

(** [getc], and [packet_error] for a control character. *)
Definition getc (s : krecv) (input : list Z) (k : Z -> list Z -> packet_end) : packet_end :=
  match input with
  | [] => Starved
  | new_char :: input => if Z.land new_char 224 =? 0 then Packet_error s input else k new_char input
  end.

Definition block_check (sum : Z) : Z := tochar (Z.land (sum + Z.land (Z.shiftr sum 6) 3) 63).

(** The check and the end. *)
Definition trailer (sum : Z) (s : krecv) (input : list Z) : packet_end :=
  getc s input (fun new_char input =>
    if negb (new_char =? block_check sum) then Packet_error s input
    else
      match input with
      | [] => Starved
      | new_char :: input => if negb (new_char =? END_CHAR) then Packet_error s input else Received s input
      end).

(** A character of the data field. *)
Definition keep (new_char : Z) (s : krecv) : krecv :=
  if k_state s =? DATA_TYPE then k_data_char new_char s
  else if k_state s =? SEND_TYPE then
    let p := (send_parms s).[send_ptr s <- new_char] in
    let a := send_ptr s + 1 in
    set_parms p (if SEND_DATA_SIZE <=? a then a - 1 else a) s
  else s.

(** [while (length > 1)], and what comes after. *)
Fixpoint rest_of_packet (length sum : Z) (s : krecv) (input : list Z) : packet_end :=
  if 1 <? length then
    match input with
    | [] => Starved
    | new_char :: input =>
      if Z.land new_char 224 =? 0 then Packet_error s input
      else rest_of_packet (length - 1) (sum + new_char) (keep new_char s) input
    end
  else trailer sum s input.

(** A packet, after its START_CHAR. *)
Definition packet (s : krecv) (input : list Z) : packet_end :=
  getc s input (fun new_char input =>
  let sum := new_char in
  let length := untochar new_char in
  getc s input (fun new_char input =>
  let sum := sum + new_char in
  let s := set_n (untochar new_char) s in
  let length := length - 1 in
  let s := if n s =? last_n s then restore s else checkpoint s in
  getc s input (fun new_char input =>
  let sum := sum + new_char in
  let s := set_state new_char s in
  let length := length - 1 in
  if length =? -2 then
    getc s input (fun new_char input =>
    let sum := sum + new_char in
    let len_hi := untochar new_char in
    getc s input (fun new_char input =>
    let sum := sum + new_char in
    let len_lo := untochar new_char in
    let length := len_hi * 95 + len_lo in
    getc s input (fun new_char input =>
    if negb (new_char =? block_check sum) then Packet_error s input
    else rest_of_packet length (sum + new_char) s input)))
  else rest_of_packet length sum s input))).

(** [for (;;) switch (getc ())]: the packet starts, or the user gives up. *)
Fixpoint wait_start (input : list Z) : option (bool * list Z) :=
  match input with
  | [] => None
  | c :: input =>
    if c =? START_CHAR then Some (true, input)
    else if c =? ETX_CHAR then Some (false, input)
    else wait_start input
  end.

(** How [k_recv] ends: waiting, or with its result and the rest of the input. *)
Inductive received : Type :=
  | Waits
  | Returns (s : krecv) (size : Z) (rest : list Z).

(** [while (!done)]; [None] if the fuel, at most the characters that are left, is used up. *)
Fixpoint recv_loop (fuel : nat) (start : Z) (s : krecv) (input : list Z) : option received :=
  match fuel with
  | O => None
  | S fuel =>
    let s := set_parms (send_parms s) 0 s in
    match wait_start input with
    | None => Some Waits
    | Some (false, rest) => Some (Returns s 0 rest)
    | Some (true, input) =>
      match packet s input with
      | Starved => Some Waits
      | Packet_error s rest => let s := restore s in recv_loop fuel start (send_nack (n s) s) rest
      | Received s rest =>
        if k_state s =? SEND_TYPE then recv_loop fuel start (handle_send_packet (n s) s) rest
        else
          let s := send_ack (n s) s in
          if k_state s =? BREAK_TYPE then Some (Returns s (s32 (os_data_addr (cur s) - start)) rest)
          else recv_loop fuel start s rest
      end
    end
  end.

(** [set_kerm_bin_mode] and [k_recv]: the file goes to [start]; [parms] is what [send_parms]
    has from earlier. *)
Definition k_recv (start : Z) (m parms : mem) (input : list Z) : option received :=
  let c := Cursor false 0 start in
  recv_loop (S (length input)) start (K m default_proto c c parms 0 0 0 0 (-1) []) input.

(** ** The commands *)

(** "## Total Size      = 0x%08x = %d Bytes\n" and "%X" *)
Definition fmt_total : list Z :=
  [35; 35; 32; 84; 111; 116; 97; 108; 32; 83; 105; 122; 101; 32; 32; 32; 32; 32; 32; 61; 32; 48; 120; 37; 48; 56; 120;
   32; 61; 32; 37; 100; 32; 66; 121; 116; 101; 115; 10].
Definition fmt_X : list Z := [37; 88].

(** What [load_serial_bin] leaves: the receiver, the rest of the input, what it prints after
    the transfer, and the value of [filesize]. *)
Definition load_serial_bin (offset : Z) (m parms : mem) (input : list Z)
    : option (option (krecv * list Z * list Z * list Z)) :=
  r ← k_recv offset m parms input;
  match r with
  | Waits => Some None
  | Returns s size rest =>
    text ← printf fmt_total [AInt size; AInt size];
    filesize ← printf fmt_X [AInt size];
    Some (Some (s, skipn 100 rest, text, filesize))
  end.

(** "## Switch baudrate to %d bps and press ENTER ...\n",
    "## Ready for binary (kermit) download to 0x%08lX at %d bps...\n",
    "## Binary (kermit) download aborted\n",
    "## Start Addr      = 0x%08lX\n",
    "## Switch baudrate to %d bps and press ESC ...\n" *)
Definition fmt_switch_enter : list Z :=
  [35; 35; 32; 83; 119; 105; 116; 99; 104; 32; 98; 97; 117; 100; 114; 97; 116; 101; 32; 116; 111; 32;
   37; 100; 32; 98; 112; 115; 32; 97; 110; 100; 32; 112; 114; 101; 115; 115; 32; 69; 78; 84; 69; 82;
   32; 46; 46; 46; 10].
Definition fmt_ready : list Z :=
  [35; 35; 32; 82; 101; 97; 100; 121; 32; 102; 111; 114; 32; 98; 105; 110; 97; 114; 121; 32; 40; 107;
   101; 114; 109; 105; 116; 41; 32; 100; 111; 119; 110; 108; 111; 97; 100; 32; 116; 111; 32; 48; 120;
   37; 48; 56; 108; 88; 32; 97; 116; 32; 37; 100; 32; 98; 112; 115; 46; 46; 46; 10].
Definition msg_aborted : list Z :=
  [35; 35; 32; 66; 105; 110; 97; 114; 121; 32; 40; 107; 101; 114; 109; 105; 116; 41; 32; 100; 111;
   119; 110; 108; 111; 97; 100; 32; 97; 98; 111; 114; 116; 101; 100; 10].
Definition fmt_start : list Z :=
  [35; 35; 32; 83; 116; 97; 114; 116; 32; 65; 100; 100; 114; 32; 32; 32; 32; 32; 32; 61; 32; 48; 120;
   37; 48; 56; 108; 88; 10].
Definition fmt_switch_esc : list Z :=
  [35; 35; 32; 83; 119; 105; 116; 99; 104; 32; 98; 97; 117; 100; 114; 97; 116; 101; 32; 116; 111; 32;
   37; 100; 32; 98; 112; 115; 32; 97; 110; 100; 32; 112; 114; 101; 115; 115; 32; 69; 83; 67; 32; 46;
   46; 46; 10].

(** [for (;;) if (getc() == c) break;] *)
Fixpoint wait_for (c : Z) (input : list Z) : option (list Z) :=
  match input with
  | [] => None
  | x :: input => if x =? c then Some input else wait_for c input
  end.

(** The offset: the argument, the variable, or the default.  The baud rate: the argument if it is
    not zero, or the current one. *)
Definition offset_of (sys_load_addr : Z) (loadaddr : option (list Z)) (argv : list (list Z)) : Z :=
  let offset := match loadaddr with Some s => fst (simple_strtoul s 16) | None => sys_load_addr end in
  match argv with _ :: a :: _ => fst (simple_strtoul a 16) | _ => offset end.

Definition baudrate_of (current_baudrate : Z) (argv : list (list Z)) : Z :=
  match argv with
  | [_; _; b] => let r := s32 (fst (simple_strtoul b 10)) in if r =? 0 then current_baudrate else r
  | _ => current_baudrate
  end.

(** What [loadb] leaves: the memory, the console, its result, [load_addr] and [filesize]. *)
Record loadb : Type := Loadb {
  lb_data : mem; lb_console : list Z; lb_rcode : Z; load_addr : Z; lb_filesize : list Z }.

(** [do_load_serial_bin] as [loadb], not [loady]: [loadaddr] is the variable, [sys_load_addr] is
    CONFIG_SYS_LOAD_ADDR, [current_baudrate] is [gd->baudrate].  [Some None]: it waits for input. *)
Definition do_load_serial_bin (sys_load_addr current_baudrate : Z) (loadaddr : option (list Z))
    (argv : list (list Z)) (m parms : mem) (input : list Z) : option (option loadb) :=
  let offset := offset_of sys_load_addr loadaddr argv in
  let load_baudrate := baudrate_of current_baudrate argv in
  let switch := negb (load_baudrate =? current_baudrate) in
  t1 ← (if switch then printf fmt_switch_enter [AInt load_baudrate] else Some []);
  match (if switch then wait_for 13 input else Some input) with
  | None => Some None
  | Some input =>
    t2 ← printf fmt_ready [AInt offset; AInt load_baudrate];
    r ← load_serial_bin offset m parms input;
    match r with
    | None => Some None
    | Some (s, input, t3, filesize) =>
      let aborted := offset =? u32 (Z.lnot 0) in
      t4 ← (if aborted then Some msg_aborted else printf fmt_start [AInt offset]);
      t5 ← (if switch then printf fmt_switch_esc [AInt current_baudrate] else Some []);
      match (if switch then wait_for 27 input else Some input) with
      | None => Some None
      | Some _ =>
        Some (Some (Loadb (data s) (t1 ++ t2 ++ sent s ++ t3 ++ t4 ++ t5) (if aborted then 1 else 0)
          (if aborted then 0 else offset) filesize))
      end
    end
  end.

(** ** Kermit, from the sender's side *)

(** A character that may stand in a packet, and one that breaks it off. *)
Definition good (c : Z) : Prop := 32 <= c < 256.
Definition ctl (c : Z) : Prop := 0 <= c < 32.

(** What is skipped between packets. *)
Definition gap (g : list Z) : Prop := Forall (fun c => c <> START_CHAR /\ c <> ETX_CHAR) g.

Definition sum (l : list Z) : Z := fold_left Z.add l 0.

(** The head of a packet with number [n], type [ty] and [k] characters of data, after the
    START_CHAR: with the length as one character, or as two with a check of their own. *)
Inductive header (n ty : Z) : list Z -> nat -> Prop :=
  | short_header l : good l -> l <> SPACE -> header n ty [l; tochar n; ty] (Z.to_nat (l - 35))
  | long_header hi lo : good hi -> good lo ->
      let h := [SPACE; tochar n; ty; hi; lo] in
      header n ty (h ++ [block_check (sum h)]) (Z.to_nat ((hi - 32) * 95 + (lo - 32) - 1)).

(** A whole packet. *)
Inductive arrival (n ty : Z) (d : list Z) : list Z -> Prop :=
  | arrives h : header n ty h (length d) -> good ty -> Forall good d ->
      arrival n ty d (h ++ d ++ [block_check (sum (h ++ d)); END_CHAR]).

(** What becomes of a packet on a bad line: a control character in the type, in the long
    length or in the data, or a wrong check or end.  The number is as sent. *)
Inductive damaged (n : Z) : list Z -> Prop :=
  | bad_type l c : good l -> ctl c -> damaged n [l; tochar n; c]
  | bad_length ty p c : good ty -> Forall good p -> (length p <= 2)%nat -> ctl c ->
      damaged n ([SPACE; tochar n; ty] ++ p ++ [c])
  | bad_length_check ty hi lo c : good ty -> good hi -> good lo -> good c ->
      c <> block_check (sum [SPACE; tochar n; ty; hi; lo]) -> damaged n [SPACE; tochar n; ty; hi; lo; c]
  | bad_data h ty k p c : header n ty h k -> good ty -> Forall good p -> (length p <= k)%nat -> ctl c ->
      damaged n (h ++ p ++ [c])
  | bad_check h ty d c : header n ty h (length d) -> good ty -> Forall good d -> good c ->
      c <> block_check (sum (h ++ d)) -> damaged n (h ++ d ++ [c])
  | bad_end h ty d e : header n ty h (length d) -> good ty -> Forall good d -> e <> END_CHAR ->
      damaged n (h ++ d ++ [block_check (sum (h ++ d)); e]).

(** What the receiver gets when a packet is sent until its acknowledgement comes: any number of
    damaged ones and, when acknowledgements are lost ([dup]), of whole ones, the last one whole;
    and which of them are acknowledged. *)
Inductive delivery (dup : bool) (n ty : Z) (d : list Z) : list Z -> list bool -> Prop :=
  | delivered g w : gap g -> arrival n ty d w -> delivery dup n ty d (g ++ START_CHAR :: w) [true]
  | repeated g w i acks : dup = true -> gap g -> arrival n ty d w -> delivery dup n ty d i acks ->
      delivery dup n ty d (g ++ START_CHAR :: w ++ i) (true :: acks)
  | garbled g w i acks : gap g -> damaged n w -> delivery dup n ty d i acks ->
      delivery dup n ty d (g ++ START_CHAR :: w ++ i) (false :: acks).

(** Messages, types and data, sent with the numbers from [i] on, modulo 64. *)
Inductive transmits : nat -> list (Z * list Z) -> list Z -> list (list bool) -> Prop :=
  | transmits_nil i : transmits i [] [] []
  | transmits_cons i ty d ms w acks input ackss :
      delivery (negb (ty =? BREAK_TYPE)) (Z.of_nat i mod 64) ty d w acks -> transmits (S i) ms input ackss ->
      transmits i ((ty, d) :: ms) (w ++ input) (acks :: ackss).

(** A byte of the file, quoted if need be. *)
Definition encode (q b : Z) : list Z :=
  if (Z.land b 127 <? 32) || (Z.land b 127 =? 127) then [q; Z.lxor b 64] else if b =? q then [q; q] else [b].

(** The characters Kermit allows for the quote. *)
Definition quotable (q : Z) : Prop := 33 <= q <= 62 \/ 96 <= q <= 126.

(** What the data of the first packet asks for, and the receiver's answer. *)
Definition agreed (d : list Z) : proto :=
  let l := Z.of_nat (length d) in
  Proto (if 5 <=? l then untochar (rd d 4) else END_CHAR) (if 3 <=? l then untochar (rd d 2) else 0)
    (if 4 <=? l then ktrans (rd d 3) else 0) (if 6 <=? l then rd d 5 else K_ESCAPE).

Definition offer (d : list Z) : list Z :=
  concat (firstn (length d) [[tochar 94]; [tochar 1]; [tochar 0]; [64]; [tochar END_CHAR]; [35]; [78]; [49]; [78];
    [tochar 2; tochar 0; tochar 94; tochar 94]]).

(** A packet of the receiver. *)
Definition answer (p : proto) (n ty : Z) (d : list Z) : list Z :=
  let text := [tochar (3 + Z.of_nat (length d)); tochar n; ty] ++ d in
  repeat (his_pad_char p) (Z.to_nat (his_pad_count p)) ++ [START_CHAR] ++ text ++ [block_check (sum text)] ++
  (if his_eol p =? 0 then [] else [his_eol p]).

(** The parameters after the attempts to deliver a message, and the answers to them. *)
Definition settle (ty : Z) (d : list Z) (p : proto) : proto := if ty =? SEND_TYPE then agreed d else p.

Fixpoint answers (p : proto) (n ty : Z) (d : list Z) (acks : list bool) : list Z :=
  match acks with
  | [] => []
  | false :: acks => answer p n NACK_TYPE [] ++ answers p n ty d acks
  | true :: acks =>
    answer (settle ty d p) n ACK_TYPE (if ty =? SEND_TYPE then offer d else []) ++ answers (settle ty d p) n ty d acks
  end.

Fixpoint conversation (p : proto) (i : nat) (ms : list (Z * list Z)) (ackss : list (list bool)) : list Z :=
  match ms, ackss with
  | (ty, d) :: ms, acks :: ackss =>
    answers p (Z.of_nat i mod 64) ty d acks ++ conversation (settle ty d p) (S i) ms ackss
  | _, _ => []
  end.

(** ** Characters *)

Lemma land_ctl c : 0 <= c < 256 -> (Z.land c 224 =? 0) = (c <? 32).
Proof.
  intros Hc. apply Bool.eqb_true_iff.
  by apply (forallb_seqZ (fun c => Bool.eqb (Z.land c 224 =? 0) (c <? 32)) 256).
Qed.

Lemma good_land c : good c -> (Z.land c 224 =? 0) = false.
Proof. unfold good. intros Hc. rewrite land_ctl by lia. lia. Qed.

Lemma ctl_land c : ctl c -> (Z.land c 224 =? 0) = true.
Proof. unfold ctl. intros Hc. rewrite land_ctl by lia. lia. Qed.

Lemma getc_good s c input k : good c -> getc s (c :: input) k = k c input.
Proof. intros Hc. cbn [getc]. by rewrite good_land. Qed.

Lemma getc_ctl s c input k : ctl c -> getc s (c :: input) k = Packet_error s input.
Proof. intros Hc. cbn [getc]. by rewrite ctl_land. Qed.

Lemma block_check_good x : good (block_check x).
Proof.
  unfold block_check, good, tochar, SPACE. rewrite (land_mask _ 6) by lia.
  pose proof (Z.mod_pos_bound (x + Z.land (Z.shiftr x 6) 3) (2 ^ 6)). rewrite u8_small by lia. lia.
Qed.

Lemma tochar_small n : 0 <= n < 224 -> tochar n = n + 32.
Proof. intros Hn. unfold tochar, SPACE. by rewrite u8_small by lia. Qed.

Lemma untochar_good c : good c -> untochar c = c - 32.
Proof. unfold good. intros Hc. unfold untochar, SPACE. by rewrite u8_small by lia. Qed.

Lemma fold_sum_app l k x : fold_left Z.add (l ++ k) x = fold_left Z.add k (fold_left Z.add l x).
Proof. apply fold_left_app. Qed.

(** ** The packet reader *)

(** What the number of a packet does: back to the checkpoint, or a new one. *)
Definition at_number (x : Z) (s : krecv) : krecv :=
  let s := set_n x s in if n s =? last_n s then restore s else checkpoint s.

Lemma rest_keeps d : forall length x s input,
  Forall good d -> List.length d = Z.to_nat (length - 1) ->
  rest_of_packet length x s (d ++ input) =
  trailer (fold_left Z.add d x) (fold_left (fun s c => keep c s) d s) input.
Proof.
  induction d as [|c d IH]; intros length x s input Hd Hl; cbn [List.length app fold_left] in *.
  - destruct input; cbn [rest_of_packet]; by rewrite (proj2 (Z.ltb_ge 1 length)) by lia.
  - apply List.Forall_cons_iff in Hd as [Hc Hd]. cbn [rest_of_packet].
    rewrite (proj2 (Z.ltb_lt 1 length)), good_land by (done || lia). apply IH; [done|lia].
Qed.

Lemma rest_ctl p : forall length x s c input,
  Forall good p -> (List.length p <= Z.to_nat (length - 1))%nat -> ctl c ->
  rest_of_packet length x s (p ++ c :: input) = Packet_error (fold_left (fun s c => keep c s) p s) input.
Proof.
  induction p as [|k p IH]; intros length x s c input Hp Hl Hc; cbn [List.length app fold_left] in *.
  - cbn [rest_of_packet]. destruct (1 <? length); [by rewrite ctl_land|]. by apply getc_ctl.
  - apply List.Forall_cons_iff in Hp as [Hk Hp]. cbn [rest_of_packet].
    rewrite (proj2 (Z.ltb_lt 1 length)), good_land by (done || lia). apply IH; [done|lia|done].
Qed.

Lemma trailer_good x s input : trailer x s (block_check x :: END_CHAR :: input) = Received s input.
Proof. unfold trailer. rewrite getc_good by apply block_check_good. by rewrite Z.eqb_refl. Qed.

Lemma trailer_bad_check x s c input : good c -> c <> block_check x -> trailer x s (c :: input) = Packet_error s input.
Proof. intros Hc Hx. unfold trailer. rewrite getc_good by done. by rewrite (proj2 (Z.eqb_neq _ _)). Qed.

Lemma trailer_bad_end x s e input : e <> END_CHAR -> trailer x s (block_check x :: e :: input) = Packet_error s input.
Proof.
  intros He. unfold trailer. rewrite getc_good by apply block_check_good. rewrite Z.eqb_refl. cbn [negb].
  by rewrite (proj2 (Z.eqb_neq _ _)).
Qed.

(** What the header of a packet leads to. *)
Lemma packet_start x s l input :
  0 <= x < 224 -> good l ->
  packet s (l :: tochar x :: input) =
  getc (at_number x s) input (fun new_char input =>
    let s := set_state new_char (at_number x s) in
    let sum := l + tochar x + new_char in
    let length := l - 34 in
    if length =? -2 then
      getc s input (fun hi input =>
      getc s input (fun lo input =>
      getc s input (fun new_char input =>
      if negb (new_char =? block_check (sum + hi + lo)) then Packet_error s input
      else rest_of_packet (untochar hi * 95 + untochar lo) (sum + hi + lo + new_char) s input)))
    else rest_of_packet length sum s input).
Proof.
  intros Hx Hl. unfold packet. rewrite getc_good by done.
  assert (Ht : good (tochar x)) by (rewrite tochar_small by done; unfold good; lia).
  rewrite getc_good by done. rewrite (untochar_good (tochar x)), (tochar_small x), (untochar_good l) by done.
  replace (x + 32 - 32) with x by lia. fold (at_number x s). by replace (l - 32 - 1 - 1) with (l - 34) by lia.
Qed.

Lemma packet_header x ty h k s input :
  0 <= x < 224 -> header x ty h k -> good ty ->
  exists length, k = Z.to_nat (length - 1) /\
    packet s (h ++ input) = rest_of_packet length (sum h) (set_state ty (at_number x s)) input.
Proof.
  intros Hx Hh Hty. destruct Hh as [l Hl Hne|hi lo Hhi Hlo h]; unfold SPACE in *.
  - exists (l - 34). split; [lia|]. cbn [app]. rewrite packet_start by done. rewrite getc_good by done. cbn zeta.
    by rewrite (proj2 (Z.eqb_neq _ _)) by lia.
  - exists ((hi - 32) * 95 + (lo - 32)). split; [done|]. unfold h. cbn [app].
    rewrite packet_start by (done || (unfold good; lia)). rewrite getc_good by done. cbn zeta.
    change (32 - 34 =? -2) with true. cbv iota. rewrite !getc_good by (done || apply block_check_good).
    change (32 + tochar x + ty + hi + lo) with (sum [32; tochar x; ty; hi; lo]).
    by rewrite Z.eqb_refl, !untochar_good.
Qed.

(** What the data of a packet may change: nothing below [a], and only what is restored after
    an error. *)
Record writes (a : Z) (s s' : krecv) : Prop := {
  wr_pr : pr s' = pr s;
  wr_saved : saved s' = saved s;
  wr_n : n s' = n s;
  wr_last : last_n s' = last_n s;
  wr_sent : sent s' = sent s;
  wr_data : forall b, b < a -> data s' b = data s b;
  wr_addr : a <= os_data_addr (cur s') }.

Lemma writes_refl a s : a <= os_data_addr (cur s) -> writes a s s.
Proof. by split. Qed.

Lemma writes_trans a s1 s2 s3 : writes a s1 s2 -> writes a s2 s3 -> writes a s1 s3.
Proof.
  intros [] []. split; try congruence. intros b Hb. by rewrite wr_data1, wr_data0.
Qed.

Lemma writes_state a x s : a <= os_data_addr (cur s) -> writes a s (set_state x s).
Proof. by split. Qed.

Lemma writes_char a c s : a <= os_data_addr (cur s) -> writes a s (os_data_char c s).
Proof.
  intros Ha. unfold os_data_char. destruct (_ =? 0); [|by apply writes_refl].
  split; try done; cbn; [|lia]. intros b Hb. apply upd_ne. lia.
Qed.

Lemma writes_escape a e s : a <= os_data_addr (cur s) -> writes a s (set_escape e s).
Proof. by split. Qed.

Lemma writes_keep a c s : a <= os_data_addr (cur s) -> writes a s (keep c s).
Proof.
  intros Ha. unfold keep, k_data_char. destruct (_ =? DATA_TYPE).
  - destruct (k_data_escape (cur s)).
    + eapply writes_trans; [by apply (writes_char a (ktrans c))|]. apply writes_escape. by eapply wr_addr, writes_char.
    + destruct (_ =? _); [by apply writes_escape|by apply writes_char].
  - destruct (_ =? SEND_TYPE); by split.
Qed.

Lemma writes_fold a d : forall s, a <= os_data_addr (cur s) -> writes a s (fold_left (fun s c => keep c s) d s).
Proof.
  induction d as [|c d IH]; intros s Ha; [by apply writes_refl|]. cbn [fold_left].
  pose proof (writes_keep a c s Ha) as Hk. eapply writes_trans; [done|]. apply IH, Hk.
Qed.

Lemma damaged_error x w s rest a :
  0 <= x < 224 -> damaged x w -> a <= os_data_addr (cur (at_number x s)) ->
  exists s', packet s (w ++ rest) = Packet_error s' rest /\ writes a (at_number x s) s'.
Proof.
  intros Hx Hw Ha.
  assert (Hfold : forall ty d, writes a (at_number x s)
    (fold_left (fun s c => keep c s) d (set_state ty (at_number x s)))).
  { intros ty d. apply (writes_trans _ _ (set_state ty (at_number x s))); [by apply writes_state|by apply writes_fold]. }
  destruct Hw as [l c Hl Hc|ty p c Hty Hp Hlen Hc|ty hi lo c Hty Hhi Hlo Hc Hne|h ty k p c Hh Hty Hp Hk Hc
    |h ty d c Hh Hty Hd Hc Hne|h ty d e Hh Hty Hd He].
  - cbn [app]. rewrite packet_start by done. rewrite getc_ctl by done. eexists. split; [done|]. by apply writes_refl.
  - cbn [app]. rewrite packet_start by (done || (unfold good, SPACE; lia)). rewrite getc_good by done. cbn zeta.
    change (SPACE - 34 =? -2) with true. cbv iota.
    destruct p as [|hi [|lo [|? ?]]]; cbn [List.length] in Hlen; [| | |lia]; cbn [app];
      rewrite ?List.Forall_cons_iff in Hp; destruct_and?; rewrite ?getc_good, getc_ctl by done;
      (eexists; split; [done|by apply writes_state]).
  - cbn [app]. rewrite packet_start by (done || (unfold good, SPACE; lia)). rewrite getc_good by done. cbn zeta.
    change (SPACE - 34 =? -2) with true. cbv iota. rewrite !getc_good by done.
    change (SPACE + tochar x + ty + hi + lo) with (sum [SPACE; tochar x; ty; hi; lo]).
    rewrite (proj2 (Z.eqb_neq _ _)) by done. cbn [negb]. eexists. split; [done|by apply writes_state].
  - destruct (packet_header x ty h k s (p ++ c :: rest) Hx Hh Hty) as (length & -> & E).
    rewrite <- !app_assoc. cbn [app]. rewrite E, rest_ctl by done. eexists. by split.
  - destruct (packet_header x ty h _ s (d ++ c :: rest) Hx Hh Hty) as (length & Hk & E).
    rewrite <- !app_assoc. cbn [app]. rewrite E, rest_keeps by done. unfold sum in *. rewrite fold_sum_app in Hne.
    rewrite trailer_bad_check by done. eexists. by split.
  - destruct (packet_header x ty h _ s (d ++ block_check (sum (h ++ d)) :: e :: rest) Hx Hh Hty) as (length & Hk & E).
    rewrite <- !app_assoc. cbn [app]. rewrite E, rest_keeps by done. unfold sum. rewrite fold_sum_app.
    rewrite trailer_bad_end by done. eexists. by split.
Qed.

Lemma arrival_received x ty d w s rest :
  0 <= x < 224 -> arrival x ty d w ->
  packet s (w ++ rest) = Received (fold_left (fun s c => keep c s) d (set_state ty (at_number x s))) rest.
Proof.
  intros Hx [h Hh Hty Hd].
  destruct (packet_header x ty h _ s (d ++ block_check (sum (h ++ d)) :: END_CHAR :: rest) Hx Hh Hty) as (length & Hk & E).
  rewrite <- !app_assoc. cbn [app]. rewrite E, rest_keeps by done. unfold sum. rewrite fold_sum_app. by apply trailer_good.
Qed.

(** ** Answers *)

Lemma upto_nul_app l k : Forall (fun c => c <> 0) l -> upto_nul (l ++ k) = l ++ upto_nul k.
Proof.
  induction l as [|c l IH]; intros Hl; [done|]. apply List.Forall_cons_iff in Hl as [Hc Hl].
  cbn [app upto_nul]. rewrite (proj2 (Z.eqb_neq c 0)) by done. by rewrite IH.
Qed.

Lemma nonzero_upto l : Forall (fun c => c <> 0) l -> upto_nul l = l.
Proof. intros Hl. rewrite <- (app_nil_r l) at 1. rewrite upto_nul_app by done. by rewrite app_nil_r. Qed.

Lemma sends_answer x ty d s :
  0 <= x < 224 -> ty <> 0 -> Forall (fun c => c <> 0) d -> (length d <= 13)%nat ->
  s1_sendpacket (a_b (3 + Z.of_nat (length d)) x ty d (his_eol (pr s))) s = putc (answer (pr s) x ty d) s.
Proof.
  intros Hx Hty Hd Hl. unfold s1_sendpacket, send_pad, a_b, answer, putc. cbn zeta. cbn [data pr cur saved send_parms
    send_ptr k_state k_state_saved n last_n sent].
  set (text := [tochar (3 + Z.of_nat (length d)); tochar x; ty] ++ d).
  assert (Ht : Forall (fun c => c <> 0) text).
  { unfold text. rewrite !tochar_small by lia. cbn [app]. repeat (apply List.Forall_cons; [lia|]). done. }
  assert (Hc : tochar (chk1 text) = block_check (sum text)) by (unfold chk1; by rewrite nonzero_upto).
  rewrite Hc. pose proof (block_check_good (sum text)) as Hb. unfold good in Hb.
  rewrite (upto_nul_app [START_CHAR]), (upto_nul_app text) by (done || (by apply List.Forall_cons)).
  cbn [upto_nul]. rewrite (proj2 (Z.eqb_neq (block_check _) 0)) by lia. rewrite <- app_assoc.
  by destruct (his_eol (pr s) =? 0).
Qed.

Lemma send_ack_answer x s : 0 <= x < 224 -> send_ack x s = putc (answer (pr s) x ACK_TYPE []) s.
Proof. intros Hx. apply (sends_answer x ACK_TYPE []); [done|done|by constructor|cbn; lia]. Qed.

Lemma send_nack_answer x s : 0 <= x < 224 -> send_nack x s = putc (answer (pr s) x NACK_TYPE []) s.
Proof. intros Hx. apply (sends_answer x NACK_TYPE []); [done|done|by constructor|cbn; lia]. Qed.

(** ** The first packet *)

Lemma keep_parms d s :
  k_state s = SEND_TYPE -> send_ptr s = 0 ->
  let s' := fold_left (fun s c => keep c s) d s in
  (k_state s' = SEND_TYPE /\ cur s' = cur s /\ data s' = data s) /\
  send_ptr s' = Z.min (Z.of_nat (length d)) 19 /\
  (forall i, 0 <= i < Z.min (Z.of_nat (length d)) 19 -> send_parms s' i = rd d i).
Proof.
  intros Hk Hp. induction d as [|c d IH] using rev_ind.
  - cbn. split_and!; try done. lia.
  - rewrite fold_left_app. cbn [fold_left]. cbn zeta in IH. set (s1 := fold_left _ d s) in *.
    destruct IH as ((Hk1 & Hc1 & Hd1) & Hp1 & Hs1). unfold keep. rewrite Hk1. cbn [Z.eqb Pos.eqb SEND_TYPE DATA_TYPE].
    cbn [set_parms k_state cur data send_ptr send_parms]. split_and!; try done.
    + rewrite length_app, Hp1. unfold SEND_DATA_SIZE. cbn [length]. destruct (Z.leb_spec 20 (Z.min (Z.of_nat (length d)) 19 + 1)); lia.
    + intros i Hi. rewrite length_app in Hi. cbn [length] in Hi. unfold rd in *.
      destruct (Z.eq_dec i (Z.of_nat (length d))) as [->|Hne].
      * rewrite Hp1, Z.min_l by lia. rewrite upd_eq, Nat2Z.id, app_nth2, Nat.sub_diag by lia. done.
      * rewrite app_nth1 by lia. rewrite Hp1. destruct (Z.eq_dec i (Z.min (Z.of_nat (length d)) 19)); [lia|].
        rewrite upd_ne by done. apply Hs1. lia.
Qed.

Lemma crack_spec parms d bytes :
  bytes = Z.min (Z.of_nat (length d)) 18 -> (forall i, 0 <= i < Z.min (Z.of_nat (length d)) 19 -> parms i = rd d i) ->
  crack bytes (parameters parms) default_proto [] = (agreed d, offer d).
Proof.
  intros -> Hp. unfold agreed, offer. unfold parameters. cbn [crack].
  do 10 (destruct d as [|? d]; [cbn in Hp |- *; rewrite ?Hp by lia; done|]).
  cbn [length] in *. set (l := Z.of_nat _) in *. assert (Hl : 10 <= l) by lia.
  repeat rewrite (proj2 (Z.leb_gt _ 0)) by lia. repeat rewrite (proj2 (Z.leb_le _ l)) by lia.
  repeat rewrite Hp by lia. cbn. by rewrite firstn_nil.
Qed.

Lemma offer_nonzero d : Forall (fun c => c <> 0) (offer d) /\ (length (offer d) <= 13)%nat.
Proof.
  unfold offer. do 10 (destruct d as [|? d]; [split; [by repeat constructor|cbn; lia]|]).
  cbn [length firstn concat app]. rewrite firstn_nil. split; [by repeat constructor|cbn; lia].
Qed.

Lemma handle_send_spec x d s :
  0 <= x < 224 -> send_ptr s = Z.min (Z.of_nat (length d)) 19 ->
  (forall i, 0 <= i < Z.min (Z.of_nat (length d)) 19 -> send_parms s i = rd d i) ->
  handle_send_packet x s =
  putc (answer (agreed d) x ACK_TYPE (offer d))
    (set_pr (agreed d) (set_parms (send_parms s) (Z.min (Z.of_nat (length d)) 18) s)).
Proof.
  intros Hx Hptr Hp. unfold handle_send_packet. cbn zeta. cbn [set_parms send_parms].
  assert (E : (if send_ptr s =? SEND_DATA_SIZE - 1 then send_ptr s - 1 else send_ptr s) = Z.min (Z.of_nat (length d)) 18).
  { unfold SEND_DATA_SIZE. rewrite Hptr. destruct (Z.eqb_spec (Z.min (Z.of_nat (length d)) 19) (20 - 1)); lia. }
  rewrite E, (crack_spec _ d) by done. pose proof (offer_nonzero d) as [Ho Hl].
  by apply (sends_answer x ACK_TYPE (offer d) (set_pr (agreed d) _)).
Qed.

(** ** The data *)

(** What the receiver has decoded, [q] being the quote: whether a quote is pending, and the bytes. *)
Definition feed (q : Z) (t : bool * list Z) (c : Z) : bool * list Z :=
  let '(e, bs) := t in
  if e then (false, bs ++ [ktrans c]) else if c =? q then (true, bs) else (false, bs ++ [c]).

Definition place (start : Z) (t : bool * list Z) : cursor := Cursor (fst t) 0 (start + Z.of_nat (length (snd t))).

Lemma feed_app q d : forall t, exists l, snd (fold_left (feed q) d t) = snd t ++ l.
Proof.
  induction d as [|c d IH]; intros [e bs]; cbn [fold_left]; [exists []; by rewrite app_nil_r|].
  destruct (IH (feed q (e, bs) c)) as [l Hl]. rewrite Hl. unfold feed.
  destruct e; [|destruct (c =? q)]; cbn [snd]; rewrite <- ?app_assoc; by eexists.
Qed.

Lemma os_data_char_holds start c e bs s :
  cur s = place start (e, bs) -> holds (data s) start bs ->
  let s' := os_data_char c s in
  cur s' = place start (e, bs ++ [c]) /\ holds (data s') start (bs ++ [c]).
Proof.
  intros Hc Hd. unfold os_data_char. rewrite Hc. cbn. split.
  - unfold place. cbn [fst snd]. rewrite length_app. cbn [length]. f_equal. lia.
  - apply holds_app. split; [|apply holds_cons; split; [apply upd_eq|done]].
    revert Hd. apply holds_ext. intros b Hb. apply upd_ne. lia.
Qed.

Lemma keep_data start c t s :
  k_state s = DATA_TYPE -> cur s = place start t -> holds (data s) start (snd t) ->
  let s' := keep c s in
  k_state s' = DATA_TYPE /\ pr s' = pr s /\ cur s' = place start (feed (his_quote (pr s)) t c) /\
  holds (data s') start (snd (feed (his_quote (pr s)) t c)).
Proof.
  intros Hk Hc Hd. destruct t as [e bs]. unfold keep. rewrite Hk. cbn [Z.eqb Pos.eqb DATA_TYPE]. unfold k_data_char.
  destruct (os_data_char_holds start (ktrans c) e bs s Hc Hd) as [Hc1 Hd1].
  destruct (os_data_char_holds start c e bs s Hc Hd) as [Hc2 Hd2].
  assert (Hpr : forall c, k_state (os_data_char c s) = k_state s /\ pr (os_data_char c s) = pr s)
    by (intros c'; unfold os_data_char; by destruct (_ =? 0)).
  rewrite Hc. cbn [place k_data_escape fst feed]. destruct e; [|destruct (c =? his_quote (pr s))]; cbn [set_escape set_data k_state pr cur data].
  - destruct (Hpr (ktrans c)) as [-> ->]. rewrite Hc1. split_and!; done.
  - rewrite Hc. split_and!; done.
  - destruct (Hpr c) as [-> ->]. split_and!; done.
Qed.

Lemma keep_file start d : forall t s,
  k_state s = DATA_TYPE -> cur s = place start t -> holds (data s) start (snd t) ->
  let s' := fold_left (fun s c => keep c s) d s in
  k_state s' = DATA_TYPE /\ pr s' = pr s /\ cur s' = place start (fold_left (feed (his_quote (pr s))) d t) /\
  holds (data s') start (snd (fold_left (feed (his_quote (pr s))) d t)).
Proof.
  induction d as [|c d IH]; intros t s Hk Hc Hd; [by cbn|]. cbn [fold_left].
  destruct (keep_data start c t s Hk Hc Hd) as (Hk1 & Hp1 & Hc1 & Hd1).
  destruct (IH _ (keep c s) Hk1 Hc1 Hd1) as (Hk2 & Hp2 & Hc2 & Hd2). rewrite Hp1 in *. by split_and!.
Qed.

(** Quoting and its inverse. *)
Lemma ktrans_lxor b : 0 <= b < 256 -> (Z.land b 127 <? 32) || (Z.land b 127 =? 127) = true -> ktrans (Z.lxor b 64) = b.
Proof.
  intros Hb Hc.
  assert (H := forallb_seqZ (fun b => negb ((Z.land b 127 <? 32) || (Z.land b 127 =? 127)) || (ktrans (Z.lxor b 64) =? b)) 256 b).
  cbv beta in H. rewrite Hc in H. cbn [negb orb] in H. apply Z.eqb_eq, H; [by vm_compute|lia].
Qed.

Lemma ktrans_quote q : quotable q -> ktrans q = q.
Proof.
  intros Hq. unfold quotable in Hq.
  assert (H := forallb_seqZ (fun q => (q <? 33) || (62 <? q) && (q <? 96) || (126 <? q) || (ktrans q =? q)) 256 q).
  cbv beta in H. specialize (H ltac:(by vm_compute) ltac:(lia)). lia.
Qed.

Lemma feed_encode q b bs : quotable q -> is_byte b -> fold_left (feed q) (encode q b) (false, bs) = (false, bs ++ [b]).
Proof.
  intros Hq Hb. unfold is_byte in Hb. unfold encode. destruct (_ || _) eqn:Hc; [|destruct (Z.eqb_spec b q) as [->|Hne]]; cbn [fold_left feed].
  - rewrite Z.eqb_refl. cbn [fold_left feed]. by rewrite ktrans_lxor.
  - rewrite Z.eqb_refl. cbn [fold_left feed]. by rewrite ktrans_quote.
  - by rewrite (proj2 (Z.eqb_neq _ _)).
Qed.

Lemma feed_file q file : forall bs, quotable q -> Forall is_byte file ->
  fold_left (feed q) (concat (map (encode q) file)) (false, bs) = (false, bs ++ file).
Proof.
  induction file as [|b file IH]; intros bs Hq Hf; cbn [map concat fold_left]; [by rewrite app_nil_r|].
  apply List.Forall_cons_iff in Hf as [Hb Hf]. rewrite fold_left_app, feed_encode, IH by done. by rewrite <- app_assoc.
Qed.

(** ** Attempts *)

(** The receiver goes from [s] to [s'] while it reads [input] up to [rest]. *)
Definition runs (start : Z) (s : krecv) (input : list Z) (s' : krecv) (rest : list Z) : Prop :=
  forall fuel, (length input < fuel)%nat ->
  exists fuel', (length rest < fuel')%nat /\ recv_loop fuel start s input = recv_loop fuel' start s' rest.

Lemma runs_trans start s1 i1 s2 i2 s3 i3 : runs start s1 i1 s2 i2 -> runs start s2 i2 s3 i3 -> runs start s1 i1 s3 i3.
Proof.
  intros H1 H2 fuel Hf. destruct (H1 fuel Hf) as (f1 & Hf1 & ->). by apply H2.
Qed.

(** Before an attempt to send message [x]: the receiver is where the data before it ended, or
    will go back there. *)
Record poised (start x : Z) (t : bool * list Z) (s : krecv) : Prop := {
  po_cur : if last_n s =? x then saved s = place start t else cur s = place start t;
  po_data : holds (data s) start (snd t) }.

Lemma at_number_poised start x t s :
  poised start x t s ->
  let s1 := at_number x (set_parms (send_parms s) 0 s) in
  (cur s1 = place start t /\ saved s1 = place start t) /\ (n s1 = x /\ last_n s1 = x) /\
  (pr s1 = pr s /\ sent s1 = sent s /\ data s1 = data s /\ send_ptr s1 = 0).
Proof.
  intros [Hc Hd]. unfold at_number. cbn. destruct (Z.eqb_spec x (last_n s)) as [->|Hne].
  - rewrite Z.eqb_refl in Hc. by split_and!.
  - rewrite (proj2 (Z.eqb_neq _ _)) in Hc by congruence. by split_and!.
Qed.

Lemma wait_gap g i : gap g -> wait_start (g ++ START_CHAR :: i) = Some (true, i).
Proof.
  induction g as [|c g IH]; intros Hg; [done|]. apply List.Forall_cons_iff in Hg as [[H1 H3] Hg].
  cbn [app wait_start]. rewrite (proj2 (Z.eqb_neq c START_CHAR)), (proj2 (Z.eqb_neq c ETX_CHAR)) by done. by apply IH.
Qed.

Lemma input_shrinks (g w rest : list Z) fuel :
  (length (g ++ START_CHAR :: w ++ rest) < S fuel)%nat -> (length rest < fuel)%nat.
Proof. rewrite length_app. cbn [length]. rewrite length_app. lia. Qed.

Lemma garbled_runs start x t s g w rest :
  0 <= x < 64 -> poised start x t s -> gap g -> damaged x w ->
  exists s', runs start s (g ++ START_CHAR :: w ++ rest) s' rest /\ poised start x t s' /\
    pr s' = pr s /\ sent s' = sent s ++ answer (pr s) x NACK_TYPE [].
Proof.
  intros Hx Hpo Hg Hw. destruct (at_number_poised _ _ _ _ Hpo) as ([Hc Hs] & [Hn Hl] & Hp & Ho & Hd & _).
  set (s0 := set_parms (send_parms s) 0 s) in *.
  destruct (damaged_error x w s0 rest (start + Z.of_nat (length (snd t)))) as (s1 & E & Hw1);
    [lia|done|by rewrite Hc|]. destruct Hw1 as [Wp Ws Wn Wl Wo Wd _].
  exists (send_nack x (restore s1)). split_and!.
  - intros [|fuel] Hf; [lia|]. exists fuel. split; [by apply (input_shrinks g w)|].
    cbn [recv_loop]. rewrite wait_gap by done. fold s0. rewrite E. change (n (restore s1)) with (n s1). by rewrite Wn, Hn.
  - rewrite send_nack_answer by lia. split; cbn [putc restore last_n saved data].
    + rewrite Wl, Hl, Z.eqb_refl, Ws. done.
    + destruct Hpo as [_ Hold]. revert Hold. apply holds_ext. intros b Hb. rewrite Wd by lia. by rewrite Hd.
  - rewrite send_nack_answer by lia. cbn. by rewrite Wp.
  - rewrite send_nack_answer by lia. cbn. by rewrite Wo, Wp, Ho, Hp.
Qed.

(** The data after a message. *)
Definition data_after (q ty : Z) (d : list Z) (t : bool * list Z) : bool * list Z :=
  if ty =? DATA_TYPE then fold_left (feed q) d t else t.

(** What the fields of a received packet are. *)
Lemma received_state start x ty d t s :
  0 <= x < 64 -> poised start x t s -> 
  let s1 := fold_left (fun s c => keep c s) d (set_state ty (at_number x (set_parms (send_parms s) 0 s))) in
  (n s1 = x /\ last_n s1 = x /\ saved s1 = place start t) /\ (pr s1 = pr s /\ sent s1 = sent s) /\ k_state s1 = ty /\
  cur s1 = place start (data_after (his_quote (pr s)) ty d t) /\
  holds (data s1) start (snd (data_after (his_quote (pr s)) ty d t)).
Proof.
  intros Hx Hpo. destruct (at_number_poised _ _ _ _ Hpo) as ([Hc Hs] & [Hn Hl] & Hp & Ho & Hd & Hptr).
  set (s0 := at_number _ _) in *. set (s0' := set_state ty s0).
  assert (Hcur : os_data_addr (cur s0') = start + Z.of_nat (length (snd t))) by (cbn; by rewrite Hc).
  pose proof (writes_fold (os_data_addr (cur s0')) d s0' ltac:(lia)) as Hw. destruct Hw as [Wp Ws Wn Wl Wo _ _].
  destruct Hpo as [_ Hold]. assert (Hh : holds (data s0') start (snd t)) by (cbn; by rewrite Hd).
  cbn zeta. rewrite Wn, Wl, Ws, Wp, Wo. split; [by split_and!|]. split; [by split_and!|].
  unfold data_after. destruct (Z.eqb_spec ty DATA_TYPE) as [->|Hty].
  - destruct (keep_file start d t s0' eq_refl Hc Hh) as (Hk & _ & Hc1 & Hd1). cbn [pr set_state s0'] in *. rewrite Hp in *. done.
  - assert (Hkeep : forall d s, k_state s = ty -> let s' := fold_left (fun s c => keep c s) d s in
      k_state s' = ty /\ cur s' = cur s /\ data s' = data s).
    { clear - Hty. induction d as [|c d IH]; intros s Hk; [done|]. cbn [fold_left].
      assert (E : k_state (keep c s) = ty /\ cur (keep c s) = cur s /\ data (keep c s) = data s).
      { unfold keep. rewrite Hk, (proj2 (Z.eqb_neq _ _)) by done. by destruct (_ =? SEND_TYPE). }
      destruct E as (E1 & E2 & E3). destruct (IH (keep c s) E1) as (F1 & F2 & F3). rewrite E2, E3 in *. done. }
    destruct (Hkeep d s0' eq_refl) as (E1 & E2 & E3). rewrite E1, E2, E3. by rewrite <- Hc.
Qed.

(** The receiver after message [x] with the answers [o]. *)
Record settled (start x : Z) (t t' : bool * list Z) (p : proto) (o : list Z) (s s' : krecv) : Prop := {
  se_last : last_n s' = x;
  se_saved : saved s' = place start t;
  se_cur : cur s' = place start t';
  se_data : holds (data s') start (snd t');
  se_pr : pr s' = p;
  se_sent : sent s' = sent s ++ o }.

Lemma settled_poised start x q ty d t p o s s' :
  settled start x t (data_after q ty d t) p o s s' -> poised start x t s'.
Proof.
  intros [Hl Hs _ Hd _ _]. split; [by rewrite Hl, Z.eqb_refl|]. revert Hd. unfold data_after.
  destruct (ty =? DATA_TYPE); [|done]. destruct (feed_app q d t) as [l ->]. by intros [Hd _]%holds_app.
Qed.

Lemma arrival_runs start x ty d t s g w rest :
  0 <= x < 64 -> ty <> BREAK_TYPE -> poised start x t s -> gap g -> arrival x ty d w ->
  exists s', runs start s (g ++ START_CHAR :: w ++ rest) s' rest /\
    settled start x t (data_after (his_quote (pr s)) ty d t) (settle ty d (pr s))
      (answer (settle ty d (pr s)) x ACK_TYPE (if ty =? SEND_TYPE then offer d else [])) s s'.
Proof.
  intros Hx Hty Hpo Hg Hw. pose proof (arrival_received x ty d w (set_parms (send_parms s) 0 s) rest ltac:(lia) Hw) as E.
  destruct (received_state start x ty d t s Hx Hpo) as ((Hn & Hl & Hs) & (Hp & Ho) & Hk & Hc & Hd).
  set (s1 := fold_left _ d _) in *.
  assert (Hruns : forall s', (if ty =? SEND_TYPE then handle_send_packet x s1 else send_ack x s1) = s' ->
    runs start s (g ++ START_CHAR :: w ++ rest) s' rest).
  { intros s' Hs' [|fuel] Hf; [lia|]. exists fuel. split; [by apply (input_shrinks g w)|].
    cbn [recv_loop]. rewrite wait_gap, E by done. rewrite Hk, Hn. unfold settle. destruct (ty =? SEND_TYPE); [by rewrite Hs'|].
    rewrite Hs'. replace (k_state s') with ty by (rewrite <- Hs', <- Hk; unfold send_ack, s1_sendpacket; by destruct s1).
    by rewrite (proj2 (Z.eqb_neq _ _)). }
  unfold settle. destruct (Z.eqb_spec ty SEND_TYPE) as [->|Hsend].
  - destruct (at_number_poised _ _ _ _ Hpo) as (_ & _ & _ & _ & _ & Hptr).
    destruct (keep_parms d (set_state SEND_TYPE (at_number x (set_parms (send_parms s) 0 s))) eq_refl Hptr) as (_ & Hptr1 & Hparms).
    fold s1 in Hptr1, Hparms. eexists. split; [by apply Hruns|]. rewrite (handle_send_spec x d) by (done || lia).
    split; cbn; try done. by rewrite Ho.
  - eexists. split; [by apply Hruns|]. rewrite send_ack_answer by lia. split; cbn; try done. by rewrite Ho, Hp.
Qed.

Lemma settle_idem ty d p : settle ty d (settle ty d p) = settle ty d p.
Proof. unfold settle. by destruct (ty =? SEND_TYPE). Qed.

Lemma data_after_quote ty d t p : data_after (his_quote (settle ty d p)) ty d t = data_after (his_quote p) ty d t.
Proof. unfold data_after, settle. destruct (Z.eqb_spec ty DATA_TYPE) as [->|]; [|done]. done. Qed.

Lemma delivery_runs dup start x ty d t w acks rest :
  0 <= x < 64 -> ty <> BREAK_TYPE -> delivery dup x ty d w acks ->
  forall s, poised start x t s ->
  exists s', runs start s (w ++ rest) s' rest /\
    settled start x t (data_after (his_quote (pr s)) ty d t) (settle ty d (pr s)) (answers (pr s) x ty d acks) s s'.
Proof.
  intros Hx Hty Hdel. induction Hdel as [g w Hg Hw|g w i acks Hdup Hg Hw Hdel IH|g w i acks Hg Hw Hdel IH]; intros s Hpo.
  - rewrite <- app_assoc. cbn [app answers]. rewrite app_nil_r. by apply arrival_runs.
  - destruct (arrival_runs start x ty d t s g w (i ++ rest) Hx Hty Hpo Hg Hw) as (s1 & Hr1 & Hs1).
    destruct (IH s1 (settled_poised _ _ _ _ _ _ _ _ _ _ Hs1)) as (s2 & Hr2 & Hs2).
    exists s2. split.
    + rewrite <- app_assoc. cbn [app]. rewrite <- app_assoc. by apply (runs_trans _ _ _ s1 (i ++ rest)).
    + destruct Hs1 as [_ _ _ _ Hp1 Ho1]. rewrite Hp1, data_after_quote, settle_idem in Hs2. destruct Hs2. split; try done.
      cbn [answers]. by rewrite se_sent0, Ho1, app_assoc.
  - destruct (garbled_runs start x t s g w (i ++ rest) Hx Hpo Hg Hw) as (s1 & Hr1 & Hpo1 & Hp1 & Ho1).
    destruct (IH s1 Hpo1) as (s2 & Hr2 & Hs2).
    exists s2. split.
    + rewrite <- app_assoc. cbn [app]. rewrite <- app_assoc. by apply (runs_trans _ _ _ s1 (i ++ rest)).
    + rewrite Hp1 in Hs2. destruct Hs2. split; try done. cbn [answers]. by rewrite se_sent0, Ho1, app_assoc.
Qed.

(** The last message. *)
Lemma delivery_returns start x d t w acks rest :
  0 <= x < 64 -> delivery false x BREAK_TYPE d w acks ->
  forall s, poised start x t s ->
  exists s', (forall fuel, (length (w ++ rest) < fuel)%nat ->
      recv_loop fuel start s (w ++ rest) = Some (Returns s' (s32 (Z.of_nat (length (snd t)))) rest)) /\
    holds (data s') start (snd t) /\ sent s' = sent s ++ answers (pr s) x BREAK_TYPE d acks.
Proof.
  intros Hx Hdel. remember false as dup eqn:Hdup.
  induction Hdel as [g w Hg Hw|g w i acks Hd Hg Hw Hdel IH|g w i acks Hg Hw Hdel IH]; intros s Hpo; [|congruence|].
  - pose proof (arrival_received x _ d w (set_parms (send_parms s) 0 s) rest ltac:(lia) Hw) as E.
    destruct (received_state start x BREAK_TYPE d t s Hx Hpo) as ((Hn & Hl & Hs) & (Hp & Ho) & Hk & Hc & Hd).
    set (s1 := fold_left _ d _) in *. exists (send_ack x s1). split_and!.
    + intros [|fuel] Hf; [lia|]. cbn [recv_loop]. rewrite <- app_assoc. cbn [app]. rewrite wait_gap, E by done.
      rewrite Hk, Hn. cbn [Z.eqb Pos.eqb BREAK_TYPE SEND_TYPE].
      rewrite send_ack_answer by lia. cbn [putc k_state cur]. rewrite Hk, Hc. cbn. do 3 f_equal. lia.
    + rewrite send_ack_answer by lia. done.
    + rewrite send_ack_answer by lia. cbn. by rewrite Ho, Hp, app_nil_r.
  - destruct (garbled_runs start x t s g w (i ++ rest) Hx Hpo Hg Hw) as (s1 & Hr1 & Hpo1 & Hp1 & Ho1).
    destruct (IH s1 Hpo1) as (s2 & Hr2 & Hd2 & Ho2). exists s2. split_and!.
    + intros fuel Hf. rewrite <- app_assoc in *. cbn [app] in *. rewrite <- app_assoc in *.
      destruct (Hr1 fuel Hf) as (fuel' & Hf' & ->). by apply Hr2.
    + done.
    + cbn [answers]. by rewrite Ho2, Ho1, Hp1, app_assoc.
Qed.

(** Messages without parameters and without an end. *)
Lemma transmits_runs start i ms input ackss rest :
  transmits i ms input ackss -> Forall (fun m => fst m <> SEND_TYPE /\ fst m <> BREAK_TYPE) ms ->
  forall t s, cur s = place start t -> holds (data s) start (snd t) -> last_n s <> Z.of_nat i mod 64 ->
  exists s', runs start s (input ++ rest) s' rest /\
    let t' := fold_left (feed (his_quote (pr s))) (concat (map (fun m => if fst m =? DATA_TYPE then snd m else []) ms)) t in
    cur s' = place start t' /\ holds (data s') start (snd t') /\ last_n s' <> Z.of_nat (i + length ms) mod 64 /\
    pr s' = pr s /\ sent s' = sent s ++ conversation (pr s) i ms ackss.
Proof.
  intros Htr. induction Htr as [i|i ty d ms w acks input ackss Hdel Htr IH]; intros Hms t s Hc Hd Hl.
  - exists s. cbn. rewrite Nat.add_0_r, app_nil_r. split; [|done]. intros fuel Hf. by exists fuel.
  - apply List.Forall_cons_iff in Hms as [[Hs Hb] Hms]. cbn [fst] in *.
    assert (Hx : 0 <= Z.of_nat i mod 64 < 64) by (apply Z.mod_pos_bound; lia).
    assert (Hpo : poised start (Z.of_nat i mod 64) t s) by (split; [by rewrite (proj2 (Z.eqb_neq _ _))|done]).
    destruct (delivery_runs _ start _ ty d t w acks (input ++ rest) Hx Hb Hdel s Hpo) as (s1 & Hr1 & [H1 _ H3 H4 H5 H6]).
    assert (Hset : settle ty d (pr s) = pr s) by (unfold settle; by rewrite (proj2 (Z.eqb_neq _ _))). rewrite Hset in *.
    destruct (IH Hms _ s1 H3 H4) as (s2 & Hr2 & E1 & E2 & E3 & E4 & E5).
    { rewrite H1, Nat2Z.inj_succ. intros Heq. apply (f_equal (fun z => (z - Z.of_nat i) mod 64)) in Heq.
      rewrite Zminus_mod_idemp_l, Zminus_mod_idemp_l, Z.sub_diag in Heq.
      replace (Z.succ (Z.of_nat i) - Z.of_nat i) with 1 in Heq by lia. done. }
    exists s2. split; [rewrite <- app_assoc; by apply (runs_trans _ _ _ s1 (input ++ rest))|].
    cbn [map concat fold_left length conversation fst snd]. rewrite Hset.
    assert (Hq : fold_left (feed (his_quote (pr s))) (if ty =? DATA_TYPE then d else []) t = data_after (his_quote (pr s)) ty d t)
      by (unfold data_after; by destruct (ty =? DATA_TYPE)).
    rewrite fold_left_app, Hq. rewrite H5 in *. cbn zeta in *. split_and!; try done.
    + by rewrite Nat.add_succ_r.
    + by rewrite E5, H6, app_assoc.
Qed.

Lemma transmits_app ms1 : forall i ms2 input ackss,
  transmits i (ms1 ++ ms2) input ackss ->
  exists i1 i2 a1 a2, input = i1 ++ i2 /\ ackss = a1 ++ a2 /\ length a1 = length ms1 /\
    transmits i ms1 i1 a1 /\ transmits (i + length ms1) ms2 i2 a2.
Proof.
  induction ms1 as [|m ms1 IH]; intros i ms2 input ackss Htr.
  - exists [], input, [], ackss. rewrite Nat.add_0_r. split_and!; try done. constructor.
  - cbn [app] in Htr. inversion Htr as [|? ty d ? w acks inp ackss' Hdel Htr']; subst.
    destruct (IH _ _ _ _ Htr') as (i1 & i2 & a1 & a2 & -> & -> & Hl & H1 & H2).
    exists (w ++ i1), i2, (acks :: a1), a2. split_and!.
    + by rewrite app_assoc.
    + done.
    + cbn [length]. by rewrite Hl.
    + by constructor.
    + cbn [length]. by rewrite Nat.add_succ_r.
Qed.

Lemma conversation_app p ms1 : forall i a1 ms2 a2,
  length a1 = length ms1 -> Forall (fun m => fst m <> SEND_TYPE /\ fst m <> BREAK_TYPE) ms1 ->
  conversation p i (ms1 ++ ms2) (a1 ++ a2) = conversation p i ms1 a1 ++ conversation p (i + length ms1) ms2 a2.
Proof.
  induction ms1 as [|[ty d] ms1 IH]; intros i a1 ms2 a2 Hl Hms; (destruct a1 as [|acks a1]; [|]); try done.
  - cbn. by rewrite Nat.add_0_r.
  - apply List.Forall_cons_iff in Hms as [[Hs _] Hms]. cbn [fst] in Hs. injection Hl as Hl.
    cbn [app conversation length].
    assert (Hset : settle ty d p = p) by (unfold settle; by rewrite (proj2 (Z.eqb_neq _ _))).
    by rewrite Hset, IH, <- app_assoc, Nat.add_succ_r.
Qed.

(** What the receiver makes of a whole transmission. *)
Lemma transmission start m parms d0 db ms file input ackss rest :
  quotable (his_quote (agreed d0)) ->
  Forall (fun m => fst m <> SEND_TYPE /\ fst m <> BREAK_TYPE) ms ->
  concat (map (fun m => if fst m =? DATA_TYPE then snd m else []) ms) =
    concat (map (encode (his_quote (agreed d0))) file) ->
  Forall is_byte file -> Z.of_nat (length file) < 2 ^ 31 ->
  transmits 0 ((SEND_TYPE, d0) :: ms ++ [(BREAK_TYPE, db)]) input ackss ->
  exists s, k_recv start m parms (input ++ rest) = Some (Returns s (Z.of_nat (length file)) rest) /\
    holds (data s) start file /\
    sent s = conversation default_proto 0 ((SEND_TYPE, d0) :: ms ++ [(BREAK_TYPE, db)]) ackss.
Proof.
  intros Hq Hms Hdata Hbytes Hlen Htr. unfold k_recv. set (s0 := K _ _ _ _ _ _ _ _ _ _ _).
  inversion Htr as [|? ? ? ? w acks inp ackss' Hdel Htr']; subst. clear Htr.
  destruct (transmits_app ms 1 _ _ _ Htr') as (i1 & i2 & a1 & a2 & -> & -> & Hl & Ht1 & Ht2).
  inversion Ht2 as [|? ? ? ? w2 acks2 inp2 ackss2 Hdel2 Hnil]; subst. inversion Hnil; subst. clear Ht2 Hnil Htr'.
  cbn [negb Z.eqb Pos.eqb BREAK_TYPE SEND_TYPE] in *.
  rewrite (app_nil_r w2).
  assert (Hpo : poised start (Z.of_nat 0 mod 64) (false, []) s0).
  { split; [|done]. cbn. unfold place. cbn. by rewrite Z.add_0_r. }
  destruct (delivery_runs true start (Z.of_nat 0 mod 64) SEND_TYPE d0 (false, []) w acks (i1 ++ w2 ++ rest)
    ltac:(done) ltac:(done) Hdel s0 Hpo) as (s1 & Hr1 & [H1 _ H3 H4 H5 H6]).
  change (settle SEND_TYPE d0 (pr s0)) with (agreed d0) in *.
  destruct (transmits_runs start 1 ms i1 a1 (w2 ++ rest) Ht1 Hms (false, []) s1 H3 H4 ltac:(by rewrite H1))
    as (s2 & Hr2 & E1 & E2 & E3 & E4 & E5). cbn zeta in *.
  rewrite H5, Hdata, feed_file in E1, E2 by done. cbn [app] in *.
  assert (Hpo2 : poised start (Z.of_nat (1 + length ms) mod 64) (false, file) s2)
    by (split; [by rewrite (proj2 (Z.eqb_neq _ _))|done]).
  destruct (delivery_returns start _ db (false, file) w2 acks2 rest ltac:(apply Z.mod_pos_bound; lia) Hdel2 s2 Hpo2)
    as (s3 & Hr3 & Hd3 & Ho3).
  exists s3. split_and!; [|done|].
  - rewrite <- !app_assoc. destruct (Hr1 (S (length (w ++ i1 ++ w2 ++ rest))) ltac:(lia)) as (f1 & Hf1 & ->).
    destruct (Hr2 f1 Hf1) as (f2 & Hf2 & ->). rewrite Hr3 by done. cbn [snd]. by rewrite s32_small by lia.
  - cbn [conversation]. change (settle SEND_TYPE d0 default_proto) with (agreed d0).
    rewrite conversation_app by done. cbn [conversation]. rewrite app_nil_r, Ho3, E5, E4, H6, H5. cbn [sent s0 app pr].
    by rewrite <- app_assoc.
Qed.

(** ** The command *)

(** A conversion of an integer always prints something. *)
Definition prints (spec : list Z) : Prop :=
  forall rest o v l, exists t, directive (spec ++ rest) (VState o (AInt v :: l) []) = Some (VState (o ++ t) l [], rest).

Lemma prints_number spec (f : Z -> Z) base width flags :
  base = 8 \/ base = 10 \/ base = 16 -> (forall v, 0 <= f v < 2 ^ 64) ->
  (forall rest o v l, directive (spec ++ rest) (VState o (AInt v :: l) []) =
    s ← (n ← number (f v) base width (-1) flags; Some (VState (o ++ n) l [])); Some (s, rest)) ->
  prints spec.
Proof.
  intros Hb Hf Hd rest o v l. destruct (number_total (f v) base width (-1) flags Hb (Hf v)) as [t Ht].
  exists t. by rewrite Hd, Ht.
Qed.

Lemma prints_08x : prints [48; 56; 120].
Proof. apply (prints_number _ u32 16 8 33); [lia|intros v; pose proof (u32_range v); lia|done]. Qed.

Lemma prints_08lX : prints [48; 56; 108; 88].
Proof. apply (prints_number _ u32 16 8 1); [lia|intros v; pose proof (u32_range v); lia|done]. Qed.

Lemma prints_d : prints [100].
Proof. apply (prints_number _ (fun v => u64 (s32 v)) 10 (-1) SIGN); [lia|intros v; apply u64_range|done]. Qed.

(** Text around conversions that print. *)
Inductive layout : list Z -> nat -> Prop :=
  | layout_nil : layout [] 0
  | layout_plain c fmt k : (c =? 37) = false -> layout fmt k -> layout (c :: fmt) k
  | layout_conv spec fmt k : prints spec -> layout fmt k -> layout (37 :: spec ++ fmt) (S k).

Lemma format_layout fmt k : layout fmt k -> forall fuel o vs,
  (length fmt < fuel)%nat -> length vs = k -> exists t, format fuel fmt (VState o (map AInt vs) []) = Some (VState t [] []).
Proof.
  induction 1 as [|c fmt k Hc Hl IH|spec fmt k Hp Hl IH]; intros [|fuel] o vs Hf Hk; try lia.
  - destruct vs; [|done]. by eexists.
  - rewrite format_plain by done. cbn [emit]. apply IH; [cbn in Hf; lia|done].
  - destruct vs as [|v vs]; [done|]. cbn [map]. rewrite format_conv. destruct (Hp fmt o v (map AInt vs)) as [t Ht].
    rewrite Ht. cbn [mbind option_bind]. apply IH; [|by injection Hk]. cbn [length] in Hf. rewrite length_app in Hf. lia.
Qed.

Lemma printf_layout fmt k vs : layout fmt k -> length vs = k -> exists t, printf fmt (map AInt vs) = Some t.
Proof.
  intros Hl Hk. destruct (format_layout fmt k Hl (S (length fmt)) [] vs ltac:(lia) Hk) as [t Ht].
  exists t. unfold printf. by rewrite Ht.
Qed.

#[local] Ltac lay := repeat (apply layout_plain; [done|]).

Lemma total_prints a b : exists t, printf fmt_total [AInt a; AInt b] = Some t.
Proof.
  apply (printf_layout _ 2 [a; b]); [|done]. unfold fmt_total. lay.
  apply (layout_conv [48; 56; 120]); [apply prints_08x|]. lay. apply (layout_conv [100]); [apply prints_d|]. lay. constructor.
Qed.

Lemma ready_prints a b : exists t, printf fmt_ready [AInt a; AInt b] = Some t.
Proof.
  apply (printf_layout _ 2 [a; b]); [|done]. unfold fmt_ready. lay.
  apply (layout_conv [48; 56; 108; 88]); [apply prints_08lX|]. lay. apply (layout_conv [100]); [apply prints_d|]. lay. constructor.
Qed.

Lemma start_prints a : exists t, printf fmt_start [AInt a] = Some t.
Proof.
  apply (printf_layout _ 1 [a]); [|done]. unfold fmt_start. lay.
  apply (layout_conv [48; 56; 108; 88]); [apply prints_08lX|]. lay. constructor.
Qed.

(** [filesize] reads back. *)
Lemma filesize_reads v : 0 <= v < 2 ^ 32 -> exists t, printf fmt_X [AInt v] = Some t /\ simple_strtoul t 16 = (v, []).
Proof.
  intros Hv. destruct (num_digits_spec v 16 0) as (tmp & Ht & Hnum & _); [lia..|].
  assert (Hs : sign_of 0 (u32 v) (-1) = (0, v, -1)) by (unfold sign_of; change (has 0 SIGN) with false; cbv iota; by rewrite u32_small by lia).
  pose proof (number_plain _ 16 0 0 v (-1) tmp ltac:(lia) eq_refl eq_refl eq_refl Hs Ht) as Hn.
  exists (rev tmp). split; [|by apply strtoul_numeral; [lia|done|lia]].
  assert (E : directive [88] (VState [] [AInt v] []) = s ← (n ← number (u32 v) 16 (-1) (-1) 0; Some (VState n [] [])); Some (s, []))
    by reflexivity.
  unfold printf, fmt_X. rewrite format_conv, E, Hn. done.
Qed.

Lemma bind_Some {A B} (f : A -> option B) a : (x ← Some a; f x) = f a.
Proof. done. Qed.

(** The command, without a change of the baud rate. *)
Lemma do_load_plain sys_load_addr baudrate loadaddr argv m parms input s rest t1 t2 t3 filesize :
  (length argv <= 2)%nat -> let offset := offset_of sys_load_addr loadaddr argv in offset <> u32 (-1) ->
  printf fmt_ready [AInt offset; AInt baudrate] = Some t1 ->
  load_serial_bin offset m parms input = Some (Some (s, rest, t2, filesize)) ->
  printf fmt_start [AInt offset] = Some t3 ->
  do_load_serial_bin sys_load_addr baudrate loadaddr argv m parms input =
  Some (Some (Loadb (data s) ([] ++ t1 ++ sent s ++ t2 ++ t3 ++ []) 0 offset filesize)).
Proof.
  intros Hargv offset Hoff T1 El T3. unfold do_load_serial_bin.
  assert (Eb : baudrate_of baudrate argv = baudrate)
    by (destruct argv as [|? [|? [|? ?]]]; try done; cbn [length] in Hargv; lia).
  rewrite Eb. fold offset. clearbody offset. rewrite Z.eqb_refl. cbv beta iota delta [negb].
  rewrite bind_Some, T1, bind_Some, El, bind_Some.
  assert (Ha : (offset =? u32 (Z.lnot 0)) = false) by (by apply Z.eqb_neq).
  rewrite Ha. cbv iota. by rewrite T3, !bind_Some.
Qed.

(** C21: Whatever happens on the line, [loadb] receives the file.  A sender transmits
    parameters, the file, quoted and cut into data packets anywhere, between other packets, and the
    end, each packet until it is acknowledged: packets arrive damaged behind the
    sequence number, so that the check can see it, any number of times, acknowledgements get lost, noise comes between.  Then
    the file is in memory at the offset, [filesize] has its length in hexadecimal, and the
    receiver has sent exactly an acknowledgement for every whole packet and a negative one for
    every damaged one, with the padding and the end that the sender asked for. *)
Theorem loadb_receives sys_load_addr baudrate loadaddr argv m parms d0 db ms file input ackss rest :
  quotable (his_quote (agreed d0)) ->
  Forall (fun m => fst m <> SEND_TYPE /\ fst m <> BREAK_TYPE) ms ->
  concat (map (fun m => if fst m =? DATA_TYPE then snd m else []) ms) =
    concat (map (encode (his_quote (agreed d0))) file) ->
  Forall is_byte file -> Z.of_nat (length file) < 2 ^ 31 ->
  transmits 0 ((SEND_TYPE, d0) :: ms ++ [(BREAK_TYPE, db)]) input ackss ->
  (length argv <= 2)%nat -> let offset := offset_of sys_load_addr loadaddr argv in offset <> u32 (-1) ->
  exists r before after,
    do_load_serial_bin sys_load_addr baudrate loadaddr argv m parms (input ++ rest) = Some (Some r) /\
    holds (lb_data r) offset file /\ lb_rcode r = 0 /\ load_addr r = offset /\
    simple_strtoul (lb_filesize r) 16 = (Z.of_nat (length file), []) /\
    lb_console r =
      before ++ conversation default_proto 0 ((SEND_TYPE, d0) :: ms ++ [(BREAK_TYPE, db)]) ackss ++ after.
Proof.
  intros Hq Hms Hdata Hbytes Hlen Htr Hargv offset Hoff.
  destruct (transmission offset m parms d0 db ms file input ackss rest Hq Hms Hdata Hbytes Hlen Htr) as (s & E & Hd & Ho).
  destruct (ready_prints offset baudrate) as [t1 T1]. set (size := Z.of_nat (length file)) in *.
  destruct (total_prints size size) as [t2 T2]. destruct (start_prints offset) as [t3 T3].
  destruct (filesize_reads size) as (t4 & T4 & Hf); [lia|].
  assert (El : load_serial_bin offset m parms (input ++ rest) = Some (Some (s, skipn 100 rest, t2, t4)))
    by (unfold load_serial_bin; by rewrite E, bind_Some, T2, bind_Some, T4, bind_Some).
  exists (Loadb (data s) ([] ++ t1 ++ sent s ++ t2 ++ t3 ++ []) 0 offset t4), t1, (t2 ++ t3).
  split; [by apply (do_load_plain _ _ _ _ _ _ _ _ (skipn 100 rest))|].
  cbn [lb_data lb_rcode load_addr lb_filesize lb_console]. split_and!; try done. by rewrite Ho, app_nil_r.
Qed.

(** A short packet. *)
Definition wire (n ty : Z) (d : list Z) : list Z :=
  let h := [tochar (Z.of_nat (length d) + 3); tochar n; ty] in h ++ d ++ [block_check (sum (h ++ d)); END_CHAR].

(** The file [A CR # B] in two data packets, cut inside a quoted character; the first data packet
    is damaged once and its acknowledgement is lost once. *)
Lemma loadb_receives_witness :
  let ms := [(70, [65]); (DATA_TYPE, [65; 35]); (DATA_TYPE, [77; 35; 35; 66]); (90, [])] in
  let input := (START_CHAR :: wire 0 SEND_TYPE [126; 42; 32; 64; 45; 35]) ++ (START_CHAR :: wire 1 70 [65]) ++
    (START_CHAR :: [37; 34; 68; 65; 36; 51] ++ (START_CHAR :: wire 2 DATA_TYPE [65; 35] ++ (START_CHAR :: wire 2 DATA_TYPE [65; 35]))) ++
    (START_CHAR :: wire 3 DATA_TYPE [77; 35; 35; 66]) ++ (START_CHAR :: wire 4 90 []) ++ (START_CHAR :: wire 5 BREAK_TYPE []) ++ [] in
  let ackss := [[true]; [true]; [false; true; true]; [true]; [true]; [true]] in
  exists r before after,
    do_load_serial_bin 4096 115200 None [[108]; [50; 48; 48]] (fun _ => 0) (fun _ => 0) (input ++ [4]) = Some (Some r) /\
    holds (lb_data r) 512 [65; 13; 35; 66] /\ lb_rcode r = 0 /\ load_addr r = 512 /\
    simple_strtoul (lb_filesize r) 16 = (4, []) /\
    lb_console r = before ++ conversation default_proto 0
      ((SEND_TYPE, [126; 42; 32; 64; 45; 35]) :: ms ++ [(BREAK_TYPE, [])]) ackss ++ after.
Proof.
  intros ms input ackss.
  assert (Hg : gap []) by constructor.
  assert (Hw : forall n ty d, good ty -> Forall good d -> 0 <= n < 64 -> (length d < 90)%nat -> arrival n ty d (wire n ty d)).
  { intros n ty d Hty Hd Hn Hl. apply arrives; [|done|done]. rewrite tochar_small by lia.
    replace (length d) with (Z.to_nat (Z.of_nat (length d) + 3 + 32 - 35)) at 2 by lia.
    apply short_header; unfold good, SPACE; lia. }
  assert (Hgood : forall l, forallb (fun c => (32 <=? c) && (c <? 256)) l = true -> Forall good l).
  { intros l Hl. apply List.Forall_forall. rewrite List.forallb_forall in Hl. intros c Hc. specialize (Hl c Hc). unfold good. lia. }
  assert (Hone : forall dup n ty d, good ty -> forallb (fun c => (32 <=? c) && (c <? 256)) d = true -> 0 <= n < 64 ->
    (length d < 90)%nat -> delivery dup n ty d (START_CHAR :: wire n ty d) [true]).
  { intros. apply (delivered _ _ _ _ []); [done|]. apply Hw; auto. }
  apply (loadb_receives 4096 115200 None [[108]; [50; 48; 48]] (fun _ => 0) (fun _ => 0) [126; 42; 32; 64; 45; 35] [] ms
    [65; 13; 35; 66] input ackss [4]).
  - left. split; vm_compute; discriminate.
  - repeat (apply List.Forall_cons; [by split|]). by apply List.Forall_nil.
  - reflexivity.
  - repeat (apply List.Forall_cons; [unfold is_byte; lia|]). by apply List.Forall_nil.
  - cbn. lia.
  - repeat (apply transmits_cons; [try (apply Hone; [by vm_compute|done|cbn; lia|cbn; lia])|]); [|constructor].
    apply (garbled _ _ _ _ [] [37; 34; 68; 65; 36; 51]); [done| |].
    + apply (bad_check 2 [37; 34; 68] 68 [65; 36] 51); try (unfold good; lia).
      * apply (short_header 2 68 37); unfold good, SPACE; lia.
      * by apply Hgood.
      * vm_compute. lia.
    + apply (repeated _ _ _ _ [] (wire 2 DATA_TYPE [65; 35])); try done.
      * apply Hw; [by vm_compute|by apply Hgood|lia|cbn; lia].
      * apply Hone; [by vm_compute|done|lia|cbn; lia].
  - cbn. lia.
  - vm_compute. lia.
Defined.

(** An error in front of the sequence number goes back behind the packet before, which is
    acknowledged already: its data is lost, without any sign of it. *)
Fact error_undoes_packet :
  match k_recv 512 (fun _ => 0) (fun _ => 0)
    ((START_CHAR :: wire 0 SEND_TYPE []) ++ (START_CHAR :: wire 1 DATA_TYPE [65]) ++ [START_CHAR; 5] ++
     (START_CHAR :: wire 2 DATA_TYPE [66]) ++ (START_CHAR :: wire 3 BREAK_TYPE [])) with
  | Some (Returns s size []) => size = 1 /\ mem_list (data s) 512 2 = [66; 0]
  | _ => False
  end.
Proof. vm_compute. by split. Qed.

(** Control-C ends the command with success and an empty file. *)
Fact abort_is_success :
  match do_load_serial_bin 4096 115200 None [[108]; [50; 48; 48]] (fun _ => 0) (fun _ => 0) [ETX_CHAR] with
  | Some (Some r) => lb_rcode r = 0 /\ load_addr r = 512 /\ lb_filesize r = [48]
  | _ => False
  end.
Proof. vm_compute. by split. Qed.
