(* ===== verification/MemSize.v ===== *)
(** The RAM test: [common/memsize.c].

    Memory is words of 32 bits.  The address decoder is a parameter of the model,
    [phys]: the installed word that a word address selects.  The theorem is about
    memory of [2^k] words that repeats over the whole range tested, the usual
    case of address lines that are not decoded. *)

From S2P Require Import Prelude.

Section Bus.
Context (phys : Z -> Z).

(** [*addr] and [*addr = v] for [addr = base + i]. *)
Definition get (m : mem) (i : Z) : Z := m (phys i).
Definition put (m : mem) (i v : Z) : mem := m.[phys i <- v].

(** The first loop; the array [save] is used as a stack.  The fuel is the number of
    bits of [long]. *)
Fixpoint save_loop (fuel : nat) (m : mem) (cnt : Z) (save : list Z) : mem * list Z :=
  match fuel with
  | O => (m, save)
  | S fuel =>
    if 0 <? cnt
    then save_loop fuel (put m cnt (Z.lnot cnt)) (Z.shiftr cnt 1) (get m cnt :: save)
    else (m, save)
  end.

(** The loops that put the saved words back: [for (...; cnt < n; cnt <<= 1)]. *)
Fixpoint restore_loop (fuel : nat) (m : mem) (cnt n : Z) (save : list Z) : mem :=
  match fuel with
  | O => m
  | S fuel =>
    if cnt <? n
    then restore_loop fuel (put m cnt (hd 0 save)) (Z.shiftl cnt 1) n (tl save)
    else m
  end.

(** The loop that looks for the first word that is not there. *)
Fixpoint check_loop (fuel : nat) (m : mem) (cnt maxsize : Z) (save : list Z) : mem * Z :=
  match fuel with
  | O => (m, maxsize)
  | S fuel =>
    if cnt <? maxsize / 4 then
      let val := get m cnt in
      let m := put m cnt (hd 0 save) in
      if negb (val =? Z.lnot cnt)
      then (restore_loop 32 m (Z.shiftl cnt 1) (maxsize / 4) (tl save), cnt * 4)
      else check_loop fuel m (Z.shiftl cnt 1) maxsize (tl save)
    else (m, maxsize)
  end.

Definition get_ram_size (m : mem) (maxsize : Z) : mem * Z :=
  let '(m, save) := save_loop 32 m (Z.shiftr (maxsize / 4) 1) [] in
  let saved := get m 0 in
  let m := put m 0 0 in
  if negb (get m 0 =? 0)
  then (restore_loop 32 (put m 0 saved) 1 (maxsize / 4) save, 0)
  else check_loop 32 m 1 maxsize save.
End Bus.

(** ** Memory that repeats *)

(** [2^k] words, selected by the low bits of the address. *)
Definition mirror (k : Z) (i : Z) : Z := i mod 2 ^ k.

Lemma mirror_pow k j : 0 <= j -> 0 <= k -> mirror k (2 ^ j) = if j <? k then 2 ^ j else 0.
Proof.
  intros Hj Hk. unfold mirror. destruct (Z.ltb_spec j k) as [H|H].
  - apply Z.mod_small. split; [lia|]. apply Z.pow_lt_mono_r; lia.
  - replace j with (k + (j - k)) by lia. rewrite Z.pow_add_r, Z.mul_comm by lia. apply Z.mod_mul. lia.
Qed.

Lemma shiftr_pow j : 0 < j -> Z.shiftr (2 ^ j) 1 = 2 ^ (j - 1).
Proof.
  intros Hj. rewrite Z.shiftr_div_pow2 by lia. replace j with (j - 1 + 1) at 1 by lia.
  rewrite Z.pow_add_r by lia. apply Z.div_mul. lia.
Qed.

Lemma shiftl_pow j : 0 <= j -> Z.shiftl (2 ^ j) 1 = 2 ^ (j + 1).
Proof. intros Hj. rewrite Z.shiftl_mul_pow2, <- Z.pow_add_r by lia. done. Qed.

Section Mirror.
Context (k : Z) (Hk : 0 <= k) (p : nat) (Hp : (p <= 29)%nat) (m : mem).
Let phys := mirror k.

Lemma phys_pow j : 0 <= j -> phys (2 ^ j) = if j <? k then 2 ^ j else 0.
Proof. intros. by apply mirror_pow. Qed.

(** The memory after [d] of the writes, to [2^(p - 1)], [2^(p - 2)] and so on; the
    word saved before the one to [2^i]; and the stack. *)
Fixpoint ms (d : nat) : mem :=
  match d with
  | O => m
  | S d => put phys (ms d) (2 ^ Z.of_nat (p - S d)) (Z.lnot (2 ^ Z.of_nat (p - S d)))
  end.
Definition saved (i : nat) : Z := get phys (ms (p - S i)) (2 ^ Z.of_nat i).
Definition stack (d : nat) : list Z := map saved (seq (p - d) d).

Lemma stack_S d : (d < p)%nat -> stack (S d) = saved (p - S d) :: stack d.
Proof.
  intros H. unfold stack. cbn [seq map]. do 2 f_equal. f_equal. lia.
Qed.

Lemma ram_save_loop_spec fuel d :
  (d <= p)%nat -> (p - d < fuel)%nat ->
  save_loop phys fuel (ms d) (Z.shiftr (2 ^ Z.of_nat (p - d)) 1) (stack d) = (ms p, stack p).
Proof.
  revert d. induction fuel as [|fuel IH]; intros d Hd Hf; [lia|]. cbn [save_loop].
  destruct (Nat.eq_dec d p) as [->|Hne]; [by rewrite Nat.sub_diag|].
  rewrite shiftr_pow by lia. replace (Z.of_nat (p - d) - 1) with (Z.of_nat (p - S d)) by lia.
  assert (0 < 2 ^ Z.of_nat (p - S d)) by lia. rewrite (proj2 (Z.ltb_lt _ _)) by done.
  rewrite <- (IH (S d)) by lia. cbn [ms]. rewrite stack_S by lia. unfold saved.
  replace (p - S (p - S d))%nat with d by lia. done.
Qed.

(** The memory [x] on the way back, before [2^i] is looked at: as it was after the
    write to [2^i], but with zero in the first word until that is restored. *)
Definition back (i : nat) (x : mem) : Prop :=
  forall a, x a = if (a =? 0) && (Z.of_nat i <=? k) then 0 else ms (p - i) a.

Lemma back_step i x :
  (i < p)%nat -> back i x -> back (S i) (put phys x (2 ^ Z.of_nat i) (saved i)).
Proof.
  intros Hi Hb a. unfold put, saved, get, upd. specialize (Hb a).
  assert (Hms : forall a, a <> phys (2 ^ Z.of_nat i) -> ms (p - i) a = ms (p - S i) a).
  { intros b Hb'. replace (p - i)%nat with (S (p - S i)) by lia. cbn [ms]. unfold put.
    replace (p - S (p - S i))%nat with i by lia. by apply upd_ne. }
  rewrite phys_pow in Hms |- * by lia. destruct (Z.ltb_spec (Z.of_nat i) k) as [Hlt|Hge].
  - assert (0 < 2 ^ Z.of_nat i) by lia. rewrite (proj2 (Z.leb_le (Z.of_nat (S i)) k)), andb_true_r by lia.
    rewrite (proj2 (Z.leb_le (Z.of_nat i) k)), andb_true_r in Hb by lia.
    destruct (Z.eqb_spec a (2 ^ Z.of_nat i)) as [E|Hne].
    + rewrite E.
      rewrite (proj2 (Z.eqb_neq _ _)) by lia. done.
    + rewrite Hb. destruct (Z.eqb_spec a 0); [done|]. by apply Hms.
  - rewrite (proj2 (Z.leb_gt (Z.of_nat (S i)) k)), andb_false_r by lia.
    destruct (Z.eqb_spec a 0) as [E|Hne]; [by rewrite E|]. rewrite Hb. by apply Hms.
Qed.

Lemma restore_spec fuel i x :
  (i <= p)%nat -> (p - i < fuel)%nat -> back i x -> k < Z.of_nat i ->
  restore_loop phys fuel x (2 ^ Z.of_nat i) (2 ^ Z.of_nat p) (stack (p - i)) ≡ₘ m.
Proof.
  revert i x. induction fuel as [|fuel IH]; intros i x Hi Hf Hb Hki; [lia|]. cbn [restore_loop].
  destruct (Nat.eq_dec i p) as [->|Hne].
  - rewrite Z.ltb_irrefl. intros a. rewrite Hb, Nat.sub_diag.
    by rewrite (proj2 (Z.leb_gt _ _)), andb_false_r by lia.
  - rewrite (proj2 (Z.ltb_lt _ _)) by (apply Z.pow_lt_mono_r; lia).
    replace (p - i)%nat with (S (p - S i)) by lia. rewrite stack_S by lia. cbn [hd tl].
    replace (p - S (p - S i))%nat with i by lia. rewrite shiftl_pow by lia.
    replace (Z.of_nat i + 1) with (Z.of_nat (S i)) by lia. apply IH; [lia|lia| |lia]. apply (back_step i x); [lia|exact Hb].
Qed.

(** The search, from [2^i] on. *)
Lemma check_spec fuel i x :
  (i <= p)%nat -> Z.of_nat i <= k -> (p - i < fuel)%nat -> back i x ->
  let '(x', size) := check_loop phys fuel x (2 ^ Z.of_nat i) (2 ^ Z.of_nat p * 4) (stack (p - i)) in
  if k <? Z.of_nat p
  then size = 2 ^ k * 4 /\ x' ≡ₘ m
  else size = 2 ^ Z.of_nat p * 4 /\ x' ≡ₘ m.[0 <- 0].
Proof.
  revert i x. induction fuel as [|fuel IH]; intros i x Hi Hik Hf Hb; [lia|]. cbn [check_loop].
  rewrite Z.div_mul by lia. destruct (Nat.eq_dec i p) as [->|Hne].
  - rewrite Z.ltb_irrefl, (proj2 (Z.ltb_ge k _)) by done. split; [done|]. intros a.
    rewrite Hb, Nat.sub_diag, (proj2 (Z.leb_le _ _)), andb_true_r by lia. by unfold upd.
  - rewrite (proj2 (Z.ltb_lt (2 ^ Z.of_nat i) _)) by (apply Z.pow_lt_mono_r; lia).
    replace (p - i)%nat with (S (p - S i)) by lia. rewrite stack_S by lia. cbn [hd tl].
    replace (p - S (p - S i))%nat with i by lia. rewrite shiftl_pow by lia.
    replace (Z.of_nat i + 1) with (Z.of_nat (S i)) by lia. pose proof (back_step i x ltac:(lia) Hb) as Hb'.
    assert (Hpos : 0 < 2 ^ Z.of_nat i) by lia.
    assert (Hv : get phys x (2 ^ Z.of_nat i) = if Z.of_nat i <? k then Z.lnot (2 ^ Z.of_nat i) else 0).
    { unfold get. rewrite phys_pow, Hb by lia. destruct (Z.ltb_spec (Z.of_nat i) k).
      - rewrite (proj2 (Z.eqb_neq (2 ^ Z.of_nat i) 0)) by lia. cbn [andb].
        replace (p - i)%nat with (S (p - S i)) by lia. cbn [ms]. unfold put.
        replace (p - S (p - S i))%nat with i by lia. rewrite phys_pow by lia.
        rewrite (proj2 (Z.ltb_lt _ _)) by done. apply upd_eq.
      - rewrite (proj2 (Z.leb_le _ _)) by done. done. }
    rewrite Hv. destruct (Z.ltb_spec (Z.of_nat i) k) as [Hlt|Hge].
    + rewrite Z.eqb_refl. cbn [negb]. apply IH; [lia|lia|lia|done].
    + rewrite (proj2 (Z.eqb_neq 0 _)) by (unfold Z.lnot; lia). cbn [negb].
      assert (E : Z.of_nat i = k) by lia. rewrite (proj2 (Z.ltb_lt k _)) by lia. split; [by rewrite E|].
      apply restore_spec; [lia|lia|done|lia].
Qed.

Lemma ram_size_lemma :
  let '(m', size) := get_ram_size phys m (2 ^ Z.of_nat p * 4) in
  if k <? Z.of_nat p then size = 2 ^ k * 4 /\ m' ≡ₘ m
  else size = 2 ^ Z.of_nat p * 4 /\ m' ≡ₘ m.[0 <- 0].
Proof.
  unfold get_ram_size. rewrite Z.div_mul by lia.
  pose proof (ram_save_loop_spec 32 0 ltac:(lia) ltac:(lia)) as Hs. rewrite Nat.sub_0_r in Hs.
  unfold stack at 1 in Hs. cbn [seq map ms] in Hs. rewrite Hs.
  assert (H0 : phys 0 = 0) by (unfold phys, mirror; apply Z.mod_0_l; lia).
  unfold get at 1, put at 1. rewrite H0, upd_eq. change (negb (0 =? 0)) with false.
  pose proof (check_spec 32 0 (put phys (ms p) 0 0) ltac:(lia) ltac:(lia) ltac:(lia)) as Hc.
  rewrite Nat.sub_0_r in Hc. change (2 ^ Z.of_nat 0) with 1 in Hc. apply Hc. intros a.
  unfold put. rewrite H0, Nat.sub_0_r. unfold upd.
  rewrite (proj2 (Z.leb_le _ _)), andb_true_r by lia. done.
Qed.
End Mirror.

(** C35: on memory of [2^k] words that repeats over the [2^p] words tested, [get_ram_size]
    gives its size in bytes and leaves every word as it was.  When the memory is at
    least as large as the range tested it gives the range, and the first word is lost:
    it is overwritten with zero and not restored. *)
Theorem get_ram_size_spec k p m :
  0 <= k -> (p <= 29)%nat ->
  let '(m', size) := get_ram_size (mirror k) m (2 ^ Z.of_nat p * 4) in
  if k <? Z.of_nat p then size = 2 ^ k * 4 /\ m' ≡ₘ m
  else size = 2 ^ Z.of_nat p * 4 /\ m' ≡ₘ m.[0 <- 0].
Proof. intros Hk Hp. exact (ram_size_lemma k Hk p Hp m). Qed.

Lemma get_ram_size_spec_witness :
  snd (get_ram_size (mirror 3) (fun a => 100 + a) (2 ^ Z.of_nat 6 * 4)) = 32 /\
  snd (get_ram_size (mirror 6) (fun a => 100 + a) (2 ^ Z.of_nat 6 * 4)) = 256 /\
  fst (get_ram_size (mirror 6) (fun a => 100 + a) (2 ^ Z.of_nat 6 * 4)) 0 = 0.
Proof.
  pose proof (get_ram_size_spec 3 6 (fun a => 100 + a) ltac:(lia) ltac:(lia)) as H3.
  pose proof (get_ram_size_spec 6 6 (fun a => 100 + a) ltac:(lia) ltac:(lia)) as H6.
  destruct (get_ram_size (mirror 3) _ _) as [m3 s3], (get_ram_size (mirror 6) _ _) as [m6 s6].
  cbn [fst snd]. destruct H3 as [-> _]. destruct H6 as [-> H6]. split; [done|]. split; [done|].
  rewrite (H6 0). apply upd_eq.
Defined.
