(* ===== verification/Tftp.v ===== *)
(** The TFTP client: [net/tftp.c], without multicast, the [tsize] option and flash as
    the destination.

    The static variables are the record [tftp]; what the handler does to the rest of
    the network code (packets sent, timeouts set, starting again, stopping the
    Ethernet) is the list [events], latest first.  A packet is the buffer from its
    TFTP header on and its length; the buffer may be longer than the packet.
    [unsigned long] has 32 bits. *)

From S2P Require Import Prelude CString Vsprintf.

Definition TFTP_RRQ : Z := 1.
Definition TFTP_DATA : Z := 3.
Definition TFTP_ACK : Z := 4.
Definition TFTP_ERROR : Z := 5.
Definition TFTP_OACK : Z := 6.

Definition TIMEOUT_COUNT : Z := 10.
Definition TFTP_BLOCK_SIZE : Z := 512.
Definition TFTP_SEQUENCE_SIZE : Z := 65536.
Definition TFTP_ERR_FILE_NOT_FOUND : Z := 1.
Definition TFTP_ERR_ACCESS_DENIED : Z := 2.
Definition WELL_KNOWN_PORT : Z := 69.
Definition MAX_LEN : nat := 128.

Inductive tstate : Type := STATE_RRQ | STATE_DATA | STATE_TOO_LARGE | STATE_BAD_MAGIC | STATE_OACK.
Inductive netstate : Type := NETLOOP_CONTINUE | NETLOOP_SUCCESS | NETLOOP_FAIL.

Inductive event : Type :=
  | SendUDP (ip dport sport : Z) (payload : list Z)
  | SetTimeout (msecs : Z)
  | StartAgain
  | EthHalt.

Record tftp : Type := Tftp {
  TftpServerIP : Z;
  TftpServerPort : Z;
  TftpOurPort : Z;
  TftpTimeoutCount : Z;
  TftpTimeoutCountMax : Z;
  TftpTimeoutMSecs : Z;
  TftpBlock : Z;
  TftpLastBlock : Z;
  TftpBlockWrap : Z;
  TftpBlockWrapOffset : Z;
  TftpState : tstate;
  TftpBlkSize : Z;
  TftpBlkSizeOption : Z;
  tftp_filename : list Z;
  NetState : netstate;
  load_addr : Z;
  NetBootFileXferSize : Z;
  memory : mem;
  events : list event }.

(** Assignments. *)
Definition set_peer (p : Z) (s : tftp) : tftp :=
  let '(Tftp ip _ o c cm ms b l w wo st bs bo f ns la x m e) := s in
  Tftp ip p o c cm ms b l w wo st bs bo f ns la x m e.
Definition set_count (c : Z) (s : tftp) : tftp :=
  let '(Tftp ip p o _ cm ms b l w wo st bs bo f ns la x m e) := s in
  Tftp ip p o c cm ms b l w wo st bs bo f ns la x m e.
Definition set_count_max (cm : Z) (s : tftp) : tftp :=
  let '(Tftp ip p o c _ ms b l w wo st bs bo f ns la x m e) := s in
  Tftp ip p o c cm ms b l w wo st bs bo f ns la x m e.
Definition set_block (b : Z) (s : tftp) : tftp :=
  let '(Tftp ip p o c cm ms _ l w wo st bs bo f ns la x m e) := s in
  Tftp ip p o c cm ms b l w wo st bs bo f ns la x m e.
Definition set_last (l : Z) (s : tftp) : tftp :=
  let '(Tftp ip p o c cm ms b _ w wo st bs bo f ns la x m e) := s in
  Tftp ip p o c cm ms b l w wo st bs bo f ns la x m e.
Definition set_wrap (w wo : Z) (s : tftp) : tftp :=
  let '(Tftp ip p o c cm ms b l _ _ st bs bo f ns la x m e) := s in
  Tftp ip p o c cm ms b l w wo st bs bo f ns la x m e.
Definition set_state (st : tstate) (s : tftp) : tftp :=
  let '(Tftp ip p o c cm ms b l w wo _ bs bo f ns la x m e) := s in
  Tftp ip p o c cm ms b l w wo st bs bo f ns la x m e.
Definition set_blksize (bs : Z) (s : tftp) : tftp :=
  let '(Tftp ip p o c cm ms b l w wo st _ bo f ns la x m e) := s in
  Tftp ip p o c cm ms b l w wo st bs bo f ns la x m e.
Definition set_netstate (ns : netstate) (s : tftp) : tftp :=
  let '(Tftp ip p o c cm ms b l w wo st bs bo f _ la x m e) := s in
  Tftp ip p o c cm ms b l w wo st bs bo f ns la x m e.
Definition set_memory (x : Z) (m : mem) (s : tftp) : tftp :=
  let '(Tftp ip p o c cm ms b l w wo st bs bo f ns la _ _ e) := s in
  Tftp ip p o c cm ms b l w wo st bs bo f ns la x m e.
Definition emit_event (e : event) (s : tftp) : tftp :=
  let '(Tftp ip p o c cm ms b l w wo st bs bo f ns la x m es) := s in
  Tftp ip p o c cm ms b l w wo st bs bo f ns la x m (e :: es).

(** A 16-bit number in network order, and the one at an offset of a packet. *)
Definition htons (x : Z) : list Z := [u8 (Z.shiftr x 8); u8 x].
Definition ntohs (pkt : list Z) (i : Z) : Z := Z.lor (Z.shiftl (rd pkt i) 8) (rd pkt (i + 1)).

Definition store_block (block : Z) (src : list Z) (s : tftp) : tftp :=
  let offset := u32 (u32 (block * TftpBlkSize s) + TftpBlockWrapOffset s) in
  let newsize := u32 (offset + Z.of_nat (length src)) in
  set_memory (if NetBootFileXferSize s <? newsize then newsize else NetBootFileXferSize s)
    (store_list (memory s) (u32 (load_addr s + offset)) src) s.

(** What [sprintf] writes, without the NUL ([Vsprintf.number_width]: it has enough
    fuel). *)
Definition text (fmt : list Z) (args : list arg) : list Z :=
  match vsprintf fmt args with Some (l, _, _) => removelast l | None => [] end.

(** "octet", "timeout", "%lu", "blksize%c%d%c" *)
Definition str_octet : list Z := [111; 99; 116; 101; 116].
Definition str_timeout : list Z := [116; 105; 109; 101; 111; 117; 116].
Definition fmt_lu : list Z := [37; 108; 117].
Definition str_blksize : list Z := [98; 108; 107; 115; 105; 122; 101].
Definition fmt_blksize : list Z := str_blksize ++ [37; 99; 37; 100; 37; 99].
(** "File too large", "File has bad magic" *)
Definition str_too_large : list Z :=
  [70; 105; 108; 101; 32; 116; 111; 111; 32; 108; 97; 114; 103; 101].
Definition str_bad_magic : list Z :=
  [70; 105; 108; 101; 32; 104; 97; 115; 32; 98; 97; 100; 32; 109; 97; 103; 105; 99].

Definition TftpSend (s : tftp) : tftp :=
  let payload :=
    match TftpState s with
    | STATE_RRQ =>
      htons TFTP_RRQ ++ tftp_filename s ++ [0] ++ str_octet ++ [0] ++ str_timeout ++ [0] ++
      text fmt_lu [AInt (TftpTimeoutMSecs s / 1000)] ++ [0] ++
      text fmt_blksize [AInt 0; AInt (TftpBlkSizeOption s); AInt 0]
    | STATE_OACK | STATE_DATA => htons TFTP_ACK ++ htons (TftpBlock s)
    | STATE_TOO_LARGE => htons TFTP_ERROR ++ htons 3 ++ str_too_large ++ [0]
    | STATE_BAD_MAGIC => htons TFTP_ERROR ++ htons 2 ++ str_bad_magic ++ [0]
    end in
  emit_event (SendUDP (TftpServerIP s) (TftpServerPort s) (TftpOurPort s) payload) s.

(** The string at the start of a buffer. *)
Fixpoint until_nul (b : list Z) : list Z :=
  match b with
  | [] => []
  | c :: b => if c =? 0 then [] else c :: until_nul b
  end.

(** The loop over the options of an OACK, from [i] on; [n] offsets are left. *)
Fixpoint oack_loop (n : nat) (pkt : list Z) (blksize : Z) : Z :=
  match n with
  | O => blksize
  | S n =>
    let blksize :=
      if bool_decide (until_nul pkt = str_blksize)
      then u16 (fst (simple_strtoul (until_nul (skipn 8 pkt)) 10))
      else blksize in
    oack_loop n (tl pkt) blksize
  end.

(** [case TFTP_DATA] once the block is known not to be the last one again. *)
Definition accept_block (block : Z) (data : list Z) (len : Z) (s : tftp) : tftp :=
  let s := set_count_max TIMEOUT_COUNT (set_last block s) in
  let s := emit_event (SetTimeout (TftpTimeoutMSecs s)) s in
  let s := store_block (u32 (block - 1)) data s in
  let s := TftpSend s in
  if len <? TftpBlkSize s then set_netstate NETLOOP_SUCCESS s else s.

(** [case TFTP_DATA], from the length check on. *)
Definition data_packet (pkt : list Z) (src len : Z) (s : tftp) : tftp :=
  let block := ntohs pkt 0 in
  let s := set_block block s in
  let s :=
    if block =? 0 then
      set_wrap (u32 (TftpBlockWrap s + 1))
        (u32 (TftpBlockWrapOffset s + TftpBlkSize s * TFTP_SEQUENCE_SIZE)) s
    else s in
  let first := match TftpState s with STATE_RRQ | STATE_OACK => true | _ => false end in
  let s := if first then set_wrap 0 0 (set_last 0 (set_peer src (set_state STATE_DATA s))) else s in
  if first && negb (block =? 1) then emit_event StartAgain s
  else if block =? TftpLastBlock s then s
  else accept_block block (firstn (Z.to_nat len) (skipn 2 pkt)) len s.

Definition TftpHandler (pkt : list Z) (dest src len : Z) (s : tftp) : tftp :=
  if negb (dest =? TftpOurPort s) then s
  else if (match TftpState s with STATE_RRQ => false | _ => true end) && negb (src =? TftpServerPort s)
  then s
  else if len <? 2 then s
  else
    let len := len - 2 in
    let proto := ntohs pkt 0 in
    let pkt := skipn 2 pkt in
    if proto =? TFTP_OACK then
      let s := set_peer src (set_state STATE_OACK s) in
      TftpSend (set_blksize (oack_loop (Z.to_nat (len - 8)) pkt (TftpBlkSize s)) s)
    else if proto =? TFTP_DATA then
      if len <? 2 then s else data_packet pkt src (len - 2) s
    else if proto =? TFTP_ERROR then
      let err := ntohs pkt 0 in
      if (err =? TFTP_ERR_FILE_NOT_FOUND) || (err =? TFTP_ERR_ACCESS_DENIED)
      then set_netstate NETLOOP_FAIL (emit_event EthHalt s)
      else emit_event StartAgain s
    else s.

Definition TftpTimeout (s : tftp) : tftp :=
  let s := set_count (TftpTimeoutCount s + 1) s in
  if TftpTimeoutCountMax s <? TftpTimeoutCount s then emit_event StartAgain s
  else TftpSend (emit_event (SetTimeout (TftpTimeoutMSecs s)) s).

(** "tftpblocksize", "tftptimeout", "%02lX%02lX%02lX%02lX.img" *)
Definition str_tftpblocksize : list Z := [116; 102; 116; 112; 98; 108; 111; 99; 107; 115; 105; 122; 101].
Definition str_tftptimeout : list Z := [116; 102; 116; 112; 116; 105; 109; 101; 111; 117; 116].
Definition fmt_filename : list Z :=
  [37; 48; 50; 108; 88; 37; 48; 50; 108; 88; 37; 48; 50; 108; 88; 37; 48; 50; 108; 88; 46; 105; 109; 103].

(** The part of a string after its first colon. *)
Fixpoint after_colon (s : list Z) : option (list Z) :=
  match s with
  | [] => None
  | c :: s => if c =? 58 then Some s else after_colon s
  end.

(** [timer] is what [get_timer] returns; [NetServerEther] is not in the state. *)
Definition TftpStart (getenv : list Z -> option (list Z)) (BootFile : list Z)
    (NetServerIP NetOurIP timer TftpRRQTimeoutCountMax : Z) (s : tftp) : tftp :=
  let blkopt := match getenv str_tftpblocksize with
                | Some ep => u16 (fst (simple_strtol ep 10))
                | None => TftpBlkSizeOption s end in
  let msecs := match getenv str_tftptimeout with
               | Some ep => u32 (fst (simple_strtol ep 10))
               | None => TftpTimeoutMSecs s end in
  let msecs := if msecs <? 1000 then 1000 else msecs in
  let '(ip, name) :=
    match BootFile with
    | [] =>
      (NetServerIP,
       text fmt_filename [AInt (Z.land NetOurIP 255); AInt (Z.land (Z.shiftr NetOurIP 8) 255);
                          AInt (Z.land (Z.shiftr NetOurIP 16) 255);
                          AInt (Z.land (Z.shiftr NetOurIP 24) 255)])
    | _ =>
      match after_colon BootFile with
      | None => (NetServerIP, BootFile)
      | Some p => (string_to_ip (Some BootFile), p)
      end
    end in
  let s :=
    Tftp ip WELL_KNOWN_PORT (1024 + timer mod 3072) 0 TftpRRQTimeoutCountMax msecs 0
      (TftpLastBlock s) (TftpBlockWrap s) (TftpBlockWrapOffset s) STATE_RRQ TFTP_BLOCK_SIZE blkopt
      (firstn (MAX_LEN - 1) name) (NetState s) (load_addr s) (NetBootFileXferSize s) (memory s)
      (SetTimeout msecs :: events s) in
  TftpSend s.

(** ** A transfer *)

Section Transfer.
Context (s0 : tftp) (B : Z) (file : list Z) (src : Z).

(** The number of blocks: all are full but the last, which may be empty. *)
Definition nblk : Z := Z.of_nat (length file) / B + 1.

(** The data of block [j], counted from one, and its packet. *)
Definition block_data (j : Z) : list Z := firstn (Z.to_nat B) (skipn (Z.to_nat (B * (j - 1))) file).
Definition packet (j : Z) : list Z := htons TFTP_DATA ++ htons (u16 j) ++ block_data j.
Definition packet_len (j : Z) : Z := 4 + Z.of_nat (length (block_data j)).

Definition ack (j : Z) : event :=
  SendUDP (TftpServerIP s0) src (TftpOurPort s0) (htons TFTP_ACK ++ htons (u16 j)).

(** What the first [j] blocks have caused, latest first. *)
Fixpoint acks (j : nat) : list event :=
  match j with
  | O => events s0
  | S i => ack (Z.of_nat j) :: SetTimeout (TftpTimeoutMSecs s0) :: acks i
  end.

(** The state after block [j]. *)
Definition received (j : nat) : tftp :=
  let n := Z.of_nat j in
  Tftp (TftpServerIP s0) src (TftpOurPort s0) (TftpTimeoutCount s0) TIMEOUT_COUNT
    (TftpTimeoutMSecs s0) (n mod 65536) (n mod 65536) (n / 65536) (B * (65536 * (n / 65536)))
    STATE_DATA B (TftpBlkSizeOption s0) (tftp_filename s0)
    (if n =? nblk then NETLOOP_SUCCESS else NETLOOP_CONTINUE) (load_addr s0)
    (Z.min (B * n) (Z.of_nat (length file)))
    (store_list (memory s0) (load_addr s0) (firstn (Z.to_nat (B * n)) file)) (acks j).
End Transfer.

(** The packets of a transfer, block [j] sent [S (dup j)] times, and what the client
    makes of a list of packets from the server's port. *)
Definition transfer (B : Z) (file : list Z) (dup : nat -> nat) : list (list Z * Z) :=
  concat (map (fun j => repeat (packet B file (Z.of_nat j), packet_len B file (Z.of_nat j)) (S (dup j)))
    (seq 1 (Z.to_nat (nblk B file)))).

Definition run (src : Z) (pkts : list (list Z * Z)) (s : tftp) : tftp :=
  fold_left (fun s p =>
    match NetState s with
    | NETLOOP_CONTINUE => TftpHandler (fst p) (TftpOurPort s) src (snd p) s
    | _ => s
    end) pkts s.

(** A client that has sent its request, or had its options acknowledged, and has room
    for the file. *)
Record ready (s0 : tftp) (B : Z) (file : list Z) (src : Z) : Prop := {
  ready_state : TftpState s0 = STATE_RRQ \/ (TftpState s0 = STATE_OACK /\ TftpServerPort s0 = src);
  ready_net : NetState s0 = NETLOOP_CONTINUE;
  ready_size : NetBootFileXferSize s0 = 0;
  ready_blk : TftpBlkSize s0 = B /\ 8 <= B <= 65464;
  ready_room : 0 <= load_addr s0 /\ load_addr s0 + Z.of_nat (length file) < 2 ^ 32;
  ready_file : Z.of_nat (length file) < 2 ^ 32 - 2 ^ 17 }.

Lemma ntohs_htons x rest : 0 <= x < 65536 -> ntohs (htons x ++ rest) 0 = x.
Proof.
  intros Hx. unfold ntohs, htons. cbn [app].
  change (rd (u8 (Z.shiftr x 8) :: u8 x :: rest) 0) with (u8 (Z.shiftr x 8)).
  change (rd (u8 (Z.shiftr x 8) :: u8 x :: rest) (0 + 1)) with (u8 x).
  rewrite Z.shiftl_mul_pow2, Z.shiftr_div_pow2 by lia. unfold u8.
  rewrite (lor_add _ _ 8); Z.to_euclidean_division_equations; lia.
Qed.

Lemma nblk_bounds B file j :
  8 <= B -> 1 <= j <= nblk B file -> 0 <= B * (j - 1) <= Z.of_nat (length file).
Proof.
  intros HB [H1 H2]. unfold nblk in H2. split; [nia|].
  pose proof (Z.mul_div_le (Z.of_nat (length file)) B ltac:(lia)).
  set (q := Z.of_nat (length file) / B) in *. clearbody q. nia.
Qed.

Lemma block_data_length B file j :
  8 <= B -> 1 <= j <= nblk B file ->
  Z.of_nat (length (block_data B file j)) = Z.min (B * j) (Z.of_nat (length file)) - B * (j - 1) /\
  (Z.of_nat (length (block_data B file j)) <? B) = (j =? nblk B file).
Proof.
  intros HB Hj. pose proof (nblk_bounds B file j HB Hj) as Hb. unfold block_data.
  rewrite length_firstn, length_skipn.
  assert (Hl : Z.of_nat (Nat.min (Z.to_nat B) (length file - Z.to_nat (B * (j - 1)))) =
    Z.min (B * j) (Z.of_nat (length file)) - B * (j - 1)) by lia.
  rewrite Hl. split; [done|]. unfold nblk in *.
  pose proof (Z.div_mod (Z.of_nat (length file)) B ltac:(lia)).
  pose proof (Z.mod_pos_bound (Z.of_nat (length file)) B ltac:(lia)).
  set (q := Z.of_nat (length file) / B) in *. clearbody q.
  destruct (Z.eqb_spec j (q + 1)) as [->|Hne]; [apply Z.ltb_lt|apply Z.ltb_ge]; nia.
Qed.

Lemma firstn_grow B file j :
  8 <= B -> 1 <= j <= nblk B file ->
  firstn (Z.to_nat (B * j)) file = firstn (Z.to_nat (B * (j - 1))) file ++ block_data B file j.
Proof.
  intros HB Hj. pose proof (nblk_bounds B file j HB Hj). unfold block_data.
  rewrite <- (firstn_skipn (Z.to_nat (B * (j - 1))) (firstn (Z.to_nat (B * j)) file)).
  rewrite firstn_firstn, Nat.min_l by lia. f_equal. rewrite skipn_firstn_comm. f_equal. lia.
Qed.

(** Runs the assignments on a state that is written out. *)
#[local] Ltac run_state :=
  cbn [set_peer set_count set_count_max set_block set_last set_wrap set_state set_blksize set_netstate
       set_memory emit_event TftpServerIP TftpServerPort TftpOurPort TftpTimeoutCount TftpTimeoutCountMax
       TftpTimeoutMSecs TftpBlock TftpLastBlock TftpBlockWrap TftpBlockWrapOffset TftpState TftpBlkSize
       TftpBlkSizeOption tftp_filename NetState load_addr NetBootFileXferSize memory events].

(** A data packet from the server reaches the data case. *)
Lemma handler_data B file j src s :
  8 <= B -> 1 <= j <= nblk B file ->
  TftpState s = STATE_RRQ \/ TftpServerPort s = src ->
  TftpHandler (packet B file j) (TftpOurPort s) src (packet_len B file j) s =
  data_packet (htons (u16 j) ++ block_data B file j) src (Z.of_nat (length (block_data B file j))) s.
Proof.
  intros HB Hj Hs. unfold TftpHandler. rewrite Z.eqb_refl. cbn [negb].
  assert (Hsrc : (match TftpState s with STATE_RRQ => false | _ => true end) &&
                 negb (src =? TftpServerPort s) = false).
  { destruct Hs as [-> | ->]; [done|]. rewrite Z.eqb_refl. apply andb_false_r. }
  rewrite Hsrc. unfold packet_len. rewrite (proj2 (Z.ltb_ge (4 + _) 2)) by lia.
  unfold packet. rewrite ntohs_htons by (unfold TFTP_DATA; lia).
  change (TFTP_DATA =? TFTP_OACK) with false. change (TFTP_DATA =? TFTP_DATA) with true. cbv iota.
  rewrite (proj2 (Z.ltb_ge (4 + _ - 2) 2)) by lia.
  replace (4 + Z.of_nat (length (block_data B file j)) - 2 - 2)
    with (Z.of_nat (length (block_data B file j))) by lia. done.
Qed.

(** The data case with the packet of block [j] read. *)
Lemma data_packet_eq B file j src s :
  0 <= j ->
  data_packet (htons (u16 j) ++ block_data B file j) src (Z.of_nat (length (block_data B file j))) s =
  let s := set_block (u16 j) s in
  let s :=
    if u16 j =? 0 then
      set_wrap (u32 (TftpBlockWrap s + 1)) (u32 (TftpBlockWrapOffset s + TftpBlkSize s * 65536)) s
    else s in
  let first := match TftpState s with STATE_RRQ | STATE_OACK => true | _ => false end in
  let s := if first then set_wrap 0 0 (set_last 0 (set_peer src (set_state STATE_DATA s))) else s in
  if first && negb (u16 j =? 1) then emit_event StartAgain s
  else if u16 j =? TftpLastBlock s then s
  else accept_block (u16 j) (block_data B file j) (Z.of_nat (length (block_data B file j))) s.
Proof.
  intros Hj. unfold data_packet.
  rewrite ntohs_htons by (unfold u16; pose proof (Z.mod_pos_bound j (2 ^ 16)); lia).
  change (skipn 2 (htons (u16 j) ++ block_data B file j)) with (block_data B file j).
  by rewrite Nat2Z.id, firstn_all.
Qed.

(** The offset that [store_block] computes for block [j]. *)
Lemma block_offset B j wo :
  8 <= B <= 65464 -> 1 <= j -> B * (j - 1) < 2 ^ 32 -> wo = B * (65536 * (j / 65536)) -> 
  u32 (u32 (u32 (u16 j - 1) * B) + u32 wo) = B * (j - 1).
Proof.
  intros HB Hj Hmax ->. unfold u16. change (2 ^ 16) with 65536.
  assert (E : exists c, u32 (j mod 65536 - 1) = j mod 65536 - 1 + c * 2 ^ 32).
  { exists (- ((j mod 65536 - 1) / 2 ^ 32)). unfold u32. pose proof (Z.div_mod (j mod 65536 - 1) (2 ^ 32)). lia. }
  destruct E as [c ->]. rewrite u32_add_r, u32_add_l. unfold u32.
  pose proof (Z.div_mod j 65536 ltac:(lia)).
  replace ((j mod 65536 - 1 + c * 2 ^ 32) * B + B * (65536 * (j / 65536)))
    with (B * (j - 1) + (c * B) * 2 ^ 32) by nia.
  rewrite Z_mod_plus_full. apply Z.mod_small. nia.
Qed.

Lemma wrap_small B j len :
  8 <= B <= 65464 -> 1 <= j -> B * (j - 1) <= len -> len < 2 ^ 32 - 2 ^ 17 ->
  0 <= B * (65536 * (j / 65536)) < 2 ^ 32.
Proof.
  intros HB Hj Hl Hlen. pose proof (Z.mul_div_le j 65536 ltac:(lia)).
  assert (0 <= 65536 * (j / 65536)) by (pose proof (Z.div_pos j 65536); lia).
  set (x := 65536 * (j / 65536)) in *. clearbody x.
  assert (B * x <= B * j) by (apply Z.mul_le_mono_nonneg_l; lia).
  assert (0 <= B * x) by (apply Z.mul_nonneg_nonneg; lia). lia.
Qed.

Section Steps.
Context (s0 : tftp) (B : Z) (file : list Z) (src : Z) (Hready : ready s0 B file src).

(** A new block, in the state the blocks before it lead to. *)
Lemma new_block j cm l :
  (1 <= j)%nat -> Z.of_nat j <= nblk B file ->
  accept_block (u16 (Z.of_nat j)) (block_data B file (Z.of_nat j))
    (Z.of_nat (length (block_data B file (Z.of_nat j))))
    (Tftp (TftpServerIP s0) src (TftpOurPort s0) (TftpTimeoutCount s0) cm
      (TftpTimeoutMSecs s0) (Z.of_nat j mod 65536) l (Z.of_nat j / 65536)
      (u32 (B * (65536 * (Z.of_nat j / 65536)))) STATE_DATA B (TftpBlkSizeOption s0)
      (tftp_filename s0) NETLOOP_CONTINUE (load_addr s0) (B * (Z.of_nat j - 1))
      (store_list (memory s0) (load_addr s0) (firstn (Z.to_nat (B * (Z.of_nat j - 1))) file))
      (acks s0 src (j - 1))) = received s0 B file src j.
Proof.
  intros Hj Hn. destruct Hready as [_ _ _ [_ HB] [Hla Hroom] Hfile].
  unfold accept_block, store_block, TftpSend. cbv zeta. run_state.
  destruct (block_data_length B file (Z.of_nat j)) as [Hlen Hlast]; [lia|lia|].
  pose proof (nblk_bounds B file (Z.of_nat j) ltac:(lia) ltac:(lia)) as Hb.
  rewrite (block_offset B (Z.of_nat j)) by (lia || done). rewrite Hlast.
  rewrite (u32_small (load_addr s0 + _)), (u32_small (B * (Z.of_nat j - 1) + _)) by lia.
  unfold received. rewrite (firstn_grow B file (Z.of_nat j)) by lia.
  assert (Hx : (if B * (Z.of_nat j - 1) <? B * (Z.of_nat j - 1) + Z.of_nat (length (block_data B file (Z.of_nat j)))
    then B * (Z.of_nat j - 1) + Z.of_nat (length (block_data B file (Z.of_nat j)))
    else B * (Z.of_nat j - 1)) = Z.min (B * Z.of_nat j) (Z.of_nat (length file))) by bdestruct.
  rewrite Hx, store_list_app, length_firstn.
  assert (Hf : Z.of_nat (Nat.min (Z.to_nat (B * (Z.of_nat j - 1))) (length file)) = B * (Z.of_nat j - 1)) by lia.
  rewrite Hf. unfold u16. change (2 ^ 16) with 65536.
  assert (Hacks : acks s0 src j = ack s0 src (Z.of_nat j) :: SetTimeout (TftpTimeoutMSecs s0) :: acks s0 src (j - 1)).
  { destruct j as [|j]; [lia|]. cbn [acks]. by replace (S j - 1)%nat with j by lia. }
  rewrite Hacks. unfold ack, u16. change (2 ^ 16) with 65536.
  rewrite (u32_small (B * (65536 * _))) by (apply (wrap_small B (Z.of_nat j) (Z.of_nat (length file))); lia).
  by destruct (Z.of_nat j =? nblk B file).
Qed.

Lemma first_step :
  TftpHandler (packet B file 1) (TftpOurPort s0) src (packet_len B file 1) s0 =
  received s0 B file src 1.
Proof.
  pose proof (new_block 1) as Hnew. destruct Hready as [Hst Hnet Hsz [Hblk HB] _ _].
  assert (H1 : 1 <= 1 <= nblk B file).
  { unfold nblk. pose proof (Z.div_pos (Z.of_nat (length file)) B). lia. }
  rewrite handler_data by (done || lia || tauto). rewrite data_packet_eq by lia.
  change (u16 1 =? 0) with false. change (u16 1 =? 1) with true. cbv iota.
  change (Z.of_nat 1) with 1 in Hnew. rewrite <- (Hnew (TftpTimeoutCountMax s0) 0) by lia.
  change (1 mod 65536) with 1. change (1 / 65536) with 0. change (1 - 1) with 0. change (65536 * 0) with 0.
  rewrite (Z.mul_0_r B).
  change (u32 0) with 0. cbn [Z.to_nat firstn store_list Nat.sub acks].
  destruct s0. cbn in *. subst. by destruct Hst as [-> |[-> ->]].
Qed.

(** The next block after block [j]; the block number may wrap around. *)
Lemma next_step j :
  (1 <= j)%nat -> Z.of_nat (S j) <= nblk B file ->
  TftpHandler (packet B file (Z.of_nat (S j))) (TftpOurPort s0) src (packet_len B file (Z.of_nat (S j)))
    (received s0 B file src j) = received s0 B file src (S j).
Proof.
  intros Hj Hn. pose proof (new_block (S j) TIMEOUT_COUNT (Z.of_nat j mod 65536)) as Hnew.
  destruct Hready as [_ _ _ [_ HB] _ Hfile].
  change (TftpOurPort s0) with (TftpOurPort (received s0 B file src j)).
  rewrite handler_data by (lia || by right). rewrite data_packet_eq by lia.
  rewrite <- Hnew by lia. clear Hnew.
  pose proof (nblk_bounds B file (Z.of_nat (S j)) ltac:(lia) ltac:(lia)) as Hb.
  pose proof (wrap_small B (Z.of_nat (S j)) (Z.of_nat (length file)) ltac:(lia) ltac:(lia) ltac:(lia) ltac:(lia)) as Hw.
  unfold received. cbv zeta. run_state. cbn [andb].
  rewrite (proj2 (Z.eqb_neq (Z.of_nat j) (nblk B file))) by lia.
  rewrite (Z.min_l (B * Z.of_nat j)) by nia. rewrite (u32_small (B * (65536 * (Z.of_nat (S j) / 65536)))) by lia.
  replace (Z.of_nat (S j) - 1) with (Z.of_nat j) by lia. replace (S j - 1)%nat with j by lia.
  unfold u16. change (2 ^ 16) with 65536.
  destruct (Z.eqb_spec (Z.of_nat (S j) mod 65536) 0) as [Hz|Hz].
  - assert (Hq : Z.of_nat (S j) / 65536 = Z.of_nat j / 65536 + 1) by (Z.to_euclidean_division_equations; lia).
    rewrite Hq in *. run_state. rewrite (u32_small (Z.of_nat j / 65536 + 1)), (u32_small (_ + B * 65536)) by nia.
    rewrite (proj2 (Z.eqb_neq (Z.of_nat (S j) mod 65536) (Z.of_nat j mod 65536))) by (Z.to_euclidean_division_equations; lia).
    do 2 f_equal. lia.
  - assert (Hq : Z.of_nat (S j) / 65536 = Z.of_nat j / 65536) by (Z.to_euclidean_division_equations; lia).
    rewrite Hq. run_state.
    by rewrite (proj2 (Z.eqb_neq (Z.of_nat (S j) mod 65536) (Z.of_nat j mod 65536))) by (Z.to_euclidean_division_equations; lia).
Qed.

(** A block that arrives again is ignored, unless its number is zero. *)
Lemma dup_step j :
  (1 <= j)%nat -> Z.of_nat j <= nblk B file -> Z.of_nat j mod 65536 <> 0 ->
  TftpHandler (packet B file (Z.of_nat j)) (TftpOurPort s0) src (packet_len B file (Z.of_nat j))
    (received s0 B file src j) = received s0 B file src j.
Proof.
  intros Hj Hn Hz. destruct Hready as [_ _ _ [_ HB] _ _].
  change (TftpOurPort s0) with (TftpOurPort (received s0 B file src j)) at 1.
  rewrite handler_data by (lia || by right). rewrite data_packet_eq by lia.
  unfold u16. change (2 ^ 16) with 65536. rewrite (proj2 (Z.eqb_neq _ 0)) by done.
  unfold received. cbv zeta. run_state. cbn [andb]. by rewrite Z.eqb_refl.
Qed.

(** All copies of a block after the first. *)
Lemma run_dups j n :
  (1 <= j)%nat -> Z.of_nat j <= nblk B file -> (Z.of_nat j mod 65536 = 0 -> n = O) ->
  run src (repeat (packet B file (Z.of_nat j), packet_len B file (Z.of_nat j)) n) (received s0 B file src j) =
  received s0 B file src j.
Proof.
  intros Hj Hn Hz. destruct (Z.eq_dec (Z.of_nat j mod 65536) 0) as [E|Hnz]; [by rewrite (Hz E)|].
  clear Hz. unfold run. induction n as [|n IH]; [done|]. cbn [repeat fold_left fst snd].
  destruct (NetState (received s0 B file src j)); [|done..].
  change (TftpOurPort (received s0 B file src j)) with (TftpOurPort s0). by rewrite dup_step.
Qed.

Lemma run_app p q s : run src (p ++ q) s = run src q (run src p s).
Proof. apply fold_left_app. Qed.

Lemma run_cons p q s : run src (p :: q) s = run src q (run src [p] s).
Proof. reflexivity. Qed.

Lemma run_transfer dup n :
  (forall j, Z.of_nat j mod 65536 = 0 -> dup j = O) -> (1 <= n)%nat -> Z.of_nat n <= nblk B file ->
  run src (concat (map (fun j => repeat (packet B file (Z.of_nat j), packet_len B file (Z.of_nat j)) (S (dup j)))
    (seq 1 n))) s0 = received s0 B file src n.
Proof.
  intros Hdup Hn. induction n as [|n IH]; [lia|]. intros Hle.
  rewrite seq_S, map_app, concat_app, run_app. cbn [map concat]. rewrite app_nil_r.
  set (sent := concat (map _ (seq 1 n))) in *.
  replace (1 + n)%nat with (S n) by lia. cbn [repeat].
  rewrite run_cons. rewrite <- (run_dups (S n) (dup (S n))) by (auto with lia). f_equal.
  destruct n as [|n].
  - unfold sent. cbn [seq map concat]. unfold run. cbn [fold_left fst snd]. rewrite (ready_net _ _ _ _ Hready). apply first_step.
  - rewrite IH by lia. unfold run. cbn [fold_left fst snd].
    assert (HN : NetState (received s0 B file src (S n)) = NETLOOP_CONTINUE).
    { cbn [received NetState]. by rewrite (proj2 (Z.eqb_neq _ (nblk B file))) by lia. }
    rewrite HN. apply next_step; lia.
Qed.
End Steps.

(** * Properties *)

(** C8: TFTP transfer.  Once the request is out, or its options are acknowledged, the blocks of a
    file, sent in order and each any number of times right after itself, leave the file at the load
    address and its size in [NetBootFileXferSize], cause one acknowledgement of each block,
    and stop the network loop with success: also when the block numbers wrap around, and
    when the last block is empty.  The exception are the blocks whose 16-bit number is zero: they are
    sent once, since a duplicate of one shifts all later data ([tftp_duplicate_zero_block]).  Duplicates
    that come later than the next block are not covered. *)
Theorem tftp_transfer s0 B file src dup :
  ready s0 B file src ->
  (forall j, Z.of_nat j mod 65536 = 0 -> dup j = O) ->
  run src (transfer B file dup) s0 = received s0 B file src (Z.to_nat (nblk B file)).
Proof.
  intros Hr Hdup. assert (1 <= nblk B file).
  { unfold nblk. pose proof (Z.div_pos (Z.of_nat (length file)) B). destruct (ready_blk _ _ _ _ Hr). lia. }
  apply run_transfer; [done..|lia|lia].
Qed.

(** A duplicate of a block whose number has wrapped around to zero is not ignored: the offset
    is advanced before the check for a duplicate, so every later block is stored 65536
    blocks too far. *)
Theorem tftp_duplicate_zero_block pkt src len s :
  TftpState s = STATE_DATA -> TftpServerPort s = src -> 4 <= len ->
  ntohs pkt 0 = TFTP_DATA -> ntohs (skipn 2 pkt) 0 = 0 -> TftpLastBlock s = 0 ->
  TftpHandler pkt (TftpOurPort s) src len s =
  set_wrap (u32 (TftpBlockWrap s + 1)) (u32 (TftpBlockWrapOffset s + TftpBlkSize s * TFTP_SEQUENCE_SIZE))
    (set_block 0 s).
Proof.
  intros Hst Hsrc Hlen Hp Hb Hl. unfold TftpHandler, data_packet. rewrite !Z.eqb_refl, Hst, Hsrc, Hp, Hb.
  rewrite Z.eqb_refl. cbn [negb andb]. rewrite !(proj2 (Z.ltb_ge _ 2)) by lia.
  destruct s. cbn in *. by subst.
Qed.

(** ** Witnesses *)

(** A client with an acknowledged block size of 8, and one in the middle of a transfer. *)
Definition client : tftp :=
  Tftp 100 2000 1024 0 10 5000 0 0 0 0 STATE_OACK 8 1468 [102] NETLOOP_CONTINUE 4096 0 (fun _ => 0) [].

Definition twice_more (j : nat) : nat := if Z.of_nat j mod 65536 =? 0 then O else 2%nat.

Lemma tftp_transfer_witness :
  let s := run 2000 (transfer 8 (map Z.of_nat (seq 1 20)) twice_more) client in
  s = received client 8 (map Z.of_nat (seq 1 20)) 2000 3 /\
  NetState s = NETLOOP_SUCCESS /\ NetBootFileXferSize s = 20 /\ memory s 4115 = 20 /\ length (events s) = 6%nat.
Proof.
  assert (E : run 2000 (transfer 8 (map Z.of_nat (seq 1 20)) twice_more) client =
    received client 8 (map Z.of_nat (seq 1 20)) 2000 3).
  { apply (tftp_transfer client 8 (map Z.of_nat (seq 1 20)) 2000).
    - split; try reflexivity; [right; split; reflexivity|cbn; lia..].
    - intros j Hj. unfold twice_more. rewrite Hj. reflexivity. }
  cbv zeta. rewrite E. repeat split.
Defined.

Lemma tftp_duplicate_zero_block_witness :
  let s := set_state STATE_DATA client in
  TftpHandler (htons TFTP_DATA ++ htons 0 ++ [1; 2; 3; 4; 5; 6; 7; 8]) 1024 2000 12 s =
  set_wrap 1 524288 (set_block 0 s).
Proof.
  refine (tftp_duplicate_zero_block _ 2000 12 (set_state STATE_DATA client) _ _ _ _ _ _);
    (reflexivity || (cbn; lia)).
Defined.
