(* ===== verification/Defrag.v ===== *)
(** Reassembly of IP fragments: [NetDefragment] of [net/net.c], with [CONFIG_IP_DEFRAG].

    The static buffer is a byte memory whose address 0 is [pkt_buff]: the IP header,
    then the payload, in which the parts that are still missing hold the descriptors
    of the list of holes.  [be] is the byte order of the machine.  The packet received
    is the list of its bytes from the IP header on.

    The code takes the hole at index 0 for no hole at all, so the order in which
    fragments arrive matters: the main theorem has the first fragment arrive first and
    the others in any order, with duplicates. *)

From stdpp Require Import sorting.
From S2P Require Import Prelude.

Definition IP_OFFS : Z := 8191.
Definition IP_FLAGS_MFRAG : Z := 8192.
Definition IP_HDR_SIZE_NO_UDP : Z := 20.

(** [CONFIG_NET_MAXDEFRAG] and the size of an RPC reply. *)
Definition IP_PKTSIZE : Z := 16384 + 100.
Definition IP_MAXUDP : Z := IP_PKTSIZE - IP_HDR_SIZE_NO_UDP.

Record defrag : Type := Defrag { pkt_buff : mem; first_hole : Z; total_len : Z }.

(** What a call comes to: NULL, the packet in the buffer and its length, the packet
    itself, a [memcpy] of a negative length, or a search that goes round for ever. *)
Inductive outcome : Type := Null | Packet (len : Z) | Itself | Overrun | Hangs.

(** A number of 16 bits in network order. *)
Definition net16 (m : mem) (a : Z) : Z := m a * 256 + m (a + 1).
Definition put_net16 (m : mem) (a v : Z) : mem := m.[a <- u8 (Z.shiftr v 8)].[a + 1 <- u8 v].

Section Host.
Context (be : bool).

(** A [u16] of the machine. *)
Definition get16 (m : mem) (a : Z) : Z := if be then m a * 256 + m (a + 1) else m (a + 1) * 256 + m a.
Definition put16 (m : mem) (a v : Z) : mem :=
  if be then m.[a <- u8 (Z.shiftr v 8)].[a + 1 <- u8 v] else m.[a <- u8 v].[a + 1 <- u8 (Z.shiftr v 8)].

(** Field [f] of the hole at index [i]: [last_byte], [next_hole], [prev_hole]. *)
Definition LAST : Z := 0.
Definition NEXT : Z := 1.
Definition PREV : Z := 2.
Definition hole (i : Z) : Z := IP_HDR_SIZE_NO_UDP + 8 * i.
Definition field (m : mem) (f i : Z) : Z := get16 m (hole i + 2 * f).
Definition set_field (m : mem) (f i v : Z) : mem := put16 m (hole i + 2 * f) v.

(** [*newh = *h] *)
Definition copy_hole (m : mem) (newh h : Z) : mem := store_list m (hole newh) (mem_list m (hole h) 8).

(** The search for the first hole that ends at [start] or later: [Some None] when there
    is none, [None] when the list goes round (indices have 16 bits, so that any
    longer walk comes back to a hole). *)
Fixpoint find_hole (fuel : nat) (m : mem) (start h : Z) : option (option Z) :=
  match fuel with
  | O => None
  | S fuel =>
    if field m LAST h <? start then
      if field m NEXT h =? 0 then Some None else find_hole fuel m start (field m NEXT h)
    else Some (Some h)
  end.

(** The new hole list: memory, first hole and [done]. *)
Definition fix_holes (m : mem) (first h offset8 start len : Z) : mem * Z * bool :=
  let fits := field m LAST h <=? start + len in
  let next := field m NEXT h in
  let prev := field m PREV h in
  if (offset8 <=? h) && fits then
    if (prev =? 0) && (next =? 0) then (m, first, true)
    else if prev =? 0 then (set_field m PREV next 0, next, false)
    else if next =? 0 then (set_field m NEXT prev 0, first, false)
    else (set_field (set_field m PREV next prev) NEXT prev next, first, false)
  else if fits then (set_field m LAST h start, first, false)
  else
    let newh := offset8 + Z.quot len 8 in
    let m := copy_hole m newh h in
    if offset8 <=? h then
      let m := if field m NEXT newh =? 0 then m else set_field m PREV (field m NEXT newh) newh in
      if field m PREV newh =? 0 then (m, newh, false)
      else (set_field m NEXT (field m PREV newh) newh, first, false)
    else
      let m := set_field m LAST h start in
      let m := set_field m NEXT h newh in
      let m := set_field m PREV newh h in
      let m := if field m NEXT newh =? 0 then m else set_field m PREV (field m NEXT newh) newh in
      (m, first, false).

Definition __NetDefragment (ip : list Z) (s : defrag) : defrag * outcome :=
  let ip_off := net16 (rd ip) 6 in
  let offset8 := Z.land ip_off IP_OFFS in
  let start := offset8 * 8 in
  let len := net16 (rd ip) 2 - IP_HDR_SIZE_NO_UDP in
  if IP_MAXUDP <? u32 (start + len) then (s, Null)
  else
    let '(Defrag m first total) :=
      if (total_len s =? 0) || negb (get16 (pkt_buff s) 4 =? get16 (rd ip) 4) then
        Defrag (store_list (set_field (set_field (set_field (pkt_buff s) LAST 0 65535) NEXT 0 0) PREV 0 0)
                  0 (mem_list (rd ip) 0 20)) 0 65535
      else s in
    match find_hole (Z.to_nat 65537) m start first with
    | None => (Defrag m first total, Hangs)
    | Some None => (Defrag m first total, Null)
    | Some (Some h) =>
      if offset8 + Z.quot len 8 <=? h then (Defrag m first total, Null)
      else
        let '(m, total) :=
          if Z.land ip_off IP_FLAGS_MFRAG =? 0
          then (set_field m LAST h (u16 (start + len)), u16 (start + len)) else (m, total) in
        let '(m, first, done) := fix_holes m first h offset8 start len in
        if len <? 0 then (Defrag m first total, Overrun)
        else
          let m := store_list m (hole offset8) (mem_list (rd ip) 20 (Z.to_nat len)) in
          if done
          then (Defrag (put_net16 m 2 total) first total, Packet (total + IP_HDR_SIZE_NO_UDP))
          else (Defrag m first total, Null)
    end.

Definition NetDefragment (ip : list Z) (s : defrag) : defrag * outcome :=
  if Z.land (net16 (rd ip) 6) (Z.lor IP_OFFS IP_FLAGS_MFRAG) =? 0 then (s, Itself)
  else __NetDefragment ip s.

(** Packets one after the other. *)
Fixpoint receive (ips : list (list Z)) (s : defrag) : defrag * list outcome :=
  match ips with
  | [] => (s, [])
  | ip :: ips =>
    let '(s, o) := NetDefragment ip s in
    let '(s, os) := receive ips s in (s, o :: os)
  end.

(** ** Fields in memory *)

Lemma get16_put16 m a v b :
  0 <= v < 65536 -> (b = a \/ b <= a - 2 \/ a + 2 <= b) ->
  get16 (put16 m a v) b = if b =? a then v else get16 m b.
Proof.
  intros Hv Hb. unfold get16, put16, upd, u8. rewrite Z.shiftr_div_pow2 by lia.
  destruct be; bdestruct; try lia; Z.to_euclidean_division_equations; lia.
Qed.

Lemma put16_out m a v b : b <> a -> b <> a + 1 -> put16 m a v b = m b.
Proof. intros H1 H2. unfold put16, upd. destruct be; bdestruct; lia. Qed.

Lemma get16_ext m k a : m a = k a -> m (a + 1) = k (a + 1) -> get16 m a = get16 k a.
Proof. intros H1 H2. unfold get16. by rewrite H1, H2. Qed.

Lemma field_set m f i v f' i' :
  0 <= v < 65536 -> 0 <= f < 4 -> 0 <= f' < 4 ->
  field (set_field m f i v) f' i' = if (f' =? f) && (i' =? i) then v else field m f' i'.
Proof.
  intros Hv Hf Hf'. unfold field, set_field, hole. rewrite get16_put16 by lia. bdestruct.
Qed.

Lemma set_field_out m f i v b :
  0 <= f < 4 -> ~ (hole i <= b < hole i + 8) -> set_field m f i v b = m b.
Proof. intros Hf Hb. unfold set_field. apply put16_out; lia. Qed.

Lemma field_store m a l f i :
  0 <= f < 4 -> hole i + 8 <= a \/ a + Z.of_nat (length l) <= hole i ->
  field (store_list m a l) f i = field m f i.
Proof. intros Hf Hd. unfold field. apply get16_ext; apply store_list_out; lia. Qed.

Lemma field_copy m newh h f i :
  0 <= f < 4 -> field (copy_hole m newh h) f i = if i =? newh then field m f h else field m f i.
Proof.
  intros Hf. destruct (Z.eqb_spec i newh) as [->|Hne].
  - unfold field. set (k := copy_hole m newh h).
    assert (E : forall j, 0 <= j < 8 -> k (hole newh + j) = m (hole h + j)).
    { intros j Hj. unfold k, copy_hole. rewrite store_list_in by (rewrite mem_list_length; lia).
      rewrite rd_mem_list by lia. done. }
    unfold get16. by rewrite <- !Z.add_assoc, !E by lia.
  - unfold copy_hole. rewrite field_store; [done|done|]. rewrite mem_list_length. unfold hole. lia.
Qed.

Lemma copy_hole_out m newh h b : ~ (hole newh <= b < hole newh + 8) -> copy_hole m newh h b = m b.
Proof. intros Hb. unfold copy_hole. rewrite store_list_out; [done|]. rewrite mem_list_length. lia. Qed.
End Host.

(** ** A datagram in fragments *)

(** Fragment [k] of [n] begins at byte [c k] of [data]. *)
Record cut (c : nat -> Z) (n : nat) (data : list Z) : Prop := {
  cut_first : c O = 0;
  cut_last : c n = Z.of_nat (length data);
  cut_size : forall i, (i < n)%nat -> c i + 8 <= c (S i);
  cut_mul : forall i, (i < n)%nat -> c i mod 8 = 0;
  cut_max : c n <= IP_MAXUDP;
  cut_several : (2 <= n)%nat }.

Section Datagram.
Context (be : bool) (c : nat -> Z) (n : nat) (data : list Z) (Hcut : cut c n data).

#[local] Abbreviation field := (field be).
#[local] Abbreviation set_field := (set_field be).

(** The index of a hole that begins with fragment [i], and the end of one that ends
    before fragment [j]: the end of the datagram is not known before it is there. *)
Definition q (i : nat) : Z := c i / 8.
Definition B (j : nat) : Z := if Nat.eqb j n then 65535 else c j.

Lemma c_lt i j : (i < j <= n)%nat -> c i + 8 <= c j.
Proof.
  induction j as [|j IH]; [lia|]. intros Hij. pose proof (cut_size _ _ _ Hcut j ltac:(lia)).
  destruct (decide (i = j)) as [->|]; [lia|]. specialize (IH ltac:(lia)). lia.
Qed.

Lemma c_le i j : (i <= j <= n)%nat -> c i <= c j.
Proof. intros Hij. destruct (decide (i = j)) as [->|]; [lia|]. pose proof (c_lt i j). lia. Qed.

Lemma c_range i : (i <= n)%nat -> 0 <= c i <= 16464.
Proof.
  intros Hi. pose proof (c_le 0 i ltac:(lia)). pose proof (c_le i n ltac:(lia)).
  rewrite (cut_first _ _ _ Hcut) in *. pose proof (cut_max _ _ _ Hcut).
  change IP_MAXUDP with 16464 in *. lia.
Qed.

Lemma q_8 i : (i < n)%nat -> c i = 8 * q i.
Proof. intros Hi. unfold q. pose proof (cut_mul _ _ _ Hcut i Hi). Z.to_euclidean_division_equations; lia. Qed.

Lemma q_lt i j : (i < j < n)%nat -> q i < q j.
Proof. intros Hij. pose proof (c_lt i j ltac:(lia)). rewrite (q_8 i), (q_8 j) in * by lia. lia. Qed.

Lemma q_range i : (i < n)%nat -> 0 <= q i < 8192.
Proof. intros Hi. pose proof (c_range i ltac:(lia)). rewrite q_8 in * by done. lia. Qed.

Lemma q_pos i : (0 < i < n)%nat -> 0 < q i.
Proof. intros Hi. pose proof (q_lt 0 i ltac:(lia)). pose proof (q_range 0 ltac:(lia)). lia. Qed.

Lemma q_inj i j : (i < n)%nat -> (j < n)%nat -> q i = q j -> i = j.
Proof.
  intros Hi Hj E. destruct (lt_eq_lt_dec i j) as [[H| ]|H]; [|done|].
  - pose proof (q_lt i j ltac:(lia)). lia.
  - pose proof (q_lt j i ltac:(lia)). lia.
Qed.

(** A list of holes, as intervals of fragments, none of which is the first. *)
Definition holes := list (nat * nat).
Definition good (H : holes) : Prop :=
  Forall (fun h => (0 < h.1 < h.2)%nat /\ (h.2 <= n)%nat) H /\
  StronglySorted (fun x y => (x.2 < y.1)%nat) H.

(** Fragment [k] lies in a hole. *)
Definition missing (k : nat) (H : holes) : Prop := exists i j, (i, j) ∈ H /\ (i <= k < j)%nat.

(** A segment of the list: [prev] is before it, [first] is its first index, [nx] comes
    after it. *)
Fixpoint seg (m : mem) (prev first : Z) (H : holes) (nx : Z) : Prop :=
  match H with
  | [] => first = nx
  | (i, j) :: H =>
    first = q i /\ field m LAST (q i) = B j /\ field m PREV (q i) = prev /\
    seg m (q i) (field m NEXT (q i)) H nx
  end.

Fixpoint lastq (prev : Z) (H : holes) : Z :=
  match H with
  | [] => prev
  | (i, _) :: H => lastq (q i) H
  end.

Lemma seg_app m H1 H2 : forall prev first nx,
  seg m prev first (H1 ++ H2) nx <->
  exists mid, seg m prev first H1 mid /\ seg m (lastq prev H1) mid H2 nx.
Proof.
  induction H1 as [|[i j] H1 IH]; intros prev first nx; cbn [app seg lastq].
  - split; [intros H; by exists first|by intros (mid & -> & H)].
  - rewrite IH. split.
    + intros (-> & HL & HP & mid & H1' & H2'). by exists mid.
    + intros (mid & (-> & HL & HP & H1') & H2'). repeat split; [done..|]. by exists mid.
Qed.

Lemma seg_frame m m' H : forall prev first nx,
  (forall i j f, (i, j) ∈ H -> 0 <= f < 3 -> field m' f (q i) = field m f (q i)) ->
  seg m prev first H nx -> seg m' prev first H nx.
Proof.
  induction H as [|[i j] H IH]; intros prev first nx Hf; cbn [seg]; [done|].
  intros (-> & HL & HP & Hs).
  pose proof (fun f => Hf i j f (list_elem_of_here _ _)) as Hij.
  rewrite (Hij LAST), (Hij PREV), (Hij NEXT) by (unfold LAST, NEXT, PREV; lia).
  repeat split; [done..|]. apply IH; [|done]. intros i' j' f Hin. apply (Hf i' j'). by apply list_elem_of_further.
Qed.

Lemma lastq_app prev H1 i j : lastq prev (H1 ++ [(i, j)]) = q i.
Proof. revert prev. induction H1 as [|[a b] H1 IH]; intros prev; cbn [app lastq]; [done|apply IH]. Qed.

Lemma good_app H1 H2 :
  good (H1 ++ H2) <->
  good H1 /\ good H2 /\ forall i j i' j', (i, j) ∈ H1 -> (i', j') ∈ H2 -> (j < i')%nat.
Proof.
  unfold good. rewrite Forall_app, StronglySorted_app. split.
  - intros [[F1 F2] (R & S1 & S2)]. repeat split; try done. intros i j i' j' I1 I2. apply (R _ _ I1 I2).
  - intros ([F1 S1] & [F2 S2] & R). repeat split; try done. intros [i j] [i' j'] I1 I2. by apply (R i j i' j').
Qed.

Lemma good_1 i j : good [(i, j)] <-> (0 < i < j)%nat /\ (j <= n)%nat.
Proof.
  unfold good. rewrite Forall_singleton. cbn [fst snd]. split; [tauto|]. intros H. split; [done|].
  apply StronglySorted_cons. split; [by apply Forall_nil|constructor].
Qed.

Lemma good_in H i j : good H -> (i, j) ∈ H -> (0 < i < j)%nat /\ (j <= n)%nat.
Proof. intros [F _] Hin. rewrite Forall_forall in F. by apply (F (i, j)), list_elem_of_In. Qed.

(** The node before and the node after a place get new pointers to what is there. *)
Lemma relink m first H1 mid v :
  good H1 -> 0 <= v < 65536 -> seg m 0 first H1 mid ->
  seg (if lastq 0 H1 =? 0 then m else set_field m NEXT (lastq 0 H1) v) 0
    (if lastq 0 H1 =? 0 then v else first) H1 v.
Proof.
  intros HG Hv. destruct H1 as [|[i j] H1 _] using rev_ind; [done|].
  rewrite lastq_app. apply good_app in HG as (G1 & Gi & HR). apply good_1 in Gi.
  pose proof (q_pos i ltac:(lia)). rewrite (proj2 (Z.eqb_neq (q i) 0)) by lia.
  rewrite !seg_app. intros (x & Hs & -> & HL & HP & Hn). exists (q i). split.
  - revert Hs. apply seg_frame. intros a b f Hin Hf. rewrite field_set by (unfold NEXT; lia).
    specialize (HR a b i j Hin (list_elem_of_here _ _)). pose proof (good_in _ _ _ G1 Hin).
    pose proof (q_lt a i ltac:(lia)). bdestruct.
  - cbn [seg]. rewrite !field_set by (unfold LAST, PREV, NEXT; lia). rewrite !Z.eqb_refl.
    by repeat split.
Qed.

Lemma retarget m p p' mid H2 :
  good H2 -> 0 <= p' < 65536 -> seg m p mid H2 0 ->
  seg (if mid =? 0 then m else set_field m PREV mid p') p' mid H2 0.
Proof.
  intros HG Hv. destruct H2 as [|[i j] H2].
  { cbn [seg]. by intros ->. }
  change ((i, j) :: H2) with ([(i, j)] ++ H2) in HG. apply good_app in HG as (Gi & G2 & HR). apply good_1 in Gi.
  cbn [seg]. intros (-> & HL & HP & Hs).
  pose proof (q_pos i ltac:(lia)). rewrite (proj2 (Z.eqb_neq (q i) 0)) by lia.
  rewrite !field_set by (unfold LAST, PREV, NEXT; lia). rewrite !Z.eqb_refl. repeat split; [done|].
  revert Hs. apply seg_frame. intros a b f Hin Hf. rewrite field_set by (unfold PREV; lia).
  specialize (HR i j a b (list_elem_of_here _ _) Hin). pose proof (good_in _ _ _ G2 Hin).
  pose proof (q_lt i a ltac:(lia)). bdestruct.
Qed.

(** Writes elsewhere leave a segment alone. *)
Lemma seg_set m f x v H prev first nx :
  0 <= f < 4 -> 0 <= v < 65536 -> (forall i j, (i, j) ∈ H -> q i <> x) ->
  seg m prev first H nx -> seg (set_field m f x v) prev first H nx.
Proof.
  intros Hf Hv Hx. apply seg_frame. intros i j f' Hin Hf'. rewrite field_set by lia.
  specialize (Hx i j Hin). bdestruct.
Qed.

Lemma seg_copy m newh h H prev first nx :
  (forall i j, (i, j) ∈ H -> q i <> newh) ->
  seg m prev first H nx -> seg (copy_hole m newh h) prev first H nx.
Proof.
  intros Hx. apply seg_frame. intros i j f' Hin Hf'. rewrite field_copy by lia.
  specialize (Hx i j Hin). bdestruct.
Qed.

(** What is known about the holes around one. *)
Record around (H1 : holes) (i j : nat) (H2 : holes) : Prop := {
  ar_left : good H1;
  ar_right : good H2;
  ar_hole : (0 < i < j)%nat /\ (j <= n)%nat;
  ar_before : forall a b, (a, b) ∈ H1 -> (0 < a < b)%nat /\ (b < i)%nat;
  ar_after : forall a b, (a, b) ∈ H2 -> (j < a < b)%nat /\ (b <= n)%nat }.

Lemma good_around H1 i j H2 :
  good (H1 ++ (i, j) :: H2) <->
  around H1 i j H2 /\ (forall a b a' b', (a, b) ∈ H1 -> (a', b') ∈ H2 -> (b < a')%nat).
Proof.
  change ((i, j) :: H2) with ([(i, j)] ++ H2). rewrite !good_app, good_1. split.
  - intros (G1 & (Gi & G2 & R2) & R1). split; [split; try done|].
    + intros a b Hin. split; [by apply (good_in H1)|]. apply (R1 a b i j Hin). left.
    + intros a b Hin. pose proof (good_in _ _ _ G2 Hin). pose proof (R2 i j a b (list_elem_of_here _ _) Hin). lia.
    + intros a b a' b' I1 I2. apply (R1 a b a' b' I1). by right.
  - intros [[G1 G2 Gi HB HA] R]. split; [done|]. split; [split; [done|]; split; [done|]|].
    + intros a b a' b' [= -> ->]%list_elem_of_singleton I2. destruct (HA _ _ I2). lia.
    + intros a b a' b' I1 [[= -> ->]|I2]%elem_of_cons; [by destruct (HB _ _ I1)|].
      by apply (R a b a' b').
Qed.

(** Bytes that are in no descriptor of a missing fragment. *)
Definition no_descriptor (H : holes) (b : Z) : Prop :=
  forall x, (x < n)%nat -> missing x H -> ~ (hole (q x) <= b < hole (q x) + 8).

(** What is left of a hole without fragment [k]. *)
Definition rest_of (i j k : nat) : holes :=
  (if Nat.ltb i k then [(i, k)] else []) ++ (if Nat.ltb (S k) j then [(S k, j)] else []).

(** Fragment [k] lies in the hole [(i, j)], which is between the holes [H1] and [H2]. *)
Section Fix.
Context (m : mem) (first : Z) (H1 H2 : holes) (i j k : nat).
Context (Hgood : good (H1 ++ (i, j) :: H2)) (Hk : (i <= k < j)%nat).
Context (Hleft : seg m 0 first H1 (q i)).
Context (Hprev : field m PREV (q i) = lastq 0 H1).
Context (Hright : seg m (q i) (field m NEXT (q i)) H2 0).

#[local] Abbreviation P := (lastq 0 H1).
#[local] Abbreviation N := (field m NEXT (q i)).

Lemma prev_cases : (H1 = [] /\ P = 0) \/ exists a b, (a, b) ∈ H1 /\ P = q a /\ (0 < a < i)%nat /\ 0 < q a.
Proof.
  destruct (proj1 (good_around _ _ _ _) Hgood) as [[_ _ [Hi Hj] HB _] _].
  destruct H1 as [|[a b] G _] using rev_ind; [by left|right].
  exists a, b. rewrite lastq_app. assert (Hin : (a, b) ∈ G ++ [(a, b)]) by (apply elem_of_app; right; left).
  destruct (HB a b Hin). repeat split; [done|lia..|]. apply q_pos. lia.
Qed.

Lemma next_cases :
  (H2 = [] /\ N = 0) \/ exists a b G, H2 = (a, b) :: G /\ N = q a /\ (j < a < n)%nat /\ 0 < q a.
Proof.
  destruct (proj1 (good_around _ _ _ _) Hgood) as [[_ _ [Hi Hj] _ HA] _].
  destruct H2 as [|[a b] G]; [by left|right].
  exists a, b, G. destruct Hright as [E _]. destruct (HA a b (list_elem_of_here _ _)).
  repeat split; [done|lia..|]. apply q_pos. lia.
Qed.

Lemma next_range : 0 <= N < 65536.
Proof.
  destruct next_cases as [[_ ->]|(a & b & G & _ & -> & Ha & _)]; [lia|]. pose proof (q_range a ltac:(lia)). lia.
Qed.

Lemma prev_range : 0 <= P < 65536.
Proof.
  destruct prev_cases as [[_ ->]|(a & b & _ & -> & Ha & _)]; [lia|].
  destruct (proj1 (good_around _ _ _ _) Hgood) as [[_ _ [Hi Hj] _ _] _].
  pose proof (q_range a ltac:(lia)). lia.
Qed.

(** Indices on the left are small and on the right large. *)
Lemma left_index a b : (a, b) ∈ H1 -> forall x, (i <= x < n)%nat -> q a < q x.
Proof.
  intros Hin x Hx. destruct (proj1 (good_around _ _ _ _) Hgood) as [[_ _ _ HB _] _].
  destruct (HB a b Hin). apply q_lt. lia.
Qed.

Lemma right_index a b : (a, b) ∈ H2 -> forall x, (x <= j)%nat -> q x < q a.
Proof.
  intros Hin x Hx. destruct (proj1 (good_around _ _ _ _) Hgood) as [[_ _ _ _ HA] _].
  destruct (HA a b Hin). apply q_lt. lia.
Qed.

(** The holes on the right get a new left neighbour; [G] is a part before them. *)
Lemma link_right m1 p0 p' G prev f mid :
  (forall a b, (a, b) ∈ G -> forall x y, (x, y) ∈ H2 -> q a < q x) ->
  0 <= p' < 65536 -> seg m1 prev f G mid -> seg m1 p0 N H2 0 ->
  let m' := if N =? 0 then m1 else set_field m1 PREV N p' in
  seg m' prev f G mid /\ seg m' p' N H2 0.
Proof.
  intros HG Hp Hs Hr. cbv zeta. split.
  - destruct next_cases as [[_ ->]|(a & b & G' & E & -> & _ & Hpos)]; [done|].
    rewrite (proj2 (Z.eqb_neq _ 0)) by lia. apply seg_set; [unfold PREV; lia|done| |done].
    intros x y Hin. specialize (HG x y Hin a b). rewrite E in HG. specialize (HG (list_elem_of_here _ _)). lia.
  - destruct (proj1 (good_around _ _ _ _) Hgood) as [[_ G2 _ _ _] _]. by apply (retarget _ p0).
Qed.

Lemma hole_bound : (0 < i < j)%nat /\ (j <= n)%nat.
Proof. by destruct (proj1 (good_around _ _ _ _) Hgood) as [[_ _ Hij _ _] _]. Qed.

Lemma cross_index a b : (a, b) ∈ H1 -> forall x y, (x, y) ∈ H2 -> q a < q x.
Proof.
  intros I1 x y I2. pose proof hole_bound.
  pose proof (left_index a b I1 i ltac:(lia)). pose proof (right_index x y I2 i ltac:(lia)). lia.
Qed.

(** A change to the last node on the left. *)
Lemma relink_frame k' v nx prev f G :
  (forall a b, (a, b) ∈ H1 -> forall x y, (x, y) ∈ G -> q a < q x) ->
  0 <= v < 65536 -> seg k' prev f G nx ->
  seg (if P =? 0 then k' else set_field k' NEXT P v) prev f G nx.
Proof.
  intros HG Hv Hs. destruct prev_cases as [[_ ->]|(a & b & Hin & -> & _ & Hpos)]; [done|].
  rewrite (proj2 (Z.eqb_neq _ 0)) by lia. apply seg_set; [unfold NEXT; lia|done| |done].
  intros x y I2. pose proof (HG a b Hin x y I2). lia.
Qed.

Lemma left_good : good H1.
Proof. by destruct (proj1 (good_around _ _ _ _) Hgood) as [[G1 _ _ _ _] _]. Qed.

(** The hole is gone. *)
Lemma fix_remove :
  let m1 := if N =? 0 then m else set_field m PREV N P in
  seg (if P =? 0 then m1 else set_field m1 NEXT P N) 0 (if P =? 0 then N else first) (H1 ++ H2) 0.
Proof.
  destruct (link_right m (q i) P H1 0 first (q i) cross_index prev_range Hleft Hright) as [L R].
  cbv zeta. apply seg_app. exists N. split.
  - by apply relink with (mid := q i); [apply left_good|apply next_range|].
  - apply relink_frame; [apply cross_index|apply next_range|done].
Qed.

(** The hole is shorter. *)
Lemma fix_shorten : (i < k)%nat -> seg (set_field m LAST (q i) (c k)) 0 first (H1 ++ (i, k) :: H2) 0.
Proof.
  intros Hik. pose proof hole_bound. pose proof (c_range k ltac:(lia)). apply seg_app. exists (q i). split.
  - apply seg_set; [unfold LAST; lia|lia| |done]. intros a b Hin. pose proof (left_index a b Hin i ltac:(lia)). lia.
  - cbn [seg]. rewrite !field_set by (unfold LAST, PREV, NEXT; lia). rewrite !Z.eqb_refl.
    change ((PREV =? LAST) && true) with false. change ((NEXT =? LAST) && true) with false.
    change ((LAST =? LAST) && true) with true. cbv iota. unfold B.
    rewrite (proj2 (Nat.eqb_neq k n)) by lia. repeat split; [done|].
    apply seg_set; [unfold LAST; lia|lia| |done]. intros a b Hin. pose proof (right_index a b Hin i ltac:(lia)). lia.
Qed.

(** The copy of the hole at fragment [S k]. *)
Lemma copied :
  (S k < j)%nat -> field m LAST (q i) = B j ->
  let m1 := copy_hole m (q (S k)) (q i) in
  seg m1 0 first H1 (q i) /\ seg m1 P (q (S k)) [(S k, j)] N /\ seg m1 (q i) N H2 0.
Proof.
  intros Hj HB. cbv zeta. pose proof hole_bound. split; [|split].
  - apply seg_copy; [|done]. intros a b Hin. pose proof (left_index a b Hin (S k) ltac:(lia)). lia.
  - cbn [seg]. rewrite !field_copy by (unfold LAST, PREV, NEXT; lia). by rewrite !Z.eqb_refl.
  - apply seg_copy; [|done]. intros a b Hin. pose proof (right_index a b Hin (S k) ltac:(lia)). lia.
Qed.

Lemma new_before_right a b : (a, b) ∈ [(S k, j)] -> forall x y, (x, y) ∈ H2 -> q a < q x.
Proof. intros [= -> ->]%list_elem_of_singleton x y Hin. apply (right_index x y Hin). lia. Qed.

(** The hole begins later. *)
Lemma fix_move :
  (S k < j)%nat -> field m LAST (q i) = B j ->
  let m1 := copy_hole m (q (S k)) (q i) in
  let m2 := if N =? 0 then m1 else set_field m1 PREV N (q (S k)) in
  seg (if P =? 0 then m2 else set_field m2 NEXT P (q (S k))) 0 (if P =? 0 then q (S k) else first)
    (H1 ++ (S k, j) :: H2) 0.
Proof.
  intros Hj HB. cbv zeta. pose proof hole_bound. pose proof (q_range (S k) ltac:(lia)) as Hq.
  destruct (copied Hj HB) as (C1 & C2 & C3).
  destruct (link_right _ _ (q (S k)) _ _ _ _ cross_index ltac:(lia) C1 C3) as [L R].
  destruct (link_right _ _ (q (S k)) _ _ _ _ new_before_right ltac:(lia) C2 C3) as [X _].
  apply seg_app. exists (q (S k)). split.
  - apply relink with (mid := q i); [apply left_good|lia|done].
  - apply relink_frame; [|lia|].
    + intros a b Hin x y [[= -> ->]|I2]%elem_of_cons; [|by apply (cross_index a b Hin x y)].
      apply (left_index a b Hin). lia.
    + change ((S k, j) :: H2) with ([(S k, j)] ++ H2). apply seg_app. by exists N.
Qed.

(** The hole is split. *)
Lemma fix_split :
  (i < k)%nat -> (S k < j)%nat -> field m LAST (q i) = B j ->
  let m1 := copy_hole m (q (S k)) (q i) in
  let m2 := set_field m1 LAST (q i) (c k) in
  let m3 := set_field m2 NEXT (q i) (q (S k)) in
  let m4 := set_field m3 PREV (q (S k)) (q i) in
  seg (if N =? 0 then m4 else set_field m4 PREV N (q (S k))) 0 first
    (H1 ++ (i, k) :: (S k, j) :: H2) 0.
Proof.
  intros Hik Hj HB. cbv zeta. pose proof hole_bound as [Hi Hjn]. pose proof (q_range (S k) ltac:(lia)) as Hq.
  pose proof (q_range i ltac:(lia)). pose proof (q_lt i (S k) ltac:(lia)) as Hlt. pose proof (c_range k ltac:(lia)).
  destruct (copied Hj HB) as (C1 & C2 & C3).
  set (m1 := copy_hole m (q (S k)) (q i)) in *. set (m4 := set_field (set_field _ _ _ _) _ _ _).
  assert (D1 : seg m4 0 first H1 (q i)).
  { unfold m4. repeat (apply seg_set; [unfold LAST, PREV, NEXT; lia|lia|..]); try done.
    all: intros a b Hin; pose proof (left_index a b Hin (S k) ltac:(lia));
      pose proof (left_index a b Hin i ltac:(lia)); lia. }
  assert (D3 : seg m4 (q i) N H2 0).
  { unfold m4. repeat (apply seg_set; [unfold LAST, PREV, NEXT; lia|lia|..]); try done.
    all: intros a b Hin; pose proof (right_index a b Hin (S k) ltac:(lia));
      pose proof (right_index a b Hin i ltac:(lia)); lia. }
  assert (D2 : seg m4 P (q i) [(i, k); (S k, j)] N).
  { cbn [seg]. unfold m4. rewrite !field_set by (unfold LAST, PREV, NEXT; lia).
    unfold m1. rewrite !field_copy by (unfold LAST, PREV, NEXT; lia).
    rewrite !Z.eqb_refl, (proj2 (Z.eqb_neq (q i) (q (S k)))), (proj2 (Z.eqb_neq (q (S k)) (q i))) by lia.
    cbn. unfold B. rewrite (proj2 (Nat.eqb_neq k n)) by lia. by repeat split. }
  destruct (link_right _ _ (q (S k)) _ _ _ _ cross_index ltac:(lia) D1 D3) as [L R].
  assert (Hnew : forall a b, (a, b) ∈ [(i, k); (S k, j)] -> forall x y, (x, y) ∈ H2 -> q a < q x).
  { intros a b [[= -> ->]|[= -> ->]%list_elem_of_singleton]%elem_of_cons x y Hin; apply (right_index x y Hin); lia. }
  destruct (link_right _ _ (q (S k)) _ _ _ _ Hnew ltac:(lia) D2 D3) as [X _].
  apply seg_app. exists (q i). split; [done|].
  change ((i, k) :: (S k, j) :: H2) with ([(i, k); (S k, j)] ++ H2). apply seg_app. by exists N.
Qed.

Lemma prev_is_0 : (P =? 0) = true <-> H1 = [].
Proof.
  rewrite Z.eqb_eq. destruct prev_cases as [[-> ->]|(a & b & Hin & -> & _ & Hpos)]; [done|].
  split; [lia|]. intros ->. inversion Hin.
Qed.

Lemma next_is_0 : (N =? 0) = true <-> H2 = [].
Proof.
  rewrite Z.eqb_eq. destruct next_cases as [[-> ->]|(a & b & G & E & -> & _ & Hpos)]; [done|].
  split; [lia|]. by rewrite E.
Qed.

Lemma new_index : (S k < j)%nat -> q k + Z.quot (c (S k) - c k) 8 = q (S k).
Proof.
  intros Hj. pose proof hole_bound. pose proof (c_lt k (S k) ltac:(lia)).
  rewrite (q_8 k), (q_8 (S k)) in * by lia. Z.to_euclidean_division_equations; lia.
Qed.

Lemma moved_prev m2 :
  (S k < j)%nat ->
  field (if N =? 0 then m2 else set_field m2 PREV N (q (S k))) PREV (q (S k)) = field m2 PREV (q (S k)).
Proof.
  intros Hj. destruct next_cases as [[_ ->]|(a & b & G & EG & -> & Ha & Hpos)]; [done|]. pose proof hole_bound.
  pose proof (q_lt (S k) a ltac:(lia)). pose proof (q_range (S k) ltac:(lia)).
  rewrite (proj2 (Z.eqb_neq (q a) 0)), field_set by (unfold PREV; lia).
  by rewrite (proj2 (Z.eqb_neq (q (S k)) (q a))), andb_false_r by lia.
Qed.

Lemma split_next :
  (i < k)%nat -> (S k < j)%nat ->
  field (set_field (set_field (set_field (copy_hole m (q (S k)) (q i)) LAST (q i) (c k)) NEXT (q i) (q (S k)))
    PREV (q (S k)) (q i)) NEXT (q (S k)) = N.
Proof.
  intros Hik Hj. pose proof hole_bound. pose proof (q_lt i (S k) ltac:(lia)). pose proof (q_range (S k) ltac:(lia)).
  pose proof (q_range i ltac:(lia)). pose proof (c_range k ltac:(lia)).
  rewrite !field_set, field_copy by (unfold LAST, PREV, NEXT; lia). cbn.
  by rewrite (proj2 (Z.eqb_neq (q (S k)) (q i))), Z.eqb_refl by lia.
Qed.

Lemma fix_spec len m' first' done :
  (field m LAST (q i) <=? c k + len) = Nat.eqb (S k) j ->
  ((S k < j)%nat -> field m LAST (q i) = B j) -> len = c (S k) - c k ->
  fix_holes be m first (q i) (q k) (c k) len = (m', first', done) ->
  if done then H1 = [] /\ H2 = [] /\ k = i /\ S k = j
  else H1 ++ rest_of i j k ++ H2 <> [] /\ seg m' 0 first' (H1 ++ rest_of i j k ++ H2) 0.
Proof.
  intros Hfit HB ->. pose proof hole_bound as [Hi Hjn]. unfold fix_holes, rest_of.
  rewrite Hfit, Hprev. assert (Hki : (q k <=? q i) = Nat.eqb k i).
  { destruct (Nat.eqb_spec k i) as [->|]; [lia|]. pose proof (q_lt i k ltac:(lia)). lia. }
  rewrite Hki. pose proof prev_is_0 as HP. pose proof next_is_0 as HN.
  destruct (Nat.eqb_spec k i) as [E|E], (Nat.eqb_spec (S k) j) as [E'|E']; cbn [andb].
  - rewrite (proj2 (Nat.ltb_ge i k)), (proj2 (Nat.ltb_ge (S k) j)) by lia. cbn [app].
    pose proof fix_remove as HR. cbv zeta in HR.
    destruct (P =? 0) eqn:EP, (N =? 0) eqn:EN; cbn [andb]; intros [= <- <- <-].
    + by repeat split; [apply HP|apply HN|..].
    + split; [intros [_ HH]%app_eq_nil; apply HN in HH; congruence|].
      by rewrite (proj1 (Z.eqb_eq _ _) EP) in HR.
    + split; [intros [HH _]%app_eq_nil; apply HP in HH; congruence|].
      by rewrite (proj1 (Z.eqb_eq _ _) EN) in HR.
    + split; [intros [HH _]%app_eq_nil; apply HP in HH; congruence|done].
  - rewrite (proj2 (Nat.ltb_ge i k)), (proj2 (Nat.ltb_lt (S k) j)) by lia. cbn [app].
    rewrite new_index by lia. pose proof (fix_move ltac:(lia) (HB ltac:(lia))) as HM. cbv zeta in HM.
    rewrite field_copy, Z.eqb_refl by (unfold NEXT; lia).
    rewrite moved_prev, field_copy, Z.eqb_refl, Hprev by (unfold PREV; lia).
    destruct (P =? 0); intros [= <- <- <-]; (split; [|done]); intros [_ HH]%app_eq_nil; done.
  - rewrite (proj2 (Nat.ltb_lt i k)), (proj2 (Nat.ltb_ge (S k) j)) by lia. cbn [app].
    intros [= <- <- <-]. split; [by intros [_ HH]%app_eq_nil|]. apply fix_shorten. lia.
  - rewrite (proj2 (Nat.ltb_lt i k)), (proj2 (Nat.ltb_lt (S k) j)) by lia. cbn [app].
    rewrite new_index by lia. pose proof (fix_split ltac:(lia) ltac:(lia) (HB ltac:(lia))) as HS. cbv zeta in HS.
    rewrite split_next by lia. intros [= <- <- <-]. by split; [intros [_ HH]%app_eq_nil|].
Qed.

Lemma out_hole b x : no_descriptor (H1 ++ (i, j) :: H2) b -> (i <= x < j)%nat -> ~ (hole (q x) <= b < hole (q x) + 8).
Proof.
  intros Hb Hx. pose proof hole_bound. apply Hb; [lia|]. exists i, j. split; [|done].
  apply elem_of_app. right. left.
Qed.

Lemma out_prev b : no_descriptor (H1 ++ (i, j) :: H2) b -> (P =? 0) = false -> ~ (hole P <= b < hole P + 8).
Proof.
  intros Hb HP. pose proof hole_bound.
  destruct prev_cases as [[_ E]|(x & y & Hin & -> & Hx & _)]; [by rewrite E in HP|].
  apply Hb; [lia|]. exists x, y. split; [apply elem_of_app; by left|].
  destruct (proj1 (good_around _ _ _ _) Hgood) as [[_ _ _ HB _] _]. destruct (HB x y Hin). lia.
Qed.

Lemma out_next b : no_descriptor (H1 ++ (i, j) :: H2) b -> (N =? 0) = false -> ~ (hole N <= b < hole N + 8).
Proof.
  intros Hb HN. destruct next_cases as [[_ E]|(x & y & G & EG & -> & Hx & _)]; [by rewrite E in HN|].
  assert (Hin : (x, y) ∈ H2) by (rewrite EG; left).
  apply Hb; [lia|]. exists x, y. split; [apply elem_of_app; right; by right|].
  destruct (proj1 (good_around _ _ _ _) Hgood) as [[_ _ _ _ HA] _]. destruct (HA x y Hin). lia.
Qed.

(** Only descriptors of missing fragments are written. *)
Lemma fix_outside len m' first' done b :
  (field m LAST (q i) <=? c k + len) = Nat.eqb (S k) j -> len = c (S k) - c k ->
  fix_holes be m first (q i) (q k) (c k) len = (m', first', done) ->
  no_descriptor (H1 ++ (i, j) :: H2) b -> m' b = m b.
Proof.
  intros Hfit -> Hfix Hb. pose proof hole_bound. unfold fix_holes in Hfix. rewrite Hfit, Hprev in Hfix.
  pose proof (out_hole b i Hb ltac:(lia)) as Oi. pose proof (out_prev b Hb) as OP. pose proof (out_next b Hb) as ON.
  destruct (Nat.eqb_spec (S k) j) as [E|E]; rewrite ?andb_true_r, ?andb_false_r in Hfix; cbn [andb] in Hfix.
  - destruct (P =? 0), (N =? 0), (q k <=? q i); cbn [andb] in Hfix; simplify_eq;
      rewrite ?set_field_out by (first [by auto|unfold LAST, PREV, NEXT; lia]); done.
  - pose proof (out_hole b (S k) Hb ltac:(lia)) as On. rewrite new_index in Hfix by lia.
    destruct (q k <=? q i) eqn:Eki.
    + rewrite field_copy, Z.eqb_refl, moved_prev, field_copy, Z.eqb_refl, Hprev in Hfix by (unfold NEXT, PREV; lia).
      destruct (P =? 0), (N =? 0); simplify_eq;
        rewrite ?set_field_out by (first [by auto|unfold LAST, PREV, NEXT; lia]); by apply copy_hole_out.
    + assert (i < k)%nat by (destruct (decide (i = k)) as [->|]; lia).
      rewrite split_next in Hfix by lia.
      destruct (N =? 0); simplify_eq;
        rewrite ?set_field_out by (first [by auto|unfold LAST, PREV, NEXT; lia]); by apply copy_hole_out.
Qed.
End Fix.

Lemma B_lt j k : (j <= n)%nat -> (k < n)%nat -> (B j <? c k) = Nat.ltb j k.
Proof.
  intros Hj Hk. unfold B. pose proof (c_range k ltac:(lia)).
  destruct (Nat.eqb_spec j n) as [->|Hne].
  { rewrite (proj2 (Nat.ltb_ge n k)) by lia. lia. }
  destruct (Nat.ltb_spec j k) as [Hl|Hl].
  - pose proof (c_lt j k ltac:(lia)). lia.
  - pose proof (c_le k j ltac:(lia)). lia.
Qed.

Lemma good_cons i j H : good ((i, j) :: H) -> good [(i, j)] /\ good H /\ forall a b, (a, b) ∈ H -> (j < a)%nat.
Proof.
  change ((i, j) :: H) with ([(i, j)] ++ H). intros (G1 & G2 & R)%good_app. repeat split; try done; try apply G1; try apply G2.
  intros a b Hin. apply (R i j a b); [left|done].
Qed.

Lemma good_length H : forall lo, good H -> (forall a b, (a, b) ∈ H -> (lo < a)%nat) -> (lo <= n)%nat ->
  (length H + lo <= n)%nat.
Proof.
  induction H as [|[i j] H IH]; intros lo HG Hlo Hn; cbn [length]; [lia|].
  apply good_cons in HG as (Gi%good_1 & G & R). specialize (Hlo i j (list_elem_of_here _ _)).
  assert (Hlo' : forall a b, (a, b) ∈ H -> (S lo < a)%nat) by (intros a b Hin; specialize (R a b Hin); lia).
  specialize (IH (S lo) G Hlo'). lia.
Qed.

(** The search finds the first hole that ends where fragment [k] begins, or later. *)
Lemma find_spec k H : forall fuel m prev first,
  (k < n)%nat -> good H -> H <> [] -> (length H <= fuel)%nat -> seg m prev first H 0 ->
  (find_hole be fuel m (c k) first = Some None /\ forall a b, (a, b) ∈ H -> (b < k)%nat) \/
  exists H1 i j H2, H = H1 ++ (i, j) :: H2 /\ (k <= j)%nat /\
    (forall a b, (a, b) ∈ H1 -> (b < k)%nat) /\ find_hole be fuel m (c k) first = Some (Some (q i)).
Proof.
  intros fuel m prev first Hk. revert fuel prev first.
  induction H as [|[i j] H IH]; intros fuel prev first HG Hne Hf Hs; [done|].
  destruct fuel as [|fuel]; [cbn in Hf; lia|]. cbn [length] in Hf. cbn [seg] in Hs.
  destruct Hs as (-> & HL & _ & Hs). apply good_cons in HG as (Gi%good_1 & G & R).
  cbn [find_hole]. rewrite HL, B_lt by lia. destruct (Nat.ltb_spec j k) as [Hjk|Hjk].
  - destruct H as [|[a b] H].
    + cbn [seg] in Hs. rewrite Hs. cbn [Z.eqb]. left. split; [done|].
      intros a b [= -> ->]%list_elem_of_singleton. done.
    + pose proof Hs as [Ha _]. rewrite Ha in Hs |- *.
      pose proof (good_cons _ _ _ G) as (Ga%good_1 & _). pose proof (q_pos a ltac:(lia)).
      rewrite (proj2 (Z.eqb_neq (q a) 0)) by lia.
      destruct (IH fuel (q i) (q a) G) as [[E Hall]|(H1 & x & y & H2 & E & Hy & Hb & Hr)]; [done|lia|done|..].
      * left. split; [done|]. intros a' b' [[= -> ->]|Hin]%elem_of_cons; [done|by apply (Hall a')].
      * right. exists ((i, j) :: H1), x, y, H2. split; [by rewrite E|]. split; [done|]. split; [|done].
        intros a' b' [[= -> ->]|Hin]%elem_of_cons; [done|by apply (Hb a')].
  - right. exists [], i, j, H. repeat split; [lia|]. intros a b Hin. inversion Hin.
Qed.

Lemma missing_app x A C : missing x (A ++ C) <-> missing x A \/ missing x C.
Proof.
  unfold missing. setoid_rewrite elem_of_app. split.
  - intros (a & b & [Hin|Hin] & Hx); [left|right]; by exists a, b.
  - intros [(a & b & Hin & Hx)|(a & b & Hin & Hx)]; exists a, b; tauto.
Qed.

Lemma missing_1 x i j : missing x [(i, j)] <-> (i <= x < j)%nat.
Proof.
  unfold missing. setoid_rewrite list_elem_of_singleton. split; [by intros (a & b & [= -> ->] & Hx)|].
  intros Hx. by exists i, j.
Qed.

Lemma missing_nil x : ~ missing x [].
Proof. intros (a & b & Hin & _). inversion Hin. Qed.

Lemma missing_rest x i j k : (i <= k < j)%nat -> missing x (rest_of i j k) <-> (i <= x < j)%nat /\ x <> k.
Proof.
  intros Hk. unfold rest_of. rewrite missing_app. pose proof (missing_nil x).
  destruct (Nat.ltb_spec i k), (Nat.ltb_spec (S k) j); rewrite ?missing_1; intuition lia.
Qed.

Lemma rest_within a b i j k : (i <= k < j)%nat -> (a, b) ∈ rest_of i j k -> (i <= a < b)%nat /\ (b <= j)%nat.
Proof.
  intros Hk. unfold rest_of. rewrite elem_of_app.
  destruct (Nat.ltb_spec i k), (Nat.ltb_spec (S k) j); rewrite ?list_elem_of_singleton;
    intros [Hin|Hin]; (by inversion Hin) || (simplify_eq; lia).
Qed.

Lemma rest_good H1 i j H2 k :
  good (H1 ++ (i, j) :: H2) -> (i <= k < j)%nat -> good (H1 ++ rest_of i j k ++ H2).
Proof.
  intros [[G1 G2 Gi HB HA] R]%good_around Hk. apply good_app. split; [done|]. split.
  - apply good_app. split; [|split; [done|]].
    + unfold rest_of. destruct (Nat.ltb_spec i k), (Nat.ltb_spec (S k) j); cbn [app];
        [apply (good_app [_]); split; [|split]|..]; rewrite ?good_1; try lia; try done.
      * intros a b a' b' [= -> ->]%list_elem_of_singleton [= -> ->]%list_elem_of_singleton. lia.
      * split; [by apply Forall_nil|constructor].
    + intros a b a' b' I1 I2. destruct (rest_within a b i j k Hk I1), (HA _ _ I2). lia.
  - intros a b a' b' I1 [I2|I2]%elem_of_app; [|by apply (R a b a' b')].
    destruct (rest_within a' b' i j k Hk I2), (HB _ _ I1). lia.
Qed.

Lemma rest_missing H1 i j H2 k x :
  good (H1 ++ (i, j) :: H2) -> (i <= k < j)%nat ->
  missing x (H1 ++ rest_of i j k ++ H2) <-> missing x (H1 ++ (i, j) :: H2) /\ x <> k.
Proof.
  intros [[_ _ _ HB HA] _]%good_around Hk. change ((i, j) :: H2) with ([(i, j)] ++ H2).
  rewrite !missing_app, missing_rest, missing_1 by done.
  assert (missing x H1 -> x <> k) by (intros (a & b & Hin & Hx); destruct (HB a b Hin); lia).
  assert (missing x H2 -> x <> k) by (intros (a & b & Hin & Hx); destruct (HA a b Hin); lia).
  tauto.
Qed.

(** ** One fragment *)

Definition slice (k : nat) : list Z := firstn (Z.to_nat (c (S k) - c k)) (skipn (Z.to_nat (c k)) data).

Lemma slice_length k : (k < n)%nat -> Z.of_nat (length (slice k)) = c (S k) - c k.
Proof.
  intros Hk. unfold slice. rewrite length_firstn, length_skipn.
  pose proof (cut_last _ _ _ Hcut). pose proof (c_range k ltac:(lia)). pose proof (c_lt k (S k) ltac:(lia)).
  pose proof (c_le (S k) n ltac:(lia)). lia.
Qed.

(** The packet [ip] carries fragment [k] of the datagram [id]. *)
Record fragment (id : Z) (k : nat) (ip : list Z) : Prop := {
  fr_index : (k < n)%nat;
  fr_len : net16 (rd ip) 2 = IP_HDR_SIZE_NO_UDP + (c (S k) - c k);
  fr_off : 8 * Z.land (net16 (rd ip) 6) IP_OFFS = c k;
  fr_more : (Z.land (net16 (rd ip) 6) IP_FLAGS_MFRAG =? 0) = Nat.eqb (S k) n;
  fr_id : get16 be (rd ip) 4 = id;
  fr_data : mem_list (rd ip) 20 (Z.to_nat (c (S k) - c k)) = slice k }.

(** The state while the fragments in the holes [H] are missing; [hd] is the header. *)
Record pending (id : Z) (hd : list Z) (s : defrag) (H : holes) : Prop := {
  pe_good : good H;
  pe_some : H <> [];
  pe_list : seg (pkt_buff s) 0 (first_hole s) H 0;
  pe_total : total_len s <> 0;
  pe_known : ~ missing (n - 1) H -> total_len s = c n;
  pe_data : forall k, (k < n)%nat -> ~ missing k H ->
    forall b, c k <= b < c (S k) -> pkt_buff s (20 + b) = rd data b;
  pe_id : get16 be (pkt_buff s) 4 = id;
  pe_head : mem_list (pkt_buff s) 0 20 = hd }.

Lemma rd_slice k b : (k < n)%nat -> c k <= b < c (S k) -> rd (slice k) (b - c k) = rd data b.
Proof.
  intros Hk Hb. pose proof (c_range k ltac:(lia)). unfold rd, slice. rewrite nth_firstn.
  rewrite (proj2 (Nat.ltb_lt _ _)) by lia. rewrite nth_skipn. f_equal. lia.
Qed.

(** A byte of another fragment that has been received, or of the header, lies in no
    descriptor. *)
Lemma received_clear H k b :
  (k < n)%nat -> ~ missing k H -> c k <= b < c (S k) -> no_descriptor H (20 + b).
Proof.
  intros Hk Hm Hb x Hx Hmx. unfold hole, IP_HDR_SIZE_NO_UDP. rewrite <- q_8 by done.
  destruct (lt_eq_lt_dec k x) as [[Hlt| ->]|Hlt]; [|done|].
  - pose proof (c_le (S k) x ltac:(lia)). lia.
  - pose proof (c_lt x k ltac:(lia)). lia.
Qed.

Lemma head_clear H b : b < 20 -> no_descriptor H b.
Proof. intros Hb x Hx _. pose proof (q_range x Hx). unfold hole, IP_HDR_SIZE_NO_UDP. lia. Qed.

(** The data of fragment [k] are stored. *)
Lemma store_pending id hd s H m first total H' k :
  pending id hd s H -> (k < n)%nat -> good H' -> H' <> [] -> seg m 0 first H' 0 ->
  (forall x, missing x H' <-> missing x H /\ x <> k) ->
  (forall b, no_descriptor H b -> m b = pkt_buff s b) ->
  total <> 0 -> (~ missing (n - 1) H' -> total = c n) ->
  pending id hd (Defrag (store_list m (hole (q k)) (slice k)) first total) H'.
Proof.
  intros [_ _ _ _ _ Hd Hid Hh] Hk HG Hne Hs Hm Hout Ht Hknown.
  pose proof (c_lt k (S k) ltac:(lia)). pose proof (slice_length k Hk) as Hlen. pose proof (c_range k ltac:(lia)).
  assert (Hhead : forall b, b < 20 -> store_list m (hole (q k)) (slice k) b = pkt_buff s b).
  { intros b Hb. rewrite store_list_out by (unfold hole, IP_HDR_SIZE_NO_UDP; rewrite <- q_8; lia).
    apply Hout, head_clear, Hb. }
  split; cbn [pkt_buff first_hole total_len]; try done.
  - revert Hs. apply seg_frame. intros a b f Hin Hf. apply field_store; [lia|].
    assert (Hma : missing a H') by (exists a, b; destruct (good_in _ _ _ HG Hin); split; [done|lia]).
    apply Hm in Hma as [_ Hak]. destruct (good_in _ _ _ HG Hin). unfold hole, IP_HDR_SIZE_NO_UDP.
    rewrite <- !q_8 by lia. destruct (decide (a < k)%nat).
    + pose proof (c_lt a k ltac:(lia)). lia.
    + pose proof (c_le (S k) a ltac:(lia)). lia.
  - intros x Hx Hmx b Hb. unfold hole, IP_HDR_SIZE_NO_UDP. rewrite <- q_8 by done.
    destruct (decide (x = k)) as [->|Hxk].
    + replace (20 + b) with (20 + c k + (b - c k)) by lia. rewrite store_list_in by lia. by apply rd_slice.
    + assert (Hnm : ~ missing x H) by (rewrite Hm in Hmx; tauto).
      rewrite store_list_out.
      * rewrite Hout by (by apply (received_clear H x)). by apply (Hd x).
      * destruct (decide (x < k)%nat); [pose proof (c_le (S x) k ltac:(lia))|pose proof (c_le (S k) x ltac:(lia))]; lia.
  - rewrite <- Hid. apply get16_ext; apply Hhead; lia.
  - rewrite <- Hh. apply mem_list_ext. intros b Hb. apply Hhead. lia.
Qed.

(** The call for fragment [k], once the state is that of its datagram. *)
Definition process (k : nat) (s : defrag) : defrag * outcome :=
  let '(Defrag m first total) := s in
  let len := c (S k) - c k in
  match find_hole be (Z.to_nat 65537) m (c k) first with
  | None => (Defrag m first total, Hangs)
  | Some None => (Defrag m first total, Null)
  | Some (Some h) =>
    if q k + Z.quot len 8 <=? h then (Defrag m first total, Null)
    else
      let '(m, total) := if Nat.eqb (S k) n then (set_field m LAST h (c n), c n) else (m, total) in
      let '(m, first, done) := fix_holes be m first h (q k) (c k) len in
      let m := store_list m (hole (q k)) (slice k) in
      if done then (Defrag (put_net16 m 2 total) first total, Packet (total + IP_HDR_SIZE_NO_UDP))
      else (Defrag m first total, Null)
  end.

Lemma fragment_off id k ip : fragment id k ip -> Z.land (net16 (rd ip) 6) IP_OFFS = q k.
Proof. intros Hf. pose proof (fr_off _ _ _ Hf) as Ho. rewrite q_8 in Ho by apply Hf. lia. Qed.

Lemma fragment_flags id k ip :
  fragment id k ip -> (Z.land (net16 (rd ip) 6) (Z.lor IP_OFFS IP_FLAGS_MFRAG) =? 0) = false.
Proof.
  intros Hf. apply Z.eqb_neq. rewrite Z.land_lor_distr_r. intros [Ho Hm]%Z.lor_eq_0_iff.
  rewrite (fragment_off _ _ _ Hf) in Ho. pose proof (fr_more _ _ _ Hf) as Hn. rewrite Hm in Hn.
  pose proof (cut_several _ _ _ Hcut). pose proof (fr_index _ _ _ Hf).
  destruct k as [|k]; [destruct n as [|[|?]]; [lia|lia|done]|].
  pose proof (q_pos (S k) ltac:(lia)). lia.
Qed.

(** The state after the test for a new datagram. *)
Definition current (ip : list Z) (s : defrag) : defrag :=
  if (total_len s =? 0) || negb (get16 be (pkt_buff s) 4 =? get16 be (rd ip) 4) then
    Defrag (store_list (set_field (set_field (set_field (pkt_buff s) LAST 0 65535) NEXT 0 0) PREV 0 0)
              0 (mem_list (rd ip) 0 20)) 0 65535
  else s.

Lemma NetDefragment_process id k ip s :
  fragment id k ip -> NetDefragment be ip s = process k (current ip s).
Proof.
  intros Hf. unfold NetDefragment, __NetDefragment. rewrite (fragment_flags _ _ _ Hf).
  rewrite (fragment_off _ _ _ Hf), (fr_len _ _ _ Hf), (fr_more _ _ _ Hf).
  pose proof (fr_index _ _ _ Hf) as Hk. pose proof (c_range (S k) ltac:(lia)). pose proof (c_lt k (S k) ltac:(lia)).
  replace (q k * 8) with (c k) by (rewrite (q_8 k Hk); lia).
  replace (IP_HDR_SIZE_NO_UDP + (c (S k) - c k) - IP_HDR_SIZE_NO_UDP) with (c (S k) - c k) by lia.
  replace (c k + (c (S k) - c k)) with (c (S k)) by lia. pose proof (c_range k ltac:(lia)).
  rewrite (u32_small (c (S k))) by lia. rewrite (proj2 (Z.ltb_ge IP_MAXUDP _)) by (change IP_MAXUDP with 16464; lia).
  fold (current ip s). rewrite (fr_data _ _ _ Hf). destruct (current ip s) as [m first total]. unfold process.
  destruct (find_hole _ _ m _ _) as [[h|]|]; [|done..]. destruct (_ <=? h); [done|].
  rewrite (proj2 (Z.ltb_ge (c (S k) - c k) 0)) by lia.
  destruct (Nat.eqb_spec (S k) n) as [->|]; [|done].
  unfold u16. pose proof (c_range n ltac:(lia)). rewrite (Z.mod_small (c n)) by lia. done.
Qed.

Lemma n_small : (n <= 2058)%nat.
Proof.
  assert (Hi : forall i, (i <= n)%nat -> 8 * Z.of_nat i <= c i).
  { intros i. induction i as [|i IH]; intros Hi; [rewrite (cut_first _ _ _ Hcut); lia|].
    pose proof (cut_size _ _ _ Hcut i ltac:(lia)). lia. }
  specialize (Hi n ltac:(lia)). pose proof (c_range n ltac:(lia)). lia.
Qed.

Lemma piece_of b : 0 <= b < c n -> exists x, (x < n)%nat /\ c x <= b < c (S x).
Proof.
  intros Hb. assert (Hi : forall i, (i <= n)%nat -> b < c i -> exists x, (x < i)%nat /\ c x <= b < c (S x)).
  { intros i. induction i as [|i IH]; intros Hi Hlt; [rewrite (cut_first _ _ _ Hcut) in Hlt; lia|].
    destruct (decide (b < c i)); [|exists i; lia].
    destruct IH as (x & Hx & Hbx); [lia|done|]. exists x. split; [lia|done]. }
  destruct (Hi n) as (x & Hx & Hbx); [lia|lia|]. by exists x.
Qed.

(** The state after the last missing fragment: the header, with the length of the data
    in its length field, and the data. *)
Record whole (hd : list Z) (s : defrag) : Prop := {
  wh_data : mem_list (pkt_buff s) 20 (length data) = data;
  wh_head : mem_list (pkt_buff s) 0 20 =
    firstn 2 hd ++ [u8 (Z.shiftr (c n) 8); u8 (c n)] ++ skipn 4 hd }.

Lemma store_whole id hd s H m first total k :
  pending id hd s H -> (k < n)%nat -> (forall x, missing x H -> x = k) ->
  (forall b, no_descriptor H b -> m b = pkt_buff s b) ->
  whole hd (Defrag (put_net16 (store_list m (hole (q k)) (slice k)) 2 (c n)) first total).
Proof.
  intros [_ _ _ _ _ Hd _ Hh] Hk Hm Hout. pose proof (c_lt k (S k) ltac:(lia)).
  pose proof (slice_length k Hk) as Hlen. pose proof (c_range k ltac:(lia)).
  split; cbn [pkt_buff].
  - apply mem_list_eq. rewrite <- (cut_last _ _ _ Hcut). intros b Hb. unfold put_net16.
    rewrite !upd_ne by lia. destruct (piece_of b Hb) as (x & Hx & Hbx). unfold hole, IP_HDR_SIZE_NO_UDP.
    rewrite <- q_8 by done. destruct (decide (x = k)) as [->|Hxk].
    + replace (20 + b) with (20 + c k + (b - c k)) by lia. rewrite store_list_in by lia. by apply rd_slice.
    + assert (~ missing x H) by (intros Hmx; by apply Hm in Hmx). rewrite store_list_out.
      * rewrite Hout by (by apply (received_clear H x)). by apply (Hd x).
      * destruct (decide (x < k)%nat); [pose proof (c_le (S x) k ltac:(lia))|pose proof (c_le (S k) x ltac:(lia))]; lia.
  - rewrite <- Hh. set (m' := store_list _ _ _).
    assert (Hhead : forall b, b < 20 -> m' b = pkt_buff s b).
    { intros b Hb. unfold m'. rewrite store_list_out by (unfold hole, IP_HDR_SIZE_NO_UDP; rewrite <- q_8; lia).
      apply Hout, head_clear, Hb. }
    unfold put_net16, upd. clearbody m'. cbn. by rewrite !Hhead by lia.
Qed.

(** A fragment that has been received, while the hole before it is still there. *)
Lemma duplicate_fix m first H i k :
  good H -> (i, k) ∈ H -> (k < n)%nat -> seg m 0 first H 0 ->
  let m1 := if Nat.eqb (S k) n then set_field m LAST (q i) (c n) else m in
  field m LAST (q i) = B k ->
  exists m', fix_holes be m1 first (q i) (q k) (c k) (c (S k) - c k) = (m', first, false) /\
    seg m' 0 first H 0 /\ forall b, no_descriptor H b -> m' b = m b.
Proof.
  intros HG Hin Hk Hs m1 HL. destruct (good_in _ _ _ HG Hin) as [Hi _].
  pose proof (c_range n ltac:(lia)). pose proof (c_range k ltac:(lia)). pose proof (c_lt k (S k) ltac:(lia)).
  pose proof (c_le (S k) n ltac:(lia)). pose proof (q_lt i k ltac:(lia)).
  assert (HB : B k = c k) by (unfold B; by rewrite (proj2 (Nat.eqb_neq k n)) by lia).
  assert (Hfit : (field m1 LAST (q i) <=? c k + (c (S k) - c k)) = true).
  { unfold m1. destruct (Nat.eqb_spec (S k) n) as [E|E]; [|rewrite HL, HB; lia].
    rewrite field_set by (unfold LAST; lia). rewrite !Z.eqb_refl. cbn [andb]. rewrite E. lia. }
  exists (set_field m1 LAST (q i) (c k)). unfold fix_holes. rewrite Hfit.
  rewrite (proj2 (Z.leb_gt (q k) (q i))) by lia. cbn [andb]. split; [done|]. split.
  - revert Hs. apply seg_frame. intros a b f Hab Hf. rewrite field_set by (unfold LAST; lia).
    destruct (Z.eqb_spec f LAST) as [->|Hne], (Z.eqb_spec (q a) (q i)) as [E|E]; cbn [andb].
    + by rewrite E, HL, HB.
    + unfold m1. destruct (Nat.eqb (S k) n); [|done]. rewrite field_set by (unfold LAST; lia). bdestruct.
    + unfold m1. destruct (Nat.eqb (S k) n); [|done]. rewrite field_set by (unfold LAST; lia). bdestruct.
    + unfold m1. destruct (Nat.eqb (S k) n); [|done]. rewrite field_set by (unfold LAST; lia). bdestruct.
  - intros b Hb. assert (Ob : ~ (hole (q i) <= b < hole (q i) + 8)).
    { apply Hb; [lia|]. exists i, k. split; [done|lia]. }
    rewrite set_field_out by (done || (unfold LAST; lia)). unfold m1.
    destruct (Nat.eqb (S k) n); [|done]. by rewrite set_field_out by (done || (unfold LAST; lia)).
Qed.

(** A new fragment. *)
Lemma new_fix m first H1 i j H2 k :
  good (H1 ++ (i, j) :: H2) -> (i <= k < j)%nat -> seg m 0 first (H1 ++ (i, j) :: H2) 0 ->
  let m1 := if Nat.eqb (S k) n then set_field m LAST (q i) (c n) else m in
  exists m' first' done,
    fix_holes be m1 first (q i) (q k) (c k) (c (S k) - c k) = (m', first', done) /\
    (if done then H1 = [] /\ H2 = [] /\ k = i /\ S k = j
     else H1 ++ rest_of i j k ++ H2 <> [] /\ seg m' 0 first' (H1 ++ rest_of i j k ++ H2) 0) /\
    forall b, no_descriptor (H1 ++ (i, j) :: H2) b -> m' b = m b.
Proof.
  intros HG Hk (x & Hl & HX)%seg_app m1. cbn [seg] in HX. destruct HX as (-> & HL & HP & Hr).
  pose proof (proj1 (good_around _ _ _ _) HG) as [[_ _ [Hi Hj] _ _] _].
  pose proof (c_range n ltac:(lia)). pose proof (c_lt k (S k) ltac:(lia)).
  assert (Hl1 : seg m1 0 first H1 (q i)).
  { unfold m1. destruct (Nat.eqb (S k) n); [|done]. apply seg_set; [unfold LAST; lia|lia| |done].
    intros a b Hin. pose proof (left_index H1 H2 i j k HG Hk a b Hin i). lia. }
  assert (Hn1 : forall f, f = NEXT \/ f = PREV -> field m1 f (q i) = field m f (q i)).
  { intros f Hf. unfold m1. destruct (Nat.eqb (S k) n); [|done].
    destruct Hf as [-> | ->]; by rewrite field_set by (unfold LAST, NEXT, PREV; lia). }
  assert (Hr1 : seg m1 (q i) (field m1 NEXT (q i)) H2 0).
  { rewrite Hn1 by tauto. unfold m1. destruct (Nat.eqb (S k) n); [|done].
    apply seg_set; [unfold LAST; lia|lia| |done].
    intros a b Hin. pose proof (right_index H1 H2 i j k HG Hk a b Hin i). lia. }
  rewrite <- Hn1 in HP by tauto.
  assert (Hfit : (field m1 LAST (q i) <=? c k + (c (S k) - c k)) = Nat.eqb (S k) j).
  { unfold m1. destruct (Nat.eqb_spec (S k) n) as [E|E].
    - rewrite field_set by (unfold LAST; lia). rewrite !Z.eqb_refl. cbn [andb]. rewrite E.
      replace j with n by lia. rewrite Nat.eqb_refl. lia.
    - rewrite HL. unfold B. pose proof (c_range (S k) ltac:(lia)). destruct (Nat.eqb_spec j n), (Nat.eqb_spec (S k) j).
      1: lia. 1: lia. 1: subst; lia. pose proof (c_lt (S k) j ltac:(lia)). lia. }
  assert (HB : (S k < j)%nat -> field m1 LAST (q i) = B j).
  { intros Hlt. unfold m1. by rewrite (proj2 (Nat.eqb_neq (S k) n)) by lia. }
  destruct (fix_holes be m1 first (q i) (q k) (c k) (c (S k) - c k)) as [[m' first'] done] eqn:Hfix.
  exists m', first', done. split; [done|]. split.
  - by apply (fix_spec m1 first H1 H2 i j k HG Hk Hl1 HP Hr1 _ _ _ _ Hfit HB eq_refl Hfix).
  - intros b Hb. rewrite (fix_outside m1 first H1 H2 i j k HG Hk Hl1 HP Hr1 _ _ _ _ b Hfit eq_refl Hfix Hb).
    unfold m1. destruct (Nat.eqb (S k) n); [|done].
    rewrite set_field_out; [done|unfold LAST; lia|]. by apply (out_hole H1 H2 i j k HG Hk b i Hb ltac:(lia)).
Qed.

(** The comparison that tells fragments before the hole from the others. *)
Lemma before_hole i k : (k < n)%nat -> (i < n)%nat -> (q k + Z.quot (c (S k) - c k) 8 <=? q i) = Nat.ltb k i.
Proof.
  intros Hk Hi. pose proof (c_lt k (S k) ltac:(lia)). pose proof (q_8 k Hk).
  destruct (Nat.ltb_spec k i) as [Hlt|Hge].
  - pose proof (q_8 (S k) ltac:(lia)).
    assert (q (S k) <= q i) by (destruct (decide (S k = i)) as [->|]; [lia|pose proof (q_lt (S k) i ltac:(lia)); lia]).
    apply Z.leb_le. Z.to_euclidean_division_equations; lia.
  - assert (q i <= q k) by (destruct (decide (k = i)) as [->|]; [lia|pose proof (q_lt i k ltac:(lia)); lia]).
    apply Z.leb_gt. Z.to_euclidean_division_equations; lia.
Qed.

Lemma not_missing_between H1 i j H2 k :
  good (H1 ++ (i, j) :: H2) -> (forall a b, (a, b) ∈ H1 -> (b < k)%nat) -> (k < i)%nat \/ k = j ->
  ~ missing k (H1 ++ (i, j) :: H2).
Proof.
  intros [[_ _ Hij _ HA] _]%good_around Hb Hk. change ((i, j) :: H2) with ([(i, j)] ++ H2).
  rewrite !missing_app, missing_1. intros [(a & b & Hin & Hx)|[Hx|(a & b & Hin & Hx)]].
  - specialize (Hb a b Hin). lia.
  - lia.
  - destruct (HA a b Hin). lia.
Qed.

(** After the search has found the hole [h]. *)
Definition process_at (k : nat) (h : Z) (s : defrag) : defrag * outcome :=
  let '(Defrag m first total) := s in
  let m1 := if Nat.eqb (S k) n then set_field m LAST h (c n) else m in
  let total := if Nat.eqb (S k) n then c n else total in
  let '(m, first, done) := fix_holes be m1 first h (q k) (c k) (c (S k) - c k) in
  let m := store_list m (hole (q k)) (slice k) in
  if done then (Defrag (put_net16 m 2 total) first total, Packet (total + IP_HDR_SIZE_NO_UDP))
  else (Defrag m first total, Null).

(** How a call can end: waiting, with fewer fragments missing, or with the datagram. *)
Definition advances (id : Z) (hd : list Z) (H : holes) (k : nat) (r : defrag * outcome) : Prop :=
  (r.2 = Null /\ exists H', pending id hd r.1 H' /\ forall x, missing x H' <-> missing x H /\ x <> k) \/
  (r.2 = Packet (IP_HDR_SIZE_NO_UDP + Z.of_nat (length data)) /\ whole hd r.1 /\
   missing k H /\ forall x, missing x H -> x = k).

(** A fragment that is not missing changes nothing that matters. *)
Lemma advances_again id hd s H k :
  pending id hd s H -> ~ missing k H -> advances id hd H k (s, Null).
Proof.
  intros Hp Hk. left. split; [done|]. exists H. split; [done|]. intros x. split; [|tauto].
  intros Hx. split; [done|]. by intros ->.
Qed.

Lemma process_duplicate id hd s H1 i H2 k :
  pending id hd s (H1 ++ (i, k) :: H2) -> (k < n)%nat -> ~ missing k (H1 ++ (i, k) :: H2) ->
  advances id hd (H1 ++ (i, k) :: H2) k (process_at k (q i) s).
Proof.
  intros Hp Hk Hnm. destruct s as [m first total]. pose proof Hp as [HG Hne Hs Ht Hkn _ _ _].
  cbn [pkt_buff first_hole total_len] in *. unfold process_at.
  assert (Hin : (i, k) ∈ H1 ++ (i, k) :: H2) by (apply elem_of_app; right; left).
  pose proof Hs as (x & _ & HX)%seg_app. cbn [seg] in HX. destruct HX as (_ & HL & _).
  destruct (duplicate_fix m first _ i k HG Hin Hk Hs HL) as (m' & -> & Hs' & Hout).
  apply advances_again; [|done]. pose proof (c_lt k n ltac:(lia)). pose proof (c_range k ltac:(lia)).
  apply (store_pending id hd (Defrag m first total) (H1 ++ (i, k) :: H2)); try done.
  - intros y. split; [|tauto]. intros Hy. split; [done|]. by intros ->.
  - destruct (Nat.eqb (S k) n); [lia|done].
  - intros Hl. destruct (Nat.eqb (S k) n); [done|by apply Hkn].
Qed.

Lemma process_new id hd s H1 i j H2 k :
  pending id hd s (H1 ++ (i, j) :: H2) -> (i <= k < j)%nat -> (k < n)%nat ->
  advances id hd (H1 ++ (i, j) :: H2) k (process_at k (q i) s).
Proof.
  intros Hp Hkk Hk. destruct s as [m first total]. pose proof Hp as [HG Hne Hs Ht Hkn _ _ _].
  cbn [pkt_buff first_hole total_len] in *. unfold process_at.
  pose proof (c_lt k n ltac:(lia)). pose proof (c_range k ltac:(lia)).
  destruct (new_fix m first H1 i j H2 k HG Hkk Hs) as (m' & first' & done & -> & Hdone & Hout).
  set (total' := if Nat.eqb (S k) n then c n else total).
  pose proof (fun x => rest_missing H1 i j H2 k x HG Hkk) as Hmiss.
  assert (Hknown : ~ missing (n - 1) (H1 ++ rest_of i j k ++ H2) -> total' = c n).
  { intros Hl. unfold total'. destruct (Nat.eqb_spec (S k) n) as [|Hne']; [done|].
    apply Hkn. intros Hmi. apply Hl, Hmiss. split; [done|lia]. }
  destruct done.
  - right. destruct Hdone as (-> & -> & -> & <-). cbn [app] in *.
    assert (Hall : forall x, missing x [(i, S i)] -> x = i) by (intros x Hx; apply missing_1 in Hx; lia).
    assert (Hr : ~ missing (n - 1) (rest_of i (S i) i ++ [])).
    { rewrite app_nil_r, missing_rest by lia. lia. }
    rewrite (Hknown Hr). cbn [fst snd]. rewrite (cut_last _ _ _ Hcut), Z.add_comm. split; [done|].
    split; [|split; [apply missing_1; lia|done]]. rewrite <- (cut_last _ _ _ Hcut).
    by apply (store_whole id hd (Defrag m first total) [(i, S i)]).
  - left. split; [done|]. exists (H1 ++ rest_of i j k ++ H2). split; [|done]. destruct Hdone as [Hne' Hs'].
    apply (store_pending id hd (Defrag m first total) (H1 ++ (i, j) :: H2)); try done; [by apply rest_good|].
    unfold total'. destruct (Nat.eqb (S k) n); [lia|done].
Qed.

Lemma fragment_spec id hd s H k :
  pending id hd s H -> (k < n)%nat -> advances id hd H k (process k s).
Proof.
  intros Hp Hk. pose proof Hp as [HG Hne Hs _ _ _ _ _]. pose proof n_small as Hn.
  assert (Hf : (length H <= Z.to_nat 65537)%nat).
  { pose proof (good_length H 0 HG) as Hlen. assert (length H + 0 <= n)%nat; [apply Hlen; [|lia]|lia].
    intros a b Hin. destruct (good_in _ _ _ HG Hin). lia. }
  destruct s as [m first total]. cbn [pkt_buff first_hole] in *. unfold process.
  destruct (find_spec k H _ m 0 first Hk HG Hne Hf Hs) as [[-> Hall]|(H1 & i & j & H2 & -> & Hkj & Hb & ->)].
  { apply advances_again; [done|]. intros (a & b & Hin & Hx). specialize (Hall a b Hin). lia. }
  pose proof (proj1 (good_around _ _ _ _) HG) as [[_ _ [Hi Hj] _ _] _].
  rewrite before_hole by lia. destruct (Nat.ltb_spec k i) as [Hki|Hki].
  { apply advances_again; [done|]. apply not_missing_between; [done..|by left]. }
  assert (Hat : forall r : defrag * outcome, process_at k (q i) (Defrag m first total) = r ->
    advances id hd (H1 ++ (i, j) :: H2) k r).
  { intros r <-. destruct (decide (k = j)) as [E|Hkj'].
    - subst j. apply process_duplicate; [done..|]. apply not_missing_between; [done..|by right].
    - apply process_new; [done|lia|done]. }
  apply Hat. unfold process_at. by destruct (Nat.eqb (S k) n).
Qed.

Lemma find_hole_here fuel m start h :
  (0 < fuel)%nat -> (field m LAST h <? start) = false -> find_hole be fuel m start h = Some (Some h).
Proof. intros Hf Hl. destruct fuel as [|fuel]; [lia|]. cbn [find_hole]. by rewrite Hl. Qed.

(** The first fragment of a new datagram. *)
Lemma first_fragment id s ip :
  fragment id 0 ip -> total_len s = 0 \/ get16 be (pkt_buff s) 4 <> id ->
  exists s', NetDefragment be ip s = (s', Null) /\ pending id (mem_list (rd ip) 0 20) s' [(1%nat, n)].
Proof.
  intros Hf Hnew. rewrite (NetDefragment_process id 0 ip s Hf). pose proof (cut_several _ _ _ Hcut) as Hn.
  assert (Hc0 : c 0%nat = 0) by apply (cut_first _ _ _ Hcut). pose proof (c_lt 0 1 ltac:(lia)).
  assert (Hq0 : q 0 = 0) by (unfold q; by rewrite Hc0). pose proof (q_8 1 ltac:(lia)). pose proof (q_range 1 ltac:(lia)).
  unfold current. rewrite (fr_id _ _ _ Hf).
  assert (Hb : (total_len s =? 0) || negb (get16 be (pkt_buff s) 4 =? id) = true) by (destruct Hnew; bdestruct).
  rewrite Hb. set (m0 := store_list _ 0 _).
  assert (F : forall f, 0 <= f < 3 -> field m0 f 0 = if f =? 0 then 65535 else 0).
  { intros f Hfr. unfold m0. rewrite field_store; [|lia|rewrite mem_list_length; unfold hole, IP_HDR_SIZE_NO_UDP; lia].
    rewrite !field_set by (unfold LAST, NEXT, PREV; lia). unfold LAST, NEXT, PREV. bdestruct. }
  assert (FL : field m0 LAST 0 = 65535) by (apply F; unfold LAST; lia).
  assert (FN : field m0 NEXT 0 = 0) by (apply F; unfold NEXT; lia).
  assert (FP : field m0 PREV 0 = 0) by (apply F; unfold PREV; lia). clear F. pose proof (c_range 1 ltac:(lia)).
  assert (Hfix : fix_holes be m0 0 0 (q 0) (c 0) (c 1%nat - c 0%nat) = (copy_hole m0 (q 1) 0, q 1, false)).
  { unfold fix_holes. rewrite FL, FN, FP, Hq0, Hc0, Z.sub_0_r, (proj2 (Z.leb_gt 65535 _)) by lia.
    assert (Hnh : 0 + Z.quot (c 1%nat) 8 = q 1) by (unfold q; Z.to_euclidean_division_equations; lia).
    rewrite Hnh, (field_copy be m0 (q 1) 0 NEXT), Z.eqb_refl, FN by (unfold NEXT; lia).
    change (0 <=? 0) with true. change (0 =? 0) with true. cbn [andb]. rewrite Z.eqb_refl. cbn [Z.eqb].
    by rewrite field_copy, Z.eqb_refl, FP by (unfold PREV; lia). }
  assert (Hfind : find_hole be (Z.to_nat 65537) m0 (c 0%nat) 0 = Some (Some 0)).
  { apply find_hole_here; [lia|by rewrite FL, Hc0]. }
  pose proof (before_hole 0 0 ltac:(lia) ltac:(lia)) as Hbh. rewrite Hq0 in Hbh at 2.
  unfold process. rewrite Hfind, Hbh. cbn [Nat.ltb Nat.leb]. rewrite (proj2 (Nat.eqb_neq 1 n)), Hfix by lia.
  eexists. split; [reflexivity|].
  assert (Hlow : forall b, b < 20 + c 1%nat -> copy_hole m0 (q 1) 0 b = m0 b).
  { intros b Hlt. apply copy_hole_out. unfold hole, IP_HDR_SIZE_NO_UDP. lia. }
  assert (Hhd : forall b, 0 <= b < 20 -> store_list (copy_hole m0 (q 1) 0) (hole (q 0)) (slice 0) b = rd ip b).
  { intros b Hlt. rewrite store_list_out by (unfold hole, IP_HDR_SIZE_NO_UDP; lia). rewrite Hlow by lia.
    unfold m0. replace b with (0 + b) at 1 by lia. rewrite store_list_in by (rewrite mem_list_length; lia).
    by rewrite rd_mem_list by lia. }
  split; cbn [pkt_buff first_hole total_len].
  - apply good_1. lia.
  - done.
  - cbn [seg]. split; [done|]. pose proof (slice_length 0 ltac:(lia)).
    rewrite !field_store by (unfold LAST, NEXT, PREV, hole in *; lia).
    rewrite !field_copy, Z.eqb_refl, FL, FN, FP by (unfold LAST, NEXT, PREV; lia).
    unfold B. by rewrite Nat.eqb_refl.
  - done.
  - intros Hm. exfalso. apply Hm, missing_1. lia.
  - clear Hb. intros k Hk Hm b Hb. assert (k = 0%nat) as -> by (rewrite missing_1 in Hm; lia).
    pose proof (slice_length 0 ltac:(lia)). unfold hole, IP_HDR_SIZE_NO_UDP. rewrite Hq0.
    replace (20 + b) with (20 + 8 * 0 + b) by lia. rewrite store_list_in by lia.
    rewrite <- (rd_slice 0 b) by (lia || done). f_equal. lia.
  - rewrite <- (fr_id _ _ _ Hf). apply get16_ext; apply Hhd; lia.
  - apply mem_list_ext. intros b Hlt. apply Hhd. lia.
Qed.

(** The fragments after the first, up to the one that completes the datagram. *)
Lemma receive_rest id hd k ip ks ips : forall s H,
  fragment id k ip -> Forall2 (fragment id) ks ips -> k ∉ ks ->
  pending id hd s H -> missing k H -> (forall x, missing x H -> x ∈ ks \/ x = k) ->
  let '(s', os) := receive be (ips ++ [ip]) s in
  os = repeat Null (length ips) ++ [Packet (IP_HDR_SIZE_NO_UDP + Z.of_nat (length data))] /\ whole hd s'.
Proof.
  intros s H Hf Hfs. revert s H. induction Hfs as [|k1 ip1 ks ips Hf1 Hfs IH]; intros s H Hnin Hp Hk Hall.
  all: assert (Hcur : forall k' ip', fragment id k' ip' -> NetDefragment be ip' s = process k' s)
    by (intros k' ip' Hf'; rewrite (NetDefragment_process id k' ip' s Hf'); unfold current;
        rewrite (fr_id _ _ _ Hf'), (pe_id _ _ _ _ Hp), Z.eqb_refl;
        by rewrite (proj2 (Z.eqb_neq _ _) (pe_total _ _ _ _ Hp))).
  - cbn [app receive length repeat]. rewrite (Hcur k ip Hf).
    destruct (fragment_spec id hd s H k Hp (fr_index _ _ _ Hf)) as [(_ & H' & Hp' & Hm)|(Ho & Hw & _)].
    + exfalso. destruct H' as [|[i j] H']; [by destruct Hp'|].
      destruct (good_in _ i j (pe_good _ _ _ _ Hp') (list_elem_of_here _ _)).
      assert (Hi : missing i ((i, j) :: H')) by (exists i, j; split; [left|lia]).
      apply Hm in Hi as [Hi Hne]. destruct (Hall i Hi) as [Hin|]; [inversion Hin|done].
    + destruct (process k s) as [s' o]. cbn [fst snd] in *. by subst.
  - cbn [app receive length repeat]. rewrite (Hcur k1 ip1 Hf1). apply not_elem_of_cons in Hnin as [Hne Hnin].
    destruct (fragment_spec id hd s H k1 Hp (fr_index _ _ _ Hf1)) as [(Ho & H' & Hp' & Hm)|(_ & _ & _ & Hone)].
    + destruct (process k1 s) as [s1 o]. cbn [fst snd] in *. subst o.
      assert (Hk' : missing k H') by (by apply Hm).
      assert (Hall' : forall x, missing x H' -> x ∈ ks \/ x = k).
      { intros x [Hx Hne']%Hm. destruct (Hall x Hx) as [[->|]%elem_of_cons| ->]; tauto. }
      specialize (IH s1 H' Hnin Hp' Hk' Hall'). destruct (receive be (ips ++ [ip]) s1) as [s' os].
      destruct IH as [-> Hw]. done.
    + exfalso. apply Hne, Hone, Hk.
Qed.
End Datagram.

(** * Properties *)

(** C9: IP reassembly.  When the first fragment of a new datagram arrives first, the others, in
    any order and any number of times, are collected without an answer until the last
    missing one arrives; then the buffer holds the header of the first and all the data,
    and the length is that of the whole packet.  The datagram is new: the buffer is free, or the last
    datagram in it, complete or not, has another identification (otherwise
    [duplicate_after_delivery]).  The last fragment has at least eight bytes (otherwise
    [short_last_fragment_dropped]), and all but the last have multiples of eight. *)
Theorem defrag_reassembles be c n data id s first_ip ks ips k ip :
  cut c n data ->
  fragment be c n data id 0 first_ip ->
  Forall2 (fragment be c n data id) ks ips ->
  fragment be c n data id k ip ->
  (forall x, (0 < x < n)%nat -> x ∈ ks \/ x = k) -> k ∉ ks -> k <> 0%nat ->
  total_len s = 0 \/ get16 be (pkt_buff s) 4 <> id ->
  let '(s', os) := receive be (first_ip :: ips ++ [ip]) s in
  os = Null :: repeat Null (length ips) ++ [Packet (IP_HDR_SIZE_NO_UDP + Z.of_nat (length data))] /\
  whole c n data (mem_list (rd first_ip) 0 20) s'.
Proof.
  intros Hcut Hf0 Hfs Hf Hall Hnin Hk Hnew.
  destruct (first_fragment be c n data Hcut id s first_ip Hf0 Hnew) as (s1 & E & Hp).
  cbn [receive]. rewrite E.
  assert (H : let '(s', os) := receive be (ips ++ [ip]) s1 in
    os = repeat Null (length ips) ++ [Packet (IP_HDR_SIZE_NO_UDP + Z.of_nat (length data))] /\
    whole c n data (mem_list (rd first_ip) 0 20) s').
  { apply (receive_rest be c n data Hcut id _ k ip ks ips s1 [(1%nat, n)]); try done.
    - apply missing_1. pose proof (fr_index _ _ _ _ _ _ _ Hf). lia.
    - intros x Hx. apply Hall. apply missing_1 in Hx. lia. }
  destruct (receive be (ips ++ [ip]) s1) as [s' os]. destruct H as [-> Hw]. done.
Qed.

(** ** Witnesses and counterexamples *)

(** A fragment, with a header that says little else. *)
Definition ip_fragment (id off8 : Z) (more : bool) (d : list Z) : list Z :=
  let w v := [Z.shiftr v 8; v mod 256] in
  [69; 0] ++ w (20 + Z.of_nat (length d)) ++ w id ++ w (off8 + if more then 8192 else 0) ++
  [64; 17; 0; 0; 10; 0; 0; 1; 10; 0; 0; 2] ++ d.

Definition no_datagram : defrag := Defrag (fun _ => 1) 0 0.

(** Three fragments of 8, 8 and 9 bytes, the last two in the wrong order and one twice. *)
Definition example_cut (i : nat) : Z := nth i [0; 8; 16; 25] 25.
Definition example_data : list Z := map Z.of_nat (seq 1 25).
Definition example_fragment (k : nat) : list Z :=
  ip_fragment 7 (Z.of_nat k) (Nat.ltb k 2) (slice example_cut example_data k).

Lemma example_is_cut : cut example_cut 3 example_data.
Proof.
  split; [done|done|..].
  - intros [|[|[|i]]] Hi; cbn; lia.
  - intros [|[|[|i]]] Hi; [done..|lia].
  - change IP_MAXUDP with 16464. cbn. lia.
  - lia.
Qed.

Lemma example_is_fragment k : (k < 3)%nat -> fragment true example_cut 3 example_data 7 k (example_fragment k).
Proof. intros Hk. destruct k as [|[|[|k]]]; [..|lia]; (split; [lia|reflexivity..]). Qed.

Lemma defrag_reassembles_witness :
  let r := receive true [example_fragment 0; example_fragment 2; example_fragment 2; example_fragment 1] no_datagram in
  r.2 = [Null; Null; Null; Packet 45] /\ mem_list (pkt_buff r.1) 20 25 = example_data.
Proof.
  pose proof (defrag_reassembles true example_cut 3 example_data 7 no_datagram (example_fragment 0)
    [2%nat; 2%nat] [example_fragment 2; example_fragment 2] 1 (example_fragment 1) example_is_cut) as H.
  cbv zeta.
  destruct (receive true _ no_datagram) as [s' os] eqn:E.
  assert (Hr : os = [Null; Null; Null; Packet 45] /\
    whole example_cut 3 example_data (mem_list (rd (example_fragment 0)) 0 20) s').
  { apply H.
    - apply example_is_fragment. lia.
    - repeat constructor; apply example_is_fragment; lia.
    - apply example_is_fragment. lia.
    - intros x Hx. destruct x as [|[|[|x]]]; [lia|by right|left; left|lia].
    - by apply (bool_decide_unpack _).
    - done.
    - by left. }
  destruct Hr as [-> [Hd _]]. split; [reflexivity|exact Hd].
Defined.


(** Without its first fragment a datagram is delivered: the hole that is left at index 0
    is taken for no hole, and the data of the first fragment are its descriptor. *)
Fact delivered_without_first be :
  let r := receive be [example_fragment 1; example_fragment 2] no_datagram in
  r.2 = [Null; Packet 45] /\ mem_list (pkt_buff r.1) 22 6 = [0; 2; 0; 0; 1; 1] \/
  r.2 = [Null; Packet 45] /\ mem_list (pkt_buff r.1) 22 6 = [2; 0; 0; 0; 1; 1].
Proof. destruct be; vm_compute; [left|right]; done. Qed.

(** A last fragment of fewer than eight bytes that arrives in order is dropped. *)
Fact short_last_fragment_dropped be :
  (receive be [example_fragment 0; ip_fragment 7 1 false [1; 2; 3]] no_datagram).2 = [Null; Null].
Proof. by destruct be; vm_compute. Qed.

(** After a datagram has been delivered its data are still taken for descriptors: a
    duplicate of the last fragment makes the code write outside the buffer. *)
Fact duplicate_after_delivery be :
  let d := [255; 255; 65; 65; 0; 0; 0; 0] in
  let r := receive be [example_fragment 0; ip_fragment 7 1 false d; ip_fragment 7 1 false d] no_datagram in
  r.2 = [Null; Packet 36; Null] /\ IP_PKTSIZE <= hole 16705 + 4 /\
  pkt_buff r.1 (hole 16705 + 4) = 0 /\ pkt_buff no_datagram (hole 16705 + 4) = 1.
Proof. by destruct be; vm_compute. Qed.

(** So does a fragment that ends where the buffer ends and says that more follow. *)
Fact descriptor_past_the_end be :
  let r := receive be [ip_fragment 7 2057 true (repeat 9 8)] no_datagram in
  pkt_buff r.1 IP_PKTSIZE = 255 /\ pkt_buff no_datagram IP_PKTSIZE = 1.
Proof. by destruct be; vm_compute. Qed.
