(* ===== verification/Image.v ===== *)
(** Boot images in the legacy format: [common/image.c] and [include/image.h] on the
    board, [tools/default_image.c] and [tools/mkimage.c] on the host that makes them.

    An image is a header of 64 bytes and the data; a multi-file image begins with the
    table of the sizes of its files.  Numbers in the header are in network order.
    [be] is the byte order of the machine, which [crc32] depends on.  The ramdisk is placed
    with [Lmb].  [unsigned long] has 32 bits; messages are left out. *)

From S2P Require Import Prelude CString Vsprintf Crc Lmb.

(** ** The header *)

(** [uimage_to_cpu] of the word at [a], and storing [cpu_to_uimage] there. *)
Definition get_be32 (m : mem) (a : Z) : Z :=
  m a * 2 ^ 24 + m (a + 1) * 2 ^ 16 + m (a + 2) * 2 ^ 8 + m (a + 3).
Definition be32 (v : Z) : list Z := [u8 (v / 2 ^ 24); u8 (v / 2 ^ 16); u8 (v / 2 ^ 8); u8 v].
Definition put_be32 (m : mem) (a v : Z) : mem := store_list m a (be32 v).

Definition IH_MAGIC : Z := 0x27051956.
Definition IH_NMLEN : nat := 32.
Definition IH_OS_LINUX : Z := 5.
Definition IH_TYPE_RAMDISK : Z := 3.
Definition CHUNKSZ : Z := 64 * 1024.
Definition CHUNKSZ_CRC32 : Z := 64 * 1024.

Definition image_get_header_size : Z := 64.

Definition image_get_magic (m : mem) (hdr : Z) : Z := get_be32 m hdr.
Definition image_get_hcrc (m : mem) (hdr : Z) : Z := get_be32 m (hdr + 4).
Definition image_get_time (m : mem) (hdr : Z) : Z := get_be32 m (hdr + 8).
Definition image_get_size (m : mem) (hdr : Z) : Z := get_be32 m (hdr + 12).
Definition image_get_load (m : mem) (hdr : Z) : Z := get_be32 m (hdr + 16).
Definition image_get_ep (m : mem) (hdr : Z) : Z := get_be32 m (hdr + 20).
Definition image_get_dcrc (m : mem) (hdr : Z) : Z := get_be32 m (hdr + 24).
Definition image_get_os (m : mem) (hdr : Z) : Z := m (hdr + 28).
Definition image_get_arch (m : mem) (hdr : Z) : Z := m (hdr + 29).
Definition image_get_type (m : mem) (hdr : Z) : Z := m (hdr + 30).
Definition image_get_comp (m : mem) (hdr : Z) : Z := m (hdr + 31).
Definition image_get_data_size : mem -> Z -> Z := image_get_size.
Definition image_get_data (hdr : Z) : Z := u32 (hdr + image_get_header_size).

Definition image_set_magic (m : mem) (hdr v : Z) : mem := put_be32 m hdr v.
Definition image_set_hcrc (m : mem) (hdr v : Z) : mem := put_be32 m (hdr + 4) v.
Definition image_set_time (m : mem) (hdr v : Z) : mem := put_be32 m (hdr + 8) v.
Definition image_set_size (m : mem) (hdr v : Z) : mem := put_be32 m (hdr + 12) v.
Definition image_set_load (m : mem) (hdr v : Z) : mem := put_be32 m (hdr + 16) v.
Definition image_set_ep (m : mem) (hdr v : Z) : mem := put_be32 m (hdr + 20) v.
Definition image_set_dcrc (m : mem) (hdr v : Z) : mem := put_be32 m (hdr + 24) v.
Definition image_set_os (m : mem) (hdr v : Z) : mem := m.[hdr + 28 <- u8 v].
Definition image_set_arch (m : mem) (hdr v : Z) : mem := m.[hdr + 29 <- u8 v].
Definition image_set_type (m : mem) (hdr v : Z) : mem := m.[hdr + 30 <- u8 v].
Definition image_set_comp (m : mem) (hdr v : Z) : mem := m.[hdr + 31 <- u8 v].

(** [strncpy] of the C library of the host pads with NULs. *)
Definition image_set_name (m : mem) (hdr : Z) (name : list Z) : mem :=
  store_list m (hdr + 32) (firstn IH_NMLEN (name ++ repeat 0 IH_NMLEN)).

Definition image_check_magic (m : mem) (hdr : Z) : bool := image_get_magic m hdr =? IH_MAGIC.
Definition image_check_type (m : mem) (hdr type : Z) : bool := image_get_type m hdr =? type.
Definition image_check_arch (m : mem) (hdr arch : Z) : bool := image_get_arch m hdr =? arch.
Definition image_check_os (m : mem) (hdr os : Z) : bool := image_get_os m hdr =? os.

(** ** Checking an image *)

Section Machine.
Context (be : bool).

(** [tmp] is the address of the local copy of the header, which is gone afterwards. *)
Definition image_check_hcrc (m : mem) (hdr tmp : Z) : bool :=
  let len := image_get_header_size in
  let header := image_set_hcrc (memmove m tmp hdr image_get_header_size) tmp 0 in
  crc32 be header 0 tmp len =? image_get_hcrc m hdr.

Definition image_check_dcrc (m : mem) (hdr : Z) : option bool :=
  let data := image_get_data hdr in
  let len := image_get_data_size m hdr in
  dcrc ← crc32_wd (S (Z.to_nat len)) be m 0 data (data + len) CHUNKSZ_CRC32;
  Some (dcrc =? image_get_dcrc m hdr).

(** [None] when a loop runs out of fuel, otherwise whether the header is good; the
    messages and the progress codes are left out. *)
Definition image_get_ramdisk (m : mem) (rd_hdr arch tmp : Z) (verify : bool) : option bool :=
  if negb (image_check_magic m rd_hdr) then Some false
  else if negb (image_check_hcrc m rd_hdr tmp) then Some false
  else
    ok ← (if verify then image_check_dcrc m rd_hdr else Some true);
    Some (ok && image_check_os m rd_hdr IH_OS_LINUX && image_check_arch m rd_hdr arch &&
          image_check_type m rd_hdr IH_TYPE_RAMDISK).
End Machine.

(** ** Multi-file images *)

(** The loop over the table, [n] words at most. *)
Fixpoint count_slots (n : nat) (m : mem) (size : Z) : option Z :=
  match n with
  | O => None
  | S n =>
    if negb (get_be32 m size =? 0) then c ← count_slots n m (size + 4); Some (c + 1)
    else Some 0
  end.

(** [fuel] words are looked at; the table ends where the zero word is, if there is one. *)
Definition image_multi_count (fuel : nat) (m : mem) (hdr : Z) : option Z :=
  count_slots fuel m (image_get_data hdr).

(** The sum of the first [n] sizes, each rounded up. *)
Fixpoint skip_images (n : nat) (m : mem) (size offset : Z) : Z :=
  match n with
  | O => offset
  | S n => skip_images n m (size + 4) (u32 (offset + Z.land (u32 (get_be32 m size + 3)) (u32 (Z.lnot 3))))
  end.

(** The address and the length of component [idx]. *)
Definition image_multi_getimg (fuel : nat) (m : mem) (hdr idx : Z) : option (Z * Z) :=
  count ← image_multi_count fuel m hdr;
  let size := image_get_data hdr in
  let img_data := u32 (image_get_data hdr + (count + 1) * 4) in
  if idx <? count then
    let len := get_be32 m (size + 4 * idx) in
    let offset := skip_images (Z.to_nat idx) m size 0 in
    Some (u32 (img_data + offset), len)
  else Some (0, 0).

(** ** Placing the ramdisk *)

(** The loop of [memmove_wd] with a watchdog; [None] only out of fuel. *)
Fixpoint memmove_chunks (fuel : nat) (m : mem) (to from len chunksz : Z) : option mem :=
  match fuel with
  | O => None
  | S fuel =>
    if 0 <? len then
      let tail := if chunksz <? len then chunksz else len in
      memmove_chunks fuel (memmove m to from tail) (to + tail) (from + tail) (len - tail) chunksz
    else Some m
  end.

(** [watchdog] says that one is configured. *)
Definition memmove_wd (watchdog : bool) (m : mem) (to from len chunksz : Z) : option mem :=
  if watchdog then memmove_chunks (S (Z.to_nat len)) m to from len chunksz
  else Some (memmove m to from len).

(** "initrd_high" *)
Definition str_initrd_high : list Z := [105; 110; 105; 116; 114; 100; 95; 104; 105; 103; 104].

(** What [boot_ramdisk_high] returns and leaves behind. *)
Record placed : Type := Placed {
  pl_result : Z; initrd_start : Z; initrd_end : Z; pl_memory : mem; pl_lmb : lmb }.

(** [None] only out of fuel. *)
Definition boot_ramdisk_high (watchdog : bool) (getenv : list Z -> option (list Z)) (m : mem) (l : lmb)
    (rd_data rd_len : Z) : option placed :=
  let '(initrd_high, copy_to_ram) :=
    match getenv str_initrd_high with
    | Some s => let h := u32 (fst (simple_strtoul s 16)) in (h, negb (h =? u32 (-1)))
    | None => (u32 (-1), true)
    end in
  if negb (rd_data =? 0) then
    if negb copy_to_ram then
      Some (Placed 0 rd_data (u32 (rd_data + rd_len)) m (snd (lmb_reserve l rd_data rd_len)))
    else
      '(start, l, _) ← (if negb (initrd_high =? 0) then lmb_alloc_base l rd_len 0x1000 initrd_high
                        else lmb_alloc l rd_len 0x1000);
      if start =? 0 then Some (Placed (-1) 0 0 m l)
      else
        m ← memmove_wd watchdog m start rd_data rd_len CHUNKSZ;
        Some (Placed 0 start (u32 (start + rd_len)) m l)
  else Some (Placed 0 0 0 m l).

(** ** Making an image *)

Record mkimage_params : Type := Params {
  addr : Z; ep : Z; os : Z; arch : Z; type : Z; comp : Z; imagename : list Z }.

(** [copy_file] without XIP: what it appends. *)
Definition copy_file (data : list Z) (pad : bool) : list Z :=
  let tail := Z.of_nat (length data) mod 4 in
  data ++ (if pad && negb (tail =? 0) then repeat 0 (Z.to_nat (4 - tail)) else []).

(** The table of sizes of a multi-file image, and its files. *)
Fixpoint size_table (files : list (list Z)) : list Z :=
  match files with
  | [] => be32 0
  | f :: files => be32 (Z.of_nat (length f)) ++ size_table files
  end.

Fixpoint copy_files (files : list (list Z)) : list Z :=
  match files with
  | [] => []
  | [f] => copy_file f false
  | f :: files => copy_file f true ++ copy_files files
  end.

Definition multi_body (files : list (list Z)) : list Z := size_table files ++ copy_files files.

(** [ptr] is where the file is mapped, of [st_size] bytes. *)
Definition image_set_header (be : bool) (m : mem) (ptr st_size st_mtime : Z) (p : mkimage_params) : mem :=
  let checksum := crc32 be m 0 (ptr + image_get_header_size) (st_size - image_get_header_size) in
  let m := image_set_magic m ptr IH_MAGIC in
  let m := image_set_time m ptr st_mtime in
  let m := image_set_size m ptr (st_size - image_get_header_size) in
  let m := image_set_load m ptr (addr p) in
  let m := image_set_ep m ptr (ep p) in
  let m := image_set_dcrc m ptr checksum in
  let m := image_set_os m ptr (os p) in
  let m := image_set_arch m ptr (arch p) in
  let m := image_set_type m ptr (type p) in
  let m := image_set_comp m ptr (comp p) in
  let m := image_set_name m ptr (imagename p) in
  let checksum := crc32 be m 0 ptr image_get_header_size in
  image_set_hcrc m ptr checksum.

(** What [main] leaves in the file before the header is set ([-x] and [-l] are left out),
    and the file. *)
Definition mkimage_body (multi : bool) (files : list (list Z)) : list Z :=
  if multi then multi_body files else copy_file (hd [] files) false.

Definition mkimage (be : bool) (m : mem) (ptr st_mtime : Z) (p : mkimage_params) (multi : bool)
    (files : list (list Z)) : mem :=
  let body := mkimage_body multi files in
  let m := store_list m ptr (repeat 0 64 ++ body) in
  image_set_header be m ptr (64 + Z.of_nat (length body)) st_mtime p.

(** [mkimage -l]: zero, or the error. *)
Definition FDT_ERR_BADMAGIC : Z := 9.
Definition FDT_ERR_BADSTATE : Z := 7.
Definition FDT_ERR_BADSTRUCTURE : Z := 11.

Definition image_verify_header (be : bool) (m : mem) (ptr tmp image_size : Z) : Z :=
  let m1 := store_list m tmp (mem_list m ptr 64) in
  if negb (image_get_magic m1 tmp =? IH_MAGIC) then - FDT_ERR_BADMAGIC
  else
    let checksum := image_get_hcrc m1 tmp in
    let m1 := image_set_hcrc m1 tmp 0 in
    if negb (crc32 be m1 0 tmp image_get_header_size =? checksum) then - FDT_ERR_BADSTATE
    else
      let checksum := image_get_dcrc m1 tmp in
      if negb (crc32 be m 0 (ptr + image_get_header_size) (image_size - image_get_header_size) =? checksum)
      then - FDT_ERR_BADSTRUCTURE else 0.

(** ** Words in network order *)

Definition bytes (m : mem) : Prop := forall a, is_byte (m a).

Lemma be32_bytes v : byte_list (be32 v).
Proof. repeat (apply List.Forall_cons; [apply is_byte_u8|]). apply List.Forall_nil. Qed.

Lemma get_put_be32 m a v : get_be32 (put_be32 m a v) a = u32 v.
Proof.
  unfold get_be32, put_be32, be32. cbn [store_list].
  replace (a + 1 + 1) with (a + 2) by lia. replace (a + 2 + 1) with (a + 3) by lia.
  rewrite !(upd_ne _ (a + 3)), !(upd_ne _ (a + 2)), !(upd_ne _ (a + 1)), !upd_eq by lia.
  unfold u8, u32. Z.to_euclidean_division_equations. lia.
Qed.

Lemma get_be32_ext m k a b :
  (forall i, 0 <= i < 4 -> m (a + i) = k (b + i)) -> get_be32 m a = get_be32 k b.
Proof.
  intros H. unfold get_be32. pose proof (H 0 ltac:(lia)) as H0. rewrite !Z.add_0_r in H0.
  by rewrite H0, (H 1), (H 2), (H 3) by lia.
Qed.

Lemma get_be32_out m a l b :
  b + 4 <= a \/ a + Z.of_nat (length l) <= b -> get_be32 (store_list m a l) b = get_be32 m b.
Proof. intros H. apply get_be32_ext. intros i Hi. apply store_list_out. lia. Qed.

Lemma get_be32_upd m a v b : b + 4 <= a \/ a < b -> get_be32 (m.[a <- v]) b = get_be32 m b.
Proof. intros H. apply get_be32_ext. intros i Hi. apply upd_ne. lia. Qed.

Lemma get_be32_range m a : bytes m -> 0 <= get_be32 m a < 2 ^ 32.
Proof.
  intros H. pose proof (H a). pose proof (H (a + 1)). pose proof (H (a + 2)). pose proof (H (a + 3)).
  unfold is_byte, get_be32 in *. lia.
Qed.

Lemma get_be32_inj m k a b :
  bytes m -> bytes k -> get_be32 m a = get_be32 k b -> mem_list m a 4 = mem_list k b 4.
Proof.
  intros Hm Hk H. pose proof (Hm a). pose proof (Hm (a + 1)). pose proof (Hm (a + 2)). pose proof (Hm (a + 3)).
  pose proof (Hk b). pose proof (Hk (b + 1)). pose proof (Hk (b + 2)). pose proof (Hk (b + 3)).
  unfold is_byte, get_be32 in *. cbn [mem_list]. rewrite <- !Z.add_assoc.
  change (1 + (1 + 1)) with 3. change (1 + 1) with 2.
  assert (m a = k b) as -> by lia. assert (m (a + 1) = k (b + 1)) as -> by lia.
  assert (m (a + 2) = k (b + 2)) as -> by lia. by assert (m (a + 3) = k (b + 3)) as -> by lia.
Qed.

Lemma bytes_upd m a v : bytes m -> is_byte v -> bytes (m.[a <- v]).
Proof. intros Hm Hv b. unfold upd. by destruct (b =? a). Qed.

Lemma bytes_store m a l : bytes m -> byte_list l -> bytes (store_list m a l).
Proof.
  intros Hm Hl. revert m a Hm. induction Hl as [|x l Hx Hl IH]; intros m a Hm; cbn [store_list]; [done|].
  by apply IH, bytes_upd.
Qed.

Lemma bytes_memmove m to from len : bytes m -> bytes (memmove m to from len).
Proof.
  intros Hm b. rewrite memmove_meq. apply bytes_store; [done|]. by apply mem_list_bytes.
Qed.

(** ** The header that mkimage makes *)

Lemma get_put_be32_ne m a v b : b + 4 <= a \/ a + 4 <= b -> get_be32 (put_be32 m a v) b = get_be32 m b.
Proof. intros H. apply get_be32_out. cbn [be32 length]. lia. Qed.

Lemma put_be32_out m a v b : b < a \/ a + 4 <= b -> put_be32 m a v b = m b.
Proof. intros H. apply store_list_out. cbn [be32 length]. lia. Qed.

Lemma name_length name : length (firstn IH_NMLEN (name ++ repeat 0 IH_NMLEN)) = 32%nat.
Proof. rewrite length_firstn, length_app, repeat_length. unfold IH_NMLEN. lia. Qed.

Lemma name_bytes name : byte_list name -> byte_list (firstn IH_NMLEN (name ++ repeat 0 IH_NMLEN)).
Proof.
  intros H. apply Forall_take, byte_list_app. split; [done|]. apply Forall_forall.
  intros x Hx%repeat_spec. subst. unfold is_byte. lia.
Qed.

#[local] Ltac set_fields :=
  unfold image_set_magic, image_set_time, image_set_size, image_set_load, image_set_ep, image_set_dcrc,
    image_set_os, image_set_arch, image_set_type, image_set_comp, image_set_name.

(** The header before its checksum is set. *)
Definition unsealed (be : bool) (m : mem) (ptr st_size st_mtime : Z) (p : mkimage_params) : mem :=
  let checksum := crc32 be m 0 (ptr + image_get_header_size) (st_size - image_get_header_size) in
  let m := image_set_magic m ptr IH_MAGIC in
  let m := image_set_time m ptr st_mtime in
  let m := image_set_size m ptr (st_size - image_get_header_size) in
  let m := image_set_load m ptr (addr p) in
  let m := image_set_ep m ptr (ep p) in
  let m := image_set_dcrc m ptr checksum in
  let m := image_set_os m ptr (os p) in
  let m := image_set_arch m ptr (arch p) in
  let m := image_set_type m ptr (type p) in
  let m := image_set_comp m ptr (comp p) in
  image_set_name m ptr (imagename p).

Section Header.
Context (be : bool) (m : mem) (ptr st_size st_mtime : Z) (p : mkimage_params).
Context (Hm : bytes m) (Hname : byte_list (imagename p)).

#[local] Abbreviation m1 := (unsealed be m ptr st_size st_mtime p).

Lemma set_header_unsealed :
  image_set_header be m ptr st_size st_mtime p = image_set_hcrc m1 ptr (crc32 be m1 0 ptr 64).
Proof. reflexivity. Qed.

Lemma unsealed_bytes : bytes m1.
Proof.
  unfold unsealed. set_fields. repeat first [apply bytes_store|apply bytes_upd]; auto using be32_bytes, is_byte_u8, name_bytes.
Qed.

Lemma unsealed_out b : b < ptr \/ ptr + 4 <= b < ptr + 8 \/ ptr + 64 <= b -> m1 b = m b.
Proof.
  intros Hb. unfold unsealed. set_fields. rewrite store_list_out by (rewrite name_length; lia).
  rewrite !upd_ne by lia. by rewrite !put_be32_out by lia.
Qed.

#[local] Ltac read_field :=
  unfold unsealed; set_fields; rewrite get_be32_out by (rewrite name_length; lia);
  rewrite !get_be32_upd by lia; repeat (rewrite get_put_be32_ne by lia); apply get_put_be32.

Lemma unsealed_magic : get_be32 m1 ptr = IH_MAGIC.
Proof. transitivity (u32 IH_MAGIC); [read_field|done]. Qed.
Lemma unsealed_time : get_be32 m1 (ptr + 8) = u32 st_mtime.
Proof. read_field. Qed.
Lemma unsealed_size : get_be32 m1 (ptr + 12) = u32 (st_size - 64).
Proof. read_field. Qed.
Lemma unsealed_load : get_be32 m1 (ptr + 16) = u32 (addr p).
Proof. read_field. Qed.
Lemma unsealed_ep : get_be32 m1 (ptr + 20) = u32 (ep p).
Proof. read_field. Qed.
Lemma unsealed_dcrc : 64 <= st_size -> get_be32 m1 (ptr + 24) = crc32 be m 0 (ptr + 64) (st_size - 64).
Proof.
  intros Hs. transitivity (u32 (crc32 be m 0 (ptr + 64) (st_size - 64))); [read_field|].
  apply u32_small. apply crc32_u32; [unfold is_u32; lia|done|lia].
Qed.

#[local] Ltac read_byte :=
  unfold unsealed; set_fields; rewrite store_list_out by (rewrite name_length; lia);
  repeat (rewrite upd_ne by lia); apply upd_eq.

Lemma unsealed_os : m1 (ptr + 28) = u8 (os p).
Proof. read_byte. Qed.
Lemma unsealed_arch : m1 (ptr + 29) = u8 (arch p).
Proof. read_byte. Qed.
Lemma unsealed_type : m1 (ptr + 30) = u8 (type p).
Proof. read_byte. Qed.
Lemma unsealed_comp : m1 (ptr + 31) = u8 (comp p).
Proof. read_byte. Qed.
End Header.

(** What the board reads from an image [p] made of [body]. *)
Record header_of (k : mem) (hdr st_mtime : Z) (p : mkimage_params) (body : list Z) : Prop := {
  ho_time : image_get_time k hdr = u32 st_mtime;
  ho_size : image_get_data_size k hdr = Z.of_nat (length body);
  ho_load : image_get_load k hdr = u32 (addr p);
  ho_ep : image_get_ep k hdr = u32 (ep p);
  ho_os : image_get_os k hdr = u8 (os p);
  ho_arch : image_get_arch k hdr = u8 (arch p);
  ho_type : image_get_type k hdr = u8 (type p);
  ho_comp : image_get_comp k hdr = u8 (comp p);
  ho_data : mem_list k (image_get_data hdr) (length body) = body }.

Lemma size_table_bytes l : byte_list (size_table l).
Proof.
  induction l as [|f l IH]; [apply be32_bytes|]. apply byte_list_app. split; [apply be32_bytes|done].
Qed.

Lemma copy_file_bytes f pad : byte_list f -> byte_list (copy_file f pad).
Proof.
  intros Hf. apply byte_list_app. split; [done|]. destruct (_ && _); [|by apply List.Forall_nil].
  apply List.Forall_forall. intros x Hx%repeat_spec. subst. unfold is_byte. lia.
Qed.

Lemma copy_files_bytes l : Forall byte_list l -> byte_list (copy_files l).
Proof.
  induction 1 as [|f l Hf Hl IH]; [apply List.Forall_nil|]. cbn [copy_files].
  destruct l; [by apply copy_file_bytes|]. apply byte_list_app. split; [by apply copy_file_bytes|done].
Qed.

(** What the checksum of a header is computed over. *)
Lemma check_hcrc_eq be1 be2 g h a tmp hd :
  bytes g -> bytes h ->
  (forall i, 0 <= i < 64 -> h (a + i) = if (4 <=? i) && (i <? 8) then 0 else g (hd + i)) ->
  image_check_hcrc be1 g hd tmp = (crc32 be2 h 0 a 64 =? image_get_hcrc g hd).
Proof.
  intros Hg Hh Hi. unfold image_check_hcrc, image_set_hcrc, image_get_header_size. f_equal.
  apply crc32_bytes; [apply bytes_store; [by apply bytes_memmove|apply be32_bytes]|done|lia|].
  intros i Hr. rewrite Hi by done. destruct (Z.leb_spec 4 i), (Z.ltb_spec i 8); cbn [andb].
  - replace (tmp + i) with (tmp + 4 + (i - 4)) by lia. unfold put_be32. rewrite store_list_in by (cbn; lia).
    assert (Hc : i = 4 \/ i = 5 \/ i = 6 \/ i = 7) by lia. by destruct Hc as [-> |[-> |[-> | ->]]].
  - rewrite put_be32_out, memmove_meq, store_list_in by (rewrite ?mem_list_length; lia).
    by rewrite rd_mem_list by lia.
  - rewrite put_be32_out, memmove_meq, store_list_in by (rewrite ?mem_list_length; lia).
    by rewrite rd_mem_list by lia.
  - lia.
Qed.

Section Made.
Context (be be' : bool) (m k : mem) (ptr hdr st_mtime : Z) (p : mkimage_params) (multi : bool).
Context (files : list (list Z)).
Context (Hm : bytes m) (Hk : bytes k) (Hname : byte_list (imagename p)) (Hfiles : Forall byte_list files).

#[local] Abbreviation body := (mkimage_body multi files).
#[local] Abbreviation len := (Z.of_nat (length body)).
#[local] Abbreviation m0 := (store_list m ptr (repeat 0 64 ++ body)).
#[local] Abbreviation m1 := (unsealed be m0 ptr (64 + len) st_mtime p).
#[local] Abbreviation made := (mkimage be m ptr st_mtime p multi files).

Context (Hroom : 0 <= hdr /\ hdr + 64 + len < 2 ^ 32).
Context (Hcopy : mem_list k hdr (64 + length body) = mem_list made ptr (64 + length body)).

Lemma copy_at i : 0 <= i < 64 + len -> k (hdr + i) = made (ptr + i).
Proof. intros Hi. rewrite <- !(rd_mem_list _ _ (64 + length body)) by lia. by rewrite Hcopy. Qed.

Lemma body_bytes : byte_list body.
Proof.
  unfold mkimage_body. destruct multi.
  - apply byte_list_app. split; [apply size_table_bytes|by apply copy_files_bytes].
  - destruct Hfiles as [|f l Hf _]; apply copy_file_bytes; [apply List.Forall_nil|done].
Qed.

Lemma m0_bytes : bytes m0.
Proof.
  apply bytes_store; [done|]. apply byte_list_app. split; [|apply body_bytes].
  apply List.Forall_forall. intros x Hx%repeat_spec. subst. unfold is_byte. lia.
Qed.

Lemma made_eq : made = put_be32 m1 (ptr + 4) (crc32 be m1 0 ptr 64).
Proof. reflexivity. Qed.

Lemma m1_bytes : bytes m1.
Proof. apply unsealed_bytes; [apply m0_bytes|done]. Qed.

Lemma copy_field off : off <> 4 -> off mod 4 = 0 -> 0 <= off < 64 -> get_be32 k (hdr + off) = get_be32 m1 (ptr + off).
Proof.
  intros H4 Hmod Hoff. transitivity (get_be32 made (ptr + off)).
  - apply get_be32_ext. intros i Hi. rewrite <- !Z.add_assoc. apply copy_at.
    Z.to_euclidean_division_equations. lia.
  - rewrite made_eq. apply get_put_be32_ne. Z.to_euclidean_division_equations. lia.
Qed.

Lemma copy_byte off : 28 <= off < 32 -> k (hdr + off) = m1 (ptr + off).
Proof. intros Hoff. rewrite copy_at by lia. rewrite made_eq. apply put_be32_out. lia. Qed.

Lemma copy_data i : 0 <= i < len -> k (hdr + 64 + i) = rd body i.
Proof.
  intros Hi. rewrite <- Z.add_assoc, copy_at by lia. rewrite made_eq, put_be32_out by lia.
  rewrite unsealed_out by lia. rewrite store_list_in by (rewrite length_app, repeat_length; lia).
  unfold rd. rewrite app_nth2 by (rewrite repeat_length; lia). rewrite repeat_length. f_equal. lia.
Qed.

Lemma made_header : header_of k hdr st_mtime p body.
Proof.
  assert (E : image_get_data hdr = hdr + 64) by (unfold image_get_data, image_get_header_size; apply u32_small; lia).
  split; unfold image_get_time, image_get_data_size, image_get_size, image_get_load, image_get_ep,
    image_get_os, image_get_arch, image_get_type, image_get_comp.
  - rewrite copy_field by (done || lia). apply unsealed_time.
  - rewrite copy_field by (done || lia). rewrite unsealed_size.
    replace (64 + len - 64) with len by lia. apply u32_small. lia.
  - rewrite copy_field by (done || lia). apply unsealed_load.
  - rewrite copy_field by (done || lia). apply unsealed_ep.
  - rewrite copy_byte by lia. apply unsealed_os.
  - rewrite copy_byte by lia. apply unsealed_arch.
  - rewrite copy_byte by lia. apply unsealed_type.
  - rewrite copy_byte by lia. apply unsealed_comp.
  - rewrite E. apply nth_ext with (d := 0) (d' := 0); [apply mem_list_length|].
    intros i Hi. rewrite mem_list_length in Hi. pose proof (rd_mem_list k (hdr + 64) (length body) (Z.of_nat i) ltac:(lia)) as H.
    unfold rd in H. rewrite Nat2Z.id in H. rewrite H, copy_data by lia. unfold rd. by rewrite Nat2Z.id.
Qed.

Lemma made_hcrc tmp : image_check_hcrc be' k hdr tmp = true.
Proof.
  rewrite (check_hcrc_eq be' be k m1 ptr tmp hdr Hk m1_bytes).
  - apply Z.eqb_eq. symmetry. unfold image_get_hcrc. transitivity (get_be32 made (ptr + 4)).
    + apply get_be32_ext. intros i Hi. rewrite <- !Z.add_assoc. apply copy_at. lia.
    + rewrite made_eq, get_put_be32. apply u32_small. apply crc32_u32; [unfold is_u32; lia|apply m1_bytes|lia].
  - intros i Hi. destruct (Z.leb_spec 4 i), (Z.ltb_spec i 8); cbn [andb].
    + rewrite unsealed_out by lia. rewrite store_list_in by (rewrite length_app, repeat_length; lia).
      unfold rd. rewrite app_nth1 by (rewrite repeat_length; lia). apply nth_repeat.
    + rewrite copy_at by lia. rewrite made_eq, put_be32_out by lia. done.
    + rewrite copy_at by lia. rewrite made_eq, put_be32_out by lia. done.
    + lia.
Qed.

Lemma made_dcrc : image_check_dcrc be' k hdr = Some true.
Proof.
  pose proof made_header as Hh. unfold image_check_dcrc. rewrite (ho_size _ _ _ _ _ Hh).
  rewrite crc32_wd_spec by (unfold is_u32, CHUNKSZ_CRC32; done || lia). cbn [mbind option_bind]. f_equal.
  apply Z.eqb_eq. unfold image_get_dcrc. rewrite copy_field by (done || lia).
  rewrite unsealed_dcrc by (apply m0_bytes || lia). replace (64 + len - 64) with len by lia.
  assert (E : image_get_data hdr = hdr + 64) by (unfold image_get_data, image_get_header_size; apply u32_small; lia).
  rewrite E. apply crc32_bytes; [done|apply m0_bytes|lia|].
  intros i Hi. rewrite copy_data by lia. rewrite <- Z.add_assoc, store_list_in by (rewrite length_app, repeat_length; lia).
  unfold rd. rewrite app_nth2 by (rewrite repeat_length; lia). rewrite repeat_length. f_equal. lia.
Qed.

Lemma made_magic : image_check_magic k hdr = true.
Proof.
  apply Z.eqb_eq. unfold image_get_magic. rewrite <- (Z.add_0_r hdr), copy_field by (done || lia).
  rewrite Z.add_0_r. apply unsealed_magic.
Qed.

(** The host's check does the same as the board's two. *)
Lemma verify_header_checks tmp image_size :
  image_check_magic k hdr = true -> image_check_hcrc be' k hdr tmp = true ->
  crc32 be' k 0 (hdr + 64) (image_size - 64) = image_get_dcrc k hdr ->
  image_verify_header be' k hdr tmp image_size = 0.
Proof.
  intros Hmag Hh Hd. unfold image_verify_header. set (c := store_list k tmp (mem_list k hdr 64)).
  assert (Hc : forall i, 0 <= i < 64 -> c (tmp + i) = k (hdr + i)).
  { intros i Hi. unfold c. rewrite store_list_in by (rewrite mem_list_length; lia). by rewrite rd_mem_list by lia. }
  assert (Hf : forall off, 0 <= off <= 60 -> get_be32 c (tmp + off) = get_be32 k (hdr + off)).
  { intros off Ho. apply get_be32_ext. intros i Hi. rewrite <- !Z.add_assoc. apply Hc. lia. }
  assert (Hm0 : image_get_magic c tmp = image_get_magic k hdr).
  { unfold image_get_magic. rewrite <- (Z.add_0_r tmp), <- (Z.add_0_r hdr). apply Hf. lia. }
  unfold image_check_magic in Hmag. rewrite Hm0, Hmag. cbn [negb].
  assert (Hcrc : image_get_hcrc c tmp = image_get_hcrc k hdr) by (apply Hf; lia).
  assert (Hdc : image_get_dcrc (image_set_hcrc c tmp 0) tmp = image_get_dcrc k hdr).
  { unfold image_get_dcrc, image_set_hcrc. rewrite get_put_be32_ne by lia. apply Hf. lia. }
  rewrite Hcrc, Hdc. unfold image_check_hcrc in Hh. unfold image_get_header_size in *.
  assert (Hsame : crc32 be' (image_set_hcrc c tmp 0) 0 tmp 64 =
    crc32 be' (image_set_hcrc (memmove k tmp hdr 64) tmp 0) 0 tmp 64).
  { apply crc32_bytes; [..|lia|].
    - apply bytes_store; [|apply be32_bytes]. apply bytes_store; [done|by apply mem_list_bytes].
    - apply bytes_store; [by apply bytes_memmove|apply be32_bytes].
    - intros i Hi. unfold image_set_hcrc. destruct (decide (4 <= i < 8)).
      + replace (tmp + i) with (tmp + 4 + (i - 4)) by lia. unfold put_be32. by rewrite !store_list_in by (cbn; lia).
      + rewrite !put_be32_out by lia. by rewrite memmove_meq. }
  rewrite Hsame, Hh, Hd, Z.eqb_refl. done.
Qed.
End Made.

(** ** Multi-file images *)

Definition padded (f : list Z) : Z := (Z.of_nat (length f) + 3) / 4 * 4.
Definition pad_sum (files : list (list Z)) : Z := fold_right (fun f n => padded f + n) 0 files.

Lemma holds_be32 m a v : holds m a (be32 v) -> get_be32 m a = u32 v.
Proof.
  intros H. transitivity (get_be32 (put_be32 m a v) a); [|apply get_put_be32].
  apply get_be32_ext. intros i Hi. unfold put_be32. rewrite store_list_in by (cbn; lia).
  by rewrite (holds_rd _ _ _ i H) by (cbn; lia).
Qed.

Lemma size_table_length files : Z.of_nat (length (size_table files)) = 4 * (Z.of_nat (length files) + 1).
Proof.
  induction files as [|f files IH]; [done|]. cbn [size_table length].
  rewrite length_app, Nat2Z.inj_add, IH. cbn [be32 length]. lia.
Qed.

(** The size of every file can be told from the end of the table. *)
Definition sizes_ok (files : list (list Z)) : Prop :=
  Forall (fun f => 0 < Z.of_nat (length f) < 2 ^ 32 - 4) files.

Lemma size_at m a files i f :
  sizes_ok files -> holds m a (size_table files) -> files !! i = Some f ->
  get_be32 m (a + 4 * Z.of_nat i) = Z.of_nat (length f).
Proof.
  intros Hok. revert a i. induction Hok as [|g files Hg Hok IH]; intros a i H Hi; [done|].
  cbn [size_table] in H. apply holds_app in H as [H1 H2]. destruct i as [|i].
  - cbn in Hi. simplify_eq. rewrite Z.mul_0_r, Z.add_0_r, (holds_be32 _ _ _ H1). apply u32_small. lia.
  - replace (a + 4 * Z.of_nat (S i)) with (a + Z.of_nat (length (be32 (Z.of_nat (length g)))) + 4 * Z.of_nat i)
      by (cbn [be32 length]; lia). by apply IH.
Qed.

Lemma count_table m files : forall fuel a,
  sizes_ok files -> holds m a (size_table files) -> (length files < fuel)%nat ->
  count_slots fuel m a = Some (Z.of_nat (length files)).
Proof.
  induction files as [|f files IH]; intros fuel a Hok H Hf; (destruct fuel as [|fuel]; [lia|]); cbn [count_slots].
  - by rewrite (holds_be32 _ _ _ H).
  - pose proof (size_at m a (f :: files) 0 f Hok H eq_refl) as Hs. rewrite Z.mul_0_r, Z.add_0_r in Hs.
    apply List.Forall_cons_iff in Hok as [Hg Hok]. rewrite Hs, (proj2 (Z.eqb_neq _ 0)) by lia. cbn [negb].
    cbn [size_table length] in *. apply holds_app in H as [_ H].
    rewrite (IH fuel (a + 4) Hok H) by lia. cbn [mbind option_bind]. f_equal. lia.
Qed.

Lemma mask_3 x : 0 <= x < 2 ^ 32 - 4 -> Z.land (u32 (x + 3)) (u32 (Z.lnot 3)) = (x + 3) / 4 * 4.
Proof.
  intros Hx. change (Z.land (u32 (x + 3)) (u32 (Z.lnot 3))) with (lmb_align_down (u32 (x + 3)) (2 ^ 2)).
  rewrite u32_small, align_down_spec by lia. Z.to_euclidean_division_equations. lia.
Qed.

Lemma pad_sum_nonneg files : 0 <= pad_sum files.
Proof.
  induction files as [|f files IH]; [done|]. cbn [pad_sum fold_right]. fold (pad_sum files).
  unfold padded. Z.to_euclidean_division_equations. lia.
Qed.

Lemma skip_table m files : forall a off n,
  sizes_ok files -> holds m a (size_table files) -> (n <= length files)%nat -> 0 <= off ->
  off + pad_sum files < 2 ^ 32 -> skip_images n m a off = off + pad_sum (firstn n files).
Proof.
  induction files as [|f files IH]; intros a off n Hok H Hn Hoff Hsum; (destruct n as [|n]; [cbn; lia|cbn in Hn]).
  - lia.
  - cbn [skip_images]. pose proof (size_at m a (f :: files) 0 f Hok H eq_refl) as Hs.
    rewrite Z.mul_0_r, Z.add_0_r in Hs. apply List.Forall_cons_iff in Hok as [Hg Hok].
    rewrite Hs, mask_3 by lia. cbn [size_table] in H. apply holds_app in H as [_ H].
    cbn [pad_sum fold_right firstn] in *. fold (pad_sum files) in *. fold (pad_sum (firstn n files)).
    fold (padded f). pose proof (pad_sum_nonneg files).
    assert (0 <= padded f) by (unfold padded; Z.to_euclidean_division_equations; lia).
    rewrite (u32_small (off + padded f)) by lia. rewrite (IH (a + 4)) by (done || lia). lia.
Qed.

Lemma copy_file_length f : Z.of_nat (length (copy_file f true)) = padded f.
Proof.
  unfold copy_file, padded. rewrite length_app. cbn [andb].
  destruct (Z.eqb_spec (Z.of_nat (length f) mod 4) 0); cbn [negb length]; rewrite ?repeat_length;
    Z.to_euclidean_division_equations; lia.
Qed.

Lemma copy_files_at m files : forall a i f,
  holds m a (copy_files files) -> files !! i = Some f -> holds m (a + pad_sum (firstn i files)) f.
Proof.
  induction files as [|g files IH]; intros a i f H Hi; [done|].
  assert (Hg : holds m a g).
  { destruct files; cbn [copy_files] in H; [|apply holds_app in H as [H _]]; unfold copy_file in H;
      by apply holds_app in H as [H _]. }
  destruct i as [|i].
  - cbn in Hi |- *. simplify_eq. by rewrite Z.add_0_r.
  - destruct files as [|g' files]; [done|]. cbn [copy_files] in H. apply holds_app in H as [_ H].
    rewrite copy_file_length in H. specialize (IH (a + padded g) i f H Hi).
    cbn [firstn pad_sum fold_right]. fold (pad_sum (firstn i (g' :: files))).
    by replace (a + (padded g + pad_sum (firstn i (g' :: files)))) with (a + padded g + pad_sum (firstn i (g' :: files))) by lia.
Qed.

(** ** Copying in chunks *)

Lemma chunks_spec chunksz : forall fuel m to from len,
  0 < chunksz -> 0 <= len -> (Z.to_nat len < fuel)%nat -> to <= from \/ from + len <= to ->
  exists m', memmove_chunks fuel m to from len chunksz = Some m' /\
    m' ≡ₘ store_list m to (mem_list m from (Z.to_nat len)).
Proof.
  intros fuel. induction fuel as [|fuel IH]; intros m to from len Hc Hl Hf Ho; [lia|]. cbn [memmove_chunks].
  destruct (Z.ltb_spec 0 len) as [Hpos|Hz].
  2: { exists m. split; [done|]. by replace (Z.to_nat len) with O by lia. }
  set (t := if chunksz <? len then chunksz else len). assert (Ht : 0 < t <= len) by (unfold t; bdestruct).
  pose proof (memmove_meq m to from t) as Hm. set (m1 := memmove m to from t) in *.
  destruct (IH m1 (to + t) (from + t) (len - t)) as (m' & E & Hm'); [lia..|]. exists m'. split; [done|].
  assert (Hsrc : mem_list m1 (from + t) (Z.to_nat (len - t)) = mem_list m (from + t) (Z.to_nat (len - t))).
  { apply mem_list_ext. intros i Hi. rewrite Hm. apply store_list_out. rewrite mem_list_length. lia. }
  rewrite Hsrc in Hm'. intros b. rewrite (Hm' b).
  replace (Z.to_nat len) with (Z.to_nat t + Z.to_nat (len - t))%nat by lia.
  rewrite mem_list_app, store_list_app, mem_list_length, Z2Nat.id by lia.
  apply store_list_proper; [done|done|done].
Qed.

(** * Properties *)

(** C10: Images made by [mkimage], from one file or several, wherever they are loaded and whatever
    the byte orders of host and board: magic number and both checksums are good on the
    board and in [mkimage -l], the header says what was asked for, the data are the files,
    and a Linux ramdisk for the right machine is accepted as one. *)
Theorem mkimage_checks be be' m k ptr hdr tmp st_mtime p multi files arch' verify :
  bytes m -> bytes k -> byte_list (imagename p) -> Forall byte_list files ->
  let len := Z.of_nat (length (mkimage_body multi files)) in
  0 <= hdr -> hdr + 64 + len < 2 ^ 32 ->
  mem_list k hdr (64 + length (mkimage_body multi files)) =
    mem_list (mkimage be m ptr st_mtime p multi files) ptr (64 + length (mkimage_body multi files)) ->
  image_check_magic k hdr = true /\ image_check_hcrc be' k hdr tmp = true /\
  image_check_dcrc be' k hdr = Some true /\ image_verify_header be' k hdr tmp (64 + len) = 0 /\
  header_of k hdr st_mtime p (mkimage_body multi files) /\
  image_get_ramdisk be' k hdr arch' tmp verify =
    Some ((u8 (os p) =? IH_OS_LINUX) && (u8 (arch p) =? arch') && (u8 (type p) =? IH_TYPE_RAMDISK)).
Proof.
  intros Hm Hk Hname Hfiles len Hhdr Hend Hcopy.
  assert (Hroom : 0 <= hdr /\ hdr + 64 + len < 2 ^ 32) by done.
  assert (Hmag : image_check_magic k hdr = true) by exact (made_magic be m k ptr hdr st_mtime p multi files Hcopy).
  assert (Hh : image_check_hcrc be' k hdr tmp = true) 
    by exact (made_hcrc be be' m k ptr hdr st_mtime p multi files Hm Hk Hname Hfiles Hroom Hcopy tmp).
  assert (Hd : image_check_dcrc be' k hdr = Some true) 
    by exact (made_dcrc be be' m k ptr hdr st_mtime p multi files Hm Hk Hfiles Hroom Hcopy).
  assert (Hho : header_of k hdr st_mtime p (mkimage_body multi files)) 
    by exact (made_header be m k ptr hdr st_mtime p multi files Hroom Hcopy).
  split; [done|]. split; [done|]. split; [done|]. split; [|split; [done|]].
  - apply (verify_header_checks be' k hdr multi files Hk); [done|done|]. unfold image_check_dcrc in Hd.
    rewrite (ho_size _ _ _ _ _ Hho), crc32_wd_spec in Hd by (unfold is_u32, CHUNKSZ_CRC32; done || lia).
    cbn [mbind option_bind] in Hd. simplify_eq. apply Z.eqb_eq in Hd. rewrite <- Hd.
    replace (64 + len - 64) with len by lia. f_equal. unfold image_get_data, image_get_header_size.
    symmetry. apply u32_small. lia.
  - unfold image_get_ramdisk. rewrite Hmag, Hh, Hd. cbn [negb].
    unfold image_check_os, image_check_arch, image_check_type.
    rewrite (ho_os _ _ _ _ _ Hho), (ho_arch _ _ _ _ _ Hho), (ho_type _ _ _ _ _ Hho). by destruct verify.
Qed.

(** C37: Four consecutive bytes that have changed are detected: by the checksum of the data when
    they lie in the data, by that of the header when they are a word of the header, the
    checksum itself included. *)
Theorem image_corruption_detected be m k hdr tmp q :
  bytes m -> bytes k -> 0 <= hdr -> hdr + 64 + image_get_data_size m hdr < 2 ^ 32 ->
  (forall a, ~ (q <= a < q + 4) -> m a = k a) -> mem_list m q 4 <> mem_list k q 4 ->
  (hdr + 64 <= q -> q + 4 <= hdr + 64 + image_get_data_size m hdr ->
   image_check_dcrc be m hdr = Some true -> image_check_dcrc be k hdr = Some false) /\
  (hdr <= q -> q + 4 <= hdr + 64 -> (q - hdr) mod 4 = 0 ->
   image_check_hcrc be m hdr tmp = true -> image_check_hcrc be k hdr tmp = false).
Proof.
  intros Hm Hk Hhdr Hend Hout Hdiff.
  pose proof (get_be32_range m (hdr + 12) Hm) as Hsize. unfold image_get_data_size, image_get_size in *.
  assert (Hget : forall a, a + 4 <= q \/ q + 4 <= a -> get_be32 m a = get_be32 k a).
  { intros a Ha. apply get_be32_ext. intros i Hi. apply Hout. lia. }
  split.
  - intros H1 H2 Hd. unfold image_check_dcrc, image_get_data_size, image_get_size, image_get_dcrc in *.
    rewrite <- !Hget by lia. rewrite crc32_wd_spec in Hd |- * by (unfold is_u32, CHUNKSZ_CRC32; done || lia).
    cbn [mbind option_bind] in *. simplify_eq. apply Z.eqb_eq in Hd. f_equal. apply Z.eqb_neq. rewrite <- Hd.
    unfold image_get_data, image_get_header_size. rewrite u32_small by lia.
    intros E. symmetry in E. revert E. apply (crc32_burst be m k 0 _ _ q); (done || lia).
  - intros H1 H2 H3 Hh.
    assert (Hz : forall g, bytes g -> image_check_hcrc be g hdr tmp =
      (crc32 be (put_be32 g (hdr + 4) 0) 0 hdr 64 =? image_get_hcrc g hdr)).
    { intros g Hg. apply check_hcrc_eq; [done|by apply bytes_store, be32_bytes|].
      intros i Hi. destruct (Z.leb_spec 4 i), (Z.ltb_spec i 8); cbn [andb]; try (by rewrite put_be32_out by lia).
      replace (hdr + i) with (hdr + 4 + (i - 4)) by lia. unfold put_be32. rewrite store_list_in by (cbn; lia).
      assert (Hc : i = 4 \/ i = 5 \/ i = 6 \/ i = 7) by lia. by destruct Hc as [-> |[-> |[-> | ->]]]. }
    rewrite Hz in Hh |- * by done. apply Z.eqb_eq in Hh. apply Z.eqb_neq. unfold image_get_hcrc in *.
    assert (Hb : forall g, bytes g -> bytes (put_be32 g (hdr + 4) 0)) by (intros; by apply bytes_store, be32_bytes).
    destruct (decide (q = hdr + 4)) as [->|Hne].
    + assert (Hsame : crc32 be (put_be32 k (hdr + 4) 0) 0 hdr 64 = crc32 be (put_be32 m (hdr + 4) 0) 0 hdr 64).
      { apply crc32_bytes; [by apply Hb|by apply Hb|lia|]. intros i Hi. unfold put_be32.
        destruct (decide (4 <= i < 8)).
        - replace (hdr + i) with (hdr + 4 + (i - 4)) by lia. by rewrite !store_list_in by (cbn; lia).
        - rewrite !store_list_out by (cbn; lia). symmetry. apply Hout. lia. }
      rewrite Hsame, Hh.
      intros E. by apply Hdiff, get_be32_inj.
    + assert (Hq : q + 4 <= hdr + 4 \/ hdr + 8 <= q) by (Z.to_euclidean_division_equations; lia).
      rewrite <- (Hget (hdr + 4)), <- Hh by lia. intros E. symmetry in E. revert E.
      apply (crc32_burst be _ _ 0 hdr 64 q); [unfold is_u32; lia|by apply Hb|by apply Hb|lia|lia|..].
      * intros a Ha. unfold put_be32. destruct (decide (hdr + 4 <= a < hdr + 8)).
        -- replace a with (hdr + 4 + (a - hdr - 4)) by lia. by rewrite !store_list_in by (cbn; lia).
        -- rewrite !store_list_out by (cbn; lia). by apply Hout.
      * by rewrite !(mem_list_ext (put_be32 _ _ _) _ q 4) by (intros i Hi; apply put_be32_out; lia).
Qed.

(** Components of a multi-file image: for an image that [mkimage] made of files none of
    which is empty, [image_multi_count] gives their number, and [image_multi_getimg]
    gives the address and the length of each, and zeros for a component that is not there. *)
Theorem multi_components m hdr files fuel :
  sizes_ok files -> holds m (hdr + 64) (multi_body files) ->
  0 <= hdr -> hdr + 64 + 4 * (Z.of_nat (length files) + 1) + pad_sum files < 2 ^ 32 ->
  (length files < fuel)%nat ->
  image_multi_count fuel m hdr = Some (Z.of_nat (length files)) /\
  (forall i f, files !! i = Some f ->
    exists a, image_multi_getimg fuel m hdr (Z.of_nat i) = Some (a, Z.of_nat (length f)) /\ holds m a f) /\
  (forall idx, Z.of_nat (length files) <= idx -> image_multi_getimg fuel m hdr idx = Some (0, 0)).
Proof.
  intros Hok H Hhdr Hend Hfuel. apply holds_app in H as [Ht Hf]. rewrite size_table_length in Hf.
  pose proof (pad_sum_nonneg files).
  assert (Ed : image_get_data hdr = hdr + 64) by (unfold image_get_data, image_get_header_size; apply u32_small; lia).
  assert (Ec : image_multi_count fuel m hdr = Some (Z.of_nat (length files))).
  { unfold image_multi_count. rewrite Ed. by apply count_table. }
  split; [done|]. unfold image_multi_getimg. rewrite Ec, Ed. cbn [mbind option_bind]. split.
  - intros i f Hi. pose proof (lookup_lt_Some _ _ _ Hi) as Hlt. rewrite (proj2 (Z.ltb_lt _ _)) by lia.
    rewrite (size_at m (hdr + 64) files i f Hok Ht Hi), Nat2Z.id.
    rewrite (skip_table m files (hdr + 64) 0 i Hok Ht) by lia.
    eexists. split; [reflexivity|]. pose proof (copy_files_at m files _ i f Hf Hi) as Hh.
    rewrite (u32_small (hdr + 64 + _)) by lia.
    assert (pad_sum (firstn i files) <= pad_sum files).
    { rewrite <- (firstn_skipn i files) at 2. generalize (firstn i files). intros l.
      induction l as [|g l IH]; cbn [app pad_sum fold_right]; [apply pad_sum_nonneg|]. unfold pad_sum in IH. lia. }
    pose proof (pad_sum_nonneg (firstn i files)). rewrite u32_small by lia.
    by replace (hdr + 64 + (Z.of_nat (length files) + 1) * 4 + (0 + pad_sum (firstn i files)))
      with (hdr + 64 + 4 * (Z.of_nat (length files) + 1) + pad_sum (firstn i files)) by lia.
  - intros idx Hidx. by rewrite (proj2 (Z.ltb_ge idx _)) by lia.
Qed.

(** The limit that the environment sets. *)
Definition ramdisk_limit (getenv : list Z -> option (list Z)) : Z :=
  match getenv str_initrd_high with Some s => u32 (fst (simple_strtoul s 16)) | None => u32 (-1) end.

(** C36: Placing a ramdisk that is to be copied, not larger than the limit: it ends, and the ramdisk lies, as it was, at the
    highest page-aligned address of a block of memory below the limit that met no reservation; it reports failure, and
    leaves memory alone, only when there is no such block or no room in the table of reservations.  A copy with a
    watchdog goes in pieces from the bottom up: there the blocks that could be chosen must not overlap the ramdisk from above
    ([memmove_wd_overlap] shows the bytes destroyed otherwise). *)
Theorem boot_ramdisk_high_spec watchdog getenv m l rd_data rd_len :
  let high := ramdisk_limit getenv in
  wf (memory l) -> usable (reserved l) -> rd_data <> 0 -> 0 < rd_len -> rd_len + 2 ^ 12 <= 2 ^ 32 ->
  (high <> 0 -> rd_len <= high) -> getenv str_initrd_high = None \/ high <> u32 (-1) ->
  (watchdog = true -> forall a, good_block l rd_len 12 high a -> a <= rd_data \/ rd_data + rd_len <= a) ->
  exists r, boot_ramdisk_high watchdog getenv m l rd_data rd_len = Some r /\
    memory (pl_lmb r) = memory l /\
    ((pl_result r = -1 /\ pl_memory r = m /\
      (cnt (reserved l) = MAX_LMB_REGIONS \/ forall b, b <> 0 -> ~ good_block l rd_len 12 high b)) \/
     (pl_result r = 0 /\ initrd_start r <> 0 /\ good_block l rd_len 12 high (initrd_start r) /\
      (forall b, good_block l rd_len 12 high b -> b <= initrd_start r) /\
      initrd_end r = u32 (initrd_start r + rd_len) /\
      pl_memory r ≡ₘ store_list m (initrd_start r) (mem_list m rd_data (Z.to_nat rd_len)) /\
      (rd_len mod 2 ^ 12 = 0 -> added (reserved l) (reserved (pl_lmb r)) (initrd_start r) rd_len))).
Proof.
  intros high Hw Hu Hd Hl Hs Hmax Hcopy Hwd. unfold boot_ramdisk_high.
  destruct (alloc_base_total l rd_len 12 high Hw Hu ltac:(lia) Hl Hs Hmax) as ([a l'] & Ha & Hml & Hok).
  change (2 ^ 12) with 0x1000 in Ha.
  assert (Halloc : (if negb (high =? 0) then lmb_alloc_base l rd_len 0x1000 high else lmb_alloc l rd_len 0x1000) =
    Some (a, l', a =? 0)).
  { unfold lmb_alloc. destruct (Z.eqb_spec high 0) as [E|E]; cbn [negb]; unfold lmb_alloc_base.
    - rewrite E in Ha. change LMB_ALLOC_ANYWHERE with 0. by rewrite Ha.
    - by rewrite Ha. }
  assert (Hpair : match getenv str_initrd_high with
    | Some s => (u32 (fst (simple_strtoul s 16)), negb (u32 (fst (simple_strtoul s 16)) =? u32 (-1)))
    | None => (u32 (-1), true) end = (high, true)).
  { unfold high, ramdisk_limit in *. destruct (getenv str_initrd_high) as [s|]; [|done].
    destruct Hcopy as [|Hne]; [done|]. by rewrite (proj2 (Z.eqb_neq _ _) Hne). }
  cbv zeta. rewrite Hpair, (proj2 (Z.eqb_neq _ _) Hd). cbn [negb]. rewrite Halloc. cbn [mbind option_bind].
  destruct (Z.eqb_spec a 0) as [E|E].
  { destruct Hok as [(_ & _ & Hno)|[? _]]; [|done]. eexists. split; [reflexivity|]. split; [done|]. by left. }
  destruct Hok as [[? _]|(_ & Hgood & Hbest & Hadd)]; [done|].
  assert (Hmove : exists m', memmove_wd watchdog m a rd_data rd_len CHUNKSZ = Some m' /\
    m' ≡ₘ store_list m a (mem_list m rd_data (Z.to_nat rd_len))).
  { unfold memmove_wd. destruct watchdog.
    - apply chunks_spec; [unfold CHUNKSZ; lia|lia|lia|]. by apply Hwd.
    - eexists. split; [reflexivity|]. apply memmove_meq. }
  destruct Hmove as (m' & -> & Hm'). eexists. split; [reflexivity|]. split; [done|]. right. done.
Qed.

(** ** Witnesses and counterexamples *)

Definition example_params : mkimage_params := Params 0x400000 0x400000 5 7 3 0 [114; 100].
Definition example_files : list (list Z) := [[1; 2; 3]; [4; 5; 6; 7; 8]].
Definition example_image : mem := mkimage true (fun _ => 0) 4096 1000 example_params true example_files.

Lemma zero_mem_bytes : bytes (fun _ => 0).
Proof. intros a. unfold is_byte. lia. Qed.

Lemma example_files_bytes : Forall byte_list example_files.
Proof. by apply (bool_decide_unpack _). Qed.

Lemma example_image_bytes : bytes example_image.
Proof.
  unfold example_image, mkimage. rewrite set_header_unsealed. apply bytes_store; [|apply be32_bytes].
  apply unsealed_bytes; [|by apply (bool_decide_unpack _)]. apply bytes_store; [apply zero_mem_bytes|].
  by apply (bool_decide_unpack _).
Qed.

Lemma mkimage_checks_witness :
  image_check_magic example_image 4096 = true /\ image_check_hcrc false example_image 4096 512 = true /\
  image_check_dcrc false example_image 4096 = Some true /\
  image_get_ramdisk false example_image 4096 7 512 true = Some true.
Proof.
  destruct (mkimage_checks true false (fun _ => 0) example_image 4096 4096 512 1000 example_params true
    example_files 7 true) as (H1 & H2 & H3 & _ & _ & H4).
  - apply zero_mem_bytes.
  - apply example_image_bytes.
  - by apply (bool_decide_unpack _).
  - apply example_files_bytes.
  - lia.
  - vm_compute. reflexivity.
  - reflexivity.
  - exact (conj H1 (conj H2 (conj H3 H4))).
Defined.

Lemma image_corruption_detected_witness :
  let k := example_image.[4180 <- 0] in
  image_check_dcrc true example_image 4096 = Some true /\ image_check_dcrc true k 4096 = Some false.
Proof.
  split; [vm_compute; reflexivity|].
  apply (image_corruption_detected true example_image (example_image.[4180 <- 0]) 4096 512 4177).
  - apply example_image_bytes.
  - apply bytes_upd; [apply example_image_bytes|unfold is_byte; lia].
  - lia.
  - vm_compute. reflexivity.
  - intros a Ha. symmetry. apply upd_ne. lia.
  - vm_compute. discriminate.
  - lia.
  - vm_compute. discriminate.
  - vm_compute. reflexivity.
Defined.

Lemma multi_components_witness :
  let m := store_list (fun _ => 0) 4160 (multi_body example_files) in
  image_multi_count 5 m 4096 = Some 2 /\ image_multi_getimg 5 m 4096 2 = Some (0, 0) /\
  exists a, image_multi_getimg 5 m 4096 1 = Some (a, 5) /\ holds m a [4; 5; 6; 7; 8].
Proof.
  destruct (multi_components (store_list (fun _ => 0) 4160 (multi_body example_files)) 4096 example_files 5)
    as (H1 & H2 & H3).
  - repeat apply List.Forall_cons; [cbn; lia..|apply List.Forall_nil].
  - apply holds_store.
  - lia.
  - vm_compute. reflexivity.
  - cbn. lia.
  - split; [exact H1|]. split; [apply H3; cbn; lia|]. exact (H2 1%nat [4; 5; 6; 7; 8] eq_refl).
Defined.

Lemma boot_ramdisk_high_spec_witness :
  exists r, boot_ramdisk_high false (fun _ => None) (fun a => a mod 256) lmb2 0x50 0x2000 = Some r /\
    pl_result r = 0 /\ initrd_start r = 0x2fe000.
Proof.
  destruct (boot_ramdisk_high_spec false (fun _ => None) (fun a => a mod 256) lmb2 0x50 0x2000) as (r & E & _).
  - apply wf_two; [done|]. vm_compute. intuition congruence.
  - left. apply lmb1_wf.
  - lia.
  - lia.
  - lia.
  - intros _. vm_compute. discriminate.
  - by left.
  - done.
  - assert (H : option_map (fun r => (pl_result r, initrd_start r))
      (boot_ramdisk_high false (fun _ => None) (fun a => a mod 256) lmb2 0x50 0x2000) = Some (0, 0x2fe000))
      by (vm_compute; reflexivity).
    rewrite E in H. cbn [option_map] in H. injection H as H1 H2. exists r. split; [exact E|]. split; assumption.
Defined.

(** With a watchdog the chunks are copied upwards also when the destination overlaps the
    source from above, and later chunks are read from what earlier ones have overwritten. *)
Fact memmove_wd_overlap :
  option_map (fun m => mem_list m 1 3) (memmove_wd true (fun a => a) 1 0 3 1) = Some [0; 0; 0] /\
  option_map (fun m => mem_list m 1 3) (memmove_wd false (fun a => a) 1 0 3 1) = Some [0; 1; 2].
Proof. by vm_compute. Qed.
