(* ===== verification/Flash.v ===== *)
(** Parallel NOR flash: [common/flash.c] and the commands of [common/cmd_flash.c], above
    the driver of the chips (without [CONFIG_SYS_FLASH_PROTECTION] and
    [CONFIG_CMD_MTDPARTS]).

    The arrays of a bank are functions from indices; the banks are a list as long as
    CONFIG_SYS_MAX_FLASH_BANKS.  What the driver does, [write_buff] and [flash_erase], is a parameter
    that acts on a world [W].  What the commands print is a list of messages. *)

From S2P Require Import Prelude CString Vsprintf.

Definition FLASH_UNKNOWN : Z := 65535.
Definition ERR_OK : Z := 0.
Definition ERR_PROTECTED : Z := 4.
Definition ERR_INVAL : Z := 8.
Definition FLAG_PROTECT_SET : Z := 1.
Definition FLAG_PROTECT_CLEAR : Z := 2.

Record flash_info_t : Type := Flash_info {
  size : Z; sector_count : Z; flash_id : Z; start : Z -> Z; protect : Z -> Z }.

Definition set_protect (i v : Z) (info : flash_info_t) : flash_info_t :=
  Flash_info (size info) (sector_count info) (flash_id info) (start info) ((protect info).[i <- v]).

Definition known (info : flash_info_t) : bool := negb (flash_id info =? FLASH_UNKNOWN).

(** [b_end] and [s_end], and the end of a sector. *)
Definition b_end (info : flash_info_t) : Z := u32 (start info 0 + size info - 1).
Definition s_end (info : flash_info_t) : Z := signed 16 (sector_count info - 1).
Definition sect_end (info : flash_info_t) (i : Z) : Z :=
  if i =? s_end info then b_end info else u32 (start info (i + 1) - 1).

Definition sectors (info : flash_info_t) : list Z := seqZ 0 (sector_count info).

Definition flash_protect (flag from to : Z) (info : flash_info_t) : flash_info_t :=
  if (sector_count info =? 0) || (size info =? 0) || (to <? from) then info
  else if (flash_id info =? FLASH_UNKNOWN) || (to <? start info 0) || (b_end info <? from) then info
  else
    fold_left (fun info i =>
      if (from <=? sect_end info i) && (start info i <=? to) then
        if negb (Z.land flag FLAG_PROTECT_CLEAR =? 0) then set_protect i 0 info
        else if negb (Z.land flag FLAG_PROTECT_SET =? 0) then set_protect i 1 info
        else info
      else info) (sectors info) info.

(** The index of the bank at an address. *)
Fixpoint addr2info_from (i : nat) (banks : list flash_info_t) (addr : Z) : option nat :=
  match banks with
  | [] => None
  | info :: banks =>
    if known info && (start info 0 <=? addr) && (addr <=? b_end info) then Some i
    else addr2info_from (S i) banks addr
  end.

Definition addr2info (banks : list flash_info_t) (addr : Z) : option nat := addr2info_from 0 banks addr.

(** The banks [info_first] to [info_last]. *)
Definition between (banks : list flash_info_t) (first last : nat) : list (nat * flash_info_t) :=
  combine (seq first (S last - first)) (firstn (S last - first) (skipn first banks)).

(** The check of [flash_write]. *)
Definition hits_protected (addr end_ : Z) (info : flash_info_t) : bool :=
  existsb (fun i =>
    let e_addr := if i =? s_end info then u32 (start info 0 + size info) else start info (i + 1) in
    (start info i <=? end_) && (addr <? e_addr) && negb (protect info i =? 0)) (sectors info).

(** ** Messages *)

Inductive message : Type :=
  | End_not_in_flash (addr : Z) | End_not_on_boundary | End_precedes_start | Start_not_on_boundary
  | Reverse_order | Not_on_boundary | Erased (n : Z) | Protected (p : Z) (n : Z)
  | Bad_sectors | Bad_address | Usage | Only_banks | Missing_flash
  | Erase_bank (bank : Z) | Erase_sectors (first last bank : Z)
  | Protect_bank (p bank : Z) | Protect_sectors (p first last bank : Z).

(** ** Sector ranges *)

(** The first and last sectors that begin and end with the range; the initial value is [(-1, -1)]. *)
Definition scan (info : flash_info_t) (addr_first addr_last : Z) : Z * Z :=
  fold_left (fun '(f, l) sect =>
    let end_ := sect_end info sect in
    if end_ <? addr_first then (f, l)
    else if addr_last <? start info sect then (f, l)
    else (if addr_first =? start info sect then sect else f, if addr_last =? end_ then sect else l))
    (sectors info) (-1, -1).

(** [flash_fill_sect_ranges]: its result, [s_first] and [s_last], [s_count] and the messages. *)
Fixpoint flash_fill_sect_ranges (banks : list flash_info_t) (addr_first addr_last : Z)
    : Z * list (Z * Z) * Z * list message :=
  match banks with
  | [] => (0, [], 0, [])
  | info :: banks =>
    let none := repeat (-1, -1) (length banks) in
    if addr_last <? addr_first then (0, (-1, -1) :: none, 0, [])
    else if negb (known info) then
      let '(rc, r, n, o) := flash_fill_sect_ranges banks addr_first addr_last in (rc, (-1, -1) :: r, n, o)
    else
      let '(f, l) := scan info addr_first addr_last in
      if 0 <=? f then
        let bad := (l <? 0) && negb (b_end info <? addr_last) in
        let l := if (l <? 0) && negb bad then s_end info else l in
        if bad then (1, (f, l) :: none, 0, [End_not_on_boundary])
        else if l <? f then (1, (f, l) :: none, 0, [End_precedes_start])
        else
          let addr_first := if l =? s_end info then u32 (b_end info + 1) else start info (l + 1) in
          let '(rc, r, n, o) := flash_fill_sect_ranges banks addr_first addr_last in
          (rc, (f, l) :: r, n + (l - f + 1), o)
      else if (start info 0 <=? addr_first) && (addr_first <? b_end info) then
        (1, (f, l) :: none, 0, [Start_not_on_boundary])
      else if 0 <=? l then (1, (f, l) :: none, 0, [Reverse_order])
      else
        let '(rc, r, n, o) := flash_fill_sect_ranges banks addr_first addr_last in (rc, (f, l) :: r, n, o)
  end.

(** [flash_sect_roundb]: the address rounded up, or the error. *)
Definition sector_of (info : flash_info_t) (addr : Z) : option Z :=
  find (fun i =>
    let e := if i =? sector_count info - 1 then u32 (start info 0 + size info - 1) else u32 (start info (i + 1) - 1) in
    (addr <=? e) && (start info i <=? addr)) (sectors info).

Fixpoint flash_sect_roundb (banks : list flash_info_t) (addr : Z) : option Z :=
  match banks with
  | [] => None
  | info :: banks =>
    match sector_of info addr with
    | Some i => Some (if i =? sector_count info - 1 then u32 (start info 0 + size info - 1) else u32 (start info (i + 1) - 1))
    | None => flash_sect_roundb banks addr
    end
  end.

(** [flash_sect_protect]. *)
Definition flash_sect_protect (p : Z) (banks : list flash_info_t) (addr_first addr_last : Z)
    : list flash_info_t * Z * list message :=
  let '(rcode, ranges, planned, o) := flash_fill_sect_ranges banks addr_first addr_last in
  if negb (planned =? 0) && (rcode =? 0) then
    let set '(info, (f, l)) :=
      if known info && (0 <=? f) && (f <=? l) then fold_left (fun info i => set_protect i p info) (seqZ f (l - f + 1)) info
      else info in
    let count '(info, (f, l)) := if known info && (0 <=? f) && (f <=? l) then l - f + 1 else 0 in
    let all := combine banks ranges in
    (map set all, 0, o ++ [Protected p (fold_right Z.add 0 (map count all))])
  else if rcode =? 0 then (banks, 1, o ++ [Not_on_boundary])
  else (banks, rcode, o).

(** ** Writing and erasing *)

Section driver.
Context {W : Type}.
(** The driver, given the bank. *)
Context (write_buff : nat -> W -> Z -> Z -> Z -> W * Z).
Context (flash_erase : nat -> W -> Z -> Z -> W * Z).

(** The second loop of [flash_write]. *)
Fixpoint write_loop (l : list (nat * flash_info_t)) (w : W) (src addr cnt : Z) : W * Z :=
  match l with
  | [] => (w, ERR_OK)
  | (b, info) :: l =>
    if 0 <? cnt then
      let len := u32 (start info 0 + size info - addr) in
      let len := if cnt <? len then cnt else len in
      let '(w, i) := write_buff b w src addr len in
      if negb (i =? 0) then (w, i) else write_loop l w (u32 (src + len)) (u32 (addr + len)) (cnt - len)
    else (w, ERR_OK)
  end.

Definition flash_write (banks : list flash_info_t) (w : W) (src addr cnt : Z) : W * Z :=
  let end_ := u32 (addr + cnt - 1) in
  if cnt =? 0 then (w, ERR_OK)
  else
    match addr2info banks addr, addr2info banks end_ with
    | Some first, Some last =>
      let l := between banks first last in
      if existsb (fun '(_, info) => hits_protected addr end_ info) l then (w, ERR_PROTECTED)
      else write_loop l w src addr cnt
    | _, _ => (w, ERR_INVAL)
    end.

(** The loop of [flash_sect_erase]. *)
Fixpoint erase_loop (b : nat) (ranges : list (Z * Z)) (w : W) (erased : Z) : W * Z * Z :=
  match ranges with
  | [] => (w, 0, erased)
  | (f, l) :: ranges =>
    if 0 <=? f then
      let erased := erased + (l - f + 1) in
      let '(w, rcode) := flash_erase b w f l in
      if rcode =? 0 then erase_loop (S b) ranges w erased else (w, rcode, erased)
    else erase_loop (S b) ranges w erased
  end.

Definition flash_sect_erase (banks : list flash_info_t) (w : W) (addr_first addr_last : Z) : W * Z * list message :=
  let '(rcode, ranges, planned, o) := flash_fill_sect_ranges banks addr_first addr_last in
  if negb (planned =? 0) && (rcode =? 0) then
    let '(w, rcode, erased) := erase_loop 0 ranges w 0 in (w, rcode, o ++ [Erased erased])
  else if rcode =? 0 then (w, 1, o ++ [Not_on_boundary])
  else (w, rcode, o).

(** ** The commands *)

(** [strchr], and the string cut there. *)
Fixpoint cut (c : Z) (s : list Z) : option (list Z * list Z) :=
  match s with
  | [] => None
  | x :: s => if x =? c then Some ([], s) else '(a, b) ← cut c s; Some (x :: a, b)
  end.

(** [simple_strtoul] to the end of a string that has a digit. *)
Definition whole_number (s : list Z) (base : Z) : option Z :=
  let '(v, ep) := simple_strtoul s base in
  if (length ep =? length s)%nat || negb (length ep =? 0)%nat then None else Some v.

(** No abbreviation, a bad one, or a bank (counted from 0) and its sectors. *)
Inductive spec : Type := Not_abbrev | Bad_spec | Spec (bank : nat) (first last : Z).

Definition abbrev_spec (banks : list flash_info_t) (str : list Z) : spec :=
  match cut 58 str with
  | None => Not_abbrev
  | Some (str, p) =>
    match whole_number str 10 with
    | None => Bad_spec
    | Some bank =>
      let bank := s32 bank in
      match (if bank <? 1 then None else banks !! Z.to_nat (bank - 1)) with
      | None => Bad_spec
      | Some fp =>
        if negb (known fp) then Bad_spec
        else
          let '(str, p) := match cut 45 p with Some (str, p) => (str, Some p) | None => (p, None) end in
          match whole_number str 10 with
          | None => Bad_spec
          | Some first =>
            let first := s32 first in
            if sector_count fp <=? first then Bad_spec
            else
              match p with
              | None => Spec (Z.to_nat (bank - 1)) first first
              | Some p =>
                match whole_number p 10 with
                | None => Bad_spec
                | Some last =>
                  let last := s32 last in
                  if (last <? first) || (sector_count fp <=? last) then Bad_spec
                  else Spec (Z.to_nat (bank - 1)) first last
                end
              end
          end
      end
    end
  end.

(** [addr_spec]: the range, and what [flash_sect_roundb] prints. *)
Definition addr_spec (banks : list flash_info_t) (arg1 arg2 : list Z) : option (Z * Z) * list message :=
  match whole_number arg1 16 with
  | None => (None, [])
  | Some addr_first =>
    let '(len_used, arg2) := match arg2 with c :: r => if c =? 43 then (true, r) else (false, arg2) | [] => (false, arg2) end in
    match whole_number arg2 16 with
    | None => (None, [])
    | Some addr_last =>
      if len_used : bool then
        let addr_last := u32 (addr_first + addr_last - 1) in
        match flash_sect_roundb banks addr_last with
        | None => (None, [End_not_in_flash addr_last])
        | Some addr_last => (Some (addr_first, addr_last), [])
        end
      else (Some (addr_first, addr_last), [])
    end
  end.

(** "all", "bank", "on", "off" *)
Definition str_all : list Z := [97; 108; 108].
Definition str_bank : list Z := [98; 97; 110; 107].
Definition str_on : list Z := [111; 110].
Definition str_off : list Z := [111; 102; 102].

Definition whole_bank (banks : list flash_info_t) (arg : list Z) : option (Z * flash_info_t) :=
  let bank := fst (simple_strtoul arg 16) in
  if bank <? 1 then None else info ← banks !! Z.to_nat (bank - 1); Some (bank, info).

(** The loop of "erase all": the result is that of the last bank. *)
Fixpoint erase_all (b : nat) (banks : list flash_info_t) (w : W) (rcode : Z) : W * Z * list message :=
  match banks with
  | [] => (w, rcode, [])
  | info :: banks =>
    let '(w, rcode) := flash_erase b w 0 (sector_count info - 1) in
    let '(w, rcode, o) := erase_all (S b) banks w rcode in
    (w, rcode, Erase_bank (Z.of_nat b + 1) :: o)
  end.

(** [argv] without the name of the command. *)
Definition do_flerase (banks : list flash_info_t) (w : W) (args : list (list Z)) : W * Z * list message :=
  match args with
  | [] => (w, 1, [Usage])
  | arg :: args =>
    if bool_decide (arg = str_all) then erase_all 0 banks w 0
    else
      match abbrev_spec banks arg with
      | Bad_spec => (w, 1, [Bad_sectors])
      | Spec bank first last =>
        let '(w, rcode) := flash_erase bank w first last in
        (w, rcode, [Erase_sectors first last (Z.of_nat bank + 1)])
      | Not_abbrev =>
        match args with
        | [arg2] =>
          if bool_decide (arg = str_bank) then
            match whole_bank banks arg2 with
            | None => (w, 1, [Only_banks])
            | Some (bank, info) =>
              let '(w, rcode) := flash_erase (Z.to_nat (bank - 1)) w 0 (sector_count info - 1) in
              (w, rcode, [Erase_bank bank])
            end
          else
            match addr_spec banks arg arg2 with
            | (None, o) => (w, 1, o ++ [Bad_address])
            | (Some (addr_first, addr_last), o) =>
              if addr_last <=? addr_first then (w, 1, o ++ [Usage])
              else let '(w, rcode, o') := flash_sect_erase banks w addr_first addr_last in (w, rcode, o ++ o')
            end
        | _ => (w, 1, [Usage])
        end
      end
  end.
End driver.

(** Bank [b] changed. *)
Definition set_sectors (p first last : Z) (info : flash_info_t) : flash_info_t :=
  fold_left (fun info i => set_protect i p info) (seqZ first (last - first + 1)) info.

Definition protect_all (p : Z) (b : nat) (banks : list flash_info_t) : list message :=
  concat (imap (fun i info => if known info then [Protect_bank p (Z.of_nat (b + i) + 1)] else []) banks).

Definition do_protect (banks : list flash_info_t) (args : list (list Z)) : list flash_info_t * Z * list message :=
  match args with
  | mode :: arg :: args =>
    match (if bool_decide (mode = str_off) then Some 0 else if bool_decide (mode = str_on) then Some 1 else None) with
    | None => (banks, 1, [Usage])
    | Some p =>
      if bool_decide (arg = str_all) then
        (map (fun info => if known info then set_sectors p 0 (sector_count info - 1) info else info) banks, 0,
         protect_all p 0 banks)
      else
        match abbrev_spec banks arg with
        | Bad_spec => (banks, 1, [Bad_sectors])
        | Spec bank first last =>
          (alter (set_sectors p first last) bank banks, 0, [Protect_sectors p first last (Z.of_nat bank + 1)])
        | Not_abbrev =>
          match args with
          | [arg2] =>
            if bool_decide (arg = str_bank) then
              match whole_bank banks arg2 with
              | None => (banks, 1, [Only_banks])
              | Some (bank, info) =>
                if negb (known info) then (banks, 1, [Protect_bank p bank; Missing_flash])
                else (alter (set_sectors p 0 (sector_count info - 1)) (Z.to_nat (bank - 1)) banks, 0, [Protect_bank p bank])
              end
            else
              match addr_spec banks arg arg2 with
              | (None, o) => (banks, 1, o ++ [Bad_address])
              | (Some (addr_first, addr_last), o) =>
                if addr_last <=? addr_first then (banks, 1, o ++ [Usage])
                else let '(banks, rcode, o') := flash_sect_protect p banks addr_first addr_last in (banks, rcode, o ++ o')
              end
          | _ => (banks, 1, [Usage])
          end
        end
    end
  | _ => (banks, 1, [Usage])
  end.

(** ** Banks *)

(** Where the sector after sector [i] would start. *)
Definition next (info : flash_info_t) (i : Z) : Z :=
  if i =? sector_count info - 1 then start info 0 + size info else start info (i + 1).

Record wf (info : flash_info_t) : Prop := {
  wf_count : 1 <= sector_count info <= 32767;
  wf_size : size info < 2 ^ 32;
  wf_order : forall i, 0 <= i < sector_count info -> start info i < next info i;
  wf_low : 0 <= start info 0;
  wf_top : start info 0 + size info <= 2 ^ 32 }.

(** The sector overlaps the range. *)
Definition overlaps (info : flash_info_t) (from to i : Z) : Prop := from < next info i /\ start info i <= to.

Section bank.
Context (info : flash_info_t) (Hwf : wf info).

Lemma s_end_wf : s_end info = sector_count info - 1.
Proof using Hwf. destruct Hwf. unfold s_end. apply signed_small; lia. Qed.

Lemma next_S i : i <> sector_count info - 1 -> next info i = start info (i + 1).
Proof using. intros Hi. unfold next. by rewrite (proj2 (Z.eqb_neq _ _)). Qed.

Lemma next_last : next info (sector_count info - 1) = start info 0 + size info.
Proof using. unfold next. by rewrite Z.eqb_refl. Qed.

Lemma start_mono i j : 0 <= i -> i < j < sector_count info -> next info i <= start info j.
Proof using Hwf.
  intros Hi Hj. replace j with (i + 1 + Z.of_nat (Z.to_nat (j - i - 1))) in * by lia.
  induction (Z.to_nat (j - i - 1)) as [|k IH].
  - rewrite Z.add_0_r, next_S by lia. lia.
  - specialize (IH ltac:(lia)). pose proof (wf_order info Hwf (i + 1 + Z.of_nat k) ltac:(lia)) as Ho.
    rewrite next_S in Ho by lia. replace (i + 1 + Z.of_nat (S k)) with (i + 1 + Z.of_nat k + 1) by lia. lia.
Qed.

Lemma start_le i j : 0 <= i <= j -> j < sector_count info -> start info i <= start info j.
Proof using Hwf.
  intros Hi Hj. destruct (Z.eq_dec i j) as [->|]; [lia|]. pose proof (start_mono i j ltac:(lia) ltac:(lia)).
  pose proof (wf_order info Hwf i ltac:(lia)). lia.
Qed.

Lemma next_le i j : 0 <= i <= j -> j < sector_count info -> next info i <= next info j.
Proof using Hwf.
  intros Hi Hj. destruct (Z.eq_dec i j) as [->|]; [lia|]. pose proof (start_mono i j ltac:(lia) ltac:(lia)).
  pose proof (wf_order info Hwf j ltac:(lia)). lia.
Qed.

Lemma sector_bounds i :
  0 <= i < sector_count info -> start info 0 <= start info i /\ next info i <= start info 0 + size info.
Proof using Hwf.
  intros Hi. split; [apply start_le; lia|]. rewrite <- next_last. apply next_le; lia.
Qed.

Lemma b_end_wf : b_end info = start info 0 + size info - 1.
Proof using Hwf.
  destruct Hwf. pose proof (sector_bounds 0 ltac:(lia)). pose proof (wf_order0 0 ltac:(lia)). apply u32_small. lia.
Qed.

Lemma sect_end_wf i : 0 <= i < sector_count info -> sect_end info i = next info i - 1.
Proof using Hwf.
  intros Hi. pose proof (sector_bounds i Hi) as [Hb Ht]. pose proof (wf_order info Hwf i Hi). pose proof (wf_low info Hwf).
  pose proof (wf_top info Hwf). unfold sect_end. rewrite s_end_wf. unfold next in *. destruct (Z.eqb_spec i (sector_count info - 1)).
  - apply b_end_wf.
  - apply u32_small. lia.
Qed.

(** A range in the bank begins in exactly one sector. *)
Lemma sector_at a : start info 0 <= a < start info 0 + size info ->
  exists i, 0 <= i < sector_count info /\ start info i <= a < next info i.
Proof using Hwf.
  intros Ha. pose proof (wf_count info Hwf) as Hc.
  assert (H : forall k : nat, Z.of_nat k < sector_count info -> a < next info (Z.of_nat k) ->
    exists i, 0 <= i < sector_count info /\ start info i <= a < next info i).
  { induction k as [|k IH]; intros Hk Hn; [exists 0; split; [lia|]; by split; [lia|]|].
    destruct (Z_lt_dec a (next info (Z.of_nat k))); [apply IH; lia|]. exists (Z.of_nat (S k)).
    rewrite next_S in * by lia. replace (Z.of_nat k + 1) with (Z.of_nat (S k)) in * by lia. split; lia. }
  apply (H (Z.to_nat (sector_count info - 1))); [lia|]. rewrite Z2Nat.id by lia. rewrite next_last. lia.
Qed.
End bank.

(** [flash_protect] changes the protection of the sectors that overlap the range, and nothing else. *)
Lemma flash_protect_spec flag from to info i :
  wf info -> known info = true ->
  let info' := flash_protect flag from to info in
  (size info' = size info /\ sector_count info' = sector_count info /\ flash_id info' = flash_id info /\ start info' = start info) /\
  (from <= to -> 0 <= i < sector_count info -> overlaps info from to i ->
    protect info' i =
      if negb (Z.land flag FLAG_PROTECT_CLEAR =? 0) then 0
      else if negb (Z.land flag FLAG_PROTECT_SET =? 0) then 1 else protect info i) /\
  (~ (from <= to /\ 0 <= i < sector_count info /\ overlaps info from to i) -> protect info' i = protect info i).
Proof.
  intros Hwf Hk. unfold flash_protect. cbn zeta. unfold known in Hk.
  pose proof (wf_count info Hwf) as Hc. pose proof (b_end_wf info Hwf) as Hb.
  pose proof (sector_bounds info Hwf 0 ltac:(lia)) as [_ Hs0]. pose proof (wf_order info Hwf 0 ltac:(lia)) as Ho0.
  assert (Hout : forall j, 0 <= j < sector_count info -> overlaps info from to j -> start info 0 <= to /\ from <= b_end info).
  { intros j Hj [H1 H2]. pose proof (sector_bounds info Hwf j Hj). rewrite Hb. lia. }
  destruct (Z.eqb_spec (sector_count info) 0); [lia|]. destruct (Z.eqb_spec (size info) 0); [lia|].
  destruct (Z.ltb_spec to from); cbn [orb]; [by split_and!; [..|lia|]|].
  destruct (flash_id info =? FLASH_UNKNOWN); [done|]. cbn [orb].
  destruct (Z.ltb_spec to (start info 0)) as [|Hlo]; cbn [orb].
  { split_and!; try done. intros _ Hi Ho. specialize (Hout i Hi Ho). lia. }
  destruct (Z.ltb_spec (b_end info) from) as [|Hhi].
  { split_and!; try done. intros _ Hi Ho. specialize (Hout i Hi Ho). lia. }
  set (v := if negb _ then 0 else _). unfold sectors.
  pose (P j info' := (size info' = size info /\ sector_count info' = sector_count info /\
      flash_id info' = flash_id info /\ start info' = start info) /\
    (0 <= i < j -> overlaps info from to i -> protect info' i = v) /\
    (~ (0 <= i < j /\ overlaps info from to i) -> protect info' i = protect info i)).
  set (f := fun (_ : flash_info_t) (_ : Z) => _).
  enough (HP : P (0 + sector_count info) (fold_left f (seqZ 0 (sector_count info)) info)).
  { destruct HP as (H1 & H2 & H3). rewrite Z.add_0_l in *. split_and!; try apply H1; [by intros _|]. intros Hn. apply H3. tauto. }
  apply fold_seqZ; [lia|split_and!; try done; lia|].
  intros j s Hj ((E1 & E2 & E3 & E4) & E5 & E6). rewrite Z.add_0_l in Hj. unfold f.
  assert (Ee : sect_end s j = next info j - 1).
  { rewrite <- sect_end_wf by (done || lia). unfold sect_end, s_end, b_end. by rewrite E1, E2, E4. }
  rewrite Ee, E4.
  assert (Hset : forall x, x = v -> overlaps info from to j -> P (j + 1) (set_protect j x s)).
  { intros x -> Ho. split; [done|]. cbn [set_protect protect]. destruct (Z.eq_dec i j) as [->|Hne].
    - rewrite upd_eq. split; [done|]. intros Hn. destruct Hn. split; [lia|done].
    - rewrite upd_ne by done. split; [intros Hi Ho'; apply E5; [lia|done]|]. intros Hn. apply E6. intros [? ?]. apply Hn. split; [lia|done]. }
  destruct ((from <=? next info j - 1) && (start info j <=? to)) eqn:Hov.
  - assert (Hov' : overlaps info from to j) by (unfold overlaps; lia). unfold v in Hset.
    destruct (negb (Z.land flag FLAG_PROTECT_CLEAR =? 0)); [by apply Hset|].
    destruct (negb (Z.land flag FLAG_PROTECT_SET =? 0)); [by apply Hset|].
    split; [done|]. fold v. split; [|intros Hn; apply E6; intros [? ?]; apply Hn; split; [lia|done]].
    intros Hi Ho. destruct (decide (0 <= i < j /\ overlaps info from to i)) as [[? ?]|Hn]; [by apply E5|by rewrite E6].
  - assert (Hno : ~ overlaps info from to j) by (unfold overlaps; lia).
    split; [done|]. split.
    + intros Hi Ho. apply E5; [|done]. destruct (Z.eq_dec i j) as [->|]; [done|lia].
    + intros Hn. apply E6. intros [? ?]. apply Hn. split; [lia|done].
Qed.

(** Sector [s] begins, ends, at [a]. *)
Definition starts_at (info : flash_info_t) (a s : Z) : Prop := 0 <= s < sector_count info /\ start info s = a.
Definition ends_at (info : flash_info_t) (a s : Z) : Prop := 0 <= s < sector_count info /\ next info s - 1 = a.

Lemma scan_spec info first last :
  wf info -> first <= last ->
  let '(f, l) := scan info first last in
  (starts_at info first f \/ f = -1 /\ forall s, ~ starts_at info first s) /\
  (ends_at info last l \/ l = -1 /\ forall s, ~ ends_at info last s).
Proof.
  intros Hwf Hle. unfold scan, sectors. match goal with |- context [fold_left ?h _ _] => set (g := h) end.
  pose (P j (r : Z * Z) :=
    (starts_at info first (fst r) \/ fst r = -1 /\ forall s, s < j -> ~ starts_at info first s) /\
    (ends_at info last (snd r) \/ snd r = -1 /\ forall s, s < j -> ~ ends_at info last s)).
  enough (HP : P (0 + sector_count info) (fold_left g (seqZ 0 (sector_count info)) (-1, -1))).
  { destruct (fold_left g _ _) as [f l]. destruct HP as [H1 H2]. cbn [fst snd] in *. split.
    - destruct H1 as [H1|[H1 H3]]; [by left|right]. split; [done|]. intros s [Hs E]. apply (H3 s); [lia|by split].
    - destruct H2 as [H2|[H2 H3]]; [by left|right]. split; [done|]. intros s [Hs E]. apply (H3 s); [lia|by split]. }
  apply fold_seqZ; [destruct (wf_count info Hwf); lia| |].
  { split; right; (split; [done|]); intros s Hs [Hs' _]; lia. }
  intros j [f l] Hj [H1 H2]. rewrite Z.add_0_l in Hj. unfold g. cbn [fst snd] in *.
  pose proof (sect_end_wf info Hwf j ltac:(lia)) as Ee. pose proof (wf_order info Hwf j ltac:(lia)) as Ho. rewrite Ee.
  assert (Hf : forall f', (starts_at info first j /\ f' = j \/ start info j <> first /\ f' = f) ->
    starts_at info first f' \/ f' = -1 /\ forall s, s < j + 1 -> ~ starts_at info first s).
  { intros f' [[Hs ->]|[Hne ->]]; [by left|]. destruct H1 as [H1|[H1 H3]]; [by left|right]. split; [done|].
    intros s Hs E. destruct (Z.eq_dec s j) as [->|]; [by destruct E|]. apply (H3 s); [lia|done]. }
  assert (Hl : forall l', (ends_at info last j /\ l' = j \/ next info j - 1 <> last /\ l' = l) ->
    ends_at info last l' \/ l' = -1 /\ forall s, s < j + 1 -> ~ ends_at info last s).
  { intros l' [[Hs ->]|[Hne ->]]; [by left|]. destruct H2 as [H2|[H2 H3]]; [by left|right]. split; [done|].
    intros s Hs E. destruct (Z.eq_dec s j) as [->|]; [by destruct E|]. apply (H3 s); [lia|done]. }
  unfold starts_at, ends_at in Hf, Hl. unfold P.
  destruct (Z.ltb_spec (next info j - 1) first); [cbn [fst snd]; split; [apply Hf; lia|apply Hl; lia]|].
  destruct (Z.ltb_spec last (start info j)); [cbn [fst snd]; split; [apply Hf; lia|apply Hl; lia]|].
  cbn [fst snd]. split.
  - apply Hf. destruct (Z.eqb_spec first (start info j)); lia.
  - apply Hl. destruct (Z.eqb_spec last (next info j - 1)); lia.
Qed.

(** ** Several banks *)

(** The banks lie one behind the other, from [a] on; those without flash are the last ones. *)
Fixpoint chain (a : Z) (banks : list flash_info_t) : Prop :=
  match banks with
  | [] => True
  | info :: banks =>
    if known info then wf info /\ start info 0 = a /\ chain (a + size info) banks
    else Forall (fun info => known info = false) banks
  end.

Fixpoint limit (a : Z) (banks : list flash_info_t) : Z :=
  match banks with
  | [] => a
  | info :: banks => if known info then limit (a + size info) banks else a
  end.

Lemma chain_size info : wf info -> 0 < size info.
Proof. intros Hwf. pose proof (wf_count info Hwf). pose proof (sector_bounds info Hwf 0 ltac:(lia)). pose proof (wf_order info Hwf 0 ltac:(lia)). lia. Qed.

Lemma limit_ge banks : forall a, chain a banks -> a <= limit a banks.
Proof.
  induction banks as [|info banks IH]; intros a Hc; cbn [chain limit] in *; [lia|]. destruct (known info); [|lia].
  destruct Hc as (Hwf & _ & Hc). specialize (IH _ Hc). pose proof (chain_size info Hwf). lia.
Qed.

Lemma unknown_chain a banks : Forall (fun info => known info = false) banks -> chain a banks /\ limit a banks = a.
Proof.
  intros Hu. destruct banks as [|info banks]; [done|]. apply List.Forall_cons_iff in Hu as [Hk Hu]. cbn [chain limit]. by rewrite Hk.
Qed.

(** A range of sectors of a bank is what the address range calls for. *)
Definition planned (first last : Z) (info : flash_info_t) (r : Z * Z) : Prop :=
  forall i, (0 <= fst r /\ fst r <= i <= snd r <-> known info = true /\ 0 <= i < sector_count info /\ overlaps info first last i) /\
  (0 <= fst r -> fst r <= i <= snd r -> first <= start info i /\ next info i - 1 <= last).

Lemma planned_none first last info :
  (known info = true -> forall i, 0 <= i < sector_count info -> ~ overlaps info first last i) -> planned first last info (-1, -1).
Proof. intros H i. cbn [fst snd]. split; [|lia]. split; [lia|]. intros (Hk & Hi & Ho). by destruct (H Hk i Hi). Qed.

Lemma planned_from first first' last info r :
  planned first' last info r -> first <= first' -> (forall i, 0 <= i < sector_count info -> first' < next info i) ->
  planned first last info r.
Proof.
  intros Hp Hle Hi i. destruct (Hp i) as [H1 H2]. split; [|intros; destruct (H2 ltac:(done) ltac:(done)); lia].
  rewrite H1. unfold overlaps. split; intros (Hk & Hs & Ho); (split; [done|]; split; [done|]); [lia|].
  specialize (Hi i Hs). lia.
Qed.

Lemma fill_none banks first last :
  last < first \/ Forall (fun info => known info = false) banks ->
  flash_fill_sect_ranges banks first last = (0, repeat (-1, -1) (length banks), 0, []).
Proof.
  revert first. induction banks as [|info banks IH]; intros first H; [done|]. cbn [flash_fill_sect_ranges length repeat].
  destruct (Z.ltb_spec last first); [done|]. destruct H as [|H]; [lia|]. apply List.Forall_cons_iff in H as [Hk H].
  rewrite Hk. cbn [negb]. rewrite IH by (by right). done.
Qed.

Lemma none_planned banks first last :
  (forall info, In info banks -> known info = true -> forall i, 0 <= i < sector_count info -> ~ overlaps info first last i) ->
  Forall2 (planned first last) banks (repeat (-1, -1) (length banks)).
Proof.
  induction banks as [|info banks IH]; intros H; [constructor|]. cbn [length repeat]. constructor.
  - apply planned_none. apply H. by left.
  - apply IH. intros j Hj. apply H. by right.
Qed.

(** A bank of the chain lies between its ends. *)
Lemma chain_in banks : forall a info, chain a banks -> In info banks -> known info = true ->
  wf info /\ a <= start info 0 /\ start info 0 + size info <= limit a banks.
Proof.
  induction banks as [|b banks IH]; intros a info Hc Hin Hk; [done|]. cbn [chain limit] in *.
  destruct (known b) eqn:Hb.
  - destruct Hc as (Hwf & <- & Hc). pose proof (chain_size b Hwf). pose proof (limit_ge _ _ Hc). destruct Hin as [->|Hin]; [split; [done|lia]|].
    destruct (IH _ _ Hc Hin Hk) as (Hw & ? & ?). split; [done|lia].
  - destruct Hin as [->|Hin]; [congruence|]. rewrite List.Forall_forall in Hc. rewrite (Hc info Hin) in Hk. done.
Qed.

(** The range begins with a sector of some bank, and ends with one or behind all of them. *)
Definition begins (banks : list flash_info_t) (first : Z) : Prop :=
  exists info s, In info banks /\ known info = true /\ starts_at info first s.
Definition stops (a : Z) (banks : list flash_info_t) (last : Z) : Prop :=
  limit a banks <= last \/ exists info s, In info banks /\ known info = true /\ ends_at info last s.

Lemma start_in info a s : wf info -> starts_at info a s -> start info 0 <= a < start info 0 + size info.
Proof.
  intros Hwf [Hs <-]. pose proof (sector_bounds info Hwf s Hs). pose proof (wf_order info Hwf s Hs). lia.
Qed.

Lemma end_in info a s : wf info -> ends_at info a s -> start info 0 <= a < start info 0 + size info.
Proof.
  intros Hwf [Hs <-]. pose proof (sector_bounds info Hwf s Hs). pose proof (wf_order info Hwf s Hs). lia.
Qed.

(** Only the first bank can have a given address. *)
Lemma begins_cons a info banks first :
  chain a (info :: banks) -> known info = true -> first < a + size info ->
  begins (info :: banks) first <-> exists s, starts_at info first s.
Proof.
  intros Hc Hk Hlt. cbn [chain] in Hc. rewrite Hk in Hc. destruct Hc as (Hwf & <- & Hc). split.
  - intros (i & s & [->|Hin] & Hki & Hs); [by exists s|]. destruct (chain_in _ _ _ Hc Hin Hki) as (Hwi & Hlo & _).
    pose proof (start_in i _ _ Hwi Hs). lia.
  - intros [s Hs]. exists info, s. split; [by left|done].
Qed.

Lemma begins_skip a info banks first :
  chain a (info :: banks) -> known info = true -> a + size info <= first ->
  begins (info :: banks) first <-> begins banks first.
Proof.
  intros Hc Hk Hlt. cbn [chain] in Hc. rewrite Hk in Hc. destruct Hc as (Hwf & <- & Hc). split.
  - intros (i & s & [->|Hin] & Hki & Hs); [|by exists i, s]. pose proof (start_in i _ _ Hwf Hs). lia.
  - intros (i & s & Hin & Hki & Hs). exists i, s. split; [by right|done].
Qed.

Lemma stops_cons a info banks last :
  chain a (info :: banks) -> known info = true -> last < a + size info ->
  stops a (info :: banks) last <-> exists s, ends_at info last s.
Proof.
  intros Hc Hk Hlt. unfold stops. cbn [chain limit] in *. rewrite Hk in *. destruct Hc as (Hwf & <- & Hc).
  pose proof (limit_ge _ _ Hc) as Hge. split.
  - intros [Hl|(i & s & [->|Hin] & Hki & Hs)]; [lia|by exists s|].
    destruct (chain_in _ _ _ Hc Hin Hki) as (Hwi & Hlo & _). pose proof (end_in i _ _ Hwi Hs). lia.
  - intros [s Hs]. right. exists info, s. split; [by left|done].
Qed.

Lemma stops_skip a info banks last :
  chain a (info :: banks) -> known info = true -> a + size info <= last ->
  stops a (info :: banks) last <-> stops (a + size info) banks last.
Proof.
  intros Hc Hk Hlt. unfold stops. cbn [chain limit] in *. rewrite Hk in *. destruct Hc as (Hwf & <- & Hc). split.
  - intros [Hl|(i & s & [->|Hin] & Hki & Hs)]; [by left| |right; by exists i, s]. pose proof (end_in i _ _ Hwf Hs). lia.
  - intros [Hl|(i & s & Hin & Hki & Hs)]; [by left|right]. exists i, s. split; [by right|done].
Qed.

(** A range that begins in front of the banks. *)
Lemma fill_before banks : forall a first last,
  chain a banks -> first < a -> first <= last ->
  let '(rc, _, n, _) := flash_fill_sect_ranges banks first last in rc = 1 \/ n = 0 /\ rc = 0.
Proof.
  induction banks as [|info banks IH]; intros a first last Hc Hlt Hle; [by right|]. cbn [chain] in Hc. cbn [flash_fill_sect_ranges].
  destruct (Z.ltb_spec last first); [lia|]. destruct (known info) eqn:Hk; cbn [negb]; cycle 1.
  { rewrite fill_none by (by right). by right. }
  destruct Hc as (Hwf & <- & Hc). pose proof (scan_spec info first last Hwf Hle) as Hs. destruct (scan info first last) as [f l].
  destruct Hs as [[Hf|[-> Hf]] _]; [pose proof (start_in _ _ _ Hwf Hf); lia|].
  change (0 <=? -1) with false. cbv iota. rewrite (proj2 (Z.leb_gt _ _)) by lia. cbn [andb]. destruct (0 <=? l); [by left|].
  specialize (IH _ first last Hc). pose proof (chain_size info Hwf).
  destruct (flash_fill_sect_ranges banks first last) as [[[rc r] n] o]. apply IH; lia.
Qed.

(** What is to be shown of a range that begins in the first bank. *)
Definition filled (a : Z) (banks : list flash_info_t) (first last : Z) (low : Z) : Prop :=
  let '(rc, r, n, o) := flash_fill_sect_ranges banks first last in
  (stops a banks last -> rc = 0 /\ o = [] /\ low <= n /\ Forall2 (planned first last) banks r) /\
  (~ stops a banks last -> rc = 1).

(** The sectors [s] to [l] of a bank, when they end with the range or with the bank. *)
Lemma planned_here info first last s l :
  wf info -> known info = true -> starts_at info first s -> 0 <= l < sector_count info ->
  next info l - 1 = last \/ l = sector_count info - 1 /\ start info 0 + size info <= last ->
  planned first last info (s, l).
Proof.
  intros Hwf Hk [Hs Hf] Hl Hend i. cbn [fst snd].
  assert (Hin : s <= i <= l -> 0 <= i < sector_count info /\ first <= start info i /\ start info i < next info i /\ next info i - 1 <= last).
  { intros Hi. pose proof (start_le info Hwf s i ltac:(lia) ltac:(lia)). pose proof (next_le info Hwf i l ltac:(lia) ltac:(lia)).
    pose proof (wf_order info Hwf i ltac:(lia)). pose proof (sector_bounds info Hwf l Hl). lia. }
  split; [|intros _ Hi; apply Hin in Hi; lia]. split.
  - intros [_ Hi]. pose proof (Hin Hi). unfold overlaps. split; [done|]. lia.
  - intros (_ & Hi & [H1 H2]). split; [lia|]. split.
    + destruct (Z_lt_dec i s); [|lia]. pose proof (start_mono info Hwf i s ltac:(lia) ltac:(lia)). lia.
    + destruct (Z_lt_dec l i); [|lia]. pose proof (start_mono info Hwf l i ltac:(lia) ltac:(lia)). lia.
Qed.

Lemma rest_untouched a banks first last :
  chain a banks -> last < a -> Forall2 (planned first last) banks (repeat (-1, -1) (length banks)).
Proof.
  intros Hc Hlt. apply none_planned. intros info Hin Hk i Hi [_ Ho].
  destruct (chain_in _ _ _ Hc Hin Hk) as (Hwf & Hlo & _). pose proof (sector_bounds info Hwf i Hi). lia.
Qed.

Lemma fill_here a info banks first last s :
  chain a (info :: banks) -> known info = true -> starts_at info first s -> first <= last < 2 ^ 32 ->
  (a + size info <= last -> filled (a + size info) banks (a + size info) last 0) ->
  filled a (info :: banks) first last 1.
Proof.
  intros Hch Hk Hs Hle IH. pose proof Hch as Hch'. cbn [chain] in Hch'. rewrite Hk in Hch'. destruct Hch' as (Hwf & Ha & Hc).
  pose proof (scan_spec info first last Hwf ltac:(lia)) as Hsc. pose proof (s_end_wf info Hwf) as Hse.
  pose proof (b_end_wf info Hwf) as Hbe. pose proof (start_in _ _ _ Hwf Hs) as Hin. pose proof (wf_top info Hwf). pose proof (wf_count info Hwf).
  pose proof (wf_low info Hwf). unfold filled. cbn [flash_fill_sect_ranges]. rewrite (proj2 (Z.ltb_ge _ _)), Hk by lia. cbn [negb].
  destruct (scan info first last) as [f l]. destruct Hsc as [[Hf|[_ Hf]] Hl]; [|by destruct (Hf s)].
  assert (f = s) as ->.
  { destruct Hs as [Hs Es], Hf as [Hf Ef]. destruct (Z_lt_dec s f).
    - pose proof (start_mono info Hwf s f ltac:(lia) ltac:(lia)). pose proof (wf_order info Hwf s Hs). lia.
    - destruct (Z_lt_dec f s); [|lia]. pose proof (start_mono info Hwf f s ltac:(lia) ltac:(lia)). pose proof (wf_order info Hwf f Hf). lia. }
  rewrite (proj2 (Z.leb_le 0 s)) by (destruct Hs; lia).
  destruct Hl as [Hl|[-> Hl]].
  - (* the range ends in this bank *)
    pose proof (end_in _ _ _ Hwf Hl) as Hlast. destruct (Hl) as [Hl0 Hle0]. rewrite (proj2 (Z.ltb_ge l 0)) by lia. cbn [andb].
    assert (Hsl : s <= l).
    { destruct (Z_lt_dec l s); [|lia]. pose proof (start_mono info Hwf l s ltac:(lia) ltac:(destruct Hs; lia)). destruct Hs. lia. }
    rewrite (proj2 (Z.ltb_ge l s)) by lia. rewrite fill_none.
    + split; [|intros Hn; destruct Hn; apply (stops_cons _ _ _ _ Hch Hk); [lia|by exists l]].
      intros _. split_and!; try done; [lia|]. constructor; [|apply (rest_untouched (a + size info)); [done|lia]].
      apply planned_here; try done. by left.
    + destruct (Z.eqb_spec l (s_end info)) as [->|Hne].
      * destruct (Z_lt_dec (a + size info) (2 ^ 32)).
        { left. rewrite Hbe, u32_small by lia. rewrite Hse, next_last in Hle0. lia. }
        right. destruct banks as [|i banks]; [constructor|]. cbn [chain] in Hc. destruct (known i) eqn:Hki.
        { destruct Hc as (Hwi & Hi & _). pose proof (wf_top i Hwi). pose proof (chain_size i Hwi). lia. }
        by constructor.
      * left. rewrite <- next_S by lia. lia.
  - destruct (Z_lt_dec last (a + size info)) as [Hlt|Hge].
    + (* the range ends inside a sector *)
      change (-1 <? 0) with true. rewrite (proj2 (Z.ltb_ge (b_end info) last)) by lia. cbn [negb andb].
      split; [|done]. intros Hst. apply (stops_cons _ _ _ _ Hch Hk) in Hst as [t Ht]; [by destruct (Hl t)|lia].
    + (* the range goes on *)
      change (-1 <? 0) with true. rewrite (proj2 (Z.ltb_lt (b_end info) last)) by lia. cbn [negb andb].
      rewrite (proj2 (Z.ltb_ge (s_end info) s)) by (destruct Hs; lia). rewrite Z.eqb_refl, Hbe, u32_small by lia.
      replace (start info 0 + size info - 1 + 1) with (a + size info) by lia. specialize (IH ltac:(lia)). unfold filled in IH.
      destruct (flash_fill_sect_ranges banks (a + size info) last) as [[[rc r] n] o]. destruct IH as [IH1 IH2].
      rewrite (stops_skip _ _ _ _ Hch Hk) by lia. split; [|done]. intros Hst. destruct (IH1 Hst) as (-> & -> & Hn & Hr).
      split_and!; try done; [destruct Hs; lia|]. constructor.
      * apply planned_here; try done; [lia|]. right. rewrite Hse. lia.
      * apply Forall2_length in Hr as Hlen. clear - Hr Hc Ha Hin. 
        assert (Hall : forall i, In i banks -> known i = true -> a + size info <= start i 0 /\ wf i).
        { intros i Hi Hki. destruct (chain_in _ _ _ Hc Hi Hki) as (? & ? & ?). done. }
        clear Hc. induction Hr as [|i r banks rs Hp Hr IHr]; [constructor|]. constructor.
        -- destruct (known i) eqn:Hki.
           ++ destruct (Hall i ltac:(by left) Hki) as [Hi Hwi]. apply (planned_from _ (a + size info)); [done|lia|].
              intros j Hj. pose proof (sector_bounds i Hwi j Hj). pose proof (wf_order i Hwi j Hj). lia.
           ++ intros j. destruct (Hp j) as [H1 H2]. rewrite H1, Hki. split; [by split; intros [? _]|].
              intros Hr0 Hrj. destruct (proj1 H1 (conj Hr0 Hrj)) as [Hx _]. congruence.
        -- apply IHr. intros k Hk. apply Hall. by right.
Qed.

Lemma fill_cont banks : forall a last, chain a banks -> 0 <= a <= last -> last < 2 ^ 32 -> filled a banks a last 0.
Proof.
  induction banks as [|info banks IH]; intros a last Hc Ha Hle.
  - unfold filled, stops. cbn. split; [done|]. intros Hn. destruct Hn. by left; lia.
  - destruct (known info) eqn:Hk.
    + pose proof Hc as Hc'. cbn [chain] in Hc'. rewrite Hk in Hc'. destruct Hc' as (Hwf & Ha' & Hc').
      pose proof (wf_count info Hwf). pose proof (chain_size info Hwf).
      pose proof (fill_here a info banks a last 0 Hc Hk ltac:(split; [lia|done]) ltac:(lia)
        ltac:(intros; apply IH; [done|lia|done])) as Hf.
      unfold filled in *. destruct (flash_fill_sect_ranges _ _ _) as [[[rc r] n] o]. destruct Hf as [H1 H2].
      split; [|done]. intros Hst. destruct (H1 Hst) as (? & ? & ? & ?). split_and!; try done; lia.
    + cbn [chain] in Hc. rewrite Hk in Hc. assert (Hu : Forall (fun i => known i = false) (info :: banks)) by (by constructor).
      unfold filled. rewrite fill_none by (by right). split.
      * intros _. split_and!; try done. apply none_planned. intros i Hi Hki. rewrite List.Forall_forall in Hu. rewrite (Hu i Hi) in Hki. done.
      * intros Hn. destruct Hn. left. cbn [limit]. rewrite Hk. lia.
Qed.

(** The whole of [flash_fill_sect_ranges]: it succeeds with at least one sector exactly when the
    range is made of whole sectors, and then gives these. *)
Lemma fill_spec banks : forall a first last,
  chain a banks -> 0 <= a -> 0 <= first <= last -> last < 2 ^ 32 ->
  let '(rc, r, n, o) := flash_fill_sect_ranges banks first last in
  (begins banks first -> stops a banks last -> rc = 0 /\ o = [] /\ 1 <= n /\ Forall2 (planned first last) banks r) /\
  (~ (begins banks first /\ stops a banks last) -> rc = 1 \/ n = 0 /\ rc = 0).
Proof.
  induction banks as [|info banks IH]; intros a first last Hc Ha Hle Hlast.
  - cbn. split; [|by right]. by intros (? & ? & ? & _).
  - destruct (known info) eqn:Hk; cycle 1.
    { cbn [chain] in Hc. rewrite Hk in Hc. assert (Hu : Forall (fun i => known i = false) (info :: banks)) by (by constructor).
      rewrite fill_none by (by right). split; [|by right]. intros (i & s & Hin & Hki & _).
      rewrite List.Forall_forall in Hu. rewrite (Hu i Hin) in Hki. done. }
    pose proof Hc as Hc'. cbn [chain] in Hc'. rewrite Hk in Hc'. destruct Hc' as (Hwf & Ha' & Hc').
    pose proof (chain_size info Hwf) as Hsz.
    destruct (Z_le_dec (a + size info) first) as [Hge|Hlt].
    { (* behind this bank *)
      specialize (IH _ first last Hc' ltac:(lia) Hle Hlast).
      pose proof (begins_skip _ _ _ _ Hc Hk Hge) as Eb. pose proof (stops_skip a info banks last Hc Hk ltac:(lia)) as Es.
      cbn [flash_fill_sect_ranges]. rewrite (proj2 (Z.ltb_ge _ _)), Hk by lia. cbn [negb].
      pose proof (scan_spec info first last Hwf ltac:(lia)) as Hs. destruct (scan info first last) as [f l].
      destruct Hs as [[Hf|[-> Hf]] [Hl|[-> Hl]]]; try (pose proof (start_in _ _ _ Hwf Hf); lia); [pose proof (end_in _ _ _ Hwf Hl); lia|].
      change (0 <=? -1) with false. cbv iota. rewrite (b_end_wf info Hwf), (proj2 (Z.ltb_ge first _)), andb_false_r by lia.
      destruct (flash_fill_sect_ranges banks first last) as [[[rc r] n] o]. rewrite Eb, Es. destruct IH as [IH1 IH2]. split; [|done].
      intros Hb Hst. destruct (IH1 Hb Hst) as (-> & -> & Hn & Hr). split_and!; try done. constructor; [|done].
      apply planned_none. intros _ i Hi [Ho _]. pose proof (sector_bounds info Hwf i Hi). lia. }
    destruct (flash_fill_sect_ranges (info :: banks) first last) as [[[rc r] n] o] eqn:E.
    rewrite (begins_cons _ _ _ _ Hc Hk) by lia.
    assert (Hyes : forall s, starts_at info first s ->
      (stops a (info :: banks) last -> rc = 0 /\ o = [] /\ 1 <= n /\ Forall2 (planned first last) (info :: banks) r) /\
      (~ stops a (info :: banks) last -> rc = 1)).
    { intros s Hs. pose proof (fill_here a info banks first last s Hc Hk Hs ltac:(lia)) as Hf. unfold filled in Hf.
      rewrite E in Hf. apply Hf. intros. apply fill_cont; [done|lia|done]. }
    split; [intros [s Hs]; apply (Hyes s Hs)|].
    intros Hn. destruct (scan info first last) as [f l] eqn:Hscan. pose proof (scan_spec info first last Hwf ltac:(lia)) as Hs.
    rewrite Hscan in Hs. destruct Hs as [[Hf|[-> Hf]] Hl].
    + left. apply (Hyes f Hf). intros Hst. apply Hn. split; [by exists f|done].
    + (* no sector begins with the range *)
      clear Hyes Hn. revert E. cbn [flash_fill_sect_ranges]. rewrite (proj2 (Z.ltb_ge _ _)), Hk by lia. cbn [negb]. rewrite Hscan.
      change (0 <=? -1) with false. cbv iota. destruct (_ && _); [intros [= <- <- <- <-]; by left|].
      destruct (0 <=? l); [intros [= <- <- <- <-]; by left|].
      pose proof (fill_before banks (a + size info) first last Hc' ltac:(lia) ltac:(lia)) as Hb.
      destruct (flash_fill_sect_ranges banks first last) as [[[rc' r'] n'] o']. intros [= <- <- <- <-]. done.
Qed.

(** ** Erasing *)

Section erasing.
Context {W : Type} (flash_erase : nat -> W -> Z -> Z -> W * Z) (blank : W -> nat -> Z -> Prop).
(** A call of the driver that succeeds erases the sectors it is given, but for those that it spares: [cfi_flash.c] leaves
    out protected sectors and succeeds. *)
Context (spared : nat -> Z -> Prop).
Context (erases : forall b w f l w', flash_erase b w f l = (w', 0) ->
  forall b' i, blank w' b' i <-> blank w b' i \/ b' = b /\ f <= i <= l /\ ~ spared b' i).

Lemma erase_loop_spec ranges : forall k w n,
  let '(w', rc, _) := erase_loop flash_erase k ranges w n in
  (rc = 0 -> forall b i, blank w' b i <->
    blank w b i \/ exists j f l, ranges !! j = Some (f, l) /\ b = (k + j)%nat /\ 0 <= f /\ f <= i <= l /\ ~ spared b i) /\
  ((forall b w f l, snd (flash_erase b w f l) = 0) -> rc = 0).
Proof using erases.
  induction ranges as [|[f l] ranges IH]; intros k w n; cbn [erase_loop].
  { split; [|done]. intros _ b i. split; [by left|]. intros [H|(j & ? & ? & H & _)]; [done|by destruct j]. }
  assert (Hshift : forall w1 w' b i,
    (forall b i, blank w' b i <-> blank w1 b i \/ exists j f l, ranges !! j = Some (f, l) /\ b = (S k + j)%nat /\ 0 <= f /\ f <= i <= l /\ ~ spared b i) ->
    blank w' b i <-> blank w1 b i \/ exists j f' l', ((f, l) :: ranges) !! S j = Some (f', l') /\ b = (k + S j)%nat /\ 0 <= f' /\ f' <= i <= l' /\ ~ spared b i).
  { intros w1 w' b i H. rewrite H. split; (intros [?|(j & f' & l' & Hj & Hb & Hr)]; [by left|right; exists j, f', l'; split; [done|split; [lia|done]]]). }
  destruct (Z.leb_spec 0 f) as [Hf|Hf].
  - destruct (flash_erase k w f l) as [w1 rc1] eqn:E. destruct (Z.eqb_spec rc1 0) as [->|Hrc].
    + specialize (IH (S k) w1 (n + (l - f + 1))). destruct (erase_loop _ _ _ _ _) as [[w' rc] m]. destruct IH as [IH1 IH2].
      split; [|done]. intros Hrc b i. rewrite (Hshift w1 w' b i (IH1 Hrc)), (erases _ _ _ _ _ E). split.
      * intros [[?|[-> Hi]]|(j & f' & l' & Hj & Hb & Hr)]; [by left|right|right].
        -- exists O, f, l. split; [done|]. split; [lia|done].
        -- by exists (S j), f', l'.
      * intros [?|([|j] & f' & l' & Hj & Hb & Hr)]; [by left; left| |].
        -- injection Hj as <- <-. left. right. split; [lia|apply Hr].
        -- right. by exists j, f', l'.
    + split; [done|]. intros H. specialize (H k w f l). rewrite E in H. done.
  - specialize (IH (S k) w n). destruct (erase_loop _ _ _ _ _) as [[w' rc] m]. destruct IH as [IH1 IH2].
    split; [|done]. intros Hrc b i. rewrite (Hshift w w' b i (IH1 Hrc)). split.
    + intros [?|(j & f' & l' & Hj & Hb & Hr)]; [by left|right]. by exists (S j), f', l'.
    + intros [?|([|j] & f' & l' & Hj & Hb & Hr)]; [by left| |].
      * injection Hj as <- <-. lia.
      * right. by exists j, f', l'.
Qed.

(** Sector [i] of bank [b] has something of the range. *)
Definition touched (banks : list flash_info_t) (first last : Z) (b : nat) (i : Z) : Prop :=
  exists info, banks !! b = Some info /\ known info = true /\ 0 <= i < sector_count info /\ overlaps info first last i.

(** C23: Erasing a range of addresses in adjoining banks: if it begins with a sector and ends with one, or not before the
    end of the last bank, and the driver does not fail, the sectors erased are exactly those of the range that the driver does
    not spare (such as protected ones), in whatever banks they are; if it begins inside a sector or outside the banks, or stops
    inside a sector, nothing is erased and the result is an error. *)
Theorem flash_sect_erase_spec a banks first last w :
  chain a banks -> 0 <= a -> 0 <= first <= last -> last < 2 ^ 32 ->
  let '(w', rc, _) := flash_sect_erase flash_erase banks w first last in
  (begins banks first -> stops a banks last ->
    (rc = 0 -> forall b i, blank w' b i <-> blank w b i \/ touched banks first last b i /\ ~ spared b i) /\
    ((forall b w f l, snd (flash_erase b w f l) = 0) -> rc = 0) /\
    (forall b i info, banks !! b = Some info -> touched banks first last b i -> first <= start info i /\ next info i - 1 <= last)) /\
  (~ (begins banks first /\ stops a banks last) -> rc = 1 /\ w' = w).
Proof using erases.
  intros Hc Ha Hle Hlast. pose proof (fill_spec banks a first last Hc Ha Hle Hlast) as Hf. unfold flash_sect_erase.
  destruct (flash_fill_sect_ranges banks first last) as [[[rc r] n] o]. destruct Hf as [Hyes Hno].
  destruct (decide (rc = 1 \/ n = 0 /\ rc = 0)) as [Hbad|Hgood].
  - assert (Hn : ~ (begins banks first /\ stops a banks last)).
    { intros [Hb Hs]. destruct (Hyes Hb Hs) as (-> & _ & Hn & _). lia. }
    destruct Hbad as [->|[-> ->]].
    + rewrite andb_false_r. cbn [Z.eqb Pos.eqb]. split; [|done]. intros Hb Hs. by destruct Hn.
    + cbn. split; [|done]. intros Hb Hs. by destruct Hn.
  - assert (Hn : ~ ~ (begins banks first /\ stops a banks last)) by tauto.
    destruct (decide (rc = 0 /\ 1 <= n)) as [[-> Hn1]|Hx].
    + rewrite (proj2 (Z.eqb_neq n 0)) by lia. cbn [negb andb Z.eqb].
      pose proof (erase_loop_spec r 0 w 0) as Hl. destruct (erase_loop flash_erase 0 r w 0) as [[w' rc] m]. destruct Hl as [Hl1 Hl2].
      split; [|tauto]. intros Hb Hs. destruct (Hyes Hb Hs) as (_ & _ & _ & Hr). rewrite Forall2_lookup in Hr.
      assert (Ht : forall b i, touched banks first last b i <->
        exists j f l, r !! j = Some (f, l) /\ b = (0 + j)%nat /\ 0 <= f /\ f <= i <= l).
      { intros b i. specialize (Hr b). split.
        - intros (info & Hi & Hk & Hin & Ho). rewrite Hi in Hr. inversion Hr as [? [f l] Hp Hx Hy|]; subst.
          exists b, f, l. split; [done|]. split; [done|]. by apply (Hp i).
        - intros (j & f & l & Hj & -> & Hin). cbn [Nat.add] in *. rewrite Hj in Hr. inversion Hr as [info ? Hp Hx Hy|]; subst.
          exists info. split; [done|]. by apply (Hp i) in Hin. }
      split_and!.
      * intros Hrc b i. rewrite (Hl1 Hrc), Ht. split; (intros [H|H]; [by left|right]).
        -- destruct H as (j & f & l & H1 & H2 & H3 & H4 & H5). split; [by exists j, f, l|done].
        -- destruct H as [(j & f & l & H1 & H2 & H3 & H4) H5]. by exists j, f, l.
      * done.
      * intros b i info Hi Hto. apply Ht in Hto as (j & f & l & Hj & -> & Hf & Hin). specialize (Hr j). cbn [Nat.add] in *.
        rewrite Hi, Hj in Hr. inversion Hr as [? ? Hp Hx Hy|]; subst. by apply (Hp i).
    + exfalso. apply Hn. intros [Hb Hs]. destruct (Hyes Hb Hs) as (? & _ & ? & _). lia.
Qed.
End erasing.

(** Three sectors in one bank, two in the next. *)
Definition two_banks : list flash_info_t :=
  [Flash_info 40 3 1 (fun i => 100 + 10 * i) (fun _ => 0); Flash_info 60 2 1 (fun i => 140 + 30 * i) (fun _ => 0);
   Flash_info 0 0 FLASH_UNKNOWN (fun _ => 0) (fun _ => 0)].

Lemma two_chain : chain 100 two_banks.
Proof.
  cbn. split_and!; try done; [|].
  - split; cbn; try lia. intros i Hi. unfold next. cbn. destruct (Z.eqb_spec i (3 - 1)); lia.
  - split; cbn; try lia. intros i Hi. unfold next. cbn. destruct (Z.eqb_spec i (2 - 1)); lia.
Qed.

(** The driver that keeps a list of what it has erased. *)
(** A driver that notes what it is asked to do, and leaves out sector 1 of bank 0. *)
Definition log_erase (b : nat) (w : list (nat * Z * Z)) (f l : Z) : list (nat * Z * Z) * Z := (w ++ [(b, f, l)], 0).
Definition log_spared (b : nat) (i : Z) : Prop := b = O /\ i = 1.
Definition log_blank (w : list (nat * Z * Z)) (b : nat) (i : Z) : Prop := exists f l, In (b, f, l) w /\ f <= i <= l /\ ~ log_spared b i.

Lemma flash_sect_erase_spec_witness :
  let '(w', rc, _) := flash_sect_erase log_erase two_banks [] 110 169 in
  (begins two_banks 110 -> stops 100 two_banks 169 ->
    (rc = 0 -> forall b i, log_blank w' b i <-> log_blank [] b i \/ touched two_banks 110 169 b i /\ ~ log_spared b i) /\
    ((forall b w f l, snd (log_erase b w f l) = 0) -> rc = 0) /\
    (forall b i info, two_banks !! b = Some info -> touched two_banks 110 169 b i -> 110 <= start info i /\ next info i - 1 <= 169)) /\
  (~ (begins two_banks 110 /\ stops 100 two_banks 169) -> rc = 1 /\ w' = []).
Proof.
  apply (flash_sect_erase_spec log_erase log_blank log_spared).
  - intros b w f l w' [= <-] b' i. unfold log_blank. split.
    + intros (f' & l' & [Hin|[Hin|[]]]%in_app_or & Hi); [left; by exists f', l'|]. injection Hin as <- <- <-. by right.
    + intros [(f' & l' & Hin & Hi)|[-> Hi]]; [exists f', l'|exists f, l]; (split; [apply in_or_app|done]); [by left|right; by left].
  - apply two_chain.
  - lia.
  - lia.
  - lia.
Defined.

(** ** Writing *)

(** [between] with the banks numbered from [k] on. *)
Definition between_from (k : nat) (banks : list flash_info_t) (first last : nat) : list (nat * flash_info_t) :=
  combine (seq (k + first) (S last - first)) (firstn (S last - first) (skipn first banks)).

Lemma between_skip k info banks i j : between_from k (info :: banks) (S i) (S j) = between_from (S k) banks i j.
Proof. unfold between_from. cbn [skipn]. by rewrite Nat.add_succ_r. Qed.

Lemma between_one k info banks : between_from k (info :: banks) 0 0 = [(k, info)].
Proof. unfold between_from. cbn. by rewrite Nat.add_0_r. Qed.

Lemma between_more k info banks j : between_from k (info :: banks) 0 (S j) = (k, info) :: between_from (S k) banks 0 j.
Proof. unfold between_from. cbn. by rewrite !Nat.add_0_r. Qed.

Lemma addr2info_shift banks x : forall k, addr2info_from k banks x = (fun i => (k + i)%nat) <$> addr2info_from 0 banks x.
Proof.
  induction banks as [|info banks IH]; intros k; [done|]. cbn [addr2info_from]. destruct (_ && _); [by rewrite <- (Nat.add_0_r k) at 1|].
  rewrite (IH (S k)), (IH 1%nat). destruct (addr2info_from 0 banks x); [|done]. cbn. f_equal. lia.
Qed.

Lemma chain_known a info banks :
  chain a (info :: banks) -> known info = true -> wf info /\ start info 0 = a /\ chain (a + size info) banks.
Proof. intros Hc Hk. cbn [chain] in Hc. by rewrite Hk in Hc. Qed.

Lemma chain_unknown a info banks :
  chain a (info :: banks) -> known info = false -> Forall (fun info => known info = false) banks.
Proof. intros Hc Hk. cbn [chain] in Hc. by rewrite Hk in Hc. Qed.

(** Where an address is. *)
Lemma addr2info_cons a info banks x :
  chain a (info :: banks) -> known info = true ->
  addr2info (info :: banks) x =
  if (a <=? x) && (x <? a + size info) then Some O else S <$> addr2info banks x.
Proof.
  intros Hc Hk. cbn [chain] in Hc. rewrite Hk in Hc. destruct Hc as (Hwf & <- & _). unfold addr2info. cbn [addr2info_from].
  rewrite Hk, (b_end_wf info Hwf). cbn [andb].
  replace (x <=? start info 0 + size info - 1) with (x <? start info 0 + size info) by (bdestruct).
  destruct (_ && _); [done|]. by rewrite (addr2info_shift banks x 1).
Qed.

Lemma addr2info_none banks x : Forall (fun info => known info = false) banks -> addr2info banks x = None.
Proof.
  intros Hu. unfold addr2info. generalize 0%nat. induction Hu as [|info banks Hk Hu IH]; intros k; [done|]. cbn [addr2info_from].
  rewrite Hk. apply IH.
Qed.

Lemma addr2info_in banks x : forall a, chain a banks -> addr2info banks x = None <-> ~ (a <= x < limit a banks).
Proof.
  induction banks as [|info banks IH]; intros a Hc; [cbn; split; [lia|done]|]. destruct (known info) eqn:Hk.
  - rewrite (addr2info_cons a) by done. pose proof Hc as Hc'. cbn [chain limit] in *. rewrite Hk in *. destruct Hc' as (Hwf & Ha & Hc').
    pose proof (limit_ge _ _ Hc') as Hge. pose proof (chain_size info Hwf). specialize (IH _ Hc').
    destruct (Z.leb_spec a x), (Z.ltb_spec x (a + size info)); cbn [andb]; try (split; [done|lia]); rewrite fmap_None, IH; lia.
  - cbn [chain limit] in *. rewrite Hk in *. rewrite addr2info_none by (by constructor). split; [lia|done].
Qed.

(** A sector that the range touches is protected. *)
Definition guarded (banks : list flash_info_t) (first last : Z) : Prop :=
  exists info i, In info banks /\ known info = true /\ 0 <= i < sector_count info /\ overlaps info first last i /\ protect info i <> 0.

Lemma hits_spec info addr end_ :
  wf info -> start info 0 + size info < 2 ^ 32 ->
  hits_protected addr end_ info = true <-> exists i, 0 <= i < sector_count info /\ overlaps info addr end_ i /\ protect info i <> 0.
Proof.
  intros Hwf Htop. unfold hits_protected. rewrite existsb_exists.
  assert (He : forall i, 0 <= i < sector_count info ->
    (if i =? s_end info then u32 (start info 0 + size info) else start info (i + 1)) = next info i).
  { intros i Hi. rewrite s_end_wf by done. unfold next. pose proof (chain_size info Hwf). pose proof (wf_low info Hwf).
    by rewrite u32_small by lia. }
  split.
  - intros (i & Hi & H). apply list_elem_of_In, elem_of_seqZ in Hi. exists i. rewrite He in H by lia. unfold overlaps. split; [lia|].
    split; [lia|]. intros E. rewrite E in H. rewrite andb_false_r in H. done.
  - intros (i & Hi & [H1 H2] & Hp). exists i. split; [apply list_elem_of_In, elem_of_seqZ; lia|]. cbn zeta. rewrite He by lia.
    rewrite (proj2 (Z.leb_le _ _)), (proj2 (Z.ltb_lt _ _)), (proj2 (Z.eqb_neq _ _)) by done. done.
Qed.

Section writing.
Context {W : Type} (write_buff : nat -> W -> Z -> Z -> Z -> W * Z) (contents : W -> Z -> Z).
Context (banks : list flash_info_t).
(** A call of the driver that succeeds, for a range inside the bank, writes it and nothing else. *)
Context (writes : forall b info w src addr len w',
  banks !! b = Some info -> start info 0 <= addr -> 0 < len -> addr + len <= start info 0 + size info ->
  write_buff b w src addr len = (w', 0) ->
  forall x, contents w' x = if (addr <=? x) && (x <? addr + len) then contents w (src + (x - addr)) else contents w x).

(** The driver does not fail inside a bank. *)
Definition works : Prop := forall b info w src addr len,
  banks !! b = Some info -> start info 0 <= addr -> 0 < len -> addr + len <= start info 0 + size info ->
  snd (write_buff b w src addr len) = 0.

(** The last piece. *)
Lemma write_one k info l w src addr cnt :
  wf info -> banks !! k = Some info -> start info 0 <= addr -> 0 < cnt -> addr + cnt <= start info 0 + size info ->
  start info 0 + size info < 2 ^ 32 ->
  let '(w', rc) := write_loop write_buff (between_from k (info :: l) 0 0) w src addr cnt in
  (works -> rc = 0) /\
  (rc = 0 -> forall x, contents w' x = if (addr <=? x) && (x <? addr + cnt) then contents w (src + (x - addr)) else contents w x).
Proof using writes.
  intros Hwf Hb Hlo Hcnt Hhi Htop. pose proof (wf_low info Hwf). rewrite between_one. cbn [write_loop].
  rewrite (proj2 (Z.ltb_lt 0 cnt)), u32_small by lia.
  replace (if cnt <? start info 0 + size info - addr then cnt else start info 0 + size info - addr) with cnt by (bdestruct).
  destruct (write_buff k w src addr cnt) as [w' rc] eqn:E. destruct (Z.eqb_spec rc 0) as [->|Hrc]; cbn [negb].
  - split; [done|]. intros _. apply (writes k info); (done || lia).
  - split; [|done]. intros Hok. specialize (Hok k info w src addr cnt Hb Hlo Hcnt Hhi). by rewrite E in Hok.
Qed.

Lemma write_loop_spec l : forall k info w src addr cnt last a,
  chain a (info :: l) -> known info = true -> (forall j i, (info :: l) !! j = Some i -> banks !! (k + j)%nat = Some i) ->
  a <= addr < a + size info -> 0 < cnt -> limit a (info :: l) < 2 ^ 32 ->
  addr2info (info :: l) (addr + cnt - 1) = Some last ->
  0 <= src -> src + cnt <= 2 ^ 32 -> (forall x y, src <= x < src + cnt -> addr <= y < addr + cnt -> x <> y) ->
  let '(w', rc) := write_loop write_buff (between_from k (info :: l) 0 last) w src addr cnt in
  (works -> rc = 0) /\
  (rc = 0 -> forall x, contents w' x = if (addr <=? x) && (x <? addr + cnt) then contents w (src + (x - addr)) else contents w x).
Proof using writes.
  induction l as [|next_info l IH]; intros k info w src addr cnt last a Hc Hk Hb Haddr Hcnt Hlim Hlast Hsrc Hsrc' Hdis;
    destruct (chain_known _ _ _ Hc Hk) as (Hwf & Ha & Hc');
    match type of Hc with chain _ (_ :: ?t) => pose proof (limit_ge t (a + size info) Hc') as Hge;
      change (limit a (info :: t)) with (if known info then limit (a + size info) t else a) in Hlim end; rewrite Hk in Hlim; pose proof (wf_low info Hwf) as Hlow;
    pose proof (chain_size info Hwf) as Hsz;
    rewrite (addr2info_cons a) in Hlast by done.
  - destruct (Z.leb_spec a (addr + cnt - 1)); [|lia]. destruct (Z.ltb_spec (addr + cnt - 1) (a + size info)); [|done].
    injection Hlast as <-. specialize (Hb O info eq_refl). rewrite Nat.add_0_r in Hb. apply write_one; (done || lia).
  - destruct (Z.leb_spec a (addr + cnt - 1)); [|lia]. destruct (Z.ltb_spec (addr + cnt - 1) (a + size info)) as [Hin|Hout]; cbn [andb] in Hlast.
    + injection Hlast as <-. specialize (Hb O info eq_refl). rewrite Nat.add_0_r in Hb. apply write_one; (done || lia).
    + destruct (addr2info (next_info :: l) (addr + cnt - 1)) as [j|] eqn:Hj; [|done]. injection Hlast as <-.
      rewrite between_more. cbn [write_loop]. rewrite (proj2 (Z.ltb_lt 0 cnt)) by done.
      set (len := a + size info - addr). rewrite u32_small by lia. rewrite Ha. fold len.
      replace (if cnt <? len then cnt else len) with len by (unfold len; bdestruct).
      pose proof (Hb O info eq_refl) as Hb0. rewrite Nat.add_0_r in Hb0. destruct (write_buff k w src addr len) as [w1 rc1] eqn:E.
      destruct (Z.eqb_spec rc1 0) as [->|Hrc1]; cbn [negb].
      2: { split; [|done]. intros Hok. specialize (Hok k info w src addr len Hb0 ltac:(lia) ltac:(unfold len; lia) ltac:(unfold len; lia)).
        by rewrite E in Hok. }
      rewrite (u32_small (src + len)), (u32_small (addr + len)) by (unfold len; lia).
      assert (Hkn : known next_info = true).
      { destruct (known next_info) eqn:Hkn; [done|]. rewrite addr2info_none in Hj; [done|]. constructor; [done|]. by apply (chain_unknown _ _ _ Hc'). }
      pose proof (writes k info w src addr len w1 Hb0 ltac:(lia) ltac:(unfold len; lia) ltac:(unfold len; lia) E) as Hw1.
      assert (Hnext : addr + len = a + size info) by (unfold len; lia).
      specialize (IH (S k) next_info w1 (src + len) (addr + len) (cnt - len) j (a + size info) Hc' Hkn).
      assert (Hsz' : 0 < size next_info).
      { apply chain_size. by apply (chain_known _ _ _ Hc'). }
      destruct (write_loop write_buff (between_from (S k) (next_info :: l) 0 j) w1 (src + len) (addr + len) (cnt - len)) as [w' rc].
      destruct IH as [IHok IH]; [|lia|unfold len; lia|lia| |lia|lia| |].
      * intros m i Hm. specialize (Hb (S m) i Hm). by rewrite Nat.add_succ_r in Hb.
      * replace (addr + len + (cnt - len) - 1) with (addr + cnt - 1) by lia. done.
      * intros y z Hy Hz. apply Hdis; unfold len in *; lia.
      * split; [exact IHok|]. intros Hrc x. rewrite (IH Hrc), !Hw1.
        destruct (Z.leb_spec (addr + len) x), (Z.ltb_spec x (addr + len + (cnt - len))); cbn [andb].
        -- rewrite (proj2 (Z.leb_le addr x)), (proj2 (Z.ltb_lt x (addr + cnt))) by (unfold len in *; lia). cbn [andb].
           replace (src + len + (x - (addr + len))) with (src + (x - addr)) by lia.
           pose proof (Hdis (src + (x - addr)) (src + (x - addr)) ltac:(unfold len in *; lia)) as Hd.
           destruct (Z.leb_spec addr (src + (x - addr))), (Z.ltb_spec (src + (x - addr)) (addr + len)); cbn [andb]; try done.
           destruct Hd; [unfold len in *; lia|done].
        -- rewrite (proj2 (Z.ltb_ge x (addr + len))), (proj2 (Z.ltb_ge x (addr + cnt))) by lia. by rewrite !andb_false_r.
        -- rewrite (proj2 (Z.ltb_lt x (addr + len))), (proj2 (Z.ltb_lt x (addr + cnt))) by lia. done.
        -- rewrite (proj2 (Z.ltb_lt x (addr + len))) by lia. destruct (Z.leb_spec addr x); cbn [andb]; [|done].
           rewrite (proj2 (Z.ltb_lt x (addr + cnt))) by lia. done.
Qed.

(** The banks in front of the range are skipped. *)
Lemma write_from l : forall k w src addr cnt a,
  chain a l -> (forall j i, l !! j = Some i -> banks !! (k + j)%nat = Some i) ->
  a <= addr -> 0 < cnt -> addr + cnt <= limit a l -> limit a l < 2 ^ 32 ->
  0 <= src -> src + cnt <= 2 ^ 32 -> (forall x y, src <= x < src + cnt -> addr <= y < addr + cnt -> x <> y) ->
  exists first last, addr2info l addr = Some first /\ addr2info l (addr + cnt - 1) = Some last /\
    let '(w', rc) := write_loop write_buff (between_from k l first last) w src addr cnt in
    (works -> rc = 0) /\
    (rc = 0 -> forall x, contents w' x = if (addr <=? x) && (x <? addr + cnt) then contents w (src + (x - addr)) else contents w x).
Proof using writes.
  induction l as [|info l IH]; intros k w src addr cnt a Hc Hb Ha Hcnt Hend Hlim Hsrc Hsrc' Hdis; [cbn in *; lia|].
  destruct (known info) eqn:Hk; [|cbn [limit] in Hend; rewrite Hk in Hend; lia].
  destruct (chain_known _ _ _ Hc Hk) as (Hwf & Hs & Hc'). rewrite !(addr2info_cons a) by done.
  destruct (Z_lt_dec addr (a + size info)) as [Hin|Hout].
  - rewrite (proj2 (Z.leb_le _ _)), (proj2 (Z.ltb_lt _ _)) by done. cbn [andb].
    pose proof (addr2info_in (info :: l) (addr + cnt - 1) a Hc) as Hl. rewrite (addr2info_cons a) in Hl by done.
    destruct (if _ && _ then _ else _) as [last|] eqn:Elast; [|exfalso; apply (proj1 Hl eq_refl); lia].
    exists O, last. split; [done|]. split; [done|]. apply (write_loop_spec l k info w src addr cnt last a); try done.
    by rewrite (addr2info_cons a).
  - cbn [limit] in *. rewrite Hk in *.
    destruct (IH (S k) w src addr cnt (a + size info) Hc') as (first & last & E1 & E2 & Hw); try done; [|lia|].
    { intros j i Hj. specialize (Hb (S j) i Hj). by rewrite Nat.add_succ_r in Hb. }
    exists (S first), (S last). rewrite (proj2 (Z.ltb_ge addr _)), (proj2 (Z.ltb_ge (addr + cnt - 1) _)) by lia.
    rewrite !andb_false_r, E1, E2. split; [done|]. split; [done|]. by rewrite between_skip.
Qed.
End writing.

(** The check looks at every sector of the range. *)
Lemma hits_none a l addr end_ : chain a l -> end_ < a -> ~ guarded l addr end_.
Proof.
  intros Hc Hlt (info & i & Hin & Hk & Hi & [_ Ho] & _). destruct (chain_in _ _ _ Hc Hin Hk) as (Hwf & Hlo & _).
  pose proof (sector_bounds info Hwf i Hi). lia.
Qed.

Lemma guarded_cons info l first last :
  guarded (info :: l) first last <->
  (known info = true /\ exists i, 0 <= i < sector_count info /\ overlaps info first last i /\ protect info i <> 0) \/ guarded l first last.
Proof.
  split.
  - intros (j & i & [->|Hin] & Hk & H); [left|right]; [split; [done|by exists i]|by exists j, i].
  - intros [[Hk [i H]]|(j & i & Hin & Hk & H)]; [exists info, i; split; [by left|done]|exists j, i; split; [by right|done]].
Qed.

Lemma check_here l : forall k info addr end_ last a,
  chain a (info :: l) -> known info = true -> limit a (info :: l) < 2 ^ 32 ->
  addr2info (info :: l) end_ = Some last ->
  existsb (fun '(_, i) => hits_protected addr end_ i) (between_from k (info :: l) 0 last) = true <-> guarded (info :: l) addr end_.
Proof.
  induction l as [|info' l IH]; intros k info addr end_ last a Hc Hk Hlim Hlast;
    destruct (chain_known _ _ _ Hc Hk) as (Hwf & Hs & Hc');
    match type of Hc with chain _ (_ :: ?t) => pose proof (limit_ge t (a + size info) Hc') as Hge;
      change (limit a (info :: t)) with (if known info then limit (a + size info) t else a) in Hlim end; rewrite Hk in Hlim;
    pose proof (hits_spec info addr end_ Hwf ltac:(lia)) as Hh; rewrite (addr2info_cons a) in Hlast by done; rewrite guarded_cons.
  - destruct (_ && _); [|done]. injection Hlast as <-. rewrite between_one. cbn [existsb]. rewrite orb_false_r, Hh.
    split; [by left|]. intros [[_ H]|(? & ? & [] & _)]. done.
  - destruct (_ && _) eqn:Hin.
    + injection Hlast as <-. rewrite between_one. cbn [existsb]. rewrite orb_false_r, Hh. split; [by left|].
      intros [[_ H]|H]; [done|]. exfalso. apply (hits_none _ _ addr end_ Hc'); [lia|done].
    + destruct (addr2info (info' :: l) end_) as [j|] eqn:Hj; [|done]. injection Hlast as <-. rewrite between_more. cbn [existsb].
      assert (Hkn : known info' = true).
      { destruct (known info') eqn:Hkn; [done|]. rewrite addr2info_none in Hj; [done|]. constructor; [done|]. by apply (chain_unknown _ _ _ Hc'). }
      rewrite orb_true_iff, Hh, (IH (S k) info' addr end_ j _ Hc' Hkn Hlim Hj). split; (intros [H|H]; [left|by right]); [done|apply H].
Qed.

Lemma check_from l : forall k addr end_ first last a,
  chain a l -> limit a l < 2 ^ 32 -> addr <= end_ -> addr2info l addr = Some first -> addr2info l end_ = Some last ->
  existsb (fun '(_, i) => hits_protected addr end_ i) (between_from k l first last) = true <-> guarded l addr end_.
Proof.
  induction l as [|info l IH]; intros k addr end_ first last a Hc Hlim Hle Hf Hl; [done|].
  destruct (known info) eqn:Hk; cycle 1.
  { rewrite addr2info_none in Hf; [done|]. constructor; [done|]. by apply (chain_unknown a _ _ Hc). }
  destruct (chain_known _ _ _ Hc Hk) as (Hwf & Hs & Hc'). destruct first as [|first]; [by apply (check_here l k info addr end_ last a)|].
  rewrite (addr2info_cons a) in Hf, Hl by done. destruct ((a <=? addr) && _) eqn:Hin; [done|].
  destruct (addr2info l addr) as [f|] eqn:Ef; [|done]. injection Hf as <-.
  assert (Hge : a + size info <= addr).
  { destruct (Z_lt_dec addr (a + size info)); [|lia]. pose proof (addr2info_in l addr _ Hc') as Hi. rewrite Ef in Hi.
    destruct (decide (Some f = None)); [done|]. exfalso. assert (Hx : ~ (a + size info <= addr < limit (a + size info) l)) by lia.
    by apply Hi in Hx. }
  rewrite (proj2 (Z.ltb_ge end_ _)), andb_false_r in Hl by lia.
  destruct (addr2info l end_) as [j|] eqn:Ej; [|done]. injection Hl as <-. rewrite between_skip, guarded_cons.
  cbn [limit] in Hlim. rewrite Hk in Hlim. rewrite (IH (S k) addr end_ f j _ Hc' Hlim Hle Ef Ej). split; [by right|].
  intros [[_ (i & Hi & [Ho _] & _)]|H]; [|done]. pose proof (sector_bounds info Hwf i Hi). lia.
Qed.

(** C22: Writing to adjoining banks that end below 2^32, from a source outside of the range: a range outside of them is refused, and so is
    one that touches a protected sector in any bank, before anything is written; any other succeeds when the driver
    succeeds inside each bank, and when the result is success the flash memory holds the source bytes over the whole range,
    across the bounds of the banks, and is unchanged elsewhere.  (A protected sector at the top of the address space
    is written: [top_sector_unprotected].) *)
Theorem flash_write_spec {W} (write_buff : nat -> W -> Z -> Z -> Z -> W * Z) (contents : W -> Z -> Z) banks a w src addr cnt :
  (forall b info w src addr len w',
    banks !! b = Some info -> start info 0 <= addr -> 0 < len -> addr + len <= start info 0 + size info ->
    write_buff b w src addr len = (w', 0) ->
    forall x, contents w' x = if (addr <=? x) && (x <? addr + len) then contents w (src + (x - addr)) else contents w x) ->
  chain a banks -> limit a banks < 2 ^ 32 -> 0 <= a -> 0 <= addr -> 0 < cnt -> addr + cnt <= 2 ^ 32 ->
  0 <= src -> src + cnt <= 2 ^ 32 -> (forall x y, src <= x < src + cnt -> addr <= y < addr + cnt -> x <> y) ->
  (~ (a <= addr /\ addr + cnt <= limit a banks) -> flash_write write_buff banks w src addr cnt = (w, ERR_INVAL)) /\
  (a <= addr -> addr + cnt <= limit a banks ->
    (guarded banks addr (addr + cnt - 1) -> flash_write write_buff banks w src addr cnt = (w, ERR_PROTECTED)) /\
    (~ guarded banks addr (addr + cnt - 1) ->
      let '(w', rc) := flash_write write_buff banks w src addr cnt in
      (works write_buff banks -> rc = 0) /\
      (rc = 0 -> forall x, contents w' x =
        if (addr <=? x) && (x <? addr + cnt) then contents w (src + (x - addr)) else contents w x))).
Proof.
  intros Hw Hc Hlim Ha0 Haddr Hcnt Htop Hsrc Hsrc' Hdis. unfold flash_write.
  rewrite u32_small, (proj2 (Z.eqb_neq cnt 0)) by lia. split.
  - intros Hout. destruct (addr2info banks addr) as [f|] eqn:E1; [|done].
    destruct (addr2info banks (addr + cnt - 1)) as [l|] eqn:E2; [|done]. exfalso.
    pose proof (addr2info_in banks addr a Hc) as H1. pose proof (addr2info_in banks (addr + cnt - 1) a Hc) as H2.
    rewrite E1 in H1. rewrite E2 in H2. assert (Hx : ~ (a <= addr < limit a banks) \/ ~ (a <= addr + cnt - 1 < limit a banks)) by lia.
    destruct Hx as [Hx|Hx]; [apply H1 in Hx|apply H2 in Hx]; done.
  - intros Hlo Hhi.
    destruct (write_from write_buff contents banks Hw banks 0 w src addr cnt a Hc ltac:(done) Hlo Hcnt Hhi Hlim Hsrc Hsrc' Hdis)
      as (f & l & E1 & E2 & Hwl).
    rewrite E1, E2. pose proof (check_from banks 0 addr (addr + cnt - 1) f l a Hc Hlim ltac:(lia) E1 E2) as Hg.
    change (between banks f l) with (between_from 0 banks f l). destruct (existsb _ _).
    + split; [done|]. intros Hn. by destruct Hn; apply Hg.
    + split; [intros Hgd; by apply Hg in Hgd|done].
Qed.

(** The driver that just stores. *)
Definition store_buff (b : nat) (m : mem) (src addr len : Z) : mem * Z :=
  (fun x => if (addr <=? x) && (x <? addr + len) then m (src + (x - addr)) else m x, 0).

(** Across the two banks. *)
Lemma flash_write_spec_witness :
  let m : mem := fun x => x in
  (~ (100 <= 135 /\ 135 + 10 <= limit 100 two_banks) -> flash_write store_buff two_banks m 1000 135 10 = (m, ERR_INVAL)) /\
  (100 <= 135 -> 135 + 10 <= limit 100 two_banks ->
    (guarded two_banks 135 (135 + 10 - 1) -> flash_write store_buff two_banks m 1000 135 10 = (m, ERR_PROTECTED)) /\
    (~ guarded two_banks 135 (135 + 10 - 1) ->
      let '(w', rc) := flash_write store_buff two_banks m 1000 135 10 in
      (works store_buff two_banks -> rc = 0) /\
      (rc = 0 -> forall x, w' x = if (135 <=? x) && (x <? 135 + 10) then m (1000 + (x - 135)) else m x))).
Proof.
  intros m. apply (flash_write_spec store_buff (fun m => m)); try lia.
  - intros b info w src addr len w' _ _ _ _ [= <-] x. reflexivity.
  - apply two_chain.
  - vm_compute. reflexivity.
Defined.

(** ** Protecting *)

Lemma fold_protect p f l info i :
  let info' := fold_left (fun info i => set_protect i p info) (seqZ f (l - f + 1)) info in
  (size info' = size info /\ sector_count info' = sector_count info /\ flash_id info' = flash_id info /\ start info' = start info) /\
  protect info' i = if (f <=? i) && (i <=? l) then p else protect info i.
Proof.
  cbn zeta. destruct (Z_lt_dec l f) as [Hlt|Hge].
  { rewrite seqZ_nil by lia. cbn. split; [done|]. destruct (Z.leb_spec f i), (Z.leb_spec i l); cbn; (done || lia). }
  pose (P j info' := (size info' = size info /\ sector_count info' = sector_count info /\ flash_id info' = flash_id info /\ start info' = start info) /\
    protect info' i = if (f <=? i) && (i <? j) then p else protect info i).
  enough (HP : P (f + (l - f + 1)) (fold_left (fun info i => set_protect i p info) (seqZ f (l - f + 1)) info)).
  { destruct HP as [H1 H2]. split; [done|]. rewrite H2. replace (i <? f + (l - f + 1)) with (i <=? l); [done|].
    destruct (Z.leb_spec i l), (Z.ltb_spec i (f + (l - f + 1))); (done || lia). }
  apply fold_seqZ; [lia| |].
  - split; [done|]. destruct (Z.leb_spec f i), (Z.ltb_spec i f); cbn; (done || lia).
  - intros j s Hj [H1 H2]. split; [done|]. cbn [set_protect protect]. unfold upd. rewrite H2.
    destruct (Z.eqb_spec i j) as [->|Hne].
    + by rewrite (proj2 (Z.leb_le _ _)), (proj2 (Z.ltb_lt _ _)) by lia.
    + destruct (Z.leb_spec f i); cbn [andb]; [|done]. destruct (Z.ltb_spec i j), (Z.ltb_spec i (j + 1)); (done || lia).
Qed.

(** [protect on|off] for a range of addresses: a range of whole sectors gets the protection, and no
    other sector changes; for any other range nothing changes and the result is an error. *)
Theorem flash_sect_protect_spec p a banks first last :
  chain a banks -> 0 <= a -> 0 <= first <= last -> last < 2 ^ 32 ->
  let '(banks', rc, _) := flash_sect_protect p banks first last in
  (begins banks first -> stops a banks last ->
    rc = 0 /\ forall b info, banks !! b = Some info -> exists info', banks' !! b = Some info' /\
      (size info' = size info /\ sector_count info' = sector_count info /\ flash_id info' = flash_id info /\ start info' = start info) /\
      forall i, (touched banks first last b i -> protect info' i = p) /\
                (~ touched banks first last b i -> protect info' i = protect info i)) /\
  (~ (begins banks first /\ stops a banks last) -> rc = 1 /\ banks' = banks).
Proof.
  intros Hc Ha Hle Hlast. pose proof (fill_spec banks a first last Hc Ha Hle Hlast) as Hf. unfold flash_sect_protect.
  destruct (flash_fill_sect_ranges banks first last) as [[[rc r] n] o]. destruct Hf as [Hyes Hno].
  destruct (decide (rc = 0 /\ 1 <= n)) as [[-> Hn1]|Hx].
  - rewrite (proj2 (Z.eqb_neq n 0)) by lia. cbn [negb andb Z.eqb]. split; [|intros Hn; specialize (Hno Hn); lia].
    intros Hb Hs. split; [done|]. destruct (Hyes Hb Hs) as (_ & _ & _ & Hr). rewrite Forall2_lookup in Hr.
    intros b info Hi. specialize (Hr b). rewrite Hi in Hr. inversion Hr as [? [f l] Hp Hx Hy|]; subst.
    symmetry in Hy. rewrite list_lookup_fmap.
    assert (Ec : combine banks r !! b = Some (info, (f, l))) by (apply lookup_zip_with_Some; by exists info, (f, l)).
    rewrite Ec. cbn [fmap option_fmap option_map]. eexists. split; [done|].
    assert (Ht : forall i, touched banks first last b i <-> 0 <= f /\ f <= i <= l).
    { intros i. destruct (Hp i) as [H1 _]. cbn [fst snd] in H1. rewrite H1. split.
      - intros (info' & Hi' & H). rewrite Hi in Hi'. by injection Hi' as <-.
      - intros H. by exists info. }
    destruct (known info && (0 <=? f) && (f <=? l)) eqn:Hset.
    + destruct (fold_protect p f l info 0) as [H1 _]. split; [done|]. intros i.
      destruct (fold_protect p f l info i) as [_ ->]. rewrite Ht. split.
      * intros [_ H]. by rewrite (proj2 (Z.leb_le _ _)), (proj2 (Z.leb_le i l)) by lia.
      * apply andb_prop in Hset as [[_ Hf0%Z.leb_le]%andb_prop _]. intros H.
        destruct (Z.leb_spec f i), (Z.leb_spec i l); cbn; try done. lia.
    + split; [done|]. intros i. split; [|done]. intros H. exfalso. pose proof (proj1 (Ht i) H) as [Hf0 Hfi].
      destruct H as (info' & Hi' & Hk & _). rewrite Hi in Hi'. injection Hi' as <-.
      rewrite Hk, (proj2 (Z.leb_le _ _)), (proj2 (Z.leb_le f l)) in Hset by lia. done.
  - assert (Hn : ~ (begins banks first /\ stops a banks last)).
    { intros [Hb Hs]. destruct (Hyes Hb Hs) as (? & _ & ? & _). lia. }
    destruct (Hno Hn) as [->|[-> ->]]; [rewrite andb_false_r|]; cbn; (split; [intros Hb Hs; by destruct Hn|done]).
Qed.

Lemma flash_sect_protect_spec_witness :
  let '(banks', rc, _) := flash_sect_protect 1 two_banks 110 169 in
  (begins two_banks 110 -> stops 100 two_banks 169 ->
    rc = 0 /\ forall b info, two_banks !! b = Some info -> exists info', banks' !! b = Some info' /\
      (size info' = size info /\ sector_count info' = sector_count info /\ flash_id info' = flash_id info /\ start info' = start info) /\
      forall i, (touched two_banks 110 169 b i -> protect info' i = 1) /\
                (~ touched two_banks 110 169 b i -> protect info' i = protect info i)) /\
  (~ (begins two_banks 110 /\ stops 100 two_banks 169) -> rc = 1 /\ banks' = two_banks).
Proof. apply (flash_sect_protect_spec 1 100 two_banks 110 169); [apply two_chain|lia..]. Defined.

(** ** Where the code goes wrong *)

(** A bank at the end of the address space, its last sector protected: the write is let through. *)
Fact top_sector_unprotected :
  let banks := [Flash_info 131072 2 1 (fun i => 2 ^ 32 - 131072 + 65536 * i) (fun i => i)] in
  chain (2 ^ 32 - 131072) banks /\ guarded banks (2 ^ 32 - 16) (2 ^ 32 - 1) /\
  snd (flash_write store_buff banks (fun _ => 0) 0 (2 ^ 32 - 16) 16) = ERR_OK.
Proof.
  split; [|split].
  - cbn. split_and!; try done. split; cbn; try lia. intros i Hi. unfold next. cbn. destruct (Z.eqb_spec i (2 - 1)); lia.
  - eexists _, 1. split; [by left|]. split; [done|]. split; [cbn; lia|]. unfold overlaps. split_and!; by vm_compute.
  - vm_compute. reflexivity.
Qed.

(** Two banks mapped in reverse order: a write across them succeeds and writes nothing. *)
Fact reverse_order_writes_nothing :
  let banks := [Flash_info 50 1 1 (fun _ => 150) (fun _ => 0); Flash_info 50 1 1 (fun _ => 100) (fun _ => 0)] in
  flash_write (fun _ _ _ _ _ => (1, 0)) banks 0 1000 140 20 = (0, ERR_OK).
Proof. vm_compute. reflexivity. Qed.

(** "protect on 1:4294967295" protects sector -1. *)
Fact negative_sector :
  abbrev_spec two_banks [49; 58; 52; 50; 57; 52; 57; 54; 55; 50; 57; 53] = Spec 0 (-1) (-1).
Proof. vm_compute. reflexivity. Qed.
