(* ===== verification/Part.v ===== *)
(** Partition tables: [disk/part_dos.c], and its part of [disk/part.c] (a configuration
    with CONFIG_DOS_PARTITION only and sectors of 512 bytes).

    The device is a parameter: [block_read start count buffer offset] gives its result and the
    buffer, an object of its own, after it wrote there from [offset] on.  The class [Device] is
    what the drivers document of it. *)

From S2P Require Import Prelude Vsprintf.

(** ** Block devices *)

Record block_dev_desc_t : Type := Block_dev { if_type : Z; dev : Z; part_type : Z; lba : Z }.

Definition IF_TYPE_IDE : Z := 1.
Definition IF_TYPE_SCSI : Z := 2.
Definition IF_TYPE_ATAPI : Z := 3.
Definition IF_TYPE_USB : Z := 4.
Definition IF_TYPE_DOC : Z := 5.
Definition IF_TYPE_SATA : Z := 8.
Definition PART_TYPE_DOS : Z := 2.

Record disk_partition_t : Type := Disk_partition {
  start : Z; size : Z; blksz : Z; name : list Z; type : list Z }.

Abbreviation reader := (Z -> Z -> mem -> Z -> Z * mem).

(** Reading inside of the device gives its bytes, and changes nothing else. *)
Class Device (block_read : reader) (disk : mem) (blocks : Z) : Prop := {
  device_read s n b o :
    0 <= s -> 0 <= n -> s + n <= blocks ->
    fst (block_read s n b o) = n /\
    forall i, snd (block_read s n b o) i =
      if (o <=? i) && (i <? o + 512 * n) then disk (512 * s + (i - o)) else b i }.

Definition sector (disk : mem) (s : Z) : mem := fun i => disk (512 * s + i).

(** ** Tables *)

Definition DOS_PART_TBL_OFFSET : Z := 0x1be.
Definition DOS_PART_MAGIC_OFFSET : Z := 0x1fe.
Definition DOS_PBR_FSTYPE_OFFSET : Z := 0x36.
Definition DOS_PBR_MEDIA_TYPE_OFFSET : Z := 0x15.
Definition DOS_MBR : Z := 0.
Definition DOS_PBR : Z := 1.

Definition le32_to_int (b : mem) (a : Z) : Z :=
  s32 (Z.shiftl (b (a + 3)) 24 + Z.shiftl (b (a + 2)) 16 + Z.shiftl (b (a + 1)) 8 + b a).

Definition is_extended (part_type : Z) : bool :=
  (part_type =? 0x5) || (part_type =? 0xf) || (part_type =? 0x85).

(** [dos_partition_t], entry [i] of the table in a sector. *)
Definition pt (i : Z) : Z := DOS_PART_TBL_OFFSET + 16 * i.
Definition boot_ind (b : mem) (i : Z) : Z := b (pt i).
Definition sys_ind (b : mem) (i : Z) : Z := b (pt i + 4).
Definition start4 (b : mem) (i : Z) : Z := le32_to_int b (pt i + 8).
Definition size4 (b : mem) (i : Z) : Z := le32_to_int b (pt i + 12).

Definition signature_ok (b : mem) : bool :=
  (b DOS_PART_MAGIC_OFFSET =? 0x55) && (b (DOS_PART_MAGIC_OFFSET + 1) =? 0xaa).

(** "FAT" *)
Definition str_FAT : list Z := [70; 65; 84].

Definition test_block_type (buffer : mem) : Z :=
  if negb (signature_ok buffer) then -1
  else if bool_decide (mem_list buffer DOS_PBR_FSTYPE_OFFSET 3 = str_FAT) then DOS_PBR
  else DOS_MBR.

Definition entries : list Z := seqZ 0 4.

(** What [print_part_dos] prints. *)
Inductive line : Type :=
  | Heading
  | Cant_read (ext_part_sector : Z)
  | Bad_signature (b0 b1 : Z)
  | Boot_sector (lba media : Z)
  | Partition (part_num lba_start lba_size sys_ind : Z) (extended : bool).

(** Counting the partitions the way fdisk does. *)
Definition counts (ext_part_sector : Z) (b : mem) (i : Z) : bool :=
  (ext_part_sector =? 0) || (negb (sys_ind b i =? 0) && negb (is_extended (sys_ind b i))).

(** The first loop of [print_partition_extended]: the lines and [part_num]. *)
Fixpoint print_entries (b : mem) (ext_part_sector part_num : Z) (l : list Z) : list line * Z :=
  match l with
  | [] => ([], part_num)
  | i :: l =>
    let o :=
      if negb (sys_ind b i =? 0) && ((ext_part_sector =? 0) || negb (is_extended (sys_ind b i))) then
        [Partition part_num (s32 (ext_part_sector + start4 b i)) (size4 b i) (sys_ind b i) (is_extended (sys_ind b i))]
      else [] in
    let '(o', n) := print_entries b ext_part_sector (if counts ext_part_sector b i then part_num + 1 else part_num) l in
    (o ++ o', n)
  end.

(** "hd%c%d" and so on. *)
Definition name_format (t : Z) : list Z :=
  (if (t =? IF_TYPE_IDE) || (t =? IF_TYPE_SATA) || (t =? IF_TYPE_ATAPI) then [104; 100]
   else if t =? IF_TYPE_SCSI then [115; 100]
   else if t =? IF_TYPE_USB then [117; 115; 98; 100]
   else if t =? IF_TYPE_DOC then [100; 111; 99; 100]
   else [120; 120]) ++ [37; 99; 37; 100].

(** "U-Boot" *)
Definition str_uboot : list Z := [85; 45; 66; 111; 111; 116].

Definition part_name (d : block_dev_desc_t) (part_num : Z) : list Z :=
  default [] (printf (name_format (if_type d)) [AInt (97 + dev d); AInt part_num]).

Definition usable (b : mem) (i : Z) : bool :=
  (Z.land (boot_ind b i) (Z.lnot 0x80) =? 0) && negb (sys_ind b i =? 0) && negb (is_extended (sys_ind b i)).

(** The first loop of [get_partition_info_extended]: the partition, or the next [part_num]. *)
Fixpoint find_entry (d : block_dev_desc_t) (b : mem) (ext_part_sector part_num which_part : Z) (l : list Z)
    : disk_partition_t + Z :=
  match l with
  | [] => inr part_num
  | i :: l =>
    if usable b i && (part_num =? which_part) then
      inl (Disk_partition (u32 (ext_part_sector + start4 b i)) (u32 (size4 b i)) 512 (part_name d part_num) str_uboot)
    else
      find_entry d b ext_part_sector (if counts ext_part_sector b i then part_num + 1 else part_num) which_part l
  end.

Section part.
Context (block_read : reader).
(** What the buffer on the stack holds before it is read. *)
Context (junk : mem).

Definition test_part_dos : Z :=
  let '(n, buffer) := block_read 0 1 junk 0 in
  if negb (n =? 1) || negb (signature_ok buffer) then -1 else 0.

(** [fuel] bounds the depth of the recursion. *)
Fixpoint print_partition_extended (fuel : nat) (d : block_dev_desc_t) (ext_part_sector relative part_num : Z)
    : option (list line) :=
  match fuel with
  | O => None
  | S fuel =>
    let '(n, buffer) := block_read (u32 ext_part_sector) 1 junk 0 in
    if negb (n =? 1) then Some [Cant_read ext_part_sector]
    else
      let i := test_block_type buffer in
      if i =? -1 then
        Some [Bad_signature (buffer DOS_PART_MAGIC_OFFSET) (buffer (DOS_PART_MAGIC_OFFSET + 1))]
      else if i =? DOS_PBR then Some [Boot_sector (lba d) (buffer DOS_PBR_MEDIA_TYPE_OFFSET)]
      else
        let '(o, part_num) := print_entries buffer ext_part_sector part_num entries in
        fold_left (fun acc i =>
          o ← acc;
          if is_extended (sys_ind buffer i) then
            let lba_start := s32 (start4 buffer i + relative) in
            o' ← print_partition_extended fuel d lba_start (if ext_part_sector =? 0 then lba_start else relative) part_num;
            Some (o ++ o')
          else Some o) entries (Some o)
  end.

Definition print_part_dos (fuel : nat) (d : block_dev_desc_t) : option (list line) :=
  o ← print_partition_extended fuel d 0 0 1; Some (Heading :: o).

Fixpoint get_partition_info_extended (fuel : nat) (d : block_dev_desc_t)
    (ext_part_sector relative part_num which_part : Z) : option (Z * option disk_partition_t * list line) :=
  match fuel with
  | O => None
  | S fuel =>
    let '(n, buffer) := block_read (u32 ext_part_sector) 1 junk 0 in
    if negb (n =? 1) then Some (-1, None, [Cant_read ext_part_sector])
    else if negb (signature_ok buffer) then
      Some (-1, None, [Bad_signature (buffer DOS_PART_MAGIC_OFFSET) (buffer (DOS_PART_MAGIC_OFFSET + 1))])
    else
      match find_entry d buffer ext_part_sector part_num which_part entries with
      | inl info => Some (0, Some info, [])
      | inr part_num =>
        match find (fun i => is_extended (sys_ind buffer i)) entries with
        | Some i =>
          let lba_start := s32 (start4 buffer i + relative) in
          get_partition_info_extended fuel d lba_start (if ext_part_sector =? 0 then lba_start else relative)
            part_num which_part
        | None => Some (-1, None, [])
        end
      end
  end.

Definition get_partition_info_dos (fuel : nat) (d : block_dev_desc_t) (part : Z)
    : option (Z * option disk_partition_t * list line) :=
  get_partition_info_extended fuel d 0 0 1 part.

(** ** [part.c] *)

Definition init_part (d : block_dev_desc_t) : block_dev_desc_t :=
  if test_part_dos =? 0 then Block_dev (if_type d) (dev d) PART_TYPE_DOS (lba d) else d.

Definition get_partition_info (fuel : nat) (d : block_dev_desc_t) (part : Z)
    : option (Z * option disk_partition_t * list line) :=
  if part_type d =? PART_TYPE_DOS then
    '(rc, info, o) ← get_partition_info_dos fuel d part; Some (if rc =? 0 then 0 else -1, info, o)
  else Some (-1, None, []).
End part.

(** ** The partitions of a disk

    A table has slots, which carry numbers: all four entries of the first sector, and the
    logical partitions of the others. *)

Abbreviation slot := (Z * Z)%type.

Definition slots_in (disk : mem) (s : Z) : list slot :=
  map (pair s) (List.filter (counts s (sector disk (u32 s))) entries).

Definition slots (disk : mem) (l : list Z) : list slot := concat (map (slots_in disk) l).

Definition extended_in (disk : mem) (s : Z) : list Z :=
  List.filter (fun i => is_extended (sys_ind (sector disk (u32 s)) i)) entries.

Definition valid_table (disk : mem) (blocks s : Z) : Prop :=
  0 <= u32 s < blocks /\ signature_ok (sector disk (u32 s)) = true.

(** The sectors with tables, from one sector on, each with at most one extended partition. *)
Inductive tables (disk : mem) (blocks : Z) : Z -> Z -> list Z -> Prop :=
  | tables_end s relative :
      valid_table disk blocks s -> extended_in disk s = [] -> tables disk blocks s relative [s]
  | tables_next s relative i s' l :
      valid_table disk blocks s -> extended_in disk s = [i] ->
      s' = s32 (start4 (sector disk (u32 s)) i + relative) ->
      tables disk blocks s' (if s =? 0 then s' else relative) l ->
      tables disk blocks s relative (s :: l).

Definition partition (disk : mem) (d : block_dev_desc_t) (num : Z) (x : slot) : option disk_partition_t :=
  let '(s, i) := x in
  let b := sector disk (u32 s) in
  if usable b i then
    Some (Disk_partition (u32 (s + start4 b i)) (u32 (size4 b i)) 512 (part_name d num) str_uboot)
  else None.

Definition slot_line (disk : mem) (num : Z) (x : slot) : list line :=
  let '(s, i) := x in
  let b := sector disk (u32 s) in
  if sys_ind b i =? 0 then []
  else [Partition num (s32 (s + start4 b i)) (size4 b i) (sys_ind b i) (is_extended (sys_ind b i))].

Fixpoint slot_lines (disk : mem) (num : Z) (l : list slot) : list line :=
  match l with
  | [] => []
  | x :: l => slot_line disk num x ++ slot_lines disk (num + 1) l
  end.

(** ** Lookup by number *)

Definition slot_at {A} (l : list A) (num which : Z) : option A :=
  if which <? num then None else l !! Z.to_nat (which - num).

Lemma slot_at_cons {A} (x : A) l num which :
  slot_at (x :: l) num which = if which =? num then Some x else slot_at l (num + 1) which.
Proof.
  unfold slot_at. bdestruct_one; [subst; rewrite (proj2 (Z.ltb_ge _ _)) by lia; by rewrite Z.sub_diag|].
  repeat bdestruct_one; try lia; [done..|].
  by replace (Z.to_nat (which - num)) with (S (Z.to_nat (which - (num + 1)))) by lia.
Qed.

Lemma slot_at_app {A} (l k : list A) num which :
  slot_at (l ++ k) num which =
  match slot_at l num which with Some x => Some x | None => slot_at k (num + Z.of_nat (length l)) which end.
Proof.
  revert num. induction l as [|x l IH]; intros num.
  - change (length (@nil A)) with 0%nat. rewrite Z.add_0_r. unfold slot_at at 2. by destruct (_ <? _).
  - change ((x :: l) ++ k) with (x :: (l ++ k)). rewrite !slot_at_cons. bdestruct_one; [done|].
    rewrite IH. by replace (num + Z.of_nat (length (x :: l))) with (num + 1 + Z.of_nat (length l)) by (cbn [length]; lia).
Qed.

Lemma slot_at_past {A} (l : list A) num which :
  which < num -> slot_at l num which = None.
Proof. intros H. unfold slot_at. by rewrite (proj2 (Z.ltb_lt _ _)) by lia. Qed.

Lemma slot_at_beyond {A} (l : list A) num which :
  slot_at l num which = None -> num <= which -> num + Z.of_nat (length l) <= which.
Proof.
  unfold slot_at. intros H Hn. rewrite (proj2 (Z.ltb_ge _ _)) in H by lia. apply lookup_ge_None in H. lia.
Qed.

(** ** Sectors in the buffer *)

Definition same_sector (b b' : mem) : Prop := forall i, 0 <= i < 512 -> b i = b' i.

Lemma agree_fields b b' i :
  same_sector b b' -> 0 <= i < 4 ->
  boot_ind b i = boot_ind b' i /\ sys_ind b i = sys_ind b' i /\ start4 b i = start4 b' i /\ size4 b i = size4 b' i.
Proof.
  intros Ha Hi. unfold boot_ind, sys_ind, start4, size4, le32_to_int, pt, DOS_PART_TBL_OFFSET.
  repeat split; repeat f_equal; apply Ha; lia.
Qed.

Lemma agree_signature b b' : same_sector b b' -> signature_ok b = signature_ok b'.
Proof. intros Ha. unfold signature_ok, DOS_PART_MAGIC_OFFSET. by rewrite !Ha by lia. Qed.

Lemma agree_block_type b b' : same_sector b b' -> test_block_type b = test_block_type b'.
Proof.
  intros Ha. unfold test_block_type. rewrite (agree_signature b b') by done.
  rewrite (mem_list_ext b b') by (unfold DOS_PBR_FSTYPE_OFFSET; intros; apply Ha; lia). done.
Qed.

Definition in_table (l : list Z) : Prop := Forall (fun i => 0 <= i < 4) l.

Lemma in_table_entries : in_table entries.
Proof. by apply (bool_decide_unpack _). Qed.

Lemma agree_counts s b b' i : same_sector b b' -> 0 <= i < 4 -> counts s b i = counts s b' i.
Proof. intros Ha Hi. unfold counts. destruct (agree_fields b b' i Ha Hi) as (_ & -> & _). done. Qed.

Lemma agree_usable b b' i : same_sector b b' -> 0 <= i < 4 -> usable b i = usable b' i.
Proof. intros Ha Hi. unfold usable. destruct (agree_fields b b' i Ha Hi) as (-> & -> & _). done. Qed.

Lemma agree_extended b b' l :
  same_sector b b' -> in_table l ->
  List.filter (fun i => is_extended (sys_ind b i)) l = List.filter (fun i => is_extended (sys_ind b' i)) l.
Proof.
  intros Ha. induction 1 as [|i l Hi Hl IH]; cbn [List.filter]; [done|].
  rewrite IH. destruct (agree_fields b b' i Ha Hi) as (_ & -> & _). done.
Qed.

Lemma usable_counts s b i : usable b i = true -> counts s b i = true.
Proof.
  unfold usable, counts. rewrite !andb_true_iff. intros [[_ ->] ->]. apply orb_true_r.
Qed.

(** The buffer after a successful read. *)
Lemma read_sector block_read disk blocks `{!Device block_read disk blocks} s junk :
  0 <= u32 s < blocks ->
  exists b, block_read (u32 s) 1 junk 0 = (1, b) /\ same_sector b (sector disk (u32 s)).
Proof.
  intros Hs. destruct (device_read (block_read := block_read) (u32 s) 1 junk 0) as [H1 H2]; [lia..|].
  exists (snd (block_read (u32 s) 1 junk 0)). split; [rewrite (surjective_pairing (block_read _ _ _ _)); by f_equal|].
  intros i Hi. rewrite H2. unfold sector. replace ((0 <=? i) && (i <? 0 + 512 * 1)) with true by lia.
  f_equal. lia.
Qed.

(** ** The loops over a table *)

Lemma find_entry_spec d disk s num which b l :
  same_sector b (sector disk (u32 s)) -> in_table l ->
  find_entry d b s num which l =
  let sl := map (pair s) (List.filter (counts s (sector disk (u32 s))) l) in
  match x ← slot_at sl num which; partition disk d which x with
  | Some p => inl p
  | None => inr (num + Z.of_nat (length sl))
  end.
Proof.
  intros Ha Hl. revert num. induction Hl as [|i l Hi Hl IH]; intros num; cbn [find_entry].
  - cbn. unfold slot_at. destruct (which <? num); cbn; by rewrite Z.add_0_r.
  - rewrite (agree_usable _ _ _ Ha Hi), (agree_counts s _ _ _ Ha Hi).
    destruct (agree_fields _ _ _ Ha Hi) as (_ & _ & -> & ->). cbn [List.filter].
    destruct (counts s _ i) eqn:Hc.
    + cbn [map]. cbv zeta. rewrite slot_at_cons. rewrite (Z.eqb_sym which num).
      destruct (num =? which) eqn:E; rewrite ?andb_true_r, ?andb_false_r.
      * apply Z.eqb_eq in E as ->. cbn [mbind option_bind partition]. destruct (usable _ i); [done|].
        rewrite IH. cbv zeta. rewrite slot_at_past by lia. cbn [mbind option_bind length]. f_equal. lia.
      * rewrite IH. cbv zeta. destruct (_ ← slot_at _ _ _; _); [done|]. cbn [length]. f_equal. lia.
    + destruct (usable _ i) eqn:Hu; [by apply (usable_counts s) in Hu; congruence|]. cbn [andb]. by rewrite IH.
Qed.

Lemma print_entries_spec disk s num b l :
  same_sector b (sector disk (u32 s)) -> in_table l ->
  print_entries b s num l =
  let sl := map (pair s) (List.filter (counts s (sector disk (u32 s))) l) in
  (slot_lines disk num sl, num + Z.of_nat (length sl)).
Proof.
  intros Ha Hl. revert num. induction Hl as [|i l Hi Hl IH]; intros num; cbn [print_entries].
  - cbn. by rewrite Z.add_0_r.
  - rewrite (agree_counts s _ _ _ Ha Hi). destruct (agree_fields _ _ _ Ha Hi) as (_ & -> & -> & ->).
    rewrite IH. cbv zeta. cbn [List.filter].
    destruct (counts s _ i) eqn:Hc; unfold counts in Hc; cbn [map slot_lines slot_line length];
      destruct (sys_ind _ i =? 0), (s =? 0), (is_extended _); try discriminate Hc; cbn [negb andb orb app];
      f_equal; lia.
Qed.

Lemma slot_lines_app disk num l k :
  slot_lines disk num (l ++ k) = slot_lines disk num l ++ slot_lines disk (num + Z.of_nat (length l)) k.
Proof.
  revert num. induction l as [|x l IH]; intros num; cbn [app slot_lines length]; [by rewrite Z.add_0_r|].
  rewrite IH, app_assoc. do 2 f_equal. lia.
Qed.

Lemma slots_cons disk s l : slots disk (s :: l) = slots_in disk s ++ slots disk l.
Proof. done. Qed.

(** The first extended entry, and the second loop of [print_partition_extended]. *)
Lemma find_filter {A} (f : A -> bool) l : find f l = head (List.filter f l).
Proof. induction l as [|x l IH]; cbn; [done|]. by destruct (f x). Qed.

Lemma follow_none {A} f (F : Z -> option (list A)) l o :
  List.filter f l = [] ->
  fold_left (fun acc i => o ← acc; if f i then o' ← F i; Some (o ++ o') else Some o) l (Some o) = Some o.
Proof.
  induction l as [|i l IH]; cbn [fold_left List.filter mbind option_bind]; [done|].
  destruct (f i); [done|]. apply IH.
Qed.

Lemma follow_one {A} f (F : Z -> option (list A)) l o o' i :
  List.filter f l = [i] -> F i = Some o' ->
  fold_left (fun acc i => o ← acc; if f i then o' ← F i; Some (o ++ o') else Some o) l (Some o) = Some (o ++ o').
Proof.
  intros Hf HF. induction l as [|j l IH]; cbn [fold_left List.filter mbind option_bind] in *; [done|].
  destruct (f j); [|by apply IH]. injection Hf as -> Hf. rewrite HF. cbn [mbind option_bind]. by apply follow_none.
Qed.

Lemma extended_range disk s i : extended_in disk s = [i] -> 0 <= i < 4.
Proof.
  intros He. apply (proj1 (List.Forall_forall _ _) in_table_entries).
  apply (List.filter_In (fun i => is_extended (sys_ind (sector disk (u32 s)) i))). unfold extended_in in He.
  rewrite He. by left.
Qed.

(** ** The walk over the tables *)

Section walk.
Context {block_read : reader} {disk : mem} {blocks : Z} `{!Device block_read disk blocks}.
Context (junk : mem) (d : block_dev_desc_t).

Lemma get_extended_spec s relative l num which fuel :
  tables disk blocks s relative l -> (length l <= fuel)%nat ->
  get_partition_info_extended block_read junk fuel d s relative num which =
  Some match x ← slot_at (slots disk l) num which; partition disk d which x with
       | Some p => (0, Some p, [])
       | None => (-1, None, [])
       end.
Proof using Type*.
  intros Ht. revert num fuel.
  induction Ht as [s rel [Hr Hs] He|s rel i s' l [Hr Hs] He -> Ht IH]; intros num fuel Hf;
    (destruct fuel as [|fuel]; [cbn in Hf; lia|]); cbn [get_partition_info_extended];
    destruct (read_sector block_read disk blocks s junk Hr) as (b & -> & Ha);
    rewrite (agree_signature _ _ Ha), Hs; cbn [negb Z.eqb Pos.eqb];
    rewrite (find_entry_spec d disk s num which b entries Ha in_table_entries), find_filter,
      (agree_extended _ _ _ Ha in_table_entries); unfold extended_in in He; rewrite He; cbn [head]; cbv zeta;
    fold (slots_in disk s);
    [|destruct (agree_fields _ _ i Ha (extended_range _ _ _ He)) as (_ & _ & -> & _)].
  - change (slots disk [s]) with (slots_in disk s ++ []). rewrite app_nil_r.
    destruct (slot_at _ _ _) as [x|]; cbn [mbind option_bind]; [by destruct (partition _ _ _ _)|done].
  - rewrite slots_cons, slot_at_app. destruct (slot_at (slots_in disk s) num which) as [x|] eqn:Hx; cbn [mbind option_bind].
    + destruct (partition disk d which x) as [p|] eqn:Hp; [done|].
      rewrite IH by (cbn [length] in Hf; lia). rewrite slot_at_past; [done|].
      unfold slot_at in Hx. destruct (which <? num) eqn:E; [done|]. apply lookup_lt_Some in Hx. lia.
    + by rewrite IH by (cbn [length] in Hf; lia).
Qed.
Lemma print_extended_spec s relative l num fuel :
  tables disk blocks s relative l -> (length l <= fuel)%nat ->
  Forall (fun s => test_block_type (sector disk (u32 s)) = DOS_MBR) l ->
  print_partition_extended block_read junk fuel d s relative num = Some (slot_lines disk num (slots disk l)).
Proof using Type*.
  intros Ht. revert num fuel.
  induction Ht as [s rel [Hr _] He|s rel i s' l [Hr _] He -> Ht IH]; intros num fuel Hf Hm;
    (destruct fuel as [|fuel]; [cbn in Hf; lia|]); cbn [print_partition_extended];
    destruct (read_sector block_read disk blocks s junk Hr) as (b & -> & Ha);
    apply List.Forall_cons_iff in Hm as [Hm Hms];
    rewrite (agree_block_type _ _ Ha), Hm; unfold DOS_MBR, DOS_PBR; cbn [negb Z.eqb Pos.eqb];
    rewrite (print_entries_spec disk s num b entries Ha in_table_entries); cbv zeta; fold (slots_in disk s);
    unfold extended_in in He; rewrite <- (agree_extended _ _ _ Ha in_table_entries) in He.
  - rewrite slots_cons, app_nil_r. by apply (follow_none (fun i => is_extended (sys_ind b i))).
  - rewrite slots_cons, slot_lines_app. apply (follow_one (fun i => is_extended (sys_ind b i)) _ _ _ _ i He). cbv beta.
    rewrite (agree_extended _ _ _ Ha in_table_entries) in He.
    destruct (agree_fields _ _ i Ha (extended_range _ _ _ He)) as (_ & _ & -> & _).
    apply IH; [cbn [length] in Hf; lia|done].
Qed.
End walk.

(** ** Theorems *)

(** C24: on a disk whose tables form a chain, [get_partition_info_dos] ends and
    finds exactly the usable slots (non-empty, not extended, with a valid boot flag) under their
    numbers, at the place of the partition relative to its table; every other number is refused. *)
Theorem get_partition_info_dos_spec block_read disk blocks `{!Device block_read disk blocks} junk d l which fuel :
  tables disk blocks 0 0 l -> (length l <= fuel)%nat ->
  get_partition_info_dos block_read junk fuel d which =
  Some match x ← slot_at (slots disk l) 1 which; partition disk d which x with
       | Some p => (0, Some p, [])
       | None => (-1, None, [])
       end.
Proof. intros Ht Hf. by apply (get_extended_spec junk d 0 0 l 1 which fuel). Qed.

(** on a disk whose tables form a chain, none of which looks like a boot
    sector, [print_part_dos] ends and prints the non-empty slots, in order and with the numbers that
    [get_partition_info_dos] takes. *)
Theorem print_part_dos_spec block_read disk blocks `{!Device block_read disk blocks} junk d l fuel :
  tables disk blocks 0 0 l -> (length l <= fuel)%nat ->
  Forall (fun s => test_block_type (sector disk (u32 s)) = DOS_MBR) l ->
  print_part_dos block_read junk fuel d = Some (Heading :: slot_lines disk 1 (slots disk l)).
Proof.
  intros Ht Hf Hm. unfold print_part_dos. by rewrite (print_extended_spec junk d 0 0 l 1 fuel Ht Hf Hm).
Qed.

(** ** An example *)

(** A reader for a given disk. *)
Definition read_from (disk : mem) : reader := fun s n b o =>
  (n, fun i => if (o <=? i) && (i <? o + 512 * n) then disk (512 * s + (i - o)) else b i).

#[export] Instance read_from_device disk blocks : Device (read_from disk) disk blocks.
Proof. by constructor. Qed.

(** Bytes of a table entry. *)
Definition entry_bytes (boot sys st sz : Z) : list Z := [boot; 0; 0; 0; sys; 0; 0; 0; st; 0; 0; 0; sz; 0; 0; 0].

Definition table_bytes (l : list Z) : list Z := repeat 0 446 ++ l ++ repeat 0 (64 - length l) ++ [0x55; 0xaa].

(** A primary partition, one that is not bootable for a bad flag, and two logical partitions. *)
Definition example_disk : mem :=
  let m0 := store_list (fun _ => 0) 0
    (table_bytes (entry_bytes 0x80 0x83 1 9 ++ entry_bytes 0x11 0x83 10 5 ++ entry_bytes 0 5 20 40)) in
  let m1 := store_list m0 (512 * 20) (table_bytes (entry_bytes 0 0x83 1 8 ++ entry_bytes 0 5 10 10)) in
  store_list m1 (512 * 30) (table_bytes (entry_bytes 0 0x82 2 6)).

Lemma example_tables : tables example_disk 64 0 0 [0; 20; 30].
Proof.
  apply (tables_next _ _ _ _ 2 20); [by vm_compute|by vm_compute|by vm_compute|].
  apply (tables_next _ _ _ _ 1 30); [by vm_compute|by vm_compute|by vm_compute|].
  apply tables_end; by vm_compute.
Qed.

Lemma get_partition_info_dos_spec_witness :
  get_partition_info_dos (read_from example_disk) (fun _ => 0) 3 (Block_dev IF_TYPE_IDE 0 PART_TYPE_DOS 64) 6 =
  Some (0, Some (Disk_partition 32 6 512 [104; 100; 97; 54] str_uboot), []) /\
  get_partition_info_dos (read_from example_disk) (fun _ => 0) 3 (Block_dev IF_TYPE_IDE 0 PART_TYPE_DOS 64) 2 =
  Some (-1, None, []).
Proof.
  split; (rewrite (get_partition_info_dos_spec (read_from example_disk) example_disk 64 _ _ [0; 20; 30]);
    [by vm_compute|apply example_tables|cbn; lia]).
Defined.

Lemma print_part_dos_spec_witness :
  print_part_dos (read_from example_disk) (fun _ => 0) 3 (Block_dev IF_TYPE_IDE 0 PART_TYPE_DOS 64) =
  Some [Heading; Partition 1 1 9 0x83 false; Partition 2 10 5 0x83 false; Partition 3 20 40 5 true;
        Partition 5 21 8 0x83 false; Partition 6 32 6 0x82 false].
Proof.
  rewrite (print_part_dos_spec (read_from example_disk) example_disk 64 _ _ [0; 20; 30]);
    [by vm_compute|apply example_tables|cbn; lia|]. repeat (apply List.Forall_cons; [by vm_compute|]).
  apply List.Forall_nil.
Defined.

(** An extended partition that starts at sector zero is followed for ever. *)
Definition cyclic_disk : mem := store_list (fun _ => 0) 0 (table_bytes (entry_bytes 0 5 0 1)).

Fact cyclic_table_hangs fuel d which : get_partition_info_dos (read_from cyclic_disk) (fun _ => 0) fuel d which = None.
Proof.
  unfold get_partition_info_dos. generalize 1 as num.
  induction fuel as [|fuel IH]; intros num; [done|]. cbn [get_partition_info_extended].
  destruct (read_sector (read_from cyclic_disk) cyclic_disk 1 0 (fun _ => 0)) as (b & -> & Ha); [by vm_compute|].
  rewrite (agree_signature _ _ Ha). change (signature_ok (sector cyclic_disk (u32 0))) with true. cbn [negb Z.eqb Pos.eqb].
  rewrite (find_entry_spec d cyclic_disk 0 num which b entries Ha in_table_entries). cbv zeta.
  rewrite find_filter, (agree_extended _ _ _ Ha in_table_entries).
  change (List.filter (counts 0 (sector cyclic_disk (u32 0))) entries) with [0; 1; 2; 3].
  change (List.filter (fun i => is_extended (sys_ind (sector cyclic_disk (u32 0)) i)) entries) with [0]. cbn [head map].
  destruct (agree_fields _ _ 0 Ha) as (_ & _ & -> & _); [lia|].
  change (s32 (start4 (sector cyclic_disk (u32 0)) 0 + 0)) with 0.
  replace (x ← slot_at [(0, 0); (0, 1); (0, 2); (0, 3)] num which; partition cyclic_disk d which x)
    with (@None disk_partition_t); [apply IH|].
  rewrite !slot_at_cons. repeat (case_match; [done|]). unfold slot_at. by case_match.
Qed.
