(* ===== verification/Fat.v ===== *)
(** The FAT file system, read only: [fs/fat/fat.c] with CONFIG_SUPPORT_VFAT.

    A buffer is an object of its own, a function from offsets to bytes.  The disk driver is the
    parameter of [Part]; it is called through [disk_read], with the [part_offset] that
    [fat_register_device] has found.  The constant members of [fsdata] are the record [fsdata]; its
    buffer of FAT blocks, the blocks that are static or on the stack of [do_fat_read], and the
    console are [fstate]. *)

From S2P Require Import Prelude Part.

(** A result, an access outside of an object, or no result with this fuel. *)
Inductive outcome (A : Type) : Type := Ret (a : A) | Outside | Hangs.
Arguments Ret {_} _.
Arguments Outside {_}.
Arguments Hangs {_}.

#[export] Instance outcome_bind : MBind outcome := fun A B f m =>
  match m with Ret a => f a | Outside => Outside | Hangs => Hangs end.

(** ** Constants and records of [fat.h] *)

Definition FS_BLOCK_SIZE : Z := 512.
Definition SECTOR_SIZE : Z := FS_BLOCK_SIZE.
Definition MAX_CLUSTSIZE : Z := 65536.
Definition DIRENTSPERBLOCK : Z := FS_BLOCK_SIZE / 32.
Definition FATBUFBLOCKS : Z := 6.
Definition FATBUFSIZE : Z := FS_BLOCK_SIZE * FATBUFBLOCKS.
Definition FAT12BUFSIZE : Z := FATBUFSIZE * 2 / 3.
Definition FAT16BUFSIZE : Z := FATBUFSIZE / 2.
Definition FAT32BUFSIZE : Z := FATBUFSIZE / 4.

Definition ATTR_RO : Z := 1.
Definition ATTR_HIDDEN : Z := 2.
Definition ATTR_SYS : Z := 4.
Definition ATTR_VOLUME : Z := 8.
Definition ATTR_DIR : Z := 16.
Definition ATTR_VFAT : Z := Z.lor (Z.lor (Z.lor ATTR_RO ATTR_HIDDEN) ATTR_SYS) ATTR_VOLUME.
Definition DELETED_FLAG : Z := 0xe5.
Definition aRING : Z := 0x05.
Definition LAST_LONG_ENTRY_MASK : Z := 0x40.
Definition LS_NO : Z := 0.
Definition LS_YES : Z := 1.
Definition LS_ROOT : Z := 2.

Definition flag (x mask : Z) : bool := negb (Z.land x mask =? 0).

(** '/' or '\\' *)
Definition ISDIRDELIM (c : Z) : bool := (c =? 47) || (c =? 92).
Definition TOLOWER (c : Z) : Z := if (65 <=? c) && (c <=? 90) then c + (97 - 65) else c.

Definition le16 (b : mem) (a : Z) : Z := b a + 256 * b (a + 1).
Definition le32 (b : mem) (a : Z) : Z := le16 b a + 65536 * le16 b (a + 2).

Record fsdata : Type := Fsdata {
  fatsize : Z; fatlength : Z; fat_sect : Z; rootdir_sect : Z; clust_size : Z; data_begin : Z }.

(** What is printed. *)
Inductive message : Type :=
  | File_line (size : Z) (name : list Z)
  | Dir_line (name : list Z)
  | Totals (files dirs : Z)
  | Invalid_entry
  | Cluster_error
  | Reading (filename : list Z).

Record fstate : Type := Fstate {
  fatbuf : mem; fatbufnum : Z; read_block : mem; dent_block : mem; vfat_block : mem;
  console : list message }.

Definition set_fatbuf (b : mem) (n : Z) (st : fstate) : fstate :=
  Fstate b n (read_block st) (dent_block st) (vfat_block st) (console st).
Definition set_read_block (b : mem) (st : fstate) : fstate :=
  Fstate (fatbuf st) (fatbufnum st) b (dent_block st) (vfat_block st) (console st).
Definition set_dent_block (b : mem) (st : fstate) : fstate :=
  Fstate (fatbuf st) (fatbufnum st) (read_block st) b (vfat_block st) (console st).
Definition set_vfat_block (b : mem) (st : fstate) : fstate :=
  Fstate (fatbuf st) (fatbufnum st) (read_block st) (dent_block st) b (console st).
Definition say (x : message) (st : fstate) : fstate :=
  Fstate (fatbuf st) (fatbufnum st) (read_block st) (dent_block st) (vfat_block st) (console st ++ [x]).

Definition CHECK_CLUST (x fatsize : Z) : bool :=
  (x <=? 1) || ((if fatsize =? 32 then 0xffffff0 else 0xfff0) <=? x).

(** A directory entry, or a slot of a long name: its 32 bytes. *)
Definition dirent_at (b : mem) (o : Z) : list Z := mem_list b o 32.
Definition attr (d : list Z) : Z := rd d 11.
Definition entry_size (d : list Z) : Z :=
  rd d 28 + 256 * rd d 29 + 65536 * rd d 30 + 16777216 * rd d 31.
Definition START (g : fsdata) (d : list Z) : Z :=
  u32 (rd d 26 + 256 * rd d 27 + if fatsize g =? 32 then Z.shiftl (rd d 20 + 256 * rd d 21) 16 else 0).

(** ** Names *)

Definition downcase (str : list Z) : list Z := map TOLOWER str.

Fixpoint dirdelim_from (i : Z) (str : list Z) : Z :=
  match str with
  | [] => -1
  | c :: str => if ISDIRDELIM c then i else dirdelim_from (i + 1) str
  end.

Definition dirdelim (str : list Z) : Z := dirdelim_from 0 str.

Fixpoint skip_delims (str : list Z) : list Z :=
  match str with
  | c :: s => if ISDIRDELIM c then skip_delims s else str
  | [] => []
  end.

(** A field up to a NUL or a space. *)
Fixpoint field (l : list Z) : list Z :=
  match l with
  | c :: l => if (c =? 0) || (c =? 32) then [] else c :: field l
  | [] => []
  end.

(** The end of [get_name] and [get_vfatname]. *)
Definition finish_name (l : list Z) : list Z :=
  downcase
    match l with
    | c :: r => if c =? DELETED_FLAG then [] else if c =? aRING then DELETED_FLAG :: r else l
    | [] => []
    end.

Definition get_name (d : list Z) : list Z :=
  let ext := firstn 3 (skipn 8 d) in
  finish_name (field (firstn 8 d) ++
    if negb (rd d 8 =? 0) && negb (rd d 8 =? 32) then 46 :: field ext else []).

(** The bytes of a slot that carry characters: [name0_4], [name5_10], [name11_12]. *)
Definition slot_chars : list Z := [1; 3; 5; 7; 9; 14; 16; 18; 20; 22; 24; 28; 30].

(** [slot2str]: [l_name], and whether it has found the end. *)
Fixpoint slot2str_loop (b : mem) (slot : Z) (l : list Z) (l_name : list Z) : list Z * bool :=
  match l with
  | [] => (l_name, false)
  | j :: l => if b (slot + j) =? 0 then (l_name, true) else slot2str_loop b slot l (l_name ++ [b (slot + j)])
  end.

Definition slot2str (b : mem) (slot : Z) (l_name : list Z) : list Z * bool :=
  slot2str_loop b slot slot_chars l_name.

Definition mkcksum (str : list Z) : Z :=
  fold_left (fun ret c => u8 (Z.lor (Z.shiftl (Z.land ret 1) 7) (Z.shiftr (Z.land ret 0xfe) 1) + c)) (firstn 11 str) 0.

(** ** The disk *)

Section volume.
Context (block_read : reader).
Context (part_offset : Z).
(** What a buffer on the stack holds before it is read. *)
Context (junk : mem).

Definition disk_read (startblock getsize : Z) (b : mem) (o : Z) : Z * mem :=
  let '(n, b) := block_read (u32 (startblock + part_offset)) getsize b o in (s32 n, b).

(** The entry in the buffer. *)
Definition packed (fatsize : Z) (b : mem) (offset : Z) : Z :=
  if fatsize =? 32 then le32 b (4 * offset)
  else if fatsize =? 16 then le16 b (2 * offset)
  else
    let off16 := offset * 3 / 4 in
    let w i := le16 b (2 * i) in
    let k := Z.land offset 0x3 in
    if k =? 0 then Z.land (w off16) 0xfff
    else if k =? 1 then
      Z.lor (Z.shiftl (Z.land (w (off16 + 1)) 0x00ff) 4) (Z.shiftr (Z.land (w off16) 0xf000) 12)
    else if k =? 2 then
      Z.lor (Z.shiftl (Z.land (w (off16 + 1)) 0x000f) 8) (Z.shiftr (Z.land (w off16) 0xff00) 8)
    else Z.shiftr (Z.land (w off16) 0xfff0) 4.

Definition entries_per_buffer (fatsize : Z) : option Z :=
  if fatsize =? 32 then Some FAT32BUFSIZE
  else if fatsize =? 16 then Some FAT16BUFSIZE
  else if fatsize =? 12 then Some FAT12BUFSIZE
  else None.

Definition get_fatent (g : fsdata) (st : fstate) (entry : Z) : fstate * Z :=
  match entries_per_buffer (fatsize g) with
  | None => (st, 0)
  | Some per =>
    let bufnum := entry / per in
    let offset := entry - bufnum * per in
    if negb (bufnum =? u32 (fatbufnum st)) then
      let getsize := FATBUFSIZE / FS_BLOCK_SIZE in
      let fatlength := u32 (fatlength g * SECTOR_SIZE) in
      let startblock := u32 (u32 (bufnum * FATBUFBLOCKS) + fat_sect g) in
      let getsize := if fatlength <? getsize then fatlength else getsize in
      let '(r, b) := disk_read startblock getsize (fatbuf st) 0 in
      if r <? 0 then (set_fatbuf b (fatbufnum st) st, 0)
      else (set_fatbuf b bufnum st, packed (fatsize g) b offset)
    else (st, packed (fatsize g) (fatbuf st) offset)
  end.

(** [get_cluster]: its result, and the buffer. *)
Definition get_cluster (g : fsdata) (clustnum : Z) (b : mem) (o size : Z) : Z * mem :=
  let startsect :=
    if 0 <? clustnum then u32 (data_begin g + clustnum * clust_size g) else rootdir_sect g in
  let '(r, b) := disk_read startsect (size / FS_BLOCK_SIZE) b o in
  if r <? 0 then (-1, b)
  else if negb (size mod FS_BLOCK_SIZE =? 0) then
    let idx := size / FS_BLOCK_SIZE in
    let '(r, tmpbuf) := disk_read (u32 (startsect + idx)) 1 junk 0 in
    if r <? 0 then (-1, b)
    else (0, store_list b (o + idx * FS_BLOCK_SIZE) (mem_list tmpbuf 0 (Z.to_nat (size mod FS_BLOCK_SIZE))))
  else (0, b).

Definition bytesperclust (g : fsdata) : Z := clust_size g * SECTOR_SIZE.

(** Both loops of [get_contents] are one: an iteration makes the run of clusters longer, or reads
    it and goes to [getit], or reads the end of the file. *)
Fixpoint contents_loop (fuel : nat) (g : fsdata) (st : fstate) (b : mem) (o : Z)
    (curclust endclust actsize filesize gotsize : Z) : outcome (fstate * mem * Z) :=
  match fuel with
  | O => Hangs
  | S fuel =>
    if actsize <? filesize then
      let '(st, newclust) := get_fatent g st endclust in
      if negb (u32 (newclust - 1) =? endclust) then
        let '(r, b) := get_cluster g curclust b o actsize in
        if negb (r =? 0) then Ret (say Cluster_error st, b, -1)
        else
          let gotsize := u32 (gotsize + actsize) in
          let filesize := u32 (filesize - actsize) in
          let '(st, curclust) := get_fatent g st endclust in
          if CHECK_CLUST curclust (fatsize g) then Ret (say Invalid_entry st, b, s32 gotsize)
          else contents_loop fuel g st b (o + actsize) curclust curclust (bytesperclust g) filesize gotsize
      else if CHECK_CLUST newclust (fatsize g) then Ret (st, b, s32 gotsize)
      else contents_loop fuel g st b o curclust newclust (u32 (actsize + bytesperclust g)) filesize gotsize
    else
      let actsize := u32 (actsize - bytesperclust g) in
      let '(r, b) := get_cluster g curclust b o actsize in
      if negb (r =? 0) then Ret (say Cluster_error st, b, -1)
      else
        let gotsize := u32 (gotsize + actsize) in
        let filesize := u32 (filesize - actsize) in
        let '(r, b) := get_cluster g endclust b (o + actsize) filesize in
        if negb (r =? 0) then Ret (say Cluster_error st, b, -1)
        else Ret (st, b, s32 (u32 (gotsize + filesize)))
  end.

(** [buffer] is the memory of the caller, from the address that is passed on. *)
Definition get_contents (fuel : nat) (g : fsdata) (st : fstate) (d : list Z) (buffer : mem) (maxsize : Z)
    : outcome (fstate * mem * Z) :=
  let filesize := entry_size d in
  let filesize := if (0 <? maxsize) && (maxsize <? filesize) then maxsize else filesize in
  contents_loop fuel g st buffer 0 (START g d) (START g d) (bytesperclust g) filesize 0.

(** ** Long names *)

Definition slot_id (b : mem) (slot : Z) : Z := Z.land (b slot) (Z.lnot LAST_LONG_ENTRY_MASK).

(** The first loop of [get_vfatname]: [None] when the numbers do not count down. *)
Fixpoint skip_slots (b : mem) (slotptr nextclust : Z) (counter : nat) : option Z :=
  if slotptr <? nextclust then
    match counter with
    | O => Some slotptr
    | S n => if slot_id b slotptr =? Z.of_nat counter then skip_slots b (slotptr + 32) nextclust n else None
    end
  else Some slotptr.

(** The search for the last slot in the next cluster; the block has room for [n] more. *)
Fixpoint last_slot (b : mem) (slotptr2 : Z) (n : nat) : outcome Z :=
  match n with
  | O => Outside
  | S n => if 1 <? b slotptr2 then last_slot b (slotptr2 + 32) n else Ret slotptr2
  end.

(** The slots from number [n - 1] down to the first of the block. *)
Fixpoint slots_down (b : mem) (n : nat) (l_name : list Z) : list Z :=
  match n with
  | O => l_name
  | S n => slots_down b n (fst (slot2str b (32 * Z.of_nat n) l_name))
  end.

(** The last loop, down to the slot with the mark; [n] slots lie before [slotptr]. *)
Fixpoint slots_to_mark (b : mem) (n : nat) (l_name : list Z) : outcome (list Z) :=
  match n with
  | O => Outside
  | S n =>
    let slotptr := 32 * Z.of_nat n in
    let '(l_name, finished) := slot2str b slotptr l_name in
    if finished || flag (b slotptr) LAST_LONG_ENTRY_MASK then Ret l_name else slots_to_mark b n l_name
  end.

(** [char l_name[256]] of the callers *)
Definition L_NAME_SIZE : Z := 256.

(** [get_vfatname]: the state, the block, [l_name] (empty, as the callers leave it, on an error)
    and the result. *)
Definition get_vfatname (g : fsdata) (st : fstate) (curclust : Z) (cluster : mem) (retdent : Z)
    : outcome (fstate * mem * list Z * Z) :=
  let nextclust := bytesperclust g in
  let counter := Z.to_nat (slot_id cluster retdent) in
  match skip_slots cluster retdent nextclust counter with
  | None => Ret (st, cluster, [], -1)
  | Some slotptr =>
    let finish st (slotptr : Z) (realdent : list Z) l_name :=
      l_name ← slots_to_mark cluster (Z.to_nat (slotptr / 32)) l_name;
      if L_NAME_SIZE <=? Z.of_nat (length l_name) then Outside
      else Ret (st, store_list cluster retdent realdent, finish_name l_name, 0) in
    if nextclust <=? slotptr then
      let slotptr := slotptr - 32 in
      let '(st, curclust) := get_fatent g st curclust in
      if (s32 curclust <=? 1) || CHECK_CLUST curclust (fatsize g) then Ret (say Invalid_entry st, cluster, [], -1)
      else
        let '(r, b) := get_cluster g curclust (vfat_block st) 0 (bytesperclust g) in
        let st := set_vfat_block b st in
        if negb (r =? 0) then Ret (st, cluster, [], -1)
        else
          slotptr2 ← last_slot b 0 (Z.to_nat (MAX_CLUSTSIZE / 32));
          finish st slotptr (dirent_at b (slotptr2 + 32)) (slots_down b (S (Z.to_nat (slotptr2 / 32))) [])
    else finish st slotptr (dirent_at cluster slotptr) []
  end.

(** ** Directories *)

(** [prevcksum], [files], [dirs] *)
Record counters : Type := Counters { prevcksum : Z; files : Z; dirs : Z }.
Definition no_files : counters := Counters 0xffff 0 0.

Definition set_prevcksum (v : Z) (c : counters) : counters := Counters v (files c) (dirs c).

(** A line of a listing: directories are printed without a name, too, except for the short names of
    the root directory. *)
Definition list_entry (unnamed_dirs : bool) (st : fstate) (c : counters) (d name : list Z) : fstate * counters :=
  let named := negb (length name =? 0)%nat in
  if flag (attr d) ATTR_DIR then
    if unnamed_dirs || named then (say (Dir_line name) st, Counters (prevcksum c) (files c) (dirs c + 1)) else (st, c)
  else
    if named then (say (File_line (s32 (entry_size d)) name) st, Counters (prevcksum c) (files c + 1) (dirs c))
    else (st, c).

(** An entry passed over, the end of the search, or the entry. *)
Inductive step : Type :=
  | Next (st : fstate) (c : counters)
  | End (st : fstate) (r : Z)
  | Found (st : fstate) (d : list Z).

(** The entry of a long name: to a listing, or to the comparison of names. *)
Definition long_entry (d : list Z) : bool := flag (attr d) ATTR_VFAT && flag (rd d 0) LAST_LONG_ENTRY_MASK.

(** An entry in the body of [get_dentfromdir]; the block has been stored back. *)
Definition dent_name (st : fstate) (c : counters) (filename : list Z) (dols : Z) (o : Z) (l_name : list Z) : step :=
  let d := dirent_at (dent_block st) o in
  if rd d 0 =? 0 then End (if negb (dols =? 0) then say (Totals (files c) (dirs c)) st else st) 0
  else if negb (dols =? 0) && (mkcksum d =? prevcksum c) then Next st c
  else
    let s_name := get_name d in
    if negb (dols =? 0) then let '(st, c) := list_entry true st c d s_name in Next st c
    else if bool_decide (filename = s_name) || bool_decide (filename = l_name) then Found st d
    else Next st c.

Definition dent_step (g : fsdata) (st : fstate) (c : counters) (curclust : Z) (filename : list Z) (dols i : Z)
    : outcome step :=
  let o := 32 * i in
  let d := dirent_at (dent_block st) o in
  if rd d 0 =? DELETED_FLAG then Ret (Next st c)
  else if flag (attr d) ATTR_VOLUME then
    if long_entry d then
      let c := set_prevcksum (rd d 13) c in
      '(st, b, l_name, _) ← get_vfatname g st curclust (dent_block st) o;
      let st := set_dent_block b st in
      if negb (dols =? 0) then let '(st, c) := list_entry true st c (dirent_at b o) l_name in Ret (Next st c)
      else Ret (dent_name st c filename dols o l_name)
    else Ret (Next st c)
  else Ret (dent_name st c filename dols o []).

(** The loop over the entries of a block, [n] of them from number [i] on. *)
Fixpoint scan (body : fstate -> counters -> Z -> outcome step) (n : nat) (st : fstate) (c : counters) (i : Z)
    : outcome step :=
  match n with
  | O => Ret (Next st c)
  | S n =>
    x ← body st c i;
    match x with
    | Next st c => scan body n st c (i + 1)
    | _ => Ret x
    end
  end.

Definition DIRENTSPERCLUST (g : fsdata) : Z := clust_size g * SECTOR_SIZE / 32.

Fixpoint dent_loop (fuel : nat) (g : fsdata) (st : fstate) (c : counters) (curclust : Z) (filename : list Z) (dols : Z)
    : outcome (fstate * option (list Z)) :=
  match fuel with
  | O => Hangs
  | S fuel =>
    let '(r, b) := get_cluster g curclust (dent_block st) 0 (bytesperclust g) in
    let st := set_dent_block b st in
    if negb (r =? 0) then Ret (st, None)
    else
      x ← scan (fun st c => dent_step g st c curclust filename dols) (Z.to_nat (DIRENTSPERCLUST g)) st c 0;
      match x with
      | End st _ => Ret (st, None)
      | Found st d => Ret (st, Some d)
      | Next st c =>
        let '(st, curclust) := get_fatent g st curclust in
        if CHECK_CLUST curclust (fatsize g) then Ret (say Invalid_entry st, None)
        else dent_loop fuel g st c curclust filename dols
      end
  end.

Definition get_dentfromdir (fuel : nat) (g : fsdata) (st : fstate) (filename retdent : list Z) (dols : Z)
    : outcome (fstate * option (list Z)) :=
  dent_loop fuel g st no_files (START g retdent) filename dols.

(** ** The root directory *)

(** An entry of the root directory, in [do_fat_read]. *)
Definition root_name (st : fstate) (c : counters) (fnamecopy : list Z) (isdir : bool) (dols : Z) (o : Z) (l_name : list Z)
    : step :=
  let d := dirent_at (read_block st) o in
  let s_name := get_name d in
  if dols =? LS_ROOT then let '(st, c) := list_entry false st c d s_name in Next st c
  else if bool_decide (fnamecopy = s_name) || bool_decide (fnamecopy = l_name) then
    if isdir && negb (flag (attr d) ATTR_DIR) then End st (-1) else Found st d
  else Next st c.

Definition root_step (g : fsdata) (st : fstate) (c : counters) (fnamecopy : list Z) (isdir : bool) (dols i : Z)
    : outcome step :=
  let o := 32 * i in
  let d := dirent_at (read_block st) o in
  if flag (attr d) ATTR_VOLUME then
    if long_entry d then
      let c := set_prevcksum (rd d 13) c in
      '(st, b, l_name, _) ← get_vfatname g st 0 (read_block st) o;
      let st := set_read_block b st in
      if dols =? LS_ROOT then let '(st, c) := list_entry true st c (dirent_at b o) l_name in Ret (Next st c)
      else Ret (root_name st c fnamecopy isdir dols o l_name)
    else Ret (Next st c)
  else if rd d 0 =? 0 then
    Ret (if dols =? LS_ROOT then End (say (Totals (files c) (dirs c)) st) 0 else End st (-1))
  else if (dols =? LS_ROOT) && (mkcksum d =? prevcksum c) then Ret (Next st c)
  else Ret (root_name st c fnamecopy isdir dols o []).

(** The search in the root directory: the entry, or what [do_fat_read] returns. *)
Fixpoint root_loop (fuel : nat) (g : fsdata) (st : fstate) (c : counters) (cursect : Z) (fnamecopy : list Z)
    (isdir : bool) (dols : Z) : outcome (fstate * (list Z + Z)) :=
  match fuel with
  | O => Hangs
  | S fuel =>
    let '(r, b) := disk_read (u32 cursect) (clust_size g) (read_block st) 0 in
    let st := set_read_block b st in
    if r <? 0 then Ret (st, inr (-1))
    else
      x ← scan (fun st c => root_step g st c fnamecopy isdir dols) (Z.to_nat DIRENTSPERBLOCK) st c 0;
      match x with
      | End st r => Ret (st, inr r)
      | Found st d => Ret (st, inl d)
      | Next st c => root_loop fuel g st c (cursect + 1) fnamecopy isdir dols
      end
  end.

(** ** Files *)

(** The loop over the components of the path after the first. *)
Fixpoint path_loop (fuel : nat) (g : fsdata) (st : fstate) (dent subname : list Z) (isdir : bool) (dols : Z)
    (firsttime : bool) (buffer : mem) (maxsize : Z) : outcome (fstate * mem * Z) :=
  match fuel with
  | O => Hangs
  | S n =>
    if isdir then
      let idx := dirdelim subname in
      let nextname := skip_delims (skipn (Z.to_nat (idx + 1)) subname) in
      let component := if 0 <=? idx then firstn (Z.to_nat idx) subname else subname in
      let '(isdir, firsttime) :=
        if 0 <=? idx then (true, if negb (dols =? 0) && (length nextname =? 0)%nat then false else firsttime)
        else if negb (dols =? 0) && firsttime then (true, false) else (false, firsttime) in
      '(st, r) ← get_dentfromdir fuel g st component dent (if isdir then 0 else dols);
      match r with
      | None => Ret (st, buffer, if negb (dols =? 0) && negb isdir then 0 else -1)
      | Some dent =>
        if 0 <=? idx then
          if negb (flag (attr dent) ATTR_DIR) then Ret (st, buffer, -1)
          else path_loop n g st dent nextname isdir dols firsttime buffer maxsize
        else path_loop n g st dent component isdir dols firsttime buffer maxsize
      end
    else get_contents fuel g st dent buffer maxsize
  end.

(** ** The boot sector *)

(** The members of [boot_sector] that are used. *)
Record boot_sector : Type := Boot_sector_ {
  cluster_size : Z; reserved : Z; fats : Z; dir_entries : Z; fat_length : Z; fat32_length : Z }.

(** "FAT12   ", "FAT16   ", "FAT32   " *)
Definition FAT12_SIGN : list Z := [70; 65; 84; 49; 50; 32; 32; 32].
Definition FAT16_SIGN : list Z := [70; 65; 84; 49; 54; 32; 32; 32].
Definition FAT32_SIGN : list Z := [70; 65; 84; 51; 50; 32; 32; 32].

(** Offset of [fs_type] in a [volume_info], and the two places of that. *)
Definition FS_TYPE : Z := 18.
Definition BOOT_SECTOR_SIZE : Z := 64.
Definition FAT32_LENGTH : Z := 36.

Definition boot_fields (block : mem) : boot_sector :=
  Boot_sector_ (block 13) (le16 block 14) (block 16) (le16 block 17) (le16 block 22) (le32 block FAT32_LENGTH).

(** [read_bootsectandvi]: the boot sector and [fatsize], or an error. *)
Definition parse_boot (block : mem) : option (boot_sector * Z) :=
  let bs := boot_fields block in
  let vistart := if fat_length bs =? 0 then BOOT_SECTOR_SIZE else FAT32_LENGTH in
  let fs_type := mem_list block (vistart + FS_TYPE) 8 in
  if fat_length bs =? 0 then
    if bool_decide (fs_type = FAT32_SIGN) then Some (bs, 32) else None
  else if bool_decide (fs_type = FAT12_SIGN) then Some (bs, 12)
  else if bool_decide (fs_type = FAT16_SIGN) then Some (bs, 16)
  else None.

Definition read_bootsectandvi : option (boot_sector * Z) :=
  let '(r, block) := disk_read 0 1 junk 0 in
  if r <? 0 then None
  else
    parse_boot block.

(** The first part of [do_fat_read]. *)
Definition geometry (bs : boot_sector) (fatsize : Z) : fsdata :=
  let fatlength := u16 (if fatsize =? 32 then fat32_length bs else fat_length bs) in
  let fat_sect := reserved bs in
  let rootdir_sect := u16 (fat_sect + fatlength * fats bs) in
  let clust_size := cluster_size bs in
  let data_begin :=
    if fatsize =? 32 then signed 16 (rootdir_sect - clust_size * 2)
    else signed 16 (rootdir_sect + dir_entries bs * 32 / SECTOR_SIZE - clust_size * 2) in
  Fsdata fatsize fatlength fat_sect rootdir_sect clust_size data_begin.

(** [char fnamecopy[2048]] *)
Definition FNAMECOPY_SIZE : Z := 2048.

(** [blocks] holds what the static blocks, and the buffer on the stack, have in them. *)
Definition do_fat_read (fuel : nat) (blocks : fstate) (filename : list Z) (buffer : mem) (maxsize dols : Z)
    : outcome (fstate * mem * Z) :=
  match read_bootsectandvi with
  | None => Ret (blocks, buffer, -1)
  | Some (bs, fatsize) =>
    let g := geometry bs fatsize in
    let st := set_fatbuf (fatbuf blocks) (-1) blocks in
    let fnamecopy := downcase (skip_delims filename) in
    let idx := dirdelim fnamecopy in
    let empty := (length fnamecopy =? 0)%nat in
    if FNAMECOPY_SIZE <=? Z.of_nat (length fnamecopy) then Outside
    else if empty && (dols =? 0) then Ret (st, buffer, -1)
    else
      let dols := if empty then LS_ROOT else dols in
      let '(fnamecopy, subname, isdir) :=
        if empty then (fnamecopy, [], false)
        else if 0 <=? idx then
          (firstn (Z.to_nat idx) fnamecopy, skip_delims (skipn (Z.to_nat (idx + 1)) fnamecopy), true)
        else (fnamecopy, [], negb (dols =? 0)) in
      '(st, r) ← root_loop fuel g st no_files (rootdir_sect g) fnamecopy isdir dols;
      match r with
      | inr r => Ret (st, buffer, r)
      | inl dent => path_loop fuel g st dent subname isdir dols true buffer maxsize
      end
  end.

Definition file_fat_ls (fuel : nat) (blocks : fstate) (dir : list Z) (null : mem) : outcome (fstate * mem * Z) :=
  do_fat_read fuel blocks dir null 0 LS_YES.

Definition file_fat_read (fuel : nat) (blocks : fstate) (filename : list Z) (buffer : mem) (maxsize : Z)
    : outcome (fstate * mem * Z) :=
  do_fat_read fuel (say (Reading filename) blocks) filename buffer maxsize LS_NO.
End volume.

(** [fat_register_device]: its result, [part_offset] and [cur_part]. *)
Definition fat_register_device (block_read : reader) (junk : mem) (fuel : nat) (d : block_dev_desc_t) (part_no : Z)
    (part_offset cur_part : Z) : option (Z * Z * Z) :=
  let '(n, buffer) := block_read 0 1 junk 0 in
  if negb (n =? 1) then Some (-1, part_offset, cur_part)
  else if negb (signature_ok buffer) then Some (-1, part_offset, cur_part)
  else
    '(rc, info, _) ← get_partition_info block_read junk fuel d part_no;
    match info with
    | Some info => if rc =? 0 then Some (0, start info, part_no) else Some (-1, part_offset, cur_part)
    | None =>
      if bool_decide (mem_list buffer DOS_PBR_FSTYPE_OFFSET 3 = str_FAT) then Some (0, 0, 1)
      else Some (-1, part_offset, cur_part)
    end.

(** ** Arithmetic *)

Lemma le16_bound b a : is_byte (b a) -> is_byte (b (a + 1)) -> 0 <= le16 b a < 65536.
Proof. unfold is_byte, le16. lia. Qed.

Lemma lor_pack a b k : 0 <= k -> 0 <= a -> 0 <= b < 2 ^ k -> Z.lor (Z.shiftl a k) b = a * 2 ^ k + b.
Proof.
  intros Hk Ha Hb. rewrite <- Z.shiftl_mul_pow2 by lia. symmetry. apply Z.add_nocarry_lor.
  apply Z.bits_inj'. intros i Hi. rewrite Z.land_spec, Z.bits_0.
  destruct (Z.ltb_spec i k).
  - by rewrite Z.shiftl_spec_low by lia.
  - replace b with (b mod 2 ^ k) by (apply Z.mod_small; lia). rewrite Z.mod_pow2_bits_high by lia. apply andb_false_r.
Qed.

(** ** The file allocation table *)

(** Entry [n] of a table, in the notation of the file system's documents. *)
Definition fat_entry (fatsize : Z) (fat : mem) (n : Z) : Z :=
  if fatsize =? 32 then le32 fat (4 * n)
  else if fatsize =? 16 then le16 fat (2 * n)
  else if Z.even n then le16 fat (3 * n / 2) mod 2 ^ 12
  else le16 fat (3 * n / 2) / 2 ^ 4.

Definition fat_kind (fatsize : Z) : Prop := fatsize = 12 \/ fatsize = 16 \/ fatsize = 32.

Definition bytes_of (b : mem) : Prop := forall a, is_byte (b a).

Lemma packed_12 b q k : bytes_of b -> 0 <= q -> 0 <= k < 4 -> packed 12 b (4 * q + k) = fat_entry 12 b (4 * q + k).
Proof.
  intros Hb Hq Hk. unfold packed, fat_entry. cbn [Z.eqb Pos.eqb]. cbv zeta.
  rewrite (land_mask _ 2) by lia. change (2 ^ 2) with 4.
  replace ((4 * q + k) mod 4) with k by (symmetry; rewrite Z.add_comm, Z.mul_comm, Z.mod_add, Z.mod_small; lia).
  assert (Hc : k = 0 \/ k = 1 \/ k = 2 \/ k = 3) by lia.
  destruct Hc as [->|[->|[->| ->]]]; cbn [Z.eqb Pos.eqb].
  - replace ((4 * q + 0) * 3 / 4) with (3 * q) by (apply (Z.div_unique _ _ _ 0); lia).
    replace (3 * (4 * q + 0) / 2) with (6 * q) by (apply (Z.div_unique _ _ _ 0); lia).
    replace (Z.even (4 * q + 0)) with true by (symmetry; rewrite Z.even_spec; exists (2 * q); lia).
    rewrite (land_mask _ 12) by lia. do 2 f_equal. lia.
  - replace ((4 * q + 1) * 3 / 4) with (3 * q) by (apply (Z.div_unique _ _ _ 3); lia).
    replace (3 * (4 * q + 1) / 2) with (6 * q + 1) by (apply (Z.div_unique _ _ _ 1); lia).
    replace (Z.even (4 * q + 1)) with false by (symmetry; rewrite <- Z.negb_odd; apply negb_false_iff, Z.odd_spec; exists (2 * q); lia).
    rewrite (land_mask _ 8) by lia. change 0xf000 with (2 ^ (12 + 4) - 2 ^ 12).
    replace (2 * (3 * q + 1)) with (6 * q + 2) by lia. replace (2 * (3 * q)) with (6 * q) by lia.
    pose proof (Hb (6 * q)); pose proof (Hb (6 * q + 1)); pose proof (Hb (6 * q + 2)); pose proof (Hb (6 * q + 3)).
    rewrite land_high by (try apply le16_bound; unfold le16, is_byte in *; lia).
    unfold le16, is_byte in *. replace (6 * q + 1 + 1) with (6 * q + 2) by lia. replace (6 * q + 2 + 1) with (6 * q + 3) by lia.
    replace ((b (6 * q + 2) + 256 * b (6 * q + 3)) mod 2 ^ 8) with (b (6 * q + 2)) by (apply (Z.mod_unique_pos _ _ (b (6 * q + 3))); lia).
    assert (Hd : (b (6 * q) + 256 * b (6 * q + 1)) / 2 ^ 12 = b (6 * q + 1) / 16).
    { change (2 ^ 12) with (256 * 16). rewrite <- Z.div_div by lia. f_equal. symmetry. apply (Z.div_unique _ _ _ (b (6 * q))); lia. }
    rewrite Hd. assert (0 <= b (6 * q + 1) / 16 < 2 ^ 4) by (Z.div_mod_to_equations; lia).
    rewrite lor_pack by lia. change (2 ^ 4) with 16. Z.div_mod_to_equations. lia.
  - replace ((4 * q + 2) * 3 / 4) with (3 * q + 1) by (apply (Z.div_unique _ _ _ 2); lia).
    replace (3 * (4 * q + 2) / 2) with (6 * q + 3) by (apply (Z.div_unique _ _ _ 0); lia).
    replace (Z.even (4 * q + 2)) with true by (symmetry; rewrite Z.even_spec; exists (2 * q + 1); lia).
    rewrite (land_mask _ 4) by lia. change 0xff00 with (2 ^ (8 + 8) - 2 ^ 8).
    replace (2 * (3 * q + 1 + 1)) with (6 * q + 4) by lia. replace (2 * (3 * q + 1)) with (6 * q + 2) by lia.
    pose proof (Hb (6 * q + 2)); pose proof (Hb (6 * q + 3)); pose proof (Hb (6 * q + 4)); pose proof (Hb (6 * q + 5)).
    unfold le16, is_byte in *. replace (6 * q + 2 + 1) with (6 * q + 3) by lia. replace (6 * q + 3 + 1) with (6 * q + 4) by lia.
    replace (6 * q + 4 + 1) with (6 * q + 5) by lia.
    rewrite land_high by lia.
    assert (Hd : (b (6 * q + 2) + 256 * b (6 * q + 3)) / 2 ^ 8 = b (6 * q + 3)).
    { symmetry. apply (Z.div_unique _ _ _ (b (6 * q + 2))); lia. }
    rewrite Hd. change (2 ^ 4) with 16. change (2 ^ 12) with 4096. change (2 ^ 8) with 256.
    pose proof (Z.mod_pos_bound (b (6 * q + 4) + 256 * b (6 * q + 5)) 16 ltac:(lia)).
    rewrite lor_pack by lia. Z.div_mod_to_equations. lia.
  - replace ((4 * q + 3) * 3 / 4) with (3 * q + 2) by (apply (Z.div_unique _ _ _ 1); lia).
    replace (3 * (4 * q + 3) / 2) with (6 * q + 4) by (apply (Z.div_unique _ _ _ 1); lia).
    replace (Z.even (4 * q + 3)) with false by (symmetry; rewrite <- Z.negb_odd; apply negb_false_iff, Z.odd_spec; exists (2 * q + 1); lia).
    replace (2 * (3 * q + 2)) with (6 * q + 4) by lia. change 0xfff0 with (2 ^ (4 + 12) - 2 ^ 4).
    apply land_high; [apply le16_bound; apply Hb|lia|lia].
Qed.

Lemma packed_spec fs b n : fat_kind fs -> bytes_of b -> 0 <= n -> packed fs b n = fat_entry fs b n.
Proof.
  intros [->|[->| ->]] Hb Hn; [|done..].
  rewrite (Z.div_mod n 4) by lia. apply packed_12; [done|apply Z.div_pos; lia|apply Z.mod_pos_bound; lia].
Qed.

Definition per_buffer (fs : Z) : Z := if fs =? 32 then 768 else if fs =? 16 then 1536 else 2048.

Lemma per_buffer_eq fs : fat_kind fs -> entries_per_buffer fs = Some (per_buffer fs).
Proof. by intros [->|[->| ->]]. Qed.

Lemma fat_entry_shift fs b n k :
  fat_kind fs -> 0 <= n ->
  fat_entry fs (fun i => b (FATBUFSIZE * k + i)) n = fat_entry fs b (per_buffer fs * k + n).
Proof.
  intros Hk Hn. unfold FATBUFSIZE, FS_BLOCK_SIZE, FATBUFBLOCKS.
  assert (H16 : forall a c, c = 3072 * k + a -> le16 (fun i => b (512 * 6 * k + i)) a = le16 b c).
  { intros a c ->. unfold le16. cbv beta. replace (512 * 6 * k + a) with (3072 * k + a) by lia.
    by replace (512 * 6 * k + (a + 1)) with (3072 * k + a + 1) by lia. }
  destruct Hk as [->|[->| ->]]; unfold fat_entry, per_buffer; cbn [Z.eqb Pos.eqb].
  - replace (Z.even (2048 * k + n)) with (Z.even n).
    + destruct (Z.even n); (f_equal; apply H16; symmetry; replace (3 * (2048 * k + n)) with (3072 * k * 2 + 3 * n) by lia;
        rewrite Z.div_add_l by lia; lia).
    + replace (2048 * k + n) with (n + 2 * (1024 * k)) by lia. by rewrite Z.even_add_mul_2.
  - apply H16. lia.
  - unfold le32. f_equal; [|f_equal]; apply H16; lia.
Qed.

Lemma fat_entry_ext fs b b' n :
  fat_kind fs -> 0 <= n < per_buffer fs ->
  (forall i, 0 <= i < FATBUFSIZE -> b i = b' i) -> fat_entry fs b n = fat_entry fs b' n.
Proof.
  intros Hk Hn H. unfold FATBUFSIZE, FS_BLOCK_SIZE, FATBUFBLOCKS in H.
  assert (H16 : forall a, 0 <= a < 3071 -> le16 b a = le16 b' a) by (intros; unfold le16; by rewrite !H by lia).
  destruct Hk as [->|[->| ->]]; unfold fat_entry, per_buffer in Hn |- *; cbn [Z.eqb Pos.eqb] in Hn |- *.
  - assert (0 <= 3 * n / 2 < 3071) by (Z.div_mod_to_equations; lia). by rewrite H16.
  - apply H16. lia.
  - unfold le32. rewrite !H16 by lia. done.
Qed.
Lemma packed_ext fs b b' n :
  fat_kind fs -> 0 <= n < per_buffer fs ->
  (forall i, 0 <= i < FATBUFSIZE -> b i = b' i) -> packed fs b n = packed fs b' n.
Proof.
  intros Hk Hn H. unfold FATBUFSIZE, FS_BLOCK_SIZE, FATBUFBLOCKS in H.
  assert (H16 : forall a, 0 <= a < 3071 -> le16 b a = le16 b' a) by (intros; unfold le16; by rewrite !H by lia).
  destruct Hk as [->|[->| ->]]; unfold packed, per_buffer in Hn |- *; cbn [Z.eqb Pos.eqb] in Hn |- *.
  - cbv zeta. rewrite (land_mask _ 2) by lia. change (2 ^ 2) with 4.
    assert (0 <= n * 3 / 4 /\ n * 3 / 4 <= 1535 /\ (n * 3 / 4 = 1535 -> n mod 4 = 3)) by (Z.div_mod_to_equations; lia).
    destruct (Z.eqb_spec (n mod 4) 0); [by rewrite H16 by lia|].
    destruct (Z.eqb_spec (n mod 4) 1); [by rewrite !H16 by lia|].
    destruct (Z.eqb_spec (n mod 4) 2); [by rewrite !H16 by lia|]. by rewrite H16 by lia.
  - apply H16. lia.
  - unfold le32. rewrite !H16 by lia. done.
Qed.

(** ** Long names *)

Definition chars_of (b : mem) (slot : Z) : list Z := map (fun j => b (slot + j)) slot_chars.

(** The characters of slots [p + n - 1] down to [p]. *)
Fixpoint slots_text (b : mem) (p : Z) (n : nat) : list Z :=
  match n with
  | O => []
  | S n => chars_of b (32 * (p + Z.of_nat n)) ++ slots_text b p n
  end.

Lemma slot2str_loop_spec b slot l r :
  let s := map (fun j => b (slot + j)) l in
  slot2str_loop b slot l r = (r ++ until_nul s, existsb (Z.eqb 0) s).
Proof.
  cbv zeta. revert r. induction l as [|j l IH]; intros r; cbn [slot2str_loop map until_nul existsb]; [by rewrite app_nil_r|].
  rewrite (Z.eqb_sym 0 _). destruct (b (slot + j) =? 0); [by rewrite app_nil_r|]. rewrite IH, <- app_assoc. done.
Qed.

(** The slots of a long name, [n] of them from number [p] on, before their entry. *)
Record long_name_at (b : mem) (p : Z) (n : nat) (l : list Z) : Prop := {
  long_count : (0 < n)%nat;
  long_ids : forall k, (k < n)%nat -> slot_id b (32 * (p + Z.of_nat k)) = Z.of_nat (n - k);
  long_marks : forall k, (k < n)%nat -> flag (b (32 * (p + Z.of_nat k))) LAST_LONG_ENTRY_MASK = (k =? 0)%nat;
  long_text : l = until_nul (slots_text b p n);
  long_length : Z.of_nat (length l) < L_NAME_SIZE }.

Lemma skip_slots_spec b p n m lim :
  (forall k, (k < m)%nat -> slot_id b (32 * (p + Z.of_nat (n - m + k))) = Z.of_nat (m - k)) ->
  (m <= n)%nat -> 32 * (p + Z.of_nat n) < lim ->
  skip_slots b (32 * (p + Z.of_nat (n - m))) lim m = Some (32 * (p + Z.of_nat n)).
Proof.
  intros Hid Hm Hlim. revert Hid Hm. induction m as [|m IH]; intros Hid Hm; cbn [skip_slots].
  - rewrite (proj2 (Z.ltb_lt _ _)) by lia. do 4 f_equal. lia.
  - rewrite (proj2 (Z.ltb_lt _ _)) by lia. specialize (Hid 0%nat ltac:(lia)) as H0.
    rewrite Nat.add_0_r, Nat.sub_0_r in H0. rewrite H0, Z.eqb_refl.
    replace (32 * (p + Z.of_nat (n - S m)) + 32) with (32 * (p + Z.of_nat (n - m))) by lia.
    apply IH; [|lia]. intros k Hk. specialize (Hid (S k) ltac:(lia)).
    replace (n - S m + S k)%nat with (n - m + k)%nat in Hid by lia. by rewrite Hid.
Qed.

Lemma slots_to_mark_spec b p n r :
  0 <= p -> (0 < n)%nat ->
  (forall k, (k < n)%nat -> flag (b (32 * (p + Z.of_nat k))) LAST_LONG_ENTRY_MASK = (k =? 0)%nat) ->
  slots_to_mark b (Z.to_nat p + n) r = Ret (r ++ until_nul (slots_text b p n)).
Proof.
  intros Hp Hn Hm. revert r Hm. induction n as [|n IH]; intros r Hm; [lia|].
  rewrite Nat.add_succ_r. cbn [slots_to_mark slots_text]. cbv zeta.
  replace (32 * Z.of_nat (Z.to_nat p + n)) with (32 * (p + Z.of_nat n)) by lia.
  unfold slot2str. rewrite slot2str_loop_spec. cbv zeta. fold (chars_of b (32 * (p + Z.of_nat n))).
  rewrite (Hm n) by lia. rewrite until_nul_app. destruct (existsb _ _) eqn:E; [done|]. cbn [orb].
  rewrite until_nul_none by done. destruct n as [|n]; cbn [Nat.eqb].
  - cbn [slots_text until_nul]. by rewrite app_nil_r.
  - rewrite IH by (lia || (intros; apply Hm; lia)). by rewrite app_assoc.
Qed.

(** Bytes copied from another object. *)
Lemma store_mem_list_of m k a src n b :
  store_list m a (mem_list k src n) b =
  if (a <=? b) && (b <? a + Z.of_nat n) then k (src + (b - a)) else m b.
Proof.
  destruct (_ && _) eqn:H.
  - replace b with (a + (b - a)) at 1 by lia.
    rewrite store_list_in by (rewrite mem_list_length; lia). apply rd_mem_list. lia.
  - apply store_list_out. rewrite mem_list_length. lia.
Qed.

(** ** Reading *)

(** ** Views of directory entries

    How the entry with number [p] of a block of [lim] entries looks to a search: passed over, or an
    entry with two names. *)

Definition block_of_entries (b b' : mem) (i lim : Z) : Prop := forall a, 32 * i <= a < 32 * lim -> b a = b' a.

Inductive viewed (skips_deleted : bool) (b : mem) (p lim : Z) : option (list Z * list Z) -> Prop :=
  | view_deleted :
      skips_deleted = true -> rd (dirent_at b (32 * p)) 0 = DELETED_FLAG -> viewed skips_deleted b p lim None
  | view_label d :
      d = dirent_at b (32 * p) -> skips_deleted = false \/ rd d 0 <> DELETED_FLAG ->
      flag (attr d) ATTR_VOLUME = true -> long_entry d = false -> viewed skips_deleted b p lim None
  | view_short d :
      d = dirent_at b (32 * p) -> skips_deleted = false \/ rd d 0 <> DELETED_FLAG ->
      flag (attr d) ATTR_VOLUME = false -> rd d 0 <> 0 -> viewed skips_deleted b p lim (Some (d, []))
  | view_broken d :
      d = dirent_at b (32 * p) -> skips_deleted = false \/ rd d 0 <> DELETED_FLAG ->
      flag (attr d) ATTR_VOLUME = true -> long_entry d = true ->
      skip_slots b (32 * p) (32 * lim) (Z.to_nat (slot_id b (32 * p))) = None ->
      viewed skips_deleted b p lim (Some (d, []))
  | view_long d n l e :
      d = dirent_at b (32 * p) -> skips_deleted = false \/ rd d 0 <> DELETED_FLAG ->
      flag (attr d) ATTR_VOLUME = true -> long_entry d = true ->
      long_name_at b p n l -> p + Z.of_nat n < lim -> e = dirent_at b (32 * (p + Z.of_nat n)) -> rd e 0 <> 0 ->
      viewed skips_deleted b p lim (Some (e, finish_name l)).

Lemma dirent_ext b b' i lim p :
  block_of_entries b b' i lim -> i <= p < lim -> dirent_at b (32 * p) = dirent_at b' (32 * p).
Proof. intros H Hp. apply mem_list_ext. intros a Ha. apply H. lia. Qed.

Lemma slot_id_ext b b' i lim p :
  block_of_entries b b' i lim -> i <= p < lim -> slot_id b (32 * p) = slot_id b' (32 * p).
Proof. intros H Hp. unfold slot_id. by rewrite H by lia. Qed.

Lemma chars_ext b b' i lim p :
  block_of_entries b b' i lim -> i <= p < lim -> chars_of b (32 * p) = chars_of b' (32 * p).
Proof.
  intros H Hp. apply map_ext_in. intros j Hj. apply H.
  assert (Hb : Forall (fun j => 0 <= j < 32) slot_chars) by by apply (bool_decide_unpack _).
  apply (proj1 (List.Forall_forall _ _) Hb) in Hj. lia.
Qed.

Lemma slots_text_ext b b' i lim p n :
  block_of_entries b b' i lim -> i <= p -> p + Z.of_nat n <= lim -> slots_text b p n = slots_text b' p n.
Proof.
  intros H Hi. induction n as [|n IH]; intros Hp; cbn [slots_text]; [done|].
  rewrite IH by lia. f_equal. apply (chars_ext _ _ i lim); [done|lia].
Qed.

Lemma skip_slots_ext b b' i lim p n :
  block_of_entries b b' i lim -> i <= p -> skip_slots b (32 * p) (32 * lim) n = skip_slots b' (32 * p) (32 * lim) n.
Proof.
  intros H. revert p. induction n as [|n IH]; intros p Hp; cbn [skip_slots]; [done|].
  destruct (Z.ltb_spec (32 * p) (32 * lim)); [|done]. rewrite (slot_id_ext b b' i lim) by (done || lia).
  replace (32 * p + 32) with (32 * (p + 1)) by lia. by rewrite IH by lia.
Qed.

Lemma long_name_ext b b' i lim p n l :
  block_of_entries b b' i lim -> i <= p -> p + Z.of_nat n <= lim -> long_name_at b p n l -> long_name_at b' p n l.
Proof.
  intros H Hi Hp [H1 H2 H3 H4 H5]. constructor; [done|..|done].
  - intros k Hk. rewrite <- H2 by done. symmetry. apply (slot_id_ext _ _ i lim); [done|lia].
  - intros k Hk. rewrite <- H3 by done. by rewrite H by lia.
  - by rewrite H4, (slots_text_ext b b' i lim) by (done || lia).
Qed.

Lemma viewed_ext sd b b' p lim v :
  block_of_entries b b' p lim -> p < lim -> viewed sd b p lim v -> viewed sd b' p lim v.
Proof.
  intros H Hp Hv. assert (Hd : dirent_at b (32 * p) = dirent_at b' (32 * p)) by (apply (dirent_ext _ _ p lim); [done|lia]).
  destruct Hv as [Hs Hx|d -> Hx|d -> Hx|d -> Hx Hv Hl Hb|d n l e -> Hx Hv Hl Hn Hlim -> He].
  - apply view_deleted; [done|]. by rewrite <- Hd.
  - by apply (view_label _ _ _ _ _ Hd).
  - by apply (view_short _ _ _ _ _ Hd).
  - apply (view_broken _ _ _ _ _ Hd); [done..|].
    by rewrite <- (slot_id_ext b b' p lim), <- (skip_slots_ext b b' p lim) by (done || lia).
  - apply (view_long _ _ _ _ _ n l _ Hd); [done..| |done|apply (dirent_ext _ _ p lim); [done|lia]|done].
    apply (long_name_ext b b' p lim); [done|lia|lia|done].
Qed.

(** ** Paths *)

Definition component (c : list Z) : Prop := c <> [] /\ Forall (fun x => ISDIRDELIM x = false) c.

(** Components, with a slash between any two. *)
Fixpoint path (l : list (list Z)) : list Z :=
  match l with
  | [] => []
  | [c] => c
  | c :: l => c ++ 47 :: path l
  end.

Lemma dirdelim_from_spec c r i :
  Forall (fun x => ISDIRDELIM x = false) c ->
  dirdelim_from i (c ++ 47 :: r) = i + Z.of_nat (length c) /\ dirdelim_from i c = -1.
Proof.
  intros H. revert i. induction H as [|x c Hx Hc IH]; intros i; cbn [app dirdelim_from length].
  - split; [cbn; lia|done].
  - rewrite Hx. destruct (IH (i + 1)) as [-> ->]. split; [lia|done].
Qed.

Lemma dirdelim_last c : component c -> dirdelim c = -1.
Proof. intros [_ H]. apply (dirdelim_from_spec c [] 0 H). Qed.

Lemma dirdelim_more c r : component c -> dirdelim (c ++ 47 :: r) = Z.of_nat (length c).
Proof. intros [_ H]. apply (dirdelim_from_spec c r 0 H). Qed.

Lemma skip_delims_path l : Forall component l -> skip_delims (path l) = path l.
Proof.
  intros H. destruct H as [|c l [Hc1 Hc2] Hl]; [done|].
  assert (Hs : forall k, skip_delims (c ++ k) = c ++ k).
  { intros k. destruct Hc2 as [|x c Hx Hc]; [done|]. cbn [app skip_delims]. by rewrite Hx. }
  destruct l as [|c' l]; [rewrite <- (app_nil_r c); apply Hs|apply Hs].
Qed.

(** A path cut at its first delimiter. *)
Lemma path_cut c c' l :
  component c -> Forall component (c' :: l) ->
  let s := path (c :: c' :: l) in
  dirdelim s = Z.of_nat (length c) /\ firstn (length c) s = c /\
  skip_delims (skipn (Z.to_nat (Z.of_nat (length c) + 1)) s) = path (c' :: l).
Proof.
  intros Hc Hl. cbv zeta. change (path (c :: c' :: l)) with (c ++ 47 :: path (c' :: l)).
  split; [by apply dirdelim_more|]. split.
  - rewrite firstn_app, Nat.sub_diag, firstn_all, firstn_O. apply app_nil_r.
  - replace (Z.to_nat (Z.of_nat (length c) + 1)) with (length (c ++ [47])) by (rewrite length_app; cbn; lia).
    change (c ++ 47 :: path (c' :: l)) with (c ++ [47] ++ path (c' :: l)). rewrite app_assoc, skipn_app, skipn_all, Nat.sub_diag.
    by apply skip_delims_path.
Qed.

Section reading.
Context {block_read : reader} {disk : mem} {blocks : Z} `{!Device block_read disk blocks}.
Context (part_offset : Z).
Context (Hpart : 0 <= part_offset) (Hblocks : blocks < 2 ^ 31) (Hbytes : bytes_of disk).

Local Abbreviation disk_read := (disk_read block_read part_offset).
Local Abbreviation get_fatent := (get_fatent block_read part_offset).

(** The bytes of the volume. *)
Definition vol : mem := fun a => disk (512 * part_offset + a).

(** A buffer after [n] bytes were copied to [o] from [a] of the volume. *)
Definition filled (b b' : mem) (o n a : Z) : Prop :=
  forall i, b' i = if (o <=? i) && (i <? o + n) then vol (a + (i - o)) else b i.

Lemma disk_read_spec s n b o :
  0 <= s -> 0 <= n -> part_offset + s + n <= blocks ->
  exists b', disk_read s n b o = (n, b') /\ filled b b' o (512 * n) (512 * s).
Proof using Type*.
  intros Hs Hn Hb. destruct (device_read (block_read := block_read) (part_offset + s) n b o) as [H1 H2]; [lia..|].
  exists (snd (block_read (part_offset + s) n b o)). unfold disk_read.
  rewrite u32_small by lia. rewrite (Z.add_comm s).
  destruct (block_read (part_offset + s) n b o) as [r b'] eqn:E. cbn [fst snd] in *. subst r. split.
  - f_equal. apply s32_small. lia.
  - intros i. rewrite H2. unfold vol. by replace (512 * part_offset + (512 * s + (i - o))) with (512 * (part_offset + s) + (i - o)) by lia.
Qed.

(** *** Entries *)

(** The bytes of the table. *)
Definition fat_of (g : fsdata) : mem := fun a => vol (512 * fat_sect g + a).

(** What [fatbuf] holds. *)
Definition cached (g : fsdata) (st : fstate) : Prop :=
  fatbufnum st = -1 \/
  0 <= fatbufnum st < 2 ^ 31 /\ forall i, 0 <= i < FATBUFSIZE -> fatbuf st i = fat_of g (FATBUFSIZE * fatbufnum st + i).

(** The table can be read up to the block of an entry. *)
Definition fat_readable (g : fsdata) (n : Z) : Prop :=
  0 <= n /\ part_offset + fat_sect g + 6 * (n / per_buffer (fatsize g) + 1) <= blocks.

Record sound (g : fsdata) : Prop := {
  sound_kind : fat_kind (fatsize g);
  sound_length : 1 <= fatlength g < 65536;
  sound_sect : 0 <= fat_sect g;
  sound_clust : 1 <= clust_size g <= 128 }.

Lemma fat_bytes g : bytes_of (fat_of g).
Proof using Hbytes. intros a. apply Hbytes. Qed.

Lemma per_buffer_pos fs : 0 < per_buffer fs.
Proof using. unfold per_buffer. destruct (fs =? 32), (fs =? 16); lia. Qed.

(** [get_fatent] gives the entry, and keeps the buffer in step with the table. *)
Lemma get_fatent_spec g st n :
  sound g -> cached g st -> fat_readable g n ->
  exists b k,
    get_fatent g st n = (set_fatbuf b k st, fat_entry (fatsize g) (fat_of g) n) /\ cached g (set_fatbuf b k st).
Proof using Type*.
  intros [Hk Hl Hs _] Hc [Hn Hr]. unfold Fat.get_fatent. rewrite per_buffer_eq by done.
  pose proof (per_buffer_pos (fatsize g)) as Hp. set (p := per_buffer (fatsize g)) in *.
  assert (Hq : 0 <= n / p) by (apply Z.div_pos; lia).
  pose proof (Z.mod_pos_bound n p Hp) as Hm. rewrite (Z.mod_eq n p), (Z.mul_comm p) in Hm by lia.
  assert (Hpack : forall b, (forall i, 0 <= i < FATBUFSIZE -> b i = fat_of g (FATBUFSIZE * (n / p) + i)) ->
    packed (fatsize g) b (n - n / p * p) = fat_entry (fatsize g) (fat_of g) n).
  { intros b Hb. rewrite (packed_ext _ b (fun i => fat_of g (FATBUFSIZE * (n / p) + i))) by done.
    rewrite packed_spec by (done || lia || (intros a; apply fat_bytes)).
    rewrite fat_entry_shift by (done || lia). f_equal. fold p. lia. }
  assert (Hq31 : n / p < 2 ^ 31 / 6) by (Z.div_mod_to_equations; lia).
  destruct (Z.eqb_spec (n / p) (u32 (fatbufnum st))) as [He|He]; cbn [negb].
  - destruct Hc as [Hc|[Hr' Hc]].
    { exfalso. rewrite Hc in He. change (u32 (-1)) with (2 ^ 32 - 1) in He. lia. }
    rewrite u32_small in He by lia. rewrite Hpack by (by rewrite He).
    exists (fatbuf st), (fatbufnum st). split; [by destruct st|]. right. by destruct st.
  - unfold SECTOR_SIZE, FATBUFSIZE, FS_BLOCK_SIZE, FATBUFBLOCKS. change (512 * 6 / 512) with 6.
    rewrite (u32_small (fatlength g * 512)) by lia. rewrite (proj2 (Z.ltb_ge _ _)) by lia.
    rewrite (u32_small (n / p * 6)), u32_small by lia.
    destruct (disk_read_spec (n / p * 6 + fat_sect g) 6 (fatbuf st) 0) as (b & -> & Hb); [lia..|]. cbn [Z.ltb Z.compare].
    assert (Hfull : forall i, 0 <= i < FATBUFSIZE -> b i = fat_of g (FATBUFSIZE * (n / p) + i)).
    { intros i Hi. rewrite Hb. unfold FATBUFSIZE, FS_BLOCK_SIZE, FATBUFBLOCKS in Hi |- *.
      rewrite (proj2 (Z.leb_le _ _)), (proj2 (Z.ltb_lt _ _)) by lia. cbn [andb]. unfold fat_of. f_equal. lia. }
    exists b, (n / p). split; [by rewrite Hpack|]. right. split; [cbn; lia|done].
Qed.
(** *** Clusters *)

Context (junk : mem).

Local Abbreviation get_cluster := (get_cluster block_read part_offset junk).
Local Abbreviation contents_loop := (contents_loop block_read part_offset junk).
Local Abbreviation get_contents := (get_contents block_read part_offset junk).

(** The sector of a cluster, and cluster zero for the root directory. *)
Definition cluster_sect (g : fsdata) (c : Z) : Z :=
  if 0 <? c then data_begin g + c * clust_size g else rootdir_sect g.

Definition on_volume (s n : Z) : Prop := 0 <= s /\ part_offset + s + n <= blocks.

Lemma get_cluster_spec g c b o size n :
  0 <= size <= 512 * n -> on_volume (cluster_sect g c) n ->
  exists b', get_cluster g c b o size = (0, b') /\ filled b b' o size (512 * cluster_sect g c).
Proof using Type*.
  intros Hs [Hc Hn]. unfold Fat.get_cluster.
  replace (if 0 <? c then u32 (data_begin g + c * clust_size g) else rootdir_sect g) with (cluster_sect g c).
  2:{ unfold cluster_sect in *. destruct (0 <? c); [|done]. by rewrite u32_small by lia. }
  set (s := cluster_sect g c) in *. unfold FS_BLOCK_SIZE.
  assert (Hq : 0 <= size / 512 /\ size / 512 <= n /\ size = 512 * (size / 512) + size mod 512 /\ 0 <= size mod 512 < 512 /\
    (size mod 512 <> 0 -> size / 512 < n)) by (Z.div_mod_to_equations; lia).
  destruct (disk_read_spec s (size / 512) b o) as (b1 & -> & H1); [lia..|].
  replace (size / 512 <? 0) with false by lia.
  destruct (Z.eqb_spec (size mod 512) 0) as [H0|H0]; cbn [negb].
  - exists b1. split; [done|]. intros i. rewrite H1. by replace (512 * (size / 512)) with size by lia.
  - destruct (disk_read_spec (s + size / 512) 1 junk 0) as (tmp & Ht & H2); [lia..|].
    rewrite (u32_small (s + size / 512)), Ht by lia. cbn [Z.ltb Z.compare]. eexists. split; [done|]. intros i.
    rewrite store_mem_list_of, H1, H2, Z2Nat.id by lia.
    destruct ((o + size / 512 * 512 <=? i) && _) eqn:E1.
    + replace ((o <=? i) && (i <? o + size)) with true by lia.
      replace ((0 <=? _) && (_ <? 0 + 512 * 1)) with true by lia. f_equal. lia.
    + destruct ((o <=? i) && (i <? o + size)) eqn:E2.
      * by replace ((o <=? i) && (i <? o + 512 * (size / 512))) with true by lia.
      * by replace ((o <=? i) && (i <? o + 512 * (size / 512))) with false by lia.
Qed.
(** *** Files *)

(** A cluster of a file or directory. *)
Record in_use (g : fsdata) (c : Z) : Prop := {
  in_use_check : CHECK_CLUST c (fatsize g) = false;
  in_use_fat : fat_readable g c;
  in_use_data : on_volume (cluster_sect g c) (clust_size g) }.

(** A chain in the table, or its beginning. *)
Definition chain (g : fsdata) (cs : list Z) : Prop :=
  Forall (in_use g) cs /\
  forall k, (S k < length cs)%nat -> fat_entry (fatsize g) (fat_of g) (nth k cs 0) = nth (S k) cs 0.

(** The bytes of its clusters, in order. *)
Definition file_byte (g : fsdata) (cs : list Z) (i : Z) : Z :=
  vol (512 * cluster_sect g (nth (Z.to_nat (i / bytesperclust g)) cs 0) + i mod bytesperclust g).

(** Only the buffer of the table has changed. *)
Definition cache_step (st st' : fstate) : Prop := exists b k, st' = set_fatbuf b k st.

Lemma cache_step_refl st : cache_step st st.
Proof using. exists (fatbuf st), (fatbufnum st). by destruct st. Qed.

Lemma cache_step_trans st1 st2 st3 : cache_step st1 st2 -> cache_step st2 st3 -> cache_step st1 st3.
Proof using. intros (b & k & ->) (b' & k' & ->). by exists b', k'. Qed.

Lemma get_fatent_step g st n :
  sound g -> cached g st -> fat_readable g n ->
  exists st', get_fatent g st n = (st', fat_entry (fatsize g) (fat_of g) n) /\ cached g st' /\ cache_step st st'.
Proof using Device0 Hpart Hblocks Hbytes.
  intros Hg Hc Hn. destruct (get_fatent_spec g st n Hg Hc Hn) as (b & k & H1 & H2).
  exists (set_fatbuf b k st). split; [done|]. split; [done|]. by exists b, k.
Qed.

Lemma check_clust_pos c fs : CHECK_CLUST c fs = false -> 1 < c < 2 ^ 32.
Proof using.
  unfold CHECK_CLUST. rewrite orb_false_iff, !Z.leb_gt. intros [H1 H2]. destruct (fs =? 32); lia.
Qed.

Lemma split_range {A} (x z : A) lo mid hi i : lo <= mid <= hi ->
  (if (mid <=? i) && (i <? hi) then x else if (lo <=? i) && (i <? mid) then x else z) =
  if (lo <=? i) && (i <? hi) then x else z.
Proof using.
  intros H. destruct ((mid <=? i) && (i <? hi)) eqn:E1; [by replace ((lo <=? i) && (i <? hi)) with true by lia|].
  destruct ((lo <=? i) && (i <? mid)) eqn:E2; [by replace ((lo <=? i) && (i <? hi)) with true by lia|].
  by replace ((lo <=? i) && (i <? hi)) with false by lia.
Qed.

Section file.
Context (g : fsdata) (cs : list Z) (Hg : sound g) (Hcs : chain g cs).

Local Abbreviation bpc := (bytesperclust g).
Local Abbreviation cl := (fun k => nth k cs 0).

Lemma bpc_pos : 512 <= bpc <= 65536.
Proof using Hg. destruct Hg. unfold bytesperclust, SECTOR_SIZE, FS_BLOCK_SIZE. lia. Qed.

Lemma cl_in_use k : (k < length cs)%nat -> in_use g (cl k).
Proof using Hcs. intros Hk. apply (proj1 (List.Forall_forall _ _) (proj1 Hcs)). by apply nth_In. Qed.

(** Clusters [j] to [e] of the chain lie side by side. *)
Definition run (j e : nat) : Prop :=
  (j <= e < length cs)%nat /\ forall k, (j <= k <= e)%nat -> cl k = cl j + Z.of_nat (k - j).

Lemma run_sect j e k : run j e -> (j <= k <= e)%nat ->
  cluster_sect g (cl k) = cluster_sect g (cl j) + Z.of_nat (k - j) * clust_size g.
Proof using Hcs.
  intros [He Hr] Hk. rewrite (Hr k Hk). unfold cluster_sect.
  destruct (check_clust_pos _ _ (in_use_check _ _ (cl_in_use j ltac:(lia)))) as [Hj _]. cbv beta in Hj |- *.
  rewrite !(proj2 (Z.ltb_lt _ _)) by lia. lia.
Qed.

Lemma run_on_volume j e : run j e ->
  on_volume (cluster_sect g (cl j)) (Z.of_nat (e - j + 1) * clust_size g).
Proof using Hcs Hg.
  intros Hr. pose proof (run_sect j e e Hr ltac:(destruct Hr; lia)) as He.
  destruct (in_use_data _ _ (cl_in_use e ltac:(destruct Hr; lia))) as [_ H2].
  destruct (in_use_data _ _ (cl_in_use j ltac:(destruct Hr; lia))) as [H1 _].
  split; [done|]. cbv beta in He, H2 |- *. rewrite He in H2. lia.
Qed.

(** The bytes read with a run. *)
Lemma run_bytes j e i : run j e ->
  bpc * Z.of_nat j <= i < bpc * Z.of_nat (e + 1) ->
  vol (512 * cluster_sect g (cl j) + (i - bpc * Z.of_nat j)) = file_byte g cs i.
Proof using Hcs Hg.
  intros Hr Hi. unfold file_byte. pose proof bpc_pos as Hb.
  assert (Hk : Z.of_nat j <= i / bpc < Z.of_nat (e + 1)).
  { split; [apply Z.div_le_lower_bound; lia|apply Z.div_lt_upper_bound; lia]. }
  pose proof (run_sect j e (Z.to_nat (i / bpc)) Hr ltac:(lia)) as ->. f_equal.
  replace (Z.of_nat (Z.to_nat (i / bpc) - j)) with (i / bpc - Z.of_nat j) by lia.
  pose proof (Z.div_mod i bpc ltac:(lia)) as Hdm. unfold bytesperclust, SECTOR_SIZE, FS_BLOCK_SIZE in Hdm |- *. nia.
Qed.

Lemma run_one e : (e < length cs)%nat -> run e e.
Proof using. split; [lia|]. intros k Hk. replace k with e by lia. cbv beta. lia. Qed.

(** Reading a run, or its beginning. *)
Lemma read_run j e b size : run j e -> 0 <= size <= bpc * Z.of_nat e - bpc * Z.of_nat j + bpc ->
  exists b1,
    get_cluster g (cl j) b (bpc * Z.of_nat j) size = (0, b1) /\
    forall i, b1 i = if (bpc * Z.of_nat j <=? i) && (i <? bpc * Z.of_nat j + size) then file_byte g cs i else b i.
Proof using Type*.
  intros Hr Hs. pose proof bpc_pos as Hb.
  destruct (get_cluster_spec g (cl j) b (bpc * Z.of_nat j) size (Z.of_nat (e - j + 1) * clust_size g)) as (b1 & E1 & H1);
    [|by apply run_on_volume|].
  { destruct Hr as [Hr _]. replace (Z.of_nat (e - j + 1)) with (Z.of_nat e - Z.of_nat j + 1) by lia.
    unfold bytesperclust, SECTOR_SIZE, FS_BLOCK_SIZE in Hs |- *. lia. }
  exists b1. split; [done|]. intros i. rewrite H1.
  destruct ((bpc * Z.of_nat j <=? i) && _) eqn:E; [|done]. rewrite andb_true_iff, Z.leb_le, Z.ltb_lt in E.
  apply (run_bytes j e); [done|]. rewrite Nat2Z.inj_add. lia.
Qed.

Lemma contents_loop_spec (F : Z) fuel j e st b :
  0 < F -> F + bpc < 2 ^ 31 -> F <= bpc * Z.of_nat (length cs) ->
  run j e -> bpc * Z.of_nat e < F -> cached g st -> (length cs - e <= fuel)%nat ->
  exists st' b',
    contents_loop fuel g st b (bpc * Z.of_nat j) (cl j) (cl e) (bpc * Z.of_nat (e - j + 1)) (F - bpc * Z.of_nat j)
      (bpc * Z.of_nat j) = Ret (st', b', F) /\
    (forall i, b' i = if (bpc * Z.of_nat j <=? i) && (i <? F) then file_byte g cs i else b i) /\
    cached g st' /\ cache_step st st'.
Proof using Type*.
  intros H0 HF Hlen. revert j e st b. induction fuel as [|fuel IH]; intros j e st b Hr He Hc Hfuel; [destruct Hr; lia|].
  pose proof bpc_pos as Hb. pose proof Hr as [Hje Hrun]. cbn [Fat.contents_loop].
  assert (Hej : bpc * Z.of_nat (e - j + 1) = bpc * Z.of_nat e - bpc * Z.of_nat j + bpc).
  { replace (Z.of_nat (e - j + 1)) with (Z.of_nat e - Z.of_nat j + 1) by lia. ring. }
  assert (Hje' : 0 <= bpc * Z.of_nat j <= bpc * Z.of_nat e) by nia.
  assert (HSe : bpc * Z.of_nat (S e) = bpc * Z.of_nat e + bpc) by (rewrite Nat2Z.inj_succ; ring). rewrite Hej.
  destruct (Z.ltb_spec (bpc * Z.of_nat e - bpc * Z.of_nat j + bpc) (F - bpc * Z.of_nat j)) as [Hmore|Hlast].
  - assert (Hn : (S e < length cs)%nat) by nia.
    destruct (get_fatent_step g st (cl e) Hg Hc (in_use_fat _ _ (cl_in_use e ltac:(lia)))) as (st1 & E1 & Hc1 & Hs1).
    cbv beta in E1. rewrite E1. rewrite (proj2 Hcs e Hn) in E1 |- *.
    pose proof (cl_in_use (S e) Hn) as Hu. cbv beta in Hu. pose proof (in_use_check _ _ Hu) as Hck.
    pose proof (check_clust_pos _ _ Hck) as Hpos. rewrite u32_small by lia.
    destruct (Z.eqb_spec (nth (S e) cs 0 - 1) (nth e cs 0)) as [Heq|Hne]; cbn [negb].
    + rewrite Hck. replace (u32 _) with (bpc * Z.of_nat (S e - j + 1)).
      2:{ replace (Z.of_nat (S e - j + 1)) with (Z.of_nat (S e) - Z.of_nat j + 1) by lia.
          rewrite u32_small by lia. rewrite Nat2Z.inj_succ. ring. }
      destruct (IH j (S e) st1 b) as (st' & b' & E & Hb' & Hc' & Hs'); [|lia|done|lia|].
      * split; [lia|]. intros k Hk. destruct (decide (k = S e)) as [->|]; [|apply Hrun; lia].
        specialize (Hrun e ltac:(lia)). cbv beta in Hrun |- *. lia.
      * exists st', b'. split; [done|]. split; [done|]. split; [done|]. by apply (cache_step_trans _ st1).
    + destruct (read_run j e b (bpc * Z.of_nat e - bpc * Z.of_nat j + bpc) Hr) as (b1 & E2 & H1); [lia|].
      cbv beta in E2. rewrite E2. cbn [Z.eqb negb].
      destruct (get_fatent_step g st1 (cl e) Hg Hc1 (in_use_fat _ _ (cl_in_use e ltac:(lia)))) as (st2 & E3 & Hc2 & Hs2).
      cbv beta in E3. rewrite E3. rewrite (proj2 Hcs e Hn), Hck.
      replace (u32 (bpc * Z.of_nat j + _)) with (bpc * Z.of_nat (S e)) by (rewrite u32_small; lia).
      replace (u32 (F - _ - _)) with (F - bpc * Z.of_nat (S e)) by (rewrite u32_small; lia).
      replace (bpc * Z.of_nat j + _) with (bpc * Z.of_nat (S e)) by lia.
      destruct (IH (S e) (S e) st2 b1) as (st' & b' & E & Hb' & Hc' & Hs'); [by apply run_one|lia|done|lia|].
      rewrite Nat.sub_diag in E. change (Z.of_nat (0 + 1)) with 1 in E. rewrite Z.mul_1_r in E.
      exists st', b'. split; [done|]. split; [|split; [done|]].
      * intros i. rewrite Hb', H1. replace (bpc * Z.of_nat j + _) with (bpc * Z.of_nat (S e)) by lia.
        apply split_range. lia.
      * by apply (cache_step_trans _ st1), (cache_step_trans _ st2).
  - replace (u32 (_ - bpc)) with (bpc * Z.of_nat e - bpc * Z.of_nat j) by (rewrite u32_small; lia).
    destruct (read_run j e b (bpc * Z.of_nat e - bpc * Z.of_nat j) Hr) as (b1 & E1 & H1); [lia|].
    cbv beta in E1. rewrite E1. cbn [Z.eqb negb].
    replace (u32 (F - _ - _)) with (F - bpc * Z.of_nat e) by (rewrite u32_small; lia).
    replace (bpc * Z.of_nat j + _) with (bpc * Z.of_nat e) in H1 |- * by lia.
    destruct (read_run e e b1 (F - bpc * Z.of_nat e) (run_one e ltac:(lia))) as (b2 & E2 & H2); [lia|].
    cbv beta in E2. rewrite E2. cbn [Z.eqb negb]. exists st, b2. split; [|split; [|split; [done|apply cache_step_refl]]].
    + do 2 f_equal. rewrite (u32_small (bpc * Z.of_nat e)) by lia. replace (_ + _) with F by lia.
      rewrite u32_small by lia. apply s32_small. lia.
    + intros i. rewrite H2, H1. replace (bpc * Z.of_nat e + _) with F by lia. apply split_range. lia.
Qed.

(** What [get_contents] reads, of a file that its chain is long enough for. *)
Lemma get_contents_spec fuel st d b maxsize F :
  F = (if (0 <? maxsize) && (maxsize <? entry_size d) then maxsize else entry_size d) ->
  0 < F -> F + bpc < 2 ^ 31 -> F <= bpc * Z.of_nat (length cs) -> START g d = nth 0 cs 0 ->
  cached g st -> (length cs <= fuel)%nat ->
  exists st' b',
    get_contents fuel g st d b maxsize = Ret (st', b', F) /\
    (forall i, b' i = if (0 <=? i) && (i <? F) then file_byte g cs i else b i) /\
    cached g st' /\ cache_step st st'.
Proof using Type*.
  intros HF H0 H31 Hlen Hd Hc Hf. unfold Fat.get_contents. rewrite <- HF, Hd.
  pose proof bpc_pos as Hb. pose proof (run_one 0 ltac:(destruct cs; cbn in *; lia)) as Hr.
  destruct (contents_loop_spec F fuel 0 0 st b H0 H31 Hlen Hr ltac:(lia) Hc ltac:(lia)) as (st' & b' & E & H).
  change (Z.of_nat 0) with 0 in *. change (Z.of_nat (0 - 0 + 1)) with 1 in E. rewrite Z.mul_0_r, Z.mul_1_r, Z.sub_0_r in E.
  rewrite Z.mul_0_r in H. exists st', b'. by split.
Qed.
End file.
(** *** Entries of directories *)

Local Abbreviation get_vfatname := (get_vfatname block_read part_offset junk).

Lemma get_vfatname_broken g st c b p lim :
  32 * lim = bytesperclust g -> skip_slots b (32 * p) (32 * lim) (Z.to_nat (slot_id b (32 * p))) = None ->
  get_vfatname g st c b (32 * p) = Ret (st, b, [], -1).
Proof using. intros Hl Hs. unfold Fat.get_vfatname. by rewrite <- Hl, Hs. Qed.

Lemma get_vfatname_long g st c b p lim n l :
  32 * lim = bytesperclust g -> 0 <= p -> p + Z.of_nat n < lim -> long_name_at b p n l ->
  get_vfatname g st c b (32 * p) =
  Ret (st, store_list b (32 * p) (dirent_at b (32 * (p + Z.of_nat n))), finish_name l, 0).
Proof using.
  intros Hl Hp Hn [H1 H2 H3 H4 H5]. unfold Fat.get_vfatname. rewrite <- Hl.
  pose proof (H2 0%nat H1) as H0. rewrite Z.add_0_r, Nat.sub_0_r in H0. rewrite H0, Nat2Z.id.
  pose proof (skip_slots_spec b p n n (32 * lim)) as Hs. rewrite Nat.sub_diag, Z.add_0_r in Hs.
  rewrite Hs by (done || lia). rewrite (proj2 (Z.leb_gt _ _)) by lia.
  replace (Z.to_nat (32 * (p + Z.of_nat n) / 32)) with (Z.to_nat p + n)%nat.
  2:{ rewrite Z.mul_comm, Z.div_mul by lia. lia. }
  rewrite slots_to_mark_spec by done. cbn [app mbind outcome_bind]. rewrite <- H4.
  by rewrite (proj2 (Z.leb_gt _ _)) by lia.
Qed.

(** An entry is the one that is looked for. *)
Definition named (name : list Z) (x : list Z * list Z) : bool :=
  bool_decide (name = get_name (fst x)) || bool_decide (name = snd x).

Lemma set_read_block_same st : set_read_block (read_block st) st = st.
Proof using. by destruct st. Qed.

Lemma set_dent_block_same st : set_dent_block (dent_block st) st = st.
Proof using. by destruct st. Qed.

Lemma entry_stored b p lim e :
  length e = 32%nat -> block_of_entries b (store_list b (32 * p) e) (p + 1) lim /\ dirent_at (store_list b (32 * p) e) (32 * p) = e.
Proof using.
  intros He. split.
  - intros a Ha. rewrite store_list_out; [done|]. lia.
  - unfold dirent_at. rewrite <- He. apply mem_list_store.
Qed.

Lemma block_of_entries_refl b i lim : block_of_entries b b i lim.
Proof using. done. Qed.

Lemma root_step_spec g st c name isdir p lim v :
  32 * lim = bytesperclust g -> 0 <= p < lim -> viewed false (read_block st) p lim v ->
  exists b c',
    block_of_entries (read_block st) b (p + 1) lim /\
    root_step block_read part_offset junk g st c name isdir 0 p =
    Ret match v with
        | Some x =>
          if named name x then
            if isdir && negb (flag (attr (fst x)) ATTR_DIR) then End (set_read_block b st) (-1)
            else Found (set_read_block b st) (fst x)
          else Next (set_read_block b st) c'
        | None => Next (set_read_block b st) c'
        end.
Proof using.
  intros Hl Hp Hv. unfold root_step. cbv zeta.
  destruct Hv as [Hs Hx|d -> Hx Hv Hl'|d -> Hx Hv H0|d -> Hx Hv Hl' Hb|d n l e -> Hx Hv Hl' Hn Hlim -> He]; [done|..];
    rewrite Hv; try rewrite Hl'.
  - exists (read_block st), c. split; [done|]. by rewrite set_read_block_same.
  - exists (read_block st), c. split; [done|]. rewrite (proj2 (Z.eqb_neq _ _)) by done. cbn [Z.eqb Pos.eqb LS_ROOT andb].
    rewrite set_read_block_same. unfold root_name, named. cbv zeta. cbn [Z.eqb Pos.eqb LS_ROOT fst snd].
    by destruct (_ || _).
  - rewrite (get_vfatname_broken _ _ _ _ _ lim) by done. cbn [mbind outcome_bind].
    exists (read_block st). eexists. split; [done|]. cbn [Z.eqb Pos.eqb LS_ROOT]. rewrite set_read_block_same.
    unfold root_name, named. cbv zeta. cbn [Z.eqb Pos.eqb LS_ROOT fst snd]. by destruct (_ || _).
  - rewrite (get_vfatname_long _ _ _ _ _ lim n l) by (done || lia). cbn [mbind outcome_bind].
    set (e := dirent_at (read_block st) (32 * (p + Z.of_nat n))) in *.
    destruct (entry_stored (read_block st) p lim e) as [E1 E2]; [apply mem_list_length|].
    exists (store_list (read_block st) (32 * p) e). eexists. split; [done|]. cbn [Z.eqb Pos.eqb LS_ROOT].
    unfold root_name, named. cbv zeta. cbn [Z.eqb Pos.eqb LS_ROOT fst snd read_block set_read_block]. rewrite E2.
    by destruct (_ || _).
Qed.

Lemma dent_name_shown st c name o l :
  rd (dirent_at (dent_block st) o) 0 <> 0 ->
  dent_name st c name 0 o l =
  let x := (dirent_at (dent_block st) o, l) in if named name x then Found st (fst x) else Next st c.
Proof using. intros H. unfold dent_name, named. cbv zeta. rewrite (proj2 (Z.eqb_neq _ _)) by done. done. Qed.

Lemma dent_step_spec g st c curclust name p lim v :
  32 * lim = bytesperclust g -> 0 <= p < lim -> viewed true (dent_block st) p lim v ->
  exists b c',
    block_of_entries (dent_block st) b (p + 1) lim /\
    dent_step block_read part_offset junk g st c curclust name 0 p =
    Ret match v with
        | Some x => if named name x then Found (set_dent_block b st) (fst x) else Next (set_dent_block b st) c'
        | None => Next (set_dent_block b st) c'
        end.
Proof using.
  intros Hl Hp Hv. unfold dent_step. cbv zeta.
  destruct Hv as [_ Hx|d -> [Hx|Hx] Hv Hl'|d -> [Hx|Hx] Hv H0|d -> [Hx|Hx] Hv Hl' Hb|d n l e -> [Hx|Hx] Hv Hl' Hn Hlim -> He];
    try discriminate Hx.
  { exists (dent_block st), c. split; [done|]. by rewrite Hx, Z.eqb_refl, set_dent_block_same. }
  all: rewrite (proj2 (Z.eqb_neq _ _) Hx), Hv; try rewrite Hl'.
  - exists (dent_block st), c. split; [done|]. by rewrite set_dent_block_same.
  - exists (dent_block st), c. split; [done|]. rewrite set_dent_block_same. by rewrite dent_name_shown.
  - rewrite (get_vfatname_broken _ _ _ _ _ lim) by done. cbn [mbind outcome_bind].
    exists (dent_block st). eexists. split; [done|]. rewrite set_dent_block_same. cbn [Z.eqb negb].
    rewrite dent_name_shown; [done|]. intros H0. unfold long_entry in Hl'. rewrite H0 in Hl'.
    by rewrite andb_comm in Hl'.
  - rewrite (get_vfatname_long _ _ _ _ _ lim n l) by (done || lia). cbn [mbind outcome_bind].
    set (e := dirent_at (dent_block st) (32 * (p + Z.of_nat n))) in *.
    destruct (entry_stored (dent_block st) p lim e) as [E1 E2]; [apply mem_list_length|].
    exists (store_list (dent_block st) (32 * p) e). eexists. split; [done|]. cbn [Z.eqb negb].
    rewrite dent_name_shown by (cbn [dent_block set_dent_block]; by rewrite E2).
    cbn [dent_block set_dent_block]. by rewrite E2.
Qed.

(** *** The walk through a directory *)

(** A block of which nothing but the entries before number [i] have changed. *)
Definition passed (sd : bool) (name : list Z) (b : mem) (p lim : Z) : Prop :=
  exists v, viewed sd b p lim v /\ match v with Some x => named name x = false | None => True end.

Definition found (sd : bool) (name : list Z) (b : mem) (p lim : Z) (d : list Z) : Prop :=
  exists x, viewed sd b p lim (Some x) /\ named name x = true /\ d = fst x.

Section scan.
Context (sd : bool) (name : list Z) (lim : Z).
Context (blk : fstate -> mem) (put : mem -> fstate -> fstate).
Context (blk_put : forall b st, blk (put b st) = b) (put_put : forall b b' st, put b (put b' st) = put b st).
Context (put_blk : forall st, put (blk st) st = st).
Context (hit : fstate -> list Z -> step) (body : fstate -> counters -> Z -> outcome step).
Context (body_spec : forall st c p v,
  0 <= p < lim -> viewed sd (blk st) p lim v ->
  exists b c', block_of_entries (blk st) b (p + 1) lim /\
    body st c p = Ret match v with
                      | Some x => if named name x then hit (put b st) (fst x) else Next (put b st) c'
                      | None => Next (put b st) c'
                      end).

(** [b0] is the block on the disk. *)
Lemma scan_passes b0 st c p :
  0 <= p < lim -> block_of_entries b0 (blk st) p lim -> passed sd name b0 p lim ->
  exists b c', block_of_entries b0 b (p + 1) lim /\ body st c p = Ret (Next (put b st) c').
Proof using body_spec.
  intros Hp Hb (v & Hv & Hm). destruct (body_spec st c p v Hp) as (b & c' & E1 & E2).
  { apply (viewed_ext _ b0); [done|lia|done]. }
  exists b, c'. split; [intros a Ha; rewrite Hb by lia; apply E1; lia|].
  rewrite E2. by destruct v as [x|]; [rewrite Hm|].
Qed.

Lemma scan_passed b0 n st c i :
  0 <= i -> i + Z.of_nat n <= lim -> block_of_entries b0 (blk st) i lim ->
  (forall p, i <= p < i + Z.of_nat n -> passed sd name b0 p lim) ->
  exists b c', scan body n st c i = Ret (Next (put b st) c').
Proof using Type*.
  revert st c i. induction n as [|n IH]; intros st c i Hi Hn Hb Hp; cbn [scan].
  - exists (blk st), c. by rewrite put_blk.
  - destruct (scan_passes b0 st c i ltac:(lia) Hb (Hp i ltac:(lia))) as (b & c' & E1 & ->). cbn [mbind outcome_bind].
    destruct (IH (put b st) c' (i + 1)) as (b' & c'' & E); [lia|lia|by rewrite blk_put|intros p Hp'; apply Hp; lia|].
    exists b', c''. by rewrite E, put_put.
Qed.

(** The entry at [k] ends the loop with [r]. *)
Lemma scan_stops (r : fstate -> step) b0 n st c i k :
  0 <= i <= k -> k < i + Z.of_nat n -> i + Z.of_nat n <= lim -> block_of_entries b0 (blk st) i lim ->
  (forall p, i <= p < k -> passed sd name b0 p lim) ->
  (forall st c, block_of_entries b0 (blk st) k lim -> exists b, body st c k = Ret (r (put b st))) ->
  (forall st st' c, r st <> Next st' c) ->
  exists b, scan body n st c i = Ret (r (put b st)).
Proof using body_spec put_put blk_put.
  intros Hi Hk Hn Hb Hp Hf Hh. revert st c i Hi Hk Hn Hb Hp.
  induction n as [|n IH]; intros st c i Hi Hk Hn Hb Hp; [lia|]. cbn [scan].
  destruct (Z.eq_dec i k) as [->|Hne].
  - destruct (Hf st c Hb) as (b & ->). exists b. cbn [mbind outcome_bind].
    destruct (r (put b st)) eqn:E; [by apply Hh in E|done..].
  - destruct (scan_passes b0 st c i ltac:(lia) Hb (Hp i ltac:(lia))) as (b & c' & E1 & ->). cbn [mbind outcome_bind].
    destruct (IH (put b st) c' (i + 1)) as (b' & E); [lia|lia|lia|by rewrite blk_put|intros p Hp'; apply Hp; lia|].
    exists b'. by rewrite E, put_put.
Qed.

Lemma found_stops b0 k d st c :
  0 <= k < lim -> found sd name b0 k lim d -> block_of_entries b0 (blk st) k lim ->
  exists b, body st c k = Ret (hit (put b st) d).
Proof using body_spec.
  intros Hk (x & Hv & Hm & ->) Hb. destruct (body_spec st c k (Some x) Hk) as (b & c' & _ & ->).
  { apply (viewed_ext _ b0); [done|lia|done]. }
  exists b. by rewrite Hm.
Qed.
End scan.

(** The root directory from one of its sectors on, as far as a block reaches. *)
Definition entries_per_cluster (g : fsdata) : Z := 16 * clust_size g.
Definition root_block (g : fsdata) (s : Z) : mem := fun a => vol (512 * (rootdir_sect g + s) + a).

Definition root_passes (g : fsdata) (name : list Z) (p : Z) : Prop :=
  passed false name (root_block g (p / 16)) (p mod 16) (entries_per_cluster g).
Definition root_finds (g : fsdata) (name : list Z) (p : Z) (d : list Z) : Prop :=
  found false name (root_block g (p / 16)) (p mod 16) (entries_per_cluster g) d.

(** The entry that ends the root directory. *)
Definition root_last (g : fsdata) (p : Z) : Prop :=
  let d := dirent_at (root_block g (p / 16)) (32 * (p mod 16)) in flag (attr d) ATTR_VOLUME = false /\ rd d 0 = 0.

(** How the search in the root directory ends at an entry. *)
Inductive root_ends (g : fsdata) (name : list Z) (isdir : bool) (P : Z) : list Z + Z -> Prop :=
  | root_ends_found d :
      root_finds g name P d -> (isdir = true -> flag (attr d) ATTR_DIR = true) -> root_ends g name isdir P (inl d)
  | root_ends_file d :
      root_finds g name P d -> isdir = true -> flag (attr d) ATTR_DIR = false -> root_ends g name isdir P (inr (-1))
  | root_ends_last : root_last g P -> root_ends g name isdir P (inr (-1)).

Definition step_of (x : list Z + Z) (st : fstate) : step :=
  match x with inl d => Found st d | inr r => End st r end.

Lemma root_body g name isdir st c p v :
  0 <= p < entries_per_cluster g -> viewed false (read_block st) p (entries_per_cluster g) v ->
  exists b c', block_of_entries (read_block st) b (p + 1) (entries_per_cluster g) /\
    root_step block_read part_offset junk g st c name isdir 0 p =
    Ret match v with
        | Some x => if named name x then
            (fun st d => if isdir && negb (flag (attr d) ATTR_DIR) then End st (-1) else Found st d)
              (set_read_block b st) (fst x) else Next (set_read_block b st) c'
        | None => Next (set_read_block b st) c'
        end.
Proof using.
  intros. apply root_step_spec; [|done..]. unfold entries_per_cluster, bytesperclust, SECTOR_SIZE, FS_BLOCK_SIZE. lia.
Qed.

Lemma root_stops g name isdir P x st c :
  1 <= clust_size g -> root_ends g name isdir P x ->
  block_of_entries (root_block g (P / 16)) (read_block st) (P mod 16) (entries_per_cluster g) ->
  exists b, root_step block_read part_offset junk g st c name isdir 0 (P mod 16) = Ret (step_of x (set_read_block b st)).
Proof using.
  intros Hcl Hx Hb. assert (HP : 0 <= P mod 16 < entries_per_cluster g).
  { unfold entries_per_cluster. pose proof (Z.mod_pos_bound P 16 ltac:(lia)). lia. }
  destruct Hx as [d Hf Hd|d Hf -> Hd|[Hv H0]].
  - destruct (found_stops _ _ _ read_block set_read_block _ _ (root_body g name isdir) _ _ d st c HP Hf Hb) as (b & E).
    exists b. rewrite E. destruct isdir; cbn [andb]; [rewrite Hd by done|]; done.
  - destruct (found_stops _ _ _ read_block set_read_block _ _ (root_body g name true) _ _ d st c HP Hf Hb) as (b & E).
    exists b. by rewrite E, Hd.
  - exists (read_block st). rewrite set_read_block_same. unfold root_step. cbv zeta.
    rewrite <- (dirent_ext _ _ (P mod 16) (entries_per_cluster g) _ Hb) by lia. by rewrite Hv, H0.
Qed.

Lemma root_loop_spec g name isdir P x fuel s st c :
  sound g -> 0 <= rootdir_sect g -> 0 <= s -> 16 * s <= P ->
  on_volume (rootdir_sect g + P / 16) (clust_size g) ->
  (forall p, 16 * s <= p < P -> root_passes g name p) -> root_ends g name isdir P x ->
  P / 16 - s < Z.of_nat fuel ->
  exists b, root_loop block_read part_offset junk fuel g st c (rootdir_sect g + s) name isdir 0 =
    Ret (set_read_block b st, x).
Proof using Type*.
  intros Hg Hr Hs HsP [_ Hv] Hp Hf. pose proof (sound_clust _ Hg) as Hcl.
  revert s st c Hs HsP Hp. induction fuel as [|fuel IH]; intros s st c Hs HsP Hp Hfuel;
    [Z.div_mod_to_equations; lia|]. cbn [root_loop].
  assert (HP : 16 * (P / 16) <= P < 16 * (P / 16) + 16) by (Z.div_mod_to_equations; lia).
  rewrite u32_small by lia.
  destruct (disk_read_spec (rootdir_sect g + s) (clust_size g) (read_block st) 0) as (b & -> & Hb); [lia..|].
  replace (clust_size g <? 0) with false by lia.
  assert (Hb0 : block_of_entries (root_block g s) (read_block (set_read_block b st)) 0 (entries_per_cluster g)).
  { intros a Ha. cbn [read_block set_read_block]. rewrite Hb. unfold entries_per_cluster in Ha.
    replace ((0 <=? a) && (a <? 0 + 512 * clust_size g)) with true by lia. unfold root_block. f_equal. lia. }
  change (Z.to_nat DIRENTSPERBLOCK) with 16%nat.
  assert (Hpass : forall p, 0 <= p < 16 -> 16 * s + p < P -> passed false name (root_block g s) p (entries_per_cluster g)).
  { intros p Hp1 Hp2. specialize (Hp (16 * s + p) ltac:(lia)). unfold root_passes in Hp.
    replace ((16 * s + p) / 16) with s in Hp by (Z.div_mod_to_equations; lia).
    by replace ((16 * s + p) mod 16) with p in Hp by (Z.div_mod_to_equations; lia). }
  destruct (Z.eq_dec (P / 16) s) as [Hlast|Hnot].
  - destruct (scan_stops false name (entries_per_cluster g) read_block set_read_block ltac:(done) ltac:(done)
      _ (fun st c => root_step block_read part_offset junk g st c name isdir 0) (root_body g name isdir) (step_of x)
      (root_block g s) 16 (set_read_block b st) c 0 (P mod 16)) as (b' & ->).
    all: try (unfold entries_per_cluster; Z.div_mod_to_equations; lia).
    + done.
    + intros p Hp'. apply Hpass; Z.div_mod_to_equations; lia.
    + intros st' c' Hb'. apply (root_stops g name isdir P x); [lia|done|by rewrite Hlast].
    + intros st' st2 c'. by destruct x.
    + exists b'. by destruct x.
  - destruct (scan_passed false name (entries_per_cluster g) read_block set_read_block ltac:(done) ltac:(done)
      set_read_block_same _ (fun st c => root_step block_read part_offset junk g st c name isdir 0) (root_body g name isdir)
      (root_block g s) 16 (set_read_block b st) c 0) as (b' & c' & ->).
    + lia.
    + unfold entries_per_cluster. lia.
    + done.
    + intros p Hp'. apply Hpass; lia.
    + cbn [mbind outcome_bind]. destruct (IH (s + 1) (set_read_block b' (set_read_block b st)) c') as (b2 & E).
      * lia.
      * lia.
      * intros p Hp'. apply Hp. lia.
      * lia.
      * exists b2. rewrite Z.add_assoc in E. by rewrite E.
Qed.

(** A directory in a chain of clusters. *)
Definition dir_block (g : fsdata) (cs : list Z) (k : Z) : mem :=
  fun a => vol (512 * cluster_sect g (nth (Z.to_nat k) cs 0) + a).

Definition dir_passes (g : fsdata) (cs : list Z) (name : list Z) (p : Z) : Prop :=
  passed true name (dir_block g cs (p / entries_per_cluster g)) (p mod entries_per_cluster g) (entries_per_cluster g).
Definition dir_finds (g : fsdata) (cs : list Z) (name : list Z) (p : Z) (d : list Z) : Prop :=
  found true name (dir_block g cs (p / entries_per_cluster g)) (p mod entries_per_cluster g) (entries_per_cluster g) d.

(** Only the buffer of the table and the blocks have changed. *)
Definition quiet (g : fsdata) (st st' : fstate) : Prop := cached g st' /\ console st' = console st.

Lemma cached_blocks g st b : cached g st -> cached g (set_read_block b st) /\ cached g (set_dent_block b st).
Proof using. done. Qed.

Lemma dent_loop_spec g cs name P d fuel k st c :
  sound g -> chain g cs ->
  entries_per_cluster g * Z.of_nat k <= P < entries_per_cluster g * Z.of_nat (length cs) ->
  (forall p, entries_per_cluster g * Z.of_nat k <= p < P -> dir_passes g cs name p) -> dir_finds g cs name P d ->
  cached g st -> (length cs - k <= fuel)%nat ->
  exists st', dent_loop block_read part_offset junk fuel g st c (nth k cs 0) name 0 = Ret (st', Some d) /\ quiet g st st'.
Proof using Type*.
  intros Hg Hcs HP Hp Hf. pose proof (sound_clust _ Hg) as Hcl.
  set (epc := entries_per_cluster g) in *. assert (He : epc = 16 * clust_size g) by done.
  assert (Hbody : forall curclust st c p v, 0 <= p < epc -> viewed true (dent_block st) p epc v ->
    exists b c', block_of_entries (dent_block st) b (p + 1) epc /\
      dent_step block_read part_offset junk g st c curclust name 0 p =
      Ret match v with
          | Some x => if named name x then Found (set_dent_block b st) (fst x) else Next (set_dent_block b st) c'
          | None => Next (set_dent_block b st) c'
          end).
  { intros. apply dent_step_spec; [|done..]. rewrite He. unfold bytesperclust, SECTOR_SIZE, FS_BLOCK_SIZE. lia. }
  revert k st c HP Hp. induction fuel as [|fuel IH]; intros k st c HP Hp Hc Hfuel; [nia|]. cbn [dent_loop].
  assert (Hk : (k < length cs)%nat) by nia.
  pose proof (cl_in_use g cs Hcs k Hk) as Hu. cbv beta in Hu.
  destruct (get_cluster_spec g (nth k cs 0) (dent_block st) 0 (bytesperclust g) (clust_size g)) as (b & -> & Hb).
  { unfold bytesperclust, SECTOR_SIZE, FS_BLOCK_SIZE. lia. }
  { apply (in_use_data _ _ Hu). }
  cbn [Z.eqb negb].
  assert (Hb0 : block_of_entries (dir_block g cs (Z.of_nat k)) (dent_block (set_dent_block b st)) 0 epc).
  { intros a Ha. cbn [dent_block set_dent_block]. rewrite Hb. unfold bytesperclust, SECTOR_SIZE, FS_BLOCK_SIZE.
    replace ((0 <=? a) && (a <? 0 + clust_size g * 512)) with true by lia. unfold dir_block. rewrite Nat2Z.id. f_equal. lia. }
  replace (Z.to_nat (DIRENTSPERCLUST g)) with (Z.to_nat epc).
  2:{ rewrite He. unfold DIRENTSPERCLUST, SECTOR_SIZE, FS_BLOCK_SIZE. f_equal. Z.div_mod_to_equations. lia. }
  assert (Hidx : forall p, 0 <= p < epc -> (epc * Z.of_nat k + p) / epc = Z.of_nat k /\ (epc * Z.of_nat k + p) mod epc = p).
  { intros p Hp'. split; [symmetry; apply (Z.div_unique _ _ _ p); lia|symmetry; apply (Z.mod_unique _ _ (Z.of_nat k)); lia]. }
  assert (Hpass : forall p, 0 <= p < epc -> epc * Z.of_nat k + p < P -> passed true name (dir_block g cs (Z.of_nat k)) p epc).
  { intros p Hp1 Hp2. specialize (Hp (epc * Z.of_nat k + p) ltac:(lia)). unfold dir_passes in Hp. fold epc in Hp.
    by rewrite (proj1 (Hidx p Hp1)), (proj2 (Hidx p Hp1)) in Hp. }
  destruct (decide (P < epc * Z.of_nat k + epc)) as [Hlast|Hnot].
  - unfold dir_finds in Hf. fold epc in Hf. destruct (Hidx (P - epc * Z.of_nat k) ltac:(lia)) as [E1 E2].
    replace (epc * Z.of_nat k + (P - epc * Z.of_nat k)) with P in E1, E2 by lia. rewrite E1, E2 in Hf.
    destruct (scan_stops true name epc dent_block set_dent_block ltac:(done) ltac:(done) Found
      (fun st c => dent_step block_read part_offset junk g st c (nth k cs 0) name 0) (Hbody (nth k cs 0)) (fun st => Found st d)
      (dir_block g cs (Z.of_nat k)) (Z.to_nat epc) (set_dent_block b st) c 0 (P - epc * Z.of_nat k)) as (b' & ->).
    all: try lia; try done.
    + intros p Hp'. apply Hpass; lia.
    + intros st' c' Hb'. apply (found_stops _ _ _ dent_block set_dent_block Found _ (Hbody (nth k cs 0))
        (dir_block g cs (Z.of_nat k)) (P - epc * Z.of_nat k) d st' c'); [lia|exact Hf|exact Hb'].
    + cbn [mbind outcome_bind]. eexists. split; [done|]. by split.
  - destruct (scan_passed true name epc dent_block set_dent_block ltac:(done) ltac:(done) set_dent_block_same Found
      (fun st c => dent_step block_read part_offset junk g st c (nth k cs 0) name 0) (Hbody (nth k cs 0))
      (dir_block g cs (Z.of_nat k)) (Z.to_nat epc) (set_dent_block b st) c 0) as (b' & c' & ->).
    all: try lia; try done.
    { intros p Hp'. apply Hpass; lia. }
    cbn [mbind outcome_bind]. assert (Hk' : (S k < length cs)%nat) by nia.
    destruct (get_fatent_step g (set_dent_block b' (set_dent_block b st)) (nth k cs 0) Hg Hc (in_use_fat _ _ Hu)) as (st1 & -> & Hc1 & Hs1).
    rewrite (proj2 Hcs k Hk').
    pose proof (cl_in_use g cs Hcs (S k) Hk') as Hu'. cbv beta in Hu'. rewrite (in_use_check _ _ Hu').
    destruct (IH (S k) st1 c') as (st' & E & Hc' & Ho); [lia|intros p Hp'; apply Hp; lia|done|lia|].
    exists st'. split; [done|]. split; [done|]. rewrite Ho. by destruct Hs1 as (? & ? & ->).
Qed.

(** From one entry to another by names; [n] bounds the clusters of the directories on the way. *)
Inductive leads (g : fsdata) (n : nat) : list Z -> list (list Z) -> list Z -> Prop :=
  | leads_here d : leads g n d [] d
  | leads_on d cs P name d1 rest d2 :
      chain g cs -> START g d = nth 0 cs 0 -> (length cs <= n)%nat ->
      0 <= P < entries_per_cluster g * Z.of_nat (length cs) ->
      (forall p, 0 <= p < P -> dir_passes g cs name p) -> dir_finds g cs name P d1 ->
      (rest <> [] -> flag (attr d1) ATTR_DIR = true) -> leads g n d1 rest d2 ->
      leads g n d (name :: rest) d2.

(** The bytes of a file of which [F] bytes are to be read. *)
Definition stored (g : fsdata) (n : nat) (d : list Z) (F : Z) (cs : list Z) : Prop :=
  F = 0 /\ on_volume (cluster_sect g (START g d)) 0 \/
  0 < F /\ F + bytesperclust g < 2 ^ 31 /\ chain g cs /\ START g d = nth 0 cs 0 /\
  F <= bytesperclust g * Z.of_nat (length cs) /\ (length cs <= n)%nat.

Definition read_size (d : list Z) (maxsize : Z) : Z :=
  if (0 <? maxsize) && (maxsize <? entry_size d) then maxsize else entry_size d.

Lemma get_contents_stored g n fuel st d b maxsize cs :
  sound g -> stored g n d (read_size d maxsize) cs -> cached g st -> (n < fuel)%nat ->
  exists st' b',
    get_contents fuel g st d b maxsize = Ret (st', b', read_size d maxsize) /\
    (forall i, b' i = if (0 <=? i) && (i <? read_size d maxsize) then file_byte g cs i else b i) /\
    quiet g st st'.
Proof using Type*.
  intros Hg [[H0 Hv]|(H0 & H31 & Hcs & Hs & Hlen & Hn)] Hc Hf.
  - unfold Fat.get_contents. fold (read_size d maxsize). rewrite H0. destruct fuel as [|fuel]; [lia|]. cbn [Fat.contents_loop].
    pose proof (bpc_pos g Hg) as Hb. rewrite (proj2 (Z.ltb_ge _ _)) by lia. rewrite Z.sub_diag. change (u32 0) with 0.
    destruct (get_cluster_spec g (START g d) b 0 0 0 ltac:(lia) Hv) as (b1 & -> & H1). cbn [Z.eqb negb].
    change (u32 (0 + 0)) with 0. change (u32 (0 - 0)) with 0. rewrite Z.add_0_r.
    destruct (get_cluster_spec g (START g d) b1 0 0 0 ltac:(lia) Hv) as (b2 & -> & H2). cbn [Z.eqb negb].
    exists st, b2. split; [done|]. split; [|by split]. intros i. rewrite H2, H1.
    change (0 + 0) with 0. by replace ((0 <=? i) && (i <? 0)) with false by lia.
  - destruct (get_contents_spec g cs Hg Hcs fuel st d b maxsize (read_size d maxsize) ltac:(done) H0 H31 Hlen Hs Hc ltac:(lia))
      as (st' & b' & E1 & E2 & E3 & E4).
    exists st', b'. split; [done|]. split; [done|]. split; [done|]. by destruct E4 as (? & ? & ->).
Qed.

Local Abbreviation path_loop := (path_loop block_read part_offset junk).

Lemma path_loop_spec g n fuel st d names file b maxsize cs :
  sound g -> Forall component names -> leads g n d names file -> stored g n file (read_size file maxsize) cs ->
  cached g st -> (n + length names < fuel)%nat ->
  exists st' b',
    path_loop fuel g st d (path names) (negb (length names =? 0)%nat) 0 true b maxsize = Ret (st', b', read_size file maxsize) /\
    (forall i, b' i = if (0 <=? i) && (i <? read_size file maxsize) then file_byte g cs i else b i) /\
    quiet g st st'.
Proof using Type*.
  intros Hg Hnames Hl Hs. revert fuel st Hnames.
  induction Hl as [d|d ds P name d1 rest d2 Hds Hd Hn HP Hp Hf Hdir Hl IH]; intros fuel st Hnames Hc Hfuel;
    (destruct fuel as [|fuel]; [lia|]); cbn [Fat.path_loop length Nat.eqb negb].
  - apply (get_contents_stored g n); [done..|cbn [length] in Hfuel; lia].
  - apply List.Forall_cons_iff in Hnames as [Hname Hrest].
    destruct (dent_loop_spec g ds name P d1 (S fuel) 0 st no_files Hg Hds) as (st1 & E1 & Hc1 & Ho1);
      [lia|intros p Hp'; apply Hp; lia|done|done|lia|]. rewrite <- Hd in E1. unfold get_dentfromdir.
    destruct rest as [|c' rest].
    + change (path [name]) with name. rewrite (dirdelim_last name Hname). cbn [Z.leb Z.compare Z.eqb negb andb].
      rewrite E1. cbn [mbind outcome_bind].
      destruct (IH Hs fuel st1 Hrest Hc1 ltac:(cbn [length] in Hfuel |- *; lia)) as (st' & b' & E & Hb' & Hc' & Ho').
      cbn [length Nat.eqb negb] in E. exists st', b'. split; [|split; [done|]]; [|by split; [done|]; rewrite <- Ho1; destruct Ho'].
      destruct fuel as [|fuel]; [cbn [length] in Hfuel; lia|]. exact E.
    + destruct (path_cut name c' rest Hname Hrest) as (-> & Hfirst & Hnext).
      rewrite (proj2 (Z.leb_le _ _)) by lia. rewrite Nat2Z.id, Hfirst, Hnext. cbn [Z.eqb negb andb].
      rewrite E1. cbn [mbind outcome_bind]. rewrite Hdir by done. cbn [negb].
      destruct (IH Hs fuel st1 Hrest Hc1 ltac:(cbn [length] in Hfuel |- *; lia)) as (st' & b' & E & Hb' & Hc' & Ho').
      exists st', b'. split; [done|]. split; [done|]. by split; [|rewrite <- Ho1].
Qed.

(** *** Volumes *)

Lemma parse_boot_ext b b' : (forall i, 0 <= i < 512 -> b i = b' i) -> parse_boot b = parse_boot b'.
Proof using.
  intros H. unfold parse_boot, boot_fields, le32, le16, FAT32_LENGTH, BOOT_SECTOR_SIZE, FS_TYPE. cbv zeta. cbn [fat_length].
  rewrite !H by lia. destruct (_ =? 0); rewrite (mem_list_ext b b') by (intros; apply H; lia); done.
Qed.

(** A volume with a boot sector. *)
Record mounted (g : fsdata) (bs : boot_sector) : Prop := {
  mounted_boot : parse_boot vol = Some (bs, fatsize g);
  mounted_geometry : g = geometry bs (fatsize g);
  mounted_sound : sound g;
  mounted_size : part_offset + 1 <= blocks }.

(** The entry that a path from the root directory leads to; [n] bounds the sectors of the root directory
    and the clusters of the others on the way. *)
Record path_to (g : fsdata) (n : nat) (first : list Z) (rest : list (list Z)) (P : Z) (d0 d : list Z) : Prop := {
  path_position : 0 <= P /\ P / 16 < Z.of_nat n;
  path_root : on_volume (rootdir_sect g + P / 16) (clust_size g);
  path_before : forall p, 0 <= p < P -> root_passes g first p;
  path_first : root_finds g first P d0;
  path_dir : rest <> [] -> flag (attr d0) ATTR_DIR = true;
  path_rest : leads g n d0 rest d }.

(** The boot sector and the root directory. *)
Lemma do_fat_read_root g bs first rest P x fuel blks filename buffer maxsize :
  mounted g bs -> Forall component (first :: rest) ->
  downcase (skip_delims filename) = path (first :: rest) -> Z.of_nat (length (path (first :: rest))) < FNAMECOPY_SIZE ->
  0 <= P -> P / 16 < Z.of_nat fuel -> on_volume (rootdir_sect g + P / 16) (clust_size g) ->
  (forall p, 0 <= p < P -> root_passes g first p) -> root_ends g first (negb (length rest =? 0)%nat) P x ->
  exists st,
    quiet g (set_fatbuf (fatbuf blks) (-1) blks) st /\
    do_fat_read block_read part_offset junk fuel blks filename buffer maxsize 0 =
    match x with
    | inl d0 => path_loop fuel g st d0 (path rest) (negb (length rest =? 0)%nat) 0 true buffer maxsize
    | inr r => Ret (st, buffer, r)
    end.
Proof using Type*.
  intros [Hboot Hgeo Hg Hsize] Hnames Hname Hlen HP Hfuel Hroot Hp Hx. unfold do_fat_read, read_bootsectandvi.
  destruct (disk_read_spec 0 1 junk 0) as (b0 & -> & Hb0); [lia..|]. cbn [Z.ltb Z.compare].
  rewrite (parse_boot_ext b0 vol), Hboot.
  2:{ intros i Hi. rewrite Hb0. replace ((0 <=? i) && (i <? 0 + 512 * 1)) with true by lia. f_equal. lia. }
  rewrite <- Hgeo, Hname. rewrite (proj2 (Z.leb_gt _ _)) by done.
  set (st0 := set_fatbuf (fatbuf blks) (-1) blks).
  assert (Hc0 : cached g st0) by by left.
  assert (Hrs : 0 <= rootdir_sect g) by (rewrite Hgeo; apply u16_range).
  destruct (root_loop_spec g first (negb (length rest =? 0)%nat) P x fuel 0 st0 no_files Hg Hrs ltac:(lia) ltac:(lia) Hroot)
    as (b1 & E1); [intros p Hp'; apply Hp; lia|done|lia|].
  rewrite Z.add_0_r in E1. apply List.Forall_cons_iff in Hnames as [Hfirst Hrest].
  assert (Hne : (length (path (first :: rest)) =? 0)%nat = false).
  { destruct Hfirst as [Hf1 _]. destruct first as [|c first]; [done|]. by destruct rest. }
  rewrite Hne. cbn [andb Z.eqb]. exists (set_read_block b1 st0). split; [by split|].
  destruct rest as [|c' rest].
  - change (path [first]) with first. rewrite (dirdelim_last first Hfirst). cbn [Z.leb Z.compare].
    cbn [length Nat.eqb negb] in E1 |- *. rewrite E1. by destruct x.
  - destruct (path_cut first c' rest Hfirst Hrest) as (-> & Hcut & Hnext).
    rewrite (proj2 (Z.leb_le _ _)) by lia. rewrite Nat2Z.id, Hcut, Hnext.
    cbn [length Nat.eqb negb] in E1 |- *. rewrite E1. by destruct x.
Qed.

(** Entries fetched one after the other. *)
Fixpoint fetch (g : fsdata) (st : fstate) (ns : list Z) : fstate * list Z :=
  match ns with
  | [] => (st, [])
  | n :: ns => let '(st, x) := get_fatent g st n in let '(st, l) := fetch g st ns in (st, x :: l)
  end.

Lemma fetch_spec g st ns :
  sound g -> cached g st -> Forall (fat_readable g) ns ->
  exists st', fetch g st ns = (st', map (fat_entry (fatsize g) (fat_of g)) ns) /\ cached g st'.
Proof using Device0 Hpart Hblocks Hbytes.
  intros Hg Hc Hns. revert st Hc. induction Hns as [|n ns Hn Hns IH]; intros st Hc; cbn [fetch map]; [by exists st|].
  destruct (get_fatent_step g st n Hg Hc Hn) as (st1 & -> & Hc1 & _). destruct (IH st1 Hc1) as (st2 & -> & Hc2).
  by exists st2.
Qed.
End reading.

(** ** Theorems *)

(** C25: whatever order entries of a FAT12, FAT16 or FAT32 table are asked for in, [get_fatent] with its
    buffer of six blocks gives the entries of the table on the disk. *)
Theorem get_fatent_table block_read disk blocks `{!Device block_read disk blocks} part_offset g st ns :
  0 <= part_offset -> blocks < 2 ^ 31 -> bytes_of disk -> sound g -> fatbufnum st = -1 ->
  Forall (fat_readable (blocks := blocks) part_offset g) ns ->
  snd (fetch (block_read := block_read) part_offset g st ns) =
  map (fat_entry (fatsize g) (fat_of (disk := disk) part_offset g)) ns.
Proof.
  intros Hp Hb Hd Hg Hc Hns.
  destruct (fetch_spec (block_read := block_read) (disk := disk) (blocks := blocks) part_offset Hp Hb Hd g st ns Hg) as (st' & -> & _);
    [by left|done|done].
Qed.


(** when the search in the root directory reaches the entry that ends it without the first name of the
    path, or that name is a file where a directory is needed, [file_fat_read] returns -1 and leaves the memory as it
    was. *)
Theorem file_fat_read_missing block_read disk blocks `{!Device block_read disk blocks} part_offset junk
    g bs first rest P fuel blks filename buffer maxsize :
  0 <= part_offset -> blocks < 2 ^ 31 -> bytes_of disk ->
  mounted (disk := disk) (blocks := blocks) part_offset g bs -> Forall component (first :: rest) ->
  downcase (skip_delims filename) = path (first :: rest) -> Z.of_nat (length (path (first :: rest))) < FNAMECOPY_SIZE ->
  0 <= P -> P / 16 < Z.of_nat fuel -> on_volume (blocks := blocks) part_offset (rootdir_sect g + P / 16) (clust_size g) ->
  (forall p, 0 <= p < P -> root_passes (disk := disk) part_offset g first p) ->
  root_ends (disk := disk) part_offset g first (negb (length rest =? 0)%nat) P (inr (-1)) ->
  exists st,
    file_fat_read block_read part_offset junk fuel blks filename buffer maxsize = Ret (st, buffer, -1) /\
    console st = console blks ++ [Reading filename].
Proof.
  intros Hp Hb Hd Hm Hnames Hname Hlen HP Hfuel Hroot Hpass Hx. unfold file_fat_read, LS_NO.
  destruct (do_fat_read_root part_offset Hp Hb Hd junk g bs first rest P (inr (-1)) fuel (say (Reading filename) blks) filename buffer
    maxsize Hm Hnames Hname Hlen HP Hfuel Hroot Hpass Hx) as (st & [_ Ho] & ->).
  exists st. by split.
Qed.

(** ** An example volume *)

Lemma bytes_of_store m a l : bytes_of m -> byte_list l -> bytes_of (store_list m a l).
Proof.
  intros Hm Hl. revert m a Hm. induction Hl as [|x l Hx Hl IH]; intros m a Hm; cbn [store_list]; [done|].
  apply IH. intros b. unfold upd. destruct (b =? a); [done|apply Hm].
Qed.

Definition dir_bytes (name : list Z) (at_ cluster size : Z) : list Z :=
  name ++ [at_] ++ repeat 0 14 ++ [cluster; 0; size mod 256; size / 256; 0; 0].

Definition slot_bytes (id : Z) (text : list Z) : list Z :=
  let c := rd text in
  [id; c 0; 0; c 1; 0; c 2; 0; c 3; 0; c 4; 0; 15; 0; 0; c 5; 0; c 6; 0; c 7; 0; c 8; 0; c 9; 0; c 10; 0; 0; 0; c 11; 0; c 12; 0].

(** "1LABEL     ", "DIR        ", ".          ", "LONGNA~1TXT", "Long Name.txt" *)
Definition name_label : list Z := [49; 76; 65; 66; 69; 76; 32; 32; 32; 32; 32].
Definition name_dir : list Z := [68; 73; 82; 32; 32; 32; 32; 32; 32; 32; 32].
Definition name_dot : list Z := [46; 32; 32; 32; 32; 32; 32; 32; 32; 32; 32].
Definition name_short : list Z := [76; 79; 78; 71; 78; 65; 126; 49; 84; 88; 84].
Definition text_long : list Z := [76; 111; 110; 103; 32; 78; 97; 109; 101; 46; 116; 120; 116].

(** FAT12 with clusters of a sector; the file has the clusters 3, 5 and 6. *)
Definition boot_bytes : list Z :=
  repeat 0 13 ++ [1; 1; 0; 1; 16; 0; 0; 0; 0; 1; 0] ++ repeat 0 30 ++ FAT12_SIGN.
Definition fat_bytes_ : list Z := [0xf0; 0xff; 0xff; 0xff; 0x5f; 0; 0xff; 0x6f; 0; 0xff; 0x0f; 0].

Definition example_volume : mem :=
  let put m s l := store_list m (512 * s) l in
  let m := put (fun _ => 0) 1 boot_bytes in
  let m := put m 2 fat_bytes_ in
  let m := put m 3 (dir_bytes name_label 8 0 0 ++ dir_bytes name_dir 16 2 0) in
  let m := put m 4 (dir_bytes name_dot 16 2 0 ++ slot_bytes 0x41 text_long ++ dir_bytes name_short 32 3 1030) in
  let m := put m 5 [11] in let m := put m 7 [22] in put m 8 [33].

Definition example_boot : boot_sector := Boot_sector_ 1 1 1 16 1 0.
Definition example_geometry : fsdata := Fsdata 12 1 1 2 1 1.

Lemma example_bytes : bytes_of example_volume.
Proof.
  unfold example_volume. repeat (apply bytes_of_store; [|by apply (bool_decide_unpack _); vm_compute]).
  intros a. unfold is_byte. lia.
Qed.

Lemma example_mounted : mounted (disk := example_volume) (blocks := 64) 1 example_geometry example_boot.
Proof. constructor; [by vm_compute|by vm_compute| |lia]. constructor; [by left|cbn; lia..]. Qed.

Lemma example_in_use c : 2 <= c < 16 -> in_use (blocks := 64) 1 example_geometry c.
Proof.
  intros Hc. constructor.
  - unfold CHECK_CLUST. cbn [fatsize example_geometry Z.eqb Pos.eqb]. lia.
  - split; [lia|]. cbn [fatsize example_geometry fat_sect per_buffer Z.eqb Pos.eqb].
    rewrite Z.div_small by (unfold per_buffer; cbn; lia). lia.
  - unfold on_volume, cluster_sect. rewrite (proj2 (Z.ltb_lt _ _)) by lia. cbn [example_geometry data_begin clust_size]. lia.
Qed.

(** The directory entries on the way. *)
Definition entry_dir : list Z := dir_bytes name_dir 16 2 0.
Definition entry_file : list Z := dir_bytes name_short 32 3 1030.

(** "dir", "long name.txt", "/DIR/Long name.TXT" *)
Definition str_dir : list Z := [100; 105; 114].
Definition str_long : list Z := [108; 111; 110; 103; 32; 110; 97; 109; 101; 46; 116; 120; 116].
Definition str_path : list Z := [47; 68; 73; 82; 47; 76; 111; 110; 103; 32; 110; 97; 109; 101; 46; 84; 88; 84].

Lemma example_path :
  path_to (disk := example_volume) (blocks := 64) 1 example_geometry 3 str_dir [str_long] 1 entry_dir entry_file.
Proof.
  constructor.
  - by vm_compute.
  - by vm_compute.
  - intros p Hp. replace p with 0 by lia. exists None. split; [|done].
    eapply view_label; [done|by left|by vm_compute|by vm_compute].
  - exists (entry_dir, []). split; [|by vm_compute].
    replace entry_dir with (dirent_at (root_block (disk := example_volume) 1 example_geometry (1 / 16)) (32 * (1 mod 16))) by by vm_compute.
    eapply view_short; [done|by left|by vm_compute|by vm_compute].
  - by vm_compute.
  - apply leads_on with (cs := [2]) (P := 1) (d1 := entry_file).
    + split; [constructor; [by apply example_in_use|constructor]|intros k Hk; cbn in Hk; lia].
    + by vm_compute.
    + cbn; lia.
    + split; by vm_compute.
    + intros p Hp. replace p with 0 by lia.
      eexists (Some (_, [])). split; [eapply view_short; [done|by vm_compute; right|by vm_compute|by vm_compute]|by vm_compute].
    + exists (entry_file, str_long). split; [|by vm_compute].
      change (1 mod entries_per_cluster example_geometry) with 1. change (1 / entries_per_cluster example_geometry) with 0.
      change str_long with (finish_name text_long).
      eapply view_long with (n := 1%nat); [done|by vm_compute; right|by vm_compute|by vm_compute| |done|by vm_compute|by vm_compute].
      constructor; [lia| | |by vm_compute|by vm_compute]; intros k Hk; replace k with 0%nat by lia; by vm_compute.
    + done.
    + apply leads_here.
Qed.

Lemma example_components : Forall component [str_dir; str_long].
Proof.
  repeat (apply List.Forall_cons; [split; [done|by apply (bool_decide_unpack _); vm_compute]|]). apply List.Forall_nil.
Qed.

Definition no_blocks : fstate := Fstate (fun _ => 0) 0 (fun _ => 0) (fun _ => 0) (fun _ => 0) [].


Lemma file_fat_read_missing_witness :
  exists st,
    file_fat_read (read_from example_volume) 1 (fun _ => 0) 5 no_blocks str_long (fun _ => 255) 0 = Ret (st, (fun _ => 255), -1) /\
    console st = [Reading str_long].
Proof.
  apply (file_fat_read_missing (read_from example_volume) example_volume 64 1 (fun _ => 0) example_geometry example_boot
    str_long [] 2 5 no_blocks str_long (fun _ => 255) 0).
  - lia.
  - lia.
  - apply example_bytes.
  - apply example_mounted.
  - apply (Forall_inv_tail example_components).
  - by vm_compute.
  - by vm_compute.
  - lia.
  - done.
  - by vm_compute.
  - intros p Hp. assert (Hc : p = 0 \/ p = 1) by lia. destruct Hc as [-> | ->].
    + exists None. split; [|done]. eapply view_label; [done|by left|by vm_compute|by vm_compute].
    + eexists (Some (_, [])). split; [eapply view_short; [done|by left|by vm_compute|by vm_compute]|by vm_compute].
  - apply root_ends_last. by vm_compute.
Defined.

Lemma get_fatent_table_witness :
  snd (fetch (block_read := read_from example_volume) 1 example_geometry
    (set_fatbuf (fun _ => 0) (-1) no_blocks) [3; 5; 6]) = [5; 6; 0xfff].
Proof.
  rewrite (get_fatent_table (read_from example_volume) example_volume 64 1 example_geometry _ [3; 5; 6]).
  - by vm_compute.
  - lia.
  - lia.
  - apply example_bytes.
  - apply example_mounted.
  - done.
  - repeat (constructor; [by apply example_in_use|]). constructor.
Defined.

(** ** Errors in the code *)

(** A driver that reports failure by reading no block is taken to have succeeded. *)
Fact failed_reads_unseen part_offset junk g c b o size :
  size mod 512 = 0 -> get_cluster (fun _ _ b _ => (0, b)) part_offset junk g c b o size = (0, b).
Proof. intros Hs. unfold get_cluster, disk_read, FS_BLOCK_SIZE. cbn. by rewrite Hs. Qed.

(** A FAT32 volume with tables of 20000 sectors, clusters of eight: cluster two would be at sector -25504. *)
Fact data_begin_overflows :
  let g := geometry (Boot_sector_ 8 32 2 0 0 20000) 32 in data_begin g + 2 * clust_size g = -25504.
Proof. by vm_compute. Qed.

(** The mark of the end of a FAT12 chain is a cluster like any other. *)
Fact fat12_end_unseen : CHECK_CLUST 0xfff 12 = false.
Proof. done. Qed.

(** A volume label with a letter at its start is taken for the entry of a long name, and found as a file. *)
Fact label_found :
  let m := store_list example_volume (512 * 3) (dir_bytes (77 :: tl name_label) 8 0 0) in
  let name := [109; 108; 97; 98; 101; 108] in
  match file_fat_read (read_from m) 1 (fun _ => 0) 5 no_blocks name (fun _ => 255) 0 with
  | Ret (_, _, r) => r = 0
  | _ => False
  end.
Proof. vm_compute. reflexivity. Qed.

(** The slots of a long name, all with the same text. *)
Fixpoint slots_of_name (n : nat) (mark : Z) (text : list Z) : list Z :=
  match n with
  | O => []
  | S k => slot_bytes (Z.of_nat n + mark) text ++ slots_of_name k 0 text
  end.

(** Twenty slots without an end put 260 characters into [l_name]. *)
Fact long_name_overflows :
  let b := store_list (fun _ => 0) 0 (slots_of_name 20 0x40 text_long ++ dir_bytes name_short 32 3 1030) in
  get_vfatname (fun _ _ b _ => (0, b)) 1 (fun _ => 0) (Fsdata 12 1 1 2 2 1) no_blocks 0 b 0 = Outside.
Proof. vm_compute. reflexivity. Qed.

(** The slots of a name at the end of a cluster, the entry in the next: the last slot of the cluster, which
    begins the name, is left out, and the entry itself is read as if it were a slot. *)
Definition split_volume : mem :=
  let put m s l := store_list m (512 * s) l in
  let m := put (fun _ => 0) 2 [0xf0; 0xff; 0xff; 0x03; 0xf0; 0xff] in
  let m := store_list m (512 * 4 + 32 * 14) (slot_bytes 0x42 text_long ++ slot_bytes 1 [97; 98; 99; 100; 101; 102; 103; 104; 105; 106; 107; 108; 109]) in
  put m 5 (dir_bytes name_short 32 3 1030).

Fact split_name_lost :
  let b := fun a => split_volume (512 * 4 + a) in
  match get_vfatname (read_from split_volume) 1 (fun _ => 0) example_geometry (set_fatbuf (fun _ => 0) (-1) no_blocks) 2 b (32 * 14) with
  | Ret (_, _, l_name, r) => (l_name, r) = ([111; 103; 97; 49; 120] ++ str_long, 0)
  | _ => False
  end.
Proof. vm_compute. reflexivity. Qed.
