(* ===== verification/Net.v ===== *)
(** The network stack above the driver: [net/net.c], with CONFIG_CMD_PING and
    CONFIG_IP_DEFRAG, one network device (without CONFIG_NET_MULTI), and without CDP, the network
    console and multicast.

    A packet buffer is an object of its own, a function from offsets to bytes; [be] is the byte order of
    the machine, which matters for checksums only.  An [IPaddr_t], which the code keeps in network order and only
    copies, masks and compares, is the number that its bytes make in that order; VLAN numbers are in host order.
    What [eth_send] is given is the list [sent].  [NetReceive] ends with the call of the packet handler; the call is
    its result, since most handlers are in other files. *)

From S2P Require Import Prelude CString Vsprintf Defrag.

Abbreviation Data := (list Z).

Definition ARP_TIMEOUT : Z := 5000.
Definition ARP_TIMEOUT_COUNT : Z := 5.
Definition ETHER_HDR_SIZE : Z := 14.
Definition E802_HDR_SIZE : Z := 22.
Definition VLAN_ETHER_HDR_SIZE : Z := 18.
Definition IP_HDR_SIZE : Z := 28.
Definition ARP_HDR_SIZE : Z := 28.
Definition PROT_IP : Z := 0x0800.
Definition PROT_ARP : Z := 0x0806.
Definition PROT_RARP : Z := 0x8035.
Definition PROT_VLAN : Z := 0x8100.
Definition IPPROTO_ICMP : Z := 1.
Definition IPPROTO_UDP : Z := 17.
Definition IP_FLAGS_DFRAG : Z := 0x4000.
Definition ARP_ETHER : Z := 1.
Definition ARPOP_REQUEST : Z := 1.
Definition ARPOP_REPLY : Z := 2.
Definition RARPOP_REPLY : Z := 4.
Definition ICMP_ECHO_REPLY : Z := 0.
Definition ICMP_REDIRECT : Z := 5.
Definition ICMP_ECHO_REQUEST : Z := 8.
Definition ICMP_REDIR_HOST : Z := 1.
Definition VLAN_NONE : Z := 4095.
Definition VLAN_IDMASK : Z := 0x0fff.
Definition NETLOOP_CONTINUE : Z := 1.
Definition NETLOOP_RESTART : Z := 2.
Definition NETLOOP_SUCCESS : Z := 3.
Definition NETLOOP_FAIL : Z := 4.

Definition NetBcastAddr : Data := repeat 255 6.
Definition NetEtherNullAddr : Data := repeat 0 6.

(** ** State *)

(** Addresses of this machine and its server. *)
Record ours : Type := Ours {
  NetOurIP : Z; NetOurSubnetMask : Z; NetOurGatewayIP : Z; NetServerIP : Z;
  NetOurEther : Data; NetServerEther : Data; NetOurVLAN : Z; NetOurNativeVLAN : Z }.

(** The arrays that a pointer to an Ethernet address leads to. *)
Inductive mac_ref : Type := Server_ether | Bcast_ether | Ping_mac.

(** The packet that waits for an address. *)
Record arp_wait : Type := Arp_wait {
  NetArpWaitPacketIP : Z; NetArpWaitReplyIP : Z; NetArpWaitPacketMAC : option mac_ref;
  NetArpWaitTxPacket : mem; NetArpWaitTxPacketSize : Z; NetArpWaitTimerStart : Z; NetArpWaitTry : Z }.

Inductive handler : Type := PingHandler_ | startAgainHandler.
Inductive timer : Type := PingTimeout_ | startAgainTimeout.

(** The loop. *)
Record looping : Type := Looping {
  NetState : Z; NetTryCount : Z; packetHandler : handler; timeHandler : option timer; timeStart : Z; timeDelta : Z }.

Record pinging : Type := Pinging { mac : Data; NetPingIP : Z; PingSeqNo : Z }.

Inductive message : Type :=
  | Gateway_needed | Arp_retries_exceeded | Bad_length (size : Z) | Invalid_rarp | Len_bad (size ip_size : Z)
  | Checksum_bad | Host_redirect (gateway : Data) | Udp_checksum_wrong (xsum udp_xsum : Z) | Abort_
  | No_ping_address | No_serverip | No_ipaddr | No_ethaddr.

Record net : Type := Net {
  own : ours; arp : arp_wait; loop : looping; ping : pinging;
  NetTxPacket : mem; NetIPID : Z; frags : defrag; sent : list Data; console : list message }.

Definition set_own (f : ours -> ours) (n : net) : net :=
  Net (f (own n)) (arp n) (loop n) (ping n) (NetTxPacket n) (NetIPID n) (frags n) (sent n) (console n).
Definition set_arp (f : arp_wait -> arp_wait) (n : net) : net :=
  Net (own n) (f (arp n)) (loop n) (ping n) (NetTxPacket n) (NetIPID n) (frags n) (sent n) (console n).
Definition set_loop (f : looping -> looping) (n : net) : net :=
  Net (own n) (arp n) (f (loop n)) (ping n) (NetTxPacket n) (NetIPID n) (frags n) (sent n) (console n).
Definition set_ping (f : pinging -> pinging) (n : net) : net :=
  Net (own n) (arp n) (loop n) (f (ping n)) (NetTxPacket n) (NetIPID n) (frags n) (sent n) (console n).
Definition set_tx (m : mem) (n : net) : net :=
  Net (own n) (arp n) (loop n) (ping n) m (NetIPID n) (frags n) (sent n) (console n).
Definition set_id (i : Z) (n : net) : net :=
  Net (own n) (arp n) (loop n) (ping n) (NetTxPacket n) i (frags n) (sent n) (console n).
Definition set_frags (s : defrag) (n : net) : net :=
  Net (own n) (arp n) (loop n) (ping n) (NetTxPacket n) (NetIPID n) s (sent n) (console n).
Definition eth_send (p : Data) (n : net) : net :=
  Net (own n) (arp n) (loop n) (ping n) (NetTxPacket n) (NetIPID n) (frags n) (sent n ++ [p]) (console n).
Definition puts (x : message) (n : net) : net :=
  Net (own n) (arp n) (loop n) (ping n) (NetTxPacket n) (NetIPID n) (frags n) (sent n) (console n ++ [x]).

Definition set_state (s : Z) : net -> net := set_loop (fun l =>
  Looping s (NetTryCount l) (packetHandler l) (timeHandler l) (timeStart l) (timeDelta l)).

Definition NetSetHandler (f : handler) : net -> net := set_loop (fun l =>
  Looping (NetState l) (NetTryCount l) f (timeHandler l) (timeStart l) (timeDelta l)).

(** [now] is what [get_timer(0)] gives. *)
Definition NetSetTimeout (now iv : Z) (f : timer) : net -> net := set_loop (fun l =>
  if iv =? 0 then Looping (NetState l) (NetTryCount l) (packetHandler l) None (timeStart l) (timeDelta l)
  else Looping (NetState l) (NetTryCount l) (packetHandler l) (Some f) now iv).

Definition mac_at (r : mac_ref) (n : net) : Data :=
  match r with Server_ether => NetServerEther (own n) | Bcast_ether => NetBcastAddr | Ping_mac => mac (ping n) end.

Definition set_mac_at (r : mac_ref) (a : Data) (n : net) : net :=
  match r with
  | Server_ether => set_own (fun o =>
      Ours (NetOurIP o) (NetOurSubnetMask o) (NetOurGatewayIP o) (NetServerIP o) (NetOurEther o) a (NetOurVLAN o)
        (NetOurNativeVLAN o)) n
  | Bcast_ether => n
  | Ping_mac => set_ping (fun p => Pinging a (NetPingIP p) (PingSeqNo p)) n
  end.

(** ** Numbers in packets *)

Definition ip_bytes (ip : Z) : Data := [u8 (Z.shiftr ip 24); u8 (Z.shiftr ip 16); u8 (Z.shiftr ip 8); u8 ip].
Definition NetReadIP (m : mem) (a : Z) : Z := 2 ^ 24 * m a + 2 ^ 16 * m (a + 1) + 2 ^ 8 * m (a + 2) + m (a + 3).
Definition NetWriteIP (m : mem) (a ip : Z) : mem := store_list m a (ip_bytes ip).

(** ** Headers *)

(** [myvlanid] *)
Definition vlan_id (vlan : Z) : Z := if vlan =? 0xffff then VLAN_NONE else vlan.
Definition no_vlan (vlan : Z) : bool := Z.land (vlan_id vlan) VLAN_IDMASK =? VLAN_NONE.

Definition NetEthHdrSize (n : net) : Z :=
  if no_vlan (NetOurVLAN (own n)) then ETHER_HDR_SIZE else VLAN_ETHER_HDR_SIZE.

(** [NetSetEther]: the buffer and the size of the header. *)
Definition NetSetEther (n : net) (m : mem) (addr : Data) (prot : Z) : mem * Z :=
  let m := store_list (store_list m 0 addr) 6 (NetOurEther (own n)) in
  if no_vlan (NetOurVLAN (own n)) then (put_net16 m 12 prot, ETHER_HDR_SIZE)
  else
    let m := put_net16 m 12 PROT_VLAN in
    let m := put_net16 m 14 (Z.land (vlan_id (NetOurVLAN (own n))) VLAN_IDMASK) in
    (put_net16 m 16 prot, VLAN_ETHER_HDR_SIZE).

Section Host.
Context (be : bool).

Fixpoint cksum_loop (m : mem) (p : Z) (len : nat) (xsum : Z) : Z :=
  match len with
  | O => xsum
  | S n => cksum_loop m (p + 2) n (u32 (xsum + get16 be m p))
  end.

Definition fold16 (xsum : Z) : Z := Z.land xsum 0xffff + Z.shiftr xsum 16.

Definition NetCksum (m : mem) (p len : Z) : Z :=
  Z.land (fold16 (fold16 (cksum_loop m p (Z.to_nat len) 0))) 0xffff.

Definition NetCksumOk (m : mem) (p len : Z) : bool := Z.land (NetCksum m p len + 1) 0xfffe =? 0.

(** [x = ~NetCksum(...)] for a [ushort] *)
Definition put_cksum (m : mem) (a p len : Z) : mem := put16 be m a (u16 (Z.lnot (NetCksum m p len))).

(** The first words of an IP header, up to the checksum, which is set to zero, and the addresses. *)
Definition put_ip_header (n : net) (m : mem) (a len proto dest : Z) : mem :=
  let m := m.[a <- 0x45].[a + 1 <- 0] in
  let m := put_net16 m (a + 2) len in
  let m := put_net16 m (a + 4) (NetIPID n) in
  let m := put_net16 m (a + 6) IP_FLAGS_DFRAG in
  let m := m.[a + 8 <- 255].[a + 9 <- proto] in
  let m := put_net16 m (a + 10) 0 in
  NetWriteIP (NetWriteIP m (a + 12) (NetOurIP (own n))) (a + 16) dest.

Definition NetSetIP (n : net) (m : mem) (a dest dport sport len : Z) : net * mem :=
  let m := if Z.land len 1 =? 0 then m else m.[a + IP_HDR_SIZE + len <- 0] in
  let m := put_ip_header n m a (IP_HDR_SIZE + len) 17 dest in
  let m := put_net16 m (a + 20) sport in
  let m := put_net16 m (a + 22) dport in
  let m := put_net16 m (a + 24) (8 + len) in
  let m := put_net16 m (a + 26) 0 in
  (set_id (u32 (NetIPID n + 1)) n, put_cksum m (a + 10) a (IP_HDR_SIZE_NO_UDP / 2)).

(** ** Sending *)

Definition ArpRequest (n : net) : net :=
  let '(m, pkt) := NetSetEther n (NetTxPacket n) NetBcastAddr PROT_ARP in
  let m := put_net16 (put_net16 m pkt ARP_ETHER) (pkt + 2) PROT_IP in
  let m := put_net16 m.[pkt + 4 <- 6].[pkt + 5 <- 4] (pkt + 6) ARPOP_REQUEST in
  let m := NetWriteIP (store_list m (pkt + 8) (NetOurEther (own n))) (pkt + 14) (NetOurIP (own n)) in
  let m := store_list m (pkt + 18) (repeat 0 6) in
  let wait := NetArpWaitPacketIP (arp n) in
  let away := negb (Z.land wait (NetOurSubnetMask (own n)) =? Z.land (NetOurIP (own n)) (NetOurSubnetMask (own n))) in
  let n := if away && (NetOurGatewayIP (own n) =? 0) then puts Gateway_needed n else n in
  let reply := if away && negb (NetOurGatewayIP (own n) =? 0) then NetOurGatewayIP (own n) else wait in
  let m := NetWriteIP m (pkt + 24) reply in
  let n := set_arp (fun w => Arp_wait (NetArpWaitPacketIP w) reply (NetArpWaitPacketMAC w) (NetArpWaitTxPacket w)
    (NetArpWaitTxPacketSize w) (NetArpWaitTimerStart w) (NetArpWaitTry w)) n in
  eth_send (mem_list m 0 (Z.to_nat (pkt + ARP_HDR_SIZE))) (set_tx m n).

(** The result of [getenv("netretry")], and "yes", "no", "once" *)
Definition str_yes : Data := [121; 101; 115].
Definition str_no : Data := [110; 111].
Definition str_once : Data := [111; 110; 99; 101].

Definition NetStartAgain (now : Z) (nretry : option Data) (n : net) : net :=
  let '(forever, retrycnt) :=
    match nretry with
    | None => (true, 0)
    | Some s =>
      if bool_decide (s = str_yes) then (true, 0)
      else if bool_decide (s = str_no) then (false, 0)
      else if bool_decide (s = str_once) then (false, 1)
      else (false, fst (simple_strtoul s 0))
    end in
  if negb forever && (retrycnt <=? NetTryCount (loop n)) then set_state NETLOOP_FAIL n
  else
    let n := set_loop (fun l => Looping (NetState l) (NetTryCount l + 1) (packetHandler l) (timeHandler l) (timeStart l)
      (timeDelta l)) n in
    NetSetHandler startAgainHandler (NetSetTimeout now 10000 startAgainTimeout n).

Definition set_try (t : Z) : net -> net := set_arp (fun w =>
  Arp_wait (NetArpWaitPacketIP w) (NetArpWaitReplyIP w) (NetArpWaitPacketMAC w) (NetArpWaitTxPacket w)
    (NetArpWaitTxPacketSize w) (NetArpWaitTimerStart w) t).
Definition set_timer_start (t : Z) : net -> net := set_arp (fun w =>
  Arp_wait (NetArpWaitPacketIP w) (NetArpWaitReplyIP w) (NetArpWaitPacketMAC w) (NetArpWaitTxPacket w)
    (NetArpWaitTxPacketSize w) t (NetArpWaitTry w)).

Definition ArpTimeoutCheck (now : Z) (nretry : option Data) (n : net) : net :=
  if NetArpWaitPacketIP (arp n) =? 0 then n
  else if ARP_TIMEOUT <? u32 (now - NetArpWaitTimerStart (arp n)) then
    let n := set_try (NetArpWaitTry (arp n) + 1) n in
    if ARP_TIMEOUT_COUNT <=? NetArpWaitTry (arp n) then
      NetStartAgain now nretry (set_try 0 (puts Arp_retries_exceeded n))
    else ArpRequest (set_timer_start now n)
  else n.

(** A packet of [size] bytes put aside, and the request for the address of its destination. *)
Definition wait_for_mac (now : Z) (r : mac_ref) (ip : Z) (m : mem) (size : Z) (n : net) : net :=
  ArpRequest (set_arp (fun w => Arp_wait ip (NetArpWaitReplyIP w) (Some r) m size now 1) n).

(** [NetSendUDPPacket]; the [len] bytes of data are in [NetTxPacket] after room for the headers. *)
Definition NetSendUDPPacket (now : Z) (n : net) (ether : mac_ref) (dest dport sport len : Z) : net * Z :=
  let dest := if dest =? 0 then 0xFFFFFFFF else dest in
  let ether := if dest =? 0xFFFFFFFF then Bcast_ether else ether in
  if bool_decide (mac_at ether n = NetEtherNullAddr) then
    let '(m, pkt) := NetSetEther n (NetArpWaitTxPacket (arp n)) (mac_at ether n) PROT_IP in
    let '(n, m) := NetSetIP n m pkt dest dport sport len in
    let m := store_list m (pkt + IP_HDR_SIZE) (mem_list (NetTxPacket n) (pkt + IP_HDR_SIZE) (Z.to_nat len)) in
    (wait_for_mac now ether dest m (pkt + IP_HDR_SIZE + len) n, 1)
  else
    let '(m, pkt) := NetSetEther n (NetTxPacket n) (mac_at ether n) PROT_IP in
    let '(n, m) := NetSetIP n m pkt dest dport sport len in
    (eth_send (mem_list m 0 (Z.to_nat (pkt + IP_HDR_SIZE + len))) (set_tx m n), 0).

(** ** Ping *)

Definition PingSend (now : Z) (n : net) : net :=
  let n := set_ping (fun p => Pinging NetEtherNullAddr (NetPingIP p) (PingSeqNo p)) n in
  let '(m, pkt) := NetSetEther n (NetArpWaitTxPacket (arp n)) (mac (ping n)) PROT_IP in
  let m := put_ip_header n m pkt (IP_HDR_SIZE_NO_UDP + 8) IPPROTO_ICMP (NetPingIP (ping n)) in
  let n := set_id (u32 (NetIPID n + 1)) n in
  let m := put_cksum m (pkt + 10) pkt (IP_HDR_SIZE_NO_UDP / 2) in
  let s := pkt + 20 in
  let m := put_net16 m s 0x0800 in
  let m := put_net16 (put_net16 m (s + 2) 0) (s + 4) 0 in
  let m := put_net16 m (s + 6) (PingSeqNo (ping n)) in
  let n := set_ping (fun p => Pinging (mac p) (NetPingIP p) (u16 (PingSeqNo p + 1))) n in
  let m := put_cksum m (s + 2) s 4 in
  wait_for_mac now Ping_mac (NetPingIP (ping n)) m (pkt + IP_HDR_SIZE_NO_UDP + 8) n.

Definition PingTimeout (n : net) : net := set_state NETLOOP_FAIL n.

(** [pkt] is the IP packet. *)
Definition PingHandler (pkt : mem) (n : net) : net :=
  if NetReadIP pkt 12 =? NetPingIP (ping n) then set_state NETLOOP_SUCCESS n else n.

Definition PingStart (now : Z) (n : net) : net :=
  PingSend now (NetSetHandler PingHandler_ (NetSetTimeout now 10000 PingTimeout_ n)).

(** ** Receiving *)

(** A call of a packet handler: the memory from the pointer on, unless that is null, and the other arguments. *)
Record call : Type := Call { pkt : option mem; dest : Z; src : Z; len : Z }.

Definition from (m : mem) (a : Z) : mem := fun i => m (a + i).

Lemma mem_list_from m a b k : mem_list (from m a) b k = mem_list m (a + b) k.
Proof. revert b. induction k as [|k IH]; intros b; cbn [mem_list]; [done|]. unfold from at 1. rewrite IH. by rewrite Z.add_assoc. Qed.

(** The checksum of UDP (CONFIG_UDP_CHECKSUM), of the packet at [a]. *)
Fixpoint udp_words (m : mem) (p : Z) (n : nat) (xsum : Z) : Z :=
  match n with
  | O => xsum
  | S n => udp_words m (p + 2) n (u32 (xsum + net16 m p))
  end.

Definition udp_sum (m : mem) (a : Z) : Z :=
  let sumlen := net16 m (a + 24) in
  let words := Z.to_nat (sumlen / 2) in
  let xsum := m (a + 9) + sumlen + net16 m (a + 12) + net16 m (a + 14) + net16 m (a + 16) + net16 m (a + 18) in
  let xsum := udp_words m (a + 20) words (u32 xsum) in
  if sumlen mod 2 =? 0 then xsum else u32 (xsum + Z.land (Z.shiftl (m (a + 20 + 2 * (sumlen / 2))) 8) 0xff00).

(** [while ((xsum >> 16) != 0)] *)
Fixpoint fold_up (fuel : nat) (xsum : Z) : Z :=
  match fuel with
  | O => xsum
  | S fuel =>
    if Z.shiftr xsum 16 =? 0 then xsum
    else fold_up fuel (Z.land xsum 0xffff + Z.land (Z.shiftr xsum 16) 0xffff)
  end.

Definition udp_cksum_ok (m : mem) (a : Z) : bool :=
  (net16 m (a + 26) =? 0) || (let xsum := fold_up 3 (udp_sum m a) in (xsum =? 0) || (xsum =? 0xffff)).

(** [arp] at [a] in the packet [m]. *)
Definition arp_for_us (n : net) (m : mem) (a : Z) : bool :=
  (net16 m a =? ARP_ETHER) && (net16 m (a + 2) =? PROT_IP) && (m (a + 4) =? 6) && (m (a + 5) =? 4) &&
  negb (NetOurIP (own n) =? 0) && (NetReadIP m (a + 24) =? NetOurIP (own n)).

Definition receive_arp (n : net) (m : mem) (a len : Z) : net :=
  if len <? ARP_HDR_SIZE then puts (Bad_length len) n
  else if negb (arp_for_us n m a) then n
  else
    let op := net16 m (a + 6) in
    if op =? ARPOP_REQUEST then
      let '(m, pkt) := NetSetEther n m (mem_list m 6 6) PROT_ARP in
      let m := put_net16 m (a + 6) ARPOP_REPLY in
      let m := store_list m (a + 18) (mem_list m (a + 8) 6) in
      let m := store_list m (a + 24) (mem_list m (a + 14) 4) in
      let m := store_list m (a + 8) (NetOurEther (own n)) in
      let m := NetWriteIP m (a + 14) (NetOurIP (own n)) in
      eth_send (mem_list m 0 (Z.to_nat (pkt + ARP_HDR_SIZE))) n
    else if op =? ARPOP_REPLY then
      match NetArpWaitPacketMAC (arp n) with
      | Some r =>
        if NetArpWaitPacketIP (arp n) =? 0 then n
        else if NetReadIP m (a + 14) =? NetArpWaitReplyIP (arp n) then
          let n := set_mac_at r (mem_list m (a + 8) 6) n in
          let w := arp n in
          let waiting := store_list (NetArpWaitTxPacket w) 0 (mac_at r n) in
          let n := eth_send (mem_list waiting 0 (Z.to_nat (NetArpWaitTxPacketSize w))) n in
          set_arp (fun w => Arp_wait 0 (NetArpWaitReplyIP w) None waiting 0 (NetArpWaitTimerStart w) (NetArpWaitTry w)) n
        else n
      | None => n
      end
    else n.

Definition receive_rarp (n : net) (m : mem) (a len : Z) : net * option call :=
  if len <? ARP_HDR_SIZE then (puts (Bad_length len) n, None)
  else if (net16 m (a + 6) =? RARPOP_REPLY) && (net16 m a =? ARP_ETHER) && (net16 m (a + 2) =? PROT_IP) &&
    (m (a + 4) =? 6) && (m (a + 5) =? 4) then
    (set_own (fun o =>
       Ours (NetReadIP m (a + 24)) (NetOurSubnetMask o) (NetOurGatewayIP o)
         (if NetServerIP o =? 0 then NetReadIP m (a + 14) else NetServerIP o) (NetOurEther o) (mem_list m (a + 8) 6)
         (NetOurVLAN o) (NetOurNativeVLAN o)) n,
     Some (Call None 0 0 0))
  else (puts Invalid_rarp n, None).

(** The answer to an echo request: [m] holds the frame, the IP packet of [len] bytes is [p] from [a] on. *)
Definition echo_reply (n : net) (p : mem) (a len : Z) : mem :=
  let p := put_net16 p (a + 10) 0 in
  let p := put_net16 p (a + 6) 0 in
  let p := store_list p (a + 16) (mem_list p (a + 12) 4) in
  let p := NetWriteIP p (a + 12) (NetOurIP (own n)) in
  let p := put_cksum p (a + 10) a (IP_HDR_SIZE_NO_UDP / 2) in
  let p := put_net16 p.[a + 20 <- ICMP_ECHO_REPLY] (a + 22) 0 in
  put_cksum p (a + 22) (a + 20) (Z.shiftr (u32 (len - IP_HDR_SIZE_NO_UDP)) 1).

Definition echo_frame (n : net) (m : mem) : mem := store_list (store_list m 0 (mem_list m 6 6)) 6 (NetOurEther (own n)).

(** The IP packet of [len] bytes, at [a] in [p]; [whole]: [p] is the frame itself, not the buffer of [NetDefragment]. *)
Definition receive_datagram (udp_checksum : bool) (n : net) (m p : mem) (a len : Z) (whole : bool) : net * option call :=
  if p (a + 9) =? IPPROTO_ICMP then
    let type := p (a + 20) in
    if type =? ICMP_REDIRECT then
      if p (a + 21) =? ICMP_REDIR_HOST then (puts (Host_redirect (mem_list p (a + 24) 4)) n, None) else (n, None)
    else if type =? ICMP_ECHO_REPLY then (n, Some (Call (Some (from p a)) 0 0 0))
    else if type =? ICMP_ECHO_REQUEST then
      let frame := echo_frame n m in
      let frame := if whole then echo_reply n frame a len else frame in
      let n := if whole then n else set_frags (Defrag (echo_reply n p a len) (first_hole (frags n)) (total_len (frags n))) n in
      (eth_send (mem_list frame 0 (Z.to_nat (ETHER_HDR_SIZE + len))) n, None)
    else (n, None)
  else if negb (p (a + 9) =? IPPROTO_UDP) then (n, None)
  else if udp_checksum && negb (udp_cksum_ok p a) then
    (puts (Udp_checksum_wrong (fold_up 3 (udp_sum p a)) (net16 p (a + 26))) n, None)
  else
    (n, Some (Call (Some (from p (a + IP_HDR_SIZE))) (net16 p (a + 22)) (net16 p (a + 20)) (u32 (net16 p (a + 24) - 8)))).

(** [None] when [NetDefragment] does not return, or copies a negative length. *)
Definition receive_ip (udp_checksum : bool) (n : net) (m : mem) (a len : Z) : option (net * option call) :=
  let ip_len := net16 m (a + 2) in
  if len <? IP_HDR_SIZE then Some (n, None)
  else if len <? ip_len then Some (puts (Len_bad len ip_len) n, None)
  else if negb (Z.land (m a) 0xf0 =? 0x40) then Some (n, None)
  else if 5 <? Z.land (m a) 0x0f then Some (n, None)
  else if negb (NetCksumOk m a (IP_HDR_SIZE_NO_UDP / 2)) then Some (puts Checksum_bad n, None)
  else
    let tmp := NetReadIP m (a + 16) in
    if negb (NetOurIP (own n) =? 0) && negb (tmp =? NetOurIP (own n)) && negb (tmp =? 0xFFFFFFFF) then Some (n, None)
    else
      let '(s, o) := NetDefragment be (mem_list m a (Z.to_nat len)) (frags n) in
      let n := set_frags s n in
      match o with
      | Null => Some (n, None)
      | Itself => Some (receive_datagram udp_checksum n m m a ip_len true)
      | Packet len => Some (receive_datagram udp_checksum n m (pkt_buff s) 0 len false)
      | _ => None
      end.

(** The frame at [m], of [len] bytes. *)
Definition NetReceive (udp_checksum : bool) (n : net) (m : mem) (len : Z) : option (net * option call) :=
  if len <? ETHER_HDR_SIZE then Some (n, None)
  else
    let vlan := vlan_id (NetOurVLAN (own n)) in
    let native := vlan_id (NetOurNativeVLAN (own n)) in
    let x := net16 m 12 in
    let header :=
      if x <? 1514 then Some (net16 m 20, E802_HDR_SIZE, VLAN_NONE)
      else if negb (x =? PROT_VLAN) then Some (x, ETHER_HDR_SIZE, VLAN_NONE)
      else if len <? VLAN_ETHER_HDR_SIZE then None
      else if Z.land (NetOurVLAN (own n)) VLAN_IDMASK =? VLAN_NONE then None
      else Some (net16 m 16, VLAN_ETHER_HDR_SIZE, Z.land (net16 m 14) VLAN_IDMASK) in
    match header with
    | None => Some (n, None)
    | Some (x, a, vlanid) =>
      let mine := Z.land vlan VLAN_IDMASK in
      let vlanid := if vlanid =? VLAN_NONE then Z.land native VLAN_IDMASK else vlanid in
      if negb (mine =? VLAN_NONE) && negb (vlanid =? mine) then Some (n, None)
      else if x =? PROT_ARP then Some (receive_arp n m a (len - a), None)
      else if x =? PROT_RARP then Some (receive_rarp n m a (len - a))
      else if x =? PROT_IP then receive_ip udp_checksum n m a (len - a)
      else Some (n, None)
    end.
(** ** The loop *)

(** What the loop meets in one turn: the frames that [eth_rx] hands over, the key and the clock, which is read once. *)
Record turn : Type := Turn { received : list (mem * Z); ctrlc : bool; now : Z }.

(** [None]: a null pointer is read. *)
Definition call_handler (c : call) (n : net) : option net :=
  match packetHandler (loop n) with
  | PingHandler_ => match pkt c with Some p => Some (PingHandler p n) | None => None end
  | startAgainHandler => Some n
  end.

Fixpoint eth_rx (udp_checksum : bool) (l : list (mem * Z)) (n : net) : option net :=
  match l with
  | [] => Some n
  | (m, len) :: l =>
    match NetReceive udp_checksum n m len with
    | None => None
    | Some (n, None) => eth_rx udp_checksum l n
    | Some (n, Some c) => match call_handler c n with Some n => eth_rx udp_checksum l n | None => None end
    end
  end.

Definition check_timer (now : Z) (n : net) : net :=
  match timeHandler (loop n) with
  | Some x =>
    if timeDelta (loop n) <? u32 (now - timeStart (loop n)) then
      let n := set_loop (fun l =>
        Looping (NetState l) (NetTryCount l) (packetHandler l) None (timeStart l) (timeDelta l)) n in
      match x with PingTimeout_ => PingTimeout n | startAgainTimeout => set_state NETLOOP_RESTART n end
    else n
  | None => n
  end.

(** [NetInitLoop]: the environment is read when it has [changed]. *)
Definition NetInitLoop (changed : bool) (e : ours) : net -> net := set_own (fun o =>
  if changed then
    Ours (NetOurIP e) (NetOurSubnetMask e) (NetOurGatewayIP e) (NetServerIP e) (NetOurEther o) (NetServerEther o)
      (NetOurVLAN e) (NetOurNativeVLAN e)
  else o).

(** [net_check_prereq] for PING *)
Definition net_check_prereq (n : net) : net * bool :=
  if NetPingIP (ping n) =? 0 then (puts No_ping_address n, true)
  else if NetOurIP (own n) =? 0 then (puts No_ipaddr n, true)
  else if bool_decide (NetOurEther (own n) = NetEtherNullAddr) then (puts No_ethaddr n, true)
  else (n, false).

(** From the label [restart] on; the result is that of [NetLoop], if it returns. *)
Definition restart (changed : bool) (e : ours) (now : Z) (n : net) : net * option Z :=
  let n := set_own (fun o =>
    Ours (NetOurIP o) (NetOurSubnetMask o) (NetOurGatewayIP o) (NetServerIP o) (NetOurEther e) (NetServerEther o)
      (NetOurVLAN o) (NetOurNativeVLAN o)) n in
  let '(n, missing) := net_check_prereq (NetInitLoop changed e (set_state NETLOOP_CONTINUE n)) in
  if missing then (n, Some (-1)) else (PingStart now n, None).

Fixpoint loop_for (udp_checksum : bool) (e : ours) (nretry : option Data) (ts : list turn) (n : net) :
  option (net * option Z) :=
  match ts with
  | [] => Some (n, None)
  | t :: ts =>
    match eth_rx udp_checksum (received t) n with
    | None => None
    | Some n =>
      if ctrlc t then Some (puts Abort_ n, Some (-1))
      else
        let n := check_timer (now t) (ArpTimeoutCheck (now t) nretry n) in
        let s := NetState (loop n) in
        if s =? NETLOOP_RESTART then
          let '(n, r) := restart false e (now t) n in
          match r with Some _ => Some (n, r) | None => loop_for udp_checksum e nretry ts n end
        else if s =? NETLOOP_SUCCESS then Some (n, Some 0)
        else if s =? NETLOOP_FAIL then Some (n, Some (-1))
        else loop_for udp_checksum e nretry ts n
    end
  end.

(** [NetLoop(PING)]: [e] is the environment, [up] the success of [eth_init], [ts] the turns that are made; the
    result is absent while the loop goes on. *)
Definition NetLoop (udp_checksum up changed : bool) (e : ours) (nretry : option Data) (now : Z) (ts : list turn)
  (n : net) : option (net * option Z) :=
  let n := set_arp (fun w => Arp_wait 0 0 None (NetArpWaitTxPacket w) 0 (NetArpWaitTimerStart w) (NetArpWaitTry w)) n in
  let n := set_loop (fun l =>
    Looping (NetState l) 1 (packetHandler l) (timeHandler l) (timeStart l) (timeDelta l)) n in
  if negb up then Some (n, Some (-1))
  else
    let '(n, r) := restart changed e now n in
    match r with Some _ => Some (n, r) | None => loop_for udp_checksum e nretry ts n end.
End Host.

(** ** Strings *)

(** [ip_to_string], of an address in network order. *)
Definition fmt_ip : Data := [37; 100; 46; 37; 100; 46; 37; 100; 46; 37; 100].
Definition ip_to_string (x : Z) : option Data :=
  printf fmt_ip [AInt (Z.land (Z.shiftr x 24) 0xff); AInt (Z.land (Z.shiftr x 16) 0xff);
                 AInt (Z.land (Z.shiftr x 8) 0xff); AInt (Z.land x 0xff)].

(** "none" *)
Definition str_none : Data := [110; 111; 110; 101].

Definition VLAN_to_string (x : Z) : option Data :=
  let x := if x =? 0xffff then VLAN_NONE else x in
  if x =? VLAN_NONE then Some str_none else printf fmt_d [AInt (Z.land x VLAN_IDMASK)].

Definition string_to_VLAN (s : option Data) : Z :=
  match s with
  | None => VLAN_NONE
  | Some s =>
    match s with
    | c :: _ => if (c <? 48) || (57 <? c) then VLAN_NONE else u16 (fst (simple_strtoul s 10))
    | [] => VLAN_NONE
    end
  end.

(** ** Checksums *)

Section Checksum.
Context (be : bool).

Definition bytes_of (m : mem) : Prop := forall a, is_byte (m a).

(** The sum of [n] words. *)
Fixpoint words (m : mem) (p : Z) (n : nat) : Z :=
  match n with
  | O => 0
  | S n => get16 be m p + words m (p + 2) n
  end.

Lemma get16_range m a : bytes_of m -> 0 <= get16 be m a < 65536.
Proof using. intros H. pose proof (H a) as H1. pose proof (H (a + 1)) as H2. unfold is_byte in H1, H2. unfold get16. destruct be; lia. Qed.

Lemma words_range m p n : bytes_of m -> 0 <= words m p n <= 65535 * Z.of_nat n.
Proof using.
  intros H. revert p. induction n as [|n IH]; intros p; cbn [words]; [lia|].
  specialize (IH (p + 2)). pose proof (get16_range m p H). lia.
Qed.

Lemma cksum_loop_words m p n x :
  bytes_of m -> 0 <= x -> x + 65535 * Z.of_nat n < 2 ^ 32 -> cksum_loop be m p n x = x + words m p n.
Proof using.
  intros H. revert p x. induction n as [|n IH]; intros p x Hx Hn; cbn [cksum_loop words]; [lia|].
  pose proof (get16_range m p H). rewrite u32_small by lia. rewrite IH by lia. lia.
Qed.

(** Both folds: a residue modulo 65535, zero only for zero. *)
Lemma fold16_twice x : 0 <= x < 2 ^ 32 ->
  let y := fold16 (fold16 x) in 0 <= y < 65536 /\ y mod 65535 = x mod 65535 /\ (y = 0 <-> x = 0).
Proof using.
  intros Hx. assert (H1 : forall z, 0 <= z -> fold16 z = z mod 65536 + z / 65536).
  { intros z Hz. unfold fold16. rewrite (land_mask z 16) by lia. by rewrite Z.shiftr_div_pow2 by lia. }
  cbv zeta. rewrite (H1 x) by lia. rewrite H1 by (Z.div_mod_to_equations; lia). Z.div_mod_to_equations. lia.
Qed.
End Checksum.

Section Checksum_ok.
Context (be : bool).

Lemma words_put16 m p n k v :
  (k < n)%nat -> 0 <= v < 65536 ->
  words be (put16 be m (p + 2 * Z.of_nat k) v) p n = words be m p n - get16 be m (p + 2 * Z.of_nat k) + v.
Proof using.
  intros Hk Hv. revert p k Hk. induction n as [|n IH]; intros p k Hk; [lia|]. cbn [words].
  destruct k as [|k].
  - rewrite Z.add_0_r, get16_put16 by (done || lia). rewrite Z.eqb_refl.
    assert (Hrest : forall q, p + 2 <= q -> words be (put16 be m p v) q n = words be m q n).
    { clear IH Hk. induction n as [|n IH]; intros q Hq; cbn [words]; [done|].
      rewrite IH, get16_put16 by (done || lia). by rewrite (proj2 (Z.eqb_neq q p)) by lia. }
    rewrite Hrest by lia. lia.
  - rewrite get16_put16 by (done || lia). rewrite (proj2 (Z.eqb_neq p _)) by lia.
    replace (p + 2 * Z.of_nat (S k)) with (p + 2 + 2 * Z.of_nat k) by lia. rewrite IH by lia. lia.
Qed.

Lemma bytes_of_upd m a v : bytes_of m -> is_byte v -> bytes_of (m.[a <- v]).
Proof using. intros Hm Hv b. unfold upd. by destruct (b =? a). Qed.

Lemma bytes_of_put16 m a v : bytes_of m -> bytes_of (put16 be m a v).
Proof using. intros Hm. unfold put16. destruct be; repeat apply bytes_of_upd; try done; apply is_byte_u8. Qed.

Lemma even_bits x : 1 <= x <= 65536 -> Z.land x 0xfffe = 0 <-> x = 1 \/ x = 65536.
Proof using.
  intros Hx. destruct (Z.eq_dec x 65536) as [->|Hne]; [split; [lia|done]|].
  pose proof (land_high x 1 15 ltac:(lia) ltac:(lia) ltac:(lia)) as H. change (2 ^ (1 + 15) - 2 ^ 1) with 0xfffe in H.
  split; [|intros [-> | ->]; [done|lia]]. intros H0. rewrite H0 in H. left.
  change (Z.shiftr 0 1) with 0 in H. change (2 ^ 1) with 2 in H. Z.div_mod_to_equations. lia.
Qed.

(** The checksum is right when the sum is a multiple of 65535. *)
Lemma cksum_ok_iff m p n :
  bytes_of m -> 0 <= n <= 60000 -> NetCksumOk be m p n = true <-> words be m p (Z.to_nat n) mod 65535 = 0.
Proof using.
  intros Hm Hn. unfold NetCksumOk, NetCksum.
  pose proof (words_range be m p (Z.to_nat n) Hm) as Hw.
  rewrite cksum_loop_words by (done || lia). rewrite Z.add_0_l.
  destruct (fold16_twice (words be m p (Z.to_nat n)) ltac:(lia)) as (H1 & H2 & H3).
  set (y := fold16 (fold16 _)) in *. rewrite (land_mask y 16) by lia. rewrite Z.mod_small by lia.
  rewrite Z.eqb_eq, even_bits by lia. rewrite <- H2. split; [intros [Hy|Hy]|intros Hy].
  - by replace y with 0 by lia.
  - by replace y with 65535 by lia.
  - Z.div_mod_to_equations. lia.
Qed.

Lemma put_cksum_ok m p n k :
  bytes_of m -> 0 <= n <= 60000 -> (k < Z.to_nat n)%nat -> get16 be m (p + 2 * Z.of_nat k) = 0 ->
  NetCksumOk be (put_cksum be m (p + 2 * Z.of_nat k) p n) p n = true.
Proof using.
  intros Hm Hn Hk H0. pose proof (words_range be m p (Z.to_nat n) Hm) as Hw.
  unfold put_cksum, NetCksum. rewrite cksum_loop_words by (done || lia). rewrite Z.add_0_l.
  destruct (fold16_twice (words be m p (Z.to_nat n)) ltac:(lia)) as (H1 & H2 & _).
  set (y := fold16 (fold16 _)) in *. rewrite (land_mask y 16) by lia. rewrite (Z.mod_small y) by lia.
  assert (Hv : u16 (Z.lnot y) = 65535 - y).
  { unfold u16, Z.lnot. change (2 ^ 16) with 65536. symmetry. apply (Z.mod_unique _ _ (-1)); lia. }
  rewrite Hv. apply cksum_ok_iff; [by apply bytes_of_put16|done|]. rewrite words_put16 by lia. rewrite H0.
  Z.div_mod_to_equations. lia.
Qed.

(** A changed word is seen, unless zero and 65535 are exchanged. *)
Lemma changed_word_seen m p n k v :
  bytes_of m -> 0 <= n <= 60000 -> (k < Z.to_nat n)%nat -> NetCksumOk be m p n = true ->
  0 <= v < 65536 -> v mod 65535 <> get16 be m (p + 2 * Z.of_nat k) mod 65535 ->
  NetCksumOk be (put16 be m (p + 2 * Z.of_nat k) v) p n = false.
Proof using.
  intros Hm Hn Hk H Hv Hne. apply not_true_iff_false. intros H'.
  apply cksum_ok_iff in H; [|done..]. apply cksum_ok_iff in H'; [|by apply bytes_of_put16|done].
  rewrite words_put16 in H' by lia. apply Hne. Z.div_mod_to_equations. lia.
Qed.
End Checksum_ok.

(** The byte order of the machine does not matter. *)
Section Order.

Lemma words_swap m p n : bytes_of m -> exists k, 256 * words false m p n = words true m p n + 65535 * k.
Proof using.
  intros H. revert p. induction n as [|n IH]; intros p; cbn [words]; [by exists 0|].
  destruct (IH (p + 2)) as [k Hk]. exists (m (p + 1) + k). unfold get16. lia.
Qed.

Lemma cksum_order be m p n : bytes_of m -> 0 <= n <= 60000 -> NetCksumOk be m p n = NetCksumOk true m p n.
Proof using.
  intros Hm Hn. destruct be; [done|]. apply eq_iff_eq_true. rewrite !cksum_ok_iff by done.
  destruct (words_swap m p (Z.to_nat n) Hm) as [k Hk]. Z.div_mod_to_equations. lia.
Qed.

Lemma words_ext be m k p q n :
  (forall i, 0 <= i < 2 * Z.of_nat n -> m (p + i) = k (q + i)) -> words be m p n = words be k q n.
Proof using.
  revert p q. induction n as [|n IH]; intros p q H; cbn [words]; [done|]. f_equal.
  - unfold get16. pose proof (H 0 ltac:(lia)) as H0. rewrite !Z.add_0_r in H0. by rewrite H0, (H 1) by lia.
  - apply IH. intros i Hi. rewrite <- !Z.add_assoc. apply H. lia.
Qed.

Lemma cksum_ok_ext be m k p n :
  bytes_of m -> bytes_of k -> 0 <= n <= 60000 -> (forall i, p <= i < p + 2 * n -> m i = k i) ->
  NetCksumOk be m p n = NetCksumOk be k p n.
Proof using.
  intros Hm Hk Hn H. apply eq_iff_eq_true. rewrite !cksum_ok_iff by done.
  rewrite (words_ext be m k p p) by (intros i Hi; apply H; lia). done.
Qed.
End Order.

Ltac rd_upd :=
  repeat first [rewrite upd_eq | rewrite upd_ne by (unfold not; intros; lia)].

(** ** Headers *)

Definition address (a : Data) : Prop := length a = 6%nat /\ Forall is_byte a.

(** The link header of a frame of protocol [prot] on the VLAN [v]. *)
Definition hdr (v : Z) : Z := if v =? VLAN_NONE then ETHER_HDR_SIZE else VLAN_ETHER_HDR_SIZE.
Definition on_link (m : mem) (v prot : Z) : Prop :=
  if v =? VLAN_NONE then net16 m 12 = prot else net16 m 12 = PROT_VLAN /\ net16 m 14 = v /\ net16 m 16 = prot.

(** The VLAN of a machine. *)
Definition vlan_of (n : net) : Z := Z.land (NetOurVLAN (own n)) VLAN_IDMASK.

Lemma vlan_id_mask v : Z.land (vlan_id v) VLAN_IDMASK = Z.land v VLAN_IDMASK.
Proof. unfold vlan_id. by destruct (Z.eqb_spec v 0xffff) as [->|]. Qed.

Lemma vlan_range n : 0 <= vlan_of n <= 4095.
Proof. unfold vlan_of. rewrite (land_mask _ 12) by done. change (2 ^ 12) with 4096. Z.div_mod_to_equations. lia. Qed.

Lemma NetEthHdrSize_hdr n : NetEthHdrSize n = hdr (vlan_of n).
Proof. unfold NetEthHdrSize, no_vlan, hdr, vlan_of. by rewrite vlan_id_mask. Qed.

Lemma net16_put m a v b : 0 <= v < 65536 ->
  net16 (put_net16 m a v) b = if b =? a then v else if (b + 1 <? a) || (a + 1 <? b) then net16 m b else net16 (put_net16 m a v) b.
Proof.
  intros Hv. unfold net16, put_net16. destruct (Z.eqb_spec b a) as [->|H].
  - rewrite upd_ne, upd_eq, upd_eq by lia. unfold u8. rewrite Z.shiftr_div_pow2 by lia. Z.div_mod_to_equations. lia.
  - destruct (Z.ltb_spec (b + 1) a); [by rd_upd|]. destruct (Z.ltb_spec (a + 1) b); [by rd_upd|done].
Qed.

Lemma net16_eq m a v : 0 <= v < 65536 -> net16 (put_net16 m a v) a = v.
Proof. intros Hv. rewrite net16_put by done. by rewrite Z.eqb_refl. Qed.

Lemma put_net16_out m a v b : b <> a -> b <> a + 1 -> put_net16 m a v b = m b.
Proof. intros H1 H2. unfold put_net16. by rd_upd. Qed.

Lemma net16_ext m k a b : m a = k b -> m (a + 1) = k (b + 1) -> net16 m a = net16 k b.
Proof. unfold net16. congruence. Qed.

Lemma bytes_of_put_net16 m a v : bytes_of m -> bytes_of (put_net16 m a v).
Proof. intros H. unfold put_net16. by repeat apply bytes_of_upd; try apply is_byte_u8. Qed.

Lemma frame_store m a l : bytes_of m -> Forall is_byte l -> bytes_of (store_list m a l).
Proof.
  intros Hm Hl. revert m a Hm. induction Hl as [|x l Hx Hl IH]; intros m a Hm; cbn [store_list]; [done|].
  apply IH. by apply bytes_of_upd.
Qed.

Lemma bytes_of_list m a n : bytes_of m -> Forall is_byte (mem_list m a n).
Proof. intros Hm. revert a. induction n as [|n IH]; intros a; cbn [mem_list]; [done|]. apply List.Forall_cons; [done|apply IH]. Qed.

Lemma bytes_of_ip ip : Forall is_byte (ip_bytes ip).
Proof. unfold ip_bytes. repeat (apply List.Forall_cons; [apply is_byte_u8|]). done. Qed.

Lemma NetReadIP_ext m k a b : (forall i, 0 <= i < 4 -> m (a + i) = k (b + i)) -> NetReadIP m a = NetReadIP k b.
Proof.
  intros H. unfold NetReadIP. pose proof (H 0 ltac:(lia)) as H0. rewrite !Z.add_0_r in H0.
  by rewrite H0, (H 1), (H 2), (H 3) by lia.
Qed.

Lemma NetReadIP_write m a ip : 0 <= ip < 2 ^ 32 -> NetReadIP (NetWriteIP m a ip) a = ip.
Proof.
  intros H. unfold NetReadIP, NetWriteIP, ip_bytes. cbn [store_list]. rewrite <- !Z.add_assoc. rd_upd.
  unfold u8. rewrite !Z.shiftr_div_pow2 by lia. change (2 ^ 32) with 4294967296 in H. Z.div_mod_to_equations. lia.
Qed.

Lemma NetWriteIP_out m a ip b : ~ (a <= b < a + 4) -> NetWriteIP m a ip b = m b.
Proof. intros H. unfold NetWriteIP. apply store_list_out. by cbn. Qed.

Section Built.
Context (n : net) (Hether : address (NetOurEther (own n))) (Hip : 0 <= NetOurIP (own n) < 2 ^ 32).

Lemma NetSetEther_spec m addr prot m' h :
  NetSetEther n m addr prot = (m', h) -> address addr -> 0 <= prot < 65536 ->
  h = hdr (vlan_of n) /\ on_link m' (vlan_of n) prot /\ mem_list m' 0 6 = addr /\
  mem_list m' 6 6 = NetOurEther (own n) /\ (forall b, h <= b -> m' b = m b) /\ (bytes_of m -> bytes_of m').
Proof using Hether.
  intros H [Ha Hab] Hp. destruct Hether as [He Heb]. unfold NetSetEther, no_vlan in H. rewrite vlan_id_mask in H.
  pose proof (vlan_range n) as Hv. fold (vlan_of n) in H. set (k := store_list (store_list m 0 addr) 6 _) in H.
  assert (Hk : mem_list k 0 6 = addr /\ mem_list k 6 6 = NetOurEther (own n) /\ (forall b, 12 <= b -> k b = m b) /\
    (bytes_of m -> bytes_of k)).
  { unfold k. split; [|split; [|split]].
    - transitivity (mem_list (store_list m 0 addr) 0 6); [|rewrite <- Ha; apply mem_list_store].
      apply mem_list_ext. intros i Hi. apply store_list_out. lia.
    - rewrite <- He at 1. apply mem_list_store.
    - intros b Hb. rewrite !store_list_out by lia. done.
    - intros Hm. by repeat apply frame_store. }
  clearbody k. destruct Hk as (K1 & K2 & K3 & K4). unfold hdr, on_link.
  destruct (Z.eqb_spec (vlan_of n) VLAN_NONE) as [E|E]; injection H as <- <-.
  - split; [done|]. split; [by apply net16_eq|]. split; [|split; [|split]].
    + rewrite <- K1. apply mem_list_ext. intros i Hi. apply put_net16_out; lia.
    + rewrite <- K2. apply mem_list_ext. intros i Hi. apply put_net16_out; lia.
    + intros b Hb. unfold ETHER_HDR_SIZE in Hb. rewrite put_net16_out by lia. apply K3. lia.
    + intros Hm. by apply bytes_of_put_net16, K4.
  - split; [done|]. split; [|split; [|split; [|split]]].
    + split; [|split]; [| |by apply net16_eq].
      * rewrite net16_put by done. cbn. rewrite net16_put by lia. cbn. by apply net16_eq.
      * rewrite net16_put by done. cbn. apply net16_eq. lia.
    + rewrite <- K1. apply mem_list_ext. intros i Hi. rewrite !put_net16_out by lia. done.
    + rewrite <- K2. apply mem_list_ext. intros i Hi. rewrite !put_net16_out by lia. done.
    + intros b Hb. unfold VLAN_ETHER_HDR_SIZE in Hb. rewrite !put_net16_out by lia. apply K3. lia.
    + intros Hm. by repeat apply bytes_of_put_net16; apply K4.
Qed.
End Built.

(** An unfragmented IP header at [a]. *)
Definition ip_at (m : mem) (a len proto src dest : Z) : Prop :=
  m a = 0x45 /\ net16 m (a + 2) = len /\ Z.land (net16 m (a + 6)) (Z.lor IP_OFFS IP_FLAGS_MFRAG) = 0 /\ m (a + 9) = proto /\
  NetReadIP m (a + 12) = src /\ NetReadIP m (a + 16) = dest.

Lemma ip_at_ext m k a len proto src dest :
  (forall i, a <= i < a + 20 -> m i = k i) -> ip_at k a len proto src dest -> ip_at m a len proto src dest.
Proof.
  intros H (H1 & H2 & H3 & H4 & H5 & H6).
  split; [by rewrite H by lia|]. split; [by rewrite (net16_ext m k _ (a + 2)) by (apply H; lia)|].
  split; [by rewrite (net16_ext m k _ (a + 6)) by (apply H; lia)|]. split; [by rewrite H by lia|].
  split; [by rewrite (NetReadIP_ext m k _ (a + 12)) by (intros; apply H; lia)|].
  by rewrite (NetReadIP_ext m k _ (a + 16)) by (intros; apply H; lia).
Qed.

Section Header.
Context (be : bool) (n : net) (Hip : 0 <= NetOurIP (own n) < 2 ^ 32).

Lemma put_ip_header_spec m a size proto to :
  0 <= size < 65536 -> is_byte proto -> 0 <= to < 2 ^ 32 ->
  let m' := put_ip_header n m a size proto to in
  ip_at m' a size proto (NetOurIP (own n)) to /\ net16 m' (a + 10) = 0 /\
  (forall b, ~ (a <= b < a + 20) -> m' b = m b) /\ (bytes_of m -> bytes_of m').
Proof using Hip.
  intros Hl Hproto Hto m'. unfold m', put_ip_header.
  set (m1 := put_net16 (m.[a <- _].[a + 1 <- _]) (a + 2) size). set (m2 := put_net16 m1 (a + 4) _).
  set (m3 := put_net16 m2 (a + 6) _). set (m4 := put_net16 _ (a + 10) 0). split; [|split; [|split]].
  - assert (H0 : forall b, a <= b < a + 4 -> NetWriteIP (NetWriteIP m4 (a + 12) (NetOurIP (own n))) (a + 16) to b = m1 b).
    { intros b Hb. rewrite !NetWriteIP_out by lia. unfold m4. rewrite put_net16_out by lia. rd_upd. unfold m3, m2.
      by rewrite !put_net16_out by lia. }
    split; [|split; [|split; [|split; [|split]]]].
    + rewrite H0 by lia. unfold m1. rewrite put_net16_out by lia. by rd_upd.
    + rewrite (net16_ext _ m1 _ (a + 2)) by (apply H0; lia). by apply net16_eq.
    + rewrite (net16_ext _ m3 _ (a + 6)); [by unfold m3; rewrite net16_eq|..];
        rewrite !NetWriteIP_out by lia; unfold m4; rewrite put_net16_out by lia; by rd_upd.
    + rewrite !NetWriteIP_out by lia. unfold m4. rewrite put_net16_out by lia. by rd_upd.
    + rewrite (NetReadIP_ext _ (NetWriteIP m4 (a + 12) (NetOurIP (own n))) _ (a + 12)); [by apply NetReadIP_write|].
      intros i Hi. apply NetWriteIP_out. lia.
    + by apply NetReadIP_write.
  - rewrite (net16_ext _ m4 _ (a + 10)) by (rewrite !NetWriteIP_out by lia; done). by apply net16_eq.
  - intros b Hb. rewrite !NetWriteIP_out by lia. unfold m4. rewrite put_net16_out by lia. rd_upd. unfold m3, m2, m1.
    rewrite !put_net16_out by lia. by rd_upd.
  - intros Hm. unfold NetWriteIP, m4, m3, m2, m1.
    repeat first [apply frame_store; [|apply bytes_of_ip] | apply bytes_of_put_net16 | apply bytes_of_upd];
      first [done | unfold is_byte; lia].
Qed.

(** With its checksum. *)
Lemma put_cksum_spec m a size proto from_ to :
  bytes_of m -> ip_at m a size proto from_ to -> net16 m (a + 10) = 0 ->
  let m' := put_cksum be m (a + 10) a (IP_HDR_SIZE_NO_UDP / 2) in
  ip_at m' a size proto from_ to /\ NetCksumOk be m' a (IP_HDR_SIZE_NO_UDP / 2) = true /\ bytes_of m' /\
  (forall b, b <> a + 10 -> b <> a + 11 -> m' b = m b).
Proof using.
  intros Hm (H1 & H2 & H3 & H4 & H5 & H6) H0 m'.
  assert (Hout : forall b, b <> a + 10 -> b <> a + 11 -> m' b = m b).
  { intros b Hb1 Hb2. unfold m', put_cksum. apply put16_out; lia. }
  split; [|split; [|split; [by apply bytes_of_put16|done]]].
  - split; [by rewrite Hout by lia|]. split; [by rewrite (net16_ext m' m _ (a + 2)) by (apply Hout; lia)|].
    split; [by rewrite (net16_ext m' m _ (a + 6)) by (apply Hout; lia)|]. split; [by rewrite Hout by lia|].
    split; [by rewrite (NetReadIP_ext m' m _ (a + 12)) by (intros; apply Hout; lia)|].
    by rewrite (NetReadIP_ext m' m _ (a + 16)) by (intros; apply Hout; lia).
  - apply (put_cksum_ok be m a 10 5); [done|lia|lia|]. change (2 * Z.of_nat 5) with 10.
    unfold net16 in H0. pose proof (Hm (a + 10)) as Hx. pose proof (Hm (a + 10 + 1)) as Hy. unfold is_byte in Hx, Hy.
    unfold get16. destruct be; lia.
Qed.
End Header.

(** ** A frame that arrives *)

Lemma set_frags_same n : set_frags (frags n) n = n.
Proof. by destruct n. Qed.

Section Arriving.
Context (be udp_checksum : bool) (n : net).

Lemma receive_on_link m len prot :
  on_link m (vlan_of n) prot -> 1514 <= prot -> prot <> PROT_VLAN -> hdr (vlan_of n) <= len ->
  NetReceive be udp_checksum n m len =
    if prot =? PROT_ARP then Some (receive_arp n m (hdr (vlan_of n)) (len - hdr (vlan_of n)), None)
    else if prot =? PROT_RARP then Some (receive_rarp n m (hdr (vlan_of n)) (len - hdr (vlan_of n)))
    else if prot =? PROT_IP then receive_ip be udp_checksum n m (hdr (vlan_of n)) (len - hdr (vlan_of n))
    else Some (n, None).
Proof using.
  intros H Hp Hv Hlen. pose proof (vlan_range n) as Hr. unfold NetReceive. rewrite vlan_id_mask. fold (vlan_of n).
  unfold on_link in H. unfold hdr in *. destruct (Z.eqb_spec (vlan_of n) VLAN_NONE) as [E|E].
  - rewrite H, (proj2 (Z.ltb_ge len _)), (proj2 (Z.ltb_ge prot 1514)), (proj2 (Z.eqb_neq prot PROT_VLAN)) by lia.
    done.
  - destruct H as (H1 & H2 & H3).
    rewrite (proj2 (Z.ltb_ge len ETHER_HDR_SIZE)) by (unfold ETHER_HDR_SIZE, VLAN_ETHER_HDR_SIZE in *; lia).
    rewrite H1, H2, H3. cbn [negb Z.ltb Z.compare PROT_VLAN Z.eqb Pos.compare Pos.compare_cont Pos.eqb].
    rewrite (proj2 (Z.ltb_ge len VLAN_ETHER_HDR_SIZE)) by done.
    rewrite (land_mask (vlan_of n) 12), Z.mod_small by (done || (change (2 ^ 12) with 4096; lia)).
    rewrite (proj2 (Z.eqb_neq (vlan_of n) VLAN_NONE)) by done. by rewrite Z.eqb_refl.
Qed.

Lemma receive_ip_at m a len size proto from_ to :
  ip_at m a size proto from_ to -> NetCksumOk be m a (IP_HDR_SIZE_NO_UDP / 2) = true ->
  IP_HDR_SIZE <= size <= len -> NetOurIP (own n) = 0 \/ to = NetOurIP (own n) \/ to = 0xFFFFFFFF ->
  receive_ip be udp_checksum n m a len = Some (receive_datagram be udp_checksum n m m a size true).
Proof using.
  intros (H1 & H2 & H3 & H4 & H5 & H6) Hc Hlen Hto. unfold IP_HDR_SIZE in Hlen. unfold receive_ip.
  rewrite H1, H2, H6, Hc, (proj2 (Z.ltb_ge len IP_HDR_SIZE)), (proj2 (Z.ltb_ge len size)) by (unfold IP_HDR_SIZE; lia).
  change (negb (Z.land 69 240 =? 64)) with false. change (5 <? Z.land 69 15) with false. cbn [negb].
  replace (negb (NetOurIP (own n) =? 0) && negb (to =? NetOurIP (own n)) && negb (to =? 0xFFFFFFFF)) with false
    by (destruct Hto as [E|[E|E]]; rewrite E; rewrite ?Z.eqb_refl; cbn [negb andb]; by rewrite ?andb_false_r).
  unfold NetDefragment.
  rewrite (net16_ext (rd (mem_list m a (Z.to_nat len))) m 6 (a + 6)), H3
    by (rewrite rd_mem_list by lia; f_equal; lia).
  rewrite Z.eqb_refl. by rewrite set_frags_same.
Qed.
End Arriving.

(** ** Datagrams *)

Definition udp_at (m : mem) (a dport sport size : Z) : Prop :=
  net16 m (a + 20) = sport /\ net16 m (a + 22) = dport /\ net16 m (a + 24) = 8 + size /\ net16 m (a + 26) = 0.

Lemma udp_at_ext m k a dport sport size :
  (forall i, a + 20 <= i < a + 28 -> m i = k i) -> udp_at k a dport sport size -> udp_at m a dport sport size.
Proof.
  intros H (H1 & H2 & H3 & H4). repeat split.
  - by rewrite (net16_ext m k _ (a + 20)) by (apply H; lia).
  - by rewrite (net16_ext m k _ (a + 22)) by (apply H; lia).
  - by rewrite (net16_ext m k _ (a + 24)) by (apply H; lia).
  - by rewrite (net16_ext m k _ (a + 26)) by (apply H; lia).
Qed.

(** The frame of a datagram: addresses, ports, data. *)
Definition udp_frame (m : mem) (v : Z) (ether : Data) (from_ to dport sport : Z) (data : Data) : Prop :=
  on_link m v PROT_IP /\ mem_list m 0 6 = ether /\
  ip_at m (hdr v) (IP_HDR_SIZE + Z.of_nat (length data)) IPPROTO_UDP from_ to /\
  NetCksumOk true m (hdr v) (IP_HDR_SIZE_NO_UDP / 2) = true /\
  udp_at m (hdr v) dport sport (Z.of_nat (length data)) /\
  mem_list m (hdr v + IP_HDR_SIZE) (length data) = data /\ bytes_of m.

(** The frame is at the start of [m]. *)
Definition arrived (f : Data) (m : mem) : Prop := bytes_of m /\ mem_list m 0 (length f) = f.

Lemma arrived_same f m k : arrived f m -> f = mem_list k 0 (length f) ->
  forall i, 0 <= i < Z.of_nat (length f) -> m i = k i.
Proof.
  intros [_ H] Hf i Hi. rewrite Hf in H at 2.
  assert (E : rd (mem_list m 0 (length f)) i = rd (mem_list k 0 (length f)) i) by by rewrite H.
  by rewrite !rd_mem_list, !Z.add_0_l in E by lia.
Qed.

Lemma hdr_range v : 14 <= hdr v <= 18.
Proof. unfold hdr, ETHER_HDR_SIZE, VLAN_ETHER_HDR_SIZE. destruct (v =? VLAN_NONE); lia. Qed.

Lemma on_link_ext m k v prot : (forall i, 12 <= i < hdr v -> m i = k i) -> on_link k v prot -> on_link m v prot.
Proof.
  unfold on_link, hdr, ETHER_HDR_SIZE, VLAN_ETHER_HDR_SIZE. intros H. destruct (v =? VLAN_NONE); [intros H1|intros (H1 & H2 & H3); repeat split].
  - by rewrite (net16_ext m k _ 12) by (apply H; lia).
  - by rewrite (net16_ext m k _ 12) by (apply H; lia).
  - by rewrite (net16_ext m k _ 14) by (apply H; lia).
  - by rewrite (net16_ext m k _ 16) by (apply H; lia).
Qed.

Section Datagram.
Context (be : bool) (n : net) (Hether : address (NetOurEther (own n))) (Hip : 0 <= NetOurIP (own n) < 2 ^ 32).

Lemma NetSetIP_spec m a to dport sport size n' m' :
  NetSetIP be n m a to dport sport size = (n', m') -> bytes_of m -> 0 <= to < 2 ^ 32 ->
  0 <= dport < 65536 -> 0 <= sport < 65536 -> 0 <= size <= 65500 ->
  n' = set_id (u32 (NetIPID n + 1)) n /\ ip_at m' a (IP_HDR_SIZE + size) IPPROTO_UDP (NetOurIP (own n)) to /\
  NetCksumOk true m' a (IP_HDR_SIZE_NO_UDP / 2) = true /\ udp_at m' a dport sport size /\ bytes_of m' /\
  (forall b, b < a \/ a + IP_HDR_SIZE <= b < a + IP_HDR_SIZE + size -> m' b = m b).
Proof using Hip.
  intros H Hm Hto Hd Hs Hsize. unfold NetSetIP, IP_HDR_SIZE in *. injection H as <- <-. split; [done|].
  set (m0 := if Z.land size 1 =? 0 then m else _).
  assert (Hm0 : bytes_of m0). { unfold m0. destruct (_ =? 0); [done|]. by apply bytes_of_upd. }
  assert (Hm0' : forall b, b < a \/ a + 28 <= b < a + 28 + size -> m0 b = m b).
  { intros b Hb. unfold m0. destruct (_ =? 0); [done|]. by rd_upd. }
  clearbody m0.
  destruct (put_ip_header_spec n Hip m0 a (28 + size) 17 to ltac:(lia) ltac:(unfold is_byte; lia) Hto) as (P1 & P2 & P3 & P4).
  specialize (P4 Hm0). set (m1 := put_ip_header _ _ _ _ _ _) in *. clearbody m1.
  set (m2 := put_net16 m1 (a + 20) sport). set (m3 := put_net16 m2 (a + 22) dport).
  set (m4 := put_net16 m3 (a + 24) (8 + size)). set (m5 := put_net16 m4 (a + 26) 0).
  assert (M5 : forall b, ~ (a + 20 <= b < a + 28) -> m5 b = m1 b).
  { intros b Hb. unfold m5, m4, m3, m2. by rewrite !put_net16_out by lia. }
  assert (B5 : bytes_of m5) by by repeat apply bytes_of_put_net16.
  assert (U5 : udp_at m5 a dport sport size).
  { repeat split.
    - rewrite (net16_ext m5 m2 _ (a + 20)) by (unfold m5, m4, m3; by rewrite !put_net16_out by lia). by apply net16_eq.
    - rewrite (net16_ext m5 m3 _ (a + 22)) by (unfold m5, m4; by rewrite !put_net16_out by lia). by apply net16_eq.
    - rewrite (net16_ext m5 m4 _ (a + 24)) by (unfold m5; by rewrite !put_net16_out by lia). apply net16_eq. lia.
    - by apply net16_eq. }
  clearbody m5. apply (ip_at_ext m5) in P1; [|intros i Hi; apply M5; lia].
  assert (P5 : net16 m5 (a + 10) = 0) by (rewrite (net16_ext m5 m1 _ (a + 10)) by (apply M5; lia); done).
  destruct (put_cksum_spec be m5 a _ _ _ _ B5 P1 P5) as (Q1 & Q2 & Q3 & Q4). split; [done|].
  split; [by rewrite <- (cksum_order be) by done|]. split; [|split; [done|]].
  - revert U5. apply udp_at_ext. intros i Hi. apply Q4; lia.
  - intros b Hb. rewrite Q4, M5, P3, Hm0' by lia. done.
Qed.
End Datagram.

Lemma udp_frame_arrived m k v ether from_ to dport sport data f :
  udp_frame k v ether from_ to dport sport data -> f = mem_list k 0 (Z.to_nat (hdr v + IP_HDR_SIZE + Z.of_nat (length data))) ->
  arrived f m -> udp_frame m v ether from_ to dport sport data.
Proof.
  intros (H1 & H2 & H3 & H4 & H5 & H6 & H7) -> Hm. pose proof (hdr_range v) as Hh. pose proof (proj1 Hm) as Hb.
  pose proof (arrived_same _ _ k Hm) as S. rewrite mem_list_length, Z2Nat.id in S by (unfold IP_HDR_SIZE; lia).
  specialize (S eq_refl). unfold IP_HDR_SIZE in *.
  split; [revert H1; apply on_link_ext; intros i Hi; apply S; lia|].
  split; [rewrite <- H2; apply mem_list_ext; intros i Hi; apply S; lia|].
  split; [revert H3; apply ip_at_ext; intros i Hi; apply S; lia|].
  split; [rewrite (cksum_ok_ext true m k); [done..|by unfold IP_HDR_SIZE_NO_UDP|intros i Hi; apply S; change (IP_HDR_SIZE_NO_UDP / 2) with 10 in Hi; lia]|].
  split; [revert H5; apply udp_at_ext; intros i Hi; apply S; lia|]. split; [|done].
  rewrite <- H6 at 2. apply mem_list_ext. intros i Hi. apply S. lia.
Qed.

(** This machine takes what is sent to [to]. *)
Definition takes (n : net) (to : Z) : Prop := NetOurIP (own n) = 0 \/ to = NetOurIP (own n) \/ to = 0xFFFFFFFF.

Lemma udp_frame_received be udp_checksum n m len ether from_ to dport sport data :
  udp_frame m (vlan_of n) ether from_ to dport sport data -> takes n to ->
  hdr (vlan_of n) + IP_HDR_SIZE + Z.of_nat (length data) <= len -> Z.of_nat (length data) <= 65500 ->
  exists p, NetReceive be udp_checksum n m len = Some (n, Some (Call (Some p) dport sport (Z.of_nat (length data)))) /\
    mem_list p 0 (length data) = data.
Proof.
  intros (H1 & H2 & H3 & H4 & H5 & H6 & H7) Ht Hlen Hdata. pose proof (hdr_range (vlan_of n)) as Hh.
  exists (from m (hdr (vlan_of n) + IP_HDR_SIZE)). unfold IP_HDR_SIZE in *. split.
  - rewrite (receive_on_link be udp_checksum n m len PROT_IP) by (done || lia).
    change (PROT_IP =? PROT_ARP) with false. change (PROT_IP =? PROT_RARP) with false. cbv iota. rewrite Z.eqb_refl.
    rewrite (receive_ip_at be udp_checksum n m _ _ _ _ _ _ H3); [|by rewrite cksum_order|unfold IP_HDR_SIZE; lia|done].
    unfold receive_datagram, udp_cksum_ok. destruct H3 as (_ & _ & _ & -> & _). destruct H5 as (-> & -> & -> & ->).
    change (IPPROTO_UDP =? IPPROTO_ICMP) with false. cbn [Z.eqb orb negb]. rewrite andb_false_r.
    change (negb (IPPROTO_UDP =? IPPROTO_UDP)) with false. cbv iota. rewrite u32_small by lia.
    unfold IP_HDR_SIZE. do 4 f_equal. lia.
  - by rewrite mem_list_from, Z.add_0_r.
Qed.

(** ** A datagram is delivered *)

Record well_formed (n : net) : Prop := Well_formed {
  wf_ether : address (NetOurEther (own n)); wf_mac r : address (mac_at r n);
  wf_ip : 0 <= NetOurIP (own n) < 2 ^ 32; wf_gateway : 0 <= NetOurGatewayIP (own n) < 2 ^ 32;
  wf_tx : bytes_of (NetTxPacket n); wf_wait : bytes_of (NetArpWaitTxPacket (arp n)) }.

(** What is built for a datagram, with the data that is in the buffer. *)
Lemma udp_built be n m to dport sport size ether m1 h n' m2 :
  well_formed n -> bytes_of m -> address ether -> 0 <= to < 2 ^ 32 -> 0 <= dport < 65536 -> 0 <= sport < 65536 ->
  0 <= size <= 65500 ->
  NetSetEther n m ether PROT_IP = (m1, h) -> NetSetIP be n m1 h to dport sport size = (n', m2) ->
  h = hdr (vlan_of n) /\ n' = set_id (u32 (NetIPID n + 1)) n /\
  (forall k, bytes_of k -> (forall b, b < h + IP_HDR_SIZE -> k b = m2 b) ->
    udp_frame k (vlan_of n) ether (NetOurIP (own n)) to dport sport (mem_list k (h + IP_HDR_SIZE) (Z.to_nat size))) /\
  bytes_of m2 /\ forall b, h + IP_HDR_SIZE <= b < h + IP_HDR_SIZE + size -> m2 b = m b.
Proof.
  intros W Hm He Hto Hd Hs Hsize H1 H2.
  destruct (NetSetEther_spec n (wf_ether n W) _ _ _ _ _ H1 He ltac:(by unfold PROT_IP)) as (-> & E1 & E2 & E3 & E4 & E5).
  destruct (NetSetIP_spec be n (wf_ip n W) _ _ _ _ _ _ _ _ H2 (E5 Hm) Hto Hd Hs Hsize) as (-> & I1 & I2 & I3 & I4 & I5).
  pose proof (hdr_range (vlan_of n)) as Hh. split; [done|]. split; [done|]. unfold IP_HDR_SIZE in *. split; [|split; [done|]].
  - intros k Hk S. unfold udp_frame. rewrite mem_list_length, Z2Nat.id by lia. unfold IP_HDR_SIZE in *.
    split; [revert E1; apply on_link_ext; intros i Hi; rewrite S by lia; apply I5; lia|].
    split; [rewrite <- E2; apply mem_list_ext; intros i Hi; rewrite S by lia; apply I5; lia|].
    split; [revert I1; apply ip_at_ext; intros i Hi; apply S; lia|].
    split; [rewrite (cksum_ok_ext true k m2);
      [done..|by unfold IP_HDR_SIZE_NO_UDP|intros i Hi; apply S; change (IP_HDR_SIZE_NO_UDP / 2) with 10 in Hi; lia]|].
    split; [revert I3; apply udp_at_ext; intros i Hi; apply S; lia|]. done.
  - intros b Hb. rewrite I5 by lia. apply E4. lia.
Qed.

(** A datagram that is sent to a known Ethernet address, or to all machines, arrives: for any frame that starts
    with what the sender gave to its driver, the receiver on the same VLAN, of whatever byte order, calls its packet
    handler with the ports and the data of the sender.  It does not answer, and nothing else of its state changes. *)
Theorem udp_delivered be be' udp_checksum now a ether to dport sport data a' r b :
  well_formed a -> 0 <= to < 2 ^ 32 -> 0 <= dport < 65536 -> 0 <= sport < 65536 -> Z.of_nat (length data) <= 65500 ->
  mem_list (NetTxPacket a) (NetEthHdrSize a + IP_HDR_SIZE) (length data) = data ->
  mac_at ether a <> NetEtherNullAddr \/ to = 0 \/ to = 0xFFFFFFFF ->
  vlan_of a = vlan_of b -> takes b to \/ to = 0 ->
  NetSendUDPPacket be now a ether to dport sport (Z.of_nat (length data)) = (a', r) ->
  r = 0 /\ exists f, sent a' = sent a ++ [f] /\
    forall m len, arrived f m -> Z.of_nat (length f) <= len ->
      exists p, NetReceive be' udp_checksum b m len = Some (b, Some (Call (Some p) dport sport (Z.of_nat (length data)))) /\
        mem_list p 0 (length data) = data.
Proof.
  intros W Hto Hd Hs Hdata Htx Hmac Hv Ht H. unfold NetSendUDPPacket in H.
  set (to' := if to =? 0 then _ else to) in *. assert (Hto' : 0 <= to' < 2 ^ 32) by (unfold to'; by destruct (to =? 0)).
  assert (Ht' : takes b to').
  { unfold to'. destruct Ht as [Ht| ->]; [|by right; right]. destruct (_ =? 0); [by right; right|done]. }
  set (ether' := if to' =? _ then _ else ether) in *.
  assert (Hmac' : mac_at ether' a <> NetEtherNullAddr).
  { unfold ether', to'. destruct Hmac as [Hmac|[-> | ->]]; [|done..]. destruct (to =? 0); [done|]. by destruct (_ =? _). }
  clearbody to' ether'. clear Hto Ht Hmac. rewrite bool_decide_eq_false_2 in H by done.
  destruct (NetSetEther _ _ _ _) as [m1 h] eqn:H1. destruct (NetSetIP _ _ _ _ _ _ _ _) as [n' m2] eqn:H2.
  destruct (udp_built be a _ _ _ _ _ _ _ _ _ _ W (wf_tx a W) (wf_mac a W ether') Hto' Hd Hs (conj (Nat2Z.is_nonneg _) Hdata) H1 H2)
    as (-> & -> & U & B2 & S2). injection H as <- <-. split; [done|]. eexists. split; [done|]. intros m len Hm Hlen.
  rewrite NetEthHdrSize_hdr in Htx. rewrite Nat2Z.id in U.
  specialize (U m2 B2 (fun _ _ => eq_refl)). pose proof (hdr_range (vlan_of a)) as Hh.
  assert (E : mem_list m2 (hdr (vlan_of a) + IP_HDR_SIZE) (length data) = data).
  { rewrite <- Htx at 2. apply mem_list_ext. intros i Hi. apply S2. lia. }
  rewrite E in U. rewrite mem_list_length, Z2Nat.id in Hlen by (unfold IP_HDR_SIZE; lia). rewrite Hv in *.
  apply (udp_frame_received be' udp_checksum b m len _ _ _ _ _ _ (udp_frame_arrived _ _ _ _ _ _ _ _ _ _ U eq_refl Hm)); done.
Qed.

(** ** Addresses are resolved *)

(** An ARP packet: operation, sender and the address asked for. *)
Definition arp_at (m : mem) (a op : Z) (ether : Data) (from_ to : Z) : Prop :=
  net16 m a = ARP_ETHER /\ net16 m (a + 2) = PROT_IP /\ m (a + 4) = 6 /\ m (a + 5) = 4 /\ net16 m (a + 6) = op /\
  mem_list m (a + 8) 6 = ether /\ NetReadIP m (a + 14) = from_ /\ NetReadIP m (a + 24) = to.

Lemma arp_at_ext m k a op ether from_ to :
  (forall i, a <= i < a + 28 -> m i = k i) -> arp_at k a op ether from_ to -> arp_at m a op ether from_ to.
Proof.
  intros H (H1 & H2 & H3 & H4 & H5 & H6 & H7 & H8).
  split; [by rewrite (net16_ext m k _ a) by (apply H; lia)|]. split; [by rewrite (net16_ext m k _ (a + 2)) by (apply H; lia)|].
  split; [by rewrite H by lia|]. split; [by rewrite H by lia|].
  split; [by rewrite (net16_ext m k _ (a + 6)) by (apply H; lia)|].
  split; [rewrite <- H6; apply mem_list_ext; intros i Hi; apply H; lia|].
  split; [by rewrite (NetReadIP_ext m k _ (a + 14)) by (intros; apply H; lia)|].
  by rewrite (NetReadIP_ext m k _ (a + 24)) by (intros; apply H; lia).
Qed.

(** The frame of an ARP packet, and its bytes. *)
Definition arp_frame (m : mem) (v op : Z) (ether : Data) (from_ to : Z) : Prop :=
  on_link m v PROT_ARP /\ mem_list m 6 6 = ether /\ arp_at m (hdr v) op ether from_ to /\ bytes_of m.
Definition arp_sent (f : Data) (v op : Z) (ether : Data) (from_ to : Z) : Prop :=
  length f = Z.to_nat (hdr v + ARP_HDR_SIZE) /\ exists m, f = mem_list m 0 (length f) /\ arp_frame m v op ether from_ to.

Lemma arp_arrived m v op ether from_ to f :
  arp_sent f v op ether from_ to -> arrived f m -> arp_frame m v op ether from_ to.
Proof.
  intros (Hf & k & Hk & H1 & H2 & H3 & H4) Hm. pose proof (hdr_range v) as Hh. pose proof (proj1 Hm) as Hb.
  pose proof (arrived_same _ _ k Hm Hk) as S. rewrite Hf, Z2Nat.id in S by (unfold ARP_HDR_SIZE; lia).
  unfold ARP_HDR_SIZE in S.
  split; [revert H1; apply on_link_ext; intros i Hi; apply S; lia|].
  split; [rewrite <- H2; apply mem_list_ext; intros i Hi; apply S; lia|].
  split; [revert H3; apply arp_at_ext; intros i Hi; apply S; lia|done].
Qed.

(** Who is asked for the way to [to]. *)
Definition next_hop (n : net) (to : Z) : Z :=
  if negb (Z.land to (NetOurSubnetMask (own n)) =? Z.land (NetOurIP (own n)) (NetOurSubnetMask (own n))) &&
    negb (NetOurGatewayIP (own n) =? 0) then NetOurGatewayIP (own n) else to.

Definition set_reply (ip : Z) : net -> net := set_arp (fun w =>
  Arp_wait (NetArpWaitPacketIP w) ip (NetArpWaitPacketMAC w) (NetArpWaitTxPacket w)
    (NetArpWaitTxPacketSize w) (NetArpWaitTimerStart w) (NetArpWaitTry w)).

(** What a request changes. *)
Record requested (n n' : net) : Prop := Requested {
  rq_own : own n' = own n; rq_loop : loop n' = loop n; rq_ping : ping n' = ping n; rq_id : NetIPID n' = NetIPID n;
  rq_frags : frags n' = frags n;
  rq_arp : arp n' = arp (set_reply (next_hop n (NetArpWaitPacketIP (arp n))) n);
  rq_tx : bytes_of (NetTxPacket n');
  rq_sent : exists f, sent n' = sent n ++ [f] /\
    arp_sent f (vlan_of n) ARPOP_REQUEST (NetOurEther (own n)) (NetOurIP (own n))
      (next_hop n (NetArpWaitPacketIP (arp n))) }.

Lemma next_hop_range n to : well_formed n -> 0 <= to < 2 ^ 32 -> 0 <= next_hop n to < 2 ^ 32.
Proof. intros W Hto. unfold next_hop. destruct (_ && _); [apply (wf_gateway n W)|done]. Qed.

Lemma address_bcast : address NetBcastAddr.
Proof. split; [done|]. unfold NetBcastAddr. cbn [repeat]. by repeat (apply List.Forall_cons; [done|]). Qed.

Lemma request_built m a ether ip hop :
  address ether -> 0 <= ip < 2 ^ 32 -> 0 <= hop < 2 ^ 32 -> bytes_of m ->
  let m' := NetWriteIP (store_list (NetWriteIP (store_list (put_net16 (put_net16 (put_net16 m a ARP_ETHER) (a + 2)
    PROT_IP).[a + 4 <- 6].[a + 5 <- 4] (a + 6) ARPOP_REQUEST) (a + 8) ether) (a + 14) ip) (a + 18) (repeat 0 6)) (a + 24) hop in
  arp_at m' a ARPOP_REQUEST ether ip hop /\ (forall i, i < a -> m' i = m i) /\ bytes_of m'.
Proof.
  intros [He Heb] Hip Hhop Hm. set (m1 := put_net16 m a _). set (m2 := put_net16 m1 (a + 2) _).
  set (m3 := put_net16 _ (a + 6) _). set (m4 := store_list m3 (a + 8) _). set (m5 := NetWriteIP m4 (a + 14) _).
  set (m6 := store_list m5 (a + 18) _). set (m7 := NetWriteIP m6 (a + 24) hop). cbv zeta.
  assert (H7 : forall i, ~ (a + 24 <= i < a + 28) -> m7 i = m6 i). { intros i Hi. apply NetWriteIP_out. lia. }
  assert (H6 : forall i, ~ (a + 18 <= i < a + 24) -> m6 i = m5 i). { intros i Hi. apply store_list_out. cbn. lia. }
  assert (H5 : forall i, ~ (a + 14 <= i < a + 18) -> m5 i = m4 i). { intros i Hi. apply NetWriteIP_out. lia. }
  assert (H4 : forall i, ~ (a + 8 <= i < a + 14) -> m4 i = m3 i). { intros i Hi. apply store_list_out. lia. }
  assert (H3 : forall i, ~ (a + 4 <= i < a + 8) -> m3 i = m2 i). { intros i Hi. unfold m3. rewrite put_net16_out by lia. by rd_upd. }
  assert (H2 : forall i, ~ (a + 2 <= i < a + 4) -> m2 i = m1 i). { intros i Hi. apply put_net16_out; lia. }
  split; [|split].
  - split; [rewrite (net16_ext m7 m1 _ a) by (rewrite H7, H6, H5, H4, H3, H2 by lia; done); by apply net16_eq|].
    split; [rewrite (net16_ext m7 m2 _ (a + 2)) by (rewrite H7, H6, H5, H4, H3 by lia; done); by apply net16_eq|].
    split; [rewrite H7, H6, H5, H4 by lia; unfold m3; rewrite put_net16_out by lia; by rd_upd|].
    split; [rewrite H7, H6, H5, H4 by lia; unfold m3; rewrite put_net16_out by lia; by rd_upd|].
    split; [rewrite (net16_ext m7 m3 _ (a + 6)) by (rewrite H7, H6, H5, H4 by lia; done); by apply net16_eq|].
    split; [|split; [|by apply NetReadIP_write]].
    + transitivity (mem_list m4 (a + 8) 6); [apply mem_list_ext; intros i Hi; rewrite H7, H6, H5 by lia; done|].
      rewrite <- He at 1. apply mem_list_store.
    + rewrite (NetReadIP_ext m7 m5 _ (a + 14)) by (intros i Hi; rewrite H7, H6 by lia; done). by apply NetReadIP_write.
  - intros i Hi. rewrite H7, H6, H5, H4, H3, H2 by lia. apply put_net16_out; lia.
  - unfold m7, m6, m5, m4, m3, m2, m1, NetWriteIP.
    repeat first [apply frame_store; [|first [apply bytes_of_ip|done|by repeat (apply List.Forall_cons; [done|])]]
      |apply bytes_of_put_net16|apply bytes_of_upd]; done.
Qed.

Lemma ArpRequest_spec n : well_formed n -> 0 <= NetArpWaitPacketIP (arp n) < 2 ^ 32 -> requested n (ArpRequest n).
Proof.
  intros W Hw. unfold ArpRequest. destruct (NetSetEther _ _ _ _) as [m h] eqn:E.
  destruct (NetSetEther_spec n (wf_ether n W) _ _ _ _ _ E address_bcast ltac:(by unfold PROT_ARP)) as (-> & E1 & _ & E3 & _ & E5).
  specialize (E5 (wf_tx n W)). pose proof (hdr_range (vlan_of n)) as Hh. pose proof (next_hop_range n _ W Hw) as Hn.
  destruct (request_built m (hdr (vlan_of n)) _ _ _ (wf_ether n W) (wf_ip n W) Hn E5) as (R1 & R2 & R3).
  set (away := negb (Z.land _ _ =? _)). set (warned := if away && _ then puts Gateway_needed n else n).
  assert (Ho : own warned = own n) by (unfold warned; by destruct (_ && _)). rewrite !Ho.
  change (if away && negb (NetOurGatewayIP (own n) =? 0) then NetOurGatewayIP (own n) else NetArpWaitPacketIP (arp n))
    with (next_hop n (NetArpWaitPacketIP (arp n))). set (m' := NetWriteIP _ _ (next_hop _ _)) in *.
  assert (F : arp_frame m' (vlan_of n) ARPOP_REQUEST (NetOurEther (own n)) (NetOurIP (own n))
    (next_hop n (NetArpWaitPacketIP (arp n)))).
  { split; [revert E1; apply on_link_ext; intros i Hi; apply R2; lia|].
    split; [rewrite <- E3; apply mem_list_ext; intros i Hi; apply R2; lia|done]. }
  clearbody m'. unfold warned. destruct (away && _); constructor; try done;
    (eexists; split; [done|]; split; [apply mem_list_length|]; exists m'; by rewrite mem_list_length).
Qed.

Lemma mem_list_6 m a : length (mem_list m a 6) = 6%nat.
Proof. apply mem_list_length. Qed.

Lemma address_list m a : bytes_of m -> address (mem_list m a 6).
Proof. intros H. split; [apply mem_list_length|by apply bytes_of_list]. Qed.

(** The answer: our addresses, to the one who asked. *)
Lemma reply_built m a ether ip from_ to_ether op to :
  address ether -> 0 <= ip < 2 ^ 32 -> bytes_of m -> arp_at m a op to_ether from_ to ->
  let m' := NetWriteIP (store_list (store_list (store_list (put_net16 m (a + 6) ARPOP_REPLY) (a + 18)
    (mem_list (put_net16 m (a + 6) ARPOP_REPLY) (a + 8) 6)) (a + 24)
    (mem_list (store_list (put_net16 m (a + 6) ARPOP_REPLY) (a + 18)
      (mem_list (put_net16 m (a + 6) ARPOP_REPLY) (a + 8) 6)) (a + 14) 4)) (a + 8) ether) (a + 14) ip in
  arp_at m' a ARPOP_REPLY ether ip from_ /\ (forall i, i < a -> m' i = m i) /\ bytes_of m'.
Proof.
  intros [He Heb] Hip Hm (H1 & H2 & H3 & H4 & _ & _ & H7 & _). set (m1 := put_net16 m (a + 6) _).
  set (m2 := store_list m1 (a + 18) _). set (m3 := store_list m2 (a + 24) _). set (m4 := store_list m3 (a + 8) ether).
  set (m5 := NetWriteIP m4 (a + 14) ip). cbv zeta.
  assert (B1 : bytes_of m1) by by apply bytes_of_put_net16.
  assert (B2 : bytes_of m2) by (apply frame_store; [done|by apply bytes_of_list]).
  assert (R5 : forall i, ~ (a + 14 <= i < a + 18) -> m5 i = m4 i). { intros i Hi. apply NetWriteIP_out. lia. }
  assert (R4 : forall i, ~ (a + 8 <= i < a + 14) -> m4 i = m3 i). { intros i Hi. apply store_list_out. lia. }
  assert (R3 : forall i, ~ (a + 24 <= i < a + 28) -> m3 i = m2 i).
  { intros i Hi. apply store_list_out. rewrite mem_list_length. lia. }
  assert (R2 : forall i, ~ (a + 18 <= i < a + 24) -> m2 i = m1 i).
  { intros i Hi. apply store_list_out. rewrite mem_list_length. lia. }
  assert (R1 : forall i, ~ (a + 6 <= i < a + 8) -> m1 i = m i). { intros i Hi. apply put_net16_out; lia. }
  split; [|split].
  - split; [by rewrite (net16_ext m5 m _ a) by (rewrite R5, R4, R3, R2, R1 by lia; done)|].
    split; [by rewrite (net16_ext m5 m _ (a + 2)) by (rewrite R5, R4, R3, R2, R1 by lia; done)|].
    split; [by rewrite R5, R4, R3, R2, R1 by lia|]. split; [by rewrite R5, R4, R3, R2, R1 by lia|].
    split; [rewrite (net16_ext m5 m1 _ (a + 6)) by (rewrite R5, R4, R3, R2 by lia; done); by apply net16_eq|].
    split; [|split; [by apply NetReadIP_write|]].
    + transitivity (mem_list m4 (a + 8) 6); [apply mem_list_ext; intros i Hi; apply R5; lia|].
      rewrite <- He at 1. apply mem_list_store.
    + rewrite <- H7. apply NetReadIP_ext. intros i Hi. rewrite R5, R4 by lia. unfold m3.
      rewrite store_list_in by (rewrite mem_list_length; lia). rewrite rd_mem_list by lia. by rewrite R2, R1 by lia.
  - intros i Hi. by rewrite R5, R4, R3, R2, R1 by lia.
  - apply frame_store; [|apply bytes_of_ip]. apply frame_store; [|done].
    apply frame_store; [done|by apply bytes_of_list].
Qed.

Lemma request_answered be u n m len ether from_ :
  well_formed n -> NetOurIP (own n) <> 0 -> hdr (vlan_of n) + ARP_HDR_SIZE <= len ->
  arp_frame m (vlan_of n) ARPOP_REQUEST ether from_ (NetOurIP (own n)) ->
  exists f, NetReceive be u n m len = Some (eth_send f n, None) /\
    arp_sent f (vlan_of n) ARPOP_REPLY (NetOurEther (own n)) (NetOurIP (own n)) from_.
Proof.
  intros W Hip Hlen (H1 & H2 & H3 & H4). pose proof (hdr_range (vlan_of n)) as Hh. unfold ARP_HDR_SIZE in Hlen.
  rewrite (receive_on_link be u n m len PROT_ARP) by (done || lia). rewrite Z.eqb_refl. unfold receive_arp, arp_for_us.
  rewrite (proj2 (Z.ltb_ge (len - _) ARP_HDR_SIZE)) by (unfold ARP_HDR_SIZE; lia).
  pose proof H3 as (A1 & A2 & A3 & A4 & A5 & A6 & A7 & A8). rewrite A1, A2, A3, A4, A5, A8.
  rewrite (proj2 (Z.eqb_neq (NetOurIP (own n)) 0)) by done. rewrite !Z.eqb_refl. cbn [negb andb].
  change (6 =? 6) with true. change (4 =? 4) with true. cbn [negb andb].
  destruct (NetSetEther _ _ _ _) as [m1 h] eqn:E.
  destruct (NetSetEther_spec n (wf_ether n W) _ _ _ _ _ E (address_list m 6 H4) ltac:(by unfold PROT_ARP))
    as (-> & E1 & _ & E3 & E4 & E5). specialize (E5 H4).
  assert (H3' : arp_at m1 (hdr (vlan_of n)) ARPOP_REQUEST ether from_ (NetOurIP (own n))).
  { revert H3. apply arp_at_ext. intros i Hi. apply E4. lia. }
  destruct (reply_built m1 _ _ _ _ _ _ _ (wf_ether n W) (wf_ip n W) E5 H3') as (R1 & R2 & R3).
  eexists. split; [done|]. split; [apply mem_list_length|]. rewrite mem_list_length. eexists. split; [done|].
  split; [revert E1; apply on_link_ext; intros i Hi; apply R2; lia|].
  split; [|done]. etransitivity; [|exact E3]. apply mem_list_ext. intros i Hi. apply R2. lia.
Qed.

(** What is put aside goes to the address that was learnt. *)
Definition learnt (r : mac_ref) (ether : Data) (n : net) : net :=
  let waiting := store_list (NetArpWaitTxPacket (arp n)) 0 ether in
  set_arp (fun w => Arp_wait 0 (NetArpWaitReplyIP w) None waiting 0 (NetArpWaitTimerStart w) (NetArpWaitTry w))
    (eth_send (mem_list waiting 0 (Z.to_nat (NetArpWaitTxPacketSize (arp n)))) (set_mac_at r ether n)).

Lemma learnt_sent r ether n :
  sent (learnt r ether n) = sent n ++
    [mem_list (store_list (NetArpWaitTxPacket (arp n)) 0 ether) 0 (Z.to_nat (NetArpWaitTxPacketSize (arp n)))].
Proof. by destruct r. Qed.

Lemma learnt_mac r ether n : r <> Bcast_ether -> mac_at r (learnt r ether n) = ether.
Proof. by destruct r. Qed.

Lemma reply_taken be u n m len r ether :
  NetOurIP (own n) <> 0 -> hdr (vlan_of n) + ARP_HDR_SIZE <= len -> r <> Bcast_ether ->
  NetArpWaitPacketMAC (arp n) = Some r -> NetArpWaitPacketIP (arp n) <> 0 ->
  arp_frame m (vlan_of n) ARPOP_REPLY ether (NetArpWaitReplyIP (arp n)) (NetOurIP (own n)) ->
  NetReceive be u n m len = Some (learnt r ether n, None).
Proof.
  intros Hip Hlen Hr Hw Hwi (H1 & H2 & H3 & H4). pose proof (hdr_range (vlan_of n)) as Hh. unfold ARP_HDR_SIZE in Hlen.
  rewrite (receive_on_link be u n m len PROT_ARP) by (done || lia). rewrite Z.eqb_refl. unfold receive_arp, arp_for_us.
  rewrite (proj2 (Z.ltb_ge (len - _) ARP_HDR_SIZE)) by (unfold ARP_HDR_SIZE; lia).
  pose proof H3 as (A1 & A2 & A3 & A4 & A5 & A6 & A7 & A8). rewrite A1, A2, A3, A4, A5, A6, A7, A8, Hw.
  rewrite (proj2 (Z.eqb_neq (NetOurIP (own n)) 0)), (proj2 (Z.eqb_neq (NetArpWaitPacketIP (arp n)) 0)) by done.
  rewrite !Z.eqb_refl. cbn [negb andb]. change (6 =? 6) with true. change (4 =? 4) with true. cbn [negb andb].
  change (ARPOP_REPLY =? ARPOP_REQUEST) with false. change (ARPOP_REPLY =? ARPOP_REPLY) with true. cbv iota.
  unfold learnt. by destruct r.
Qed.

Lemma arrived_whole m k (size : Z) : arrived (mem_list k 0 (Z.to_nat size)) m -> forall i, 0 <= i < size -> m i = k i.
Proof.
  intros H i Hi. apply (arrived_same _ _ _ H); [by rewrite mem_list_length|]. rewrite mem_list_length. lia.
Qed.

(** The address of the frame is what the code copies to its start. *)
Lemma udp_frame_to m v ether ether' from_ to dport sport data :
  udp_frame m v ether from_ to dport sport data -> address ether' ->
  udp_frame (store_list m 0 ether') v ether' from_ to dport sport data.
Proof.
  intros (H1 & H2 & H3 & H4 & H5 & H6 & H7) [He Hb]. pose proof (hdr_range v) as Hh. unfold IP_HDR_SIZE in *.
  assert (S : forall i, 6 <= i -> store_list m 0 ether' i = m i). { intros i Hi. apply store_list_out. lia. }
  assert (B : bytes_of (store_list m 0 ether')) by by apply frame_store.
  split; [revert H1; apply on_link_ext; intros i Hi; apply S; lia|].
  split; [rewrite <- He at 1; apply mem_list_store|].
  split; [revert H3; apply ip_at_ext; intros i Hi; apply S; lia|].
  split; [rewrite (cksum_ok_ext true _ m); [done..|by unfold IP_HDR_SIZE_NO_UDP|intros i Hi; apply S; lia]|].
  split; [revert H5; apply udp_at_ext; intros i Hi; apply S; lia|]. split; [|done].
  etransitivity; [|exact H6]. apply mem_list_ext. intros i Hi. apply S. unfold IP_HDR_SIZE. lia.
Qed.

(** A packet is put aside: the request. *)
Lemma wait_for_mac_spec now r ip m size n :
  well_formed n -> bytes_of m -> 0 <= ip < 2 ^ 32 ->
  let n' := wait_for_mac now r ip m size n in
  own n' = own n /\ loop n' = loop n /\ ping n' = ping n /\ frags n' = frags n /\
  arp n' = Arp_wait ip (next_hop n ip) (Some r) m size now 1 /\ exists req, sent n' = sent n ++ [req] /\
    arp_sent req (vlan_of n) ARPOP_REQUEST (NetOurEther (own n)) (NetOurIP (own n)) (next_hop n ip).
Proof.
  intros W Hm Hip. cbv zeta. unfold wait_for_mac. set (n0 := set_arp _ n).
  assert (W0 : well_formed n0) by (destruct W; by constructor).
  destruct (ArpRequest_spec n0 W0 Hip) as [R1 R2 R3 R4 R5 R6 R7 R8]. repeat (split; [done|]). done.
Qed.

(** The other machine answers it, and the packet leaves. *)
Lemma resolved be be' u u' a' b v req r :
  arp_sent req v ARPOP_REQUEST (NetOurEther (own a')) (NetOurIP (own a')) (NetOurIP (own b)) ->
  well_formed b -> NetOurIP (own a') <> 0 -> NetOurIP (own b) <> 0 -> v = vlan_of a' -> v = vlan_of b ->
  NetArpWaitPacketMAC (arp a') = Some r -> r <> Bcast_ether -> NetArpWaitPacketIP (arp a') <> 0 ->
  NetArpWaitReplyIP (arp a') = NetOurIP (own b) ->
  forall m1 len1, arrived req m1 -> Z.of_nat (length req) <= len1 ->
  exists rep, NetReceive be' u' b m1 len1 = Some (eth_send rep b, None) /\
    forall m2 len2, arrived rep m2 -> Z.of_nat (length rep) <= len2 ->
    NetReceive be u a' m2 len2 = Some (learnt r (NetOurEther (own b)) a', None).
Proof.
  intros Hreq Wb Ha Hb -> Hv Hr Hr' Hw Hrep m1 len1 Hm1 Hl1. pose proof (hdr_range (vlan_of a')) as Hh.
  pose proof (arp_arrived _ _ _ _ _ _ _ Hreq Hm1) as F1. destruct Hreq as [Hl _]. rewrite Hl in Hl1.
  unfold ARP_HDR_SIZE in *. rewrite Z2Nat.id in Hl1 by lia.
  destruct (request_answered be' u' b m1 len1 _ _ Wb Hb ltac:(unfold ARP_HDR_SIZE; rewrite <- Hv; exact Hl1)
    ltac:(rewrite <- Hv; exact F1)) as (rep & E & Hsent).
  exists rep. split; [done|]. intros m2 len2 Hm2 Hl2. pose proof (arp_arrived _ _ _ _ _ _ _ Hsent Hm2) as F2.
  destruct Hsent as [Hl' _]. rewrite Hl', <- Hv in Hl2. unfold ARP_HDR_SIZE in Hl2. rewrite Z2Nat.id in Hl2 by lia.
  rewrite <- Hv in F2. apply reply_taken; try done. by rewrite Hrep.
Qed.

(** C18: A datagram for a machine whose Ethernet address is not known is delivered after one exchange of ARP packets.
    The sender puts it aside and broadcasts a request; the machine with that address, on the same VLAN and of whatever
    byte order, answers it; the answer makes the sender learn the address and send the datagram, and nothing waits any longer;
    the receiver then calls its packet handler with the ports and the data of the sender. *)
Theorem arp_exchange be be' u u' now a ether to dport sport data a' r b :
  well_formed a -> well_formed b -> 0 < to < 0xFFFFFFFF -> 0 <= dport < 65536 -> 0 <= sport < 65536 ->
  Z.of_nat (length data) <= 65500 -> mem_list (NetTxPacket a) (NetEthHdrSize a + IP_HDR_SIZE) (length data) = data ->
  mac_at ether a = NetEtherNullAddr -> NetOurIP (own a) <> 0 -> NetOurIP (own b) = to -> next_hop a to = to ->
  vlan_of a = vlan_of b ->
  NetSendUDPPacket be now a ether to dport sport (Z.of_nat (length data)) = (a', r) ->
  r = 1 /\ exists req, sent a' = sent a ++ [req] /\
    forall m1 len1, arrived req m1 -> Z.of_nat (length req) <= len1 ->
    exists rep, NetReceive be' u' b m1 len1 = Some (eth_send rep b, None) /\
      forall m2 len2, arrived rep m2 -> Z.of_nat (length rep) <= len2 ->
      exists f a'', NetReceive be u a' m2 len2 = Some (a'', None) /\ sent a'' = sent a' ++ [f] /\
        mac_at ether a'' = NetOurEther (own b) /\ NetArpWaitPacketIP (arp a'') = 0 /\
        forall m3 len3, arrived f m3 -> Z.of_nat (length f) <= len3 ->
        exists p, NetReceive be' u' (eth_send rep b) m3 len3 =
            Some (eth_send rep b, Some (Call (Some p) dport sport (Z.of_nat (length data)))) /\
          mem_list p 0 (length data) = data.
Proof.
  intros W Wb Hto Hd Hs Hdata Htx Hmac Ha Hb Hhop Hv H. unfold NetSendUDPPacket in H.
  rewrite (proj2 (Z.eqb_neq to 0)), (proj2 (Z.eqb_neq to 0xFFFFFFFF)), bool_decide_eq_true_2 in H by (done || lia).
  assert (Hr : ether <> Bcast_ether) by by intros ->.
  assert (Hto' : 0 <= to < 2 ^ 32) by (change (2 ^ 32) with (0xFFFFFFFF + 1); lia).
  destruct (NetSetEther _ _ _ _) as [m1 h] eqn:H1. destruct (NetSetIP _ _ _ _ _ _ _ _) as [n' m2] eqn:H2.
  destruct (udp_built be a _ _ _ _ _ _ _ _ _ _ W (wf_wait a W) (wf_mac a W ether) Hto' Hd Hs
    (conj (Nat2Z.is_nonneg _) Hdata) H1 H2) as (-> & -> & U & B2 & _).
  rewrite NetEthHdrSize_hdr in Htx. rewrite Nat2Z.id in *. cbn [set_id NetTxPacket] in H. rewrite Htx in H.
  set (k := store_list m2 _ data) in *. set (n' := set_id _ a) in *.
  assert (Wn' : well_formed n') by (destruct W; by constructor).
  assert (Bd : Forall is_byte data) by (rewrite <- Htx; apply bytes_of_list, (wf_tx a W)).
  specialize (U k ltac:(by apply frame_store) ltac:(intros b' Hb'; apply store_list_out; lia)).
  unfold k in U at 2. rewrite mem_list_store in U. fold k in U. clearbody k.
  destruct (wait_for_mac_spec now ether to k (hdr (vlan_of a) + IP_HDR_SIZE + Z.of_nat (length data)) n' Wn') as
    (W1 & W2 & W3 & W4 & W5 & req & W6 & W7); [apply U|done|].
  injection H as <- <-. split; [done|]. set (a' := wait_for_mac _ _ _ _ _ _) in *. exists req. split; [done|].
  assert (Hh : next_hop n' to = NetOurIP (own b)) by by rewrite Hb.
  rewrite Hh in W7, W5. change (own n') with (own a) in *. change (vlan_of n') with (vlan_of a) in W7. rewrite <- W1 in W7.
  assert (Hv' : vlan_of a = vlan_of a') by (unfold vlan_of; by rewrite W1).
  intros q1 len1 Q1 L1.
  destruct (resolved be be' u u' a' b (vlan_of a) req ether W7 Wb) with (m1 := q1) (len1 := len1) as (rep & R1 & R2);
    rewrite ?W1, ?W5; try done; try (cbn; lia).
  exists rep. split; [done|]. intros q2 len2 Q2 L2. specialize (R2 q2 len2 Q2 L2).
  eexists _, _. split; [exact R2|]. split; [apply learnt_sent|]. split; [by apply learnt_mac|]. split; [done|]. intros q3 len3 Q3 L3.
  rewrite W5 in Q3, L3. cbn [NetArpWaitTxPacket NetArpWaitTxPacketSize] in Q3, L3. pose proof (hdr_range (vlan_of a)) as Hh'.
  rewrite mem_list_length, Z2Nat.id in L3 by (unfold IP_HDR_SIZE; lia).
  pose proof (udp_frame_to _ _ _ _ _ _ _ _ _ U (wf_ether b Wb)) as U'.
  pose proof (udp_frame_arrived _ _ _ _ _ _ _ _ _ _ U' eq_refl Q3) as U3. rewrite Hv in *.
  apply (udp_frame_received be' u' (eth_send rep b) q3 len3 _ _ _ _ _ _ U3); [by right; left|done|done].
Qed.

(** ** Ping *)

Definition icmp_frame (m : mem) (v type : Z) (ether from_ether : Data) (from_ to : Z) : Prop :=
  on_link m v PROT_IP /\ mem_list m 0 6 = ether /\ mem_list m 6 6 = from_ether /\
  ip_at m (hdr v) IP_HDR_SIZE IPPROTO_ICMP from_ to /\ NetCksumOk true m (hdr v) (IP_HDR_SIZE_NO_UDP / 2) = true /\
  m (hdr v + 20) = type /\ bytes_of m.

Lemma icmp_frame_ext m k v type ether ether' from_ from_ether to :
  icmp_frame k v type ether from_ether from_ to -> bytes_of m ->
  (forall i, 6 <= i < hdr v + IP_HDR_SIZE -> m i = k i) -> mem_list m 0 6 = ether' ->
  icmp_frame m v type ether' from_ether from_ to.
Proof.
  intros (H1 & H2 & H3 & H4 & H5 & H6 & H7) Hm S H. pose proof (hdr_range v) as Hh. unfold IP_HDR_SIZE in S.
  split; [revert H1; apply on_link_ext; intros i Hi; apply S; lia|]. split; [done|].
  split; [rewrite <- H3; apply mem_list_ext; intros i Hi; apply S; lia|].
  split; [revert H4; apply ip_at_ext; intros i Hi; apply S; lia|].
  split; [rewrite (cksum_ok_ext true m k);
    [done..|by unfold IP_HDR_SIZE_NO_UDP|intros i Hi; apply S; change (IP_HDR_SIZE_NO_UDP / 2) with 10 in Hi; lia]|].
  split; [by rewrite S by lia|done].
Qed.

Lemma icmp_frame_arrived m k v type ether from_ether from_ to :
  icmp_frame k v type ether from_ether from_ to ->
  arrived (mem_list k 0 (Z.to_nat (hdr v + IP_HDR_SIZE))) m -> icmp_frame m v type ether from_ether from_ to.
Proof.
  intros H Hm. pose proof (hdr_range v) as Hh. pose proof (arrived_whole _ _ _ Hm) as S.
  apply (icmp_frame_ext m k v type ether); [done|apply Hm|intros i Hi; apply S; lia|].
  rewrite <- (proj1 (proj2 H)). apply mem_list_ext. intros i Hi. apply S. unfold IP_HDR_SIZE. lia.
Qed.

Lemma echo_built be m s seq :
  bytes_of m ->
  let k := put_cksum be (put_net16 (put_net16 (put_net16 (put_net16 m s 0x0800) (s + 2) 0) (s + 4) 0) (s + 6) seq) (s + 2) s 4 in
  k s = ICMP_ECHO_REQUEST /\ (forall i, i < s -> k i = m i) /\ bytes_of k.
Proof.
  intros Hm. cbv zeta. unfold put_cksum. split; [|split; [|by apply bytes_of_put16; repeat apply bytes_of_put_net16]].
  - rewrite put16_out by lia. rewrite !put_net16_out by lia. unfold put_net16. by rd_upd.
  - intros i Hi. rewrite put16_out by lia. by rewrite !put_net16_out by lia.
Qed.

(** The wait that a ping begins with. *)
Record ping_waits (now : Z) (n n' : net) : Prop := Ping_waits {
  pw_own : own n' = own n; pw_loop : loop n' = loop n; pw_frags : frags n' = frags n;
  pw_ip : NetPingIP (ping n') = NetPingIP (ping n);
  pw_wait : exists k, arp n' = Arp_wait (NetPingIP (ping n)) (next_hop n (NetPingIP (ping n))) (Some Ping_mac) k
      (hdr (vlan_of n) + IP_HDR_SIZE) now 1 /\
    icmp_frame k (vlan_of n) ICMP_ECHO_REQUEST NetEtherNullAddr (NetOurEther (own n)) (NetOurIP (own n)) (NetPingIP (ping n));
  pw_sent : exists req, sent n' = sent n ++ [req] /\
    arp_sent req (vlan_of n) ARPOP_REQUEST (NetOurEther (own n)) (NetOurIP (own n)) (next_hop n (NetPingIP (ping n))) }.

Lemma PingSend_spec be now n :
  well_formed n -> 0 <= NetPingIP (ping n) < 2 ^ 32 -> ping_waits now n (PingSend be now n).
Proof.
  intros W Hip. unfold PingSend.
  assert (Hnull : address NetEtherNullAddr).
  { split; [done|]. unfold NetEtherNullAddr. cbn [repeat]. by repeat (apply List.Forall_cons; [done|]). }
  set (n1 := set_ping _ n). assert (W1 : well_formed n1).
  { destruct W as [? Hmac ? ? ? ?]. constructor; try done. intros r. destruct r; [apply (Hmac Server_ether)|apply (Hmac Bcast_ether)|exact Hnull]. }
  destruct (NetSetEther _ _ _ _) as [m1 h] eqn:E.
  destruct (NetSetEther_spec n1 (wf_ether n1 W1) _ _ _ _ _ E Hnull ltac:(by unfold PROT_IP)) as (-> & E1 & E2 & E3 & E4 & E5).
  specialize (E5 (wf_wait n1 W1)). pose proof (hdr_range (vlan_of n1)) as Hh. set (a := hdr (vlan_of n1)) in *.
  destruct (put_ip_header_spec n1 (wf_ip n1 W1) m1 a (IP_HDR_SIZE_NO_UDP + 8) IPPROTO_ICMP (NetPingIP (ping n1))
    ltac:(by unfold IP_HDR_SIZE_NO_UDP) ltac:(done) Hip) as (P1 & P2 & P3 & P4).
  specialize (P4 E5). set (m2 := put_ip_header _ _ _ _ _ _) in *.
  destruct (put_cksum_spec be m2 a _ _ _ _ P4 P1 P2) as (Q1 & Q2 & Q3 & Q4). set (m3 := put_cksum be m2 _ _ _) in *.
  destruct (echo_built be m3 (a + 20) (PingSeqNo (ping n1)) Q3) as (K1 & K2 & K3).
  change (PingSeqNo (ping (set_id _ n1))) with (PingSeqNo (ping n1)). set (k := put_cksum be _ (a + 20 + 2) _ _) in *.
  set (n2 := set_ping _ (set_id _ n1)). assert (W2 : well_formed n2).
  { destruct W1. by constructor. }
  assert (F : icmp_frame k (vlan_of n) ICMP_ECHO_REQUEST NetEtherNullAddr (NetOurEther (own n)) (NetOurIP (own n))
    (NetPingIP (ping n))).
  { unfold icmp_frame. change (hdr (vlan_of n)) with a.
    split; [revert E1; apply on_link_ext; intros i Hi; change (hdr (vlan_of n)) with a in Hi; by rewrite K2, Q4, P3 by lia|].
    split; [etransitivity; [|exact E2]; apply mem_list_ext; intros i Hi; rewrite K2, Q4, P3 by lia; done|].
    split; [etransitivity; [|exact E3]; apply mem_list_ext; intros i Hi; rewrite K2, Q4, P3 by lia; done|].
    split; [revert Q1; apply ip_at_ext; intros i Hi; apply K2; lia|]. split; [|done].
    rewrite <- (cksum_order be), (cksum_ok_ext be k m3); [done..|by unfold IP_HDR_SIZE_NO_UDP| |done|by unfold IP_HDR_SIZE_NO_UDP].
    intros i Hi. apply K2. change (IP_HDR_SIZE_NO_UDP / 2) with 10 in Hi. lia. }
  clearbody k. replace (a + IP_HDR_SIZE_NO_UDP + 8) with (a + IP_HDR_SIZE) by (unfold IP_HDR_SIZE_NO_UDP, IP_HDR_SIZE; lia).
  destruct (wait_for_mac_spec now Ping_mac (NetPingIP (ping n2)) k (a + IP_HDR_SIZE) n2 W2 K3 Hip) as
    (X1 & X2 & X3 & X4 & X5 & X6).
  constructor; [by rewrite X1|by rewrite X2|by rewrite X4|by rewrite X3| |exact X6]. exists k. by split.
Qed.

(** The answer to an echo request, built over the request. *)
Lemma echo_reply_spec be n m a size from_ to :
  0 <= NetOurIP (own n) < 2 ^ 32 -> bytes_of m -> ip_at m a size IPPROTO_ICMP from_ to ->
  let k := echo_reply be n m a size in
  ip_at k a size IPPROTO_ICMP (NetOurIP (own n)) from_ /\ NetCksumOk be k a (IP_HDR_SIZE_NO_UDP / 2) = true /\
  k (a + 20) = ICMP_ECHO_REPLY /\ (forall i, i < a -> k i = m i) /\ bytes_of k.
Proof.
  intros Hip Hm (H1 & H2 & H3 & H4 & H5 & H6). unfold echo_reply. set (m1 := put_net16 m (a + 10) 0).
  set (m2 := put_net16 m1 (a + 6) 0). set (m3 := store_list m2 (a + 16) _). set (m4 := NetWriteIP m3 (a + 12) _).
  set (m5 := put_cksum be m4 _ _ _). set (m6 := put_net16 _ (a + 22) 0). set (k := put_cksum be m6 _ _ _). cbv zeta.
  assert (B2 : bytes_of m2) by by repeat apply bytes_of_put_net16.
  assert (B4 : bytes_of m4).
  { apply frame_store; [|apply bytes_of_ip]. apply frame_store; [done|]. by apply bytes_of_list. }
  assert (R4 : forall i, ~ (a + 12 <= i < a + 16) -> m4 i = m3 i). { intros i Hi. apply NetWriteIP_out. lia. }
  assert (R3 : forall i, ~ (a + 16 <= i < a + 20) -> m3 i = m2 i).
  { intros i Hi. apply store_list_out. rewrite mem_list_length. lia. }
  assert (R2 : forall i, i <> a + 6 -> i <> a + 7 -> i <> a + 10 -> i <> a + 11 -> m2 i = m i).
  { intros i ? ? ? ?. unfold m2, m1. by rewrite !put_net16_out by lia. }
  assert (I4 : ip_at m4 a size IPPROTO_ICMP (NetOurIP (own n)) from_).
  { split; [by rewrite R4, R3, R2 by lia|].
    split; [by rewrite (net16_ext m4 m _ (a + 2)) by (rewrite R4, R3, R2 by lia; done)|].
    split; [rewrite (net16_ext m4 m2 _ (a + 6)) by (rewrite R4, R3 by lia; done); unfold m2; by rewrite net16_eq|].
    split; [by rewrite R4, R3, R2 by lia|]. split; [by apply NetReadIP_write|]. rewrite <- H5. apply NetReadIP_ext.
    intros i Hi. rewrite R4 by lia. unfold m3. rewrite store_list_in by (rewrite mem_list_length; lia).
    rewrite rd_mem_list by lia. by rewrite R2 by lia. }
  assert (Z4 : net16 m4 (a + 10) = 0).
  { rewrite (net16_ext m4 m2 _ (a + 10)) by (rewrite R4, R3 by lia; done).
    rewrite (net16_ext m2 m1 _ (a + 10)) by (unfold m2; rewrite !put_net16_out by lia; done). by apply net16_eq. }
  destruct (put_cksum_spec be m4 a _ _ _ _ B4 I4 Z4) as (Q1 & Q2 & Q3 & Q4). fold m5 in Q1, Q2, Q3, Q4.
  assert (B6 : bytes_of m6) by (apply bytes_of_put_net16, bytes_of_upd; done).
  assert (K : forall i, i < a + 20 -> k i = m5 i).
  { intros i Hi. unfold k, put_cksum. rewrite put16_out by lia. unfold m6. rewrite put_net16_out by lia. by rd_upd. }
  split; [revert Q1; apply ip_at_ext; intros i Hi; apply K; lia|].
  split; [rewrite (cksum_ok_ext be k m5); [done|by apply bytes_of_put16|done|by unfold IP_HDR_SIZE_NO_UDP|];
    intros i Hi; apply K; change (IP_HDR_SIZE_NO_UDP / 2) with 10 in Hi; lia|].
  split; [unfold k, put_cksum; rewrite put16_out by lia; unfold m6; rewrite put_net16_out by lia; by rd_upd|].
  split; [|by apply bytes_of_put16]. intros i Hi. rewrite K, Q4, R4, R3, R2 by lia. done.
Qed.

Lemma echo_answered be u n m len ether from_ether from_ :
  well_formed n -> vlan_of n = VLAN_NONE -> ETHER_HDR_SIZE + IP_HDR_SIZE <= len ->
  icmp_frame m VLAN_NONE ICMP_ECHO_REQUEST ether from_ether from_ (NetOurIP (own n)) ->
  exists k, NetReceive be u n m len = Some (eth_send (mem_list k 0 (Z.to_nat (hdr VLAN_NONE + IP_HDR_SIZE))) n, None) /\
    icmp_frame k VLAN_NONE ICMP_ECHO_REPLY from_ether (NetOurEther (own n)) (NetOurIP (own n)) from_.
Proof.
  intros W Hv Hlen (H1 & H2 & H3 & H4 & H5 & H6 & H7). change (hdr VLAN_NONE) with 14 in *.
  unfold ETHER_HDR_SIZE, IP_HDR_SIZE in Hlen. destruct (wf_ether n W) as [He Heb].
  rewrite (receive_on_link be u n m len PROT_IP); rewrite ?Hv; [|done..|change (hdr VLAN_NONE) with 14; lia].
  change (PROT_IP =? PROT_ARP) with false. change (PROT_IP =? PROT_RARP) with false. cbv iota. rewrite Z.eqb_refl.
  change (hdr VLAN_NONE) with 14.
  rewrite (receive_ip_at be u n m _ _ _ _ _ _ H4); [|by rewrite cksum_order|unfold IP_HDR_SIZE; lia|by right; left].
  unfold receive_datagram. rewrite (proj1 (proj2 (proj2 (proj2 H4)))), H6. rewrite Z.eqb_refl.
  change (ICMP_ECHO_REQUEST =? ICMP_REDIRECT) with false. change (ICMP_ECHO_REQUEST =? ICMP_ECHO_REPLY) with false.
  cbv iota. rewrite Z.eqb_refl. set (e := echo_frame n m).
  assert (Be : bytes_of e) by (apply frame_store; [|done]; apply frame_store; [done|by apply bytes_of_list]).
  assert (S : forall i, 12 <= i -> e i = m i).
  { intros i Hi. unfold e, echo_frame. rewrite store_list_out by lia. apply store_list_out. rewrite mem_list_length. lia. }
  assert (He4 : ip_at e 14 IP_HDR_SIZE IPPROTO_ICMP from_ (NetOurIP (own n))).
  { revert H4. apply ip_at_ext. intros i Hi. apply S. lia. }
  destruct (echo_reply_spec be n e 14 _ _ _ (wf_ip n W) Be He4) as (K1 & K2 & K3 & K4 & K5).
  eexists. split; [done|]. split; [revert H1; apply (on_link_ext _ _ VLAN_NONE); intros i Hi; rewrite K4 by (change (hdr VLAN_NONE) with 14 in Hi; lia); apply S; lia|].
  split; [|split; [|split; [done|split; [by rewrite <- (cksum_order be)|done]]]].
  - transitivity (mem_list e 0 6); [apply mem_list_ext; intros i Hi; apply K4; lia|].
    transitivity (mem_list (store_list m 0 (mem_list m 6 6)) 0 6);
      [apply mem_list_ext; intros i Hi; apply store_list_out; lia|].
    rewrite H3. pose proof (mem_list_6 m 6) as E. rewrite H3 in E. rewrite <- E. apply mem_list_store.
  - transitivity (mem_list e 6 6); [apply mem_list_ext; intros i Hi; apply K4; lia|]. rewrite <- He at 1. apply mem_list_store.
Qed.

Lemma echo_arrives be u n m len ether from_ether from_ to :
  vlan_of n = VLAN_NONE -> ETHER_HDR_SIZE + IP_HDR_SIZE <= len -> takes n to ->
  icmp_frame m VLAN_NONE ICMP_ECHO_REPLY ether from_ether from_ to ->
  exists p, NetReceive be u n m len = Some (n, Some (Call (Some p) 0 0 0)) /\ NetReadIP p 12 = from_.
Proof.
  intros Hv Hlen Ht (H1 & H2 & H3 & H4 & H5 & H6 & H7). change (hdr VLAN_NONE) with 14 in *.
  unfold ETHER_HDR_SIZE, IP_HDR_SIZE in Hlen.
  rewrite (receive_on_link be u n m len PROT_IP); rewrite ?Hv; [|done..|change (hdr VLAN_NONE) with 14; lia].
  change (PROT_IP =? PROT_ARP) with false. change (PROT_IP =? PROT_RARP) with false. cbv iota. rewrite Z.eqb_refl.
  change (hdr VLAN_NONE) with 14.
  rewrite (receive_ip_at be u n m _ _ _ _ _ _ H4); [|by rewrite cksum_order|unfold IP_HDR_SIZE; lia|done].
  unfold receive_datagram. pose proof H4 as (_ & _ & _ & E & E' & _). rewrite E, H6. rewrite Z.eqb_refl.
  change (ICMP_ECHO_REPLY =? ICMP_REDIRECT) with false. cbv iota. rewrite Z.eqb_refl. by exists (from m 14).
Qed.

(** The machine with the settings that [NetLoop] reads. *)
Definition configured (changed : bool) (e : ours) (n : net) : net :=
  NetInitLoop changed e (set_own (fun o =>
    Ours (NetOurIP o) (NetOurSubnetMask o) (NetOurGatewayIP o) (NetServerIP o) (NetOurEther e) (NetServerEther o)
      (NetOurVLAN o) (NetOurNativeVLAN o)) n).

Section Turns.
Context (be u : bool) (e : ours) (nretry : option Data).

(** A turn in which one frame arrives, nothing waits for an address and no time is over. *)
Lemma quiet_turn m len t ts n n' o n'' :
  NetReceive be u n m len = Some (n', o) ->
  match o with None => Some n' | Some c => call_handler c n' end = Some n'' ->
  NetArpWaitPacketIP (arp n'') = 0 -> u32 (t - timeStart (loop n'')) <= timeDelta (loop n'') ->
  loop_for be u e nretry (Turn [(m, len)] false t :: ts) n =
    let s := NetState (loop n'') in
    if s =? NETLOOP_RESTART then
      let '(n, r) := restart be false e t n'' in
      match r with Some _ => Some (n, r) | None => loop_for be u e nretry ts n end
    else if s =? NETLOOP_SUCCESS then Some (n'', Some 0)
    else if s =? NETLOOP_FAIL then Some (n'', Some (-1))
    else loop_for be u e nretry ts n''.
Proof using.
  intros H Ho Hw Ht. cbn [loop_for received ctrlc now eth_rx]. rewrite H.
  assert (E : eth_rx be u [] n'' = Some n'') by done.
  assert (C : check_timer t (ArpTimeoutCheck t nretry n'') = n'').
  { unfold ArpTimeoutCheck. rewrite Hw. change (0 =? 0) with true. cbv iota. unfold check_timer.
    destruct (timeHandler _); [|done]. by rewrite (proj2 (Z.ltb_ge _ _)) by lia. }
  destruct o as [c|].
  - rewrite Ho. by rewrite C.
  - injection Ho as ->. by rewrite C.
Qed.

(** The loop begins with the wait for the address. *)
Lemma NetLoop_starts changed now a :
  well_formed (configured changed e a) -> 0 < NetPingIP (ping a) < 2 ^ 32 ->
  NetOurIP (own (configured changed e a)) <> 0 -> NetOurEther e <> NetEtherNullAddr ->
  exists a0 a1, (forall ts, NetLoop be u true changed e nretry now ts a = loop_for be u e nretry ts a1) /\
    own a0 = own (configured changed e a) /\ ping a0 = ping a /\ sent a0 = sent a /\ ping_waits now a0 a1 /\
    loop a1 = Looping NETLOOP_CONTINUE 1 PingHandler_ (Some PingTimeout_) now 10000.
Proof using.
  intros W Hp Hip He.
  set (c := NetInitLoop changed e (set_state NETLOOP_CONTINUE (set_own (fun o =>
    Ours (NetOurIP o) (NetOurSubnetMask o) (NetOurGatewayIP o) (NetServerIP o) (NetOurEther e) (NetServerEther o)
      (NetOurVLAN o) (NetOurNativeVLAN o)) (set_loop (fun l =>
      Looping (NetState l) 1 (packetHandler l) (timeHandler l) (timeStart l) (timeDelta l))
    (set_arp (fun w => Arp_wait 0 0 None (NetArpWaitTxPacket w) 0 (NetArpWaitTimerStart w) (NetArpWaitTry w)) a))))).
  assert (Ho : own c = own (configured changed e a)) by done.
  assert (Wc : well_formed c) by (destruct W; by constructor).
  set (a0 := NetSetHandler PingHandler_ (NetSetTimeout now 10000 PingTimeout_ c)).
  assert (W0 : well_formed a0) by (destruct Wc; by constructor).
  exists a0, (PingSend be now a0). pose proof (PingSend_spec be now a0 W0 ltac:(change (ping a0) with (ping a); lia)) as P.
  split; [|split; [done|split; [done|split; [done|split; [done|]]]]].
  - intros ts. unfold NetLoop, restart. cbn [negb]. fold c. unfold net_check_prereq. rewrite Ho.
    change (ping c) with (ping a).
    rewrite (proj2 (Z.eqb_neq (NetPingIP (ping a)) 0)), (proj2 (Z.eqb_neq (NetOurIP _) 0)), bool_decide_eq_false_2;
      [done|..|done|lia]. unfold configured. by destruct changed.
  - by rewrite (pw_loop _ _ _ P).
Qed.
End Turns.

(** C17: A ping of a machine that is up succeeds.  [NetLoop] broadcasts a request for the address of the host; the host
    answers it; the answer makes the loop send the echo request, whose checksums the host accepts and which it answers in
    turn; and when both answers come within ten seconds the loop ends with success, whatever would have come after.
    The host is reached without a gateway, and neither machine is on a VLAN: on a VLAN the reply of this program
    would be four bytes short and thrown away ([tagged_echo_short]). *)
Theorem ping_answered be be' u u' changed e nretry now a b :
  let c := configured changed e a in
  well_formed c -> well_formed b -> NetOurIP (own c) <> 0 -> NetOurEther e <> NetEtherNullAddr ->
  0 < NetPingIP (ping a) < 2 ^ 32 -> NetOurIP (own b) = NetPingIP (ping a) -> next_hop c (NetPingIP (ping a)) = NetPingIP (ping a) ->
  vlan_of c = VLAN_NONE -> vlan_of b = VLAN_NONE ->
  exists a1 req, (forall ts, NetLoop be u true changed e nretry now ts a = loop_for be u e nretry ts a1) /\
    sent a1 = sent a ++ [req] /\
    forall m1 len1, arrived req m1 -> Z.of_nat (length req) <= len1 ->
    exists rep, NetReceive be' u' b m1 len1 = Some (eth_send rep b, None) /\
    forall m2 len2, arrived rep m2 -> Z.of_nat (length rep) <= len2 ->
    exists a2 echo, NetReceive be u a1 m2 len2 = Some (a2, None) /\ sent a2 = sent a1 ++ [echo] /\
    forall m3 len3, arrived echo m3 -> Z.of_nat (length echo) <= len3 ->
    exists answer, NetReceive be' u' (eth_send rep b) m3 len3 = Some (eth_send answer (eth_send rep b), None) /\
    forall m4 len4 t2 t4 ts, arrived answer m4 -> Z.of_nat (length answer) <= len4 ->
      u32 (t2 - now) <= 10000 -> u32 (t4 - now) <= 10000 ->
      exists a4, NetLoop be u true changed e nretry now (Turn [(m2, len2)] false t2 :: Turn [(m4, len4)] false t4 :: ts) a =
        Some (a4, Some 0).
Proof.
  intros c W Wb Hip He Hp Hb Hhop Hv Hvb.
  destruct (NetLoop_starts be u e nretry changed now a W Hp Hip He) as (a0 & a1 & S & O & P & Se & PW & L1).
  destruct PW as [O1 _ _ I1 (k & Wk & Fk) (req & Sr & Fr)]. rewrite P in *.
  assert (V0 : vlan_of a0 = VLAN_NONE) by (unfold vlan_of; rewrite O; exact Hv).
  assert (H0 : next_hop a0 (NetPingIP (ping a)) = NetOurIP (own b)).
  { rewrite Hb. etransitivity; [|exact Hhop]. unfold next_hop. by rewrite O. }
  exists a1, req. split; [done|]. split; [by rewrite Sr, Se|]. intros m1 len1 M1 N1.
  rewrite V0, H0 in *. rewrite <- O1 in *.
  destruct (resolved be be' u u' a1 b VLAN_NONE req Ping_mac Fr Wb) with (m1 := m1) (len1 := len1) as (rep & R1 & R2);
    rewrite ?O, ?Wk; try done; [rewrite Hb; lia|unfold vlan_of; by rewrite O|cbn; lia|].
  exists rep. split; [done|]. intros m2 len2 M2 N2. specialize (R2 m2 len2 M2 N2). set (a2 := learnt _ _ _) in *.
  eexists a2, _. split; [exact R2|]. split; [apply learnt_sent|]. rewrite Wk. cbn [NetArpWaitTxPacket NetArpWaitTxPacketSize].
  intros m3 len3 M3 N3. rewrite mem_list_length in N3. change (hdr VLAN_NONE) with 14 in N3. unfold IP_HDR_SIZE in N3.
  assert (F3 : icmp_frame (store_list k 0 (NetOurEther (own b))) VLAN_NONE ICMP_ECHO_REQUEST (NetOurEther (own b))
    (NetOurEther (own a1)) (NetOurIP (own a1)) (NetPingIP (ping a))).
  { destruct (wf_ether b Wb) as [Eb Bb].
    apply (icmp_frame_ext _ k _ _ _ _ _ _ _ Fk); [apply frame_store; [apply Fk|done]| |].
    - intros i Hi. apply store_list_out. lia.
    - rewrite <- Eb at 1. apply mem_list_store. }
  pose proof (icmp_frame_arrived _ _ _ _ _ _ _ _ F3 M3) as G3. rewrite <- Hb in G3.
  assert (Wb' : well_formed (eth_send rep b)) by (destruct Wb; by constructor).
  destruct (echo_answered be' u' (eth_send rep b) m3 len3 _ _ _ Wb' Hvb ltac:(unfold ETHER_HDR_SIZE, IP_HDR_SIZE; lia) G3)
    as (k4 & E4 & F4).
  eexists. split; [exact E4|]. intros m4 len4 t2 t4 ts M4 N4 T2 T4.
  rewrite mem_list_length in N4. change (hdr VLAN_NONE) with 14 in N4. unfold IP_HDR_SIZE in N4.
  pose proof (icmp_frame_arrived _ _ _ _ _ _ _ _ F4 M4) as G4.
  assert (O2 : own a2 = own a1) by done. assert (L2 : loop a2 = loop a1) by done.
  destruct (echo_arrives be u a2 m4 len4 _ _ _ _ ltac:(unfold vlan_of; rewrite O2, O1; exact V0)
    ltac:(unfold ETHER_HDR_SIZE, IP_HDR_SIZE; lia) ltac:(right; left; rewrite O2; reflexivity) G4) as (p & E5 & Hpip).
  rewrite S. rewrite (quiet_turn be u e nretry m2 len2 t2 _ a1 a2 None a2 R2); [|done..|by rewrite L2, L1].
  cbv zeta. rewrite L2, L1. cbn [NetState]. change (NETLOOP_CONTINUE =? NETLOOP_RESTART) with false.
  change (NETLOOP_CONTINUE =? NETLOOP_SUCCESS) with false. change (NETLOOP_CONTINUE =? NETLOOP_FAIL) with false. cbv iota.
  rewrite (quiet_turn be u e nretry m4 len4 t4 ts a2 a2 _ (set_state NETLOOP_SUCCESS a2) E5).
  - eexists. cbv zeta. cbn [set_state set_loop loop NetState]. reflexivity.
  - unfold call_handler. rewrite L2, L1. cbn [packetHandler pkt]. unfold PingHandler.
    change (NetPingIP (ping a2)) with (NetPingIP (ping a1)). rewrite Hpip, I1, <- Hb. by rewrite Z.eqb_refl.
  - done.
  - cbn [set_state set_loop loop timeStart timeDelta]. by rewrite L2, L1.
Qed.

(** *** A ping ends *)

(** A frame that is no fragment, nor a packet of RARP. *)
Definition payload (m : mem) : Z :=
  if net16 m 12 <? 1514 then E802_HDR_SIZE else if negb (net16 m 12 =? PROT_VLAN) then ETHER_HDR_SIZE else VLAN_ETHER_HDR_SIZE.
Definition plain (m : mem) : Prop :=
  net16 m (payload m - 2) <> PROT_RARP /\
  (net16 m (payload m - 2) = PROT_IP -> Z.land (net16 m (payload m + 6)) (Z.lor IP_OFFS IP_FLAGS_MFRAG) = 0).

(** The clock goes on from [d] milliseconds after [start], for less than a whole turn of the counter. *)
Fixpoint clock (start d : Z) (ts : list turn) : Prop :=
  match ts with
  | [] => True
  | t :: ts => d <= u32 (now t - start) /\ clock start (u32 (now t - start)) ts
  end.

Section Ends.
Context (be u : bool) (e : ours) (nretry : option Data) (start : Z).

Definition kept (n n' : net) : Prop := loop n' = loop n /\ (arp n' = arp n \/ NetArpWaitPacketIP (arp n') = 0).

Lemma receive_arp_kept n m a len : kept n (receive_arp n m a len).
Proof using.
  unfold receive_arp. destruct (len <? _); [by split; [|left]|]. destruct (negb _); [by split; [|left]|].
  destruct (_ =? ARPOP_REQUEST); [destruct (NetSetEther _ _ _ _); by split; [|left]|].
  destruct (_ =? ARPOP_REPLY); [|by split; [|left]]. destruct (NetArpWaitPacketMAC _) as [r|]; [|by split; [|left]].
  destruct (_ =? 0); [by split; [|left]|]. destruct (_ =? _); [|by split; [|left]]. split; [by destruct r|by right].
Qed.

Lemma receive_datagram_kept n m p a len o n' :
  receive_datagram be u n m p a len true = (n', o) ->
  kept n n' /\ match o with Some c => is_Some (pkt c) | None => True end.
Proof using.
  unfold receive_datagram, kept. intros H.
  assert (K : forall f, kept n (eth_send f n)) by by split; [|left].
  assert (K' : forall x, kept n (puts x n)) by by split; [|left].
  assert (K0 : kept n n) by by split; [|left].
  destruct (p (a + 9) =? IPPROTO_ICMP).
  - cbv zeta in H. destruct (p (a + 20) =? ICMP_REDIRECT); [destruct (p (a + 21) =? _); by injection H as <- <-|].
    destruct (p (a + 20) =? ICMP_ECHO_REPLY); [by injection H as <- <-|].
    destruct (p (a + 20) =? ICMP_ECHO_REQUEST); [|by injection H as <- <-].
    revert H. generalize (mem_list (echo_reply be n (echo_frame n m) a len) 0 (Z.to_nat (ETHER_HDR_SIZE + len))).
    intros f H. by injection H as <- <-.
  - destruct (negb _); [by injection H as <- <-|].
    destruct (u && _); apply pair_equal_spec in H as [<- <-]; (split; [split; [reflexivity|by left]|done]).
Qed.

Lemma plain_kept n m len : plain m -> exists n' o,
  NetReceive be u n m len = Some (n', o) /\ kept n n' /\ match o with Some c => is_Some (pkt c) | None => True end.
Proof using.
  intros [Hr Hf]. unfold NetReceive. assert (K : kept n n) by by split; [|left].
  assert (K' : forall x, kept n (puts x n)) by by split; [|left].
  destruct (len <? _); [by exists n, None|].
  match goal with |- context [match ?h with Some _ => _ | None => _ end] => destruct h as [[[x a] v]|] eqn:E end;
    [|by exists n, None].
  assert (Ha : a = payload m /\ x = net16 m (payload m - 2)).
  { unfold payload. destruct (_ <? 1514); [by injection E as <- <- _|]. destruct (negb _); [by injection E as <- <- _|].
    destruct (len <? _); [done|]. destruct (_ =? VLAN_NONE); [done|]. by injection E as <- <- _. }
  clear E. destruct Ha as [-> ->]. set (a := payload m) in *. set (x := net16 m (a - 2)) in *.
  destruct (_ && _); [by exists n, None|].
  destruct (x =? PROT_ARP); [eexists _, None; split; [done|split; [apply receive_arp_kept|done]]|].
  rewrite (proj2 (Z.eqb_neq _ _) Hr). destruct (Z.eqb_spec x PROT_IP) as [Hx|_]; [|by exists n, None].
  unfold receive_ip. destruct (Z.ltb_spec (len - a) IP_HDR_SIZE) as [H|H]; [by exists n, None|].
  destruct (len - a <? _); [by eexists (puts _ n), None|].
  destruct (negb (_ =? 0x40)); [by exists n, None|]. destruct (5 <? _); [by exists n, None|].
  destruct (negb (NetCksumOk _ _ _ _)); [by eexists (puts _ n), None|]. destruct (_ && _); [by exists n, None|].
  unfold NetDefragment. unfold IP_HDR_SIZE in H.
  rewrite (net16_ext (rd (mem_list m a (Z.to_nat (len - a)))) m 6 (a + 6)), (Hf Hx)
    by (rewrite rd_mem_list by lia; f_equal; lia).
  change (0 =? 0) with true. cbv iota. rewrite set_frags_same.
  destruct (receive_datagram _ _ _ _ _ _ _ _) as [n' o] eqn:D. exists n', o. split; [done|].
  exact (receive_datagram_kept _ _ _ _ _ _ _ D).
Qed.

(** The state between two turns, [d] milliseconds after the start. *)
Record pinging_on (d : Z) (n : net) : Prop := Pinging_on {
  po_state : NetState (loop n) = NETLOOP_CONTINUE \/ NetState (loop n) = NETLOOP_SUCCESS;
  po_handler : packetHandler (loop n) = PingHandler_; po_timer : timeHandler (loop n) = Some PingTimeout_;
  po_start : timeStart (loop n) = start; po_delta : timeDelta (loop n) = 10000;
  po_wait : NetArpWaitPacketIP (arp n) = 0 \/
    1 <= NetArpWaitTry (arp n) /\ 5001 * (NetArpWaitTry (arp n) - 1) <= u32 (NetArpWaitTimerStart (arp n) - start) <= d }.

Lemma elapsed t s : u32 (s - start) <= u32 (t - start) -> u32 (t - s) = u32 (t - start) - u32 (s - start).
Proof using. unfold u32. change (2 ^ 32) with 4294967296. Z.div_mod_to_equations. lia. Qed.

Lemma pinging_kept d n n' : pinging_on d n -> kept n n' -> pinging_on d n'.
Proof using. intros [H1 H2 H3 H4 H5 H6] [K1 [K2|K2]]; constructor; rewrite ?K1, ?K2; try done. by left. Qed.

Lemma ArpRequest_waits n :
  loop (ArpRequest n) = loop n /\ NetArpWaitPacketIP (arp (ArpRequest n)) = NetArpWaitPacketIP (arp n) /\
  NetArpWaitTry (arp (ArpRequest n)) = NetArpWaitTry (arp n) /\
  NetArpWaitTimerStart (arp (ArpRequest n)) = NetArpWaitTimerStart (arp n).
Proof using.
  unfold ArpRequest. destruct (NetSetEther _ _ _ _) as [m h]. cbv zeta.
  by destruct (negb (Z.land (NetArpWaitPacketIP (arp n)) _ =? _) && (NetOurGatewayIP (own n) =? 0)).
Qed.

Lemma arp_check d t n :
  pinging_on d n -> d <= 10000 -> d <= u32 (t - start) -> pinging_on (u32 (t - start)) (ArpTimeoutCheck t nretry n).
Proof using.
  intros [H1 H2 H3 H4 H5 H6] Hd Ht. unfold ArpTimeoutCheck. destruct (Z.eqb_spec (NetArpWaitPacketIP (arp n)) 0) as [E|E].
  - constructor; try done. by left.
  - destruct H6 as [H6|[H6 H7]]; [done|]. pose proof (elapsed t (NetArpWaitTimerStart (arp n)) ltac:(lia)) as El.
    destruct (Z.ltb_spec ARP_TIMEOUT (u32 (t - NetArpWaitTimerStart (arp n)))) as [L|L].
    + unfold ARP_TIMEOUT in L. cbn [set_try set_arp arp NetArpWaitTry]. unfold ARP_TIMEOUT_COUNT.
      rewrite (proj2 (Z.leb_gt 5 _)) by lia.
      destruct (ArpRequest_waits (set_timer_start t (set_try (NetArpWaitTry (arp n) + 1) n))) as (A1 & A2 & A3 & A4).
      constructor; rewrite ?A1, ?A2, ?A3, ?A4; try done. right. cbn. lia.
    + constructor; try done. right. lia.
Qed.

Lemma eth_rx_on d l n : pinging_on d n -> Forall (fun f => plain (fst f)) l -> exists n', eth_rx be u l n = Some n' /\ pinging_on d n'.
Proof using.
  intros P H. revert n P. induction H as [|[m len] l Hm _ IH]; intros n P; cbn [eth_rx]; [by exists n|].
  destruct (plain_kept n m len Hm) as (n1 & o & -> & K & Ho). pose proof (pinging_kept d n n1 P K) as P1.
  destruct o as [c|]; [|by apply IH]. unfold call_handler. rewrite (po_handler d n1 P1). destruct Ho as [p ->].
  apply IH. unfold PingHandler. destruct (_ =? _); [|done]. destruct P1. constructor; try done. by right.
Qed.

Lemma loop_ends ts : forall d n,
  pinging_on d n -> NetState (loop n) = NETLOOP_CONTINUE -> d <= 10000 -> clock start d ts ->
  Forall (fun t => Forall (fun f => plain (fst f)) (received t)) ts -> Exists (fun t => 10000 < u32 (now t - start)) ts ->
  exists n' r, loop_for be u e nretry ts n = Some (n', Some r) /\ (r = 0 \/ r = -1).
Proof using.
  induction ts as [|t ts IH]; intros d n P Hs Hd Hc Hp Hx; [by apply Exists_nil in Hx|]. destruct Hc as [Hc1 Hc2].
  apply List.Forall_cons_iff in Hp as [Hp1 Hp2]. cbn [loop_for].
  destruct (eth_rx_on d _ n P Hp1) as (n1 & -> & P1).
  destruct (ctrlc t); [eexists _, _; split; [done|by right]|].
  pose proof (arp_check d (now t) n1 P1 Hd Hc1) as P2. set (n2 := ArpTimeoutCheck _ _ _) in *.
  unfold check_timer. rewrite (po_timer _ _ P2), (po_start _ _ P2), (po_delta _ _ P2).
  destruct (Z.ltb_spec 10000 (u32 (now t - start))) as [L|L].
  - cbn [PingTimeout set_state set_loop loop NetState]. eexists _, _. split; [done|by right].
  - apply Exists_cons in Hx as [Hx|Hx]; [lia|]. destruct (po_state _ _ P2) as [E|E]; rewrite E.
    + by apply (IH (u32 (now t - start))).
    + eexists _, _. split; [done|by left].
Qed.
End Ends.

Lemma PingSend_waits be t n :
  loop (PingSend be t n) = loop n /\ NetArpWaitTry (arp (PingSend be t n)) = 1 /\
  NetArpWaitTimerStart (arp (PingSend be t n)) = t.
Proof.
  unfold PingSend, wait_for_mac. destruct (NetSetEther _ _ _ _) as [m h]. cbv zeta.
  match goal with |- loop (ArpRequest ?x) = _ /\ _ => destruct (ArpRequest_waits x) as (A1 & _ & A3 & A4) end.
  by rewrite A1, A3, A4.
Qed.

(** C19: Every ping ends.  Whatever frames arrive, if they are no fragments nor packets of RARP, and whatever keys are pressed,
    [NetLoop] returns at the latest in the first turn that the clock, which does not run backwards, shows more than ten
    seconds after the start; the result is success or failure.  The retries of ARP, which would begin the whole ping
    anew, are not used up by then. *)
Theorem ping_ends be u up changed e nretry start ts a :
  clock start 0 ts -> Forall (fun t => Forall (fun f => plain (fst f)) (received t)) ts ->
  Exists (fun t => 10000 < u32 (now t - start)) ts ->
  exists n r, NetLoop be u up changed e nretry start ts a = Some (n, Some r) /\ (r = 0 \/ r = -1).
Proof.
  intros Hc Hp Hx. unfold NetLoop. destruct up; cbn [negb]; [|eexists _, _; split; [done|by right]].
  unfold restart. set (n0 := NetInitLoop _ _ _). unfold net_check_prereq.
  destruct (_ =? 0); [eexists _, _; split; [done|by right]|].
  destruct (_ =? 0); [eexists _, _; split; [done|by right]|].
  destruct (bool_decide _); [eexists _, _; split; [done|by right]|].
  set (n1 := NetSetHandler PingHandler_ (NetSetTimeout start 10000 PingTimeout_ n0)).
  destruct (PingSend_waits be start n1) as (L & W1 & W2). unfold PingStart. fold n1.
  apply (loop_ends be u e nretry start ts 0); try done; [|by rewrite L].
  constructor; try (by rewrite L); [by rewrite L; left|]. right. rewrite W1, W2, (Z.sub_diag start). change (u32 0) with 0. lia.
Qed.

(** C29: A damaged header is noticed: when one 16-bit word of an IP header with a right checksum is replaced by another one,
    where zero and 65535 count as the same, the frame is dropped.  No packet handler is called, nothing is sent, and
    nothing changes but for a message. *)
Theorem damage_noticed be u n m len k v :
  on_link m (vlan_of n) PROT_IP -> hdr (vlan_of n) <= len -> bytes_of m ->
  NetCksumOk be m (hdr (vlan_of n)) (IP_HDR_SIZE_NO_UDP / 2) = true -> (k < 10)%nat -> 0 <= v < 65536 ->
  v mod 65535 <> get16 be m (hdr (vlan_of n) + 2 * Z.of_nat k) mod 65535 ->
  exists n', NetReceive be u n (put16 be m (hdr (vlan_of n) + 2 * Z.of_nat k) v) len = Some (n', None) /\
    (n' = n \/ exists x, n' = puts x n).
Proof.
  intros Hl Hlen Hm Hc Hk Hv Hne. pose proof (hdr_range (vlan_of n)) as Hh. set (m' := put16 _ _ _ _).
  assert (Hc' : NetCksumOk be m' (hdr (vlan_of n)) (IP_HDR_SIZE_NO_UDP / 2) = false).
  { apply changed_word_seen; try done. }
  rewrite (receive_on_link be u n m' len PROT_IP); [|by revert Hl; apply on_link_ext; intros i Hi; apply put16_out; lia|done..].
  change (PROT_IP =? PROT_ARP) with false. change (PROT_IP =? PROT_RARP) with false. cbv iota. rewrite Z.eqb_refl.
  unfold receive_ip. rewrite Hc'. cbn [negb].
  repeat match goal with |- context [if ?x then Some _ else _] => destruct x; [by eauto|] end. by eauto.
Qed.

(** ** Strings *)

Lemma number_byte b : is_byte b -> number (fetch_num (-1) SIGN b) 10 (-1) (-1) SIGN = Some (rev (put_dec_trunc b)).
Proof.
  intros Hb. assert (H : forallb (fun b => bool_decide (number (fetch_num (-1) SIGN b) 10 (-1) (-1) SIGN =
    Some (rev (put_dec_trunc b)))) (seqZ 0 256) = true) by (vm_compute; reflexivity).
  apply (forallb_seqZ _ 256 b H) in Hb. by apply bool_decide_eq_true in Hb.
Qed.

Lemma directive_d v rest o args : is_byte v ->
  directive (100 :: rest) (VState o (AInt v :: args) []) = Some (VState (o ++ rev (put_dec_trunc v)) args [], rest).
Proof.
  intros Hv.
  assert (H : directive (100 :: rest) (VState o (AInt v :: args) []) =
    s ← (l ← number (fetch_num (-1) SIGN v) 10 (-1) (-1) SIGN; Some (VState (o ++ l) args [])); Some (s, rest)) by reflexivity.
  rewrite H, number_byte by done. reflexivity.
Qed.

Lemma octet x k : is_byte (Z.land (Z.shiftr x k) 0xff).
Proof. rewrite (land_mask _ 8) by lia. unfold is_byte. Z.div_mod_to_equations. lia. Qed.

Lemma ip_to_string_quads x :
  ip_to_string x = Some (rev (put_dec_trunc (Z.land (Z.shiftr x 24) 0xff)) ++ 46 :: rev (put_dec_trunc (Z.land (Z.shiftr x 16) 0xff)) ++
    46 :: rev (put_dec_trunc (Z.land (Z.shiftr x 8) 0xff)) ++ 46 :: rev (put_dec_trunc (Z.land x 0xff))).
Proof.
  unfold ip_to_string, printf, fmt_ip. cbn [length].
  assert (Hx : is_byte (Z.land x 0xff)) by (pose proof (octet x 0) as H; by rewrite Z.shiftr_0_r in H).
  rewrite format_conv, directive_d by apply octet. cbn [mbind option_bind]. rewrite format_plain by done.
  rewrite format_conv. unfold emit; cbn [out args stores]. rewrite directive_d by apply octet. cbn [mbind option_bind]. rewrite format_plain by done.
  rewrite format_conv. unfold emit; cbn [out args stores]. rewrite directive_d by apply octet. cbn [mbind option_bind]. rewrite format_plain by done.
  rewrite format_conv. unfold emit; cbn [out args stores]. rewrite directive_d by done. cbn [mbind option_bind].
  cbn [format mbind option_bind out]. f_equal.
  generalize (rev (put_dec_trunc (Z.land (Z.shiftr x 24) 0xff))), (rev (put_dec_trunc (Z.land (Z.shiftr x 16) 0xff))),
    (rev (put_dec_trunc (Z.land (Z.shiftr x 8) 0xff))), (rev (put_dec_trunc (Z.land x 0xff))).
  intros s1 s2 s3 s4. by rewrite <- !app_assoc.
Qed.

Lemma join_octets x : 0 <= x < 2 ^ 32 ->
  let o k := Z.land (Z.shiftr x k) 0xff in
  Z.lor (u32 (Z.shiftl (Z.lor (u32 (Z.shiftl (Z.lor (u32 (Z.shiftl (o 24) 8)) (o 16)) 8)) (o 8)) 8)) (Z.land x 0xff) = x.
Proof.
  intros Hx o. unfold o. rewrite !(land_mask _ 8) by lia. rewrite !Z.shiftr_div_pow2 by lia.
  change (2 ^ 8) with 256. change (2 ^ 24) with 16777216. change (2 ^ 16) with 65536. change (2 ^ 32) with 4294967296 in Hx.
  set (a := (x / 16777216) mod 256). set (b := (x / 65536) mod 256). set (c := (x / 256) mod 256).
  assert (Ha : 0 <= a < 256) by (apply Z.mod_pos_bound; lia). assert (Hb : 0 <= b < 256) by (apply Z.mod_pos_bound; lia).
  assert (Hc : 0 <= c < 256) by (apply Z.mod_pos_bound; lia).
  assert (E : x = ((a * 256 + b) * 256 + c) * 256 + x mod 256) by (subst a b c; Z.div_mod_to_equations; lia).
  rewrite (u32_small (Z.shiftl a 8)) by (rewrite Z.shiftl_mul_pow2 by lia; lia).
  rewrite lor_add_byte by (done || lia).
  rewrite (u32_small (Z.shiftl (256 * a + b) 8)) by (rewrite Z.shiftl_mul_pow2 by lia; lia).
  rewrite lor_add_byte by (done || lia). rewrite u32_small by (rewrite Z.shiftl_mul_pow2 by lia; lia).
  rewrite lor_add_byte by (lia || (unfold is_byte; apply Z.mod_pos_bound; lia)). lia.
Qed.

Lemma string_to_ip_loop_quad n b rest addr : is_byte b -> rest = [] \/ hd 0 rest = 46 ->
  string_to_ip_loop (S n) (rev (put_dec_trunc b) ++ rest) addr = string_to_ip_loop n (tl rest) (Z.lor (u32 (Z.shiftl addr 8)) b).
Proof.
  intros Hb Hr. cbn [string_to_ip_loop]. rewrite parse_quad by done. pose proof Hb as Hb'. unfold is_byte in Hb'.
  rewrite (land_mask b 8), Z.mod_small by lia. by destruct rest.
Qed.

Lemma vlan_text v : exists s, printf fmt_d [AInt (Z.land v VLAN_IDMASK)] = Some s /\
  string_to_VLAN (Some s) = Z.land v VLAN_IDMASK.
Proof.
  assert (H : forallb (fun w => bool_decide ((s ← printf fmt_d [AInt w]; Some (string_to_VLAN (Some s))) = Some w))
    (seqZ 0 4096) = true) by (vm_compute; reflexivity).
  assert (Hw : 0 <= Z.land v VLAN_IDMASK < 4096).
  { rewrite (land_mask v 12) by done. change (2 ^ 12) with 4096. apply Z.mod_pos_bound. lia. }
  pose proof (forallb_seqZ _ 4096 _ H Hw) as Hs. clear H. cbv beta in Hs. apply bool_decide_eq_true in Hs. revert Hs.
  generalize (printf fmt_d [AInt (Z.land v VLAN_IDMASK)]). intros [s|] Hs; [|discriminate]. exists s. split; [reflexivity|].
  cbn [mbind option_bind] in Hs. apply (f_equal (from_option id 0)) in Hs. exact Hs.
Qed.

(** Addresses survive the way through text: [string_to_ip] reads back every address that [ip_to_string] prints, and
    [string_to_VLAN] every VLAN number that [VLAN_to_string] prints, "none" and the unset number included. *)
Theorem addresses_as_text x v : 0 <= x < 2 ^ 32 -> 0 <= v < 65536 ->
  (exists s, ip_to_string x = Some s /\ string_to_ip (Some s) = x) /\
  exists s, VLAN_to_string v = Some s /\ string_to_VLAN (Some s) = Z.land v VLAN_IDMASK.
Proof.
  intros Hx Hv. split.
  - eexists. split; [apply ip_to_string_quads|]. unfold string_to_ip.
    rewrite string_to_ip_loop_quad by (apply octet || (right; done)). cbn [tl].
    rewrite string_to_ip_loop_quad by (apply octet || (right; done)). cbn [tl].
    rewrite string_to_ip_loop_quad by (apply octet || (right; done)). cbn [tl].
    pose proof (octet x 0) as H0. rewrite Z.shiftr_0_r in H0. rewrite <- (app_nil_r (rev (put_dec_trunc (Z.land x 255)))).
    rewrite string_to_ip_loop_quad by (done || (left; done)). cbn [string_to_ip_loop].
    change (u32 (Z.shiftl 0 8)) with 0. rewrite Z.lor_0_l. exact (join_octets x Hx).
  - unfold VLAN_to_string. destruct (Z.eqb_spec v 0xffff) as [E|_]; [exists str_none; split; [done|by rewrite E]|].
    destruct (Z.eqb_spec v VLAN_NONE) as [E|_]; [exists str_none; split; [done|by rewrite E]|]. apply vlan_text.
Qed.

(** ** Facts on what arrives *)

(** A machine, and a frame in memory. *)
Definition ex_net (ip : Z) (ether server : Data) (vlan native : Z) : net :=
  Net (Ours ip 0xFFFFFF00 0 0 ether server vlan native) (Arp_wait 0 0 None (fun _ => 0) 0 0 0)
    (Looping NETLOOP_CONTINUE 1 PingHandler_ (Some PingTimeout_) 0 10000) (Pinging NetEtherNullAddr 0xC0A80001 0)
    (rd (repeat 0 42 ++ [65; 66; 67])) 7 (Defrag (fun _ => 0) 0 0) [] [].
Definition ex_ether_a : Data := [2; 0; 0; 0; 0; 1].
Definition ex_ether_b : Data := [2; 0; 0; 0; 0; 2].
Definition ex_a : net := ex_net 0xC0A80001 ex_ether_a NetEtherNullAddr VLAN_NONE VLAN_NONE.
Definition ex_b : net := ex_net 0xC0A80002 ex_ether_b ex_ether_a VLAN_NONE VLAN_NONE.
Definition ex_vlan : net := ex_net 0xC0A80002 ex_ether_b ex_ether_a 5 5.

Definition receives (n : net) (f : Data) : option (net * option call) := NetReceive true false n (rd f) (Z.of_nat (length f)).
Definition sent_after (r : option (net * option call)) : list Data := match r with Some (n, _) => sent n | None => [] end.
Definition called_with (r : option (net * option call)) : option Z :=
  match r with Some (_, Some c) => Some (len c) | _ => None end.
Definition state_after (r : option (net * option call)) : option Z :=
  match r with Some (n, Some c) => n ← call_handler c n; Some (NetState (loop n)) | _ => None end.

(** An echo request with one byte of data. *)
Definition odd_echo : Data :=
  [2; 0; 0; 0; 0; 2; 2; 0; 0; 0; 0; 1; 8; 0; 69; 0; 0; 29; 0; 0; 64; 0; 255; 1; 250; 139; 192; 168; 0; 1; 192;
   168; 0; 2; 8; 0; 182; 255; 0; 0; 0; 0; 65].

(** An echo request on VLAN 5. *)
Definition tagged_echo : Data :=
  [2; 0; 0; 0; 0; 2; 2; 0; 0; 0; 0; 1; 129; 0; 0; 5; 8; 0; 69; 0; 0; 28; 0; 0; 64; 0; 255; 1; 250; 140; 192;
   168; 0; 1; 192; 168; 0; 2; 8; 0; 247; 255; 0; 0; 0; 0].

(** A datagram without data that claims to have 100 bytes, and one that claims to have none. *)
Definition long_udp : Data :=
  [2; 0; 0; 0; 0; 2; 2; 0; 0; 0; 0; 1; 8; 0; 69; 0; 0; 28; 0; 0; 64; 0; 255; 17; 250; 124; 192; 168; 0; 1; 192;
   168; 0; 2; 0; 69; 0; 69; 0; 100; 0; 0].
Definition no_udp : Data :=
  [2; 0; 0; 0; 0; 2; 2; 0; 0; 0; 0; 1; 8; 0; 69; 0; 0; 28; 0; 0; 64; 0; 255; 17; 250; 124; 192; 168; 0; 1; 192;
   168; 0; 2; 0; 69; 0; 69; 0; 0; 0; 0].

(** A datagram of a third machine, with an address in its data. *)
Definition echo_in_udp : Data :=
  [2; 0; 0; 0; 0; 2; 2; 0; 0; 0; 0; 1; 8; 0; 69; 0; 0; 44; 0; 0; 64; 0; 255; 17; 250; 106; 192; 168; 0; 3; 192;
   168; 0; 2; 0; 69; 0; 69; 0; 24; 0; 0; 0; 0; 0; 0; 0; 0; 0; 0; 0; 0; 0; 0; 192; 168; 0; 1].

(** A request for an address, without a VLAN tag. *)
Definition request : Data :=
  [255; 255; 255; 255; 255; 255; 2; 0; 0; 0; 0; 1; 8; 6; 0; 1; 8; 0; 6; 4; 0; 1; 2; 0; 0; 0; 0; 1; 192; 168; 0;
   1; 0; 0; 0; 0; 0; 0; 192; 168; 0; 2].

(** A reply of RARP. *)
Definition rarp : Data :=
  [2; 0; 0; 0; 0; 2; 2; 0; 0; 0; 0; 1; 128; 53; 0; 1; 8; 0; 6; 4; 0; 4; 2; 0; 0; 0; 0; 1; 192; 168; 0; 1; 2; 0;
   0; 0; 0; 2; 192; 168; 0; 2].

(** The checksum of an echo reply leaves out the last byte of a request of odd length. *)
Fact odd_echo_unsummed : exists f, sent_after (receives ex_b odd_echo) = [f] /\
  NetCksumOk true (rd odd_echo) 34 5 = true /\ NetCksumOk true (rd f) 34 4 = true /\ NetCksumOk true (rd f) 34 5 = false.
Proof. eexists. split; [vm_compute; reflexivity|]. split; [vm_compute; reflexivity|]. split; vm_compute; reflexivity. Qed.

(** On a VLAN the reply lacks its last four bytes. *)
Fact tagged_echo_short : map (fun f => Z.of_nat (length f)) (sent_after (receives ex_vlan tagged_echo)) = [42] /\
  Z.of_nat (length tagged_echo) = 46.
Proof. split; vm_compute; reflexivity. Qed.

(** The length in the UDP header is not compared with anything. *)
Fact udp_length_unchecked : called_with (receives ex_b long_udp) = Some 92 /\ Z.of_nat (length long_udp) = 42 /\
  called_with (receives ex_b no_udp) = Some (2 ^ 32 - 8).
Proof. split; [|split]; vm_compute; reflexivity. Qed.

(** Data of a datagram is taken for the header of an echo reply. *)
Fact datagram_ends_ping : state_after (receives ex_b echo_in_udp) = Some NETLOOP_SUCCESS.
Proof. vm_compute. reflexivity. Qed.

(** A reply of RARP makes a ping read through a null pointer. *)
Fact rarp_null_pointer : exists n c, receives ex_b rarp = Some (n, Some c) /\ call_handler c n = None.
Proof. eexists _, _. split; [reflexivity|]. reflexivity. Qed.

(** To a request without a tag on its native VLAN, the tagged answer is written over the request: what it says is no ARP packet. *)
Fact native_answer_garbled : exists f, sent_after (receives ex_vlan request) = [f] /\
  net16 (rd f) 12 = PROT_VLAN /\ net16 (rd f) 16 = PROT_ARP /\ net16 (rd f) 18 <> ARP_ETHER.
Proof. eexists. split; [vm_compute; reflexivity|]. split; [done|]. by split. Qed.

(** ** Witnesses *)

Definition ex_known : net := ex_net 0xC0A80001 ex_ether_a ex_ether_b VLAN_NONE VLAN_NONE.

Lemma ex_address l : forallb (fun x => (0 <=? x) && (x <? 256)) l = true -> length l = 6%nat -> address l.
Proof.
  intros H Hl. split; [done|]. apply List.Forall_forall. intros x Hx. rewrite forallb_forall in H. specialize (H x Hx).
  unfold is_byte. lia.
Qed.

Lemma ex_well_formed ip ether server vlan native :
  0 <= ip < 2 ^ 32 -> address ether -> address server -> well_formed (ex_net ip ether server vlan native).
Proof.
  intros Hip He Hs. constructor; [done| |done|done| |].
  - intros []; [done|apply address_bcast|by apply ex_address].
  - intros i. apply rd_byte. by repeat (apply List.Forall_cons; [done|]).
  - intros i. done.
Qed.

Lemma udp_delivered_witness : exists a' r, NetSendUDPPacket true 0 ex_known Server_ether 0xC0A80002 69 1069 3 = (a', r) /\
  r = 0 /\ exists f, sent a' = [f] /\ forall m len, arrived f m -> Z.of_nat (length f) <= len ->
    exists p, NetReceive false true ex_b m len = Some (ex_b, Some (Call (Some p) 69 1069 3)) /\ mem_list p 0 3 = [65; 66; 67].
Proof.
  destruct (NetSendUDPPacket true 0 ex_known Server_ether 0xC0A80002 69 1069 3) as [a' r] eqn:E. exists a', r.
  split; [reflexivity|].
  apply (udp_delivered true false true 0 ex_known Server_ether 0xC0A80002 69 1069 [65; 66; 67] a' r ex_b);
    [apply ex_well_formed; [lia|by apply ex_address..]|lia..|cbn; lia|reflexivity|left; discriminate|reflexivity
    |left; right; left; reflexivity|exact E].
Defined.

Lemma arp_exchange_witness : exists a' r req, NetSendUDPPacket true 0 ex_a Server_ether 0xC0A80002 69 1069 3 = (a', r) /\
  r = 1 /\ sent a' = [req] /\ forall m1 len1, arrived req m1 -> Z.of_nat (length req) <= len1 ->
    exists rep, NetReceive false true ex_b m1 len1 = Some (eth_send rep ex_b, None).
Proof.
  destruct (NetSendUDPPacket true 0 ex_a Server_ether 0xC0A80002 69 1069 3) as [a' r] eqn:E.
  destruct (arp_exchange true false true true 0 ex_a Server_ether 0xC0A80002 69 1069 [65; 66; 67] a' r ex_b) as
    (Hr & req & Hs & H);
    [apply ex_well_formed; [lia|by apply ex_address..]|apply ex_well_formed; [lia|by apply ex_address..]|lia..|cbn; lia
    |reflexivity|reflexivity|discriminate|reflexivity|reflexivity|reflexivity|exact E|].
  exists a', r, req. split; [reflexivity|]. split; [exact Hr|]. split; [exact Hs|]. intros m1 len1 M N.
  destruct (H m1 len1 M N) as (rep & R & _). by exists rep.
Defined.

Definition ex_pinging : net := set_ping (fun p => Pinging (mac p) 0xC0A80002 0) ex_a.

Lemma ping_answered_witness : exists a1 req,
  (forall ts, NetLoop true true true false (own ex_a) None 0 ts ex_pinging = loop_for true true (own ex_a) None ts a1) /\
  sent a1 = [req] /\ forall m1 len1, arrived req m1 -> Z.of_nat (length req) <= len1 ->
    exists rep, NetReceive false true ex_b m1 len1 = Some (eth_send rep ex_b, None).
Proof.
  destruct (ping_answered true false true true false (own ex_a) None 0 ex_pinging ex_b) as (a1 & req & H1 & H2 & H3);
    [|apply ex_well_formed; [lia|by apply ex_address..]|discriminate|discriminate|cbn; lia|reflexivity..|].
  - destruct (ex_well_formed 0xC0A80001 ex_ether_a NetEtherNullAddr VLAN_NONE VLAN_NONE) as [W1 W2 W3 W4 W5 W6];
      [lia|by apply ex_address..|]. constructor; [done|intros []; [apply (W2 Server_ether)|apply (W2 Bcast_ether)|apply (W2 Ping_mac)]|done..].
  - exists a1, req. split; [exact H1|]. split; [exact H2|]. intros m1 len1 M N.
    destruct (H3 m1 len1 M N) as (rep & R & _). by exists rep.
Defined.

Lemma ping_ends_witness : exists n r,
  NetLoop true true true true (own ex_a) None 1000 [Turn [(rd long_udp, 42)] false 3000; Turn [] false 12000] ex_pinging =
    Some (n, Some r) /\ (r = 0 \/ r = -1).
Proof.
  apply ping_ends.
  - split; [|split; [|done]]; vm_compute; discriminate.
  - apply List.Forall_cons; [|apply List.Forall_cons; [apply List.Forall_nil|apply List.Forall_nil]].
    apply List.Forall_cons; [|apply List.Forall_nil].
    split; vm_compute; [discriminate|reflexivity].
  - right. left. vm_compute. reflexivity.
Defined.

Lemma damage_noticed_witness : exists n', NetReceive true true ex_b (put16 true (rd long_udp) 22 0x8011) 42 = Some (n', None) /\
  (n' = ex_b \/ exists x, n' = puts x ex_b).
Proof.
  apply (damage_noticed true true ex_b (rd long_udp) 42 4 0x8011); [reflexivity|vm_compute; discriminate| |reflexivity|lia|lia|].
  - intros i. apply rd_byte. by repeat (apply List.Forall_cons; [done|]).
  - vm_compute. discriminate.
Defined.

Lemma addresses_as_text_witness :
  (exists s, ip_to_string 0xC0A80001 = Some s /\ string_to_ip (Some s) = 0xC0A80001) /\
  exists s, VLAN_to_string 5 = Some s /\ string_to_VLAN (Some s) = Z.land 5 VLAN_IDMASK.
Proof. apply addresses_as_text; lia. Defined.
