(* ===== verification/Bootp.v ===== *)
(** BOOTP and DHCP: [net/bootp.c], over the network layer of Net, with CONFIG_CMD_DHCP and without it, for clients
    without vendor extensions, random delay, CONFIG_BOOTP_SERVERIP and CONFIG_SYS_BOOTFILE_PREFIX.  Where
    CONFIG_DHCP_MIN_EXT_LEN is not defined it is 64.

    The numbers that the code keeps in network order and only copies, writes and compares ([IPaddr_t], [BootpID]) are, as
    in Net, the numbers that their bytes make in that order.  The packet handler and the time-out handler of
    [net.c] are fields of this file's state, which stand for those of Net's: the handlers there belong to the protocol
    PING.  Where the code hands over to [TftpStart] or [NfsStart] the handler says so.  Values of the environment are
    arguments; what [setenv] is given is a list.  The loops over options have as fuel the number of bytes they may look
    at, which is enough ([loops_end]); the search for the message type has no bound in the code either and takes its fuel
    as an argument.

    After the functions: what options mean, and that the parsers find them; what of a request whoever is on the network
    hears; the exchange that binds a client ([dhcp_binds]); runs of events ([bound_by_ack]); the vendor area that the
    client writes ([request_area]); the client without DHCP ([bootp_configures]); facts and witnesses. *)

From S2P Require Import Prelude CString Vsprintf Env Defrag Net.

Abbreviation Data := (list Z).

Definition BOOTP_VENDOR_MAGIC : Z := 0x63825363.
Definition TIMEOUT : Z := 5000.
Definition SELECT_TIMEOUT : Z := 3000.
Definition PORT_BOOTPS : Z := 67.
Definition PORT_BOOTPC : Z := 68.
Definition PKTSIZE : Z := 1518.
Definition OP_BOOTREQUEST : Z := 1.
Definition OP_BOOTREPLY : Z := 2.
Definition HWT_ETHER : Z := 1.
Definition HWL_ETHER : Z := 6.
Definition DHCP_DISCOVER : Z := 1.
Definition DHCP_OFFER : Z := 2.
Definition DHCP_REQUEST : Z := 3.
Definition DHCP_ACK : Z := 5.
Definition DHCP_NAK : Z := 6.

(** [Bootp_t]: the places of the fields. *)
Definition bp_id : Z := 4.
Definition bp_secs : Z := 8.
Definition bp_yiaddr : Z := 16.
Definition bp_siaddr : Z := 20.
Definition bp_chaddr : Z := 28.
Definition bp_file : Z := 108.
Definition bp_vend : Z := 236.

Inductive dhcp_state_t : Type := INIT | INIT_REBOOT | REBOOTING | SELECTING | REQUESTING | REBINDING | BOUND | RENEWING.
Inductive handler : Type := No_handler | DhcpHandler_ | BootpHandler_ | Tftp_started | Nfs_started | Start_again.
Inductive timer : Type := BootpTimeout_ | startAgainTimeout_.

Inductive message : Type :=
  | Retry_exceeded | Broadcast (try : Z) | Too_long (len max : Z) | Vendor_boot_file | Unhandled_option (code : Z) | Bound_to (ip : Z)
  | Invalid_state.

(** The configuration. *)
Record config : Type := Config {
  CONFIG_CMD_DHCP : bool; TIMEOUT_COUNT : Z; CONFIG_DHCP_MIN_EXT_LEN : Z; CONFIG_CMD_NFS : bool; CONFIG_CMD_SNTP : bool;
  CONFIG_BOOTP_SUBNETMASK : bool; CONFIG_BOOTP_TIMEOFFSET : bool; CONFIG_BOOTP_GATEWAY : bool; CONFIG_BOOTP_DNS : bool;
  CONFIG_BOOTP_DNS2 : bool; CONFIG_BOOTP_HOSTNAME : bool; CONFIG_BOOTP_BOOTFILESIZE : bool; CONFIG_BOOTP_BOOTPATH : bool;
  CONFIG_BOOTP_NISDOMAIN : bool; CONFIG_BOOTP_NTPSERVER : bool; CONFIG_BOOTP_SEND_HOSTNAME : bool }.

Definition OPT_SIZE (cfg : config) : Z := if CONFIG_CMD_DHCP cfg then 312 else 64.
Definition BOOTP_HDR_SIZE (cfg : config) : Z := bp_vend + OPT_SIZE cfg.

(** What the replies configure besides the addresses in Net; strings are in arrays. *)
Record conf : Type := Conf {
  NetOurDNSIP : Z; NetOurDNS2IP : Z; NetOurHostName : Data; NetOurRootPath : Data; NetOurNISDomain : Data; NetBootFileSize : Z;
  NetDHCPServerIP : Z; dhcp_leasetime : Z; NetNtpServerIP : Z; NetTimeOffset : Z }.

Record client : Type := Client {
  machine : net; conf_of : conf; BootFile : Data; dhcp_state : dhcp_state_t; BootpID : Z; BootpTry : Z;
  packetHandler : handler; timeHandler : option timer; timeStart : Z; timeDelta : Z;
  setenvs : list Data; console : list message }.

Definition set_machine (n : net) (c : client) : client :=
  Client n (conf_of c) (BootFile c) (dhcp_state c) (BootpID c) (BootpTry c) (packetHandler c) (timeHandler c) (timeStart c)
    (timeDelta c) (setenvs c) (console c).
Definition set_conf (f : conf -> conf) (c : client) : client :=
  Client (machine c) (f (conf_of c)) (BootFile c) (dhcp_state c) (BootpID c) (BootpTry c) (packetHandler c) (timeHandler c)
    (timeStart c) (timeDelta c) (setenvs c) (console c).
Definition set_file (s : Data) (c : client) : client :=
  Client (machine c) (conf_of c) s (dhcp_state c) (BootpID c) (BootpTry c) (packetHandler c) (timeHandler c) (timeStart c)
    (timeDelta c) (setenvs c) (console c).
Definition set_dhcp (s : dhcp_state_t) (c : client) : client :=
  Client (machine c) (conf_of c) (BootFile c) s (BootpID c) (BootpTry c) (packetHandler c) (timeHandler c) (timeStart c)
    (timeDelta c) (setenvs c) (console c).
Definition set_id (i : Z) (c : client) : client :=
  Client (machine c) (conf_of c) (BootFile c) (dhcp_state c) i (BootpTry c) (packetHandler c) (timeHandler c) (timeStart c)
    (timeDelta c) (setenvs c) (console c).
Definition set_try (t : Z) (c : client) : client :=
  Client (machine c) (conf_of c) (BootFile c) (dhcp_state c) (BootpID c) t (packetHandler c) (timeHandler c) (timeStart c)
    (timeDelta c) (setenvs c) (console c).
Definition NetSetHandler (h : handler) (c : client) : client :=
  Client (machine c) (conf_of c) (BootFile c) (dhcp_state c) (BootpID c) (BootpTry c) h (timeHandler c) (timeStart c)
    (timeDelta c) (setenvs c) (console c).
Definition NetSetTimeout (now iv : Z) (f : option timer) (c : client) : client :=
  if iv =? 0 then
    Client (machine c) (conf_of c) (BootFile c) (dhcp_state c) (BootpID c) (BootpTry c) (packetHandler c) None (timeStart c)
      (timeDelta c) (setenvs c) (console c)
  else
    Client (machine c) (conf_of c) (BootFile c) (dhcp_state c) (BootpID c) (BootpTry c) (packetHandler c) f now iv
      (setenvs c) (console c).
Definition setenv_bootfile (s : Data) (c : client) : client :=
  Client (machine c) (conf_of c) (BootFile c) (dhcp_state c) (BootpID c) (BootpTry c) (packetHandler c) (timeHandler c)
    (timeStart c) (timeDelta c) (setenvs c ++ [s]) (console c).
Definition puts (x : message) (c : client) : client :=
  Client (machine c) (conf_of c) (BootFile c) (dhcp_state c) (BootpID c) (BootpTry c) (packetHandler c) (timeHandler c)
    (timeStart c) (timeDelta c) (setenvs c) (console c ++ [x]).
Definition on_own (f : ours -> ours) (c : client) : client := set_machine (set_own f (machine c)) c.

Definition set_ip (ip : Z) (o : ours) : ours :=
  Ours ip (NetOurSubnetMask o) (NetOurGatewayIP o) (NetServerIP o) (NetOurEther o) (NetServerEther o) (NetOurVLAN o) (NetOurNativeVLAN o).
Definition set_mask (ip : Z) (o : ours) : ours :=
  Ours (NetOurIP o) ip (NetOurGatewayIP o) (NetServerIP o) (NetOurEther o) (NetServerEther o) (NetOurVLAN o) (NetOurNativeVLAN o).
Definition set_gateway (ip : Z) (o : ours) : ours :=
  Ours (NetOurIP o) (NetOurSubnetMask o) ip (NetServerIP o) (NetOurEther o) (NetServerEther o) (NetOurVLAN o) (NetOurNativeVLAN o).
Definition set_server (ip : Z) (o : ours) : ours :=
  Ours (NetOurIP o) (NetOurSubnetMask o) (NetOurGatewayIP o) ip (NetOurEther o) (NetServerEther o) (NetOurVLAN o) (NetOurNativeVLAN o).
Definition set_server_ether (a : Data) (o : ours) : ours :=
  Ours (NetOurIP o) (NetOurSubnetMask o) (NetOurGatewayIP o) (NetServerIP o) (NetOurEther o) a (NetOurVLAN o) (NetOurNativeVLAN o).

Definition set_dns (ip : Z) (k : conf) : conf :=
  Conf ip (NetOurDNS2IP k) (NetOurHostName k) (NetOurRootPath k) (NetOurNISDomain k) (NetBootFileSize k) (NetDHCPServerIP k)
    (dhcp_leasetime k) (NetNtpServerIP k) (NetTimeOffset k).
Definition set_dns2 (ip : Z) (k : conf) : conf :=
  Conf (NetOurDNSIP k) ip (NetOurHostName k) (NetOurRootPath k) (NetOurNISDomain k) (NetBootFileSize k) (NetDHCPServerIP k)
    (dhcp_leasetime k) (NetNtpServerIP k) (NetTimeOffset k).
Definition set_hostname (s : Data) (k : conf) : conf :=
  Conf (NetOurDNSIP k) (NetOurDNS2IP k) s (NetOurRootPath k) (NetOurNISDomain k) (NetBootFileSize k) (NetDHCPServerIP k)
    (dhcp_leasetime k) (NetNtpServerIP k) (NetTimeOffset k).
Definition set_rootpath (s : Data) (k : conf) : conf :=
  Conf (NetOurDNSIP k) (NetOurDNS2IP k) (NetOurHostName k) s (NetOurNISDomain k) (NetBootFileSize k) (NetDHCPServerIP k)
    (dhcp_leasetime k) (NetNtpServerIP k) (NetTimeOffset k).
Definition set_nisdomain (s : Data) (k : conf) : conf :=
  Conf (NetOurDNSIP k) (NetOurDNS2IP k) (NetOurHostName k) (NetOurRootPath k) s (NetBootFileSize k) (NetDHCPServerIP k)
    (dhcp_leasetime k) (NetNtpServerIP k) (NetTimeOffset k).
Definition set_bootsize (z : Z) (k : conf) : conf :=
  Conf (NetOurDNSIP k) (NetOurDNS2IP k) (NetOurHostName k) (NetOurRootPath k) (NetOurNISDomain k) z (NetDHCPServerIP k)
    (dhcp_leasetime k) (NetNtpServerIP k) (NetTimeOffset k).
Definition set_dhcp_server (ip : Z) (k : conf) : conf :=
  Conf (NetOurDNSIP k) (NetOurDNS2IP k) (NetOurHostName k) (NetOurRootPath k) (NetOurNISDomain k) (NetBootFileSize k) ip
    (dhcp_leasetime k) (NetNtpServerIP k) (NetTimeOffset k).
Definition set_lease (t : Z) (k : conf) : conf :=
  Conf (NetOurDNSIP k) (NetOurDNS2IP k) (NetOurHostName k) (NetOurRootPath k) (NetOurNISDomain k) (NetBootFileSize k)
    (NetDHCPServerIP k) t (NetNtpServerIP k) (NetTimeOffset k).
Definition set_ntp (ip : Z) (k : conf) : conf :=
  Conf (NetOurDNSIP k) (NetOurDNS2IP k) (NetOurHostName k) (NetOurRootPath k) (NetOurNISDomain k) (NetBootFileSize k)
    (NetDHCPServerIP k) (dhcp_leasetime k) ip (NetTimeOffset k).
Definition set_timeoffset (t : Z) (k : conf) : conf :=
  Conf (NetOurDNSIP k) (NetOurDNS2IP k) (NetOurHostName k) (NetOurRootPath k) (NetOurNISDomain k) (NetBootFileSize k)
    (NetDHCPServerIP k) (dhcp_leasetime k) (NetNtpServerIP k) t.

(** ** Replies *)

Definition file_of (p : mem) : Data := until_nul (mem_list p bp_file 128).

(** [memcpy] of [l] to the array [s], and a NUL behind it. *)
Definition put_str (l s : Data) : Data := l ++ 0 :: skipn (S (length l)) s.

Definition BootpCheckPkt (id : Z) (p : mem) (dest src len : Z) : Z :=
  if negb (dest =? PORT_BOOTPC) || negb (src =? PORT_BOOTPS) then -1
  else if len <? bp_vend then -2
  else if negb (p 0 =? OP_BOOTREQUEST) && negb (p 0 =? OP_BOOTREPLY) && negb (p 0 =? DHCP_OFFER) && negb (p 0 =? DHCP_ACK) &&
    negb (p 0 =? DHCP_NAK) then -3
  else if negb (p 1 =? HWT_ETHER) then -4
  else if negb (p 2 =? HWL_ETHER) then -5
  else if negb (NetReadIP p bp_id =? id) then -6
  else 0.

(** [rx] is [NetRxPacket]. *)
Definition BootpCopyNetParams (rx p : mem) (c : client) : client :=
  let c := on_own (set_ip (NetReadIP p bp_yiaddr)) c in
  let c := if NetReadIP p bp_siaddr =? 0 then c else on_own (set_server (NetReadIP p bp_siaddr)) c in
  let c := on_own (set_server_ether (mem_list rx 6 6)) c in
  let c := if p bp_file =? 0 then c else set_file (copy_filename (file_of p) 128) c in
  match BootFile c with
  | [] => c
  | s => setenv_bootfile s c
  end.

Definition truncate_sz (maxlen curlen : Z) (c : client) : client * Z :=
  if maxlen <=? curlen then (puts (Too_long curlen maxlen) c, maxlen - 1) else (c, curlen).

(** The string of an option: [size] bytes from [a] on, for an array of [maxlen] bytes. *)
Definition take_str (maxlen : Z) (p : mem) (a size : Z) (c : client) : client * Data :=
  let '(c, size) := truncate_sz maxlen size c in (c, mem_list p a (Z.to_nat size)).

Definition BootpVendorFieldProcess (cfg : config) (p : mem) (ext : Z) (c : client) : client :=
  let size := p (ext + 1) in
  let c := set_conf (set_bootsize 0) c in
  let k := conf_of c in
  let o := own (machine c) in
  let code := p ext in
  if code =? 1 then if NetOurSubnetMask o =? 0 then on_own (set_mask (NetReadIP p (ext + 2))) c else c
  else if code =? 3 then if NetOurGatewayIP o =? 0 then on_own (set_gateway (NetReadIP p (ext + 2))) c else c
  else if code =? 6 then
    let c := if NetOurDNSIP k =? 0 then set_conf (set_dns (NetReadIP p (ext + 2))) c else c in
    if CONFIG_BOOTP_DNS2 cfg && (NetOurDNS2IP k =? 0) && (4 <? size) then set_conf (set_dns2 (NetReadIP p (ext + 6))) c else c
  else if code =? 12 then
    if rd (NetOurHostName k) 0 =? 0 then
      let '(c, s) := take_str 32 p (ext + 2) size c in set_conf (set_hostname (put_str s (NetOurHostName k))) c
    else c
  else if code =? 13 then
    if size =? 2 then set_conf (set_bootsize (net16 p (ext + 2))) c
    else if size =? 4 then set_conf (set_bootsize (u16 (NetReadIP p (ext + 2)))) c
    else c
  else if code =? 17 then
    if rd (NetOurRootPath k) 0 =? 0 then
      let '(c, s) := take_str 64 p (ext + 2) size c in set_conf (set_rootpath (put_str s (NetOurRootPath k))) c
    else c
  else if code =? 40 then
    if rd (NetOurNISDomain k) 0 =? 0 then
      let '(c, s) := take_str 32 p (ext + 2) size c in set_conf (set_nisdomain (put_str s (NetOurNISDomain k))) c
    else c
  else c.

(** The loop of [BootpVendorProcess], up to [end_]; a step goes on by one byte at least. *)
Fixpoint vendor_loop (fuel : nat) (cfg : config) (p : mem) (ext end_ : Z) (c : client) : client :=
  match fuel with
  | O => c
  | S fuel =>
    if (ext <? end_) && negb (p ext =? 255) then
      if p ext =? 0 then vendor_loop fuel cfg p (ext + 1) end_ c
      else
        let next := ext + p (ext + 1) + 2 in
        vendor_loop fuel cfg p next end_ (if next <=? end_ then BootpVendorFieldProcess cfg p ext c else c)
    else c
  end.

Definition BootpVendorProcess (cfg : config) (p : mem) (ext size : Z) (c : client) : client :=
  vendor_loop (Z.to_nat size) cfg p ext (ext + size) c.

Definition magic (p : mem) : bool := NetReadIP p bp_vend =? BOOTP_VENDOR_MAGIC.

(** What follows a configuration: "autoload" may be "no" or "NFS". *)
Definition str_NFS : Data := [78; 70; 83].
Definition autoload_boot (cfg : config) (autoload : option Data) (c : client) : client :=
  match autoload with
  | Some s =>
    if rd s 0 =? 110 then set_machine (set_state NETLOOP_SUCCESS (machine c)) c
    else if CONFIG_CMD_NFS cfg && bool_decide (s = str_NFS) then NetSetHandler Nfs_started c
    else NetSetHandler Tftp_started c
  | None => NetSetHandler Tftp_started c
  end.

Definition BootpHandler (cfg : config) (autoload : option Data) (rx p : mem) (dest src len : Z) (c : client) : client :=
  if negb (BootpCheckPkt (BootpID c) p dest src len =? 0) then c
  else
    let c := BootpCopyNetParams rx p c in
    let c := if magic p then BootpVendorProcess cfg p (bp_vend + 4) (s32 len) c else c in
    autoload_boot cfg autoload (NetSetTimeout 0 0 None c).

(** ** Requests *)

(** The parameter request list. *)
Definition request_list (cfg : config) : Data :=
  (if CONFIG_BOOTP_SUBNETMASK cfg then [1] else []) ++ (if CONFIG_BOOTP_TIMEOFFSET cfg then [2] else []) ++
  (if CONFIG_BOOTP_GATEWAY cfg then [3] else []) ++ (if CONFIG_BOOTP_DNS cfg then [6] else []) ++
  (if CONFIG_BOOTP_HOSTNAME cfg then [12] else []) ++ (if CONFIG_BOOTP_BOOTFILESIZE cfg then [13] else []) ++
  (if CONFIG_BOOTP_BOOTPATH cfg then [17] else []) ++ (if CONFIG_BOOTP_NISDOMAIN cfg then [40] else []) ++
  (if CONFIG_BOOTP_NTPSERVER cfg then [42] else []).

(** [DhcpExtended]: the bytes that are written from [e] on, and the padding. *)
Definition DhcpExtended (cfg : config) (hostname : option Data) (message_type ServerID RequestedIP : Z) : Data :=
  let l := [99; 130; 83; 99; 53; 1; message_type; 57; 2; Z.shiftr (576 - 312 + OPT_SIZE cfg) 8; Z.land (576 - 312 + OPT_SIZE cfg) 0xff] in
  let l := if ServerID =? 0 then l else l ++ 54 :: 4 :: ip_bytes ServerID in
  let l := if RequestedIP =? 0 then l else l ++ 50 :: 4 :: ip_bytes RequestedIP in
  let l :=
    match hostname with
    | Some s => if CONFIG_BOOTP_SEND_HOSTNAME cfg then l ++ 12 :: u8 (Z.of_nat (length s)) :: s else l
    | None => l
    end in
  let l := l ++ 55 :: Z.of_nat (length (request_list cfg)) :: request_list cfg ++ [255] in
  l ++ repeat 0 (Z.to_nat (CONFIG_DHCP_MIN_EXT_LEN cfg + 1 - Z.of_nat (length l))).

(** [BootpExtended]; what it skips is zero. *)
Definition BootpExtended (cfg : config) : Data :=
  [99; 130; 83; 99] ++ (if CONFIG_BOOTP_SUBNETMASK cfg then 1 :: 4 :: repeat 0 4 else []) ++
  (if CONFIG_BOOTP_GATEWAY cfg then 3 :: 4 :: repeat 0 4 else []) ++ (if CONFIG_BOOTP_DNS cfg then 6 :: 4 :: repeat 0 4 else []) ++
  (if CONFIG_BOOTP_HOSTNAME cfg then 12 :: 32 :: repeat 0 32 else []) ++
  (if CONFIG_BOOTP_BOOTFILESIZE cfg then 13 :: 2 :: repeat 0 2 else []) ++
  (if CONFIG_BOOTP_BOOTPATH cfg then 17 :: 32 :: repeat 0 32 else []) ++
  (if CONFIG_BOOTP_NISDOMAIN cfg then 40 :: 32 :: repeat 0 32 else []) ++ [255].

(** The start of a request at [a]: [bp_op] to [bp_secs], and the hardware address. *)
Definition put_request (now : Z) (n : net) (m : mem) (a : Z) : mem :=
  let m := m.[a <- OP_BOOTREQUEST].[a + 1 <- HWT_ETHER].[a + 2 <- HWL_ETHER].[a + 3 <- 0] in
  let m := put_net16 m (a + bp_secs) (u16 (now / 1000)) in
  store_list m (a + bp_chaddr) (NetOurEther (own n)).

Section Host.
Context (be : bool).

(** The end of both functions that send: [ext] is in its place in [m], behind the headers. *)
Definition send_request (n : net) (m : mem) (iphdr : Z) (ext_len : Z) : net :=
  let iplen := bp_vend + ext_len in
  let '(n, m) := NetSetIP be n m iphdr 0xFFFFFFFF PORT_BOOTPS PORT_BOOTPC iplen in
  eth_send (mem_list m 0 (Z.to_nat (iphdr + IP_HDR_SIZE + iplen))) (set_tx m n).

Definition cleared (m : mem) : mem := store_list m 0 (repeat 0 (Z.to_nat PKTSIZE)).

Definition BootpRequest (cfg : config) (now : Z) (hostname : option Data) (c : client) : client :=
  let c := puts (Broadcast (BootpTry c + 1)) (set_try (BootpTry c + 1) c) in
  let n := machine c in
  let '(m, pkt) := NetSetEther n (cleared (NetTxPacket n)) NetBcastAddr PROT_IP in
  let bp := pkt + IP_HDR_SIZE in
  let m := put_request now n m bp in
  let m := store_list m (bp + bp_file) (copy_filename (BootFile c) 128 ++ [0]) in
  let ext := if CONFIG_CMD_DHCP cfg then DhcpExtended cfg hostname DHCP_DISCOVER 0 0 else BootpExtended cfg in
  let m := store_list m (bp + bp_vend) ext in
  let e := NetOurEther (own n) in
  let id := u32 (2 ^ 24 * rd e 2 + 2 ^ 16 * rd e 3 + 2 ^ 8 * rd e 4 + rd e 5 + now) in
  let m := NetWriteIP m (bp + bp_id) id in
  let c := NetSetTimeout now SELECT_TIMEOUT (Some BootpTimeout_) (set_id id c) in
  let c := if CONFIG_CMD_DHCP cfg then NetSetHandler DhcpHandler_ (set_dhcp SELECTING c) else NetSetHandler BootpHandler_ c in
  set_machine (send_request n m pkt (Z.of_nat (length ext))) c.

Definition DhcpRequest := BootpRequest.

(** [NetStartAgain] sets a handler and a timer of Net's, and these are the ones here. *)
Definition StartAgain (now : Z) (nretry : option Data) (c : client) : client :=
  let n := NetStartAgain now nretry (machine c) in
  let c := set_machine n c in
  if NetState (loop n) =? NETLOOP_FAIL then c
  else NetSetHandler Start_again (NetSetTimeout now 10000 (Some startAgainTimeout_) c).

Definition BootpTimeout (cfg : config) (now : Z) (hostname nretry : option Data) (c : client) : client :=
  if TIMEOUT_COUNT cfg <=? BootpTry c then StartAgain now nretry (puts Retry_exceeded c)
  else BootpRequest cfg now hostname (NetSetTimeout now TIMEOUT (Some BootpTimeout_) c).

(** ** DHCP *)

(** One option, at [popt] in the packet [p], which case 67 changes. *)
Definition process_option (cfg : config) (popt : Z) (p : mem) (c : client) : mem * client :=
  let code := p popt in
  let oplen := p (popt + 1) in
  let ip := NetReadIP p (popt + 2) in
  if code =? 1 then (p, on_own (set_mask ip) c)
  else if (code =? 2) && CONFIG_CMD_SNTP cfg && CONFIG_BOOTP_TIMEOFFSET cfg then (p, set_conf (set_timeoffset (s32 ip)) c)
  else if code =? 3 then (p, on_own (set_gateway ip) c)
  else if code =? 6 then
    let c := set_conf (set_dns ip) c in
    (p, if CONFIG_BOOTP_DNS2 cfg && (4 <? oplen) then set_conf (set_dns2 (NetReadIP p (popt + 6))) c else c)
  else if code =? 12 then
    let '(c, s) := take_str 32 p (popt + 2) oplen c in (p, set_conf (fun k => set_hostname (put_str s (NetOurHostName k)) k) c)
  else if code =? 15 then (p, c)
  else if code =? 17 then
    let '(c, s) := take_str 64 p (popt + 2) oplen c in (p, set_conf (fun k => set_rootpath (put_str s (NetOurRootPath k)) k) c)
  else if (code =? 42) && CONFIG_CMD_SNTP cfg && CONFIG_BOOTP_NTPSERVER cfg then (p, set_conf (set_ntp ip) c)
  else if code =? 51 then (p, set_conf (set_lease ip) c)
  else if code =? 53 then (p, c)
  else if code =? 54 then (p, set_conf (set_dhcp_server ip) c)
  else if (code =? 58) || (code =? 59) || (code =? 66) then (p, c)
  else if code =? 67 then
    let '(c, s) := take_str 128 p (popt + 2) oplen c in
    match s with
    | [] => (p, c)
    | _ => if p bp_file =? 0 then (store_list p bp_file (s ++ [0]), puts Vendor_boot_file c) else (p, c)
    end
  else (p, puts (Unhandled_option code) c).

Fixpoint options_loop (fuel : nat) (cfg : config) (popt end_ : Z) (p : mem) (c : client) : mem * client :=
  match fuel with
  | O => (p, c)
  | S fuel =>
    if (popt <? end_) && negb (p popt =? 255) then
      let oplen := p (popt + 1) in
      let '(p, c) := process_option cfg popt p c in
      options_loop fuel cfg (popt + oplen + 2) end_ p c
    else (p, c)
  end.

Definition DhcpOptionsProcess (cfg : config) (popt : Z) (p : mem) (c : client) : mem * client :=
  options_loop (Z.to_nat (BOOTP_HDR_SIZE cfg)) cfg popt (popt + BOOTP_HDR_SIZE cfg) p c.

(** [DhcpMessageType]: the loop has no bound but the end of the options; [None]: that has not been found within [fuel] steps. *)
Fixpoint type_loop (fuel : nat) (p : mem) (popt : Z) : option Z :=
  match fuel with
  | O => None
  | S fuel =>
    if p popt =? 255 then Some (-1)
    else if p popt =? 53 then Some (p (popt + 2))
    else type_loop fuel p (popt + p (popt + 1) + 2)
  end.

Definition DhcpMessageType (fuel : nat) (p : mem) : option Z :=
  if magic p then type_loop fuel p (bp_vend + 4) else Some (-1).

Definition DhcpSendRequestPkt (cfg : config) (now : Z) (hostname : option Data) (p : mem) (c : client) : client :=
  let n := machine c in
  let '(m, pkt) := NetSetEther n (cleared (NetTxPacket n)) NetBcastAddr PROT_IP in
  let bp := pkt + IP_HDR_SIZE in
  let m := put_request now n m bp in
  let m := store_list m (bp + bp_id) (mem_list p bp_id 4) in
  let ext := DhcpExtended cfg hostname DHCP_REQUEST (NetDHCPServerIP (conf_of c)) (NetReadIP p bp_yiaddr) in
  let m := store_list m (bp + bp_vend) ext in
  set_machine (send_request n m pkt (Z.of_nat (length ext))) c.

Definition DhcpHandler (cfg : config) (fuel : nat) (now : Z) (hostname autoload : option Data) (rx p : mem) (dest src len : Z)
    (c : client) : option client :=
  if negb (BootpCheckPkt (BootpID c) p dest src len =? 0) then Some c
  else
    match dhcp_state c with
    | SELECTING =>
      let c := set_dhcp REQUESTING c in
      let '(p, c) := if magic p then DhcpOptionsProcess cfg (bp_vend + 4) p c else (p, c) in
      Some (DhcpSendRequestPkt cfg now hostname p (NetSetTimeout now TIMEOUT (Some BootpTimeout_) c))
    | REQUESTING =>
      t ← DhcpMessageType fuel p;
      if t =? DHCP_ACK then
        let '(p, c) := if magic p then DhcpOptionsProcess cfg (bp_vend + 4) p c else (p, c) in
        let c := set_dhcp BOUND (BootpCopyNetParams rx p c) in
        Some (autoload_boot cfg autoload (puts (Bound_to (NetOurIP (own (machine c)))) c))
      else Some c
    | BOUND => Some c
    | _ => Some (puts Invalid_state c)
    end.
End Host.

(** ** Options *)

Definition encode (l : list (Z * Data)) : Data := concat (map (fun '(c, d) => c :: Z.of_nat (length d) :: d) l).

Definition word (d : Data) (i : Z) : Z := 2 ^ 24 * rd d i + 2 ^ 16 * rd d (i + 1) + 2 ^ 8 * rd d (i + 2) + rd d (i + 3).

(** An option with as many bytes as its meaning calls for; zero is no option but padding. *)
Definition words_in (code : Z) : nat :=
  if bool_decide (code ∈ [1; 2; 3; 6; 42; 51; 54]) then 4 else if code =? 53 then 1 else 0.
Definition good_option (o : Z * Data) : Prop :=
  let '(c, d) := o in 0 < c < 255 /\ (words_in c <= length d <= 255)%nat /\ Forall is_byte d /\ ((length d <= 4)%nat \/ c <> 6 \/ (8 <= length d)%nat).

(** What an option means: strings are cut at the size of their array; the boot file counts only if there is none yet. *)
Definition cut (max : nat) (d : Data) (c : client) : client * Data :=
  if (max <=? length d)%nat then (puts (Too_long (Z.of_nat (length d)) (Z.of_nat max)) c, firstn (max - 1) d) else (c, d).

Inductive meaning : Type := Mask | Offset | Gateway | Dns | Host | Root | Ntp | Lease | Server | File | Ignored | Unknown.
Definition meaning_of (cfg : config) (code : Z) : meaning :=
  match find (fun '(c, _) => c =? code)
    ([(1, Mask); (3, Gateway); (6, Dns); (12, Host); (15, Ignored); (17, Root); (51, Lease); (53, Ignored); (54, Server); (58, Ignored);
      (59, Ignored); (66, Ignored); (67, File)] ++
     (if CONFIG_CMD_SNTP cfg && CONFIG_BOOTP_TIMEOFFSET cfg then [(2, Offset)] else []) ++
     (if CONFIG_CMD_SNTP cfg && CONFIG_BOOTP_NTPSERVER cfg then [(42, Ntp)] else [])) with
  | Some (_, m) => m
  | None => Unknown
  end.

Definition apply_option (cfg : config) (s : Data * client) (o : Z * Data) : Data * client :=
  let '(file, c) := s in
  let '(code, d) := o in
  match meaning_of cfg code with
  | Mask => (file, on_own (set_mask (word d 0)) c)
  | Offset => (file, set_conf (set_timeoffset (s32 (word d 0))) c)
  | Gateway => (file, on_own (set_gateway (word d 0)) c)
  | Dns =>
    let c := set_conf (set_dns (word d 0)) c in
    (file, if CONFIG_BOOTP_DNS2 cfg && (4 <? length d)%nat then set_conf (set_dns2 (word d 4)) c else c)
  | Host => let '(c, s) := cut 32 d c in (file, set_conf (fun k => set_hostname (put_str s (NetOurHostName k)) k) c)
  | Root => let '(c, s) := cut 64 d c in (file, set_conf (fun k => set_rootpath (put_str s (NetOurRootPath k)) k) c)
  | Ntp => (file, set_conf (set_ntp (word d 0)) c)
  | Lease => (file, set_conf (set_lease (word d 0)) c)
  | Server => (file, set_conf (set_dhcp_server (word d 0)) c)
  | File =>
    let '(c, s) := cut 128 d c in
    match file, s with [], _ :: _ => (until_nul s, puts Vendor_boot_file c) | _, _ => (file, c) end
  | Ignored => (file, c)
  | Unknown => (file, puts (Unhandled_option code) c)
  end.

(** Option [o] is at [a]. *)
Definition option_at (p : mem) (a : Z) (o : Z * Data) : Prop :=
  p a = fst o /\ p (a + 1) = Z.of_nat (length (snd o)) /\ mem_list p (a + 2) (length (snd o)) = snd o.

Lemma option_word p a code d i : option_at p a (code, d) -> 0 <= i -> i + 4 <= Z.of_nat (length d) -> NetReadIP p (a + 2 + i) = word d i.
Proof.
  intros (_ & _ & H) Hi Hl. cbn [fst snd] in H. unfold NetReadIP, word.
  rewrite <- !Z.add_assoc, <- !(mem_list_rd p (a + 2)) by (done || lia). by rewrite !Z.add_assoc.
Qed.

Lemma take_str_spec p a d max c : mem_list p a (length d) = d -> (0 < max)%nat ->
  take_str (Z.of_nat max) p a (Z.of_nat (length d)) c = cut max d c.
Proof.
  intros H Hm. unfold take_str, truncate_sz, cut.
  destruct (Z.leb_spec (Z.of_nat max) (Z.of_nat (length d))), (Nat.leb_spec max (length d)); try lia.
  - f_equal. rewrite (mem_list_firstn p a (length d)) by lia. rewrite H. f_equal. lia.
  - f_equal. by rewrite Nat2Z.id.
Qed.

Lemma file_nul_app s t : until_nul (s ++ 0 :: t) = until_nul s.
Proof. rewrite until_nul_app. destruct (existsb (Z.eqb 0) s) eqn:E; [done|]. cbn. by rewrite app_nil_r, until_nul_none. Qed.

Lemma file_of_stored p s : (length s < 128)%nat -> file_of (store_list p bp_file (s ++ [0])) = until_nul s.
Proof.
  intros Hs. unfold file_of. replace 128%nat with (length (s ++ [0%Z]) + (127 - length s))%nat by (rewrite length_app; cbn; lia).
  rewrite mem_list_app, mem_list_store, <- app_assoc. apply file_nul_app.
Qed.

Lemma file_empty p : file_of p = [] <-> p bp_file = 0.
Proof.
  unfold file_of. change 128%nat with (S 127). cbn [mem_list until_nul]. destruct (Z.eqb_spec (p bp_file) 0) as [H|H]; [done|].
  by split.
Qed.

Lemma cut_short max d c : (0 < max)%nat -> let '(_, s) := cut max d c in (length s < max)%nat.
Proof. intros Hm. unfold cut. destruct (Nat.leb_spec max (length d)); [rewrite length_firstn; lia|done]. Qed.

Lemma needs_words c d : good_option (c, d) -> In c [1; 2; 3; 6; 42; 51; 54] -> (4 <= length d)%nat.
Proof.
  intros (_ & [H _] & _) Hc. unfold words_in in H. rewrite bool_decide_eq_true_2 in H; [done|]. by apply list_elem_of_In.
Qed.

(** The packet changes in [bp_file] only. *)
Definition same_but_file (p q : mem) : Prop := forall x, ~ (bp_file <= x < bp_file + 128) -> p x = q x.

Lemma process_option_spec cfg popt o p c : good_option o -> option_at p popt o ->
  let '(p', c') := process_option cfg popt p c in
  (file_of p', c') = apply_option cfg (file_of p, c) o /\ same_but_file p' p.
Proof.
  destruct o as [code d]. intros G At. pose proof At as (H1 & H2 & H3). cbn [fst snd] in H1, H2, H3.
  assert (Ip : In code [1; 2; 3; 6; 42; 51; 54] -> NetReadIP p (popt + 2) = word d 0).
  { intros Hc. pose proof (needs_words _ _ G Hc). rewrite <- (option_word p popt code d 0 At) by lia. by rewrite Z.add_0_r. }
  assert (St : forall max, (0 < max)%nat -> take_str (Z.of_nat max) p (popt + 2) (Z.of_nat (length d)) c = cut max d c)
    by (intros max Hm; by apply take_str_spec).
  assert (Same : forall c' : client, (file_of p, c') = (file_of p, c') /\ same_but_file p p) by done.
  unfold process_option. rewrite H1, H2. unfold apply_option.
  assert (Hu : ~ In code [1; 3; 6; 12; 15; 17; 51; 53; 54; 58; 59; 66; 67; 2; 42] -> meaning_of cfg code = Unknown).
  { intros Hn. unfold meaning_of. destruct (find _ _) as [[k v]|] eqn:E; [|done]. apply find_some in E as [E1 E2]. apply Z.eqb_eq in E2 as ->.
    destruct Hn. apply in_app_or in E1 as [E1|E1]; [|apply in_app_or in E1 as [E1|E1]].
    - cbn in E1. repeat (destruct E1 as [[= <- _]|E1]; [cbn; tauto|]). done.
    - destruct (_ && _); [|done]. destruct E1 as [[= <- _]|[]]. cbn; tauto.
    - destruct (_ && _); [|done]. destruct E1 as [[= <- _]|[]]. cbn; tauto. }
  destruct (Z.eqb_spec code 1) as [->|N1]; [rewrite Ip by (cbn; tauto); apply Same|].
  destruct (Z.eqb_spec code 2) as [->|N2].
  { unfold meaning_of. cbn [andb]. destruct (CONFIG_CMD_SNTP cfg && CONFIG_BOOTP_TIMEOFFSET cfg) eqn:E; cbn [andb app].
    - rewrite Ip by (cbn; tauto). apply Same.
    - destruct (CONFIG_CMD_SNTP cfg && CONFIG_BOOTP_NTPSERVER cfg); done. }
  cbn [andb].
  destruct (Z.eqb_spec code 3) as [->|N3]; [rewrite Ip by (cbn; tauto); apply Same|].
  destruct (Z.eqb_spec code 6) as [->|N6].
  { rewrite Ip by (cbn; tauto). change (meaning_of cfg 6) with Dns. cbv iota.
    replace (4 <? Z.of_nat (length d)) with (4 <? length d)%nat
      by (destruct (Z.ltb_spec 4 (Z.of_nat (length d))), (Nat.ltb_spec 4 (length d)); (done || lia)). destruct (_ && _) eqn:E; [|done].
    apply andb_true_iff in E as [_ E%Nat.ltb_lt]. destruct G as (_ & _ & _ & [G|[G|G]]); [lia|done|].
    rewrite <- (option_word p popt 6 d 4 At) by lia. replace (popt + 2 + 4) with (popt + 6) by lia. done. }
  destruct (Z.eqb_spec code 12) as [->|N12].
  { change 32 with (Z.of_nat 32). rewrite St by lia. change (meaning_of cfg 12) with Host. cbv iota. by destruct (cut 32 d c). }
  destruct (Z.eqb_spec code 15) as [->|N15]; [apply Same|].
  destruct (Z.eqb_spec code 17) as [->|N17].
  { change 64 with (Z.of_nat 64). rewrite St by lia. change (meaning_of cfg 17) with Root. cbv iota. by destruct (cut 64 d c). }
  destruct (Z.eqb_spec code 42) as [->|N42].
  { unfold meaning_of. cbn [andb]. destruct (CONFIG_CMD_SNTP cfg && CONFIG_BOOTP_NTPSERVER cfg) eqn:E.
    - rewrite Ip by (cbn; tauto). by destruct (CONFIG_CMD_SNTP cfg && CONFIG_BOOTP_TIMEOFFSET cfg).
    - by destruct (CONFIG_CMD_SNTP cfg && CONFIG_BOOTP_TIMEOFFSET cfg). }
  cbn [andb].
  destruct (Z.eqb_spec code 51) as [->|N51]; [rewrite Ip by (cbn; tauto); apply Same|].
  destruct (Z.eqb_spec code 53) as [->|N53]; [apply Same|].
  destruct (Z.eqb_spec code 54) as [->|N54]; [rewrite Ip by (cbn; tauto); apply Same|].
  destruct (Z.eqb_spec code 58) as [->|N58]; [apply Same|]. destruct (Z.eqb_spec code 59) as [->|N59]; [apply Same|].
  destruct (Z.eqb_spec code 66) as [->|N66]; [apply Same|]. cbn [orb].
  destruct (Z.eqb_spec code 67) as [->|N67].
  - change 128 with (Z.of_nat 128). rewrite St by lia. change (meaning_of cfg 67) with File. cbv iota. pose proof (cut_short 128 d c ltac:(lia)) as Hs.
    destruct (cut 128 d c) as [c' [|x l]]; [destruct (file_of p); apply Same|]. pose proof (file_empty p) as He.
    destruct (Z.eqb_spec (p bp_file) 0) as [E|E].
    + rewrite (proj2 He E). split; [by rewrite file_of_stored|]. intros y Hy. apply store_list_out. rewrite length_app. cbn [length] in *. lia.
    + destruct (file_of p) eqn:Ef; [by destruct E; apply He|apply Same].
  - rewrite Hu; [apply Same|]. cbn. intuition congruence.
Qed.

Lemma encode_cons c d l : encode ((c, d) :: l) = c :: Z.of_nat (length d) :: d ++ encode l.
Proof. done. Qed.

(** The first option of a list in memory, and the others. *)
Lemma encoded_cons p a c d l : mem_list p a (length (encode ((c, d) :: l))) = encode ((c, d) :: l) ->
  option_at p a (c, d) /\ mem_list p (a + Z.of_nat (length d) + 2) (length (encode l)) = encode l.
Proof.
  rewrite encode_cons. cbn [length mem_list]. rewrite length_app. intros [= H1 H2 H].
  destruct (mem_list_split p (a + 1 + 1) d (encode l) _ H eq_refl) as [H3 H4]. replace (a + 1 + 1) with (a + 2) in * by lia.
  split; [by split_and!|]. by replace (a + Z.of_nat (length d) + 2) with (a + 2 + Z.of_nat (length d)) by lia.
Qed.

Lemma same_but_file_list p q a n : same_but_file p q -> bp_file + 128 <= a -> mem_list p a n = mem_list q a n.
Proof. intros H Ha. apply mem_list_ext. intros i Hi. apply H. lia. Qed.

Lemma options_loop_spec cfg l : forall fuel popt end_ p c,
  Forall good_option l -> mem_list p popt (length (encode l)) = encode l -> p (popt + Z.of_nat (length (encode l))) = 255 ->
  bp_vend <= popt -> popt + Z.of_nat (length (encode l)) < end_ -> (length l < fuel)%nat ->
  let '(p', c') := options_loop fuel cfg popt end_ p c in
  (file_of p', c') = fold_left (apply_option cfg) l (file_of p, c) /\ same_but_file p' p.
Proof.
  induction l as [|[code d] l IH]; intros fuel popt end_ p c Hg Hl Hend Hp Hb Hf; (destruct fuel as [|fuel]; [lia|]); cbn [options_loop].
  - cbn in Hend. rewrite Z.add_0_r in Hend. rewrite Hend, andb_false_r. done.
  - apply encoded_cons in Hl as [At Hl]. apply List.Forall_cons_iff in Hg as [G Hg]. rewrite encode_cons in Hb, Hend. cbn [length] in *.
    rewrite length_app in *. pose proof (proj1 G) as Hcode. pose proof At as (H1 & H2 & _). cbn [fst snd] in H1, H2.
    rewrite H1, H2. rewrite (proj2 (Z.ltb_lt _ _)), (proj2 (Z.eqb_neq code 255)) by lia. cbn [andb negb].
    pose proof (process_option_spec cfg popt (code, d) p c G At) as Hs. destruct (process_option cfg popt p c) as [p' c'].
    destruct Hs as [Hs Hsame]. cbn [fold_left]. rewrite <- Hs. unfold bp_vend, bp_file in *.
    replace (popt + Z.of_nat (length d) + 2) with (popt + (Z.of_nat (length d) + 2)) by lia.
    specialize (IH fuel (popt + (Z.of_nat (length d) + 2)) end_ p' c' Hg). destruct (options_loop _ _ _ _ _ _) as [p2 c2].
    destruct IH as [IH1 IH2].
    + rewrite (same_but_file_list p' p) by (done || unfold bp_file; lia). rewrite <- Hl at 2. f_equal. lia.
    + rewrite Hsame by (unfold bp_file; lia). rewrite <- Hend. f_equal. lia.
    + lia.
    + lia.
    + lia.
    + split; [done|]. intros x Hx. by rewrite IH2, Hsame.
Qed.

(** The message type: the first option 53. *)
Definition message_type (l : list (Z * Data)) : Z :=
  match find (fun '(c, _) => c =? 53) l with Some (_, d) => rd d 0 | None => -1 end.

Lemma type_loop_spec p l : forall fuel popt,
  Forall good_option l -> mem_list p popt (length (encode l)) = encode l -> p (popt + Z.of_nat (length (encode l))) = 255 ->
  (length l < fuel)%nat -> type_loop fuel p popt = Some (message_type l).
Proof.
  induction l as [|[code d] l IH]; intros fuel popt Hg Hl Hend Hf; (destruct fuel as [|fuel]; [lia|]); cbn [type_loop].
  - cbn in Hend. rewrite Z.add_0_r in Hend. by rewrite Hend.
  - apply encoded_cons in Hl as [At Hl]. apply List.Forall_cons_iff in Hg as [G Hg]. rewrite encode_cons in Hend. cbn [length] in *.
    rewrite length_app in *. pose proof (proj1 G) as Hcode. pose proof At as (H1 & H2 & H3). cbn [fst snd] in H1, H2, H3.
    rewrite H1, H2. rewrite (proj2 (Z.eqb_neq code 255)) by lia. unfold message_type. cbn [find].
    destruct (Z.eqb_spec code 53) as [->|].
    + destruct G as (_ & [Hd _] & _). change (words_in 53) with 1%nat in Hd. f_equal. rewrite <- (Z.add_0_r (popt + 2)).
      by rewrite (mem_list_rd p (popt + 2) d 0 H3) by lia.
    + apply IH; [done|done| |lia]. rewrite <- Hend. f_equal. lia.
Qed.

(** ** Messages *)

(** A message of the server: addresses, boot file, options. *)
Record reply : Type := Reply { r_yiaddr : Z; r_siaddr : Z; r_file : Data; r_opts : list (Z * Data) }.

(** It is at the start of [p]. *)
Record is_reply (id : Z) (r : reply) (p : mem) : Prop := Is_reply {
  ir_op : p 0 = OP_BOOTREPLY; ir_htype : p 1 = HWT_ETHER; ir_hlen : p 2 = HWL_ETHER; ir_id : NetReadIP p bp_id = id;
  ir_yiaddr : NetReadIP p bp_yiaddr = r_yiaddr r; ir_siaddr : NetReadIP p bp_siaddr = r_siaddr r; ir_file : file_of p = r_file r;
  ir_magic : magic p = true; ir_opts : mem_list p (bp_vend + 4) (length (encode (r_opts r))) = encode (r_opts r);
  ir_end : p (bp_vend + 4 + Z.of_nat (length (encode (r_opts r)))) = 255;
  ir_good : Forall good_option (r_opts r); ir_size : (length (encode (r_opts r)) < 548)%nat }.

(** The client with the options of a message, and the boot file. *)
Definition configure (cfg : config) (r : reply) (c : client) : Data * client := fold_left (apply_option cfg) (r_opts r) (r_file r, c).

Lemma options_length l : (length l <= length (encode l))%nat.
Proof. induction l as [|[c d] l IH]; [done|]. rewrite encode_cons. cbn [length]. rewrite length_app. lia. Qed.

Lemma options_process cfg id r p c : CONFIG_CMD_DHCP cfg = true -> is_reply id r p ->
  let '(p', c') := DhcpOptionsProcess cfg (bp_vend + 4) p c in (file_of p', c') = configure cfg r c /\ same_but_file p' p.
Proof.
  intros Hd [H1 H2 H3 H4 H5 H6 H7 H8 H9 H10 H11 H12]. unfold DhcpOptionsProcess, configure. rewrite <- H7.
  assert (Hsz : BOOTP_HDR_SIZE cfg = 548) by (unfold BOOTP_HDR_SIZE, OPT_SIZE; by rewrite Hd).
  pose proof (options_length (r_opts r)). apply options_loop_spec; try done; rewrite Hsz; [lia|]. change (Z.to_nat 548) with 548%nat. lia.
Qed.

Lemma reply_checked id r p len : is_reply id r p -> bp_vend <= len -> BootpCheckPkt id p PORT_BOOTPC PORT_BOOTPS len = 0.
Proof.
  intros [H1 H2 H3 H4 _ _ _ _ _ _ _ _] Hl. unfold BootpCheckPkt. rewrite H1, H2, H3, H4, (proj2 (Z.ltb_ge len bp_vend)) by done. rewrite (Z.eqb_refl id). reflexivity.
Qed.

(** ** Requests on the wire *)

(** The request in [p]: transaction, hardware address, vendor area. *)
Definition is_request (id : Z) (ether ext : Data) (p : mem) : Prop :=
  p 0 = OP_BOOTREQUEST /\ p 1 = HWT_ETHER /\ p 2 = HWL_ETHER /\ NetReadIP p bp_id = id /\ mem_list p bp_chaddr 6 = ether /\
  mem_list p bp_vend (length ext) = ext.

(** Whoever is on the same VLAN receives the request with the frame [f]. *)
Definition heard (v id : Z) (ether ext f : Data) : Prop :=
  forall be' udp_checksum b m, vlan_of b = v -> takes b 0xFFFFFFFF -> arrived f m ->
  exists p, NetReceive be' udp_checksum b m (Z.of_nat (length f)) =
      Some (b, Some (Call (Some p) PORT_BOOTPS PORT_BOOTPC (bp_vend + Z.of_nat (length ext)))) /\ is_request id ether ext p.

Lemma is_request_ext id ether ext p q : (forall i, 0 <= i < bp_vend + Z.of_nat (length ext) -> p i = q i) ->
  is_request id ether ext q -> is_request id ether ext p.
Proof.
  unfold is_request, bp_vend, bp_id, bp_chaddr. intros H (R1 & R2 & R3 & R4 & R5 & R6). rewrite !H by lia.
  split; [done|]. split; [done|]. split; [done|]. split; [rewrite <- R4; apply NetReadIP_ext; intros i Hi; apply H; lia|].
  split; [rewrite <- R5; apply mem_list_ext; intros i Hi; apply H; lia|]. rewrite <- R6 at 2. apply mem_list_ext. intros i Hi. apply H. lia.
Qed.

Section Sending.
Context (be : bool) (n : net) (Hw : well_formed n).

Lemma broadcast_built m to dport sport size n' m2 :
  on_link m (vlan_of n) PROT_IP -> mem_list m 0 6 = NetBcastAddr -> bytes_of m -> 0 <= to < 2 ^ 32 -> 0 <= dport < 65536 ->
  0 <= sport < 65536 -> 0 <= size <= 65500 -> let h := hdr (vlan_of n) in
  NetSetIP be n m h to dport sport size = (n', m2) ->
  n' = Net.set_id (u32 (NetIPID n + 1)) n /\
  udp_frame m2 (vlan_of n) NetBcastAddr (NetOurIP (own n)) to dport sport (mem_list m2 (h + IP_HDR_SIZE) (Z.to_nat size)) /\
  forall b, h + IP_HDR_SIZE <= b < h + IP_HDR_SIZE + size -> m2 b = m b.
Proof using Hw.
  intros Hl He Hm Hto Hd Hs Hsize h H.
  destruct (NetSetIP_spec be n (wf_ip n Hw) m h to dport sport size n' m2 H Hm Hto Hd Hs Hsize) as (-> & I1 & I2 & I3 & I4 & I5).
  pose proof (hdr_range (vlan_of n)) as Hh. fold h in Hh. unfold IP_HDR_SIZE in *. split; [done|]. split.
  - unfold udp_frame. rewrite mem_list_length, Z2Nat.id by lia. unfold IP_HDR_SIZE.
    split; [revert Hl; apply on_link_ext; intros i Hi; apply I5; unfold h; lia|].
    split; [rewrite <- He; apply mem_list_ext; intros i Hi; apply I5; lia|]. done.
  - intros b Hb. apply I5. lia.
Qed.

Lemma send_request_heard m id ether ext :
  let h := hdr (vlan_of n) in
  on_link m (vlan_of n) PROT_IP -> mem_list m 0 6 = NetBcastAddr -> bytes_of m -> Z.of_nat (length ext) <= 65000 ->
  is_request id ether ext (from m (h + IP_HDR_SIZE)) ->
  exists f, sent (send_request be n m h (Z.of_nat (length ext))) = sent n ++ [f] /\ heard (vlan_of n) id ether ext f /\
    own (send_request be n m h (Z.of_nat (length ext))) = own n /\ loop (send_request be n m h (Z.of_nat (length ext))) = loop n /\
    well_formed (send_request be n m h (Z.of_nat (length ext))).
Proof using Hw.
  intros h Hl He Hm Hext R. unfold send_request.
  destruct (NetSetIP be n m h _ _ _ _) as [n' m2] eqn:E. set (size := bp_vend + Z.of_nat (length ext)) in *.
  pose proof (hdr_range (vlan_of n)) as Hh. fold h in Hh. assert (Hsz : 236 <= size <= 65236) by (unfold size, bp_vend; lia).
  destruct (broadcast_built m 0xFFFFFFFF PORT_BOOTPS PORT_BOOTPC size n' m2 Hl He Hm ltac:(lia) ltac:(unfold PORT_BOOTPS; lia)
    ltac:(unfold PORT_BOOTPC; lia) ltac:(lia) E) as (-> & U & I). fold h in U, I. unfold IP_HDR_SIZE in *.
  eexists. split; [reflexivity|]. split; [|split; [done|split; [done|]]].
  - intros be' u b k Hv Ht Ha. pose proof (udp_frame_arrived k m2 _ _ _ _ _ _ _ (mem_list m2 0 (Z.to_nat (h + 28 + size))) U) as U'. fold h in U'. unfold IP_HDR_SIZE in U'.
    rewrite mem_list_length, Z2Nat.id in U' by lia. specialize (U' eq_refl Ha).
    rewrite <- Hv in U'. rewrite mem_list_length, (Z2Nat.id (h + 28 + size)) by lia.
    destruct (udp_frame_received be' u b k (h + 28 + size) _ _ _ _ _ _ U' Ht) as (p & -> & Hp).
    + rewrite mem_list_length, Z2Nat.id by lia. rewrite Hv. unfold IP_HDR_SIZE. lia.
    + rewrite mem_list_length. lia.
    + exists p. rewrite mem_list_length in Hp. rewrite mem_list_length, !Z2Nat.id by lia. split; [done|].
      apply (is_request_ext _ _ _ p (from m (h + 28))); [|done]. intros i Hi. fold size in Hi.
      assert (E' : rd (mem_list p 0 (Z.to_nat size)) i = rd (mem_list m2 (h + 28) (Z.to_nat size)) i) by by rewrite Hp.
      rewrite !rd_mem_list in E' by lia. unfold from. rewrite <- I by lia. exact E'.
  - destruct Hw as [W1 W2 W3 W4 W5 W6]. constructor; try done. apply U.
Qed.
End Sending.

Lemma copy_filename_length l : (length (copy_filename l 128) <= 127)%nat.
Proof.
  unfold copy_filename.
  assert (H : forall n l, (length ((fix loop (src : list Z) (n : nat) : list Z :=
    match n, src with S n, c :: src => if (c =? 34)%Z then [] else c :: loop src n | _, _ => [] end) l n) <= n)%nat).
  { induction n as [|n IH]; intros [|x k]; cbn; try lia. destruct (x =? 34); cbn; [lia|]. specialize (IH k). lia. }
  destruct (rd l 0 =? 34).
  - pose proof (H (Z.to_nat (128 - 1 - 1)) (tl l)). change (Z.to_nat (128 - 1 - 1)) with 126%nat in *. lia.
  - pose proof (H (Z.to_nat (128 - 1)) l). change (Z.to_nat (128 - 1)) with 127%nat in *. lia.
Qed.

Lemma copy_filename_bytes l : Forall is_byte l -> Forall is_byte (copy_filename l 128).
Proof.
  intros Hl. unfold copy_filename.
  assert (H : forall n l, Forall is_byte l -> Forall is_byte ((fix loop (src : list Z) (n : nat) : list Z :=
    match n, src with S n, c :: src => if c =? 34 then [] else c :: loop src n | _, _ => [] end) l n)).
  { induction n as [|n IH]; intros [|x k] Hk; try done. apply List.Forall_cons_iff in Hk as [Hx Hk]. destruct (x =? 34); [done|].
    apply List.Forall_cons; [done|]. by apply IH. }
  destruct (rd l 0 =? 34); apply H; [by destruct Hl|done].
Qed.

Lemma bytes_if (b : bool) (l : Data) : Forall is_byte l -> Forall is_byte (if b then l else []).
Proof. by destruct b. Qed.

Lemma request_list_bytes cfg : Forall is_byte (request_list cfg) /\ (length (request_list cfg) <= 9)%nat.
Proof.
  unfold request_list. split; [repeat (apply Forall_app_2; [apply bytes_if; by repeat constructor|]); apply bytes_if; by repeat constructor|].
  rewrite !length_app. repeat match goal with |- context [if ?b then _ else []] => generalize b; intros [] end; cbn; lia.
Qed.

Lemma DhcpExtended_bytes cfg hostname type server ip :
  is_byte type -> (forall s, hostname = Some s -> Forall is_byte s) -> Forall is_byte (DhcpExtended cfg hostname type server ip).
Proof.
  intros Ht Hs. unfold DhcpExtended. set (l1 := [99; 130; _; _; _; _; _; _; _; _; _]).
  assert (B1 : Forall is_byte l1).
  { unfold l1, OPT_SIZE. destruct (CONFIG_CMD_DHCP cfg); repeat (apply List.Forall_cons; [done|]); constructor. }
  clearbody l1. set (l2 := if server =? 0 then _ else _).
  assert (B2 : Forall is_byte l2). { unfold l2. destruct (_ =? _); [done|]. apply Forall_app_2; [done|]. repeat (apply List.Forall_cons; [done|]). apply bytes_of_ip. }
  clearbody l2. set (l3 := if ip =? 0 then _ else _).
  assert (B3 : Forall is_byte l3). { unfold l3. destruct (_ =? _); [done|]. apply Forall_app_2; [done|]. repeat (apply List.Forall_cons; [done|]). apply bytes_of_ip. }
  clearbody l3. set (l4 := match hostname with Some _ => _ | None => _ end).
  assert (B4 : Forall is_byte l4).
  { unfold l4. destruct hostname as [s|]; [|done]. destruct (CONFIG_BOOTP_SEND_HOSTNAME cfg); [|done]. apply Forall_app_2; [done|].
    apply List.Forall_cons; [done|]. apply List.Forall_cons; [apply is_byte_u8|by apply Hs]. }
  clearbody l4. set (items := request_list cfg).
  pose proof (request_list_bytes cfg) as Bi. fold items in Bi.
  clearbody items. destruct Bi as [Bi Bl].
  assert (Bn : forall k, Forall is_byte (repeat 0 k)) by (intros k; apply List.Forall_forall; intros y Hy; by apply repeat_spec in Hy as ->).
  apply Forall_app_2; [|apply Bn]. apply Forall_app_2; [done|]. apply List.Forall_cons; [done|]. apply List.Forall_cons; [unfold is_byte; lia|].
  apply Forall_app_2; [done|]. by repeat constructor.
Qed.

Lemma put_request_spec now n m a : bytes_of m -> address (NetOurEther (own n)) ->
  let m' := put_request now n m a in
  bytes_of m' /\ (forall b, b < a -> m' b = m b) /\ m' a = OP_BOOTREQUEST /\ m' (a + 1) = HWT_ETHER /\ m' (a + 2) = HWL_ETHER /\
  mem_list m' (a + bp_chaddr) 6 = NetOurEther (own n).
Proof.
  intros Hm [He Hb] m'. unfold m', put_request. set (m1 := m.[a <- _].[a + 1 <- _].[a + 2 <- _].[a + 3 <- 0]).
  assert (B1 : bytes_of m1) by by repeat apply bytes_of_upd.
  assert (O : forall b, ~ (a + 8 <= b < a + 10) -> ~ (a + 28 <= b < a + 34) ->
    store_list (put_net16 m1 (a + bp_secs) (u16 (now / 1000))) (a + bp_chaddr) (NetOurEther (own n)) b = m1 b).
  { intros b H1 H2. unfold bp_secs, bp_chaddr. rewrite store_list_out by lia. apply put_net16_out; lia. }
  split; [apply frame_store; [by apply bytes_of_put_net16|done]|]. split.
  - intros b Hlt. rewrite O by lia. unfold m1. rewrite !upd_ne by lia. done.
  - rewrite !O by lia. unfold m1. repeat first [rewrite upd_eq | rewrite upd_ne by lia].
    split; [done|]. split; [done|]. split; [done|]. rewrite <- He at 1. apply mem_list_store.
Qed.

(** A frame of which the part from [a] on is filled in. *)
Lemma request_filled now n m0 m a id ext :
  bytes_of m0 -> address (NetOurEther (own n)) ->
  (forall b, b < a -> m b = put_request now n m0 a b) ->
  (forall i, 0 <= i < 4 \/ 28 <= i < 34 -> m (a + i) = put_request now n m0 a (a + i)) ->
  NetReadIP m (a + bp_id) = id -> mem_list m (a + bp_vend) (length ext) = ext ->
  (forall b, b < a -> m b = m0 b) /\ is_request id (NetOurEther (own n)) ext (from m a).
Proof.
  intros Hm He Hlow Hin Hid Hext. destruct (put_request_spec now n m0 a Hm He) as (_ & P2 & P3 & P4 & P5 & P6).
  split; [intros b Hb; by rewrite Hlow, P2|]. unfold is_request. split; [|split; [|split; [|split; [|split]]]].
  - unfold from. rewrite Hin by lia. by rewrite Z.add_0_r.
  - unfold from. by rewrite Hin by lia.
  - unfold from. by rewrite Hin by lia.
  - rewrite <- Hid. apply NetReadIP_ext. intros i Hi. unfold from. f_equal. lia.
  - rewrite mem_list_from, <- P6. apply mem_list_ext. unfold bp_chaddr. intros i Hi. replace i with (a + (i - a)) by lia. apply Hin. lia.
  - by rewrite mem_list_from.
Qed.

(** What both requests leave as it is. *)
Record asked (be : bool) (cfg : config) (id : Z) (ext : Data) (c c' : client) : Prop := Asked {
  as_sent : exists f, sent (machine c') = sent (machine c) ++ [f] /\ heard (vlan_of (machine c)) id (NetOurEther (own (machine c))) ext f;
  as_own : own (machine c') = own (machine c); as_loop : loop (machine c') = loop (machine c);
  as_wf : well_formed (machine c'); as_conf : conf_of c' = conf_of c; as_file : BootFile c' = BootFile c;
  as_setenvs : setenvs c' = setenvs c }.

Lemma cleared_bytes m : bytes_of m -> bytes_of (cleared m).
Proof.
  intros H. unfold cleared. apply frame_store; [exact H|]. apply List.Forall_forall. intros y Hy. apply repeat_spec in Hy as ->. unfold is_byte. lia.
Qed.

Lemma BootpRequest_spec be cfg now hostname c :
  CONFIG_CMD_DHCP cfg = true -> well_formed (machine c) -> Forall is_byte (BootFile c) ->
  (forall s, hostname = Some s -> Forall is_byte s) ->
  let ext := DhcpExtended cfg hostname DHCP_DISCOVER 0 0 in
  Z.of_nat (length ext) <= 65000 ->
  let c' := BootpRequest be cfg now hostname c in
  asked be cfg (BootpID c') ext c c' /\ dhcp_state c' = SELECTING /\ packetHandler c' = DhcpHandler_ /\
  timeHandler c' = Some BootpTimeout_ /\ timeStart c' = now /\ timeDelta c' = SELECT_TIMEOUT /\ BootpTry c' = BootpTry c + 1.
Proof.
  intros Hd W Hfile Hhost ext Hext. unfold BootpRequest. rewrite Hd. fold ext. cbv zeta.
  change (machine (puts _ (set_try _ c))) with (machine c). change (BootFile (puts _ (set_try _ c))) with (BootFile c).
  set (n := machine c) in *. destruct (NetSetEther n (cleared (NetTxPacket n)) NetBcastAddr PROT_IP) as [m0 h] eqn:E.
  destruct (NetSetEther_spec n (wf_ether n W) _ _ _ _ _ E address_bcast ltac:(by unfold PROT_IP)) as (-> & E1 & E2 & _ & _ & E5).
  specialize (E5 (cleared_bytes _ (wf_tx n W))). set (h := hdr (vlan_of n)) in *. set (a := h + IP_HDR_SIZE).
  set (id := u32 _). assert (Hid : 0 <= id < 2 ^ 32) by apply u32_range.
  set (m1 := put_request now n m0 a). set (m2 := store_list m1 (a + bp_file) _). set (m3 := store_list m2 (a + bp_vend) ext).
  set (m4 := NetWriteIP m3 (a + bp_id) id). pose proof (copy_filename_length (BootFile c)) as Hl.
  destruct (put_request_spec now n m0 a E5 (wf_ether n W)) as (B1 & _). fold m1 in B1.
  assert (B4 : bytes_of m4).
  { apply frame_store; [|apply bytes_of_ip]. apply frame_store; [|apply DhcpExtended_bytes; [done|exact Hhost]].
    apply frame_store; [exact B1|]. apply Forall_app_2; [by apply copy_filename_bytes|by repeat constructor]. }
  assert (O : forall b, b < a + 4 \/ a + 8 <= b < a + 108 -> m4 b = m1 b).
  { intros b Hb. unfold m4, m3, m2, bp_id, bp_vend, bp_file. rewrite NetWriteIP_out by lia. rewrite !store_list_out by lia. done. }
  destruct (request_filled now n m0 m4 a id ext E5 (wf_ether n W)) as [Q1 Q2].
  - intros b Hb. apply O. lia.
  - intros i Hi. apply O. lia.
  - unfold m4. by apply NetReadIP_write.
  - unfold m4, bp_id, bp_vend. transitivity (mem_list m3 (a + 236) (length ext)).
    + apply mem_list_ext. intros i Hi. apply NetWriteIP_out. lia.
    + apply mem_list_store.
  - destruct (send_request_heard be n W m4 id (NetOurEther (own n)) ext) as (f & F1 & F2 & F3 & F4 & F5); try done.
    + revert E1. apply on_link_ext. fold h. intros i Hi. apply Q1. unfold a, IP_HDR_SIZE. lia.
    + rewrite <- E2. apply mem_list_ext. intros i Hi. pose proof (hdr_range (vlan_of n)). apply Q1. unfold a, h, IP_HDR_SIZE. lia.
    + split; [|done]. constructor; try done. by exists f.
Qed.

Lemma DhcpSendRequestPkt_spec be cfg now hostname p c :
  well_formed (machine c) -> bytes_of p -> (forall s, hostname = Some s -> Forall is_byte s) ->
  let ext := DhcpExtended cfg hostname DHCP_REQUEST (NetDHCPServerIP (conf_of c)) (NetReadIP p bp_yiaddr) in
  Z.of_nat (length ext) <= 65000 ->
  let c' := DhcpSendRequestPkt be cfg now hostname p c in
  asked be cfg (NetReadIP p bp_id) ext c c' /\ dhcp_state c' = dhcp_state c /\ packetHandler c' = packetHandler c /\
  timeHandler c' = timeHandler c /\ timeStart c' = timeStart c /\ timeDelta c' = timeDelta c /\ BootpTry c' = BootpTry c /\
  BootpID c' = BootpID c.
Proof.
  intros W Hp Hhost ext Hext. unfold DhcpSendRequestPkt. fold ext. set (n := machine c) in *.
  destruct (NetSetEther n (cleared (NetTxPacket n)) NetBcastAddr PROT_IP) as [m0 h] eqn:E.
  destruct (NetSetEther_spec n (wf_ether n W) _ _ _ _ _ E address_bcast ltac:(by unfold PROT_IP)) as (-> & E1 & E2 & _ & _ & E5).
  specialize (E5 (cleared_bytes _ (wf_tx n W))). set (h := hdr (vlan_of n)) in *. set (a := h + IP_HDR_SIZE).
  set (m1 := put_request now n m0 a). set (m2 := store_list m1 (a + bp_id) _). set (m3 := store_list m2 (a + bp_vend) ext).
  destruct (put_request_spec now n m0 a E5 (wf_ether n W)) as (B1 & _). fold m1 in B1.
  assert (B3 : bytes_of m3) 
    by (apply frame_store; [apply frame_store; [exact B1|by apply bytes_of_list]|apply DhcpExtended_bytes; [done|exact Hhost]]).
  assert (O : forall b, b < a + 4 \/ a + 8 <= b < a + 236 -> m3 b = m1 b).
  { intros b Hb. unfold m3, m2, bp_id, bp_vend. rewrite !store_list_out by (rewrite ?mem_list_length; lia). done. }
  destruct (request_filled now n m0 m3 a (NetReadIP p bp_id) ext E5 (wf_ether n W)) as [Q1 Q2].
  - intros b Hb. apply O. lia.
  - intros i Hi. apply O. lia.
  - apply NetReadIP_ext. intros i Hi. unfold m3, bp_vend, bp_id. rewrite store_list_out by lia. unfold m2, bp_id.
    rewrite store_list_in by (rewrite mem_list_length; lia). apply rd_mem_list. lia.
  - apply mem_list_store.
  - destruct (send_request_heard be n W m3 (NetReadIP p bp_id) (NetOurEther (own n)) ext) as (f & F1 & F2 & F3 & F4 & F5); try done.
    + revert E1. apply on_link_ext. fold h. intros i Hi. apply Q1. unfold a, IP_HDR_SIZE. lia.
    + rewrite <- E2. apply mem_list_ext. intros i Hi. pose proof (hdr_range (vlan_of n)). apply Q1. unfold a, h, IP_HDR_SIZE. lia.
    + split; [|done]. constructor; try done. by exists f.
Qed.

(** ** What options change *)

(** All but the mask, the gateway and the fields of [conf]. *)
Record options_keep (c c' : client) : Prop := Options_keep {
  ok_sent : sent (machine c') = sent (machine c); ok_ip : NetOurIP (own (machine c')) = NetOurIP (own (machine c));
  ok_server : NetServerIP (own (machine c')) = NetServerIP (own (machine c));
  ok_ether : NetOurEther (own (machine c')) = NetOurEther (own (machine c)); ok_vlan : vlan_of (machine c') = vlan_of (machine c);
  ok_wf : well_formed (machine c) -> well_formed (machine c'); ok_loop : loop (machine c') = loop (machine c);
  ok_file : BootFile c' = BootFile c; ok_state : dhcp_state c' = dhcp_state c; ok_id : BootpID c' = BootpID c;
  ok_handler : packetHandler c' = packetHandler c; ok_setenvs : setenvs c' = setenvs c }.

Lemma keep_refl c : options_keep c c.
Proof. by constructor. Qed.

Lemma keep_trans a b c : options_keep a b -> options_keep b c -> options_keep a c.
Proof.
  intros [A1 A2 A3 A4 A5 A6 A7 A8 A9 A10 A11 A12] [B1 B2 B3 B4 B5 B6 B7 B8 B9 B10 B11 B12].
  constructor; try congruence. auto.
Qed.

Lemma keep_conf f c : options_keep c (set_conf f c).
Proof. by constructor. Qed.

Lemma keep_puts x c : options_keep c (puts x c).
Proof. by constructor. Qed.

Lemma keep_mask ip c : options_keep c (on_own (set_mask ip) c).
Proof. constructor; try done. intros [W1 W2 W3 W4 W5 W6]. by constructor. Qed.

Lemma keep_gateway ip c : 0 <= ip < 2 ^ 32 -> options_keep c (on_own (set_gateway ip) c).
Proof. intros Hip. constructor; try done. intros [W1 W2 W3 W4 W5 W6]. by constructor. Qed.

Lemma NetReadIP_range p a : bytes_of p -> 0 <= NetReadIP p a < 2 ^ 32.
Proof.
  intros H. unfold NetReadIP. pose proof (H a). pose proof (H (a + 1)). pose proof (H (a + 2)). pose proof (H (a + 3)). unfold is_byte in *. lia.
Qed.

Lemma take_str_keep max p a size c : let '(c', s) := take_str max p a size c in
  options_keep c c' /\ (0 < max -> Z.of_nat (length s) < Z.max max 1) /\ (bytes_of p -> Forall is_byte s).
Proof.
  unfold take_str, truncate_sz. destruct (Z.leb_spec max size).
  - split; [apply keep_puts|]. split; [rewrite mem_list_length; lia|intros; by apply bytes_of_list].
  - split; [apply keep_refl|]. split; [rewrite mem_list_length; lia|intros; by apply bytes_of_list].
Qed.

Lemma process_option_keep cfg popt p c : bytes_of p ->
  let '(p', c') := process_option cfg popt p c in options_keep c c' /\ same_but_file p' p /\ bytes_of p'.
Proof.
  intros Hp. pose proof (NetReadIP_range p (popt + 2) Hp) as Hip. unfold process_option.
  assert (K : forall c', options_keep c c' -> options_keep c c' /\ same_but_file p p /\ bytes_of p) by done.
  destruct (_ =? 1); [apply K, keep_mask|]. destruct (_ && _); [apply K, keep_conf|].
  destruct (_ =? 3); [by apply K, keep_gateway|].
  destruct (_ =? 6); [apply K; destruct (_ && _); [eapply keep_trans; apply keep_conf|apply keep_conf]|].
  destruct (_ =? 12).
  { pose proof (take_str_keep 32 p (popt + 2) (p (popt + 1)) c) as H. destruct (take_str _ _ _ _ _) as [c' s].
    apply K. eapply keep_trans; [apply H|apply keep_conf]. }
  destruct (_ =? 15); [apply K, keep_refl|]. destruct (_ =? 17).
  { pose proof (take_str_keep 64 p (popt + 2) (p (popt + 1)) c) as H. destruct (take_str _ _ _ _ _) as [c' s].
    apply K. eapply keep_trans; [apply H|apply keep_conf]. }
  destruct (_ && _); [apply K, keep_conf|]. destruct (_ =? 51); [apply K, keep_conf|]. destruct (_ =? 53); [apply K, keep_refl|].
  destruct (_ =? 54); [apply K, keep_conf|]. destruct (_ || _); [apply K, keep_refl|].
  destruct (_ =? 67); [|apply K, keep_puts].
  pose proof (take_str_keep 128 p (popt + 2) (p (popt + 1)) c) as H. destruct (take_str _ _ _ _ _) as [c' s]. destruct H as (H1 & H2 & H3).
  destruct s as [|x s]; [by apply K|]. destruct (_ =? 0); [|by apply K]. specialize (H2 ltac:(lia)).
  split; [eapply keep_trans; [exact H1|apply keep_puts]|]. split.
  - intros y Hy. apply store_list_out. rewrite length_app. cbn [length] in *. lia.
  - apply frame_store; [done|]. apply Forall_app_2; [by apply H3|by repeat constructor].
Qed.

Lemma options_loop_keep cfg fuel : forall popt end_ p c, bytes_of p ->
  let '(p', c') := options_loop fuel cfg popt end_ p c in options_keep c c' /\ same_but_file p' p /\ bytes_of p'.
Proof.
  induction fuel as [|fuel IH]; intros popt end_ p c Hp; cbn [options_loop]; [split; [apply keep_refl|done]|].
  destruct (_ && _); [|split; [apply keep_refl|done]]. pose proof (process_option_keep cfg popt p c Hp) as H.
  destruct (process_option cfg popt p c) as [p1 c1]. destruct H as (H1 & H2 & H3).
  specialize (IH (popt + p (popt + 1) + 2) end_ p1 c1 H3). destruct (options_loop _ _ _ _ _ _) as [p2 c2]. destruct IH as (I1 & I2 & I3).
  split; [by eapply keep_trans|]. split; [|done]. intros x Hx. by rewrite I2, H2.
Qed.

(** The last option with a code counts, for what is a number. *)
Definition last_of (code : Z) (l : list (Z * Data)) (def : Z) : Z :=
  match find (fun '(c, _) => c =? code) (rev l) with Some (_, d) => word d 0 | None => def end.

Lemma last_of_fold cfg code (f : client -> Z) :
  (forall s d, f (snd (apply_option cfg s (code, d))) = word d 0) ->
  (forall s c d, c <> code -> f (snd (apply_option cfg s (c, d))) = f (snd s)) ->
  forall l s, f (snd (fold_left (apply_option cfg) l s)) = last_of code l (f (snd s)).
Proof.
  intros H1 H2 l. unfold last_of. induction l as [|[c d] l IH] using rev_ind; intros s; [done|].
  rewrite fold_left_app, rev_app_distr. cbn [fold_left rev app find]. destruct (Z.eqb_spec c code) as [->|Hne]; [apply H1|].
  rewrite H2 by done. apply IH.
Qed.

Lemma meaning_inv cfg code m : meaning_of cfg code = m ->
  m = Unknown \/ In (code, m) [(1, Mask); (3, Gateway); (6, Dns); (12, Host); (15, Ignored); (17, Root); (51, Lease); (53, Ignored);
    (54, Server); (58, Ignored); (59, Ignored); (66, Ignored); (67, File); (2, Offset); (42, Ntp)].
Proof.
  intros <-. unfold meaning_of. destruct (find _ _) as [[k v]|] eqn:E; [|by left]. right. apply find_some in E as [E1 E2].
  apply Z.eqb_eq in E2 as ->. apply in_app_or in E1 as [E1|E1]; [|apply in_app_or in E1 as [E1|E1]].
  - cbn in *. tauto.
  - destruct (_ && _); [|done]. cbn in *. tauto.
  - destruct (_ && _); [|done]. cbn in *. tauto.
Qed.

(** The effect of one option on a number that only [code] sets. *)
Ltac only_one :=
  intros [file c] k d Hk; unfold apply_option; destruct (meaning_of _ k) eqn:E; apply meaning_inv in E; try done;
  try (destruct (cut _ d c) eqn:Ec; unfold cut in Ec; destruct (_ <=? _)%nat; injection Ec as <- <-);
  try (destruct (_ && _)); try (destruct file; try done; match goal with |- context [match ?s with [] => _ | _ :: _ => _ end] => destruct s end);
  try done; exfalso; (destruct E as [E|E]; [done|]); cbn in E; repeat (destruct E as [E|E]; [by injection E as <-|]); done.

Lemma mask_last cfg l s : NetOurSubnetMask (own (machine (snd (fold_left (apply_option cfg) l s)))) =
  last_of 1 l (NetOurSubnetMask (own (machine (snd s)))).
Proof. apply (last_of_fold cfg 1 (fun c => NetOurSubnetMask (own (machine c)))); [by intros [? ?] ?|only_one]. Qed.

Lemma gateway_last cfg l s : NetOurGatewayIP (own (machine (snd (fold_left (apply_option cfg) l s)))) =
  last_of 3 l (NetOurGatewayIP (own (machine (snd s)))).
Proof. apply (last_of_fold cfg 3 (fun c => NetOurGatewayIP (own (machine c)))); [by intros [? ?] ?|only_one]. Qed.

Lemma dns_last cfg l s : NetOurDNSIP (conf_of (snd (fold_left (apply_option cfg) l s))) = last_of 6 l (NetOurDNSIP (conf_of (snd s))).
Proof.
  apply (last_of_fold cfg 6 (fun c => NetOurDNSIP (conf_of c))); [|only_one].
  intros [? ?] d. unfold apply_option. change (meaning_of cfg 6) with Dns. cbv iota. by destruct (_ && _).
Qed.

Lemma server_last cfg l s : NetDHCPServerIP (conf_of (snd (fold_left (apply_option cfg) l s))) =
  last_of 54 l (NetDHCPServerIP (conf_of (snd s))).
Proof. apply (last_of_fold cfg 54 (fun c => NetDHCPServerIP (conf_of c))); [by intros [? ?] ?|only_one]. Qed.

(** ** The exchange *)

Lemma configure_keep cfg id r p c : CONFIG_CMD_DHCP cfg = true -> is_reply id r p -> bytes_of p ->
  let '(p', c') := DhcpOptionsProcess cfg (bp_vend + 4) p c in
  (file_of p', c') = configure cfg r c /\ options_keep c c' /\ same_but_file p' p /\ bytes_of p'.
Proof.
  intros Hd Hr Hp. pose proof (options_process cfg id r p c Hd Hr) as H. unfold DhcpOptionsProcess in *.
  pose proof (options_loop_keep cfg (Z.to_nat (BOOTP_HDR_SIZE cfg)) (bp_vend + 4) (bp_vend + 4 + BOOTP_HDR_SIZE cfg) p c Hp) as K.
  destruct (options_loop _ _ _ _ _ _) as [p' c']. split; [apply H|done].
Qed.

(** The length of the hostname leaves room in the packet. *)
Definition short_name (hostname : option Data) : Prop := forall s, hostname = Some s -> Forall is_byte s /\ (length s <= 255)%nat.

Lemma DhcpExtended_length cfg hostname type server ip : short_name hostname ->
  Z.of_nat (length (DhcpExtended cfg hostname type server ip)) <= Z.max 292 (CONFIG_DHCP_MIN_EXT_LEN cfg + 1).
Proof.
  intros Hs. unfold DhcpExtended. set (l1 := [99; 130; _; _; _; _; _; _; _; _; _]). assert (L1 : length l1 = 11%nat) by done. clearbody l1.
  set (l2 := if server =? 0 then _ else _).
  assert (L2 : (length l2 <= 17)%nat). { unfold l2. destruct (_ =? _); [lia|]. rewrite length_app. cbn. lia. }
  clearbody l2. set (l3 := if ip =? 0 then _ else _).
  assert (L3 : (length l3 <= 23)%nat). { unfold l3. destruct (_ =? _); [lia|]. rewrite length_app. cbn. lia. }
  clearbody l3. set (l4 := match hostname with Some _ => _ | None => _ end).
  assert (L4 : (length l4 <= 280)%nat).
  { unfold l4. destruct hostname as [s|]; [|lia]. destruct (CONFIG_BOOTP_SEND_HOSTNAME cfg); [|lia]. rewrite length_app. cbn [length].
    destruct (Hs s eq_refl). lia. }
  clearbody l4. set (items := request_list cfg).
  pose proof (proj2 (request_list_bytes cfg)) as Li. fold items in Li.
  clearbody items. rewrite length_app, repeat_length. rewrite length_app. cbn [length]. rewrite length_app. cbn [length]. lia.
Qed.

(** An offer is answered. *)
Lemma offer_answered be cfg fuel now hostname autoload rx p len r c :
  CONFIG_CMD_DHCP cfg = true -> CONFIG_DHCP_MIN_EXT_LEN cfg <= 60000 -> dhcp_state c = SELECTING -> well_formed (machine c) -> short_name hostname ->
  is_reply (BootpID c) r p -> bytes_of p -> bp_vend <= len ->
  exists c', DhcpHandler be cfg fuel now hostname autoload rx p PORT_BOOTPC PORT_BOOTPS len c = Some c' /\
    options_keep (set_dhcp REQUESTING c) (snd (configure cfg r (set_dhcp REQUESTING c))) /\
    asked be cfg (BootpID c)
      (DhcpExtended cfg hostname DHCP_REQUEST (last_of 54 (r_opts r) (NetDHCPServerIP (conf_of c))) (r_yiaddr r))
      (snd (configure cfg r (set_dhcp REQUESTING c))) c' /\ dhcp_state c' = REQUESTING /\ BootpID c' = BootpID c.
Proof.
  intros Hd Hmin Hs W Hh Hr Hp Hlen. unfold DhcpHandler. rewrite (reply_checked _ _ _ _ Hr Hlen), Hs, (ir_magic _ _ _ Hr). cbn [Z.eqb negb].
  pose proof (configure_keep cfg _ r p (set_dhcp REQUESTING c) Hd Hr Hp) as H.
  destruct (DhcpOptionsProcess cfg _ p _) as [p' c1]. destruct H as (E & K & S & B). rewrite <- E. cbn [snd].
  eexists. split; [reflexivity|]. split; [done|].
  assert (Es : NetDHCPServerIP (conf_of c1) = last_of 54 (r_opts r) (NetDHCPServerIP (conf_of c))).
  { change c1 with (snd (file_of p', c1)). rewrite E. apply server_last. }
  assert (Ey : NetReadIP p' bp_yiaddr = r_yiaddr r).
  { rewrite <- (ir_yiaddr _ _ _ Hr). apply NetReadIP_ext. intros i Hi. apply S. unfold bp_yiaddr, bp_file. lia. }
  assert (Ei : NetReadIP p' bp_id = BootpID c).
  { rewrite <- (ir_id _ _ _ Hr). apply NetReadIP_ext. intros i Hi. apply S. unfold bp_id, bp_file. lia. }
  set (c2 := NetSetTimeout now TIMEOUT (Some BootpTimeout_) c1).
  pose proof (DhcpSendRequestPkt_spec be cfg now hostname p' c2) as Q. change (conf_of c2) with (conf_of c1) in Q. rewrite Es, Ey, Ei in Q.
  destruct Q as (Q1 & Q2 & _ & _ & _ & _ & _ & Q3).
  - apply (ok_wf _ _ K), W.
  - done.
  - intros s ->. by apply Hh.
  - pose proof (DhcpExtended_length cfg hostname DHCP_REQUEST (last_of 54 (r_opts r) (NetDHCPServerIP (conf_of c))) (r_yiaddr r) Hh). lia.
  - split; [|split].
    + destruct Q1 as [A1 A2 A3 A4 A5 A6 A7]. constructor; done.
    + rewrite Q2. apply (ok_state _ _ K).
    + rewrite Q3. apply (ok_id _ _ K).
Qed.

(** The boot file, when the message names one. *)
Lemma file_stays cfg l file c : file <> [] -> fst (fold_left (apply_option cfg) l (file, c)) = file.
Proof.
  intros Hf. revert c. induction l as [|[code d] l IH]; intros c; [done|]. cbn [fold_left].
  assert (H : exists c', apply_option cfg (file, c) (code, d) = (file, c')).
  { unfold apply_option. destruct (meaning_of cfg code); try destruct (cut _ d c); try (by eexists). destruct file; [done|]. by eexists. }
  destruct H as [c' ->]. apply IH.
Qed.

(** What a reply sets. *)
Lemma BootpCopyNetParams_spec rx p c : let c' := BootpCopyNetParams rx p c in
  own (machine c') = set_server_ether (mem_list rx 6 6)
    (let o := set_ip (NetReadIP p bp_yiaddr) (own (machine c)) in
     if NetReadIP p bp_siaddr =? 0 then o else set_server (NetReadIP p bp_siaddr) o) /\
  sent (machine c') = sent (machine c) /\ loop (machine c') = loop (machine c) /\ conf_of c' = conf_of c /\
  BootFile c' = (if p bp_file =? 0 then BootFile c else copy_filename (file_of p) 128) /\
  BootpID c' = BootpID c /\ timeHandler c' = timeHandler c.
Proof.
  assert (H : forall k, let k' := match BootFile k with [] => k | s => setenv_bootfile s k end in
    machine k' = machine k /\ conf_of k' = conf_of k /\ BootFile k' = BootFile k /\ BootpID k' = BootpID k /\ timeHandler k' = timeHandler k)
    by (intros k; destruct (BootFile k) eqn:E; cbn; by rewrite ?E).
  unfold BootpCopyNetParams. cbv zeta.
  match goal with |- context [match BootFile ?k with [] => _ | _ => _ end] => destruct (H k) as (-> & -> & -> & -> & ->) end.
  by destruct (_ =? 0), (_ =? 0).
Qed.

Lemma ack_taken be cfg fuel now hostname rx p len r c :
  CONFIG_CMD_DHCP cfg = true -> dhcp_state c = REQUESTING -> is_reply (BootpID c) r p -> bytes_of p -> bp_vend <= len ->
  message_type (r_opts r) = DHCP_ACK -> (length (r_opts r) < fuel)%nat -> r_file r <> [] ->
  exists c', DhcpHandler be cfg fuel now hostname None rx p PORT_BOOTPC PORT_BOOTPS len c = Some c' /\
    sent (machine c') = sent (machine c) /\ dhcp_state c' = BOUND /\ packetHandler c' = Tftp_started /\
    NetOurIP (own (machine c')) = r_yiaddr r /\
    NetOurSubnetMask (own (machine c')) = last_of 1 (r_opts r) (NetOurSubnetMask (own (machine c))) /\
    NetOurGatewayIP (own (machine c')) = last_of 3 (r_opts r) (NetOurGatewayIP (own (machine c))) /\
    NetOurDNSIP (conf_of c') = last_of 6 (r_opts r) (NetOurDNSIP (conf_of c)) /\
    NetServerIP (own (machine c')) = (if r_siaddr r =? 0 then NetServerIP (own (machine c)) else r_siaddr r) /\
    BootFile c' = copy_filename (r_file r) 128.
Proof.
  intros Hd Hs Hr Hp Hlen Ht Hf Hfile. unfold DhcpHandler.
  rewrite (reply_checked _ _ _ _ Hr Hlen), Hs, (ir_magic _ _ _ Hr). cbn [Z.eqb negb]. unfold DhcpMessageType. rewrite (ir_magic _ _ _ Hr).
  rewrite (type_loop_spec p (r_opts r) fuel (bp_vend + 4) (ir_good _ _ _ Hr) (ir_opts _ _ _ Hr) (ir_end _ _ _ Hr) Hf). cbn [mbind option_bind].
  rewrite Ht, Z.eqb_refl. pose proof (configure_keep cfg _ r p c Hd Hr Hp) as H.
  destruct (DhcpOptionsProcess cfg _ p c) as [p' c1]. destruct H as (E & K & S & B).
  assert (Ey : NetReadIP p' bp_yiaddr = r_yiaddr r).
  { rewrite <- (ir_yiaddr _ _ _ Hr). apply NetReadIP_ext. intros i Hi. apply S. unfold bp_yiaddr, bp_file. lia. }
  assert (Es : NetReadIP p' bp_siaddr = r_siaddr r).
  { rewrite <- (ir_siaddr _ _ _ Hr). apply NetReadIP_ext. intros i Hi. apply S. unfold bp_siaddr, bp_file. lia. }
  assert (Ef : file_of p' = r_file r).
  { change (file_of p') with (fst (file_of p', c1)). rewrite E. by apply file_stays. }
  assert (En : (p' bp_file =? 0) = false). { apply Z.eqb_neq. intros H. apply file_empty in H. by rewrite Ef in H. }
  assert (Ec : c1 = snd (configure cfg r c)) by by rewrite <- E.
  destruct (BootpCopyNetParams_spec rx p' c1) as (C1 & C2 & C3 & C4 & C5 & _ & _). rewrite Ey, Es in C1. rewrite En, Ef in C5.
  eexists. split; [reflexivity|]. cbn [autoload_boot NetSetHandler puts set_dhcp machine conf_of dhcp_state packetHandler BootFile].
  rewrite C1, C2, C4, C5, (ok_sent _ _ K). split_and!; try done.
  - by destruct (r_siaddr r =? 0).
  - transitivity (NetOurSubnetMask (own (machine c1))); [by destruct (r_siaddr r =? 0)|]. rewrite Ec. apply mask_last.
  - transitivity (NetOurGatewayIP (own (machine c1))); [by destruct (r_siaddr r =? 0)|]. rewrite Ec. apply gateway_last.
  - rewrite Ec. apply dns_last.
  - rewrite <- (ok_server _ _ K). by destruct (r_siaddr r =? 0).
Qed.

(** C15: Configuration by DHCP: a request is broadcast; an offer with its transaction is answered by a request for the address
    offered to the server that offered it; when this is acknowledged, the client has that address, the mask, gateway and
    name server of the options (the last of each, those of the offer where the acknowledgement has none), the server
    and the boot file, and starts to load it.  Both requests are heard by every machine on the VLAN. *)
Theorem dhcp_binds be cfg fuel now1 now2 now3 hostname autoload rx1 rx2 p1 p2 len1 len2 r1 r2 c :
  CONFIG_CMD_DHCP cfg = true -> CONFIG_DHCP_MIN_EXT_LEN cfg <= 60000 -> well_formed (machine c) -> Forall is_byte (BootFile c) ->
  short_name hostname ->
  let c1 := BootpRequest be cfg now1 hostname c in
  is_reply (BootpID c1) r1 p1 -> bytes_of p1 -> bp_vend <= len1 -> is_reply (BootpID c1) r2 p2 -> bytes_of p2 -> bp_vend <= len2 ->
  message_type (r_opts r2) = DHCP_ACK -> (length (r_opts r2) < fuel)%nat -> r_file r2 <> [] ->
  exists c2 c3 f1 f2, let opts := r_opts r1 ++ r_opts r2 in
    DhcpHandler be cfg fuel now2 hostname autoload rx1 p1 PORT_BOOTPC PORT_BOOTPS len1 c1 = Some c2 /\
    DhcpHandler be cfg fuel now3 hostname None rx2 p2 PORT_BOOTPC PORT_BOOTPS len2 c2 = Some c3 /\
    sent (machine c3) = sent (machine c) ++ [f1; f2] /\
    heard (vlan_of (machine c)) (BootpID c1) (NetOurEther (own (machine c))) (DhcpExtended cfg hostname DHCP_DISCOVER 0 0) f1 /\
    heard (vlan_of (machine c)) (BootpID c1) (NetOurEther (own (machine c)))
      (DhcpExtended cfg hostname DHCP_REQUEST (last_of 54 (r_opts r1) (NetDHCPServerIP (conf_of c))) (r_yiaddr r1)) f2 /\
    dhcp_state c3 = BOUND /\ packetHandler c3 = Tftp_started /\ NetOurIP (own (machine c3)) = r_yiaddr r2 /\
    NetOurSubnetMask (own (machine c3)) = last_of 1 opts (NetOurSubnetMask (own (machine c))) /\
    NetOurGatewayIP (own (machine c3)) = last_of 3 opts (NetOurGatewayIP (own (machine c))) /\
    NetOurDNSIP (conf_of c3) = last_of 6 opts (NetOurDNSIP (conf_of c)) /\
    NetServerIP (own (machine c3)) = (if r_siaddr r2 =? 0 then NetServerIP (own (machine c)) else r_siaddr r2) /\
    BootFile c3 = copy_filename (r_file r2) 128.
Proof.
  intros Hd Hmin W Hb Hh c1 R1 B1 L1 R2 B2 L2 Ht Hf Hfile.
  assert (Hh' : forall s, hostname = Some s -> Forall is_byte s) by (intros s E; by apply Hh).
  destruct (BootpRequest_spec be cfg now1 hostname c Hd W Hb Hh') as ([(f1 & S1 & F1) O1 P1 W1 K1 N1 _] & T1 & _).
  { pose proof (DhcpExtended_length cfg hostname DHCP_DISCOVER 0 0 Hh). lia. }
  fold c1 in S1, F1, O1, P1, W1, K1, N1, T1.
  destruct (offer_answered be cfg fuel now2 hostname autoload rx1 p1 len1 r1 c1 Hd Hmin T1 W1 Hh R1 B1 L1)
    as (c2 & E2 & K & [(f2 & S2 & F2) O2 P2 W2 K2 N2 _] & T2 & I2).
  rewrite <- I2 in R2.
  destruct (ack_taken be cfg fuel now3 hostname rx2 p2 len2 r2 c2 Hd T2 R2 B2 L2 Ht Hf Hfile)
    as (c3 & E3 & A1 & A2 & A3 & A4 & A5 & A6 & A7 & A8 & A9).
  assert (Hlast : forall code l k def, last_of code k (last_of code l def) = last_of code (l ++ k) def).
  { intros code l k def. unfold last_of. rewrite rev_app_distr. induction (rev k) as [|[x d] m IH]; [done|]. cbn [app find].
    by destruct (x =? code). }
  rewrite O2 in A5, A6, A8. rewrite K2 in A7. unfold configure in A5, A6, A7. rewrite mask_last in A5. rewrite gateway_last in A6. rewrite dns_last in A7.
  cbn [snd set_dhcp machine conf_of] in A5, A6, A7. rewrite O1, Hlast in A5, A6. rewrite K1, Hlast in A7.
  pose proof (ok_server _ _ K) as Hsv. cbn [set_dhcp machine] in Hsv. rewrite Hsv, O1 in A8.
  exists c2, c3, f1, f2. split; [done|]. split; [done|]. split.
  { rewrite A1, S2, (ok_sent _ _ K). cbn [set_dhcp machine]. rewrite S1. by rewrite <- app_assoc. }
  assert (Hv : vlan_of (machine (snd (configure cfg r1 (set_dhcp REQUESTING c1)))) = vlan_of (machine c)).
  { rewrite (ok_vlan _ _ K). unfold vlan_of. cbn [set_dhcp machine]. by rewrite O1. }
  assert (He : NetOurEther (own (machine (snd (configure cfg r1 (set_dhcp REQUESTING c1))))) = NetOurEther (own (machine c))).
  { rewrite (ok_ether _ _ K). cbn [set_dhcp machine]. by rewrite O1. }
  rewrite Hv, He, K1 in F2. split; [done|]. split; [done|]. split_and!; try done.
Qed.

(** ** The vendor area of a request *)

Definition request_options (cfg : config) (hostname : option Data) (type server ip : Z) : list (Z * Data) :=
  [(53, [type]); (57, [2; 64])] ++ (if server =? 0 then [] else [(54, ip_bytes server)]) ++
  (if ip =? 0 then [] else [(50, ip_bytes ip)]) ++
  match hostname with Some s => if CONFIG_BOOTP_SEND_HOSTNAME cfg then [(12, s)] else [] | None => [] end ++ [(55, request_list cfg)].

Lemma encode_app l k : encode (l ++ k) = encode l ++ encode k.
Proof. unfold encode. by rewrite map_app, concat_app. Qed.

Lemma DhcpExtended_encode cfg hostname type server ip : CONFIG_CMD_DHCP cfg = true -> short_name hostname ->
  let l := [99; 130; 83; 99] ++ encode (request_options cfg hostname type server ip) ++ [255] in
  DhcpExtended cfg hostname type server ip = l ++ repeat 0 (Z.to_nat (CONFIG_DHCP_MIN_EXT_LEN cfg + 1 - Z.of_nat (length l))).
Proof.
  intros Hd Hs. unfold DhcpExtended. cbv zeta. match goal with |- ?k ++ _ = ?l ++ _ => enough (E : k = l) by by rewrite E end.
  unfold request_options, OPT_SIZE. rewrite Hd, !encode_app.
  assert (Hh : forall k : Data, match hostname with Some s => if CONFIG_BOOTP_SEND_HOSTNAME cfg then k ++ 12 :: u8 (Z.of_nat (length s)) :: s else k | None => k end =
    k ++ encode (match hostname with Some s => if CONFIG_BOOTP_SEND_HOSTNAME cfg then [(12, s)] else [] | None => [] end)).
  { intros k. destruct hostname as [s|]; [|by rewrite app_nil_r]. destruct (CONFIG_BOOTP_SEND_HOSTNAME cfg); [|by rewrite app_nil_r].
    destruct (Hs s eq_refl) as [_ Hl]. rewrite encode_cons, (u8_small (Z.of_nat (length s))) by lia. cbn [encode map concat]. by rewrite app_nil_r. }
  rewrite Hh. set (hn := encode (match hostname with Some _ => _ | None => _ end)). clearbody hn.
  destruct (server =? 0), (ip =? 0); cbn [encode map concat length app]; rewrite ?app_nil_r; rewrite <- ?app_assoc; cbn [app]; rewrite <- ?app_assoc; reflexivity.
Qed.

Lemma request_good cfg hostname type server ip : short_name hostname -> is_byte type ->
  Forall good_option (request_options cfg hostname type server ip).
Proof.
  intros Hs Ht. unfold request_options. destruct (request_list_bytes cfg) as [Rb Rl].
  assert (One : forall c d, words_in c = 0%nat -> c <> 6 -> 0 < c < 255 -> (length d <= 255)%nat -> Forall is_byte d -> good_option (c, d)).
  { intros c d H1 H2 H3 H4 H5. unfold good_option. rewrite H1. split; [done|]. split; [lia|]. split; [done|]. right. by left. }
  assert (Ip : forall x c, c = 50 \/ c = 54 -> good_option (c, ip_bytes x)).
  { intros x c Hc. assert (W : (words_in c <= 4)%nat) by (destruct Hc as [-> | ->]; vm_compute; lia).
    split; [lia|]. split; [cbn [length ip_bytes]; lia|]. split; [apply bytes_of_ip|left; cbn; lia]. }
  repeat apply Forall_app_2.
  - apply List.Forall_cons; [|apply List.Forall_cons; [|done]].
    + split; [lia|]. change (words_in 53) with 1%nat. split; [cbn; lia|]. split; [apply List.Forall_cons; [exact Ht|apply List.Forall_nil]|left; cbn; lia].
    + apply One; try done; [cbn; lia|by repeat constructor].
  - destruct (server =? 0); [done|]. apply List.Forall_cons; [|done]. apply Ip. by right.
  - destruct (ip =? 0); [done|]. apply List.Forall_cons; [|done]. apply Ip. by left.
  - destruct hostname as [s|]; [|done]. destruct (CONFIG_BOOTP_SEND_HOSTNAME cfg); [|done]. destruct (Hs s eq_refl).
    apply List.Forall_cons; [|done]. by apply One.
  - apply List.Forall_cons; [|done]. apply One; try done. lia.
Qed.

(** C28: The vendor area of a DHCP request: the magic number; the message type, the size of messages accepted, the server and
    the address, if any, the host name, if it is to be sent, and the list of parameters, as options of which each is
    well-formed; the end.  The file's own parser finds the type in it.  If the host name is not longer than an
    option may be, the area is within [bp_vend], unless the configuration calls for more. *)
Theorem request_area cfg hostname type server ip p fuel :
  CONFIG_CMD_DHCP cfg = true -> short_name hostname -> is_byte type ->
  let ext := DhcpExtended cfg hostname type server ip in let opts := request_options cfg hostname type server ip in
  mem_list p bp_vend (length ext) = ext -> (length opts < fuel)%nat ->
  (exists pad, ext = [99; 130; 83; 99] ++ encode opts ++ 255 :: repeat 0 pad) /\ Forall good_option opts /\
  magic p = true /\ DhcpMessageType fuel p = Some type /\ CONFIG_DHCP_MIN_EXT_LEN cfg < Z.of_nat (length ext) /\
  (CONFIG_DHCP_MIN_EXT_LEN cfg < OPT_SIZE cfg -> Z.of_nat (length ext) <= OPT_SIZE cfg).
Proof.
  intros Hd Hs Ht ext opts Hp Hf. pose proof (DhcpExtended_encode cfg hostname type server ip Hd Hs) as E. fold ext opts in E. cbv zeta in E.
  pose proof (DhcpExtended_length cfg hostname type server ip Hs) as L. fold ext in L.
  pose proof (request_good cfg hostname type server ip Hs Ht : Forall good_option opts) as G.
  assert (E' : exists pad, ext = [99; 130; 83; 99] ++ encode opts ++ 255 :: repeat 0 pad).
  { rewrite E. eexists. rewrite <- !app_assoc. reflexivity. }
  destruct E' as [pad E']. split; [by exists pad|]. split; [done|].
  assert (Hi : forall i, 0 <= i < Z.of_nat (length ext) -> p (bp_vend + i) = rd ext i) by (intros i Hi; by apply mem_list_rd).
  assert (Hn : length ext = (4 + (length (encode opts) + S pad))%nat).
  { rewrite E', !length_app. cbn [length]. by rewrite repeat_length. }
  assert (Hm : magic p = true).
  { unfold magic, NetReadIP. rewrite <- (Z.add_0_r bp_vend) at 1. rewrite !Hi by lia. by rewrite E'. }
  split; [done|]. rewrite Hn, mem_list_app, E' in Hp. apply app_inj_1 in Hp as [_ Hp]; [|by rewrite mem_list_length].
  rewrite mem_list_app in Hp. apply app_inj_1 in Hp as [Hp Hq]; [|by rewrite mem_list_length]. cbn [mem_list] in Hq. injection Hq as Hq _. split.
  - unfold DhcpMessageType. rewrite Hm. by rewrite (type_loop_spec p opts).
  - unfold OPT_SIZE. rewrite Hd. split; [|lia]. rewrite E, length_app, repeat_length. lia.
Qed.

(** ** Runs *)

(** What happens to a client: a datagram for the handler of packets, or time being up. *)
Inductive event : Type := Datagram (now : Z) (rx p : mem) (dest src len : Z) | Time_up (now : Z).

Section Runs.
Context (be : bool) (cfg : config) (fuel : nat) (hostname autoload nretry : option Data) (Hdhcp : CONFIG_CMD_DHCP cfg = true).

(** The loop of Net calls the handlers while [NetState] tells it to; a protocol to which the client has handed over is not here. *)
Definition waits (c : client) : bool :=
  (NetState (loop (machine c)) =? NETLOOP_CONTINUE) && match packetHandler c with DhcpHandler_ => true | _ => false end.

Definition happens (c : client) (e : event) : option client :=
  if waits c then
    match e with
    | Datagram now rx p dest src len => DhcpHandler be cfg fuel now hostname autoload rx p dest src len c
    | Time_up now =>
      match timeHandler c with
      | Some BootpTimeout_ => Some (BootpTimeout be cfg now hostname nretry (NetSetTimeout 0 0 None c))
      | _ => Some c
      end
    end
  else Some c.

Fixpoint run (l : list event) (c : client) : option client :=
  match l with
  | [] => Some c
  | e :: l => c' ← happens c e; run l c'
  end.

Lemma run_snoc l e c : run (l ++ [e]) c = c' ← run l c; happens c' e.
Proof.
  revert c. induction l as [|x l IH]; intros c; cbn [app run mbind option_bind].
  - by destruct (happens c e).
  - destruct (happens c x) as [c'|]; [apply IH|done].
Qed.

Definition ip_of (c : client) : Z := NetOurIP (own (machine c)).
Definition event_bytes (e : event) : Prop := match e with Datagram _ _ p _ _ _ => bytes_of p | Time_up _ => True end.

(** A message for transaction [id], and one that acknowledges address [ip]. *)
Definition checked (id : Z) (e : event) : Prop :=
  match e with Datagram _ _ p dest src len => BootpCheckPkt id p dest src len = 0 | Time_up _ => False end.
Definition acknowledges (ip : Z) (e : event) : Prop :=
  match e with Datagram _ _ p _ _ _ => DhcpMessageType fuel p = Some DHCP_ACK /\ NetReadIP p bp_yiaddr = ip | Time_up _ => False end.

(** A message for transaction [id] came while the client was selecting. *)
Definition selected (start : client) (l : list event) (id : Z) : Prop :=
  exists l1 e l2 k, l = l1 ++ e :: l2 /\ run l1 start = Some k /\ dhcp_state k = SELECTING /\ BootpID k = id /\ checked id e.
Definition unbound (start : client) (ip : Z) (l : list event) (c : client) : Prop :=
  ip_of c = ip /\ (dhcp_state c = SELECTING \/ dhcp_state c = REQUESTING /\ selected start l (BootpID c)).
Definition bound (start : client) (l : list event) (c : client) : Prop :=
  dhcp_state c = BOUND /\ waits c = false /\
  exists l1 e l2 k, l = l1 ++ e :: l2 /\ run l1 start = Some k /\ selected start l1 (BootpID k) /\ checked (BootpID k) e /\
    acknowledges (ip_of c) e.

Lemma selected_later start l id e : selected start l id -> selected start (l ++ [e]) id.
Proof. intros (l1 & x & l2 & k & -> & H). exists l1, x, (l2 ++ [e]), k. split; [by rewrite <- app_assoc|done]. Qed.

Lemma unbound_later start ip l c c' e : ip_of c' = ip_of c -> dhcp_state c' = dhcp_state c -> BootpID c' = BootpID c ->
  unbound start ip l c -> unbound start ip (l ++ [e]) c'.
Proof. unfold unbound. intros -> -> -> [H [S|[S Q]]]; (split; [done|]); [by left|right; split; [done|by apply selected_later]]. Qed.

Lemma request_unbound start now l c : unbound start (ip_of c) l (BootpRequest be cfg now hostname c).
Proof using Hdhcp.
  unfold unbound, ip_of, BootpRequest. rewrite Hdhcp. destruct (NetSetEther _ _ _ _) as [m a]. split; [done|by left].
Qed.

Lemma timeout_unbound start now ip l c : unbound start ip l c ->
  unbound start ip (l ++ [Time_up now]) (BootpTimeout be cfg now hostname nretry (NetSetTimeout 0 0 None c)).
Proof using Hdhcp.
  intros U. unfold BootpTimeout. destruct (_ <=? _).
  - unfold StartAgain. set (n := NetStartAgain _ _ _). assert (Hn : NetOurIP (own n) = ip_of c).
    { unfold n, NetStartAgain. destruct (match nretry with Some _ => _ | None => _ end) as [f r]. by destruct (_ && _). }
    destruct (_ =? _); by apply (unbound_later start ip l c).
  - rewrite <- (proj1 U).
    apply (request_unbound start now _ (NetSetTimeout now TIMEOUT (Some BootpTimeout_) (NetSetTimeout 0 0 None c))).
Qed.

Lemma options_keep_ip p c : bytes_of p ->
  let '(p', c') := if magic p then DhcpOptionsProcess cfg (bp_vend + 4) p c else (p, c) in options_keep c c' /\ same_but_file p' p.
Proof.
  intros Hp. destruct (magic p); [|by split; [apply keep_refl|]].
  pose proof (options_loop_keep cfg (Z.to_nat (BOOTP_HDR_SIZE cfg)) (bp_vend + 4) (bp_vend + 4 + BOOTP_HDR_SIZE cfg) p c Hp) as H.
  unfold DhcpOptionsProcess. destruct (options_loop _ _ _ _ _ _) as [p' c']. by destruct H as (? & ? & _).
Qed.

Lemma boots_ended c : waits (autoload_boot cfg autoload c) = false /\ dhcp_state (autoload_boot cfg autoload c) = dhcp_state c /\
  ip_of (autoload_boot cfg autoload c) = ip_of c.
Proof.
  unfold autoload_boot. destruct autoload as [s|]; [destruct (_ =? 110); [|destruct (_ && _)]|];
    (split; [unfold waits; cbn; try apply andb_false_r; done|done]).
Qed.

Lemma datagram_step start ip l c now rx p dest src len c' : let e := Datagram now rx p dest src len in
  bytes_of p -> run l start = Some c -> unbound start ip l c ->
  DhcpHandler be cfg fuel now hostname autoload rx p dest src len c = Some c' ->
  unbound start ip (l ++ [e]) c' \/ bound start (l ++ [e]) c'.
Proof.
  intros e Hp Hrun U. unfold DhcpHandler. destruct (Z.eqb_spec (BootpCheckPkt (BootpID c) p dest src len) 0) as [Hc|Hc]; cbn [negb].
  2: { intros [= <-]. left. by apply (unbound_later start ip l c). }
  pose proof U as [Hip [Hs|[Hs Hsel]]]; rewrite Hs.
  - pose proof (options_keep_ip p (set_dhcp REQUESTING c) Hp) as K.
    destruct (if magic p then _ else _) as [p' c1]. destruct K as [K _]. intros [= <-]. left. unfold unbound, ip_of, DhcpSendRequestPkt.
    destruct (NetSetEther _ _ _ _) as [m a]. split; [etransitivity; [apply (ok_ip _ _ K)|done]|]. right.
    split; [apply (ok_state _ _ K)|]. pose proof (ok_id _ _ K : BootpID c1 = BootpID c) as Hid.
    change (selected start (l ++ [e]) (BootpID c1)). rewrite Hid. exists l, e, [], c. done.
  - destruct (DhcpMessageType fuel p) as [t|] eqn:Et; [|done]. cbn [mbind option_bind].
    destruct (Z.eqb_spec t DHCP_ACK) as [->|Ht].
    + pose proof (options_keep_ip p c Hp) as K. destruct (if magic p then _ else _) as [p' c1]. destruct K as [K S]. intros [= <-]. right.
      match goal with |- bound _ _ (autoload_boot _ _ ?k) => destruct (boots_ended k) as (B1 & B2 & B3) end.
      split; [by rewrite B2|]. split; [exact B1|]. rewrite B3. exists l, e, [], c. do 4 (split; [done|]). split; [done|].
      destruct (BootpCopyNetParams_spec rx p' c1) as (C1 & _). unfold ip_of. cbn [puts set_dhcp machine]. rewrite C1.
      transitivity (NetReadIP p' bp_yiaddr); [|by destruct (NetReadIP p' bp_siaddr =? 0)].
      symmetry. apply NetReadIP_ext. intros i Hi. apply S. unfold bp_yiaddr, bp_file. lia.
    + intros [= <-]. left. by apply (unbound_later start ip l c).
Qed.

(** C16: A client that has sent its first request, whatever happens to it - any datagrams, in any order, and time-outs -
    keeps its address and is not bound; or it has been bound by two messages, both from the server's port to the
    client's and both for the transaction which was the current one: one that came while it was selecting, and a later
    one that acknowledges.  Then it has the address that the latter gives, and waits for nothing any more. *)
Theorem bound_by_ack now l c c' : let start := BootpRequest be cfg now hostname c in
  Forall event_bytes l -> run l start = Some c' -> unbound start (ip_of c) l c' \/ bound start l c'.
Proof using Hdhcp.
  intros start. revert c'. induction l as [|e l IH] using rev_ind; intros c' Hb Hr.
  - injection Hr as <-. left. apply request_unbound.
  - apply Forall_app in Hb as [Hb He]. apply List.Forall_cons_iff in He as [He _]. rewrite run_snoc in Hr.
    destruct (run l start) as [k|] eqn:E; [|done]. cbn [mbind option_bind] in Hr. specialize (IH k Hb eq_refl). unfold happens in Hr.
    destruct IH as [U|(B1 & B2 & l1 & x & l2 & q & -> & B)].
    + destruct (waits k) eqn:W.
      * destruct e as [n rx p dest src len|n]; [by apply (datagram_step start _ l k n rx p dest src len)|].
        destruct (timeHandler k) as [[]|]; injection Hr as <-; left; [by apply timeout_unbound|by apply (unbound_later start _ l k)..].
      * injection Hr as <-. left. by apply (unbound_later start _ l k).
    + rewrite B2 in Hr. injection Hr as <-. right. split; [done|]. split; [done|].
      exists l1, x, (l2 ++ [e]), q. split; [by rewrite <- app_assoc|done].
Qed.
End Runs.

(** ** BOOTP *)

(** What a handler reads of an option is within the option. *)
Lemma field_ext cfg p a q b o c : good_option o -> option_at p a o -> option_at q b o ->
  BootpVendorFieldProcess cfg p a c = BootpVendorFieldProcess cfg q b c.
Proof.
  destruct o as [code d]. intros G P Q. pose proof P as (P1 & P2 & P3). pose proof Q as (Q1 & Q2 & Q3). cbn [fst snd] in *.
  assert (W : forall i, 0 <= i -> i + 4 <= Z.of_nat (length d) -> NetReadIP p (a + 2 + i) = NetReadIP q (b + 2 + i)).
  { intros i Hi Hl. by rewrite (option_word p a code d i P), (option_word q b code d i Q). }
  assert (W0 : In code [1; 2; 3; 6; 42; 51; 54] \/ (4 <= length d)%nat -> NetReadIP p (a + 2) = NetReadIP q (b + 2)).
  { intros Hc. rewrite <- (Z.add_0_r (a + 2)), <- (Z.add_0_r (b + 2)). apply W; [done|].
    destruct Hc as [Hc|Hc]; [pose proof (needs_words _ _ G Hc)|]; lia. }
  assert (T : forall max k, (0 < max)%nat -> take_str (Z.of_nat max) p (a + 2) (Z.of_nat (length d)) k = take_str (Z.of_nat max) q (b + 2) (Z.of_nat (length d)) k).
  { intros max k Hm. by rewrite !take_str_spec. }
  unfold BootpVendorFieldProcess. rewrite P1, Q1, P2, Q2. set (k := set_conf _ c).
  destruct (Z.eqb_spec code 1) as [->|]; [rewrite W0 by (cbn; tauto); done|].
  destruct (Z.eqb_spec code 3) as [->|]; [rewrite W0 by (cbn; tauto); done|].
  destruct (Z.eqb_spec code 6) as [->|].
  { rewrite W0 by (cbn; tauto). destruct (Z.ltb_spec 4 (Z.of_nat (length d))) as [H|]; [|by rewrite !andb_false_r].
    replace (a + 6) with (a + 2 + 4) by lia. replace (b + 6) with (b + 2 + 4) by lia. rewrite W; [done|done|].
    destruct G as (_ & _ & _ & [G|[G|G]]); [lia|done|lia]. }
  destruct (Z.eqb_spec code 12); [change 32 with (Z.of_nat 32); by rewrite T by lia|].
  destruct (Z.eqb_spec code 13).
  { destruct (Z.eqb_spec (Z.of_nat (length d)) 2) as [H|].
    - assert (R : forall i, 0 <= i < 2 -> p (a + 2 + i) = q (b + 2 + i)).
      { intros i Hi. by rewrite (mem_list_rd p (a + 2) d i P3), (mem_list_rd q (b + 2) d i Q3) by lia. }
      pose proof (R 0 ltac:(lia)) as R0. pose proof (R 1 ltac:(lia)) as R1. rewrite !Z.add_0_r in R0. unfold net16, get16. by rewrite R0, R1.
    - destruct (Z.eqb_spec (Z.of_nat (length d)) 4) as [H|]; [|done]. rewrite W0 by (right; lia). done. }
  destruct (Z.eqb_spec code 17); [change 64 with (Z.of_nat 64); by rewrite T by lia|].
  destruct (Z.eqb_spec code 40); [change 32 with (Z.of_nat 32); by rewrite T by lia|]. done.
Qed.

(** Options with padding before each. *)
Definition padded (l : list (nat * (Z * Data))) : Data := concat (map (fun '(n, o) => repeat 0 n ++ encode [o]) l).

(** One option by itself. *)
Definition field (cfg : config) (c : client) (o : Z * Data) : client :=
  BootpVendorFieldProcess cfg (rd (fst o :: Z.of_nat (length (snd o)) :: snd o)) 0 c.

Lemma field_at cfg p a o c : good_option o -> option_at p a o -> BootpVendorFieldProcess cfg p a c = field cfg c o.
Proof.
  intros G P. apply (field_ext cfg p a _ 0 o c G P). unfold option_at. split; [done|]. split; [done|].
  apply mem_list_eq. intros j Hj. unfold rd. by replace (Z.to_nat (0 + 2 + j)) with (S (S (Z.to_nat j))) by lia.
Qed.

Lemma vendor_pads cfg n : forall fuel p a end_ c, mem_list p a n = repeat 0 n -> a + Z.of_nat n <= end_ ->
  vendor_loop (n + fuel) cfg p a end_ c = vendor_loop fuel cfg p (a + Z.of_nat n) end_ c.
Proof.
  induction n as [|n IH]; intros fuel p a end_ c H He; [by rewrite Z.add_0_r|]. cbn [mem_list repeat] in H. injection H as H1 H2.
  cbn [Nat.add vendor_loop]. rewrite H1, (proj2 (Z.ltb_lt a end_)) by lia. cbn [andb negb Z.eqb]. rewrite IH by (done || lia). f_equal. lia.
Qed.

Lemma vendor_loop_spec cfg l : forall fuel p a end_ c,
  Forall (fun x => good_option (snd x)) l -> mem_list p a (length (padded l)) = padded l -> p (a + Z.of_nat (length (padded l))) = 255 ->
  a + Z.of_nat (length (padded l)) < end_ -> (length (padded l) < fuel)%nat ->
  vendor_loop fuel cfg p a end_ c = fold_left (field cfg) (map snd l) c.
Proof.
  induction l as [|[n [code d]] l IH]; intros fuel p a end_ c Hg Hl Hend He Hf.
  - destruct fuel as [|fuel]; [cbn in Hf; lia|]. cbn in Hend. rewrite Z.add_0_r in Hend. cbn [vendor_loop]. by rewrite Hend, andb_false_r.
  - apply List.Forall_cons_iff in Hg as [G Hg]. cbn [snd] in G.
    assert (Ep : padded ((n, (code, d)) :: l) = repeat 0 n ++ (code :: Z.of_nat (length d) :: d) ++ padded l).
    { unfold padded. cbn [map concat]. rewrite encode_cons. cbn [encode map concat]. by rewrite app_nil_r, <- app_assoc. }
    rewrite Ep in Hl, Hend, He, Hf. rewrite !length_app, repeat_length in Hl, Hend, He, Hf. cbn [length] in Hl, Hend, He, Hf.
    rewrite mem_list_app in Hl. apply app_inj_1 in Hl as [H1 Hl]; [|by rewrite mem_list_length, repeat_length].
    change (S (S (length d))) with (length (code :: Z.of_nat (length d) :: d)) in Hl. rewrite mem_list_app in Hl.
    apply app_inj_1 in Hl as [H2 Hl]; [|apply mem_list_length]. cbn [length] in Hl.
    replace fuel with (n + S (fuel - S n))%nat by lia. rewrite vendor_pads by (done || lia). cbn [vendor_loop].
    assert (At : option_at p (a + Z.of_nat n) (code, d)).
    { cbn [length mem_list] in H2. injection H2 as H2 H3 H4. split; [done|]. split; [done|]. etransitivity; [|exact H4]. cbn [snd]. f_equal. lia. }
    pose proof At as (A1 & A2 & _). cbn [fst snd] in A1, A2. pose proof (proj1 G) as Hc. rewrite A1, A2.
    rewrite (proj2 (Z.ltb_lt _ _)), (proj2 (Z.eqb_neq code 255)), (proj2 (Z.eqb_neq code 0)) by lia. cbn [andb negb].
    rewrite (proj2 (Z.leb_le _ _)) by lia. rewrite (field_at cfg p _ (code, d) c G At). cbn [map snd fold_left].
    apply IH; [done| | |lia|lia].
    + rewrite <- Hl at 2. f_equal. lia.
    + rewrite <- Hend. f_equal. lia.
Qed.

(** An option counts while the number it sets is zero. *)
Definition first_nonzero (code : Z) (l : list (Z * Data)) (def : Z) : Z :=
  fold_left (fun v '(c, d) => if (c =? code) && (v =? 0) then word d 0 else v) l def.

Lemma first_fold cfg code (f : client -> Z) :
  (forall c d, f (field cfg c (code, d)) = if f c =? 0 then word d 0 else f c) ->
  (forall c k d, k <> code -> f (field cfg c (k, d)) = f c) ->
  forall l c, f (fold_left (field cfg) l c) = first_nonzero code l (f c).
Proof.
  intros H1 H2 l. unfold first_nonzero. induction l as [|[k d] l IH]; intros c; [done|]. cbn [fold_left]. rewrite IH. f_equal.
  destruct (Z.eqb_spec k code) as [->|]; [by rewrite H1|by rewrite H2].
Qed.

(** What is left of an option when its code is known. *)
Lemma field_keep {A} (f : client -> A) cfg c k d :
  (forall x y, f (set_conf x y) = f y) -> (forall x y, f (puts x y) = f y) ->
  (k = 1 -> forall x y, f (on_own (set_mask x) y) = f y) -> (k = 3 -> forall x y, f (on_own (set_gateway x) y) = f y) ->
  f (field cfg c (k, d)) = f c.
Proof.
  intros H1 H2 H3 H4. assert (T : forall max p a n y, f (fst (take_str max p a n y)) = f y).
  { intros max p a n y. unfold take_str, truncate_sz. by destruct (_ <=? _); [apply H2|]. }
  unfold field, BootpVendorFieldProcess. cbn [fst snd]. cbv zeta. change (rd (k :: _) 0) with k. set (p := rd _). clearbody p.
  destruct (Z.eqb_spec k 1) as [E|]; [specialize (H3 E); destruct (_ =? 0); rewrite ?H3; apply H1|].
  destruct (Z.eqb_spec k 3) as [E|]; [specialize (H4 E); destruct (_ =? 0); rewrite ?H4; apply H1|].
  destruct (Z.eqb_spec k 6); [repeat case_match; by rewrite ?H1|].
  destruct (Z.eqb_spec k 12).
  { destruct (_ =? 0); [|by rewrite H1]. specialize (T 32 p (0 + 2) (p (0 + 1)) (set_conf (set_bootsize 0) c)). destruct (take_str _ _ _ _ _).
    by rewrite H1, <- (H1 (set_bootsize 0) c), <- T. }
  destruct (Z.eqb_spec k 13); [destruct (_ =? 2); [|destruct (_ =? 4)]; by rewrite ?H1|].
  destruct (Z.eqb_spec k 17).
  { destruct (_ =? 0); [|by rewrite H1]. specialize (T 64 p (0 + 2) (p (0 + 1)) (set_conf (set_bootsize 0) c)). destruct (take_str _ _ _ _ _).
    by rewrite H1, <- (H1 (set_bootsize 0) c), <- T. }
  destruct (Z.eqb_spec k 40); [|by rewrite H1].
  destruct (_ =? 0); [|by rewrite H1]. specialize (T 32 p (0 + 2) (p (0 + 1)) (set_conf (set_bootsize 0) c)). destruct (take_str _ _ _ _ _).
  by rewrite H1, <- (H1 (set_bootsize 0) c), <- T.
Qed.

Lemma mask_first cfg l c : NetOurSubnetMask (own (machine (fold_left (field cfg) l c))) = first_nonzero 1 l (NetOurSubnetMask (own (machine c))).
Proof.
  apply (first_fold cfg 1 (fun c => NetOurSubnetMask (own (machine c)))).
  - intros k d. unfold field, BootpVendorFieldProcess. cbn [fst snd]. cbv zeta. change (rd (1 :: _) 0) with 1. cbn [Z.eqb Pos.eqb].
    change (own (machine (set_conf _ k))) with (own (machine k)). by destruct (_ =? 0) eqn:E.
  - intros k x d Hx. by apply (field_keep (fun c => NetOurSubnetMask (own (machine c)))).
Qed.

Lemma gateway_first cfg l c : NetOurGatewayIP (own (machine (fold_left (field cfg) l c))) = first_nonzero 3 l (NetOurGatewayIP (own (machine c))).
Proof.
  apply (first_fold cfg 3 (fun c => NetOurGatewayIP (own (machine c)))).
  - intros k d. unfold field, BootpVendorFieldProcess. cbn [fst snd]. cbv zeta. change (rd (3 :: _) 0) with 3. cbn [Z.eqb Pos.eqb].
    change (own (machine (set_conf _ k))) with (own (machine k)). by destruct (_ =? 0) eqn:E.
  - intros k x d Hx. by apply (field_keep (fun c => NetOurGatewayIP (own (machine c)))).
Qed.

Lemma fields_keep {A} (f : client -> A) cfg l c :
  (forall x y, f (set_conf x y) = f y) -> (forall x y, f (puts x y) = f y) ->
  (forall x y, f (on_own (set_mask x) y) = f y) -> (forall x y, f (on_own (set_gateway x) y) = f y) ->
  f (fold_left (field cfg) l c) = f c.
Proof.
  intros H1 H2 H3 H4. revert c. induction l as [|[k d] l IH]; intros c; [done|]. cbn [fold_left]. rewrite IH. by apply field_keep.
Qed.

(** A reply of BOOTP: a client without DHCP takes the address, the server and the boot file of a reply to its
    request, and the mask and the gateway of the vendor area where it has none, whatever padding is between the
    options; it waits no more and goes on as "autoload" tells it. *)
Theorem bootp_configures cfg autoload rx p dest src len l c :
  BootpCheckPkt (BootpID c) p dest src len = 0 -> magic p = true ->
  Forall (fun x => good_option (snd x)) l -> mem_list p (bp_vend + 4) (length (padded l)) = padded l ->
  p (bp_vend + 4 + Z.of_nat (length (padded l))) = 255 -> Z.of_nat (length (padded l)) < len < 2 ^ 31 ->
  exists k, BootpHandler cfg autoload rx p dest src len c = autoload_boot cfg autoload k /\ timeHandler k = None /\
    sent (machine k) = sent (machine c) /\
    own (machine k) = Ours (NetReadIP p bp_yiaddr) (first_nonzero 1 (map snd l) (NetOurSubnetMask (own (machine c))))
      (first_nonzero 3 (map snd l) (NetOurGatewayIP (own (machine c))))
      (if NetReadIP p bp_siaddr =? 0 then NetServerIP (own (machine c)) else NetReadIP p bp_siaddr)
      (NetOurEther (own (machine c))) (mem_list rx 6 6) (NetOurVLAN (own (machine c))) (NetOurNativeVLAN (own (machine c))) /\
    BootFile k = (if p bp_file =? 0 then BootFile c else copy_filename (file_of p) 128).
Proof.
  intros Hc Hm Hg Hl He Hlen. unfold BootpHandler. rewrite Hc, Hm. cbn [Z.eqb negb]. eexists. split; [reflexivity|]. split; [done|].
  unfold BootpVendorProcess. rewrite s32_small by lia. rewrite (vendor_loop_spec cfg l) by (done || lia).
  destruct (BootpCopyNetParams_spec rx p c) as (C1 & C2 & _ & _ & C5 & _). set (k := BootpCopyNetParams rx p c) in *.
  set (q := fold_left (field cfg) (map snd l) k). unfold NetSetTimeout. cbn [Z.eqb machine BootFile].
  assert (Q : forall o, own (machine k) = o -> own (machine q) = Ours (NetOurIP o) (first_nonzero 1 (map snd l) (NetOurSubnetMask o))
    (first_nonzero 3 (map snd l) (NetOurGatewayIP o)) (NetServerIP o) (NetOurEther o) (NetServerEther o) (NetOurVLAN o) (NetOurNativeVLAN o)).
  { intros o <-. rewrite <- mask_first with (cfg := cfg), <- gateway_first with (cfg := cfg). fold q.
    rewrite <- (fields_keep (fun c => NetOurIP (own (machine c))) cfg (map snd l) k) by done.
    rewrite <- (fields_keep (fun c => NetServerIP (own (machine c))) cfg (map snd l) k) by done.
    rewrite <- (fields_keep (fun c => NetOurEther (own (machine c))) cfg (map snd l) k) by done.
    rewrite <- (fields_keep (fun c => NetServerEther (own (machine c))) cfg (map snd l) k) by done.
    rewrite <- (fields_keep (fun c => NetOurVLAN (own (machine c))) cfg (map snd l) k) by done.
    rewrite <- (fields_keep (fun c => NetOurNativeVLAN (own (machine c))) cfg (map snd l) k) by done. fold q. by destruct (own (machine q)). }
  split; [|split].
  - rewrite <- C2. by apply (fields_keep (fun c => sent (machine c))).
  - rewrite (Q _ C1). by destruct (_ =? 0).
  - rewrite <- C5. by apply (fields_keep BootFile).
Qed.

(** ** The ends of the loops *)

Lemma options_loop_end cfg n : forall fuel popt end_ p c, bytes_of p -> end_ - popt <= Z.of_nat fuel ->
  options_loop (fuel + n) cfg popt end_ p c = options_loop fuel cfg popt end_ p c.
Proof.
  induction fuel as [|fuel IH]; intros popt end_ p c Hp He.
  - destruct n as [|n]; [done|]. cbn [Nat.add options_loop]. by rewrite (proj2 (Z.ltb_ge popt end_)) by lia.
  - cbn [Nat.add options_loop]. destruct (_ && _); [|done]. pose proof (process_option_keep cfg popt p c Hp) as K.
    destruct (process_option cfg popt p c) as [p' c']. pose proof (Hp (popt + 1)) as H1. apply IH; [apply K|unfold is_byte in H1; lia].
Qed.

Lemma vendor_loop_end cfg n : forall fuel p ext end_ c, bytes_of p -> end_ - ext <= Z.of_nat fuel ->
  vendor_loop (fuel + n) cfg p ext end_ c = vendor_loop fuel cfg p ext end_ c.
Proof.
  induction fuel as [|fuel IH]; intros p ext end_ c Hp He.
  - destruct n as [|n]; [done|]. cbn [Nat.add vendor_loop]. by rewrite (proj2 (Z.ltb_ge ext end_)) by lia.
  - cbn [Nat.add vendor_loop]. pose proof (Hp (ext + 1)) as H1. unfold is_byte in H1.
    destruct (_ && _); [|done]. destruct (_ =? 0); apply IH; (done || lia).
Qed.

(** The loops over the options of any message end: what they do is what they do with any more steps. *)
Theorem loops_end cfg popt ext size p c n : bytes_of p -> 0 <= size ->
  DhcpOptionsProcess cfg popt p c = options_loop (Z.to_nat (BOOTP_HDR_SIZE cfg) + n) cfg popt (popt + BOOTP_HDR_SIZE cfg) p c /\
  BootpVendorProcess cfg p ext size c = vendor_loop (Z.to_nat size + n) cfg p ext (ext + size) c.
Proof.
  intros Hp Hs. split; symmetry; [apply options_loop_end|apply vendor_loop_end]; try done; [|lia].
  unfold BOOTP_HDR_SIZE, OPT_SIZE, bp_vend. destruct (CONFIG_CMD_DHCP cfg); lia.
Qed.

(** ** Facts *)

Definition ex_config (dhcp : bool) : config :=
  Config dhcp 5 64 false false true false true true false true true true false false true.
Definition ex_conf : conf := Conf 0 0 (repeat 0 32) (repeat 0 64) (repeat 0 32) 0 0 0 0 0.
Definition ex_client : client :=
  on_own (set_mask 0) (Client (ex_net 0 ex_ether_a NetEtherNullAddr VLAN_NONE VLAN_NONE) ex_conf [] INIT 0 0 No_handler None 0 0 [] []).
Definition ex_name : option Data := Some [98; 111; 97; 114; 100].
Definition cookie : Data := [99; 130; 83; 99].

(** A reply for transaction 1001 to 192.168.0.7 from 192.168.0.1. *)
Definition ex_reply (file vend : Data) : Data :=
  [2; 1; 6; 0] ++ ip_bytes 1001 ++ repeat 0 8 ++ ip_bytes 0xC0A80007 ++ ip_bytes 0xC0A80001 ++ repeat 0 84 ++
  file ++ repeat 0 (128 - length file) ++ vend.
Definition ex_file : Data := [117; 73; 109; 97; 103; 101].
Definition ex_options (type : Z) : list (Z * Data) :=
  [(53, [type]); (54, ip_bytes 0xC0A80001); (51, ip_bytes 3600); (1, ip_bytes 0xFFFFFF00); (3, ip_bytes 0xC0A800FE); (12, [98; 111; 120])].
Definition ex_dhcp (type : Z) : mem := rd (ex_reply ex_file (cookie ++ encode (ex_options type) ++ [255])).

(** The client when it has sent its first request, and when it has answered an offer. *)
Definition ex_selecting : client := BootpRequest true (ex_config true) 1000 ex_name ex_client.
Definition ex_handles (p : mem) (len : Z) (c : client) : option client :=
  DhcpHandler true (ex_config true) 400 1100 ex_name None (fun _ => 0) p PORT_BOOTPC PORT_BOOTPS len c.
Definition seen (c : option client) : option (dhcp_state_t * handler * option timer * nat * Z) :=
  k ← c; Some (dhcp_state k, packetHandler k, timeHandler k, length (sent (machine k)), NetOurIP (own (machine k))).
Definition ex_bound : option (dhcp_state_t * handler * option timer * nat * Z) :=
  Some (BOUND, Tftp_started, Some BootpTimeout_, 2%nat, 0xC0A80007).

(** An offer and an acknowledgement; the timer of the requests stays. *)
Example ex_exchange : seen (c ← ex_handles (ex_dhcp DHCP_OFFER) 300 ex_selecting; ex_handles (ex_dhcp DHCP_ACK) 300 c) = ex_bound.
Proof. vm_compute. reflexivity. Qed.

(** Anything is an offer for a client that selects: an acknowledgement, a refusal, a message without a type and one without options. *)
Fact anything_offers : Forall (fun p => seen (ex_handles p 300 ex_selecting) = Some (REQUESTING, DhcpHandler_, Some BootpTimeout_, 2%nat, 0))
  [ex_dhcp DHCP_ACK; ex_dhcp DHCP_NAK; rd (ex_reply ex_file (cookie ++ [255])); rd (ex_reply ex_file [])].
Proof. repeat (apply List.Forall_cons; [vm_compute; reflexivity|]). apply List.Forall_nil. Qed.

(** A refusal does nothing: the client asks again only when time is up. *)
Fact refusal_ignored be cfg fuel now hostname autoload rx p dest src len c :
  dhcp_state c = REQUESTING -> DhcpMessageType fuel p = Some DHCP_NAK ->
  DhcpHandler be cfg fuel now hostname autoload rx p dest src len c = Some c.
Proof. intros Hs Ht. unfold DhcpHandler. destruct (negb _); [done|]. by rewrite Hs, Ht. Qed.

(** The acknowledgement of any server binds, though the request was for the one that made the offer. *)
Definition ex_other_ack : mem :=
  rd (ex_reply ex_file (cookie ++ encode [(53, [DHCP_ACK]); (54, ip_bytes 0xC0A80063)] ++ [255])).
Fact any_server_binds : seen (c ← ex_handles (ex_dhcp DHCP_OFFER) 300 ex_selecting; ex_handles ex_other_ack 300 c) = ex_bound.
Proof. vm_compute. reflexivity. Qed.

(** A byte of padding is taken for an option of its own with a length: the type behind it is not found, and nothing is. *)
Definition ex_padded : mem := rd (ex_reply ex_file (cookie ++ [0] ++ encode (ex_options DHCP_ACK) ++ repeat 255 80)).
Fact padding_misread : DhcpMessageType 400 ex_padded = Some (-1) /\
  (let '(_, c) := DhcpOptionsProcess (ex_config true) (bp_vend + 4) ex_padded ex_client in NetOurSubnetMask (own (machine c))) = 0 /\
  (let '(_, c) := DhcpOptionsProcess (ex_config true) (bp_vend + 4)
     (rd (ex_reply ex_file (cookie ++ encode [(53, [DHCP_ACK])] ++ [0] ++ encode [(54, ip_bytes 5)] ++ [255]))) ex_client in
   NetDHCPServerIP (conf_of c)) = 0.
Proof. split; [|split]; vm_compute; reflexivity. Qed.

(** Without an end of the options the search for the type does not end with the packet. *)
Fact type_unbounded fuel : DhcpMessageType fuel (rd (ex_reply ex_file cookie)) = None.
Proof.
  unfold DhcpMessageType. replace (magic _) with true by (vm_compute; reflexivity).
  assert (H : forall a, 240 <= a -> rd (ex_reply ex_file cookie) a = 0).
  { intros a Ha. unfold rd. apply nth_overflow. change (length (ex_reply ex_file cookie)) with 240%nat. lia. }
  assert (L : forall a, 240 <= a -> type_loop fuel (rd (ex_reply ex_file cookie)) a = None); [|by apply L].
  induction fuel as [|fuel IH]; intros a Ha; [done|]. cbn [type_loop]. rewrite !H by lia. cbn [Z.eqb]. apply IH. lia.
Qed.

(** What is behind a packet is taken for its options: of this one the first 240 bytes have arrived. *)
Fact length_unchecked : seen (c ← ex_handles (ex_dhcp DHCP_OFFER) 240 ex_selecting; ex_handles (ex_dhcp DHCP_ACK) 240 c) = ex_bound.
Proof. vm_compute. reflexivity. Qed.

(** A long host name fills more than the vendor area, and its length is not what the option says. *)
Fact long_name : let ext := DhcpExtended (ex_config true) (Some (repeat 65 300)) DHCP_DISCOVER 0 0 in
  Z.of_nat (length ext) = 322 /\ OPT_SIZE (ex_config true) = 312 /\ rd ext 11 = 12 /\ rd ext 12 = 44.
Proof. repeat split; vm_compute; reflexivity. Qed.

(** BOOTP reads options behind the packet as well: the length of the packet is taken for that of the vendor area. *)
Definition ex_short : mem := rd (ex_reply ex_file (cookie ++ repeat 0 60 ++ encode [(1, ip_bytes 0xFFFF0000)] ++ [255])).
Definition ex_asked : client := BootpRequest true (ex_config false) 1000 ex_name ex_client.
Fact vendor_overrun : bp_vend + 4 + 60 = 300 /\
  NetOurSubnetMask (own (machine (BootpHandler (ex_config false) None (fun _ => 0) ex_short PORT_BOOTPC PORT_BOOTPS 300 ex_asked))) = 0xFFFF0000.
Proof. split; vm_compute; reflexivity. Qed.

(** ** Witnesses *)

Lemma ex_client_formed : well_formed (machine ex_client).
Proof.
  destruct (ex_well_formed 0 ex_ether_a NetEtherNullAddr VLAN_NONE VLAN_NONE) as [W1 W2 W3 W4 W5 W6]; [lia|by apply ex_address..|].
  constructor; [exact W1| |exact W3|exact W4|exact W5|exact W6].
  intros []; [apply (W2 Server_ether)|apply (W2 Bcast_ether)|apply (W2 Ping_mac)].
Qed.

Lemma ex_name_short : short_name ex_name.
Proof. intros s [= <-]. split; [by repeat (apply List.Forall_cons; [done|])|cbn; lia]. Qed.

Lemma ex_bytes l : forallb (fun x => (0 <=? x) && (x <? 256)) l = true -> bytes_of (rd l).
Proof.
  intros H i. apply rd_byte. apply List.Forall_forall. intros x Hx. rewrite forallb_forall in H. specialize (H x Hx). unfold is_byte. lia.
Qed.

Lemma ex_good type : is_byte type -> Forall good_option (ex_options type).
Proof.
  assert (G : forall c d, (0 <? c) && (c <? 255) && (words_in c <=? length d)%nat && (length d <=? 255)%nat && (negb (c =? 6)) = true ->
    Forall is_byte d -> good_option (c, d)).
  { intros c d E Hd. rewrite !andb_true_iff, !Nat.leb_le in E. unfold good_option. split; [lia|]. split; [lia|]. split; [done|lia]. }
  intros Ht. unfold ex_options. repeat (apply List.Forall_cons; [apply G; [vm_compute; reflexivity|]|]); [..|apply List.Forall_nil];
    try apply bytes_of_ip; repeat (apply List.Forall_cons; [done|]); apply List.Forall_nil.
Qed.

Lemma ex_is_reply type : type = DHCP_OFFER \/ type = DHCP_ACK ->
  is_reply 1001 (Reply 0xC0A80007 0xC0A80001 ex_file (ex_options type)) (ex_dhcp type) /\ bytes_of (ex_dhcp type).
Proof.
  intros Ht. assert (G : Forall good_option (ex_options type)) by (apply ex_good; by destruct Ht as [-> | ->]).
  destruct Ht as [-> | ->]; (split; [constructor; try exact G; try (vm_compute; reflexivity); cbn; lia|apply ex_bytes; vm_compute; reflexivity]).
Qed.

Lemma ex_id : BootpID ex_selecting = 1001.
Proof. vm_compute. reflexivity. Qed.

Lemma dhcp_binds_witness : exists c2 c3, ex_handles (ex_dhcp DHCP_OFFER) 300 ex_selecting = Some c2 /\
  ex_handles (ex_dhcp DHCP_ACK) 300 c2 = Some c3 /\ dhcp_state c3 = BOUND /\ NetOurIP (own (machine c3)) = 0xC0A80007.
Proof.
  destruct (ex_is_reply DHCP_OFFER) as [R1 B1]; [by left|]. destruct (ex_is_reply DHCP_ACK) as [R2 B2]; [by right|]. rewrite <- ex_id in R1, R2.
  destruct (dhcp_binds true (ex_config true) 400 1000 1100 1100 ex_name None (fun _ => 0) (fun _ => 0) (ex_dhcp DHCP_OFFER) (ex_dhcp DHCP_ACK)
    300 300 _ _ ex_client eq_refl ltac:(cbn; lia) ex_client_formed ltac:(apply List.Forall_nil) ex_name_short R1 B1 ltac:(unfold bp_vend; lia) R2 B2
    ltac:(unfold bp_vend; lia) eq_refl ltac:(cbn; lia) ltac:(discriminate)) as (c2 & c3 & f1 & f2 & H1 & H2 & _ & _ & _ & H3 & _ & H4 & _).
  exists c2, c3. split; [exact H1|]. split; [exact H2|]. split; [exact H3|exact H4].
Defined.

Definition ex_events : list event :=
  [Time_up 4001; Datagram 4100 (fun _ => 0) (ex_dhcp DHCP_OFFER) PORT_BOOTPC PORT_BOOTPS 300; Time_up 9101].
Lemma bound_by_ack_witness : let start := ex_selecting in
  exists c', run true (ex_config true) 400 ex_name None None ex_events start = Some c' /\
    (unbound true (ex_config true) 400 ex_name None None start (ip_of ex_client) ex_events c' \/
     bound true (ex_config true) 400 ex_name None None start ex_events c').
Proof.
  intros start. destruct (run true (ex_config true) 400 ex_name None None ex_events start) as [c'|] eqn:E.
  - exists c'. split; [reflexivity|]. apply (bound_by_ack true (ex_config true) 400 ex_name None None eq_refl 1000 ex_events ex_client c'); [|exact E].
    apply List.Forall_cons; [exact I|]. apply List.Forall_cons; [exact (proj2 (ex_is_reply DHCP_OFFER (or_introl eq_refl)))|].
    apply List.Forall_cons; [exact I|apply List.Forall_nil].
  - exfalso. assert (H : (match run true (ex_config true) 400 ex_name None None ex_events start with Some _ => true | None => false end) = true)
      by (vm_compute; reflexivity). rewrite E in H. discriminate H.
Defined.

Definition ex_area : Data := DhcpExtended (ex_config true) ex_name DHCP_DISCOVER 0 0.
Lemma request_area_witness : let p := store_list (fun _ => 0) bp_vend ex_area in
  magic p = true /\ DhcpMessageType 10 p = Some DHCP_DISCOVER.
Proof.
  intros p. destruct (request_area (ex_config true) ex_name DHCP_DISCOVER 0 0 p 10 eq_refl ex_name_short) as (_ & _ & H1 & H2 & _).
  - split; vm_compute; [discriminate|reflexivity].
  - exact (mem_list_store (fun _ => 0) bp_vend ex_area).
  - vm_compute. lia.
  - split; [exact H1|exact H2].
Defined.

Definition ex_vendor : list (nat * (Z * Data)) := [(2%nat, (1, ip_bytes 0xFFFF0000)); (1%nat, (3, ip_bytes 0xC0A800FE))].
Definition ex_bootp : mem := rd (ex_reply ex_file (cookie ++ padded ex_vendor ++ [255])).
Lemma bootp_configures_witness : exists k,
  BootpHandler (ex_config false) None (fun _ => 0) ex_bootp PORT_BOOTPC PORT_BOOTPS 300 ex_asked = autoload_boot (ex_config false) None k /\
  NetOurSubnetMask (own (machine k)) = 0xFFFF0000 /\ NetOurGatewayIP (own (machine k)) = 0xC0A800FE.
Proof.
  destruct (bootp_configures (ex_config false) None (fun _ => 0) ex_bootp PORT_BOOTPC PORT_BOOTPS 300 ex_vendor ex_asked) as (k & H1 & _ & _ & H2 & _);
    [vm_compute; reflexivity|vm_compute; reflexivity| |vm_compute; reflexivity|vm_compute; reflexivity|split; vm_compute; reflexivity|].
  - assert (G : forall c x, (c =? 1) || (c =? 3) = true -> good_option (c, ip_bytes x)).
    { intros c x E. assert (W : words_in c = 4%nat) by (apply orb_true_iff in E as [->%Z.eqb_eq | ->%Z.eqb_eq]; reflexivity).
      split; [lia|]. rewrite W. split; [cbn; lia|]. split; [apply bytes_of_ip|left; cbn; lia]. }
    apply List.Forall_cons; [by apply G|]. apply List.Forall_cons; [by apply G|apply List.Forall_nil].
  - exists k. split; [exact H1|]. rewrite H2. split; vm_compute; reflexivity.
Defined.

Lemma loops_end_witness :
  DhcpOptionsProcess (ex_config true) 240 ex_bootp ex_client = options_loop (548 + 7) (ex_config true) 240 788 ex_bootp ex_client.
Proof.
  apply (loops_end (ex_config true) 240 240 300 ex_bootp ex_client 7); [apply ex_bytes; vm_compute; reflexivity|lia].
Defined.
