(* ===== verification/Dns.v ===== *)
(** Names looked up in the DNS: [net/dns.c], over the network layer of Net.

    The name and the variable for the answer, which the command gives, are fields of the state; what [setenv] is given is
    a list.  The packet handler and the timer of this protocol are set when [waiting] says since when.  [be] is the byte
    order of the machine.  The handler gives [None] when it does not return; its loops over the packet have as fuel the
    length of the packet.

    After the functions: the query that the protocol calls for, and that the one sent is it ([query_arrives]); the form of
    replies, and what a reply does ([dns_resolves]); facts and witnesses. *)

From S2P Require Import Prelude CString Vsprintf Env Defrag Net.

Abbreviation Data := (list Z).

Definition DNS_SERVICE_PORT : Z := 53.
Definition DNS_TIMEOUT : Z := 10000.
Definition DNS_A_RECORD : Z := 1.
Definition DNS_CNAME_RECORD : Z := 5.

(** [struct header]: the places of the fields. *)
Definition tid : Z := 0.
Definition flags : Z := 2.
Definition nqueries : Z := 4.
Definition nanswers : Z := 6.
Definition hdata : Z := 12.

Inductive message : Type := Timeout | No_answers | Not_A | Address (s : Data) | Invalid_number.

(** [waiting]: the handler and the timer of this protocol are set; since when. *)
Record resolver : Type := Resolver {
  machine : net; NetOurDNSIP : Z; DnsOurPort : Z; NetDNSResolve : Data; NetDNSenvvar : option Data; waiting : option Z;
  setenvs : list (Data * Data); console : list message }.

Definition set_machine (n : net) (r : resolver) : resolver :=
  Resolver n (NetOurDNSIP r) (DnsOurPort r) (NetDNSResolve r) (NetDNSenvvar r) (waiting r) (setenvs r) (console r).
Definition set_port (p : Z) (r : resolver) : resolver :=
  Resolver (machine r) (NetOurDNSIP r) p (NetDNSResolve r) (NetDNSenvvar r) (waiting r) (setenvs r) (console r).
Definition set_waiting (t : option Z) (r : resolver) : resolver :=
  Resolver (machine r) (NetOurDNSIP r) (DnsOurPort r) (NetDNSResolve r) (NetDNSenvvar r) t (setenvs r) (console r).
Definition puts (x : message) (r : resolver) : resolver :=
  Resolver (machine r) (NetOurDNSIP r) (DnsOurPort r) (NetDNSResolve r) (NetDNSenvvar r) (waiting r) (setenvs r) (console r ++ [x]).
Definition store_var (k v : Data) (r : resolver) : resolver :=
  Resolver (machine r) (NetOurDNSIP r) (DnsOurPort r) (NetDNSResolve r) (NetDNSenvvar r) (waiting r) (setenvs r ++ [(k, v)]) (console r).
Definition stop_with (s : Z) (r : resolver) : resolver := set_machine (set_state s (machine r)) r.

Definition random_port (now : Z) : Z := 1024 + now mod 0x8000.

(** ** The query *)

(** [strchr] for a dot: what is before it, and behind it if there is one. *)
Fixpoint chunk_of (name : Data) : Data * option Data :=
  match name with
  | [] => ([], None)
  | c :: l => if c =? 46 then ([], Some l) else let '(w, r) := chunk_of l in (c :: w, r)
  end.

(** The loop that encodes the name. *)
Fixpoint encode_name (fuel : nat) (name : Data) : Data :=
  match fuel with
  | O => []
  | S fuel =>
    let '(w, r) := chunk_of name in
    u8 (Z.of_nat (length w)) :: w ++ match r with Some l => encode_name fuel l | None => [] end
  end.

Definition question (name : Data) : Data := encode_name (S (length name)) name ++ [0; 0; DNS_A_RECORD; 0; 1].

Section Host.
Context (be : bool).

Definition DnsSend (now : Z) (r : resolver) : resolver :=
  let n := machine r in
  let pkt := NetEthHdrSize n + IP_HDR_SIZE in
  let m := put16 be (NetTxPacket n) (pkt + tid) 1 in
  let m := put_net16 (put_net16 m (pkt + flags) 0x100) (pkt + nqueries) 1 in
  let m := store_list m (pkt + nanswers) [0; 0; 0; 0; 0; 0] in
  let m := store_list m (pkt + hdata) (question (NetDNSResolve r)) in
  let r := set_port (random_port now) r in
  let '(n, _) := NetSendUDPPacket be now (set_tx m n) Server_ether (NetOurDNSIP r) DNS_SERVICE_PORT (DnsOurPort r)
    (hdata + Z.of_nat (length (question (NetDNSResolve r)))) in
  set_machine n r.

Definition DnsTimeout (r : resolver) : resolver := stop_with NETLOOP_FAIL (puts Timeout r).

(** ** The answer *)

(** [tmp = p[0] | (p[1] << 8)], and [ntohs (tmp)]. *)
Definition swapped (p : mem) (a : Z) : Z := get16 (negb be) p a.

(** To the next zero, within the packet. *)
Fixpoint skip_name (fuel : nat) (p : mem) (a e : Z) : Z :=
  match fuel with
  | O => a
  | S fuel => if (a <? e) && negb (p a =? 0) then skip_name fuel p (a + 1) e else a
  end.
Fixpoint skip_owner (fuel : nat) (p : mem) (a e : Z) : Z :=
  match fuel with
  | O => a
  | S fuel => if negb (p a =? 0) && (a + 12 <? e) then skip_owner fuel p (a + 1) e else a
  end.

(** The loop through the answers: where it stops, and whether an address is there. *)
Fixpoint find_answer (fuel : nat) (p : mem) (a e : Z) : option (Z * bool) :=
  match fuel with
  | O => None
  | S fuel =>
    if a + 12 <? e then
      let a := if p a =? 0xc0 then a else skip_owner (Z.to_nat e) p a e - 1 in
      let type := swapped p (a + 2) in
      if type =? DNS_CNAME_RECORD then find_answer fuel p (a + 12 + swapped p (a + 10)) e
      else if type =? DNS_A_RECORD then Some (a, true)
      else Some (a, false)
    else Some (a, false)
  end.

(** The first loop, for the debug output, has a counter of 16 bits, and does not end when that is always below [len]. *)
Definition DnsHandler (p : mem) (dest src len : Z) (r : resolver) : option resolver :=
  if negb (dest =? DnsOurPort r) then Some r
  else if 65532 <? len then None
  else if negb (net16 p nqueries =? 1) then Some r
  else if get16 be p nanswers =? 0 then Some (stop_with NETLOOP_SUCCESS (puts No_answers r))
  else
    let a := skip_name (Z.to_nat len) p hdata len in
    if (len <? a + 5) || negb (swapped p (a + 1) =? DNS_A_RECORD) then Some (stop_with NETLOOP_SUCCESS (puts Not_A r))
    else
      '(a, found) ← find_answer (Z.to_nat len) p (a + 5) len;
      if found && (a + 12 <? len) then
        let dlen := swapped p (a + 10) in
        let IPAddress := NetReadIP p (a + 12) in
        if a + 12 + dlen <=? len then
          s ← ip_to_string IPAddress;
          let r := puts (Address s) r in
          Some (stop_with NETLOOP_SUCCESS (match NetDNSenvvar r with Some v => store_var v s r | None => r end))
        else Some (stop_with NETLOOP_SUCCESS (puts Invalid_number r))
      else Some (stop_with NETLOOP_SUCCESS r).

Definition DnsStart (now : Z) (r : resolver) : resolver := DnsSend now (set_waiting (Some now) r).
End Host.

(** ** What is sent *)

(** A name is its labels with dots between; in the question each has its length before it. *)
Fixpoint dotted (l : list Data) : Data :=
  match l with
  | [] => []
  | [w] => w
  | w :: l => w ++ 46 :: dotted l
  end.
Definition label (w : Data) : Prop := Forall is_byte w /\ ~ In 46 w /\ (length w <= 63)%nat.

(** The query that the protocol calls for. *)
Definition query (be : bool) (l : list Data) : Data :=
  (if be then [0; 1] else [1; 0]) ++ [1; 0; 0; 1; 0; 0; 0; 0; 0; 0] ++
  concat (map (fun w => Z.of_nat (length w) :: w) l) ++ [0; 0; DNS_A_RECORD; 0; 1].

Lemma chunk_of_label w l : ~ In 46 w -> chunk_of (w ++ 46 :: l) = (w, Some l) /\ chunk_of w = (w, None).
Proof.
  induction w as [|c w IH]; intros H; [done|]. cbn [app chunk_of]. destruct (Z.eqb_spec c 46) as [->|]; [destruct H; by left|].
  destruct IH as [-> ->]; [|done]. intros Hin. apply H. by right.
Qed.

Lemma encode_name_spec l : forall fuel, l <> [] -> Forall label l -> (length l <= fuel)%nat ->
  encode_name fuel (dotted l) = concat (map (fun w => Z.of_nat (length w) :: w) l).
Proof.
  induction l as [|w l IH]; intros fuel Hne Hl Hf; [done|]. apply List.Forall_cons_iff in Hl as [(Hb & Hd & Hw) Hl].
  destruct fuel as [|fuel]; [cbn in Hf; lia|]. cbn [map concat app encode_name].
  destruct l as [|x l].
  - cbn [dotted]. destruct (chunk_of_label w [] Hd) as [_ ->]. rewrite u8_small by lia. done.
  - change (dotted (w :: x :: l)) with (w ++ 46 :: dotted (x :: l)). destruct (chunk_of_label w (dotted (x :: l)) Hd) as [-> _].
    rewrite u8_small by lia. rewrite IH; [done|done|done|cbn in *; lia].
Qed.

Lemma dotted_cons w l : l <> [] -> dotted (w :: l) = w ++ 46 :: dotted l.
Proof. by destruct l. Qed.

Lemma dotted_length l : l <> [] -> length (concat (map (fun w => Z.of_nat (length w) :: w) l)) = S (length (dotted l)).
Proof.
  induction l as [|w l IH]; [done|]. intros _. destruct (decide (l = [])) as [->|Hl]; [cbn; by rewrite app_nil_r|].
  rewrite dotted_cons by done. cbn [map concat]. rewrite !length_app. cbn [length]. rewrite IH by done. lia.
Qed.

Lemma dotted_labels l : (length l <= S (length (dotted l)))%nat.
Proof.
  induction l as [|w l IH]; [cbn; lia|]. destruct l as [|x l]; [cbn; lia|].
  change (dotted (w :: x :: l)) with (w ++ 46 :: dotted (x :: l)). rewrite length_app. cbn [length] in *. lia.
Qed.

Lemma question_spec l : l <> [] -> Forall label l ->
  question (dotted l) = concat (map (fun w => Z.of_nat (length w) :: w) l) ++ [0; 0; DNS_A_RECORD; 0; 1].
Proof. intros Hne Hl. unfold question. rewrite encode_name_spec; [done|done|done|apply dotted_labels]. Qed.

Lemma query_bytes be l : Forall label l -> Forall is_byte (query be l).
Proof.
  intros Hl. unfold query. apply Forall_app_2; [destruct be; by repeat constructor|].
  apply Forall_app_2; [by repeat constructor|]. apply Forall_app_2; [|by repeat constructor].
  induction Hl as [|w l (Hb & _ & Hw) _ IH]; [done|]. cbn [map concat]. apply List.Forall_cons; [unfold is_byte; lia|]. by apply Forall_app_2.
Qed.

(** The query in the buffer. *)
Lemma query_written be m a l : l <> [] -> Forall label l -> bytes_of m ->
  let m' := store_list (store_list (put_net16 (put_net16 (put16 be m (a + tid) 1) (a + flags) 0x100) (a + nqueries) 1) (a + nanswers) [0; 0; 0; 0; 0; 0])
    (a + hdata) (question (dotted l)) in
  bytes_of m' /\ hdata + Z.of_nat (length (question (dotted l))) = Z.of_nat (length (query be l)) /\
  mem_list m' a (length (query be l)) = query be l.
Proof.
  intros Hne Hl Hm. cbv zeta. rewrite question_spec by done. set (q := concat _ ++ _).
  set (m1 := store_list (put_net16 _ _ _) _ _). set (m' := store_list m1 _ _).
  set (h := (if be then [0; 1] else [1; 0]) ++ [1; 0; 0; 1; 0; 0; 0; 0; 0; 0]).
  assert (Eq : query be l = h ++ q) by (unfold query, h; by rewrite <- app_assoc).
  assert (Hh : length h = 12%nat) by (unfold h; by destruct be).
  assert (B1 : bytes_of m1).
  { apply frame_store; [|by repeat constructor]. by apply bytes_of_put_net16, bytes_of_put_net16, bytes_of_put16. }
  split; [|split].
  - apply frame_store; [done|]. pose proof (query_bytes be l Hl) as B. rewrite Eq in B. apply Forall_app in B as [_ B]. exact B.
  - rewrite Eq, length_app, Hh. unfold hdata. lia.
  - rewrite Eq, length_app, mem_list_app. f_equal; [|rewrite Hh; apply mem_list_store].
    replace 12%nat with (length h) by done. apply mem_list_eq. intros i Hi. rewrite Hh in Hi. unfold m'. rewrite store_list_out by (unfold hdata; lia).
    unfold m1, put16, put_net16, tid, flags, nqueries, nanswers, h. cbn [store_list].
    assert (C : i = 0 \/ i = 1 \/ i = 2 \/ i = 3 \/ i = 4 \/ i = 5 \/ i = 6 \/ i = 7 \/ i = 8 \/ i = 9 \/ i = 10 \/ i = 11) by lia.
    repeat (destruct C as [->|C]); [..|subst i]; destruct be; repeat first [rewrite upd_at by lia | rewrite upd_ne by lia]; done.
Qed.

Lemma random_port_range now : 1024 <= random_port now < 33792.
Proof. unfold random_port. pose proof (Z.mod_pos_bound now 0x8000). lia. Qed.

(** C27: The query for a name of labels is the one that the protocol calls for, and, when the Ethernet
    address of the server is known or the query is a broadcast, it arrives: whatever the byte orders, the server, or any other machine that takes the datagram, gets it at the port of DNS, with a port for the answer
    that the resolver keeps. *)
Theorem query_arrives be be' udp_checksum now r l b :
  well_formed (machine r) -> NetDNSResolve r = dotted l -> l <> [] -> Forall label l -> (length (dotted l) < 255)%nat ->
  0 <= NetOurDNSIP r < 2 ^ 32 -> vlan_of (machine r) = vlan_of b -> takes b (NetOurDNSIP r) \/ NetOurDNSIP r = 0 ->
  NetServerEther (own (machine r)) <> NetEtherNullAddr \/ NetOurDNSIP r = 0 \/ NetOurDNSIP r = 0xFFFFFFFF ->
  let r' := DnsStart be now r in
  waiting r' = Some now /\ 1024 <= DnsOurPort r' < 33792 /\
  exists f, sent (machine r') = sent (machine r) ++ [f] /\
    forall m len, arrived f m -> Z.of_nat (length f) <= len ->
      exists p, NetReceive be' udp_checksum b m len =
          Some (b, Some (Call (Some p) DNS_SERVICE_PORT (DnsOurPort r') (Z.of_nat (length (query be l))))) /\
        mem_list p 0 (length (query be l)) = query be l.
Proof.
  intros W Hname Hne Hl Hlen Hip Hv Ht Hmac. unfold DnsStart, DnsSend. cbv zeta. cbn [set_waiting machine NetDNSResolve set_port]. rewrite Hname.
  set (a := NetEthHdrSize (machine r) + IP_HDR_SIZE).
  destruct (query_written be (NetTxPacket (machine r)) a l Hne Hl (wf_tx _ W)) as (B & L & Q). cbv zeta in B, Q. rewrite L. set (m' := store_list _ (a + hdata) _) in *.
  cbn [set_port NetOurDNSIP DnsOurPort]. destruct (NetSendUDPPacket _ _ _ _ _ _ _ _) as [n' x] eqn:E. cbn [set_machine waiting DnsOurPort machine].
  pose proof (random_port_range now) as Hport. split; [done|]. split; [done|].
  destruct (udp_delivered be be' udp_checksum now (set_tx m' (machine r)) Server_ether (NetOurDNSIP r) DNS_SERVICE_PORT (random_port now)
    (query be l) n' x b) as (_ & f & F1 & F2); try done.
  - destruct W as [W1 W2 W3 W4 W5 W6]. constructor; try done.
  - lia.
  - unfold query. rewrite !length_app. rewrite dotted_length by done. cbn [length]. destruct be; cbn [length]; lia.
  - by exists f.
Qed.

(** ** What is received *)

(** The name of an answer: a pointer to where it is in the packet, or its bytes. *)
Inductive owner : Type := Pointer (x : Z) | Spelled (l : Data).
Definition owner_bytes (o : owner) : Data := match o with Pointer x => [0xc0; x] | Spelled l => l ++ [0] end.
Definition good_owner (o : owner) : Prop :=
  match o with Pointer _ => True | Spelled l => Forall (fun x => x <> 0) l /\ rd (l ++ [0]) 0 <> 0xc0 end.

(** An answer: name, type, class and time to live, data. *)
Record answer : Type := Answer { a_owner : owner; a_type : Z; a_class : Data; a_data : Data }.
Definition word16 (x : Z) : Data := [x / 256; x mod 256].
Definition answer_bytes (x : answer) : Data :=
  owner_bytes (a_owner x) ++ word16 (a_type x) ++ a_class x ++ word16 (Z.of_nat (length (a_data x))) ++ a_data x.
Definition good_answer (x : answer) : Prop :=
  good_owner (a_owner x) /\ length (a_class x) = 6%nat /\ 0 < Z.of_nat (length (a_data x)) < 65536.

(** A reply to a query: the question, canonical names, an address, and what else there is. *)
Definition reply (name : Data) (cnames : list answer) (x : answer) (more : Data) : Data :=
  name ++ [0; 0; DNS_A_RECORD; 0; 1] ++ concat (map answer_bytes cnames) ++ answer_bytes x ++ more.

Lemma skip_name_spec p l : forall fuel a e, mem_list p a (length l) = l -> Forall (fun x => x <> 0) l -> p (a + Z.of_nat (length l)) = 0 ->
  a + Z.of_nat (length l) <= e -> (length l <= fuel)%nat -> skip_name fuel p a e = a + Z.of_nat (length l).
Proof.
  induction l as [|x l IH]; intros fuel a e Hl Hn H0 He Hf.
  - cbn [length] in *. rewrite Z.add_0_r in *. destruct fuel; cbn [skip_name]; [done|]. by rewrite H0, andb_false_r.
  - destruct fuel as [|fuel]; [cbn in Hf; lia|]. cbn [length mem_list] in *. injection Hl as H1 Hl. apply List.Forall_cons_iff in Hn as [Hx Hn].
    cbn [skip_name]. rewrite H1, (proj2 (Z.ltb_lt a e)), (proj2 (Z.eqb_neq x 0)) by lia. cbn [andb negb].
    rewrite IH; [lia|done|done|rewrite <- H0; f_equal; lia|lia|lia].
Qed.

Lemma skip_owner_spec p l : forall fuel a e, mem_list p a (length l) = l -> Forall (fun x => x <> 0) l -> p (a + Z.of_nat (length l)) = 0 ->
  a + Z.of_nat (length l) + 12 <= e -> (length l <= fuel)%nat -> skip_owner fuel p a e = a + Z.of_nat (length l).
Proof.
  induction l as [|x l IH]; intros fuel a e Hl Hn H0 He Hf.
  - cbn [length] in *. rewrite Z.add_0_r in *. destruct fuel; cbn [skip_owner]; [done|]. by rewrite H0.
  - destruct fuel as [|fuel]; [cbn in Hf; lia|]. cbn [length mem_list] in *. injection Hl as H1 Hl. apply List.Forall_cons_iff in Hn as [Hx Hn].
    cbn [skip_owner]. rewrite H1, (proj2 (Z.ltb_lt _ e)), (proj2 (Z.eqb_neq x 0)) by lia. cbn [andb negb].
    rewrite IH; [lia|done|done|rewrite <- H0; f_equal; lia|lia|lia].
Qed.

Lemma swapped_word p a x : mem_list p a 2 = word16 x -> swapped false p a = x.
Proof.
  unfold swapped, get16, word16. cbn [mem_list negb]. intros [= -> ->]. pose proof (Z.div_mod x 256). lia.
Qed.

(** Where the code stands at an answer: two bytes before its type. *)
Definition stand (a : Z) (x : answer) : Z := a + Z.of_nat (length (owner_bytes (a_owner x))) - 2.

Lemma answer_at p a e x : good_answer x -> mem_list p a (length (answer_bytes x)) = answer_bytes x ->
  a + Z.of_nat (length (answer_bytes x)) <= e -> 0 <= a ->
  (if p a =? 0xc0 then a else skip_owner (Z.to_nat e) p a e - 1) = stand a x /\
  swapped false p (stand a x + 2) = a_type x /\ swapped false p (stand a x + 10) = Z.of_nat (length (a_data x)) /\
  mem_list p (stand a x + 12) (length (a_data x)) = a_data x /\
  stand a x + 12 + Z.of_nat (length (a_data x)) = a + Z.of_nat (length (answer_bytes x)).
Proof.
  intros (Ho & Hc & Hd) H He Ha. unfold answer_bytes in *. rewrite !length_app in *. cbn [length word16] in *. rewrite Hc in *.
  destruct (mem_list_split p a _ _ _ H) as [H1 H2]; [rewrite !length_app; cbn [length word16]; lia|].
  destruct (mem_list_split p _ (word16 (a_type x)) _ _ H2) as [H3 H4]; [rewrite !length_app; cbn [length word16]; lia|].
  destruct (mem_list_split p _ (a_class x) _ _ H4) as [_ H5]; [rewrite !length_app; cbn [length word16]; lia|].
  destruct (mem_list_split p _ (word16 _) _ _ H5) as [H6 H7]; [rewrite !length_app; cbn [length word16]; lia|].
  cbn [length word16] in H3, H6, H7. rewrite Hc in H6, H7. set (n := length (owner_bytes (a_owner x))) in *. unfold stand. fold n.
  split; [|split; [|split; [|split]]].
  - unfold n in *. clear n. destruct (a_owner x) as [y|l]; cbn [owner_bytes good_owner] in *.
    + cbn [length mem_list] in H1. injection H1 as H1 _. rewrite H1. cbn [Z.eqb Pos.eqb length]. lia.
    + destruct Ho as [Hn H0]. destruct (mem_list_split p a l [0] _ H1) as [K1 K2]; [by rewrite length_app|]. cbn [mem_list length] in K2. injection K2 as K2.
      assert (E : p a = rd (l ++ [0]) 0) by (rewrite <- (mem_list_rd p a (l ++ [0]) 0 H1) by (rewrite length_app; cbn; lia); by rewrite Z.add_0_r).
      rewrite E, (proj2 (Z.eqb_neq _ _) H0). rewrite length_app in *. cbn [length] in *.
      rewrite (skip_owner_spec p l) by (done || lia). lia.
  - apply swapped_word. rewrite <- H3. f_equal. lia.
  - apply swapped_word. rewrite <- H6. f_equal. lia.
  - rewrite <- H7 at 2. f_equal. lia.
  - lia.
Qed.

Lemma answers_spec p e x more cnames : forall fuel a,
  good_answer x -> a_type x = DNS_A_RECORD -> length (a_data x) = 4%nat ->
  Forall (fun y => good_answer y /\ a_type y = DNS_CNAME_RECORD) cnames ->
  let l := concat (map answer_bytes cnames) ++ answer_bytes x ++ more in
  mem_list p a (length l) = l -> e = a + Z.of_nat (length l) -> 0 <= a -> (length cnames < fuel)%nat ->
  exists q, find_answer false fuel p a e = Some (q, true) /\ swapped false p (q + 10) = 4 /\ mem_list p (q + 12) 4 = a_data x /\
    q + 12 + 4 + Z.of_nat (length more) = e.
Proof.
  induction cnames as [|y cnames IH]; intros fuel a Hx Tx Dx Hc l H He Ha Hf; (destruct fuel as [|fuel]; [lia|]); cbn [find_answer].
  - unfold l in *. cbn [map concat app] in *. destruct (mem_list_split p a _ _ _ H) as [H1 H2]; [by rewrite length_app|]. rewrite length_app in He.
    destruct (answer_at p a e x Hx H1) as (A1 & A2 & A3 & A4 & A5); [lia|done|]. rewrite Dx in *.
    assert (Ho : (0 < length (owner_bytes (a_owner x)))%nat) by (destruct (a_owner x); cbn [owner_bytes]; rewrite ?length_app; cbn; lia).
    unfold stand in A5. rewrite (proj2 (Z.ltb_lt _ e)) by lia. rewrite A1, A2, Tx. cbn [Z.eqb Pos.eqb DNS_A_RECORD DNS_CNAME_RECORD].
    exists (stand a x). split; [done|]. split; [exact A3|]. split; [exact A4|unfold stand; lia].
  - apply List.Forall_cons_iff in Hc as [[Hy Ty] Hc]. unfold l in H, He. cbn [map concat] in H, He. rewrite <- app_assoc in H, He.
    destruct (mem_list_split p a _ _ _ H) as [H1 H2]; [by rewrite length_app|]. rewrite length_app in He.
    destruct (answer_at p a e y Hy H1) as (A1 & A2 & A3 & A4 & A5); [lia|done|].
    assert (L : (0 < length (concat (map answer_bytes cnames) ++ answer_bytes x ++ more))%nat).
    { rewrite !length_app. unfold answer_bytes at 2. rewrite !length_app. rewrite Dx. lia. }
    assert (Ho : (0 < length (owner_bytes (a_owner y)))%nat) by (destruct (a_owner y); cbn [owner_bytes]; rewrite ?length_app; cbn; lia).
    pose proof (proj2 (proj2 Hy)) as Hd. unfold stand in A5. rewrite (proj2 (Z.ltb_lt (a + 12) e)) by lia.
    rewrite A1, A2, Ty, A3, Z.eqb_refl. fold (stand a y) in A5. rewrite A5.
    apply IH; [done|done|done|done|exact H2|lia|lia|cbn in Hf; lia].
Qed.

(** C26: The answer, on a machine of little-endian byte order: whatever canonical names come before it, each spelled out or pointed to in
    the first 256 bytes, and whatever comes after it, the first address record of a reply of at most 65532 bytes is
    printed and, as text that gives the address again, put into the variable of the command; the resolver is done.  On a
    machine of big-endian byte order no such reply is understood: the resolver is done, too, but says that it was no address
    record, and sets nothing. *)
Theorem dns_resolves be p src len r hd name cnames x more ip :
  let l := hd ++ reply name cnames x more in
  mem_list p 0 (length l) = l -> len = Z.of_nat (length l) -> len <= 65532 -> length hd = 12%nat ->
  net16 p nqueries = 1 -> get16 be p nanswers <> 0 -> Forall (fun c => c <> 0) name ->
  Forall (fun y => good_answer y /\ a_type y = DNS_CNAME_RECORD) cnames ->
  good_answer x -> a_type x = DNS_A_RECORD -> a_data x = ip_bytes ip -> 0 <= ip < 2 ^ 32 ->
  exists s r', ip_to_string ip = Some s /\ string_to_ip (Some s) = ip /\
    DnsHandler be p (DnsOurPort r) src len r = Some r' /\ NetState (loop (machine r')) = NETLOOP_SUCCESS /\
    console r' = console r ++ [if be then Not_A else Address s] /\
    setenvs r' = setenvs r ++ (if be then [] else match NetDNSenvvar r with Some v => [(v, s)] | None => [] end).
Proof.
  intros l H Hlen Hl Hh Hq Hn Hname Hc Hx Tx Dx Hip. unfold l in *. clear l. unfold reply in *.
  destruct (mem_list_split p 0 _ _ _ H) as [_ H1]; [by rewrite length_app|]. rewrite Hh in H1.
  destruct (mem_list_split p _ _ _ _ H1) as [H2 H3]; [by rewrite length_app|].
  destruct (mem_list_split p _ [0; 0; DNS_A_RECORD; 0; 1] _ _ H3) as [H4 H5]; [by rewrite length_app|].
  rewrite !length_app, Hh in Hlen. cbn [length] in Hlen, H4, H5. cbn [mem_list] in H4. injection H4 as Z0 Z1 Z2 _.
  change (0 + Z.of_nat 12) with hdata in *. set (a := hdata + Z.of_nat (length name)) in *.
  assert (Ha : 12 <= a) by (unfold a, hdata; lia).
  destruct (addresses_as_text ip 0 Hip) as [(s & S1 & S2) _]; [lia|]. exists s.
  unfold DnsHandler. rewrite Z.eqb_refl, (proj2 (Z.ltb_ge 65532 len)), Hq, (proj2 (Z.eqb_neq _ 0) Hn) by lia. cbn [negb Z.eqb Pos.eqb].
  rewrite (skip_name_spec p name) by (done || (fold a; lia) || (unfold a, hdata in *; lia)). fold a.
  rewrite (proj2 (Z.ltb_ge len (a + 5))) by (unfold a, hdata in *; lia).
  destruct be.
  { assert (E : swapped true p (a + 1) = 256) by (unfold swapped, get16; cbn [negb]; by rewrite Z1, Z2).
    rewrite E. cbn [orb negb Z.eqb Pos.eqb DNS_A_RECORD]. eexists. split; [done|]. split; [done|]. split; [done|]. split; [done|].
    split; [done|]. cbn. by rewrite app_nil_r. }
  rewrite (swapped_word p (a + 1) DNS_A_RECORD) by (cbn [mem_list]; by rewrite Z1, Z2). cbn [orb negb Z.eqb Pos.eqb DNS_A_RECORD].
  change (a + Z.of_nat 5) with (a + 5) in H5.
  destruct (answers_spec p len x more cnames (Z.to_nat len) (a + 5) Hx Tx) as (q & Q1 & Q2 & Q3 & Q4); try done.
  - by rewrite Dx.
  - rewrite !length_app. unfold a, hdata in *. lia.
  - lia.
  - assert (Hcl : (length cnames <= length (concat (map answer_bytes cnames)))%nat).
    { clear -Hc. induction Hc as [|y k [Hy _] _ IH]; [done|]. cbn [map concat length]. rewrite length_app. unfold answer_bytes at 1.
      rewrite !length_app. destruct Hy as (_ & -> & _). lia. }
    unfold a, hdata in *. lia.
  - rewrite Q1. cbn [mbind option_bind andb]. rewrite (proj2 (Z.ltb_lt _ len)), Q2, (proj2 (Z.leb_le _ len)) by lia.
    assert (Eip : NetReadIP p (q + 12) = ip).
    { rewrite Dx in Q3. transitivity (NetReadIP (NetWriteIP p (q + 12) ip) (q + 12)); [|by apply NetReadIP_write].
      apply NetReadIP_ext. intros i Hi. unfold NetWriteIP. rewrite store_list_in by done. by apply (mem_list_rd p (q + 12) (ip_bytes ip)). }
    rewrite Eip, S1. cbn [mbind option_bind]. eexists. split; [done|]. split; [done|]. split; [done|].
    change (NetDNSenvvar (puts (Address s) r)) with (NetDNSenvvar r). split; [|split]; destruct (NetDNSenvvar r); cbn; by rewrite ?app_nil_r.
Qed.

(** ** Facts *)

Definition ex_labels : list Data := [[119; 119; 119]; [97; 98]].
Definition ex_resolver : resolver := Resolver ex_b 0xC0A80001 1024 (dotted ex_labels) (Some [105; 112]) (Some 0) [] [].
Definition ex_head : Data := [0; 1; 129; 128; 0; 1; 0; 2; 0; 0; 0; 0].
Definition ex_name : Data := [3; 119; 119; 119; 2; 97; 98].
Definition ex_cname : answer := Answer (Pointer 12) DNS_CNAME_RECORD [0; 1; 0; 0; 0; 9] [1; 99; 0].
Definition ex_record (o : owner) : answer := Answer o DNS_A_RECORD [0; 1; 0; 0; 0; 9] (ip_bytes 0x0A000005).
Definition ex_packet (o : owner) : Data := ex_head ++ reply ex_name [ex_cname] (ex_record o) [].
Definition ex_handled (be : bool) (l : Data) : option (list message * list (Data * Data)) :=
  r ← DnsHandler be (rd l) 1024 53 (Z.of_nat (length l)) ex_resolver; Some (console r, setenvs r).
Definition ex_text : Data := [49; 48; 46; 48; 46; 48; 46; 53].

Example ex_lookup : ex_handled false (ex_packet (Spelled ex_name)) = Some ([Address ex_text], [([105; 112], ex_text)]).
Proof. vm_compute. reflexivity. Qed.

(** On a machine of big-endian byte order the numbers of two bytes are swapped, and no reply is understood. *)
Fact big_endian_deaf : ex_handled true (ex_packet (Pointer 12)) = Some ([Not_A], []).
Proof. vm_compute. reflexivity. Qed.

(** A pointer to a place beyond the first 256 bytes is taken for a spelled name, and the address is not found: nothing is said. *)
Fact far_pointer_lost : ex_handled false (ex_head ++ ex_name ++ [0; 0; 1; 0; 1] ++ [0xc1; 12; 0; 1; 0; 1; 0; 0; 0; 9; 0; 4; 10; 0; 0; 5]) = Some ([], []).
Proof. vm_compute. reflexivity. Qed.

(** The length of an address is not looked at: of one with a single byte the others come from behind the packet. *)
Fact short_address : ex_handled false (ex_head ++ ex_name ++ [0; 0; 1; 0; 1] ++ [0xc0; 12; 0; 1; 0; 1; 0; 0; 0; 9; 0; 1; 10]) =
  Some ([Address [49; 48; 46; 48; 46; 48; 46; 48]], [([105; 112], [49; 48; 46; 48; 46; 48; 46; 48])]).
Proof. vm_compute. reflexivity. Qed.

(** A length that the counter of the first loop does not reach: Net hands on what the UDP header says less 8, such as 2^32 - 8. *)
Fact long_never_returns be p dest src len r : dest = DnsOurPort r -> 65532 < len -> DnsHandler be p dest src len r = None.
Proof. intros -> H. unfold DnsHandler. by rewrite Z.eqb_refl, (proj2 (Z.ltb_lt _ _) H). Qed.

(** The query goes to the Ethernet address that is left from an earlier server, though the address of the name server is another. *)
Fact stale_address : exists f, sent (machine (DnsStart false 5 (Resolver ex_b 0xC0A80063 0 (dotted ex_labels) None None [] []))) = [f] /\
  firstn 6 f = ex_ether_a /\ NetServerEther (own ex_b) = ex_ether_a.
Proof. eexists. split; [vm_compute; reflexivity|]. by split. Qed.

(** ** Witnesses *)

Lemma ex_labels_good : Forall label ex_labels.
Proof.
  repeat (apply List.Forall_cons; [split; [by repeat (apply List.Forall_cons; [done|])|split; [cbn; lia|cbn; lia]]|]). apply List.Forall_nil.
Qed.

Lemma query_arrives_witness : let r' := DnsStart false 7 ex_resolver in
  waiting r' = Some 7 /\ exists f, sent (machine r') = [f] /\ forall m len, arrived f m -> Z.of_nat (length f) <= len ->
    exists p, NetReceive true true ex_a m len = Some (ex_a, Some (Call (Some p) 53 1031 24)) /\ mem_list p 0 24 = query false ex_labels.
Proof.
  destruct (query_arrives false true true 7 ex_resolver ex_labels ex_a) as (H1 & _ & f & H2 & H3);
    [apply ex_well_formed; [lia|by apply ex_address..]|reflexivity|discriminate|exact ex_labels_good|cbn; lia|cbn; lia|reflexivity
    |left; right; left; reflexivity|left; discriminate|].
  split; [exact H1|]. exists f. split; [exact H2|]. exact H3.
Defined.

Lemma dns_resolves_witness : exists s r', ip_to_string 0x0A000005 = Some s /\
  DnsHandler false (rd (ex_packet (Pointer 12))) 1024 53 (Z.of_nat (length (ex_packet (Pointer 12)))) ex_resolver = Some r' /\
  setenvs r' = [([105; 112], s)].
Proof.
  destruct (dns_resolves false (rd (ex_packet (Pointer 12))) 53 (Z.of_nat (length (ex_packet (Pointer 12)))) ex_resolver ex_head ex_name [ex_cname]
    (ex_record (Pointer 12)) [] 0x0A000005) as (s & r' & H1 & _ & H2 & _ & _ & H3);
    [vm_compute; reflexivity|reflexivity|vm_compute; discriminate|reflexivity|reflexivity|discriminate| | |split; [exact I|split; [reflexivity|cbn; lia]]
    |reflexivity|reflexivity|lia|].
  - repeat (apply List.Forall_cons; [discriminate|]). apply List.Forall_nil.
  - apply List.Forall_cons; [split; [split; [exact I|split; [reflexivity|cbn; lia]]|reflexivity]|apply List.Forall_nil].
  - exists s, r'. split; [exact H1|]. split; [exact H2|exact H3].
Defined.
