(* ===== verification/Sntp.v ===== *)
(** The time from a server: [net/sntp.c], over the network layer of Net and the dates of Date.

    What [rtc_set] is given is a list; [date] tells whether CONFIG_CMD_DATE is defined.  The packet handler and the timer of this
    protocol are set when [waiting] says since when. *)

From S2P Require Import Prelude CString Vsprintf Env Defrag Date Net.

Abbreviation Data := (list Z).

Definition SNTP_TIMEOUT : Z := 10000.
Definition NTP_SERVICE_PORT : Z := 123.
Definition SNTP_PACKET_LEN : Z := 48.
Definition NTP_LI_NOLEAP : Z := 0.
Definition NTP_VERSION : Z := 4.
Definition NTP_MODE_CLIENT : Z := 3.

(** [struct sntp_pkt_t]: the first byte from its bit fields, and the place of the last field. *)
Definition li_vn_mode (li vn mode : Z) : Z := Z.lor (Z.shiftl li 6) (Z.lor (Z.shiftl vn 3) mode).
Definition transmit_timestamp : Z := 40.

Inductive message : Type := Timeout | Date_and_time (tm : rtc_time).

Record timekeeper : Type := Timekeeper {
  machine : net; NetNtpServerIP : Z; NetTimeOffset : Z; SntpOurPort : Z; waiting : option Z; clock : list rtc_time; console : list message }.

Definition stop_with (s : Z) (k : timekeeper) : timekeeper :=
  Timekeeper (set_state s (machine k)) (NetNtpServerIP k) (NetTimeOffset k) (SntpOurPort k) (waiting k) (clock k) (console k).

Definition SntpSend (be : bool) (now : Z) (k : timekeeper) : timekeeper :=
  let n := machine k in
  let pkt := li_vn_mode NTP_LI_NOLEAP NTP_VERSION NTP_MODE_CLIENT :: repeat 0 47 in
  let m := store_list (NetTxPacket n) (NetEthHdrSize n + IP_HDR_SIZE) pkt in
  let port := 10000 + now mod 4096 in
  let '(n, _) := NetSendUDPPacket be now (set_tx m n) Server_ether (NetNtpServerIP k) NTP_SERVICE_PORT port SNTP_PACKET_LEN in
  Timekeeper n (NetNtpServerIP k) (NetTimeOffset k) port (waiting k) (clock k) (console k).

Definition SntpTimeout (k : timekeeper) : timekeeper :=
  stop_with NETLOOP_FAIL (Timekeeper (machine k) (NetNtpServerIP k) (NetTimeOffset k) (SntpOurPort k) (waiting k) (clock k) (console k ++ [Timeout])).

(** The argument of [to_tm] is an [int], computed without sign in 32 bits. *)
Definition SntpHandler (date : bool) (p : mem) (dest src len : Z) (k : timekeeper) : timekeeper :=
  if negb (dest =? SntpOurPort k) then k
  else
    let seconds := NetReadIP p transmit_timestamp in
    let tm := to_tm (s32 (u32 (u32 (seconds - 2208988800) + NetTimeOffset k))) in
    stop_with NETLOOP_SUCCESS
      (Timekeeper (machine k) (NetNtpServerIP k) (NetTimeOffset k) (SntpOurPort k) (waiting k) (if date then clock k ++ [tm] else clock k)
        (console k ++ [Date_and_time tm])).

Definition SntpStart (be : bool) (now : Z) (k : timekeeper) : timekeeper :=
  let n := set_own (fun o => Ours (NetOurIP o) (NetOurSubnetMask o) (NetOurGatewayIP o) (NetServerIP o) (NetOurEther o) NetEtherNullAddr
    (NetOurVLAN o) (NetOurNativeVLAN o)) (machine k) in
  SntpSend be now (Timekeeper n (NetNtpServerIP k) (NetTimeOffset k) (SntpOurPort k) (Some now) (clock k) (console k)).

(** C33: The clock is set: when the server gives the seconds since 1900 of a time, modulo 2^32, which covers the years beyond
    the wrap-around in 2036, and that time, moved by the offset of the time zone, is between 1970 and the 19th of January 2038, the last
    that an [int] holds, the clock and the console get the date and the time of the calendar, and the protocol is done.
    Beyond that the date is wrong ([late_time]). *)
Theorem sntp_sets_clock p src len k t :
  NetReadIP p transmit_timestamp = (t + 2208988800) mod 2 ^ 32 -> 0 <= t + NetTimeOffset k < 2 ^ 31 ->
  let local := t + NetTimeOffset k in
  let k' := SntpHandler true p (SntpOurPort k) src len k in
  exists tm, clock k' = clock k ++ [tm] /\ console k' = console k ++ [Date_and_time tm] /\
    NetState (loop (machine k')) = NETLOOP_SUCCESS /\
    (tm_year tm, tm_mon tm, tm_mday tm) = date (Z.to_nat (local / 86400)) /\
    tm_hour tm * 3600 + tm_min tm * 60 + tm_sec tm = local mod 86400 /\
    0 <= tm_hour tm < 24 /\ 0 <= tm_min tm < 60 /\ 0 <= tm_sec tm < 60 /\ tm_wday tm = (local / 86400 + 4) mod 7.
Proof.
  intros Hs Ht local k'. exists (to_tm local). unfold k', SntpHandler. rewrite Z.eqb_refl. cbn [negb]. rewrite Hs.
  assert (E : s32 (u32 (u32 ((t + 2208988800) mod 2 ^ 32 - 2208988800) + NetTimeOffset k)) = local).
  { unfold u32. rewrite Zplus_mod_idemp_l.
    replace ((t + 2208988800) mod 2 ^ 32 - 2208988800 + NetTimeOffset k) with ((t + 2208988800) mod 2 ^ 32 + (NetTimeOffset k - 2208988800)) by lia.
    rewrite Zplus_mod_idemp_l. replace (t + 2208988800 + (NetTimeOffset k - 2208988800)) with local by (unfold local; lia).
    rewrite Z.mod_small by (unfold local; lia).
    apply s32_small. unfold local. lia. }
  rewrite E. do 3 (split; [done|]). exact (to_tm_spec local Ht).
Qed.

(** A datagram for another port changes nothing. *)
Fact other_port date p dest src len k : dest <> SntpOurPort k -> SntpHandler date p dest src len k = k.
Proof. intros H. unfold SntpHandler. by rewrite (proj2 (Z.eqb_neq _ _) H). Qed.

(** A time that is beyond January 2038 is negative for [to_tm], and the date is none of the calendar. *)
Definition ex_keeper (off : Z) : timekeeper := Timekeeper ex_b 0xC0A80001 off 10000 (Some 0) [] [].
Definition ex_answer (seconds : Z) : mem := NetWriteIP (fun _ => 0) transmit_timestamp seconds.
Fact late_time : exists tm, clock (SntpHandler true (ex_answer 61505152) 10000 123 48 (ex_keeper 0)) = [tm] /\ tm_hour tm < 0 /\ tm_year tm = 1970.
Proof. eexists. split; [vm_compute; reflexivity|]. by split. Qed.

(** The request waits until the server's Ethernet address is known, whatever address was known before. *)
Example ex_request : let k := SntpStart false 5 (ex_keeper 0) in
  SntpOurPort k = 10005 /\ waiting k = Some 5 /\ length (sent (machine k)) = 1%nat /\ NetArpWaitPacketIP (arp (machine k)) = 0xC0A80001 /\
  mem_list (NetArpWaitTxPacket (arp (machine k))) 42 3 = [0x23; 0; 0].
Proof. repeat split; vm_compute; reflexivity. Qed.

(** The first second after the wrap-around of the server's seconds, 2036-02-07 06:28:16, with an offset of one hour. *)
Lemma sntp_sets_clock_witness : exists tm, clock (SntpHandler true (ex_answer 0) 10000 123 48 (ex_keeper 3600)) = [tm] /\
  (tm_year tm, tm_mon tm, tm_mday tm) = (2036, 2, 7) /\ tm_hour tm * 3600 + tm_min tm * 60 + tm_sec tm = 7 * 3600 + 28 * 60 + 16.
Proof.
  destruct (sntp_sets_clock (ex_answer 0) 123 48 (ex_keeper 3600) 2085978496) as (tm & H1 & _ & _ & H2 & H3 & _);
    [vm_compute; reflexivity|cbn; lia|].
  exists tm. split; [exact H1|]. split; [rewrite H2; by vm_compute|rewrite H3; by vm_compute].
Defined.
