(* ===== verification/EnvFlash.v ===== *)
(** The environment in NOR flash: [common/env_flash.c], in two copies (CONFIG_ENV_ADDR_REDUND), and the
    start-up part of [common/env_common.c] that calls it, for an environment that is not embedded.

    What these files need of the flash layer is the class [Flash_layer]; its laws hold also when a call fails or when the
    power goes off in the middle of it.  The functions of Flash, over a driver with the same kind of promise, are an
    instance.  The state [W] of the layer includes the memory; pointers are addresses in it; [poke], the stores of the
    program, is for RAM only.  Reading flash has no error.  A byte whose programming is cut off may have any of its bits
    changed and any not ([mixed]), and a range is only sure to be erased when no sector of it is protected ([open]). *)

From S2P Require Import Prelude Crc Flash.

(** ** The flash layer *)

(** Every bit of [v] is that of [old] or that of [new]. *)
Definition mixed (old new v : Z) : Prop := forall i, 0 <= i -> Z.testbit v i = Z.testbit old i \/ Z.testbit v i = Z.testbit new i.

Class Flash_layer (W : Type) := {
  content : W -> mem;
  powered : W -> bool;
  writable : Z -> Z -> Prop;
  open : W -> Z -> Z -> Prop;
  sect_protect : Z -> W -> Z -> Z -> W * Z;
  sect_erase : W -> Z -> Z -> W * Z;
  flash_write : W -> Z -> Z -> Z -> W * Z;
  poke : W -> Z -> list Z -> W;
  writable_part f l f' l' : writable f l -> f <= f' -> f' <= l' -> l' <= l -> writable f' l';
  protect_same p s f l : content (fst (sect_protect p s f l)) = content s;
  protect_power p s f l : powered (fst (sect_protect p s f l)) = powered s;
  protect_open s f l : writable f l -> snd (sect_protect 0 s f l) = 0 -> open (fst (sect_protect 0 s f l)) f l;
  poke_open s a l f f' : open s f f' -> open (poke s a l) f f';
  poke_content s a l : content (poke s a l) = store_list (content s) a l;
  poke_power s a l : powered (poke s a l) = powered s;
  erase_off s f l : powered s = false -> content (fst (sect_erase s f l)) = content s;
  erase_power s f l : powered s = false -> powered (fst (sect_erase s f l)) = false;
  erase_bytes s f l x : is_byte (content s x) -> is_byte (content (fst (sect_erase s f l)) x);
  erase_outside s f l x : writable f l -> ~ (f <= x <= l) -> content (fst (sect_erase s f l)) x = content s x;
  erase_inside s f l x : writable f l -> open s f l -> f <= x <= l -> snd (sect_erase s f l) = 0 ->
    powered (fst (sect_erase s f l)) = true -> content (fst (sect_erase s f l)) x = 255;
  write_off s src a n : powered s = false -> content (fst (flash_write s src a n)) = content s;
  write_power s src a n : powered s = false -> powered (fst (flash_write s src a n)) = false;
  write_bytes s src a n x : (forall y, is_byte (content s y)) -> is_byte (content (fst (flash_write s src a n)) x);
  write_outside s src a n x : writable a (a + n - 1) -> 0 < n -> ~ (a <= x < a + n) ->
    content (fst (flash_write s src a n)) x = content s x;
  write_inside s src a n i : writable a (a + n - 1) -> 0 < n -> 0 <= src -> src + n <= 2 ^ 32 -> src + n <= a \/ a + n <= src ->
    snd (flash_write s src a n) = 0 -> powered (fst (flash_write s src a n)) = true -> 0 <= i < n ->
    content (fst (flash_write s src a n)) (a + i) = content s (src + i);
  write_byte s src a : writable a a -> 0 <= src < 2 ^ 32 -> src <> a ->
    mixed (content s a) (content s src) (content (fst (flash_write s src a 1)) a) }.

(** ** State *)

Definition ACTIVE_FLAG : Z := 1.
Definition OBSOLETE_FLAG : Z := 0.

(** From active to obsolete is one bit; from erased to active the lowest bit stays set. *)
Lemma mixed_obsolete v : mixed ACTIVE_FLAG OBSOLETE_FLAG v -> v = ACTIVE_FLAG \/ v = OBSOLETE_FLAG.
Proof.
  intros H. assert (Hs : forall i, i <> 0 -> 0 <= i -> Z.testbit v i = false).
  { intros i Hne Hi. assert (E : Z.testbit ACTIVE_FLAG i = false) by (apply Z.bits_above_log2; unfold ACTIVE_FLAG; cbn; lia).
    destruct (H i Hi) as [-> | ->]; [done|apply Z.bits_0]. }
  destruct (Z.testbit v 0) eqn:E0; [left|right]; apply Z.bits_inj'; intros i Hi; (destruct (Z.eq_dec i 0) as [->|Hne];
    [by rewrite E0|rewrite (Hs i Hne Hi); symmetry; apply Z.bits_above_log2; unfold ACTIVE_FLAG, OBSOLETE_FLAG; cbn; lia]).
Qed.

Lemma mixed_active f v : Z.land f ACTIVE_FLAG = ACTIVE_FLAG -> mixed f ACTIVE_FLAG v -> Z.land v ACTIVE_FLAG = ACTIVE_FLAG.
Proof.
  change ACTIVE_FLAG with (Z.ones 1) at 1 2 4 5. rewrite !Z.land_ones by lia. rewrite <- !Z.bit0_mod. intros Hf H.
  assert (E : Z.testbit f 0 = true) by by destruct (Z.testbit f 0).
  assert (Ev : Z.testbit v 0 = true) by by destruct (H 0 ltac:(done)) as [-> | ->]. by rewrite Ev.
Qed.

(** The configuration and the places of the objects in RAM: the copy of the environment, two flags on the stack. *)
Record config : Type := Config {
  big_endian : bool; CONFIG_ENV_ADDR : Z; CONFIG_ENV_ADDR_REDUND : Z; CONFIG_ENV_SECT_SIZE : Z; CONFIG_ENV_SIZE : Z;
  env_ptr : Z; default_at : Z; default_environment : list Z; flag_at : Z; new_flag_at : Z }.

(** [env_t]: the checksum, the flags and the data. *)
Definition ENV_SIZE (cfg : config) : Z := CONFIG_ENV_SIZE cfg - 5.
Definition crc_of (cfg : config) (m : mem) (e : Z) : Z := load32 (big_endian cfg) m e.
Definition flags_of (m : mem) (e : Z) : Z := m (e + 4).
Definition data_at (e : Z) : Z := e + 5.
Definition crc_ok (cfg : config) (m : mem) (e : Z) : bool :=
  crc32 (big_endian cfg) m 0 (data_at e) (ENV_SIZE cfg) =? crc_of cfg m e.

Section Env.
Context {W : Type} {F : Flash_layer W}.

(** The statics and the two fields of [gd]; what [gd->env_addr] is when nothing has set it is zero. *)
Record state : Type := State {
  layer : W; flash_addr : Z; flash_addr_new : Z; end_addr : Z; end_addr_new : Z; env_addr : Z; env_valid : Z }.

Definition set_layer (s : W) (st : state) : state :=
  State s (flash_addr st) (flash_addr_new st) (end_addr st) (end_addr_new st) (env_addr st) (env_valid st).
Definition set_gd (a v : Z) (st : state) : state :=
  State (layer st) (flash_addr st) (flash_addr_new st) (end_addr st) (end_addr_new st) a v.
Definition set_valid (v : Z) (st : state) : state := set_gd (env_addr st) v st.
Definition swap (st : state) : state :=
  State (layer st) (flash_addr_new st) (flash_addr st) (end_addr_new st) (end_addr st) (env_addr st) (env_valid st).

(** The state in which the program starts. *)
Definition reset (cfg : config) (s : W) : state :=
  State s (CONFIG_ENV_ADDR cfg) (CONFIG_ENV_ADDR_REDUND cfg) (CONFIG_ENV_ADDR cfg + CONFIG_ENV_SECT_SIZE cfg - 1)
    (CONFIG_ENV_ADDR_REDUND cfg + CONFIG_ENV_SECT_SIZE cfg - 1) 0 0.

(** ** Two copies *)

(** The flags of a copy are written from a local variable; the results are not looked at. *)
Definition write_flag (cfg : config) (s : W) (e e_end v : Z) : W :=
  let s := poke s (flag_at cfg) [v] in
  let '(s, _) := sect_protect 0 s e e_end in
  let '(s, _) := flash_write s (flag_at cfg) (e + 4) 1 in
  let '(s, _) := sect_protect 1 s e e_end in
  s.

Definition env_init (cfg : config) (st : state) : state :=
  let m := content (layer st) in
  let a1 := flash_addr st in
  let a2 := flash_addr_new st in
  let flag1 := flags_of m a1 in
  let flag2 := flags_of m a2 in
  let crc1_ok := crc_ok cfg m a1 in
  let crc2_ok := crc_ok cfg m a2 in
  if crc1_ok && negb crc2_ok then set_gd (data_at a1) 1 st
  else if negb crc1_ok && crc2_ok then set_gd (data_at a2) 1 st
  else if negb crc1_ok && negb crc2_ok then set_gd (default_at cfg) 0 st
  else if (flag1 =? ACTIVE_FLAG) && (flag2 =? OBSOLETE_FLAG) then set_gd (data_at a1) 1 st
  else if (flag1 =? OBSOLETE_FLAG) && (flag2 =? ACTIVE_FLAG) then set_gd (data_at a2) 1 st
  else if flag1 =? flag2 then set_gd (data_at a1) 2 st
  else if flag1 =? 0xFF then set_gd (data_at a1) 2 st
  else if flag2 =? 0xFF then set_gd (data_at a2) 2 st
  else st.

(** [if ((rc = flash_write(...)) || ...)]: the calls are made while they succeed. *)
Fixpoint writes (l : list (W -> W * Z)) (s : W) : W * Z :=
  match l with
  | [] => (s, 0)
  | f :: l => let '(s, rc) := f s in if rc =? 0 then writes l s else (s, rc)
  end.

(** From the label [Done] on, but for [free]. *)
Definition Done (st : state) (rc : Z) : state * Z :=
  let '(s, _) := sect_protect 1 (layer st) (flash_addr st) (end_addr st) in
  let '(s, _) := sect_protect 1 s (flash_addr_new st) (end_addr_new st) in
  (set_layer s st, rc).

(** [saveenv]; [saved] is what [malloc] gives for the rest of the sector. *)
Definition saveenv (cfg : config) (saved : option Z) (st : state) : state * Z :=
  let e := env_ptr cfg in
  let a := flash_addr st in
  let b := flash_addr_new st in
  let s := poke (poke (layer st) (flag_at cfg) [OBSOLETE_FLAG]) (new_flag_at cfg) [ACTIVE_FLAG] in
  let '(s, r) := sect_protect 0 s a (end_addr st) in
  if negb (r =? 0) then Done (set_layer s st) 1
  else
    let '(s, r) := sect_protect 0 s b (end_addr_new st) in
    if negb (r =? 0) then Done (set_layer s st) 1
    else
      let up_data := u32 (end_addr_new st + 1 - (b + CONFIG_ENV_SIZE cfg)) in
      match (if up_data =? 0 then Some 0 else saved) with
      | None => Done (set_layer s st) 1
      | Some p =>
        let s := poke s p (mem_list (content s) (b + CONFIG_ENV_SIZE cfg) (Z.to_nat up_data)) in
        let '(s, r) := sect_erase s b (end_addr_new st) in
        if negb (r =? 0) then Done (set_layer s st) 1
        else
          let '(s, rc) := writes
            [fun s => flash_write s (data_at e) (data_at b) (ENV_SIZE cfg); fun s => flash_write s e b 4;
             fun s => flash_write s (flag_at cfg) (a + 4) 1; fun s => flash_write s (new_flag_at cfg) (b + 4) 1] s in
          if negb (rc =? 0) then Done (set_layer s st) rc
          else
            let '(s, r) := if up_data =? 0 then (s, 0) else flash_write s p (b + CONFIG_ENV_SIZE cfg) up_data in
            if negb (r =? 0) then Done (set_layer s st) rc else Done (swap (set_layer s st)) 0
      end.

Definition env_relocate_spec (cfg : config) (st : state) : state :=
  let st := if env_addr st =? data_at (flash_addr st) then st else swap st in
  let m := content (layer st) in
  let st :=
    if negb (flags_of m (flash_addr_new st) =? OBSOLETE_FLAG) && crc_ok cfg m (flash_addr_new st) then
      set_layer (write_flag cfg (layer st) (flash_addr_new st) (end_addr_new st) OBSOLETE_FLAG) (set_valid 2 st)
    else st in
  let flags := flags_of (content (layer st)) (flash_addr st) in
  let st :=
    if negb (flags =? ACTIVE_FLAG) && (Z.land flags ACTIVE_FLAG =? ACTIVE_FLAG) then
      set_layer (write_flag cfg (layer st) (flash_addr st) (end_addr st) ACTIVE_FLAG) (set_valid 2 st)
    else st in
  let s := layer st in
  set_layer (poke s (env_ptr cfg) (mem_list (content s) (flash_addr st) (Z.to_nat (CONFIG_ENV_SIZE cfg)))) st.

(** ** [env_common.c] *)

Definition word32 (be : bool) (v : Z) : list Z :=
  let l := [u8 v; u8 (Z.shiftr v 8); u8 (Z.shiftr v 16); u8 (Z.shiftr v 24)] in if be then rev l else l.

(** [set_default_env]; [env_crc_update] is its last step but one. *)
Definition set_default_env (cfg : config) (st : state) : state :=
  if ENV_SIZE cfg <? Z.of_nat (length (default_environment cfg)) then st
  else
    let e := env_ptr cfg in
    let s := poke (layer st) e (repeat 0 (Z.to_nat (CONFIG_ENV_SIZE cfg))) in
    let s := poke s (data_at e) (default_environment cfg) in
    let s := poke s (e + 4) [0xFF] in
    let c := crc32 (big_endian cfg) (content s) 0 (data_at e) (ENV_SIZE cfg) in
    set_valid 1 (set_layer (poke s e (word32 (big_endian cfg) c)) st).

Definition env_relocate (cfg : config) (st : state) : state :=
  let st := if env_valid st =? 0 then set_default_env cfg st else env_relocate_spec cfg st in
  set_gd (data_at (env_ptr cfg)) (env_valid st) st.

(** The start of the program, as far as the environment goes. *)
Definition boot (cfg : config) (s : W) : state := env_relocate cfg (env_init cfg (reset cfg s)).
End Env.

(** ** Copies *)

Section Copies.
Context (cfg : config).

(** The copy at [e] is whole and holds [D]. *)
Definition copy (m : mem) (e : Z) (D : list Z) : Prop :=
  crc_ok cfg m e = true /\ mem_list m (data_at e) (Z.to_nat (ENV_SIZE cfg)) = D.

Definition bytes (m : mem) : Prop := forall x, is_byte (m x).

(** The two memories have the same checksum and the same data there; the flags may differ. *)
Definition same (m k : mem) (e : Z) : Prop := forall x, e <= x < e + CONFIG_ENV_SIZE cfg -> x <> e + 4 -> m x = k x.

Lemma crc_ok_move m k e e' : 5 <= CONFIG_ENV_SIZE cfg -> bytes m -> bytes k ->
  (forall i, 0 <= i < CONFIG_ENV_SIZE cfg -> i <> 4 -> m (e + i) = k (e' + i)) -> crc_ok cfg m e = crc_ok cfg k e'.
Proof using.
  intros Hs Hm Hk H. unfold crc_ok, crc_of, data_at, ENV_SIZE. f_equal.
  - apply crc32_bytes; try done; [lia|]. intros i Hi. rewrite <- !Z.add_assoc. apply H; lia.
  - pose proof (H 0 ltac:(lia) ltac:(lia)) as H0. rewrite !Z.add_0_r in H0.
    unfold load32. by rewrite H0, (H 1), (H 2), (H 3) by lia.
Qed.

Lemma crc_ok_same m k e : 5 <= CONFIG_ENV_SIZE cfg -> bytes m -> bytes k -> same m k e -> crc_ok cfg m e = crc_ok cfg k e.
Proof using. intros Hs Hm Hk H. apply crc_ok_move; try done. intros i Hi Hi4. apply H; lia. Qed.

Lemma copy_same m k e D : 5 <= CONFIG_ENV_SIZE cfg -> bytes m -> bytes k -> same m k e -> copy k e D -> copy m e D.
Proof using.
  intros Hs Hm Hk H [H1 H2]. split; [by rewrite (crc_ok_same m k)|]. rewrite <- H2. apply mem_list_ext.
  unfold data_at, ENV_SIZE. intros i Hi. apply H; lia.
Qed.

(** [cur] holds [D], and its flags and those of the other copy are as the program writes them, [cur]'s perhaps not yet
    to their end. *)
Definition found (m : mem) (cur oth : Z) (D : list Z) : Prop :=
  copy m cur D /\ Z.land (flags_of m cur) ACTIVE_FLAG = ACTIVE_FLAG /\
  (crc_ok cfg m oth = true ->
    flags_of m oth = OBSOLETE_FLAG \/ flags_of m cur = 0xFF /\ flags_of m oth = ACTIVE_FLAG).

(** Both copies are whole, and the flags of [cur] were cut off in the middle of their byte. *)
Definition torn (m : mem) (cur oth : Z) : bool :=
  crc_ok cfg m cur && crc_ok cfg m oth && (flags_of m oth =? OBSOLETE_FLAG) &&
  (Z.land (flags_of m cur) ACTIVE_FLAG =? ACTIVE_FLAG) && negb (flags_of m cur =? ACTIVE_FLAG) && negb (flags_of m cur =? 0xFF).

(** Both copies, as [env_init] sees them: [cur] is chosen and holds [D]. *)
Definition picks (m : mem) (cur oth : Z) (D : list Z) : Prop := found m cur oth D /\ torn m cur oth = false.

Lemma torn_ext m k cur oth : crc_ok cfg k cur = crc_ok cfg m cur -> crc_ok cfg k oth = crc_ok cfg m oth ->
  flags_of k cur = flags_of m cur -> flags_of k oth = flags_of m oth -> torn k cur oth = torn m cur oth.
Proof using. intros H1 H2 H3 H4. unfold torn. by rewrite H1, H2, H3, H4. Qed.

Lemma torn_flags m cur oth : torn m cur oth = true -> flags_of m oth = OBSOLETE_FLAG.
Proof using.
  unfold torn. intros H. repeat (apply andb_true_iff in H; destruct H as [H ?]). by apply Z.eqb_eq.
Qed.

(** What the start leaves and [saveenv] starts from. *)
Definition settled (m : mem) (cur oth : Z) (D : list Z) : Prop :=
  copy m cur D /\ flags_of m cur = ACTIVE_FLAG /\ (crc_ok cfg m oth = true -> flags_of m oth = OBSOLETE_FLAG).

Lemma active_picks m cur oth D : flags_of m cur = ACTIVE_FLAG -> found m cur oth D -> picks m cur oth D.
Proof using. intros E H. split; [done|]. unfold torn. rewrite E. cbn [negb Z.eqb Pos.eqb ACTIVE_FLAG]. by rewrite !andb_false_r. Qed.

Lemma settled_picks m cur oth D : settled m cur oth D -> picks m cur oth D.
Proof using.
  intros (H1 & H2 & H3). apply active_picks; [done|]. split; [done|]. split; [by rewrite H2|]. intros H. left. by apply H3.
Qed.
End Copies.

Record layout {W} {F : Flash_layer W} (cfg : config) : Prop := Layout {
  lo_size : 5 < CONFIG_ENV_SIZE cfg <= CONFIG_ENV_SECT_SIZE cfg;
  lo_1 : writable (CONFIG_ENV_ADDR cfg) (CONFIG_ENV_ADDR cfg + CONFIG_ENV_SECT_SIZE cfg - 1);
  lo_2 : writable (CONFIG_ENV_ADDR_REDUND cfg) (CONFIG_ENV_ADDR_REDUND cfg + CONFIG_ENV_SECT_SIZE cfg - 1);
  lo_apart : CONFIG_ENV_ADDR cfg + CONFIG_ENV_SECT_SIZE cfg <= CONFIG_ENV_ADDR_REDUND cfg \/
    CONFIG_ENV_ADDR_REDUND cfg + CONFIG_ENV_SECT_SIZE cfg <= CONFIG_ENV_ADDR cfg;
  lo_top : CONFIG_ENV_ADDR cfg + CONFIG_ENV_SECT_SIZE cfg <= 2 ^ 32 /\ CONFIG_ENV_ADDR_REDUND cfg + CONFIG_ENV_SECT_SIZE cfg <= 2 ^ 32;
  lo_low : 0 <= CONFIG_ENV_ADDR cfg /\ 0 <= CONFIG_ENV_ADDR_REDUND cfg }.

(** An object in RAM, away from both sectors. *)
Definition in_ram (cfg : config) (a n : Z) : Prop :=
  0 <= a /\ a + n <= 2 ^ 32 /\
  (a + n <= CONFIG_ENV_ADDR cfg \/ CONFIG_ENV_ADDR cfg + CONFIG_ENV_SECT_SIZE cfg <= a) /\
  (a + n <= CONFIG_ENV_ADDR_REDUND cfg \/ CONFIG_ENV_ADDR_REDUND cfg + CONFIG_ENV_SECT_SIZE cfg <= a).

Record objects (cfg : config) : Prop := Objects {
  ob_env : in_ram cfg (env_ptr cfg) (CONFIG_ENV_SIZE cfg); ob_flag : in_ram cfg (flag_at cfg) 1;
  ob_new : in_ram cfg (new_flag_at cfg) 1;
  ob_flag_env : flag_at cfg < env_ptr cfg \/ env_ptr cfg + CONFIG_ENV_SIZE cfg <= flag_at cfg;
  ob_new_env : new_flag_at cfg < env_ptr cfg \/ env_ptr cfg + CONFIG_ENV_SIZE cfg <= new_flag_at cfg;
  ob_flags : flag_at cfg <> new_flag_at cfg }.

(** The two copies, in one order or the other. *)
Definition copies (cfg : config) (cur oth : Z) : Prop :=
  cur = CONFIG_ENV_ADDR cfg /\ oth = CONFIG_ENV_ADDR_REDUND cfg \/ cur = CONFIG_ENV_ADDR_REDUND cfg /\ oth = CONFIG_ENV_ADDR cfg.

(** ** The start *)

Section Start.
Context {W : Type} {F : Flash_layer W} (cfg : config) (L : layout cfg) (O : objects cfg).

(** Where no power fails, bits of a flag can be cleared after its sector is unprotected. *)
Definition flags_writable : Prop := forall s e,
  e = CONFIG_ENV_ADDR cfg \/ e = CONFIG_ENV_ADDR_REDUND cfg ->
  Z.land (content s (e + 4)) (content s (flag_at cfg)) = content s (flag_at cfg) ->
  let s := fst (sect_protect 0 s e (e + CONFIG_ENV_SECT_SIZE cfg - 1)) in
  powered (fst (flash_write s (flag_at cfg) (e + 4) 1)) = true -> snd (flash_write s (flag_at cfg) (e + 4) 1) = 0.

Lemma copies_or cur oth : copies cfg cur oth ->
  (cur = CONFIG_ENV_ADDR cfg \/ cur = CONFIG_ENV_ADDR_REDUND cfg) /\ (oth = CONFIG_ENV_ADDR cfg \/ oth = CONFIG_ENV_ADDR_REDUND cfg).
Proof using. intros [[-> ->]|[-> ->]]; split; by (left + right). Qed.

Lemma one_of e : e = CONFIG_ENV_ADDR cfg \/ e = CONFIG_ENV_ADDR_REDUND cfg ->
  writable e (e + CONFIG_ENV_SECT_SIZE cfg - 1) /\ 0 <= e /\ e + CONFIG_ENV_SECT_SIZE cfg <= 2 ^ 32 /\
  forall a n, in_ram cfg a n -> a + n <= e \/ e + CONFIG_ENV_SECT_SIZE cfg <= a.
Proof using L.
  destruct L as [_ L1 L2 _ [T1 T2] [B1 B2]]. intros [-> | ->]; (split; [done|]; split; [done|]; split; [done|]); intros a n (_ & _ & Ha & Hb); done.
Qed.

Lemma apart cur oth : copies cfg cur oth -> cur + CONFIG_ENV_SECT_SIZE cfg <= oth \/ oth + CONFIG_ENV_SECT_SIZE cfg <= cur.
Proof using L. pose proof (lo_apart cfg L). intros [[-> ->]|[-> ->]]; lia. Qed.

Lemma write_flag_spec s e v :
  e = CONFIG_ENV_ADDR cfg \/ e = CONFIG_ENV_ADDR_REDUND cfg -> bytes (content s) -> is_byte v ->
  let s' := write_flag cfg s e (e + CONFIG_ENV_SECT_SIZE cfg - 1) v in
  bytes (content s') /\ (forall x, x <> flag_at cfg -> x <> e + 4 -> content s' x = content s x) /\
  mixed (content s (e + 4)) v (content s' (e + 4)) /\
  (powered s' = true -> powered s = true /\ (flags_writable -> Z.land (content s (e + 4)) v = v -> content s' (e + 4) = v)) /\
  (powered s = false -> content s' (e + 4) = content s (e + 4)).
Proof using L O.
  intros He Hb Hv. destruct (one_of e He) as (Hw & He0 & Htop & Hram). pose proof (lo_size cfg L) as Hsz.
  pose proof (Hram _ _ (ob_flag cfg O)) as Hflag. destruct (ob_flag cfg O) as (Hf0 & Hf1 & _).
  assert (Hwr : writable (e + 4) (e + 4)) by (apply (writable_part _ _ (e + 4) (e + 4) Hw); lia).
  assert (Hwr1 : writable (e + 4) (e + 4 + 1 - 1)) by by replace (e + 4 + 1 - 1) with (e + 4) by lia.
  unfold write_flag. set (s1 := poke s _ _).
  assert (C1 : forall x, content s1 x = if x =? flag_at cfg then v else content s x).
  { intros x. unfold s1. rewrite poke_content. cbn [store_list]. unfold upd. done. }
  pose proof (protect_same 0 s1 e (e + CONFIG_ENV_SECT_SIZE cfg - 1)) as C2.
  pose proof (protect_power 0 s1 e (e + CONFIG_ENV_SECT_SIZE cfg - 1)) as P2.
  assert (Fw : flags_writable -> Z.land (content s1 (e + 4)) (content s1 (flag_at cfg)) = content s1 (flag_at cfg) -> let s := fst (sect_protect 0 s1 e (e + CONFIG_ENV_SECT_SIZE cfg - 1)) in
    powered (fst (flash_write s (flag_at cfg) (e + 4) 1)) = true -> snd (flash_write s (flag_at cfg) (e + 4) 1) = 0)
    by (intros H Hl; by apply H).
  destruct (sect_protect 0 s1 _ _) as [s2 r2]. cbn [fst] in C2, P2, Fw.
  assert (B2 : bytes (content s2)). { intros x. rewrite C2, C1. by destruct (x =? _). }
  pose proof (write_byte s2 (flag_at cfg) (e + 4) Hwr ltac:(lia) ltac:(lia)) as W1.
  pose proof (fun x => write_outside s2 (flag_at cfg) (e + 4) 1 x Hwr1 ltac:(lia)) as W2.
  pose proof (fun x => write_bytes s2 (flag_at cfg) (e + 4) 1 x B2) as W3.
  pose proof (write_inside s2 (flag_at cfg) (e + 4) 1 0 Hwr1 ltac:(lia) ltac:(lia) ltac:(lia) ltac:(lia)) as W4.
  pose proof (write_power s2 (flag_at cfg) (e + 4) 1) as W5. pose proof (write_off s2 (flag_at cfg) (e + 4) 1) as W6.
  destruct (flash_write s2 _ _ _) as [s3 r3]. cbn [fst snd] in *.
  pose proof (protect_same 1 s3 e (e + CONFIG_ENV_SECT_SIZE cfg - 1)) as C4.
  pose proof (protect_power 1 s3 e (e + CONFIG_ENV_SECT_SIZE cfg - 1)) as P4.
  destruct (sect_protect 1 s3 _ _) as [s4 r4]. cbn [fst] in C4, P4. cbv zeta.
  assert (Hold : content s2 (e + 4) = content s (e + 4)).
  { rewrite C2, C1. by rewrite (proj2 (Z.eqb_neq (e + 4) (flag_at cfg))) by lia. }
  assert (Hnew : content s2 (flag_at cfg) = v) by (rewrite C2, C1; by rewrite Z.eqb_refl).
  rewrite Hold, Hnew in W1. rewrite C4. split; [done|]. split; [|split; [done|]].
  - intros x Hx1 Hx2. rewrite W2, C2, C1 by lia. by rewrite (proj2 (Z.eqb_neq x (flag_at cfg))) by done.
  - split; [|intros Hp; rewrite W6; [done|]; rewrite P2; unfold s1; by rewrite poke_power].
    intros Hp. rewrite P4 in Hp. split.
    + destruct (powered s) eqn:E; [done|]. rewrite W5 in Hp; [done|]. rewrite P2. unfold s1. by rewrite poke_power.
    + intros H Hl. rewrite !Z.add_0_r in W4. rewrite <- Hnew. apply W4; [apply Fw; [done| |done]|done|lia].
      by rewrite <- C2, Hold, Hnew.
Qed.

Lemma env_init_picks m cur oth D (st : state) :
  copies cfg cur oth -> content (layer st) = m -> flash_addr st = CONFIG_ENV_ADDR cfg ->
  flash_addr_new st = CONFIG_ENV_ADDR_REDUND cfg -> picks cfg m cur oth D ->
  exists v, v <> 0 /\ env_init cfg st = set_gd (data_at cur) v st.
Proof using L.
  intros Hc Hm H1 H2 [((Hv & _) & Hf & Ho) Ht]. unfold env_init. rewrite Hm, H1, H2.
  assert (Hp : crc_ok cfg m oth = true -> (flags_of m cur = 1 \/ flags_of m cur = 255) /\ flags_of m oth = 0 \/
    flags_of m cur = 255 /\ flags_of m oth = 1).
  { intros E. destruct (Ho E) as [Hx|Hx]; [left; split; [|done]|by right]. unfold torn in Ht. rewrite Hv, E, Hx, Hf in Ht.
    apply andb_false_iff in Ht as [Ht|Ht]; [left|right]; by apply negb_false_iff, Z.eqb_eq in Ht. }
  clear Hf Ho Ht. destruct Hc as [[-> ->]|[-> ->]]; rewrite Hv; destruct (crc_ok cfg m _) eqn:E; cbn [negb andb];
    try (eexists; split; [|reflexivity]; done);
    (destruct (Hp eq_refl) as [[[-> | ->] ->]|[-> ->]]; eexists; (split; [|reflexivity]); done).
Qed.

(** A flag of one copy is written: what that does to both. *)
Lemma flag_written cur oth e v s D :
  copies cfg cur oth -> e = cur \/ e = oth -> bytes (content s) -> is_byte v -> copy cfg (content s) cur D ->
  let s' := write_flag cfg s e (e + CONFIG_ENV_SECT_SIZE cfg - 1) v in
  bytes (content s') /\ copy cfg (content s') cur D /\ crc_ok cfg (content s') oth = crc_ok cfg (content s) oth /\
  (forall e', e' = cur \/ e' = oth -> e' <> e -> flags_of (content s') e' = flags_of (content s) e') /\
  mixed (flags_of (content s) e) v (flags_of (content s') e) /\
  (powered s' = true -> powered s = true /\ (flags_writable -> Z.land (flags_of (content s) e) v = v -> flags_of (content s') e = v)) /\
  (powered s = false -> flags_of (content s') e = flags_of (content s) e).
Proof using L O.
  intros Hc He Hb Hv Hcopy s'. pose proof (copies_or _ _ Hc) as [Hcur Hoth]. pose proof (apart _ _ Hc) as Hap.
  pose proof (lo_size cfg L) as Hsz.
  destruct (write_flag_spec s e v ltac:(by destruct He as [-> | ->]) Hb Hv) as (H1 & H2 & H3 & H4 & H5). fold s' in H1, H2, H3, H4, H5.
  assert (Hsame : forall e', e' = cur \/ e' = oth -> same cfg (content s') (content s) e').
  { intros e' He' x Hx Hx4. destruct (one_of e' ltac:(by destruct He' as [-> | ->])) as (_ & _ & _ & Hram).
    pose proof (Hram _ _ (ob_flag cfg O)). apply H2; [lia|]. destruct He as [-> | ->], He' as [-> | ->]; lia. }
  split; [done|]. split; [apply (copy_same cfg _ (content s)); try done; [lia|apply Hsame; by left]|].
  split; [apply crc_ok_same; try done; [lia|apply Hsame; by right]|].
  split; [|split; [done|split; done]]. intros e' He' Hne. unfold flags_of.
  destruct (one_of e' ltac:(by destruct He' as [-> | ->])) as (_ & _ & _ & Hram). pose proof (Hram _ _ (ob_flag cfg O)). apply H2; lia.
Qed.

Lemma poke_copies cur oth s a l D :
  copies cfg cur oth -> in_ram cfg a (Z.of_nat (length l)) -> bytes (content s) -> Forall is_byte l ->
  bytes (content (poke s a l)) /\ (forall e, e = cur \/ e = oth -> forall x, e <= x < e + CONFIG_ENV_SECT_SIZE cfg ->
    content (poke s a l) x = content s x) /\
  (found cfg (content s) cur oth D -> found cfg (content (poke s a l)) cur oth D) /\
  torn cfg (content (poke s a l)) cur oth = torn cfg (content s) cur oth /\
  (settled cfg (content s) cur oth D -> settled cfg (content (poke s a l)) cur oth D).
Proof using L.
  intros Hc Ha Hb Hl. pose proof (copies_or _ _ Hc) as [Hcur Hoth]. pose proof (lo_size cfg L) as Hsz.
  assert (B : bytes (content (poke s a l))).
  { intros x. rewrite poke_content. by apply store_bytes. }
  assert (S : forall e, e = cur \/ e = oth -> forall x, e <= x < e + CONFIG_ENV_SECT_SIZE cfg -> content (poke s a l) x = content s x).
  { intros e He x Hx. destruct (one_of e ltac:(by destruct He as [-> | ->])) as (_ & _ & _ & Hram). pose proof (Hram _ _ Ha).
    rewrite poke_content. apply store_list_out. lia. }
  assert (S' : forall e, e = cur \/ e = oth -> same cfg (content (poke s a l)) (content s) e).
  { intros e He x Hx _. apply (S e He). lia. }
  assert (Fl : forall e, e = cur \/ e = oth -> flags_of (content (poke s a l)) e = flags_of (content s) e).
  { intros e He. apply (S e He). lia. }
  assert (Cr : forall e, e = cur \/ e = oth -> crc_ok cfg (content (poke s a l)) e = crc_ok cfg (content s) e).
  { intros e He. apply crc_ok_same; try done; [lia|]. by apply S'. }
  split; [done|]. split; [done|]. split; [|split; [apply torn_ext; (apply Cr + apply Fl); by (left + right)|]];
    intros (H1 & H2 & H3); (split; [apply (copy_same cfg _ (content s)); try done; [lia|]; apply S'; by left|]);
    rewrite !Fl, Cr by (by left + by right); done.
Qed.

(** The flags after a start. *)
Lemma relocate_flags cur oth D (st : state) :
  copies cfg cur oth -> flash_addr st = cur -> flash_addr_new st = oth -> env_addr st = data_at cur ->
  end_addr st = cur + CONFIG_ENV_SECT_SIZE cfg - 1 -> end_addr_new st = oth + CONFIG_ENV_SECT_SIZE cfg - 1 ->
  bytes (content (layer st)) -> found cfg (content (layer st)) cur oth D -> flags_writable -> env_valid st <> 0 ->
  exists s v, v <> 0 /\
    env_relocate_spec cfg st = set_layer (poke s (env_ptr cfg) (mem_list (content s) cur (Z.to_nat (CONFIG_ENV_SIZE cfg)))) (set_valid v st) /\
    bytes (content s) /\ found cfg (content s) cur oth D /\ (powered s = true -> settled cfg (content s) cur oth D).
Proof using L O.
  intros Hc H1 H2 H3 H4 H5 Hb (P1 & P2 & P3) Hwr Hv. pose proof (apart _ _ Hc) as Hap. pose proof (lo_size cfg L) as Hsz.
  unfold env_relocate_spec. rewrite H1, H3, Z.eqb_refl, H2. set (s0 := layer st) in *.
  set (st1 := if _ && crc_ok cfg _ oth then _ else st).
  assert (A : exists s1 v1, v1 <> 0 /\ st1 = set_layer s1 (set_valid v1 st) /\ bytes (content s1) /\ copy cfg (content s1) cur D /\
    flags_of (content s1) cur = flags_of (content s0) cur /\
    (crc_ok cfg (content s1) oth = true -> flags_of (content s1) oth = OBSOLETE_FLAG \/
       powered s1 = false /\ flags_of (content s0) cur = 0xFF /\ flags_of (content s1) oth = ACTIVE_FLAG)).
  { unfold st1. destruct (negb _ && _) eqn:E.
    - apply andb_true_iff in E as [E1 E2]. destruct (P3 E2) as [Hx|[Hx Hy]]; [by rewrite Hx in E1|].
      rewrite H5. destruct (flag_written cur oth oth OBSOLETE_FLAG s0 D Hc ltac:(by right) Hb ltac:(done) P1) as (F1 & F2 & F3 & F4 & F5 & F6 & _).
      set (s1 := write_flag cfg s0 oth (oth + CONFIG_ENV_SECT_SIZE cfg - 1) OBSOLETE_FLAG) in *. exists s1, 2. split; [done|]. split; [done|]. split; [done|]. split; [done|].
      split; [apply F4; [by left|lia]|]. intros _. destruct (powered s1) eqn:Ep; [left; apply F6; [done|done|apply Z.land_0_r]|].
      rewrite Hy in F5. destruct (mixed_obsolete _ F5) as [E5|E5]; [by right|by left].
    - exists s0, (env_valid st). split; [done|]. split; [by destruct st|]. split; [done|]. split; [done|]. split; [done|].
      intros E2. left. rewrite E2, andb_true_r in E. by apply negb_false_iff, Z.eqb_eq in E. }
  destruct A as (s1 & v1 & Hv1 & E1 & B1 & C1 & F1 & G1). clearbody st1. subst st1. cbn [set_layer set_valid set_gd layer flash_addr end_addr].
  rewrite H1, F1, P2, Z.eqb_refl, andb_true_r. destruct (Z.eqb_spec (flags_of (content s0) cur) ACTIVE_FLAG) as [E|E]; cbn [negb].
  - exists s1, v1. split; [done|].
    split; [cbn [set_layer set_valid set_gd layer flash_addr]; by rewrite H1|]. split; [done|].
    assert (S : settled cfg (content s1) cur oth D).
    { split; [done|]. split; [by rewrite F1|]. intros E2. destruct (G1 E2) as [?|(_ & Hx & _)]; [done|]. by rewrite E in Hx. }
    split; [by apply settled_picks|done].
  - rewrite H4.
    destruct (flag_written cur oth cur ACTIVE_FLAG s1 D Hc ltac:(by left) B1 ltac:(done) C1) as (K1 & K2 & K3 & K4 & K5 & K6 & K7).
    set (s2 := write_flag cfg s1 cur (cur + CONFIG_ENV_SECT_SIZE cfg - 1) ACTIVE_FLAG) in *. exists s2, 2. split; [done|].
    split; [cbn [set_layer set_valid set_gd layer flash_addr]; by rewrite H1|]. split; [done|].
    pose proof (K4 oth ltac:(by right) ltac:(lia)) as Fo. rewrite F1 in *. split.
    + split; [done|]. split; [by apply (mixed_active _ _ P2)|]. rewrite K3, Fo. intros E2.
      destruct (G1 E2) as [?|(Hp & Hf & Hy)]; [by left|]. right. split; [|done]. by rewrite (K7 Hp).
    + intros Hp. destruct (K6 Hp) as [Hp1 Ha]. split; [done|]. split; [by apply Ha|]. rewrite K3, Fo. intros E2.
      destruct (G1 E2) as [?|(Hq & _)]; [done|]. by rewrite Hq in Hp1.
Qed.

(** The environment is loaded: in RAM there is a whole copy of [D]. *)
Record loaded (st : state) (cur oth : Z) : Prop := Loaded {
  ld_addr : flash_addr st = cur; ld_new : flash_addr_new st = oth;
  ld_end : end_addr st = cur + CONFIG_ENV_SECT_SIZE cfg - 1; ld_end_new : end_addr_new st = oth + CONFIG_ENV_SECT_SIZE cfg - 1;
  ld_env : env_addr st = data_at (env_ptr cfg); ld_valid : env_valid st <> 0; ld_bytes : bytes (content (layer st)) }.

Lemma reloaded cur oth s D : copies cfg cur oth -> bytes (content s) -> copy cfg (content s) cur D ->
  let l := mem_list (content s) cur (Z.to_nat (CONFIG_ENV_SIZE cfg)) in
  copy cfg (content (poke s (env_ptr cfg) l)) (env_ptr cfg) D /\ Forall is_byte l /\ Z.of_nat (length l) = CONFIG_ENV_SIZE cfg.
Proof using L.
  intros Hc Hb [C1 C2] l. pose proof (lo_size cfg L) as Hsz.
  assert (Hl : Z.of_nat (length l) = CONFIG_ENV_SIZE cfg) by (unfold l; rewrite mem_list_length; lia).
  assert (Hf : Forall is_byte l) by by apply mem_list_bytes.
  assert (E : forall i, 0 <= i < CONFIG_ENV_SIZE cfg -> content (poke s (env_ptr cfg) l) (env_ptr cfg + i) = content s (cur + i)).
  { intros i Hi. rewrite poke_content, store_list_in by lia. unfold l. apply rd_mem_list. lia. }
  assert (B : bytes (content (poke s (env_ptr cfg) l))) by (intros x; rewrite poke_content; by apply store_bytes).
  split; [|done]. split; [rewrite (crc_ok_move cfg _ (content s) _ cur); [done|lia|done|done|]; intros i Hi _; by apply E|].
  rewrite <- C2. unfold data_at, ENV_SIZE. apply mem_list_move. intros i Hi. rewrite <- !Z.add_assoc. apply E. lia.
Qed.

Lemma boot_picks s cur oth D :
  copies cfg cur oth -> bytes (content s) -> picks cfg (content s) cur oth D -> flags_writable ->
  let st := boot cfg s in
  loaded st cur oth /\ copy cfg (content (layer st)) (env_ptr cfg) D /\ found cfg (content (layer st)) cur oth D /\
  (powered (layer st) = true -> settled cfg (content (layer st)) cur oth D).
Proof using L O.
  intros Hc Hb P Hwr. unfold boot.
  destruct (env_init_picks (content s) cur oth D (reset cfg s) Hc eq_refl eq_refl eq_refl P) as (v & Hv & ->).
  unfold env_relocate. change (env_valid (set_gd (data_at cur) v (reset cfg s))) with v. rewrite (proj2 (Z.eqb_neq v 0)) by done.
  set (st0 := set_gd (data_at cur) v (reset cfg s)). pose proof (apart _ _ Hc) as Hap. pose proof (lo_size cfg L) as Hsz.
  set (st1 := if env_addr st0 =? data_at (flash_addr st0) then st0 else swap st0).
  assert (R : env_relocate_spec cfg st0 = env_relocate_spec cfg st1 /\ layer st1 = s /\ flash_addr st1 = cur /\ flash_addr_new st1 = oth /\
    env_addr st1 = data_at cur /\ env_valid st1 = v /\ end_addr st1 = cur + CONFIG_ENV_SECT_SIZE cfg - 1 /\
    end_addr_new st1 = oth + CONFIG_ENV_SECT_SIZE cfg - 1).
  { unfold st1. destruct (Z.eqb_spec (env_addr st0) (data_at (flash_addr st0))) as [E|E];
      cbn [st0 set_gd reset env_addr flash_addr] in E; unfold data_at in E.
    - destruct Hc as [[-> ->]|[-> ->]]; [done|lia].
    - destruct Hc as [[-> ->]|[-> ->]]; [lia|]. split; [|done]. unfold env_relocate_spec.
      cbn [st0 set_gd swap reset env_addr flash_addr layer flash_addr_new end_addr end_addr_new env_valid].
      rewrite Z.eqb_refl. by rewrite (proj2 (Z.eqb_neq (data_at (CONFIG_ENV_ADDR_REDUND cfg)) (data_at (CONFIG_ENV_ADDR cfg)))) by (unfold data_at; lia). }
  destruct R as (-> & R1 & R2 & R3 & R4 & R5 & R6 & R7). clearbody st1.
  destruct (relocate_flags cur oth D st1) as (s1 & v1 & Hv1 & -> & B1 & P1 & S1); try done; [by rewrite R1|rewrite R1; apply P|by rewrite R5|].
  destruct (reloaded cur oth s1 D Hc B1 (proj1 P1)) as (K1 & K2 & K3). pose proof (ob_env cfg O) as Hram. rewrite <- K3 in Hram.
  destruct (poke_copies cur oth s1 (env_ptr cfg) _ D Hc Hram B1 K2) as (B2 & _ & P2 & _ & S2).
  split; [by constructor|]. split; [done|]. split; [by apply P2|]. intros Hp. apply S2, S1. cbn in Hp. by rewrite poke_power in Hp.
Qed.
End Start.

(** ** Saving *)

(** A copy that was not erased or not written to its end is taken for a whole one: it passes its check, it is not marked as
    obsolete, and it is not the new environment. *)
Definition accident (cfg : config) (m : mem) (cur oth : Z) (D' : list Z) : bool :=
  (flags_of m cur =? ACTIVE_FLAG) && crc_ok cfg m oth && negb (flags_of m oth =? OBSOLETE_FLAG) &&
  negb ((flags_of m oth =? 0xFF) && bool_decide (mem_list m (data_at oth) (Z.to_nat (ENV_SIZE cfg)) = D')).

Section Save.
Context {W : Type} {F : Flash_layer W} (cfg : config) (L : layout cfg) (O : objects cfg).
Context (cur oth : Z) (Hc : copies cfg cur oth) (D D' : list Z) (m0 : mem) (up p : Z).
Context (Hup : up = CONFIG_ENV_SECT_SIZE cfg - CONFIG_ENV_SIZE cfg) (Hp : up <> 0 -> in_ram cfg p up).
Context (Hcur : copy cfg m0 cur D) (Hram : copy cfg m0 (env_ptr cfg) D') (Hm0 : bytes m0).

(** What stays as it was all the time: the copy in use but for its flags, and the objects in RAM. *)
Record steady (s : W) : Prop := Steady {
  sd_bytes : bytes (content s); sd_cur : same cfg (content s) m0 cur;
  sd_env : forall i, 0 <= i < CONFIG_ENV_SIZE cfg -> content s (env_ptr cfg + i) = m0 (env_ptr cfg + i);
  sd_flag : content s (flag_at cfg) = OBSOLETE_FLAG; sd_new : content s (new_flag_at cfg) = ACTIVE_FLAG;
  sd_saved : forall i, 0 <= i < up -> content s (p + i) = m0 (oth + CONFIG_ENV_SIZE cfg + i) }.

(** The stages: the copy in use is still active; the new one is whole; it is active, or its
    flags have been written in part. *)
Definition stage1 (s : W) : Prop := steady s /\ flags_of (content s) cur = ACTIVE_FLAG.
Definition stage2 (s : W) : Prop := steady s /\ copy cfg (content s) oth D' /\ flags_of (content s) oth = 0xFF /\
  (flags_of (content s) cur = ACTIVE_FLAG \/ flags_of (content s) cur = OBSOLETE_FLAG).
Definition stage3 (s : W) : Prop := steady s /\ copy cfg (content s) oth D' /\ flags_of (content s) cur = OBSOLETE_FLAG /\
  Z.land (flags_of (content s) oth) ACTIVE_FLAG = ACTIVE_FLAG.
Definition stage (s : W) : Prop := stage1 s \/ stage2 s \/ stage3 s.

Lemma sector e : e = cur \/ e = oth ->
  writable e (e + CONFIG_ENV_SECT_SIZE cfg - 1) /\ 0 <= e /\ e + CONFIG_ENV_SECT_SIZE cfg <= 2 ^ 32 /\
  forall a n, in_ram cfg a n -> a + n <= e \/ e + CONFIG_ENV_SECT_SIZE cfg <= a.
Proof using L Hc.
  intros He. apply (one_of cfg L). pose proof (copies_or cfg cur oth Hc) as [H1 H2]. by destruct He as [-> | ->].
Qed.

Lemma part e a n : e = cur \/ e = oth -> e <= a -> 0 < n -> a + n <= e + CONFIG_ENV_SECT_SIZE cfg -> writable a (a + n - 1).
Proof using L Hc. intros He Ha Hn Hn'. destruct (sector e He) as (Hw & _). apply (writable_part _ _ a (a + n - 1) Hw); lia. Qed.

Lemma ram_apart a n x : in_ram cfg a n -> a <= x < a + n ->
  ~ (oth <= x < oth + CONFIG_ENV_SECT_SIZE cfg) /\ ~ (cur <= x < cur + CONFIG_ENV_SECT_SIZE cfg).
Proof using L Hc.
  intros Hr Hx. destruct (sector cur ltac:(by left)) as (_ & _ & _ & R1). destruct (sector oth ltac:(by right)) as (_ & _ & _ & R2).
  pose proof (R1 _ _ Hr). pose proof (R2 _ _ Hr). lia.
Qed.

(** A change of memory that leaves the objects in RAM and the copy in use alone. *)
Lemma steady_frame s s' :
  steady s -> bytes (content s') ->
  (forall x, ~ (oth <= x < oth + CONFIG_ENV_SECT_SIZE cfg) -> x <> cur + 4 -> content s' x = content s x) -> steady s'.
Proof using L O Hc Hp Hup.
  intros [S1 S2 S3 S4 S5 S6] B H. pose proof (lo_size cfg L) as Hsz. pose proof (apart cfg L _ _ Hc) as Hap.
  assert (R : forall a n x, in_ram cfg a n -> a <= x < a + n -> content s' x = content s x).
  { intros a n x Hr Hx. destruct (ram_apart a n x Hr Hx) as [H1 H2]. apply H; [done|]. clear - H2 Hsz. lia. }
  constructor; [done| | | | |].
  - intros x Hx Hx4. rewrite H by (clear - Hx Hx4 Hap Hsz; lia). by apply S2.
  - intros i Hi. rewrite (R _ _ _ (ob_env cfg O)) by (clear - Hi; lia). by apply S3.
  - rewrite (R _ _ _ (ob_flag cfg O)) by (clear; lia). done.
  - rewrite (R _ _ _ (ob_new cfg O)) by (clear; lia). done.
  - intros i Hi. assert (Hu : up <> 0) by (clear - Hi; lia). rewrite (R _ _ _ (Hp Hu)) by (clear - Hi; lia). by apply S6.
Qed.

Lemma write_frame s src a n e :
  steady s -> e = cur \/ e = oth -> e <= a -> 0 < n -> a + n <= e + CONFIG_ENV_SECT_SIZE cfg ->
  let s' := fst (flash_write s src a n) in
  bytes (content s') /\ (forall x, ~ (a <= x < a + n) -> content s' x = content s x).
Proof using L Hc.
  intros S He Ha Hn Hn'. split.
  - intros x. apply write_bytes. apply (sd_bytes s S).
  - intros x Hx. apply write_outside; [by apply (part e)|done|done].
Qed.

(** Writing into the sector of the other copy. *)
Lemma write_oth s src a n :
  steady s -> oth <= a -> 0 < n -> a + n <= oth + CONFIG_ENV_SECT_SIZE cfg ->
  let s' := fst (flash_write s src a n) in steady s' /\ flags_of (content s') cur = flags_of (content s) cur.
Proof using L O Hc Hp Hup.
  intros S Ha Hn Hn'. destruct (write_frame s src a n oth S ltac:(by right) Ha Hn Hn') as [B H].
  pose proof (apart cfg L _ _ Hc) as Hap. pose proof (lo_size cfg L) as Hsz. split.
  - apply (steady_frame s); [done|done|]. intros x Hx _. apply H. lia.
  - unfold flags_of. apply H. lia.
Qed.

Definition erased (s : W) (i0 : Z) : Prop := forall i, i0 <= i < CONFIG_ENV_SIZE cfg -> content s (oth + i) = 255.
Definition written (s : W) (i0 : Z) : Prop :=
  forall i, i0 <= i < CONFIG_ENV_SIZE cfg -> i <> 4 -> content s (oth + i) = m0 (env_ptr cfg + i).

Lemma still_on s s' : (powered s = false -> powered s' = false) -> powered s' = true -> powered s = true.
Proof using. intros H Hp'. destruct (powered s); [done|]. by rewrite H in Hp'. Qed.

Lemma erase_step s : stage1 s -> open s oth (oth + CONFIG_ENV_SECT_SIZE cfg - 1) ->
  let '(s', rc) := sect_erase s oth (oth + CONFIG_ENV_SECT_SIZE cfg - 1) in
  stage1 s' /\ (rc = 0 -> powered s' = true -> erased s' 0).
Proof using L O Hc Hp Hup.
  intros [S Hf] Ho. destruct (sector oth ltac:(by right)) as (Hw & _). pose proof (lo_size cfg L) as Hsz.
  pose proof (apart cfg L _ _ Hc) as Hap.
  pose proof (fun x => erase_outside s _ _ x Hw) as H1. pose proof (fun x => erase_inside s _ _ x Hw Ho) as H2.
  pose proof (fun x => erase_bytes s oth (oth + CONFIG_ENV_SECT_SIZE cfg - 1) x (sd_bytes s S x)) as H3.
  destruct (sect_erase s _ _) as [s' rc]. cbn [fst snd] in *. split; [split|].
  - apply (steady_frame s); [done|done|]. intros x Hx _. apply H1. lia.
  - unfold flags_of in *. rewrite H1; [done|lia].
  - intros Hrc Hpw i Hi. apply H2; (done || lia).
Qed.

(** Into the other copy, from the copy in RAM, at the same place. *)
Lemma copy_step s i0 n : stage1 s -> 0 <= i0 -> 0 < n -> i0 + n <= CONFIG_ENV_SIZE cfg ->
  let '(s', rc) := flash_write s (env_ptr cfg + i0) (oth + i0) n in
  stage1 s' /\ (powered s' = true -> powered s = true) /\
  (forall i, 0 <= i < CONFIG_ENV_SECT_SIZE cfg -> ~ (i0 <= i < i0 + n) -> content s' (oth + i) = content s (oth + i)) /\
  (rc = 0 -> powered s' = true -> forall i, i0 <= i < i0 + n -> content s' (oth + i) = m0 (env_ptr cfg + i)).
Proof using L O Hc Hp Hup.
  intros [S Hf] Hi0 Hn Hin. pose proof (lo_size cfg L) as Hsz. destruct (sector oth ltac:(by right)) as (_ & Ho & Ht & Hr).
  pose proof (Hr _ _ (ob_env cfg O)) as Hre. destruct (ob_env cfg O) as (E1 & E2 & _).
  destruct (write_oth s (env_ptr cfg + i0) (oth + i0) n S ltac:(lia) Hn ltac:(lia)) as [S' Hf'].
  destruct (write_frame s (env_ptr cfg + i0) (oth + i0) n oth S ltac:(by right) ltac:(lia) Hn ltac:(lia)) as [_ H1].
  pose proof (write_inside s (env_ptr cfg + i0) (oth + i0) n) as H2. pose proof (write_power s (env_ptr cfg + i0) (oth + i0) n) as H3.
  destruct (flash_write s _ _ _) as [s' rc]. cbn [fst snd] in *. split; [split; [done|by rewrite Hf']|].
  split; [by apply still_on|]. split; [intros i Hi Hni; apply H1; lia|]. intros Hrc Hpw i Hi.
  replace (oth + i) with (oth + i0 + (i - i0)) by lia. rewrite H2; try done; try lia.
  - replace (env_ptr cfg + i0 + (i - i0)) with (env_ptr cfg + i) by lia. apply (sd_env s S). lia.
  - apply (part oth); [by right|lia..].
Qed.

(** The flags of the copy in use, once the new one is whole. *)
Lemma flag_step s : stage1 s -> (powered s = true -> stage2 s) ->
  let '(s', rc) := flash_write s (flag_at cfg) (cur + 4) 1 in
  (stage1 s' \/ stage2 s') /\ (rc = 0 -> powered s' = true -> stage2 s' /\ flags_of (content s') cur = OBSOLETE_FLAG).
Proof using L O Hc Hp Hup.
  intros [S Hf] H2. pose proof (lo_size cfg L) as Hsz. destruct (sector cur ltac:(by left)) as (_ & Ho & Ht & Hr).
  pose proof (apart cfg L _ _ Hc) as Hap. pose proof (Hr _ _ (ob_flag cfg O)) as Hrf. destruct (ob_flag cfg O) as (E1 & E2 & _).
  destruct (write_frame s (flag_at cfg) (cur + 4) 1 cur S ltac:(by left) ltac:(lia) ltac:(lia) ltac:(lia)) as [B1 H1].
  assert (Hw1 : writable (cur + 4) (cur + 4 + 1 - 1)) by (apply (part cur); [by left|lia..]).
  assert (Hw : writable (cur + 4) (cur + 4)) by by replace (cur + 4 + 1 - 1) with (cur + 4) in Hw1 by lia.
  pose proof (write_byte s (flag_at cfg) (cur + 4) Hw ltac:(lia) ltac:(lia)) as H3.
  pose proof (write_inside s (flag_at cfg) (cur + 4) 1 0 Hw1 ltac:(lia) ltac:(lia) ltac:(lia) ltac:(lia)) as H4.
  pose proof (write_power s (flag_at cfg) (cur + 4) 1) as H5. pose proof (write_off s (flag_at cfg) (cur + 4) 1) as H6.
  destruct (flash_write s _ _ _) as [s' rc]. cbn [fst snd] in *. rewrite (sd_flag s S) in H3.
  assert (S' : steady s'). { apply (steady_frame s); [done|done|]. intros x _ Hx. apply H1. lia. }
  rewrite !Z.add_0_r, (sd_flag s S) in H4. destruct (powered s) eqn:Ep.
  - destruct (H2 eq_refl) as (_ & C & Fo & _).
    assert (T : stage2 s').
    { split; [done|]. split; [|split; [unfold flags_of in *; by rewrite H1 by lia|unfold flags_of in *; apply mixed_obsolete; by rewrite Hf in H3]].
      apply (copy_same cfg _ (content s)); [lia|done|apply (sd_bytes s S)| |done]. intros x Hx _. apply H1. lia. }
    split; [by right|]. intros Hrc Hpw. split; [done|]. apply H4; (done || lia).
  - split; [left|by rewrite H5]. split; [done|]. unfold flags_of in *. by rewrite H6.
Qed.

Lemma new_flag_step s : stage1 s \/ stage2 s -> (powered s = true -> stage2 s /\ flags_of (content s) cur = OBSOLETE_FLAG) ->
  let '(s', rc) := flash_write s (new_flag_at cfg) (oth + 4) 1 in
  stage s' /\ (rc = 0 -> powered s' = true -> stage3 s' /\ flags_of (content s') oth = ACTIVE_FLAG).
Proof using L O Hc Hp Hup.
  intros Hst H2. assert (S : steady s) by (by destruct Hst as [[? _]|[? _]]). pose proof (lo_size cfg L) as Hsz.
  destruct (sector oth ltac:(by right)) as (_ & Ho & Ht & Hr). pose proof (apart cfg L _ _ Hc) as Hap.
  pose proof (Hr _ _ (ob_new cfg O)) as Hrf. destruct (ob_new cfg O) as (E1 & E2 & _).
  destruct (write_frame s (new_flag_at cfg) (oth + 4) 1 oth S ltac:(by right) ltac:(lia) ltac:(lia) ltac:(lia)) as [B1 H1].
  assert (Hw1 : writable (oth + 4) (oth + 4 + 1 - 1)) by (apply (part oth); [by right|lia..]).
  assert (Hw : writable (oth + 4) (oth + 4)) by by replace (oth + 4 + 1 - 1) with (oth + 4) in Hw1 by lia.
  pose proof (write_byte s (new_flag_at cfg) (oth + 4) Hw ltac:(lia) ltac:(lia)) as H3.
  pose proof (write_inside s (new_flag_at cfg) (oth + 4) 1 0 Hw1 ltac:(lia) ltac:(lia) ltac:(lia) ltac:(lia)) as H4.
  pose proof (write_power s (new_flag_at cfg) (oth + 4) 1) as H5. pose proof (write_off s (new_flag_at cfg) (oth + 4) 1) as H6.
  destruct (flash_write s _ _ _) as [s' rc]. cbn [fst snd] in *. rewrite (sd_new s S) in H3.
  assert (S' : steady s'). { apply (steady_frame s); [done|done|]. intros x Hx _. apply H1. lia. }
  rewrite !Z.add_0_r, (sd_new s S) in H4. destruct (powered s) eqn:Ep.
  - destruct (H2 eq_refl) as ((_ & C & Fo & _) & Fc).
    assert (T : stage3 s').
    { split; [done|]. split; [|split; [unfold flags_of in *; by rewrite H1 by lia|unfold flags_of in *; rewrite Fo in H3; by apply (mixed_active 0xFF)]].
      apply (copy_same cfg _ (content s)); [lia|done|apply (sd_bytes s S)| |done]. intros x Hx Hx4. apply H1. lia. }
    split; [by right; right|]. intros Hrc Hpw. split; [done|]. apply H4; (done || lia).
  - split; [|by rewrite H5]. specialize (H6 eq_refl).
    destruct Hst as [[_ Hf]|(_ & C & Fo & Fc)]; [left|right; left]; (split; [done|]); rewrite H6; done.
Qed.

(** The four writes. *)
Lemma writes_step s : stage1 s -> (powered s = true -> erased s 0) ->
  let '(s', rc) := writes
    [fun s => flash_write s (data_at (env_ptr cfg)) (data_at oth) (ENV_SIZE cfg); fun s => flash_write s (env_ptr cfg) oth 4;
     fun s => flash_write s (flag_at cfg) (cur + 4) 1; fun s => flash_write s (new_flag_at cfg) (oth + 4) 1] s in
  stage s' /\ (rc = 0 -> powered s' = true -> stage3 s' /\ flags_of (content s') oth = ACTIVE_FLAG).
Proof using L O Hc Hp Hup Hram Hm0.
  intros S0 E0. pose proof (lo_size cfg L) as Hsz. cbn [writes]. unfold data_at.
  pose proof (copy_step s 5 (ENV_SIZE cfg) S0 ltac:(lia) ltac:(unfold ENV_SIZE; lia) ltac:(unfold ENV_SIZE; lia)) as H1.
  destruct (flash_write s _ _ _) as [s1 r1]. destruct H1 as (S1 & P1 & K1 & W1).
  destruct (Z.eqb_spec r1 0) as [->|Hr]; [|split; [by left|done]].
  pose proof (copy_step s1 0 4 S1 ltac:(lia) ltac:(lia) ltac:(lia)) as H2. rewrite !Z.add_0_r in H2.
  destruct (flash_write s1 _ _ _) as [s2 r2]. destruct H2 as (S2 & P2 & K2 & W2).
  destruct (Z.eqb_spec r2 0) as [->|Hr]; [|split; [by left|done]].
  assert (T2 : powered s2 = true -> stage2 s2).
  { intros Hon. pose proof (P2 Hon) as Hon1. pose proof (P1 Hon1) as Hon0. split; [apply S2|].
    assert (Hall : forall i, 0 <= i < CONFIG_ENV_SIZE cfg -> i <> 4 -> content s2 (oth + i) = m0 (env_ptr cfg + i)).
    { intros i Hi Hi4. destruct (Z_lt_dec i 4); [apply W2; (done || lia)|]. rewrite K2 by lia. apply W1; (done || unfold ENV_SIZE; lia). }
    split; [|split; [unfold flags_of; rewrite K2, K1 by lia; apply E0; (done || lia)|left; apply S2]].
    destruct Hram as [R1 R2]. split; [by rewrite (crc_ok_move cfg _ m0 _ (env_ptr cfg)); [|lia|apply S2| |]|].
    rewrite <- R2. apply mem_list_move. unfold data_at, ENV_SIZE. intros i Hi. rewrite <- !Z.add_assoc. apply Hall; lia. }
  pose proof (flag_step s2 S2 T2) as H3. destruct (flash_write s2 _ _ _) as [s3 r3]. destruct H3 as [S3 T3].
  destruct (Z.eqb_spec r3 0) as [->|Hr]; [|split; [destruct S3; [by left|by right; left]|done]].
  pose proof (new_flag_step s3 S3 (T3 eq_refl)) as H4. destruct (flash_write s3 _ _ _) as [s4 r4]. destruct H4 as [S4 T4].
  destruct (Z.eqb_spec r4 0) as [->|Hr]; [|split; [done|done]]. by split; [|intros _; apply T4].
Qed.

Lemma restore_step s : stage s -> up <> 0 ->
  let '(s', rc) := flash_write s p (oth + CONFIG_ENV_SIZE cfg) up in
  stage s' /\ (stage3 s -> stage3 s') /\ flags_of (content s') oth = flags_of (content s) oth /\
  (powered s' = true -> powered s = true) /\
  (rc = 0 -> powered s' = true -> forall i, CONFIG_ENV_SIZE cfg <= i < CONFIG_ENV_SECT_SIZE cfg -> content s' (oth + i) = m0 (oth + i)).
Proof using L O Hc Hp Hup.
  intros Hst Hu. assert (S : steady s) by (by destruct Hst as [[? _]|[[? _]|[? _]]]). pose proof (lo_size cfg L) as Hsz.
  destruct (sector oth ltac:(by right)) as (_ & Ho & Ht & Hr). pose proof (apart cfg L _ _ Hc) as Hap.
  pose proof (Hr _ _ (Hp Hu)) as Hrp. destruct (Hp Hu) as (E1 & E2 & _).
  destruct (write_oth s p (oth + CONFIG_ENV_SIZE cfg) up S ltac:(lia) ltac:(lia) ltac:(lia)) as [S' Fc].
  destruct (write_frame s p (oth + CONFIG_ENV_SIZE cfg) up oth S ltac:(by right) ltac:(lia) ltac:(lia) ltac:(lia)) as [B1 H1].
  assert (Hw : writable (oth + CONFIG_ENV_SIZE cfg) (oth + CONFIG_ENV_SIZE cfg + up - 1)) by (apply (part oth); [by right|lia..]).
  pose proof (fun i => write_inside s p (oth + CONFIG_ENV_SIZE cfg) up i Hw ltac:(lia) ltac:(lia) ltac:(lia) ltac:(lia)) as H2.
  pose proof (write_power s p (oth + CONFIG_ENV_SIZE cfg) up) as H3.
  destruct (flash_write s _ _ _) as [s' rc]. cbn [fst snd] in *.
  assert (Fo : flags_of (content s') oth = flags_of (content s) oth) by (unfold flags_of; apply H1; lia).
  assert (C : copy cfg (content s) oth D' -> copy cfg (content s') oth D').
  { intros C. apply (copy_same cfg _ (content s)); [lia|done|apply (sd_bytes s S)| |done]. intros x Hx _. apply H1. lia. }
  assert (T3 : stage3 s -> stage3 s'). { intros (_ & ? & ? & ?). split; [done|]. split; [by apply C|]. by rewrite Fc, Fo. }
  split; [|split; [done|split; [done|split; [by apply still_on|]]]].
  - destruct Hst as [[_ H]|[(_ & H & H' & H'')|H]]; [left; split; [done|by rewrite Fc]|right; left|right; right; by apply T3].
    split; [done|]. split; [by apply C|]. by rewrite Fc, Fo.
  - intros Hrc Hpw i Hi. replace (oth + i) with (oth + CONFIG_ENV_SIZE cfg + (i - CONFIG_ENV_SIZE cfg)) by lia.
    rewrite H2 by (done || lia). rewrite (sd_saved s S) by lia. done.
Qed.

(** The old copy is whole all the time. *)
Lemma steady_cur s : steady s -> copy cfg (content s) cur D.
Proof using L Hcur Hm0.
  intros S. pose proof (lo_size cfg L). apply (copy_same cfg _ m0); [lia|apply (sd_bytes s S)|done|apply (sd_cur s S)|done].
Qed.

(** Whatever stage was reached, one of the two copies can be found. *)
Lemma stage_picks s : stage s -> accident cfg (content s) cur oth D' = false ->
  picks cfg (content s) cur oth D \/ found cfg (content s) oth cur D'.
Proof using L Hcur Hm0.
  intros Hst Hno. destruct Hst as [[S Hf]|[(S & Co & Fo & Fc)|(S & Co & Fc & Fo)]].
  - destruct (crc_ok cfg (content s) oth) eqn:E.
    + unfold accident in Hno. rewrite Hf, E in Hno. cbn [Z.eqb Pos.eqb andb] in Hno.
      destruct (Z.eqb_spec (flags_of (content s) oth) OBSOLETE_FLAG) as [Fo|_].
      * left. apply active_picks; [done|]. split; [by apply steady_cur|]. split; [by rewrite Hf|]. intros _. by left.
      * cbn [negb andb] in Hno. apply negb_false_iff, andb_true_iff in Hno as [Fo%Z.eqb_eq HD%bool_decide_eq_true_1].
        right. split; [done|]. split; [by rewrite Fo|]. intros _. by right.
    + left. apply active_picks; [done|]. split; [by apply steady_cur|]. split; [by rewrite Hf|]. by rewrite E.
  - right. split; [done|]. split; [by rewrite Fo|]. intros _. destruct Fc as [Fc|Fc]; [by right|by left].
  - right. split; [done|]. split; [done|]. intros _. by left.
Qed.
End Save.

(** The room for the rest of the sector. *)
Definition room (cfg : config) (saved : option Z) : Prop :=
  match saved with
  | None => True
  | Some p =>
    let up := CONFIG_ENV_SECT_SIZE cfg - CONFIG_ENV_SIZE cfg in
    in_ram cfg p up /\ (p + up <= env_ptr cfg \/ env_ptr cfg + CONFIG_ENV_SIZE cfg <= p) /\
    (p + up <= flag_at cfg \/ flag_at cfg < p) /\ (p + up <= new_flag_at cfg \/ new_flag_at cfg < p)
  end.

Lemma torn_no_accident cfg m cur oth D' : torn cfg m oth cur = true -> accident cfg m cur oth D' = false.
Proof. intros H. unfold accident. by rewrite (torn_flags _ _ _ _ H). Qed.

Section Saveenv.
Context {W : Type} {F : Flash_layer W} (cfg : config) (L : layout cfg) (O : objects cfg).

Lemma Done_spec (st : state) rc : let '(st', r) := Done st rc in
  r = rc /\ content (layer st') = content (layer st) /\ powered (layer st') = powered (layer st) /\
  flash_addr st' = flash_addr st /\ flash_addr_new st' = flash_addr_new st /\ end_addr st' = end_addr st /\
  end_addr_new st' = end_addr_new st /\ env_addr st' = env_addr st /\ env_valid st' = env_valid st.
Proof using.
  unfold Done. pose proof (protect_same 1 (layer st) (flash_addr st) (end_addr st)) as H1.
  pose proof (protect_power 1 (layer st) (flash_addr st) (end_addr st)) as H2.
  destruct (sect_protect 1 (layer st) _ _) as [s1 r1]. cbn [fst] in H1, H2.
  pose proof (protect_same 1 s1 (flash_addr_new st) (end_addr_new st)) as H3.
  pose proof (protect_power 1 s1 (flash_addr_new st) (end_addr_new st)) as H4.
  destruct (sect_protect 1 s1 _ _) as [s2 r2]. cbn [fst] in H3, H4. cbn. by rewrite H3, H1, H4, H2.
Qed.

(** What [saveenv] promises of its result. *)
Definition saved_ok (cur oth : Z) (D D' : list Z) (m0 : mem) (st' : state) (rc : Z) : Prop :=
  let m' := content (layer st') in
  bytes m' /\ copy cfg m' cur D /\
  (accident cfg m' cur oth D' = false -> picks cfg m' cur oth D \/ found cfg m' oth cur D') /\
  (rc = 0 -> powered (layer st') = true -> settled cfg m' oth cur D') /\
  (flash_addr st' = oth -> rc = 0 /\
     (powered (layer st') = true -> loaded cfg st' oth cur /\ copy cfg m' (env_ptr cfg) D' /\
        forall i, CONFIG_ENV_SIZE cfg <= i < CONFIG_ENV_SECT_SIZE cfg -> m' (oth + i) = m0 (oth + i))).

(** Nothing was done to the flash memory. *)
Lemma early cur oth D D' m0 st s rc :
  copies cfg cur oth -> loaded cfg st cur oth -> bytes (content s) -> settled cfg (content s) cur oth D -> rc <> 0 ->
  let '(st', r) := Done (set_layer s st) rc in saved_ok cur oth D D' m0 st' r.
Proof using L.
  intros Hc Ld B St Hrc. pose proof (Done_spec (set_layer s st) rc) as H. destruct (Done _ _) as [st' r].
  destruct H as (-> & H1 & H2 & H3 & _). pose proof (apart cfg L _ _ Hc) as Hap. pose proof (lo_size cfg L) as Hsz.
  unfold saved_ok. cbn [set_layer layer flash_addr] in *. rewrite H1, H3, (ld_addr _ _ _ _ Ld). split; [done|].
  split; [apply St|]. split; [intros _; left; by apply settled_picks|]. split; [done|lia].
Qed.

(** The flash memory was changed, but the copies were not exchanged. *)
Lemma stage_steady cur oth D' m0 up p s : stage cfg cur oth D' m0 up p s -> steady cfg cur oth m0 up p s.
Proof using. by intros [[? _]|[[? _]|[? _]]]. Qed.

Lemma unfinished cur oth D D' m0 up p st s rc :
  copies cfg cur oth -> loaded cfg st cur oth -> copy cfg m0 cur D -> bytes m0 -> stage cfg cur oth D' m0 up p s ->
  (rc = 0 -> powered s = true -> settled cfg (content s) oth cur D') ->
  let '(st', r) := Done (set_layer s st) rc in saved_ok cur oth D D' m0 st' r.
Proof using L.
  intros Hc Ld C0 B0 T Hok. pose proof (Done_spec (set_layer s st) rc) as H. destruct (Done _ _) as [st' r].
  destruct H as (-> & H1 & H2 & H3 & _). pose proof (apart cfg L _ _ Hc) as Hap. pose proof (lo_size cfg L) as Hsz.
  unfold saved_ok. cbn [set_layer layer flash_addr] in *. rewrite H1, H2, H3, (ld_addr _ _ _ _ Ld).
  pose proof (stage_steady _ _ _ _ _ _ _ T) as S. split; [apply S|].
  split; [by apply (steady_cur cfg L cur oth D m0 up p C0 B0)|].
  split; [intros Hno; by apply (stage_picks cfg L cur oth D D' m0 up p C0 B0 s T)|]. split; [done|lia].
Qed.

(** The first steps: two flags on the stack, the sectors unprotected, the rest of the sector put aside. *)
Lemma set_up cur oth m0 s up p :
  copies cfg cur oth -> up = CONFIG_ENV_SECT_SIZE cfg - CONFIG_ENV_SIZE cfg -> (up <> 0 -> room cfg (Some p)) ->
  bytes m0 -> flags_of m0 cur = ACTIVE_FLAG ->
  content s = store_list (store_list m0 (flag_at cfg) [OBSOLETE_FLAG]) (new_flag_at cfg) [ACTIVE_FLAG] ->
  stage1 cfg cur oth m0 up p (poke s p (mem_list (content s) (oth + CONFIG_ENV_SIZE cfg) (Z.to_nat up))).
Proof using L O.
  intros Hc Hup Hr B0 Hf Hs. pose proof (lo_size cfg L) as Hsz. destruct O as [Oe Of On O1 O2 O3].
  pose proof (copies_or _ _ _ Hc) as [Hcur Hoth]. pose proof (apart cfg L _ _ Hc) as Hap.
  destruct (one_of cfg L cur Hcur) as (_ & _ & _ & R1). destruct (one_of cfg L oth Hoth) as (_ & _ & _ & R2).
  pose proof (R1 _ _ Of). pose proof (R2 _ _ Of). pose proof (R1 _ _ On). pose proof (R2 _ _ On). clear R1 R2.
  assert (E : forall x, content s x = if x =? new_flag_at cfg then ACTIVE_FLAG else if x =? flag_at cfg then OBSOLETE_FLAG else m0 x).
  { intros x. rewrite Hs. done. }
  assert (Bs : bytes (content s)). { intros x. rewrite E. destruct (x =? _); [done|]. by destruct (x =? _). }
  set (l := mem_list _ _ _). assert (Hl : Z.of_nat (length l) = up) by (unfold l; rewrite mem_list_length; lia).
  assert (P : forall x, ~ (p <= x < p + up) -> content (poke s p l) x = content s x).
  { intros x Hx. rewrite poke_content. apply store_list_out. lia. }
  assert (Q : forall x, content s x = m0 x \/ x = flag_at cfg \/ x = new_flag_at cfg).
  { intros x. rewrite E. destruct (Z.eqb_spec x (new_flag_at cfg)); [by right; right|]. destruct (Z.eqb_spec x (flag_at cfg)); [by right; left|by left]. }
  assert (M : forall x, x <> flag_at cfg -> x <> new_flag_at cfg -> content s x = m0 x).
  { intros x Hx1 Hx2. destruct (Q x) as [?|[?|?]]; done. }
  assert (Hout : forall e x, e = cur \/ e = oth -> e <= x < e + CONFIG_ENV_SECT_SIZE cfg -> ~ (p <= x < p + up)).
  { intros e x He Hx Hx'. destruct (Hr ltac:(lia)) as (Hram & _). destruct (ram_apart cfg L cur oth Hc p up x) as [N1 N2]; [by rewrite Hup|lia|].
    destruct He as [-> | ->]; lia. }
  split; [constructor|].
  - intros x. rewrite poke_content. apply store_bytes; [done|]. by apply mem_list_bytes.
  - intros x Hx Hx4. rewrite P by (apply (Hout cur); [by left|lia]). apply M; lia.
  - intros i Hi. rewrite P; [apply M; lia|]. intros Hx. destruct (Hr ltac:(lia)) as (_ & Hre & _). lia.
  - rewrite P; [rewrite E|].
    + rewrite (proj2 (Z.eqb_neq (flag_at cfg) (new_flag_at cfg))) by done. by rewrite Z.eqb_refl.
    + intros Hx. destruct (Hr ltac:(lia)) as (_ & _ & Hrf & _). lia.
  - rewrite P; [rewrite E; by rewrite Z.eqb_refl|]. intros Hx. destruct (Hr ltac:(lia)) as (_ & _ & _ & Hrn). lia.
  - intros i Hi. rewrite poke_content, store_list_in by lia. unfold l. rewrite rd_mem_list by lia. apply M; lia.
  - unfold flags_of in *. rewrite P by (apply (Hout cur); [by left|lia]). rewrite M by lia. done.
Qed.

Lemma saveenv_spec cur oth saved st D D' :
  copies cfg cur oth -> loaded cfg st cur oth -> room cfg saved -> settled cfg (content (layer st)) cur oth D ->
  copy cfg (content (layer st)) (env_ptr cfg) D' ->
  let '(st', rc) := saveenv cfg saved st in saved_ok cur oth D D' (content (layer st)) st' rc.
Proof using L O.
  intros Hc Ld Hroom St Hram. set (m0 := content (layer st)) in *. pose proof (ld_bytes _ _ _ _ Ld) as B0. fold m0 in B0.
  pose proof (lo_size cfg L) as Hsz. pose proof (copies_or _ _ _ Hc) as [Hcur Hoth].
  destruct (one_of cfg L oth Hoth) as (_ & Ho & Ht & _). set (up := CONFIG_ENV_SECT_SIZE cfg - CONFIG_ENV_SIZE cfg).
  unfold saveenv. rewrite (ld_addr _ _ _ _ Ld), (ld_new _ _ _ _ Ld), (ld_end _ _ _ _ Ld), (ld_end_new _ _ _ _ Ld).
  set (s0 := poke (poke _ _ _) _ _).
  assert (C0 : content s0 = store_list (store_list m0 (flag_at cfg) [OBSOLETE_FLAG]) (new_flag_at cfg) [ACTIVE_FLAG])
    by (unfold s0; by rewrite !poke_content).
  assert (A : forall s, content s = content s0 -> bytes (content s) /\ settled cfg (content s) cur oth D).
  { intros s ->. unfold s0. destruct (poke_copies cfg L cur oth (layer st) (flag_at cfg) [OBSOLETE_FLAG] D Hc (ob_flag cfg O) B0) as (B1 & _ & _ & S1);
      [by apply List.Forall_cons|].
    destruct (poke_copies cfg L cur oth (poke (layer st) (flag_at cfg) [OBSOLETE_FLAG]) (new_flag_at cfg) [ACTIVE_FLAG] D Hc (ob_new cfg O) B1)
      as (B2 & _ & _ & S2); [by apply List.Forall_cons|]. split; [done|]. by apply S2, S1. }
  pose proof (protect_same 0 s0 cur (cur + CONFIG_ENV_SECT_SIZE cfg - 1)) as C1.
  destruct (sect_protect 0 s0 _ _) as [s1 r1]. cbn [fst] in C1. destruct (A s1 C1) as [B1 S1].
  destruct (r1 =? 0); cbn [negb]; [|by apply early].
  pose proof (protect_same 0 s1 oth (oth + CONFIG_ENV_SECT_SIZE cfg - 1)) as C2. rewrite C1 in C2.
  pose proof (protect_open s1 oth (oth + CONFIG_ENV_SECT_SIZE cfg - 1) ltac:(by apply (one_of cfg L oth Hoth))) as Op.
  destruct (sect_protect 0 s1 _ _) as [s2 r2]. cbn [fst snd] in C2, Op. destruct (A s2 C2) as [B2 S2].
  destruct (Z.eqb_spec r2 0) as [Hr2|]; cbn [negb]; [|by apply early].
  replace (u32 _) with up by (rewrite u32_small; unfold up; lia).
  destruct (if up =? 0 then Some 0 else saved) as [p|] eqn:Ep; [|by apply early].
  assert (Hp : up <> 0 -> room cfg (Some p)). { intros Hu. by rewrite (proj2 (Z.eqb_neq up 0) Hu) in Ep; subst saved. }
  assert (Hp' : up <> 0 -> in_ram cfg p up) by (intros Hu; by apply Hp).
  pose proof (set_up cur oth m0 s2 up p Hc eq_refl Hp B0 (proj1 (proj2 St)) ltac:(by rewrite C2)) as T0.
  pose proof (poke_open s2 p (mem_list (content s2) (oth + CONFIG_ENV_SIZE cfg) (Z.to_nat up)) _ _ (Op Hr2)) as Op3.
  set (s3 := poke s2 p _) in *. clearbody s3.
  pose proof (erase_step cfg L O cur oth Hc m0 up p eq_refl Hp' s3 T0 Op3) as T1.
  destruct (sect_erase s3 _ _) as [s4 r4]. destruct T1 as [T1 E1].
  assert (U : forall s rc, stage cfg cur oth D' m0 up p s -> rc <> 0 -> let '(st', r) := Done (set_layer s st) rc in saved_ok cur oth D D' m0 st' r).
  { intros s rc T Hrc. by apply (unfinished cur oth D D' m0 up p st s rc Hc Ld (proj1 St) B0 T). }
  destruct (Z.eqb_spec r4 0) as [->|Hr]; cbn [negb]; [|apply U; [by left|done]].
  pose proof (writes_step cfg L O cur oth Hc D' m0 up p eq_refl Hp' Hram B0 s4 T1 (E1 eq_refl)) as T2.
  destruct (writes _ s4) as [s5 r5]. destruct T2 as [T2 E2].
  destruct (Z.eqb_spec r5 0) as [->|Hr]; cbn [negb]; [|by apply U].
  assert (Fin : forall s, (powered s = true -> stage3 cfg cur oth D' m0 up p s /\ flags_of (content s) oth = ACTIVE_FLAG) ->
    powered s = true -> settled cfg (content s) oth cur D').
  { intros s H Hon. destruct (H Hon) as ((_ & H1 & H2 & _) & H3). split; [done|]. split; [done|]. intros _. done. }
  assert (R : forall s r, (if up =? 0 then (s5, 0) else flash_write s5 p (oth + CONFIG_ENV_SIZE cfg) up) = (s, r) ->
    stage cfg cur oth D' m0 up p s /\
    (powered s = true -> stage3 cfg cur oth D' m0 up p s /\ flags_of (content s) oth = ACTIVE_FLAG) /\
    (r = 0 -> powered s = true -> forall i, CONFIG_ENV_SIZE cfg <= i < CONFIG_ENV_SECT_SIZE cfg -> content s (oth + i) = m0 (oth + i))).
  { intros s r E. destruct (Z.eqb_spec up 0) as [Hu|Hu].
    - injection E as <- <-. split; [done|]. split; [by apply E2|]. intros _ _ i Hi. lia.
    - pose proof (restore_step cfg L O cur oth Hc D' m0 up p eq_refl Hp' s5 T2 Hu) as H. rewrite E in H.
      destruct H as (H1 & H2 & H3 & H4 & H5). split; [done|]. split; [|done].
      intros Hon. destruct (E2 eq_refl (H4 Hon)) as [H6 H7]. split; [by apply H2|by rewrite H3]. }
  destruct (if up =? 0 then (s5, 0) else _) as [s6 r6]. destruct (R s6 r6 eq_refl) as (T3 & E3 & K3).
  destruct (Z.eqb_spec r6 0) as [->|Hr]; cbn [negb].
  - pose proof (Done_spec (swap (set_layer s6 st)) 0) as H. destruct (Done _ _) as [st' r].
    destruct H as (-> & H1 & H2 & H3 & H4 & H5 & H6 & H7 & H8). unfold saved_ok.
    cbn [swap set_layer layer flash_addr flash_addr_new end_addr end_addr_new env_addr env_valid] in *. rewrite H1, H2.
    pose proof (stage_steady _ _ _ _ _ _ _ T3) as S6.
    split; [apply S6|]. split; [by apply (steady_cur cfg L cur oth D m0 up p (proj1 St) B0)|]. split; [intros Hno; by apply (stage_picks cfg L cur oth D D' m0 up p (proj1 St) B0 s6 T3)|].
    split; [intros _; by apply Fin|]. intros _. split; [done|]. intros Hon. split; [|split; [|by apply K3]].
    + destruct Ld as [L1 L2 L3 L4 L5 L6 L7]. constructor; rewrite ?H3, ?H4, ?H5, ?H6, ?H7, ?H8, ?H1; try done. apply S6.
    + destruct Hram as [K1 K2]. split; [rewrite (crc_ok_move cfg _ m0 _ (env_ptr cfg)); [done|lia|apply S6|done|]; intros i Hi _; by apply (sd_env _ _ _ _ _ _ _ S6)|].
      rewrite <- K2. apply mem_list_move. unfold data_at, ENV_SIZE. intros i Hi. rewrite <- !Z.add_assoc. apply (sd_env _ _ _ _ _ _ _ S6). lia.
  - apply (unfinished cur oth D D' m0 up p st s6 0 Hc Ld (proj1 St) B0 T3). intros _. by apply Fin.
Qed.
End Saveenv.

(** ** Power failures *)

(** The flash memory outlives the power; the rest of the memory does not. *)
Definition survives (cfg : config) (m k : mem) : Prop :=
  bytes k /\ forall e x, e = CONFIG_ENV_ADDR cfg \/ e = CONFIG_ENV_ADDR_REDUND cfg ->
    e <= x < e + CONFIG_ENV_SECT_SIZE cfg -> k x = m x.

(** What the next start loads. *)
Definition boots (cfg : config) {W} {F : Flash_layer W} (s : W) (D : list Z) : Prop :=
  copy cfg (content (layer (boot cfg s))) (env_ptr cfg) D.

Section Power.
Context {W : Type} {F : Flash_layer W} (cfg : config) (L : layout cfg) (O : objects cfg) (Fw : flags_writable cfg).

Lemma copies_swap cur oth : copies cfg cur oth -> copies cfg oth cur.
Proof using. intros [[-> ->]|[-> ->]]; [by right|by left]. Qed.

Lemma survives_found m k cur oth D : copies cfg cur oth -> bytes m -> survives cfg m k ->
  (found cfg m cur oth D -> found cfg k cur oth D) /\ torn cfg k cur oth = torn cfg m cur oth /\
  (copy cfg m cur D -> copy cfg k cur D).
Proof using L.
  intros Hc Bm [Bk E]. pose proof (lo_size cfg L) as Hsz. destruct (copies_or _ _ _ Hc) as [Hcur Hoth].
  assert (Hs : forall e, e = CONFIG_ENV_ADDR cfg \/ e = CONFIG_ENV_ADDR_REDUND cfg -> same cfg k m e).
  { intros e He x Hx _. apply (E e x He). lia. }
  assert (Hf : forall e, e = CONFIG_ENV_ADDR cfg \/ e = CONFIG_ENV_ADDR_REDUND cfg -> flags_of k e = flags_of m e).
  { intros e He. apply (E e _ He). lia. }
  assert (Cs : forall e, e = CONFIG_ENV_ADDR cfg \/ e = CONFIG_ENV_ADDR_REDUND cfg -> crc_ok cfg k e = crc_ok cfg m e).
  { intros e He. apply crc_ok_same; [lia|done|done|by apply Hs]. }
  assert (C : copy cfg m cur D -> copy cfg k cur D) by (apply copy_same; [lia|done|done|by apply Hs]).
  split; [|split; [apply torn_ext; by auto|done]]. intros (P1 & P2 & P3).
  split; [by apply C|]. by rewrite (Hf cur Hcur), (Hf oth Hoth), (Cs oth Hoth).
Qed.

(** A start with the power on. *)
Lemma boots_picks m s cur oth D :
  copies cfg cur oth -> bytes m -> survives cfg m (content s) -> picks cfg m cur oth D ->
  loaded cfg (boot cfg s) cur oth /\ boots cfg s D /\ found cfg (content (layer (boot cfg s))) cur oth D /\
  (powered (layer (boot cfg s)) = true -> settled cfg (content (layer (boot cfg s))) cur oth D).
Proof using L O Fw.
  intros Hc Bm Hs [P Ht]. apply boot_picks; try done; [apply Hs|].
  destruct (survives_found m (content s) cur oth D Hc Bm Hs) as (H1 & H2 & _). split; [by apply H1|by rewrite H2].
Qed.

(** With torn flags the start chooses none of the copies. *)
Lemma torn_init m s cur oth : copies cfg cur oth -> bytes m -> survives cfg m (content s) -> torn cfg m cur oth = true ->
  env_valid (env_init cfg (reset cfg s)) = 0.
Proof using L.
  intros Hc Bm Hs Ht. destruct (survives_found m (content s) cur oth [] Hc Bm Hs) as (_ & H & _). rewrite Ht in H. clear Hs Ht.
  unfold torn in H. repeat (apply andb_true_iff in H; destruct H as [H ?]).
  repeat match goal with E : negb _ = true |- _ => apply negb_true_iff, Z.eqb_neq in E | E : (_ =? _) = true |- _ => apply Z.eqb_eq in E end.
  unfold env_init. cbn [reset layer flash_addr flash_addr_new].
  destruct Hc as [[-> ->]|[-> ->]];
    repeat match goal with E : crc_ok _ _ _ = true |- _ => rewrite E; clear E end; cbn [andb negb];
    match goal with E : flags_of _ _ = OBSOLETE_FLAG |- _ => rewrite E in * end;
    match goal with E : flags_of ?m ?e <> ACTIVE_FLAG |- _ => generalize dependent (flags_of m e); intros f Hf H1 H255 end;
    rewrite ?(proj2 (Z.eqb_neq f ACTIVE_FLAG)), ?(proj2 (Z.eqb_neq f 255)) by done;
    (destruct (Z.eqb_spec f OBSOLETE_FLAG) as [->|Hne]; [done|]);
    rewrite ?(proj2 (Z.eqb_neq OBSOLETE_FLAG f)) by (intros He; by apply Hne); done.
Qed.

End Power.

(** ** The environment as a register *)

(** How a [saveenv] ends, as far as the copies go: it has saved the environment; it has, but could not write the rest of
    the sector back and did not exchange the copies; it has failed or the power has; and this in such a way that no
    start can tell what was saved. *)
Inductive outcome : Type := Complete | Not_exchanged | Failed | Spoiled.

(** What can be seen from outside: that the environment in RAM changes, a [saveenv], a reset or a power failure, and what a
    start has in RAM in the end, and whether the power was cut off in the middle of a flag in it. *)
Inductive event : Type := Edited | Saving (D : list Z) (o : outcome) | Cut_off | Booted (D : list Z) (cut : bool).

(** What the register promises: one of these values, of which only a save that failed leaves more than one; the same,
    while the program has not been started anew after a save that did not exchange the copies; or nothing. *)
Inductive promise : Type := Holds (l : list (list Z)) | Until_reset (l : list (list Z)) | Nothing.

(** The contract.  The promise is lost by a save before the next start when the one before it was not complete, and by
    power that fails in the middle of a flag or leaves a bad copy that passes its check; by nothing else. *)
Inductive register : promise -> event -> promise -> Prop :=
  | reg_edit r : register r Edited r
  | reg_complete D D' : register (Holds [D]) (Saving D' Complete) (Holds [D'])
  | reg_not_exchanged D D' : register (Holds [D]) (Saving D' Not_exchanged) (Until_reset [D'])
  | reg_failed D D' : register (Holds [D]) (Saving D' Failed) (Until_reset [D; D'])
  | reg_spoiled D D' : register (Holds [D]) (Saving D' Spoiled) Nothing
  | reg_again l D o : register (Until_reset l) (Saving D o) Nothing
  | reg_cut l : register (Holds l) Cut_off (Holds l)
  | reg_reset l : register (Until_reset l) Cut_off (Holds l)
  | reg_boot l D : In D l -> register (Holds l) (Booted D false) (Holds [D])
  | reg_boot_cut l D : In D l -> register (Holds l) (Booted D true) Nothing
  | reg_nothing e : register Nothing e Nothing.

(** The program and its power supply. *)
Inductive phase {W : Type} : Type := Running (st : state (W := W)) | Off (s : W).
Arguments phase : clear implicits.

Section Register.
Context {W : Type} {F : Flash_layer W} (cfg : config).

Definition some_torn (m : mem) : bool :=
  torn cfg m (CONFIG_ENV_ADDR cfg) (CONFIG_ENV_ADDR_REDUND cfg) || torn cfg m (CONFIG_ENV_ADDR_REDUND cfg) (CONFIG_ENV_ADDR cfg).

Definition outcome_of (st : state (W := W)) (D : list Z) (st' : state) (rc : Z) : outcome :=
  if (rc =? 0) && powered (layer st') then (if flash_addr st' =? flash_addr_new st then Complete else Not_exchanged)
  else if accident cfg (content (layer st')) (flash_addr st) (flash_addr_new st) D || some_torn (content (layer st')) then Spoiled
  else Failed.

Inductive step : phase W -> event -> phase W -> Prop :=
  | step_edit st s : powered (layer st) = true -> survives cfg (content (layer st)) (content s) ->
      step (Running st) Edited (Running (set_layer s st))
  | step_save st st' rc saved D : powered (layer st) = true -> room cfg saved -> copy cfg (content (layer st)) (env_ptr cfg) D ->
      saveenv cfg saved st = (st', rc) -> step (Running st) (Saving D (outcome_of st D st' rc)) (Running st')
  | step_cut st : step (Running st) Cut_off (Off (layer st))
  | step_boot s s' : survives cfg (content s) (content s') ->
      let st := boot cfg s' in
      step (Off s) (Booted (mem_list (content (layer st)) (data_at (env_ptr cfg)) (Z.to_nat (ENV_SIZE cfg)))
                           (some_torn (content (layer st)))) (Running st).

Inductive steps {A : Type} (R : A -> event -> A -> Prop) : A -> list event -> A -> Prop :=
  | steps_nil a : steps R a [] a
  | steps_cons a e b es c : R a e b -> steps R b es c -> steps R a (e :: es) c.

(** The next start will find a whole copy of a value of [l]. *)
Definition holds (s : W) (l : list (list Z)) : Prop :=
  bytes (content s) /\ exists cur oth D, copies cfg cur oth /\ In D l /\ picks cfg (content s) cur oth D.

(** With the power gone in the start itself, there is only what the flash memory holds. *)
Definition represents (ph : phase W) (r : promise) : Prop :=
  match r, ph with
  | Holds l, Running st => holds (layer st) l /\ (powered (layer st) = true -> exists cur oth D, l = [D] /\ copies cfg cur oth /\
      loaded cfg st cur oth /\ settled cfg (content (layer st)) cur oth D)
  | Holds l, Off s => holds s l
  | Until_reset l, Running st => holds (layer st) l
  | Until_reset _, Off _ => False
  | Nothing, _ => True
  end.

Context (L : layout cfg) (O : objects cfg) (Fw : flags_writable cfg).

Lemma found_some_torn m cur oth D : copies cfg cur oth -> found cfg m cur oth D -> some_torn m = torn cfg m cur oth.
Proof using.
  intros Hc (_ & Hf & _). assert (E : torn cfg m oth cur = false).
  { destruct (torn cfg m oth cur) eqn:E; [|done]. by rewrite (torn_flags _ _ _ _ E) in Hf. }
  unfold some_torn. destruct Hc as [[<- <-]|[<- <-]]; rewrite E; [apply orb_false_r|done].
Qed.

Lemma survives_holds s s' l : survives cfg (content s) (content s') -> holds s l -> holds s' l.
Proof using L.
  intros Hs (B & cur & oth & D & Hc & Hin & P & Ht). destruct (survives_found cfg L _ _ cur oth D Hc B Hs) as (H1 & H2 & _).
  split; [apply Hs|]. exists cur, oth, D. split; [done|]. split; [done|]. split; [by apply H1|by rewrite H2].
Qed.

Lemma survives_settled m k cur oth D :
  copies cfg cur oth -> bytes m -> survives cfg m k -> settled cfg m cur oth D -> settled cfg k cur oth D.
Proof using L.
  intros Hc Bm Hs S. destruct (survives_found cfg L m k cur oth D Hc Bm Hs) as (P & _ & _).
  destruct (P (proj1 (settled_picks _ _ _ _ _ S))) as (P1 & _ & P3). destruct S as (_ & S2 & _).
  destruct (copies_or _ _ _ Hc) as [Hcur _]. pose proof (lo_size cfg L) as Hsz.
  assert (Hf : flags_of k cur = ACTIVE_FLAG) by (rewrite <- S2; apply (proj2 Hs cur _ Hcur); lia).
  split; [done|]. split; [done|]. intros H. destruct (P3 H) as [?|[Hx _]]; [done|]. by rewrite Hf in Hx.
Qed.

(** The end of a save that started with the copies as they should be. *)
Lemma save_register st st' rc saved D r :
  powered (layer st) = true -> room cfg saved -> copy cfg (content (layer st)) (env_ptr cfg) D -> saveenv cfg saved st = (st', rc) ->
  represents (Running st) r -> exists r', register r (Saving D (outcome_of st D st' rc)) r' /\ represents (Running st') r'.
Proof using L O.
  intros Hon Hroom Hcopy E Hr. destruct r as [l|l|]; [|by exists Nothing; split; [constructor|]..].
  destruct Hr as (_ & H). destruct (H Hon) as (cur & oth & D0 & -> & Hc & Ld & St). clear H.
  pose proof (saveenv_spec cfg L O cur oth saved st D0 D Hc Ld Hroom St Hcopy) as H. rewrite E in H. destruct H as (B & _ & P & S & X).
  pose proof (copies_swap _ _ _ Hc) as Hc'.
  unfold outcome_of. rewrite (ld_addr _ _ _ _ Ld), (ld_new _ _ _ _ Ld). destruct (_ && _) eqn:Eok.
  - apply andb_true_iff in Eok as [->%Z.eqb_eq Hon']. pose proof (S eq_refl Hon') as S'.
    assert (Hh : holds (layer st') [D]) by (split; [done|]; exists oth, cur, D; split; [done|]; split; [by left|by apply settled_picks]).
    destruct (Z.eqb_spec (flash_addr st') oth) as [Hx|_].
    + exists (Holds [D]). split; [constructor|]. split; [done|]. intros _. exists oth, cur, D.
      split; [done|]. split; [done|]. split; [by apply X|done].
    + exists (Until_reset [D]). by split; [constructor|].
  - destruct (_ || _) eqn:Ebad; [by exists Nothing; split; [constructor|]|]. apply orb_false_iff in Ebad as [Ha Ht].
    exists (Until_reset [D0; D]). split; [constructor|]. split; [done|]. destruct (P Ha) as [H|H].
    + exists cur, oth, D0. split; [done|]. by split; [left|].
    + exists oth, cur, D. split; [done|]. split; [by right; left|]. split; [done|]. by rewrite <- (found_some_torn _ _ _ _ Hc' H).
Qed.

Lemma boot_register s s' l : survives cfg (content s) (content s') -> holds s l ->
  let st := boot cfg s' in exists D r,
    D = mem_list (content (layer st)) (data_at (env_ptr cfg)) (Z.to_nat (ENV_SIZE cfg)) /\
    register (Holds l) (Booted D (some_torn (content (layer st)))) r /\ represents (Running st) r.
Proof using L O Fw.
  intros Hs (B & cur & oth & D & Hc & Hin & P). destruct (boots_picks cfg L O Fw _ s' cur oth D Hc B Hs P) as (H1 & [_ H2] & H3 & H4).
  cbv zeta. exists D. rewrite (found_some_torn _ _ _ _ Hc H3). destruct (torn _ _ cur oth) eqn:Et.
  - exists Nothing. split; [done|]. by split; [constructor|].
  - exists (Holds [D]). split; [done|]. split; [by constructor|]. split.
    + split; [apply (ld_bytes _ _ _ _ H1)|]. exists cur, oth, D. split; [done|]. by split; [left|].
    + intros Hon. exists cur, oth, D. split; [done|]. split; [done|]. split; [done|]. by apply H4.
Qed.

Lemma step_register ph e ph' r : step ph e ph' -> represents ph r -> exists r', register r e r' /\ represents ph' r'.
Proof using L O Fw.
  destruct 1 as [st s Hon Hs|st st' rc saved D Hon Hroom Hcopy E|st|s s' Hs]; intros Hr.
  - exists r. split; [constructor|]. destruct r as [l|l|]; [|by apply (survives_holds (layer st))|done].
    destruct Hr as [Hh H]. split; [by apply (survives_holds (layer st))|]. intros _.
    destruct (H Hon) as (cur & oth & D & -> & Hc & Ld & St). exists cur, oth, D. split; [done|]. split; [done|].
    pose proof (ld_bytes _ _ _ _ Ld) as B. destruct Ld as [L1 L2 L3 L4 L5 L6 L7].
    split; [by constructor; try done; apply Hs|by apply (survives_settled (content (layer st)))].
  - by apply (save_register st st' rc saved).
  - destruct r as [l|l|]; [exists (Holds l)|exists (Holds l)|exists Nothing]; (split; [constructor|]); [apply Hr|done|done].
  - destruct r as [l|l|]; [|done|by exists Nothing; split; [constructor|]].
    destruct (boot_register s s' l Hs Hr) as (D & r & -> & H1 & H2). by exists r.
Qed.

End Register.

(** ** No whole copy *)

Section Default.
Context {W : Type} {F : Flash_layer W} (cfg : config).

Lemma word32_load be m a v : is_u32 v -> load32 be (store_list m a (word32 be v)) a = v.
Proof using.
  intros Hv. assert (E : le_word (u8 v) (u8 (Z.shiftr v 8)) (u8 (Z.shiftr v 16)) (u8 (Z.shiftr v 24)) = v).
  { unfold le_word, u8, is_u32 in *. rewrite !Z.shiftr_div_pow2 by lia. Z.to_euclidean_division_equations. lia. }
  assert (H : forall l, length l = 4%nat -> store_list m a l a = rd l 0 /\ store_list m a l (a + 1) = rd l 1 /\
    store_list m a l (a + 2) = rd l 2 /\ store_list m a l (a + 3) = rd l 3).
  { intros l Hl. rewrite <- !store_list_in with (m := m) (a := a) by (rewrite Hl; lia). by rewrite Z.add_0_r. }
  destruct (H (word32 be v) ltac:(by destruct be)) as (H0 & H1 & H2 & H3). unfold load32. rewrite H0, H1, H2, H3. by destruct be.
Qed.

(** C30: With no whole copy in the flash memory the default environment is used: the copy in RAM passes its check and holds
    the default environment and zeros, and flash memory is left as it is. *)
Theorem boot_default s : bytes (content s) -> Forall is_byte (default_environment cfg) -> 5 <= CONFIG_ENV_SIZE cfg ->
  Z.of_nat (length (default_environment cfg)) <= ENV_SIZE cfg ->
  crc_ok cfg (content s) (CONFIG_ENV_ADDR cfg) = false -> crc_ok cfg (content s) (CONFIG_ENV_ADDR_REDUND cfg) = false ->
  let st := boot cfg s in
  env_valid st = 1 /\ env_addr st = data_at (env_ptr cfg) /\
  copy cfg (content (layer st)) (env_ptr cfg)
    (default_environment cfg ++ repeat 0 (Z.to_nat (ENV_SIZE cfg) - length (default_environment cfg))) /\
  forall x, ~ (env_ptr cfg <= x < env_ptr cfg + CONFIG_ENV_SIZE cfg) -> content (layer st) x = content s x.
Proof using.
  intros Hb Hd Hs Hfit C1 C2. unfold boot, env_init. cbn [reset layer flash_addr flash_addr_new]. rewrite C1, C2. cbn [negb andb].
  unfold env_relocate. cbn [set_gd env_valid Z.eqb]. unfold set_default_env. rewrite (proj2 (Z.ltb_ge _ _)) by done.
  cbn [set_gd set_layer set_valid reset env_valid env_addr layer]. set (e := env_ptr cfg). set (d := default_environment cfg) in *.
  set (s1 := poke s e _). set (s2 := poke s1 (data_at e) d). set (s3 := poke s2 (e + 4) [255]).
  assert (B1 : bytes (content s1)).
  { intros x. unfold s1. rewrite poke_content. apply store_bytes; [done|]. apply List.Forall_forall. intros y Hy.
    apply repeat_spec in Hy as ->. done. }
  assert (B3 : bytes (content s3)).
  { intros x. unfold s3, s2. rewrite !poke_content. apply store_bytes; [|by repeat constructor]. intros y. by apply store_bytes. }
  set (c := crc32 _ (content s3) 0 (data_at e) (ENV_SIZE cfg)).
  assert (Hc : is_u32 c) by (apply crc32_u32; [done|done|unfold ENV_SIZE; lia]).
  set (l := word32 (big_endian cfg) c). assert (Hl : length l = 4%nat) by (unfold l, word32; by destruct (big_endian cfg)).
  assert (Hlb : Forall is_byte l).
  { unfold l, word32. destruct (big_endian cfg); cbn; repeat constructor; apply is_byte_u8. }
  assert (B4 : bytes (content (poke s3 e l))) by (intros x; rewrite poke_content; by apply store_bytes).
  assert (O4 : forall x, ~ (e <= x < e + 4) -> content (poke s3 e l) x = content s3 x).
  { intros x Hx. rewrite poke_content. apply store_list_out. lia. }
  split; [done|]. split; [done|]. split; [split|].
  - unfold crc_ok, crc_of. fold e. rewrite (poke_content s3). unfold l at 2. rewrite word32_load by done. apply Z.eqb_eq.
    apply crc32_bytes; [|done|unfold ENV_SIZE; lia|]; [intros x; by apply store_bytes|].
    intros i Hi. apply store_list_out. unfold data_at. lia.
  - transitivity (mem_list (content s3) (data_at e) (Z.to_nat (ENV_SIZE cfg))); [apply mem_list_ext; intros i Hi; apply O4; unfold data_at in *; lia|].
    transitivity (mem_list (content s2) (data_at e) (Z.to_nat (ENV_SIZE cfg))).
    { apply mem_list_ext. intros i Hi. unfold s3. rewrite poke_content. apply store_list_out. unfold data_at in *. cbn. lia. }
    replace (Z.to_nat (ENV_SIZE cfg)) with (length d + (Z.to_nat (ENV_SIZE cfg) - length d))%nat at 1 by lia.
    unfold s2. rewrite poke_content, mem_list_app, mem_list_store. f_equal.
    apply (nth_ext _ _ 0 0); [by rewrite mem_list_length, repeat_length|]. rewrite mem_list_length. intros n Hn.
    rewrite nth_repeat. pose proof (rd_mem_list (store_list (content s1) (data_at e) d) (data_at e + Z.of_nat (length d))
      (Z.to_nat (ENV_SIZE cfg) - length d) (Z.of_nat n) ltac:(lia)) as H. unfold rd in H. rewrite Nat2Z.id in H. rewrite H.
    rewrite store_list_out by lia. unfold s1. rewrite poke_content. unfold data_at, ENV_SIZE in *.
    replace (e + 5 + Z.of_nat (length d) + Z.of_nat n) with (e + (5 + Z.of_nat (length d) + Z.of_nat n)) by lia.
    rewrite store_list_in by (rewrite repeat_length; lia). apply nth_repeat.
  - intros x Hx. rewrite O4 by lia. unfold s3. rewrite poke_content, store_list_out by (cbn; lia). unfold s2.
    rewrite poke_content, store_list_out by (unfold data_at, ENV_SIZE in *; lia). unfold s1.
    rewrite poke_content. apply store_list_out. rewrite repeat_length. lia.
Qed.
End Default.
