(* ===== verification/EnvOne.v ===== *)
(** The environment in NOR flash in one copy: the part of [common/env_flash.c] without CONFIG_ENV_ADDR_REDUND, for an
    environment that is not embedded, in a sector that has room for more. *)

From S2P Require Import Prelude Crc EnvFlash.

(** CONFIG_ENV_SECT_SIZE is a power of two and more than CONFIG_ENV_SIZE; [env_t] has no flags. *)
Record config : Type := Config {
  big_endian : bool; CONFIG_ENV_ADDR : Z; CONFIG_ENV_SECT_SIZE : Z; CONFIG_ENV_SIZE : Z;
  env_ptr : Z; default_at : Z; env_buffer : Z }.

Definition ENV_SIZE (cfg : config) : Z := CONFIG_ENV_SIZE cfg - 4.
Definition crc_ok (cfg : config) (m : mem) (e : Z) : bool :=
  crc32 (big_endian cfg) m 0 (e + 4) (ENV_SIZE cfg) =? load32 (big_endian cfg) m e.

(** [gd->env_addr] and [gd->env_valid]; before relocation [env_ptr] is the flash memory. *)
Definition env_init (cfg : config) (m : mem) : Z * Z :=
  if crc_ok cfg m (CONFIG_ENV_ADDR cfg) then (CONFIG_ENV_ADDR cfg + 4, 1) else (default_at cfg, 0).

Section One.
Context {W : Type} {F : Flash_layer W} (cfg : config).

Definition flash_offset : Z := Z.land (CONFIG_ENV_ADDR cfg) (CONFIG_ENV_SECT_SIZE cfg - 1).
Definition flash_sect_addr : Z := Z.land (CONFIG_ENV_ADDR cfg) (u32 (Z.lnot (CONFIG_ENV_SECT_SIZE cfg - 1))).

Definition saveenv (s : W) : W * Z :=
  let a := flash_sect_addr in
  let len := CONFIG_ENV_SECT_SIZE cfg in
  let end_addr := u32 (a + len - 1) in
  let s := poke s (env_buffer cfg) (mem_list (content s) a (Z.to_nat len)) in
  let s := poke s (env_buffer cfg + flash_offset) (mem_list (content s) (env_ptr cfg) (Z.to_nat (CONFIG_ENV_SIZE cfg))) in
  let '(s, r) := sect_protect 0 s a end_addr in
  if negb (r =? 0) then (s, 1)
  else
    let '(s, r) := sect_erase s a end_addr in
    if negb (r =? 0) then (s, 1)
    else
      let '(s, rc) := flash_write s (env_buffer cfg) a len in
      let '(s, _) := sect_protect 1 s a end_addr in
      (s, if rc =? 0 then 0 else 1).

(** The part of [env_relocate_spec] that is left. *)
Definition env_relocate_spec (s : W) : W :=
  poke s (env_ptr cfg) (mem_list (content s) (CONFIG_ENV_ADDR cfg) (Z.to_nat (CONFIG_ENV_SIZE cfg))).

(** The sector with the environment, and the places in RAM. *)
Record layout (sector : Z) : Prop := Layout {
  lo_sector : exists q k, 0 <= k <= 32 /\ CONFIG_ENV_SECT_SIZE cfg = 2 ^ k /\ 0 <= q /\ sector = q * 2 ^ k;
  lo_env : sector <= CONFIG_ENV_ADDR cfg /\ CONFIG_ENV_ADDR cfg + CONFIG_ENV_SIZE cfg <= sector + CONFIG_ENV_SECT_SIZE cfg;
  lo_size : 4 < CONFIG_ENV_SIZE cfg;
  lo_writable : writable sector (sector + CONFIG_ENV_SECT_SIZE cfg - 1);
  lo_top : sector + CONFIG_ENV_SECT_SIZE cfg <= 2 ^ 32;
  lo_buffer : 0 <= env_buffer cfg /\ env_buffer cfg + CONFIG_ENV_SECT_SIZE cfg <= 2 ^ 32 /\
    (env_buffer cfg + CONFIG_ENV_SECT_SIZE cfg <= sector \/ sector + CONFIG_ENV_SECT_SIZE cfg <= env_buffer cfg);
  lo_ram : env_ptr cfg + CONFIG_ENV_SIZE cfg <= env_buffer cfg \/ env_buffer cfg + CONFIG_ENV_SECT_SIZE cfg <= env_ptr cfg }.

Lemma sector_of_env sector : layout sector ->
  flash_sect_addr = sector /\ flash_offset = CONFIG_ENV_ADDR cfg - sector /\ 0 < CONFIG_ENV_SECT_SIZE cfg /\ 0 <= sector.
Proof using.
  intros [(q & k & Hk & Hs & Hq & ->) He Hz _ Ht _ _]. unfold flash_sect_addr, flash_offset. rewrite Hs in *.
  set (a := CONFIG_ENV_ADDR cfg) in *. assert (Hp : 0 < 2 ^ k) by (apply Z.pow_pos_nonneg; lia).
  assert (Ha : 0 <= a < 2 ^ 32) by nia. assert (Hq' : a / 2 ^ k = q).
  { symmetry. apply (Z.div_unique_pos a (2 ^ k) q (a - q * 2 ^ k)); lia. }
  rewrite Z.sub_1_r, <- Z.ones_equiv, Z.land_ones by lia. rewrite Z.mod_eq, Hq' by lia. split_and!; try lia.
  assert (E : Z.land a (u32 (Z.lnot (Z.ones k))) = Z.ldiff a (Z.ones k)).
  { apply Z.bits_inj'. intros n Hn. rewrite Z.land_spec, Z.ldiff_spec. unfold u32. rewrite <- Z.land_ones by lia.
    rewrite Z.land_spec, Z.lnot_spec by lia. destruct (Z.lt_ge_cases n 32) as [Hlt|Hge].
    - rewrite (Z.ones_spec_low 32) by lia. by rewrite andb_true_r.
    - rewrite (Z.bits_above_log2 a n); [done|lia|]. destruct (Z.eq_dec a 0) as [->|]; [cbn; lia|]. apply Z.log2_lt_pow2; [lia|].
      apply (Z.lt_le_trans _ (2 ^ 32)); [lia|]. apply Z.pow_le_mono_r; lia. }
  rewrite E, Z.ldiff_ones_r by lia. rewrite Z.shiftl_mul_pow2, Z.shiftr_div_pow2 by lia. by rewrite Hq'.
Qed.

(** Saving in one copy, without redundancy: when [saveenv] returns 0 and the power is still on, the whole environment
    is in flash memory, the rest of its sector is as it was, and the next start finds the environment valid and
    loads it. *)
Theorem saveenv_loads sector s : layout sector -> bytes (content s) -> crc_ok cfg (content s) (env_ptr cfg) = true ->
  let '(s', rc) := saveenv s in
  rc = 0 -> powered s' = true ->
  (forall i, 0 <= i < CONFIG_ENV_SIZE cfg -> content s' (CONFIG_ENV_ADDR cfg + i) = content s (env_ptr cfg + i)) /\
  (forall x, sector <= x < sector + CONFIG_ENV_SECT_SIZE cfg ->
     ~ (CONFIG_ENV_ADDR cfg <= x < CONFIG_ENV_ADDR cfg + CONFIG_ENV_SIZE cfg) -> content s' x = content s x) /\
  env_init cfg (content s') = (CONFIG_ENV_ADDR cfg + 4, 1) /\
  mem_list (content (env_relocate_spec s')) (env_ptr cfg) (Z.to_nat (CONFIG_ENV_SIZE cfg)) =
    mem_list (content s) (env_ptr cfg) (Z.to_nat (CONFIG_ENV_SIZE cfg)).
Proof using.
  intros L Hb Hcrc. destruct (sector_of_env sector L) as (E1 & E2 & Hsz & Hlo). unfold saveenv. rewrite E1, E2. clear E1 E2.
  destruct L as [_ He Hz Hw Ht Hbuf Hram]. rewrite u32_small by lia. set (n := CONFIG_ENV_SECT_SIZE cfg) in *.
  set (a := CONFIG_ENV_ADDR cfg) in *. set (z := CONFIG_ENV_SIZE cfg) in *. set (b := env_buffer cfg) in *.
  set (s1 := poke s b _). set (s2 := poke s1 _ _).
  assert (B : forall i, 0 <= i < n -> content s2 (b + i) =
    if (a - sector <=? i) && (i <? a - sector + z) then content s (env_ptr cfg + (i - (a - sector))) else content s (sector + i)).
  { intros i Hi. unfold s2. rewrite poke_content.
    destruct (Z.leb_spec (a - sector) i); cbn [andb]; [destruct (Z.ltb_spec i (a - sector + z))|].
    - replace (b + i) with (b + (a - sector) + (i - (a - sector))) by lia. rewrite store_list_in by (rewrite mem_list_length; lia).
      rewrite rd_mem_list by lia. unfold s1. rewrite poke_content. apply store_list_out. rewrite mem_list_length. lia.
    - rewrite store_list_out by (rewrite mem_list_length; lia). unfold s1. rewrite poke_content.
      rewrite store_list_in by (rewrite mem_list_length; lia). apply rd_mem_list. lia.
    - rewrite store_list_out by (rewrite mem_list_length; lia). unfold s1. rewrite poke_content.
      rewrite store_list_in by (rewrite mem_list_length; lia). apply rd_mem_list. lia. }
  assert (Hp : forall s c m, bytes (content s) -> bytes (content (poke s c (mem_list (content s) m (Z.to_nat z)))) /\
    bytes (content (poke s c (mem_list (content s) m (Z.to_nat n))))).
  { intros u c m Hu. split; intros x; rewrite poke_content; (apply store_bytes; [done|]); by apply mem_list_bytes. }
  assert (Hb2 : bytes (content s2)) by apply Hp, Hp, Hb.
  pose proof (protect_same 0 s2 sector (sector + n - 1)) as P1. destruct (sect_protect 0 s2 _ _) as [s3 r3]. cbn [fst] in P1.
  destruct (r3 =? 0); cbn [negb]; [|done].
  pose proof (fun x => erase_outside s3 sector (sector + n - 1) x Hw) as P2.
  pose proof (fun x => erase_bytes s3 sector (sector + n - 1) x) as Hb4. rewrite P1 in Hb4. destruct (sect_erase s3 _ _) as [s4 r4]. cbn [fst] in P2, Hb4.
  destruct (r4 =? 0); cbn [negb]; [|done].
  pose proof (fun i => write_inside s4 b sector n i Hw Hsz ltac:(lia) ltac:(lia) ltac:(lia)) as P3.
  pose proof (fun x => write_bytes s4 b sector n x (fun y => Hb4 y (Hb2 y))) as Hb6.
  destruct (flash_write s4 _ _ _) as [s5 rc]. cbn [fst snd] in P3, Hb6.
  pose proof (protect_same 1 s5 sector (sector + n - 1)) as P4. pose proof (protect_power 1 s5 sector (sector + n - 1)) as P5.
  destruct (sect_protect 1 s5 _ _) as [s6 r6]. cbn [fst] in P4, P5. destruct (Z.eqb_spec rc 0) as [Hrc|]; [|done]. intros _ Hon.
  rewrite P5 in Hon. rewrite <- P4 in Hb6.
  assert (C : forall i, 0 <= i < n -> content s6 (sector + i) =
    if (a - sector <=? i) && (i <? a - sector + z) then content s (env_ptr cfg + (i - (a - sector))) else content s (sector + i)).
  { intros i Hi. rewrite P4, P3 by done. rewrite P2 by lia. rewrite P1. by apply B. }
  assert (D : forall i, 0 <= i < z -> content s6 (a + i) = content s (env_ptr cfg + i)).
  { intros i Hi. replace (a + i) with (sector + (a - sector + i)) by lia. rewrite C by lia.
    rewrite (proj2 (Z.leb_le _ _)), (proj2 (Z.ltb_lt _ _)) by lia. cbn [andb]. f_equal. lia. }
  split; [done|]. split; [|split].
  - intros x Hx Hne. replace x with (sector + (x - sector)) by lia. rewrite C by lia.
    destruct (Z.leb_spec (a - sector) (x - sector)), (Z.ltb_spec (x - sector) (a - sector + z)); cbn [andb]; (done || lia).
  - unfold env_init. fold a. replace (crc_ok cfg (content s6) a) with true; [done|]. rewrite <- Hcrc. unfold crc_ok, ENV_SIZE. fold z. f_equal.
    + apply crc32_bytes; try done; [lia|]. intros i Hi. rewrite <- !Z.add_assoc. symmetry. apply D. lia.
    + unfold load32. pose proof (D 0 ltac:(lia)) as D0. rewrite !Z.add_0_r in D0. by rewrite D0, !D by lia.
  - unfold env_relocate_spec. fold z a. rewrite poke_content.
    replace (Z.to_nat z) with (length (mem_list (content s6) a (Z.to_nat z))) at 2 by apply mem_list_length.
    rewrite mem_list_store. apply mem_list_move. intros i Hi. apply D. lia.
Qed.
End One.
