(* ===== verification/EnvNor.v ===== *)
(** The flash layer that the environment needs, from the functions of [common/flash.c]: an instance of
    [EnvFlash.Flash_layer] for banks that lie one behind the other, above a driver of the chips that
    promises the same of its calls, also of those that fail or are cut off by a power failure.  The driver may leave out
    protected sectors when it erases, as [drivers/mtd/cfi_flash.c] does. *)

From S2P Require Import Prelude Crc EnvOne EnvFlash Flash.

(** ** The driver *)

(** Address [x] is in one of the sectors [f] to [l] of bank [b]. *)
Definition in_sectors (banks : list flash_info_t) (b : nat) (f l x : Z) : Prop :=
  exists info i, banks !! b = Some info /\ f <= i <= l /\ start info i <= x < next info i.

(** The same, and the sector is not protected according to [banks]. *)
Definition bare (geo banks : list flash_info_t) (b : nat) (f l x : Z) : Prop :=
  exists info info' i, geo !! b = Some info /\ banks !! b = Some info' /\ f <= i <= l /\ start info i <= x < next info i /\
    protect info' i = 0.

Lemma bare_sector geo banks b f l x : bare geo banks b f l x -> in_sectors geo b f l x.
Proof. intros (info & info' & i & H1 & _ & H2 & H3 & _). by exists info, i. Qed.

Class Driver (geo : list flash_info_t) (V : Type) := {
  bytes_of : V -> mem;
  power : V -> bool;
  put : V -> Z -> list Z -> V;
  write_buff : nat -> V -> Z -> Z -> Z -> V * Z;
  flash_erase : list flash_info_t -> nat -> V -> Z -> Z -> V * Z;
  put_bytes w a l : bytes_of (put w a l) = store_list (bytes_of w) a l;
  put_power w a l : power (put w a l) = power w;
  buff_off b w src a n : power w = false ->
    bytes_of (fst (write_buff b w src a n)) = bytes_of w /\ power (fst (write_buff b w src a n)) = false;
  buff_byte b w src a n x : (forall y, is_byte (bytes_of w y)) -> is_byte (bytes_of (fst (write_buff b w src a n)) x);
  buff_torn b info w src a n x : geo !! b = Some info -> start info 0 <= a -> 0 < n -> a + n <= start info 0 + size info ->
    ~ (a <= x < a + n) -> bytes_of (fst (write_buff b w src a n)) x = bytes_of w x;
  buff_one b info w src a : geo !! b = Some info -> start info 0 <= a < start info 0 + size info ->
    mixed (bytes_of w a) (bytes_of w src) (bytes_of (fst (write_buff b w src a 1)) a);
  buff_done b info w src a n x : geo !! b = Some info -> start info 0 <= a -> 0 < n -> a + n <= start info 0 + size info ->
    snd (write_buff b w src a n) = 0 -> power (fst (write_buff b w src a n)) = true -> a <= x < a + n ->
    bytes_of (fst (write_buff b w src a n)) x = bytes_of w (src + (x - a));
  er_off banks b w f l : power w = false ->
    bytes_of (fst (flash_erase banks b w f l)) = bytes_of w /\ power (fst (flash_erase banks b w f l)) = false;
  er_byte banks b w f l x : is_byte (bytes_of w x) -> is_byte (bytes_of (fst (flash_erase banks b w f l)) x);
  er_torn banks b w f l x : (b < length geo)%nat -> ~ in_sectors geo b f l x ->
    bytes_of (fst (flash_erase banks b w f l)) x = bytes_of w x;
  er_done banks b w f l x : snd (flash_erase banks b w f l) = 0 -> power (fst (flash_erase banks b w f l)) = true ->
    bare geo banks b f l x -> bytes_of (fst (flash_erase banks b w f l)) x = 255 }.

(** ** The banks *)

(** The same banks but for the protection. *)
Definition alike (i j : flash_info_t) : Prop :=
  size i = size j /\ sector_count i = sector_count j /\ flash_id i = flash_id j /\ start i = start j.

Lemma alike_known i j : alike i j -> known i = known j.
Proof. intros (_ & _ & H & _). unfold known. by rewrite H. Qed.

Lemma alike_next i j s : alike i j -> next i s = next j s.
Proof. intros (H1 & H2 & _ & H4). unfold next. by rewrite H1, H2, H4. Qed.

Lemma alike_wf i j : alike i j -> wf j -> wf i.
Proof.
  intros H [W1 W2 W3 W4 W5]. pose proof (fun s => alike_next i j s H) as Hn. destruct H as (H1 & H2 & _ & H4).
  split; rewrite ?H1, ?H2, ?H4; try done. intros s Hs. rewrite Hn. by apply W3.
Qed.

Lemma alike_chain banks geo : Forall2 alike banks geo -> forall a, chain a geo -> chain a banks /\ limit a banks = limit a geo.
Proof.
  induction 1 as [|i j banks geo Ha H IH]; intros a Hc; [done|]. cbn [chain limit] in *. rewrite (alike_known _ _ Ha).
  pose proof Ha as (H1 & H2 & _ & H4). destruct (known j).
  - destruct Hc as (Hwf & Hs & Hc). rewrite H1, H4. destruct (IH _ Hc) as [IH1 IH2]. split; [|done].
    split; [by apply (alike_wf i j)|done].
  - split; [|done]. clear IH. induction H as [|i' j' banks geo Ha' H IH]; [constructor|]. apply List.Forall_cons_iff in Hc as [Hk Hc].
    constructor; [by rewrite (alike_known _ _ Ha')|by apply IH].
Qed.

Lemma alike_sectors banks geo b f l x : Forall2 alike banks geo -> in_sectors banks b f l x <-> in_sectors geo b f l x.
Proof.
  intros H. rewrite Forall2_lookup in H. specialize (H b). split; intros (info & i & Hb & Hi & Hx); rewrite Hb in H;
    inversion H as [i1 i2 Ha E1 E2|]; subst; pose proof (alike_next _ _ i Ha) as Hn; destruct Ha as (_ & _ & _ & Hs);
    [exists i2|exists i1]; exists i; (split; [done|]; split; [done|]); [by rewrite <- Hs, <- Hn|by rewrite Hs, Hn].
Qed.

Lemma fill_length banks f l : let '(_, r, _, _) := flash_fill_sect_ranges banks f l in length r = length banks.
Proof.
  revert f. induction banks as [|info banks IH]; intros f; [done|]. cbn [flash_fill_sect_ranges length].
  destruct (l <? f); [cbn; by rewrite repeat_length|]. destruct (negb (known info)).
  { specialize (IH f). destruct (flash_fill_sect_ranges banks f l) as [[[rc r] n] o]. cbn. by rewrite IH. }
  destruct (scan info f l) as [s e]. destruct (0 <=? s); [|destruct (_ && _); [|destruct (0 <=? e)]].
  - destruct (_ && _); [cbn; by rewrite repeat_length|]. destruct (_ <? _); [cbn; by rewrite repeat_length|].
    match goal with |- context [flash_fill_sect_ranges banks ?a l] => specialize (IH a); destruct (flash_fill_sect_ranges banks a l) as [[[rc r] n] o] end.
    cbn. by rewrite IH.
  - cbn. by rewrite repeat_length.
  - cbn. by rewrite repeat_length.
  - specialize (IH f). destruct (flash_fill_sect_ranges banks f l) as [[[rc r] n] o]. cbn. by rewrite IH.
Qed.

Lemma protect_alike p banks geo f l : Forall2 alike banks geo -> Forall2 alike (fst (fst (flash_sect_protect p banks f l))) geo.
Proof.
  intros H. unfold flash_sect_protect. pose proof (fill_length banks f l) as Hlen.
  destruct (flash_fill_sect_ranges banks f l) as [[[rc r] n] o]. destruct (_ && _); [|by destruct (rc =? 0)]. cbn [fst].
  revert r Hlen. induction H as [|i j banks geo Ha H IH]; intros r Hlen; [constructor|].
  destruct r as [|[f' l'] r]; [done|]. cbn [combine map]. constructor; [|apply IH; by injection Hlen].
  destruct (_ && _); [|done]. destruct (fold_protect p f' l' i 0) as [(H1 & H2 & H3 & H4) _].
  destruct Ha as (A1 & A2 & A3 & A4). by split_and!; etransitivity.
Qed.

(** An address is in one bank only. *)
Lemma bank_of banks : forall a b info x, chain a banks -> banks !! b = Some info -> known info = true ->
  start info 0 <= x < start info 0 + size info -> addr2info banks x = Some b.
Proof.
  induction banks as [|i banks IH]; intros a b info x Hc Hb Hk Hx; [done|]. destruct (known i) eqn:Hi.
  - pose proof (chain_known _ _ _ Hc Hi) as (Hwf & Hs & Hc'). rewrite (addr2info_cons a) by done. destruct b as [|b].
    + injection Hb as ->. rewrite (proj2 (Z.leb_le _ _)), (proj2 (Z.ltb_lt _ _)) by lia. done.
    + cbn in Hb. assert (Hin : In info banks) by (apply list_elem_of_In; by apply list_elem_of_lookup_2 in Hb).
      destruct (chain_in _ _ _ Hc' Hin Hk) as (_ & H & _).
      rewrite (proj2 (Z.ltb_ge x _)), andb_false_r by lia. by rewrite (IH _ b info x Hc' Hb Hk Hx).
  - pose proof (chain_unknown _ _ _ Hc Hi) as Hu. destruct b as [|b]; [injection Hb as ->; by rewrite Hi in Hk|]. cbn in Hb.
    rewrite List.Forall_forall in Hu. rewrite (Hu info) in Hk; [done|]. apply list_elem_of_In. by apply list_elem_of_lookup_2 in Hb.
Qed.

Lemma covered banks : forall a x, chain a banks -> a <= x < limit a banks ->
  exists b info i, banks !! b = Some info /\ known info = true /\ wf info /\ 0 <= i < sector_count info /\ start info i <= x < next info i.
Proof.
  induction banks as [|info banks IH]; intros a x Hc Hx; [cbn in Hx; lia|]. cbn [limit] in Hx. destruct (known info) eqn:Hk; [|lia].
  destruct (chain_known _ _ _ Hc Hk) as (Hwf & Hs & Hc'). destruct (Z_lt_dec x (a + size info)).
  - destruct (sector_at info Hwf x ltac:(lia)) as (i & Hi & Hix). by exists O, info, i.
  - destruct (IH _ x Hc' ltac:(lia)) as (b & info' & i & Hb & H). by exists (S b), info', i.
Qed.

(** ** The loops *)

Section Loops.
Context {geo : list flash_info_t} {V : Type} {Dr : Driver geo V}.
(** What holds of the driver's calls holds of all of them. *)
Context (R : V -> V -> Prop) (Rrefl : forall w, R w w) (Rtrans : forall u v w, R u v -> R v w -> R u w).

Lemma erase_loop_rel info_of ranges : forall k w n,
  (forall j f l w, ranges !! j = Some (f, l) -> 0 <= f -> R w (fst (flash_erase info_of (k + j)%nat w f l))) ->
  R w (fst (fst (erase_loop (flash_erase info_of) k ranges w n))).
Proof using Rrefl Rtrans.
  induction ranges as [|[f l] ranges IH]; intros k w n H; [apply Rrefl|]. cbn [erase_loop].
  assert (Hs : forall j f l w, ranges !! j = Some (f, l) -> 0 <= f -> R w (fst (flash_erase info_of (S k + j)%nat w f l))).
  { intros j f' l' w' Hj Hf. specialize (H (S j) f' l' w' Hj Hf). by rewrite Nat.add_succ_r in H. }
  destruct (Z.leb_spec 0 f) as [Hf|Hf]; [|by apply IH]. specialize (H O f l w eq_refl Hf). rewrite Nat.add_0_r in H.
  destruct (flash_erase info_of k w f l) as [w1 rc]. cbn [fst] in H. destruct (rc =? 0); [|done].
  apply (Rtrans _ w1); [done|]. by apply IH.
Qed.

Lemma write_loop_rel l : forall w src a n,
  (forall b w src a n, R w (fst (write_buff b w src a n))) -> R w (fst (write_loop write_buff l w src a n)).
Proof using Rrefl Rtrans.
  induction l as [|[b info] l IH]; intros w src a n H; [apply Rrefl|]. cbn [write_loop]. destruct (0 <? n); [|apply Rrefl].
  set (len := if n <? _ then _ else _). pose proof (H b w src a len) as H1. destruct (write_buff b w src a len) as [w1 rc].
  cbn [fst] in H1. destruct (negb (rc =? 0)); [done|]. apply (Rtrans _ w1); [done|]. by apply IH.
Qed.

(** The calls stay in their banks and in the range, and the source keeps in step. *)
Context (banks : list flash_info_t) (a0 n0 src0 : Z).
Context (Rcall : forall b info w src a n, banks !! b = Some info -> start info 0 <= a -> 0 < n -> a + n <= start info 0 + size info ->
  a0 <= a -> a + n <= a0 + n0 -> (0 <= src0 -> src0 + n0 <= 2 ^ 32 -> src = src0 + (a - a0)) -> R w (fst (write_buff b w src a n))).

Lemma piece_rel k info l w src a n :
  wf info -> banks !! k = Some info -> start info 0 <= a -> 0 < n -> a + n <= start info 0 + size info -> a0 <= a -> a + n = a0 + n0 ->
  start info 0 + size info < 2 ^ 32 -> (0 <= src0 -> src0 + n0 <= 2 ^ 32 -> src = src0 + (a - a0)) ->
  R w (fst (write_loop write_buff (between_from k (info :: l) 0 0) w src a n)).
Proof using Rrefl Rcall.
  intros Hwf Hb Hlo Hn Hhi Ha Hend Htop Hsrc. pose proof (wf_low info Hwf). rewrite between_one. cbn [write_loop].
  rewrite (proj2 (Z.ltb_lt 0 n)), u32_small by lia.
  replace (if n <? start info 0 + size info - a then n else start info 0 + size info - a) with n by (bdestruct).
  pose proof (Rcall k info w src a n Hb Hlo Hn Hhi Ha ltac:(lia) Hsrc) as H1. destruct (write_buff k w src a n) as [w' rc].
  by destruct (negb (rc =? 0)).
Qed.

Lemma pieces_rel l : forall k info w src a n last base,
  chain base (info :: l) -> known info = true -> (forall j i, (info :: l) !! j = Some i -> banks !! (k + j)%nat = Some i) ->
  base <= a < base + size info -> 0 < n -> limit base (info :: l) < 2 ^ 32 -> addr2info (info :: l) (a + n - 1) = Some last ->
  a0 <= a -> a + n = a0 + n0 -> (0 <= src0 -> src0 + n0 <= 2 ^ 32 -> src = src0 + (a - a0)) ->
  R w (fst (write_loop write_buff (between_from k (info :: l) 0 last) w src a n)).
Proof using Rrefl Rtrans Rcall.
  induction l as [|info' l IH]; intros k info w src a n last base Hc Hk Hb Ha Hn Hlim Hlast Ha0 Hend Hsrc;
    destruct (chain_known _ _ _ Hc Hk) as (Hwf & Hs & Hc');
    pose proof (limit_ge _ _ Hc') as Hge; pose proof (wf_low info Hwf) as Hlow;
    pose proof (Hb O info eq_refl) as Hb0; rewrite Nat.add_0_r in Hb0;
    match type of Hc with chain _ (_ :: ?t) =>
      change (limit base (info :: t)) with (if known info then limit (base + size info) t else base) in Hlim end; rewrite Hk in Hlim;
    rewrite (addr2info_cons base) in Hlast by done; rewrite (proj2 (Z.leb_le _ _)) in Hlast by lia;
    destruct (Z.ltb_spec (a + n - 1) (base + size info)) as [Hin|Hout]; cbn [andb] in Hlast; try done;
    try (injection Hlast as <-; apply piece_rel; (done || lia)).
  destruct (addr2info (info' :: l) (a + n - 1)) as [j|] eqn:Hj; [|done]. injection Hlast as <-. rewrite between_more. cbn [write_loop].
  rewrite (proj2 (Z.ltb_lt 0 n)) by done. set (len := base + size info - a). rewrite u32_small, Hs by lia. fold len.
  replace (if n <? len then n else len) with len by (unfold len; bdestruct).
  pose proof (Rcall k info w src a len Hb0 ltac:(lia) ltac:(unfold len; lia) ltac:(unfold len; lia) Ha0 ltac:(unfold len; lia) Hsrc) as H1.
  destruct (write_buff k w src a len) as [w1 rc]. cbn [fst] in H1. destruct (negb (rc =? 0)); [done|]. apply (Rtrans _ w1); [done|].
  assert (Hk' : known info' = true).
  { destruct (known info') eqn:Hk'; [done|]. rewrite addr2info_none in Hj; [done|]. constructor; [done|]. by apply (chain_unknown _ _ _ Hc'). }
  pose proof (chain_size info' (proj1 (chain_known _ _ _ Hc' Hk'))) as Hsz.
  rewrite (u32_small (a + len)) by (unfold len; lia). apply (IH (S k) info' w1 _ _ _ j (base + size info)); try done.
  - intros m i Hm. specialize (Hb (S m) i Hm). by rewrite Nat.add_succ_r in Hb.
  - unfold len. lia.
  - unfold len. lia.
  - by replace (a + len + (n - len) - 1) with (a + n - 1) by lia.
  - unfold len. lia.
  - lia.
  - intros H2 H3. rewrite (Hsrc H2 H3), u32_small by (unfold len; lia). lia.
Qed.

Lemma banks_rel l : forall k w base first last,
  chain base l -> (forall j i, l !! j = Some i -> banks !! (k + j)%nat = Some i) -> 0 < n0 -> base <= a0 -> limit base l < 2 ^ 32 ->
  addr2info l a0 = Some first -> addr2info l (a0 + n0 - 1) = Some last ->
  R w (fst (write_loop write_buff (between_from k l first last) w src0 a0 n0)).
Proof using Rrefl Rtrans Rcall.
  induction l as [|info l IH]; intros k w base first last Hc Hb Hn Ha Hlim E1 E2; [done|]. destruct (known info) eqn:Hk; cycle 1.
  { rewrite addr2info_none in E1; [done|]. constructor; [done|]. by apply (chain_unknown _ _ _ Hc). }
  destruct (chain_known _ _ _ Hc Hk) as (Hwf & Hs & Hc'). destruct (Z_lt_dec a0 (base + size info)) as [Hin|Hout].
  - pose proof E1 as E1'. rewrite (addr2info_cons base) in E1' by done. rewrite (proj2 (Z.leb_le _ _)), (proj2 (Z.ltb_lt _ _)) in E1' by lia.
    injection E1' as <-. apply (pieces_rel l k info w src0 a0 n0 last base); (done || lia).
  - rewrite (addr2info_cons base) in E1, E2 by done.
    rewrite (proj2 (Z.ltb_ge a0 _)), andb_false_r in E1 by lia. rewrite (proj2 (Z.ltb_ge (a0 + n0 - 1) _)), andb_false_r in E2 by lia.
    destruct (addr2info l a0) as [f|] eqn:F1; [|done]. destruct (addr2info l (a0 + n0 - 1)) as [j|] eqn:F2; [|done].
    injection E1 as <-. injection E2 as <-. rewrite between_skip. cbn [limit] in Hlim. rewrite Hk in Hlim.
    apply (IH (S k) w (base + size info)); try done; [|lia].
    intros m i Hm. specialize (Hb (S m) i Hm). by rewrite Nat.add_succ_r in Hb.
Qed.
End Loops.

(** ** Erasing *)

Section Erase.
Context {geo : list flash_info_t} {V : Type} {Dr : Driver geo V}.

(** Of the ranges, numbered as the banks from [k] on, only one has the address: it is erased. *)
Lemma erase_loop_in banks x ranges : forall k w n j f l,
  (k + length ranges <= length geo)%nat -> ranges !! j = Some (f, l) -> 0 <= f -> bare geo banks (k + j) f l x ->
  (forall j' f' l', ranges !! j' = Some (f', l') -> 0 <= f' -> in_sectors geo (k + j') f' l' x -> j' = j) ->
  let '(w', rc, _) := erase_loop (flash_erase banks) k ranges w n in rc = 0 -> power w' = true -> bytes_of w' x = 255.
Proof using.
  induction ranges as [|[f0 l0] ranges IH]; intros k w n j f l Hlen Hj Hf Hx Hu; [done|]. cbn [erase_loop length] in *.
  destruct j as [|j].
  - injection Hj as -> ->. rewrite (proj2 (Z.leb_le 0 f)) by done. rewrite Nat.add_0_r in Hx.
    pose proof (er_done banks k w f l x) as Hd. destruct (flash_erase banks k w f l) as [w1 rc1]. cbn [fst snd] in Hd.
    destruct (Z.eqb_spec rc1 0) as [->|]; [|done].
    assert (H : forall w', w' = fst (fst (erase_loop (flash_erase banks) (S k) ranges w1 (n + (l - f + 1)))) ->
      (power w' = true -> power w1 = true) /\ bytes_of w' x = bytes_of w1 x).
    { intros w' ->. apply (erase_loop_rel (fun a b => (power b = true -> power a = true) /\ bytes_of b x = bytes_of a x)); [done| |].
      - intros u v w2 [H1 H2] [H3 H4]. split; [by auto|by rewrite H4].
      - intros j' f' l' u Hj' Hf'. split.
        + intros Hu'. destruct (power u) eqn:E; [done|]. by rewrite (proj2 (er_off _ _ u _ _ E)) in Hu'.
        + apply er_torn; [apply lookup_lt_Some in Hj'; lia|]. intros Hin. specialize (Hu (S j') f' l' Hj' Hf').
          rewrite Nat.add_succ_r in Hu. by specialize (Hu Hin). }
    destruct (erase_loop _ _ _ _ _) as [[w' rc] m]. intros _ Hon. destruct (H w' eq_refl) as [H1 ->]. by apply Hd; [|apply H1|].
  - assert (Hi : forall w n, let '(w', rc, _) := erase_loop (flash_erase banks) (S k) ranges w n in rc = 0 -> power w' = true -> bytes_of w' x = 255).
    { intros w' n'. rewrite Nat.add_succ_r in Hx. apply (IH (S k) w' n' j f l); try done; [lia|].
      intros j' f' l' Hj' Hf' Hx'. assert (S j' = S j); [|lia]. apply (Hu (S j') f' l' Hj' Hf'). by rewrite Nat.add_succ_r. }
    destruct (0 <=? f0); [|apply Hi]. destruct (flash_erase banks k w f0 l0) as [w1 rc1]. destruct (Z.eqb_spec rc1 0); [apply Hi|done].
Qed.

Context (base : Z) (Hchain : chain base geo) (Hbase : 0 <= base) (Hlimit : limit base geo < 2 ^ 32).
Context (banks : list flash_info_t) (Hal : Forall2 alike banks geo).

(** The ranges that [flash_fill_sect_ranges] gives for addresses in the banks. *)
Definition ranged (first last : Z) (r : list (Z * Z)) : Prop :=
  length r = length geo /\
  (forall b f l x, r !! b = Some (f, l) -> 0 <= f -> in_sectors geo b f l x ->
    first <= x <= last /\ addr2info banks x = Some b) /\
  (forall x, first <= x <= last -> ~ guarded banks first last -> exists b f l, r !! b = Some (f, l) /\ 0 <= f /\ bare geo banks b f l x).

Lemma erase_plan first last : base <= first -> first <= last -> last < limit base geo ->
  let '(rc, r, n, _) := flash_fill_sect_ranges banks first last in
  (rc = 1 \/ n = 0 /\ rc = 0) \/ ~ ~ (rc = 0 /\ 1 <= n /\ ranged first last r).
Proof using Hchain Hbase Hlimit Hal.
  intros Hf Hle Hl. destruct (alike_chain _ _ Hal _ Hchain) as [Hc Elim].
  pose proof (fill_spec banks base first last Hc Hbase ltac:(lia) ltac:(lia)) as H. pose proof (fill_length banks first last) as Hlen.
  destruct (flash_fill_sect_ranges banks first last) as [[[rc r] n] o]. destruct H as [Hyes Hno].
  destruct (decide (rc = 1 \/ n = 0 /\ rc = 0)) as [?|Hgood]; [by left|]. right. intros Hx. apply Hgood, Hno. intros [Hb Hs]. apply Hx.
  destruct (Hyes Hb Hs) as (-> & _ & Hn & Hr). split; [done|]. split; [done|]. rewrite Forall2_lookup in Hr.
  split; [rewrite Hlen; by apply Forall2_length in Hal|]. split.
  - intros b f l x Hrb Hf0 Hin. apply (alike_sectors banks geo) in Hin; [|done]. destruct Hin as (info & i & Hib & Hi & Hix).
    specialize (Hr b). rewrite Hib, Hrb in Hr. inversion Hr as [? ? Hp E1 E2|]; subst. destruct (Hp i) as [H1 H2]. cbn [fst snd] in *.
    destruct (proj1 H1 (conj Hf0 Hi)) as (Hk & Hic & _). specialize (H2 Hf0 Hi). split; [lia|].
    apply (bank_of banks base b info); try done. pose proof (sector_bounds info) as Hsb.
    destruct (chain_in banks base info Hc) as (Hwf & _); [apply list_elem_of_In; by apply list_elem_of_lookup_2 in Hib|done|].
    specialize (Hsb Hwf i Hic). lia.
  - intros x Hx' Hg. destruct (covered banks base x Hc ltac:(lia)) as (b & info & i & Hib & Hk & Hwf & Hic & Hix).
    specialize (Hr b). rewrite Hib in Hr. inversion Hr as [? [f l] Hp E1 E2|]; subst. destruct (Hp i) as [H1 _]. cbn [fst snd] in *.
    destruct (proj2 H1) as [Hf0 Hi]; [split; [done|]; split; [done|]; unfold overlaps; lia|].
    exists b, f, l. split; [done|]. split; [done|].
    pose proof Hal as Ha. rewrite Forall2_lookup in Ha. specialize (Ha b). rewrite Hib in Ha. inversion Ha as [? j A G1 G2|]; subst.
    exists j, info, i. split; [done|]. split; [done|]. split; [done|]. rewrite <- (alike_next _ _ i A). destruct A as (_ & _ & _ & <-).
    split; [done|]. destruct (Z.eq_dec (protect info i) 0) as [|Hpr]; [done|]. destruct Hg. exists info, i.
    split; [apply list_elem_of_In; by apply list_elem_of_lookup_2 in Hib|]. split; [done|]. split; [done|]. split; [|done].
    unfold overlaps. lia.
Qed.

Lemma sect_erase_outside w first last x : base <= first -> first <= last -> last < limit base geo -> ~ (first <= x <= last) ->
  bytes_of (fst (fst (flash_sect_erase (flash_erase banks) banks w first last))) x = bytes_of w x.
Proof using Hchain Hbase Hlimit Hal.
  intros Hf Hle Hl Hx. pose proof (erase_plan first last Hf Hle Hl) as H. unfold flash_sect_erase.
  destruct (flash_fill_sect_ranges banks first last) as [[[rc r] n] o]. destruct H as [[->|[-> ->]]|H].
  - by rewrite andb_false_r.
  - done.
  - apply dec_stable. intros Hne. apply H. intros (-> & Hn & Hlen & Hr & _). apply Hne.
    rewrite (proj2 (Z.eqb_neq n 0)) by lia. cbn [negb andb Z.eqb].
    pose proof (erase_loop_rel (fun a b => bytes_of b x = bytes_of a x) ltac:(done) ltac:(cbn; congruence) banks r 0 w 0) as Hloop.
    destruct (erase_loop _ _ _ _ _) as [[w' rc] m]. apply Hloop. intros j f l u Hj Hf0. apply er_torn; [apply lookup_lt_Some in Hj; lia|].
    intros Hin. by destruct (Hr j f l x Hj Hf0 Hin).
Qed.

Lemma sect_erase_inside w first last x : base <= first -> first <= last -> last < limit base geo -> ~ guarded banks first last ->
  first <= x <= last ->
  let '(w', rc, _) := flash_sect_erase (flash_erase banks) banks w first last in rc = 0 -> power w' = true -> bytes_of w' x = 255.
Proof using Hchain Hbase Hlimit Hal.
  intros Hf Hle Hl Hg Hx. pose proof (erase_plan first last Hf Hle Hl) as H. unfold flash_sect_erase.
  destruct (flash_fill_sect_ranges banks first last) as [[[rc r] n] o]. destruct H as [[->|[-> ->]]|H].
  - by rewrite andb_false_r.
  - done.
  - destruct (erase_loop (flash_erase banks) 0 r w 0) as [[w' rc'] m] eqn:E. destruct (negb (n =? 0) && (rc =? 0)) eqn:E2; cycle 1.
    { destruct (Z.eqb_spec rc 0) as [->|]; [done|]. intros ->. done. }
    intros -> Hon. apply dec_stable. intros Hne. apply H. intros (-> & Hn & Hlen & Hr & Hcov). apply Hne.
    destruct (Hcov x Hx Hg) as (b & f & l & Hb & Hf0 & Hin).
    pose proof (erase_loop_in banks x r 0 w 0 b f l ltac:(lia) Hb Hf0 Hin) as Hloop. rewrite E in Hloop. apply Hloop; [|done|done].
    intros b' f' l' Hb' Hf' Hin'. destruct (Hr b f l x Hb Hf0 (bare_sector _ _ _ _ _ _ Hin)) as [_ E1']. destruct (Hr b' f' l' x Hb' Hf' Hin') as [_ E2'].
    rewrite E1' in E2'. by injection E2'.
Qed.
End Erase.

(** ** Writing *)

Section Write.
Context {geo : list flash_info_t} {V : Type} {Dr : Driver geo V}.
Context (base : Z) (Hchain : chain base geo) (Hbase : 0 <= base) (Hlimit : limit base geo < 2 ^ 32).
Context (banks : list flash_info_t) (Hal : Forall2 alike banks geo).

Lemma in_geo b info : banks !! b = Some info -> exists info', geo !! b = Some info' /\ alike info info'.
Proof using Hal.
  intros Hb. pose proof Hal as H. rewrite Forall2_lookup in H. specialize (H b). rewrite Hb in H. inversion H as [? j Ha E1 E2|]; subst.
  by exists j.
Qed.

(** The call of [write_buff] is inside its bank. *)
Definition inside (info : flash_info_t) (a n : Z) : Prop := start info 0 <= a /\ 0 < n /\ a + n <= start info 0 + size info.

Lemma inside_alike i j a n : alike i j -> inside i a n -> inside j a n.
Proof using. unfold inside. intros (-> & _ & _ & ->). done. Qed.

Lemma flash_write_rel (R : V -> V -> Prop) w src a n :
  (forall w, R w w) -> (forall u v w, R u v -> R v w -> R u w) -> 0 < n -> 0 <= a -> a + n <= 2 ^ 32 ->
  (forall b info w src' a' n', geo !! b = Some info -> inside info a' n' -> a <= a' -> a' + n' <= a + n ->
     (0 <= src -> src + n <= 2 ^ 32 -> src' = src + (a' - a)) -> R w (fst (write_buff b w src' a' n'))) ->
  R w (fst (flash_write write_buff banks w src a n)).
Proof using Hchain Hlimit Hal Hbase.
  intros Rr Rt Hn Ha Htop Hcall. unfold flash_write. rewrite (proj2 (Z.eqb_neq n 0)), u32_small by lia.
  destruct (addr2info banks a) as [f|] eqn:E1; [|apply Rr]. destruct (addr2info banks (a + n - 1)) as [l|] eqn:E2; [|apply Rr].
  destruct (existsb _ _); [apply Rr|]. destruct (alike_chain _ _ Hal _ Hchain) as [Hc Elim].
  assert (Hlo : base <= a).
  { destruct (Z_le_dec base a); [done|]. rewrite (proj2 (addr2info_in banks a base Hc)) in E1; [done|lia]. }
  change (between banks f l) with (between_from 0 banks f l).
  apply (banks_rel R Rr Rt banks a n src) with (base := base); try done; [|by rewrite Elim].
  intros b info u src' a' n' Hb H1 H2 H3 H4 H5 H6. destruct (in_geo b info Hb) as (info' & Hb' & Hx).
  apply (Hcall b info'); try done. by apply (inside_alike info).
Qed.

Lemma flash_write_outside w src a n x : 0 < n -> 0 <= a -> a + n <= 2 ^ 32 -> ~ (a <= x < a + n) ->
  bytes_of (fst (flash_write write_buff banks w src a n)) x = bytes_of w x.
Proof using Hchain Hlimit Hal Hbase.
  intros Hn Ha Htop Hx. apply (flash_write_rel (fun u v => bytes_of v x = bytes_of u x)); try done; [cbn; congruence|].
  intros b info u src' a' n' Hb (H1 & H2 & H3) H4 H5 _. apply (buff_torn b info); try done. lia.
Qed.

Lemma flash_write_one w src a : 0 <= a < 2 ^ 32 -> 0 <= src < 2 ^ 32 -> src <> a ->
  mixed (bytes_of w a) (bytes_of w src) (bytes_of (fst (flash_write write_buff banks w src a 1)) a).
Proof using Hchain Hlimit Hal Hbase.
  intros Ha Hs Hne.
  apply (flash_write_rel (fun u v => mixed (bytes_of u a) (bytes_of u src) (bytes_of v a) /\ bytes_of v src = bytes_of u src)
    w src a 1); [intros u; split; [intros i Hi; by left|done]| |lia..|].
  - intros u v z [H1 H2] [H3 H4]. split; [|congruence]. rewrite H2 in H3. intros i Hi.
    destruct (H3 i Hi) as [E|E]; [rewrite E; by apply H1|by right].
  - intros b info u src' a' n' Hb (H1 & H2 & H3) H4 H5 H6. rewrite H6 by lia. replace n' with 1 by lia. replace a' with a by lia.
    rewrite Z.sub_diag, Z.add_0_r. split; [apply (buff_one b info); [done|lia]|]. apply (buff_torn b info); (done || lia).
Qed.

(** A power failure as an error of the driver. *)
Definition write_or_off (b : nat) (w : V) (src a n : Z) : V * Z :=
  let '(w, rc) := write_buff b w src a n in (w, if power w then rc else 1).

Lemma loop_power l w src a n : power (fst (write_loop write_buff l w src a n)) = true -> power w = true.
Proof using.
  apply (write_loop_rel (fun u v => power v = true -> power u = true)); [done|auto|]. intros b u src' a' n' H.
  destruct (power u) eqn:E; [done|]. by rewrite (proj2 (buff_off b u src' a' n' E)) in H.
Qed.

Lemma loop_or_off l : forall w src a n w', write_loop write_buff l w src a n = (w', 0) -> power w' = true ->
  write_loop write_or_off l w src a n = (w', 0).
Proof using.
  induction l as [|[b info] l IH]; intros w src a n w' H Hon; [done|]. cbn [write_loop] in *. destruct (0 <? n); [|done].
  set (len := if n <? _ then _ else _) in *. change (write_or_off b w src a len) with
    (let '(w, rc) := write_buff b w src a len in (w, if power w then rc else 1)).
  destruct (write_buff b w src a len) as [w1 rc]. destruct (Z.eqb_spec rc 0) as [Hrc|Hrc]; cbn [negb] in H; [subst rc|].
  - pose proof (loop_power l w1 _ _ _ ltac:(rewrite H; exact Hon)) as ->. cbn [Z.eqb negb]. by apply IH.
  - injection H as <- Hz. by destruct Hrc.
Qed.

Lemma flash_write_inside w src a n : base <= a -> 0 < n -> a + n <= limit base geo -> 0 <= src -> src + n <= 2 ^ 32 ->
  src + n <= a \/ a + n <= src ->
  let '(w', rc) := flash_write write_buff banks w src a n in
  rc = 0 -> power w' = true -> forall i, 0 <= i < n -> bytes_of w' (a + i) = bytes_of w (src + i).
Proof using Hchain Hlimit Hal Hbase.
  intros Ha Hn Hl Hs Hs' Hd. destruct (alike_chain _ _ Hal _ Hchain) as [Hc Elim]. unfold flash_write.
  rewrite (proj2 (Z.eqb_neq n 0)), u32_small by lia.
  destruct (write_from write_or_off bytes_of banks) with (l := banks) (k := 0%nat) (w := w) (src := src) (addr := a) (cnt := n) (a := base)
    as (f & l & -> & -> & H); try done; try lia.
  - intros b info u src' a' n' u' Hb H1 H2 H3 E x. destruct (in_geo b info Hb) as (info' & Hb' & (Hsz & _ & _ & Hst)).
    rewrite Hsz, Hst in *. unfold write_or_off in E. pose proof (buff_torn b info' u src' a' n' x Hb' H1 H2 H3) as Ht.
    pose proof (buff_done b info' u src' a' n' x Hb' H1 H2 H3) as Hdn. destruct (write_buff b u src' a' n') as [u1 rc].
    cbn [fst snd] in *. destruct (power u1) eqn:Eu; [|done]. injection E as <- ->.
    destruct (Z.leb_spec a' x), (Z.ltb_spec x (a' + n')); cbn [andb]; [apply Hdn|apply Ht..]; (done || lia).
  - change (between banks f l) with (between_from 0 banks f l).
    destruct (existsb _ _); [done|]. destruct (write_loop write_buff _ w src a n) as [w' rc] eqn:E. intros -> Hon i Hi.
    rewrite (loop_or_off _ _ _ _ _ _ E Hon) in H. rewrite (proj2 H eq_refl (a + i)).
    rewrite (proj2 (Z.leb_le _ _)), (proj2 (Z.ltb_lt _ _)) by lia. cbn [andb]. f_equal. lia.
Qed.

(** A byte can be written where its bits are set and nothing is protected, when the driver then only fails with the
    power. *)
Lemma write_succeeds w src a :
  (forall b w src a, Z.land (bytes_of w a) (bytes_of w src) = bytes_of w src ->
     power (fst (write_buff b w src a 1)) = true -> snd (write_buff b w src a 1) = 0) ->
  base <= a < limit base geo -> ~ guarded banks a a -> Z.land (bytes_of w a) (bytes_of w src) = bytes_of w src ->
  power (fst (flash_write write_buff banks w src a 1)) = true -> snd (flash_write write_buff banks w src a 1) = 0.
Proof using Hchain Hlimit Hal Hbase.
  intros Hok Ha Hg Hbits. destruct (alike_chain _ _ Hal _ Hchain) as [Hc Elim]. unfold flash_write.
  rewrite u32_small by lia. cbn [Z.eqb Pos.eqb]. replace (a + 1 - 1) with a by lia.
  destruct (covered banks base a Hc ltac:(lia)) as (f & info & i & Hf & Hk & Hwf & Hi & Hx). pose proof (sector_bounds info Hwf i Hi) as Hsb.
  pose proof (bank_of banks base f info a Hc Hf Hk ltac:(lia)) as E. rewrite E.
  pose proof (check_from banks 0 a a f f base Hc ltac:(by rewrite Elim) ltac:(lia) E E) as Hck.
  change (between banks f f) with (between_from 0 banks f f). destruct (existsb _ _); [by destruct Hg; apply Hck|]. clear Hck.
  unfold between_from. rewrite Nat.sub_succ_l, Nat.sub_diag by done. rewrite (drop_S banks info f Hf). cbn [Nat.add seq firstn combine write_loop].
  cbn [Z.ltb Z.compare]. pose proof (wf_low info Hwf). destruct (chain_in banks base info Hc) as (_ & _ & Htop); [|done|].
  { apply list_elem_of_In. by apply list_elem_of_lookup_2 in Hf. }
  rewrite u32_small by lia.
  replace (if 1 <? start info 0 + size info - a then 1 else start info 0 + size info - a) with 1 by (bdestruct).
  specialize (Hok f w src a Hbits). destruct (write_buff f w src a 1) as [w1 rc]. cbn [fst snd] in Hok.
  destruct (Z.eqb_spec rc 0) as [->|Hrc]; [done|]. exact Hok.
Qed.
End Write.

(** ** The instance *)

Section Layer.
Context {geo : list flash_info_t} {V : Type} {Dr : Driver geo V}.
Context (base : Z) (Hchain : chain base geo) (Hbase : 0 <= base) (Hlimit : limit base geo < 2 ^ 32).

(** [flash_info], and what the driver sees. *)
Record nor : Type := Nor { flash_info : list flash_info_t; chips : V; info_alike : Forall2 alike flash_info geo }.

Definition nor_protect (p : Z) (s : nor) (f l : Z) : nor * Z :=
  let r := flash_sect_protect p (flash_info s) f l in
  (Nor (fst (fst r)) (chips s) (protect_alike p _ _ f l (info_alike s)), snd (fst r)).
Definition nor_erase (s : nor) (f l : Z) : nor * Z :=
  let '(w, rc, _) := flash_sect_erase (flash_erase (flash_info s)) (flash_info s) (chips s) f l in (Nor (flash_info s) w (info_alike s), rc).
Definition nor_write (s : nor) (src a n : Z) : nor * Z :=
  let '(w, rc) := flash_write write_buff (flash_info s) (chips s) src a n in (Nor (flash_info s) w (info_alike s), rc).

Lemma nor_erase_rel (R : V -> V -> Prop) s f l : (forall w, R w w) -> (forall u v w, R u v -> R v w -> R u w) ->
  (forall b w f l, R w (fst (flash_erase (flash_info s) b w f l))) -> R (chips s) (chips (fst (nor_erase s f l))).
Proof using.
  intros Rr Rt H. unfold nor_erase, flash_sect_erase. destruct (flash_fill_sect_ranges _ f l) as [[[rc r] n] o].
  pose proof (erase_loop_rel R Rr Rt _ r 0 (chips s) 0 ltac:(intros; apply H)) as Hl. destruct (erase_loop _ _ _ _ _) as [[w rc'] m].
  destruct (_ && _); [done|]. destruct (rc =? 0); apply Rr.
Qed.

Lemma nor_write_rel (R : V -> V -> Prop) s src a n : (forall w, R w w) -> (forall u v w, R u v -> R v w -> R u w) ->
  (forall b w src a n, R w (fst (write_buff b w src a n))) -> R (chips s) (chips (fst (nor_write s src a n))).
Proof using.
  intros Rr Rt H. unfold nor_write, flash_write. destruct (n =? 0); [apply Rr|].
  destruct (addr2info _ a); [|apply Rr]. destruct (addr2info _ _); [|apply Rr]. destruct (existsb _ _); [apply Rr|].
  match goal with |- context [write_loop write_buff ?l ?w src a n] => pose proof (write_loop_rel R Rr Rt l w src a n H) as Hl end.
  by destruct (write_loop _ _ _ _ _ _) as [w rc].
Qed.

(** After [flash_sect_protect] has taken the protection off, nothing of the range is protected. *)
Lemma unguarded (s : nor) f l : base <= f -> f <= l -> l < limit base geo -> begins (flash_info s) f -> stops base (flash_info s) l ->
  ~ guarded (flash_info (fst (nor_protect 0 s f l))) f l.
Proof using Hchain Hbase Hlimit.
  intros Hf Hle Hlim Hb Hs (info & i & Hin & Hk & Hi & Ho & Hp). pose proof (info_alike s) as Hal.
  destruct (alike_chain _ _ Hal _ Hchain) as [Hc _].
  pose proof (flash_sect_protect_spec 0 base (flash_info s) f l Hc Hbase ltac:(lia) ltac:(lia)) as H.
  unfold nor_protect in Hin. cbn [fst flash_info] in Hin. pose proof (protect_alike 0 _ _ f l Hal) as Hal'.
  destruct (flash_sect_protect 0 (flash_info s) f l) as [[banks' rc] o]. cbn [fst] in *. destruct H as [H _].
  destruct (H Hb Hs) as [_ Hset]. apply list_elem_of_In, list_elem_of_lookup in Hin as [b Hib].
  rewrite Forall2_lookup in Hal, Hal'. specialize (Hal b). specialize (Hal' b). rewrite Hib in Hal'. inversion Hal' as [? j Ha' E1 E2|]; subst.
  rewrite <- E2 in Hal. inversion Hal as [info0 ? Ha0 E3 E4|]; subst. destruct (Hset b info0 (eq_sym E3)) as (info1 & Hib1 & (A1 & A2 & A3 & A4) & Hpr).
  rewrite Hib in Hib1. injection Hib1 as <-. apply Hp, (Hpr i). exists info0. split; [done|].
  assert (Hal0 : alike info info0) by done. rewrite <- (alike_known _ _ Hal0), <- A2. split; [done|]. split; [done|].
  unfold overlaps in *. by rewrite <- (alike_next _ _ i Hal0), <- A4.
Qed.

Lemma nor_opens (s : nor) f l : base <= f -> f <= l -> l < limit base geo -> snd (nor_protect 0 s f l) = 0 ->
  ~ guarded (flash_info (fst (nor_protect 0 s f l))) f l.
Proof using Hchain Hbase Hlimit.
  intros Hf Hle Hlim Hrc Hg. pose proof (info_alike s) as Hal. destruct (alike_chain _ _ Hal _ Hchain) as [Hc _].
  pose proof (flash_sect_protect_spec 0 base (flash_info s) f l Hc Hbase ltac:(lia) ltac:(lia)) as H.
  assert (Hn : ~ ~ (begins (flash_info s) f /\ stops base (flash_info s) l)).
  { intros Hno. unfold nor_protect in Hrc. cbn [snd] in Hrc. destruct (flash_sect_protect 0 (flash_info s) f l) as [[banks' rc] o].
    destruct H as [_ H]. destruct (H Hno) as [-> _]. done. }
  apply Hn. intros [Hb Hs]. by destruct (unguarded s f l).
Qed.

(** What a call does without power. *)
Definition dead (u v : V) : Prop := power u = false -> bytes_of v = bytes_of u /\ power v = false.

Lemma dead_trans u v w : dead u v -> dead v w -> dead u w.
Proof using. intros H1 H2 Hp. destruct (H1 Hp) as [E1 P1]. destruct (H2 P1) as [E2 P2]. by rewrite E2. Qed.

#[local] Obligation Tactic := cbn [fst snd flash_info chips].
#[export, program] Instance Nor_layer : Flash_layer nor := {
  content s := bytes_of (chips s);
  powered s := power (chips s);
  writable f l := base <= f /\ f <= l /\ l < limit base geo;
  open s f l := ~ guarded (flash_info s) f l;
  sect_protect := nor_protect;
  sect_erase := nor_erase;
  EnvFlash.flash_write := nor_write;
  poke s a l := Nor (flash_info s) (put (chips s) a l) (info_alike s) }.
Next Obligation. lia. Qed.
Next Obligation. done. Qed.
Next Obligation. done. Qed.
Next Obligation. intros s f l (H1 & H2 & H3). by apply nor_opens. Qed.
Next Obligation. done. Qed.
Next Obligation. intros. apply put_bytes. Qed.
Next Obligation. intros. apply put_power. Qed.
Next Obligation.
  intros s f l Hp. apply (nor_erase_rel dead s f l); [done|apply dead_trans|intros b w f' l' H; by apply er_off|done].
Qed.
Next Obligation.
  intros s f l Hp. apply (nor_erase_rel dead s f l); [done|apply dead_trans|intros b w f' l' H; by apply er_off|done].
Qed.
Next Obligation.
  intros s f l x. apply (nor_erase_rel (fun u v => is_byte (bytes_of u x) -> is_byte (bytes_of v x)) s f l); [done|auto|].
  intros b w f' l'. apply er_byte.
Qed.
Next Obligation.
  intros s f l x (H1 & H2 & H3) Hx. rewrite <- (sect_erase_outside base Hchain Hbase Hlimit _ (info_alike s) (chips s) f l x H1 H2 H3 Hx).
  unfold nor_erase. by destruct (flash_sect_erase _ _ _ f l) as [[w rc] o].
Qed.
Next Obligation.
  intros s f l x (H1 & H2 & H3) Hg Hx.
  pose proof (sect_erase_inside base Hchain Hbase Hlimit _ (info_alike s) (chips s) f l x H1 H2 H3 Hg Hx) as H.
  unfold nor_erase. by destruct (flash_sect_erase _ _ _ f l) as [[w rc] o].
Qed.
Next Obligation.
  intros s src a n Hp. apply (nor_write_rel dead s src a n); [done|apply dead_trans|intros b w src' a' n' H; by apply buff_off|done].
Qed.
Next Obligation.
  intros s src a n Hp. apply (nor_write_rel dead s src a n); [done|apply dead_trans|intros b w src' a' n' H; by apply buff_off|done].
Qed.
Next Obligation.
  intros s src a n x H. apply (nor_write_rel (fun u v => (forall y, is_byte (bytes_of u y)) -> forall y, is_byte (bytes_of v y)) s src a n); [done|auto| |done].
  intros b w src' a' n' Hw y. by apply buff_byte.
Qed.
Next Obligation.
  intros s src a n x (H1 & H2 & H3) Hn Hx.
  rewrite <- (flash_write_outside base Hchain Hbase Hlimit _ (info_alike s) (chips s) src a n x) by (done || lia).
  unfold nor_write. by destruct (flash_write _ _ _ src a n) as [w rc].
Qed.
Next Obligation.
  intros s src a n i (H1 & H2 & H3) Hn Hs Hs' Hd Hrc Hon Hi.
  pose proof (flash_write_inside base Hchain Hbase Hlimit _ (info_alike s) (chips s) src a n H1 Hn ltac:(lia) Hs Hs' Hd) as H.
  revert Hrc Hon. unfold nor_write. destruct (flash_write _ _ _ src a n) as [w rc]. intros Hrc Hon. by apply H.
Qed.
Next Obligation.
  intros s src a (H1 & _ & H3) Hs Hne.
  pose proof (flash_write_one base Hchain Hbase Hlimit _ (info_alike s) (chips s) src a ltac:(lia) Hs Hne) as H.
  unfold nor_write. by destruct (flash_write _ _ _ src a 1) as [w rc].
Qed.
End Layer.

(** ** The flags *)

Section Flags.
Context {geo : list flash_info_t} {V : Type} {Dr : Driver geo V}.
Context (base : Z) (Hchain : chain base geo) (Hbase : 0 <= base) (Hlimit : limit base geo < 2 ^ 32).

Lemma alike_in banks info : Forall2 alike banks geo -> In info geo -> exists info', In info' banks /\ alike info' info.
Proof using.
  intros Hal Hin. apply list_elem_of_In, list_elem_of_lookup in Hin as [b Hb]. rewrite Forall2_lookup in Hal. specialize (Hal b).
  rewrite Hb in Hal. inversion Hal as [i j Ha E1 E2|]; subst. exists i. split; [|done].
  apply list_elem_of_In, list_elem_of_lookup. by exists b.
Qed.

Lemma alike_begins banks f : Forall2 alike banks geo -> begins geo f -> begins banks f.
Proof using.
  intros Hal (info & s & Hin & Hk & [Hs Hst]). destruct (alike_in _ _ Hal Hin) as (i & Hi & Ha). exists i, s. split; [done|].
  rewrite (alike_known _ _ Ha). destruct Ha as (_ & Hc & _ & He). split; [done|]. split; [by rewrite Hc|by rewrite He].
Qed.

Lemma alike_stops banks l : Forall2 alike banks geo -> stops base geo l -> stops base banks l.
Proof using Hchain.
  intros Hal H. destruct (alike_chain _ _ Hal _ Hchain) as [_ E]. unfold stops. rewrite E. destruct H as [H|H]; [by left|right].
  destruct H as (info & s & Hin & Hk & [Hs Hst]). destruct (alike_in _ _ Hal Hin) as (i & Hi & Ha). exists i, s. split; [done|].
  rewrite (alike_known _ _ Ha). pose proof (alike_next _ _ s Ha). destruct Ha as (_ & Hc & _ & He). split; [done|]. split; [by rewrite Hc|lia].
Qed.

(** Where the environment is in whole sectors and the driver fails only with the power. *)
Lemma nor_flags_writable cfg :
  let F := Nor_layer base Hchain Hbase Hlimit in
  layout cfg ->
  (forall b w src a, Z.land (bytes_of w a) (bytes_of w src) = bytes_of w src ->
     power (fst (write_buff b w src a 1)) = true -> snd (write_buff b w src a 1) = 0) ->
  (forall e, e = CONFIG_ENV_ADDR cfg \/ e = CONFIG_ENV_ADDR_REDUND cfg ->
     begins geo e /\ stops base geo (e + CONFIG_ENV_SECT_SIZE cfg - 1)) ->
  flags_writable cfg.
Proof using.
  intros F [L1 L2 L3 _ _ _] Hok Hw s e He Hbits s'. destruct (Hw e He) as [Hb Hs].
  assert (Hin : base <= e /\ e + CONFIG_ENV_SECT_SIZE cfg - 1 < limit base geo).
  { unfold writable in L2, L3. cbn in L2, L3. destruct He as [-> | ->]; lia. }
  assert (Hg : ~ guarded (flash_info (fst (nor_protect 0 s e (e + CONFIG_ENV_SECT_SIZE cfg - 1)))) (e + 4) (e + 4)).
  { intros (info & i & Hmem & Hk & Hi & Ho & Hp).
    apply (unguarded base Hchain Hbase Hlimit s e (e + CONFIG_ENV_SECT_SIZE cfg - 1)); try lia;
      [by apply (alike_begins _ _ (info_alike s))|by apply (alike_stops _ _ (info_alike s))|].
    exists info, i. split; [done|]. split; [done|]. split; [done|]. split; [unfold overlaps in *; lia|done]. }
  change (sect_protect 0 s e (e + CONFIG_ENV_SECT_SIZE cfg - 1)) with (nor_protect 0 s e (e + CONFIG_ENV_SECT_SIZE cfg - 1)) in s'.
  fold s' in Hg. pose proof (write_succeeds base Hchain Hbase Hlimit (flash_info s') (info_alike s') (chips s') (flag_at cfg) (e + 4) Hok
    ltac:(lia) Hg Hbits) as H.
  cbn [EnvFlash.flash_write powered Nor_layer F]. unfold nor_write.
  destruct (flash_write write_buff (flash_info s') (chips s') (flag_at cfg) (e + 4) 1) as [w rc]. exact H.
Qed.
End Flags.

(** ** A board *)

(** A driver that programs byte by byte, only from ones to zeros, and erases byte by byte what is not protected.  There is
    power for some steps only; when it goes off in the middle of a byte, the bits of [late] are not yet programmed.  There may
    be a byte that cannot be programmed. *)
Record fuse : Type := Fuse { f_mem : mem; f_left : Z }.

Definition late : Z := 0x80.

Section Fuse.
Context (bad : option Z) (geo : list flash_info_t).

Definition lit (w : fuse) : bool := 0 <? f_left w.
Definition set_byte (w : fuse) (a v : Z) : fuse := Fuse ((f_mem w).[a <- v]) (f_left w - 1).

Definition burn (w : fuse) (a v : Z) : fuse :=
  set_byte w a (if f_left w =? 1 then Z.lor v (Z.land (f_mem w a) late) else v).

Fixpoint program (w : fuse) (a : Z) (l : list Z) : fuse * Z :=
  match l with
  | [] => (w, 0)
  | v :: l =>
    if negb (lit w) then (w, 0)
    else if bool_decide (bad = Some a) || negb (Z.land (f_mem w a) v =? v) then (w, 2)
    else program (burn w a v) (a + 1) l
  end.

Definition fuse_buff (b : nat) (w : fuse) (src a n : Z) : fuse * Z := program w a (mem_list (f_mem w) src (Z.to_nat n)).

Fixpoint fill (w : fuse) (a : Z) (n : nat) : fuse :=
  match n with
  | O => w
  | S n => if lit w then fill (set_byte w a 255) (a + 1) n else w
  end.

Definition erase_one (info : flash_info_t) (w : fuse) (i : Z) : fuse := fill w (start info i) (Z.to_nat (next info i - start info i)).

Definition fuse_erase (banks : list flash_info_t) (b : nat) (w : fuse) (f l : Z) : fuse * Z :=
  match geo !! b, banks !! b with
  | Some info, Some info' =>
    (fold_left (erase_one info) (List.filter (fun i => protect info' i =? 0) (seqZ f (l - f + 1))) w, 0)
  | _, _ => (w, 0)
  end.

Lemma burnt w a v : is_byte (f_mem w a) -> is_byte v -> is_byte (f_mem (burn w a v) a).
Proof using.
  unfold burn, set_byte. cbn. rewrite upd_eq. intros H1 H2. destruct (_ =? 1); [|done]. apply lor_byte; [done|]. by apply land_byte_r.
Qed.

Lemma burn_mixed w a v : mixed (f_mem w a) v (f_mem (burn w a v) a).
Proof using.
  intros i Hi. unfold burn, set_byte. cbn. rewrite upd_eq. destruct (_ =? 1); [|by right].
  rewrite Z.lor_spec, Z.land_spec. destruct (Z.testbit v i), (Z.testbit (f_mem w a) i), (Z.testbit late i); by (left + right).
Qed.

Lemma program_off l : forall w a, lit w = false -> program w a l = (w, 0).
Proof using. destruct l; intros w a H; cbn [program]; [done|]. by rewrite H. Qed.

Lemma program_spec l : forall w a, let w' := fst (program w a l) in
  (forall x, ~ (a <= x < a + Z.of_nat (length l)) -> f_mem w' x = f_mem w x) /\
  (Forall is_byte l -> forall x, is_byte (f_mem w x) -> is_byte (f_mem w' x)) /\
  (forall v, l = [v] -> mixed (f_mem w a) v (f_mem w' a)) /\
  (snd (program w a l) = 0 -> lit w' = true -> forall x, a <= x < a + Z.of_nat (length l) -> f_mem w' x = rd l (x - a)).
Proof using.
  assert (Same : forall u v, mixed u v u) by (intros u v i Hi; by left).
  induction l as [|v l IH]; intros w a; cbn [program length]; [split_and!; try done; lia|].
  destruct (lit w) eqn:Hl; cbn [negb]; cycle 1.
  { cbn. split_and!; try done. intros _ H. by rewrite Hl in H. }
  destruct (_ || _); [by cbn|]. destruct (IH (burn w a v) (a + 1)) as (H1 & H2 & H3 & H4).
  assert (Ho : forall x, x <> a -> f_mem (burn w a v) x = f_mem w x) by (intros x Hx; cbn; by rewrite upd_ne).
  split_and!.
  - intros x Hx. rewrite H1, Ho by lia. done.
  - intros Hb x Hx. apply List.Forall_cons_iff in Hb as [Hv Hb]. apply H2; [done|].
    destruct (Z.eq_dec x a) as [->|Hne]; [by apply burnt|by rewrite Ho].
  - intros u [= -> ->]. apply burn_mixed.
  - intros Hrc Hon x Hx. destruct (Z.eq_dec x a) as [->|Hne].
    + rewrite H1 by lia. rewrite Z.sub_diag. unfold burn, set_byte. cbn. rewrite upd_eq.
      destruct (Z.eqb_spec (f_left w) 1) as [E|E]; [|done]. assert (Hd : lit (burn w a v) = false) by (unfold lit, burn; cbn; by rewrite E).
      rewrite (program_off l _ (a + 1) Hd) in Hon. cbn [fst] in Hon. by rewrite Hd in Hon.
    + rewrite (H4 Hrc Hon) by lia. unfold rd. replace (Z.to_nat (x - a)) with (S (Z.to_nat (x - (a + 1)))) by lia. done.
Qed.

Lemma fill_grade n : forall w a, let w' := fill w a n in
  (lit w = false -> w' = w) /\ (lit w' = true -> lit w = true) /\
  (forall x, ~ (a <= x < a + Z.of_nat n) -> f_mem w' x = f_mem w x) /\ (forall x, f_mem w' x = f_mem w x \/ f_mem w' x = 255) /\
  (lit w' = true -> forall x, a <= x < a + Z.of_nat n -> f_mem w' x = 255).
Proof using.
  induction n as [|n IH]; intros w a; cbn [fill]; [split_and!; try done; [by left|lia]|]. destruct (lit w) eqn:Hl; cycle 1.
  { split_and!; try done; [by rewrite Hl|by left|by rewrite Hl]. }
  destruct (IH (set_byte w a 255) (a + 1)) as (_ & _ & H3 & H4 & H5). split_and!; try done.
  - intros x Hx. rewrite H3 by lia. cbn. by rewrite upd_ne by lia.
  - intros x. destruct (H4 x) as [H|H]; [|by right]. rewrite H. cbn. unfold upd. destruct (x =? a); [by right|by left].
  - intros Hon x Hx. destruct (Z.eq_dec x a) as [->|Hne]; [|apply H5; [done|lia]]. rewrite H3 by lia. cbn. apply upd_eq.
Qed.

Lemma erase_grade info l : forall w, let w' := fold_left (erase_one info) l w in
  (lit w = false -> w' = w) /\ (lit w' = true -> lit w = true) /\
  (forall x, (forall i, In i l -> ~ (start info i <= x < next info i)) -> f_mem w' x = f_mem w x) /\
  (forall x, f_mem w' x = f_mem w x \/ f_mem w' x = 255) /\
  (lit w' = true -> forall i x, In i l -> start info i <= x < next info i -> f_mem w' x = 255).
Proof using.
  induction l as [|i l IH]; intros w; cbn [fold_left]; [split_and!; try done; by left|].
  destruct (IH (erase_one info w i)) as (H1 & H2 & H3 & H4 & H5).
  destruct (fill_grade (Z.to_nat (next info i - start info i)) w (start info i)) as (G1 & G2 & G3 & G4 & G5).
  fold (erase_one info w i) in *. split_and!.
  - intros Hl. rewrite H1; by rewrite G1.
  - intros Hl. by apply G2, H2.
  - intros x Hx. rewrite H3 by (intros j Hj; apply Hx; by right). apply G3. specialize (Hx i ltac:(by left)). lia.
  - intros x. destruct (H4 x) as [H|H]; [|by right]. rewrite H. apply G4.
  - intros Hon j x [->|Hj] Hx; [|by apply (H5 Hon j)]. destruct (H4 x) as [H|H]; [|done]. rewrite H. apply G5; [by apply H2|lia].
Qed.

#[export, program] Instance Fuse_driver : Driver geo fuse := {
  bytes_of := f_mem; power := lit; put w a l := Fuse (store_list (f_mem w) a l) (f_left w);
  write_buff := fuse_buff; flash_erase := fuse_erase }.
Next Obligation. done. Qed.
Next Obligation. done. Qed.
Next Obligation. intros b w src a n H. unfold fuse_buff. by rewrite program_off. Qed.
Next Obligation.
  intros b w src a n x H. unfold fuse_buff. apply (program_spec _ w a); [|done]. by apply mem_list_bytes.
Qed.
Next Obligation.
  intros b info w src a n x _ _ Hn _ Hx. unfold fuse_buff. apply (program_spec _ w a). rewrite mem_list_length. lia.
Qed.
Next Obligation. intros b info w src a _ _. unfold fuse_buff. by apply (program_spec _ w a). Qed.
Next Obligation.
  intros b info w src a n x _ _ Hn _ Hrc Hon Hx. unfold fuse_buff in *.
  destruct (program_spec (mem_list (f_mem w) src (Z.to_nat n)) w a) as (_ & _ & _ & H). rewrite (H Hrc Hon) by (rewrite mem_list_length; lia).
  apply rd_mem_list. lia.
Qed.
Next Obligation.
  intros banks b w f l H. unfold fuse_erase. destruct (geo !! b) as [info|]; [|done]. destruct (banks !! b) as [info'|]; [|done].
  cbn [fst]. destruct (erase_grade info (List.filter (fun i => protect info' i =? 0) (seqZ f (l - f + 1))) w) as (H1 & _). by rewrite H1.
Qed.
Next Obligation.
  intros banks b w f l x H. unfold fuse_erase. destruct (geo !! b) as [info|]; [|done]. destruct (banks !! b) as [info'|]; [|done].
  cbn [fst]. destruct (erase_grade info (List.filter (fun i => protect info' i =? 0) (seqZ f (l - f + 1))) w) as (_ & _ & _ & H4 & _).
  by destruct (H4 x) as [-> | ->].
Qed.
Next Obligation.
  intros banks b w f l x Hb Hx. unfold fuse_erase. destruct (geo !! b) as [info|] eqn:E; [|done]. destruct (banks !! b) as [info'|]; [|done].
  cbn [fst]. destruct (erase_grade info (List.filter (fun i => protect info' i =? 0) (seqZ f (l - f + 1))) w) as (_ & _ & H3 & _).
  apply H3. intros i Hi Hin. apply Hx. apply filter_In in Hi as [Hi _].
  apply list_elem_of_In, elem_of_seqZ in Hi. exists info, i. split; [done|]. split; [lia|done].
Qed.
Next Obligation.
  intros banks b w f l x Hrc Hon (info & info' & i & E & E' & Hi & Hx & Hp). unfold fuse_erase in *. rewrite E, E' in *. cbn [fst snd] in *.
  destruct (erase_grade info (List.filter (fun i => protect info' i =? 0) (seqZ f (l - f + 1))) w) as (_ & _ & _ & _ & H5).
  apply (H5 Hon i); [|done]. apply filter_In. split; [|by apply Z.eqb_eq]. apply list_elem_of_In, elem_of_seqZ. lia.
Qed.
End Fuse.

(** Two sectors of sixteen bytes, twelve of them for a copy of the environment; both sectors are protected. *)
Definition chip : flash_info_t := Flash_info 32 2 1 (fun i => 96 + 16 * i) (fun _ => 1).
Definition board : list flash_info_t := [chip; Flash_info 0 0 FLASH_UNKNOWN (fun _ => 0) (fun _ => 0)].
Definition board_cfg : config := Config false 96 112 16 12 200 300 [65; 61; 66; 0; 0] 400 401.

Lemma board_chain : chain 96 board.
Proof.
  cbn. split_and!; try done.
  split; cbn; try lia. intros i Hi. unfold next. cbn. destruct (Z.eqb_spec i (2 - 1)); lia.
Qed.

Lemma board_alike : Forall2 alike board board.
Proof. by repeat constructor. Qed.

Lemma board_low : 0 <= 96.
Proof. done. Qed.
Lemma board_top : limit 96 board < 2 ^ 32.
Proof. by vm_compute. Qed.

#[local] Instance Board (bad : option Z) : Flash_layer (nor (geo := board) (V := fuse)) :=
  Nor_layer (Dr := Fuse_driver bad board) 96 board_chain board_low board_top.

Lemma board_layout bad : layout (F := Board bad) board_cfg.
Proof. split; cbn; lia. Qed.

Lemma board_objects : objects board_cfg.
Proof. split; unfold in_ram; cbn; lia. Qed.

Lemma board_flags : flags_writable (F := Board None) board_cfg.
Proof.
  apply nor_flags_writable; [apply (board_layout None)| |].
  - intros b w src a H Hon. unfold write_buff, Fuse_driver, fuse_buff in *. cbn [mem_list program Z.to_nat Pos.to_nat Pos.iter_op] in *.
    change (Z.to_nat 1) with 1%nat in *. cbn [mem_list program] in *. destruct (negb (lit w)); [done|].
    unfold bytes_of in H. cbn [f_mem] in H. rewrite H, Z.eqb_refl in *. done.
  - intros e [-> | ->]; cbn; (split; [exists chip|right; exists chip]); [exists 0|exists 0|exists 1|exists 1];
      (split; [by left|split; [done|split; [cbn; lia|done]]]).
Qed.

(** A copy of the environment. *)
Definition env_of (flags : Z) (l : list Z) : list Z :=
  word32 false (crc32 false (store_list (fun _ => 0) 0 l) 0 0 7) ++ flags :: l.
Definition old_env : list Z := [97; 61; 49; 0; 0; 0; 0].
Definition new_env : list Z := [97; 61; 50; 0; 0; 0; 0].

(** The old environment is in the first sector, the second one is erased. *)
Definition board_mem : mem := store_list (fun _ => 255) 96 (env_of 1 old_env).
Definition board_at (m : mem) (n : Z) : nor (geo := board) (V := fuse) := Nor board (Fuse m n) board_alike.

(** After the start somebody has changed the environment. *)
Definition edited (bad : option Z) (m : mem) (n : Z) (l : list Z) : state :=
  let st := boot (F := Board bad) board_cfg (board_at m n) in set_layer (poke (Flash_layer := Board bad) (layer st) 200 (env_of 255 l)) st.
Definition power_back (bad : option Z) (st : state (W := nor (geo := board) (V := fuse))) : nor (geo := board) (V := fuse) :=
  board_at (content (Flash_layer := Board bad) (layer st)) 1000.

(** Both are only to be evaluated by the virtual machine. *)
#[local] Opaque saveenv boot EnvOne.saveenv.

Lemma board_bytes : bytes board_mem.
Proof. intros x. unfold board_mem. apply (store_bytes (fun _ => 255)); [done|]. vm_compute. by repeat constructor. Qed.

Lemma board_picks : picks board_cfg board_mem 96 112 old_env.
Proof.
  split; [|by vm_compute]. split; [split; by vm_compute|]. split; [by vm_compute|]. intros H. exfalso. revert H. by vm_compute.
Qed.

(** Power for twenty steps: the start takes none, [saveenv] is cut off when it writes the data. *)
Definition short_of_power : state := edited None board_mem 20 new_env.

Lemma short_copy : copy board_cfg (content (Flash_layer := Board None) (layer short_of_power)) 200 new_env.
Proof. split; vm_compute; reflexivity. Qed.

(** A change of the environment in RAM. *)
Lemma edited_loaded {W} {F : Flash_layer W} cfg (L : layout cfg) cur oth (st : state) l D :
  copies cfg cur oth -> in_ram cfg (env_ptr cfg) (Z.of_nat (length l)) -> Forall is_byte l -> loaded cfg st cur oth ->
  settled cfg (content (layer st)) cur oth D ->
  let st' := set_layer (poke (layer st) (env_ptr cfg) l) st in
  loaded cfg st' cur oth /\ settled cfg (content (layer st')) cur oth D.
Proof.
  intros Hc Hr Hl [L1 L2 L3 L4 L5 L6 L7] St.
  destruct (poke_copies cfg L cur oth (layer st) (env_ptr cfg) l D Hc Hr L7 Hl) as (B & _ & _ & H). split; [by constructor|by apply H].
Qed.

Lemma board_copies : copies board_cfg 96 112.
Proof. by left. Qed.
Lemma edit_room : in_ram board_cfg (env_ptr board_cfg) (Z.of_nat (length (env_of 255 new_env))).
Proof. unfold in_ram. vm_compute. split_and!; (done || by (left + right)). Qed.
Lemma edit_bytes : Forall is_byte (env_of 255 new_env).
Proof. vm_compute. by repeat constructor. Qed.

Lemma short_loaded : let F := Board None in
  loaded board_cfg short_of_power 96 112 /\ settled board_cfg (content (layer short_of_power)) 96 112 old_env.
Proof.
  intros F. destruct (boot_picks board_cfg (board_layout None) board_objects (board_at board_mem 20) 96 112 old_env
    board_copies board_bytes board_picks board_flags) as (Ld & _ & _ & St).
  assert (Hon : powered (layer (boot board_cfg (board_at board_mem 20))) = true) by (vm_compute; reflexivity). specialize (St Hon).
  exact (edited_loaded board_cfg (board_layout None) 96 112 _ _ old_env board_copies edit_room edit_bytes Ld St).
Qed.

(** The program after the failure. *)
Definition cut_short : state := fst (saveenv (F := Board None) board_cfg (Some 500) short_of_power).

Lemma cut_no_accident : accident board_cfg (content (Flash_layer := Board None) (layer cut_short)) 96 112 new_env = false.
Proof. vm_compute. reflexivity. Qed.
Lemma cut_not_torn : torn board_cfg (content (Flash_layer := Board None) (layer cut_short)) 112 96 = false.
Proof. vm_compute. reflexivity. Qed.

Lemma board_room : room board_cfg (Some 500).
Proof. unfold room, in_ram. cbn. lia. Qed.

Lemma cut_survives : let F := Board None in survives board_cfg (content (layer cut_short)) (content (power_back None cut_short)).
Proof.
  intros F. destruct short_loaded as [Ld St]. pose proof short_copy as C.
  pose proof (saveenv_spec board_cfg (board_layout None) board_objects 96 112 (Some 500) short_of_power old_env new_env
    board_copies Ld board_room St C) as H. unfold cut_short. destruct (saveenv _ _ _) as [st' rc]. split; [exact (proj1 H)|reflexivity].
Qed.


(** A start, a change, a save that is cut off, a start. *)
Definition some_events : list event := [Booted old_env false; Edited; Saving new_env Failed; Cut_off; Booted old_env false].

Lemma some_steps : let F := Board None in exists ph, steps (step board_cfg) (Off (board_at board_mem 20)) some_events ph.
Proof.
  intros F. pose proof short_loaded as [Ld St]. cbv zeta in Ld, St. pose proof short_copy as C. eexists.
  apply (steps_cons _ _ _ (Running (boot board_cfg (board_at board_mem 20)))).
  { assert (Hs : survives board_cfg board_mem board_mem) by (split; [apply board_bytes|done]).
    pose proof (step_boot board_cfg (board_at board_mem 20) (board_at board_mem 20) Hs) as H. cbv zeta in H.
    replace (mem_list _ _ _) with old_env in H by (vm_compute; reflexivity).
    replace (some_torn _ _) with false in H by (vm_compute; reflexivity). exact H. }
  apply (steps_cons _ _ _ (Running short_of_power)).
  { apply (step_edit board_cfg); [vm_compute; reflexivity|]. split; [apply (ld_bytes _ _ _ _ Ld)|].
    intros e x He Hx. change (content _ x = content (layer (boot board_cfg (board_at board_mem 20))) x) with
      (store_list (content (layer (boot board_cfg (board_at board_mem 20)))) 200 (env_of 255 new_env) x =
       content (layer (boot board_cfg (board_at board_mem 20))) x).
    apply store_list_out. cbn. cbn in He, Hx. lia. }
  apply (steps_cons _ _ _ (Running cut_short)).
  { assert (E : saveenv board_cfg (Some 500) short_of_power = (cut_short, snd (saveenv board_cfg (Some 500) short_of_power)))
      by apply surjective_pairing.
    assert (Hon : powered (layer short_of_power) = true) by (vm_compute; reflexivity).
    pose proof (step_save board_cfg _ _ _ _ new_env Hon board_room C E) as H.
    replace (outcome_of _ _ _ _ _) with Failed in H by (vm_compute; reflexivity). exact H. }
  apply (steps_cons _ _ _ (Off (layer cut_short))); [constructor|].
  eapply steps_cons; [|constructor]. pose proof (step_boot board_cfg _ _ cut_survives) as H. cbv zeta in H.
  replace (mem_list _ _ _) with old_env in H by (vm_compute; reflexivity).
  replace (some_torn _ _) with false in H by (vm_compute; reflexivity). exact H.
Qed.


(** When the rest of the sector cannot be written back, [saveenv] has saved the environment and says so, but the copies
    are not exchanged: the next save starts with the only good copy, and a power failure brings back the
    environment from before both. *)
Fact saved_and_lost : let F := Board (Some 126) in
  let '(st1, rc) := saveenv board_cfg (Some 500) (edited (Some 126) board_mem 1000 new_env) in
  let s := Nor board (Fuse (content (layer st1)) 20) board_alike in
  let '(st2, _) := saveenv board_cfg (Some 500) (set_layer s st1) in
  rc = 0 /\ boots board_cfg (power_back (Some 126) st1) new_env /\ boots board_cfg (power_back (Some 126) st2) old_env.
Proof.
  intros F. destruct (saveenv board_cfg (Some 500) _) as [st1 rc] eqn:E1. cbv zeta.
  destruct (saveenv _ _ (set_layer _ _)) as [st2 rc2] eqn:E2.
  assert (E : st1 = fst (saveenv board_cfg (Some 500) (edited (Some 126) board_mem 1000 new_env))) by by rewrite E1.
  assert (Er : rc = snd (saveenv board_cfg (Some 500) (edited (Some 126) board_mem 1000 new_env))) by by rewrite E1.
  assert (E' : st2 = fst (saveenv board_cfg (Some 500) (set_layer (Nor board (Fuse (content (layer st1)) 20) board_alike) st1))) by by rewrite E2.
  clear E1 E2. subst st1 rc st2. split; [by vm_compute|]. split; (split; by vm_compute).
Qed.

(** Nothing but erased bytes. *)
Lemma boot_default_witness : let F := Board None in let st := boot board_cfg (board_at (fun _ => 255) 0) in
  env_valid st = 1 /\ env_addr st = data_at 200 /\ copy board_cfg (content (layer st)) 200 ([65; 61; 66; 0; 0] ++ repeat 0 2) /\
  forall x, ~ (200 <= x < 200 + 12) -> content (layer st) x = 255.
Proof.
  intros F. refine (EnvFlash.boot_default board_cfg (board_at (fun _ => 255) 0) _ _ _ _ _ _).
  - done.
  - by repeat constructor.
  - done.
  - done.
  - vm_compute. reflexivity.
  - vm_compute. reflexivity.
Defined.

(** When the power goes off in the middle of the new copy's flags, both copies are whole and neither is used: the next
    start has the default environment. *)
Fact torn_flag : let F := Board None in
  let st := fst (saveenv board_cfg (Some 500) (edited None board_mem 29 new_env)) in
  let s := power_back None st in
  copy board_cfg (content (layer st)) 96 old_env /\ copy board_cfg (content (layer st)) 112 new_env /\
  torn board_cfg (content (layer st)) 112 96 = true /\ env_valid (env_init board_cfg (reset board_cfg s)) = 0 /\
  boots board_cfg s ([65; 61; 66; 0; 0] ++ repeat 0 2).
Proof. cbv zeta. split_and!; try (split; by vm_compute); by vm_compute. Qed.

(** One copy, behind four other bytes of the first sector. *)
Definition one_cfg : EnvOne.config := EnvOne.Config false 100 16 8 200 300 500.

Lemma one_layout : EnvOne.layout (F := Board None) one_cfg 96.
Proof. split; cbn; try lia. exists 6, 4. lia. Qed.

Definition one_env : list Z := word32 false (crc32 false (store_list (fun _ => 0) 0 old_env) 0 0 4) ++ [97; 61; 49; 0].
Definition one_mem : mem := store_list (store_list (fun _ => 255) 96 [1; 2; 3; 4]) 200 one_env.

Lemma one_bytes : bytes one_mem.
Proof.
  intros x. unfold one_mem. apply store_bytes; [intros y; apply store_bytes; [done|by repeat constructor]|vm_compute; by repeat constructor].
Qed.

Lemma saveenv_loads_witness : let F := Board None in
  let s' := fst (EnvOne.saveenv one_cfg (board_at one_mem 1000)) in
  EnvOne.env_init one_cfg (content s') = (104, 1) /\
  mem_list (content (EnvOne.env_relocate_spec one_cfg s')) 200 8 = mem_list one_mem 200 8.
Proof.
  intros F. assert (Hcrc : EnvOne.crc_ok one_cfg one_mem 200 = true) by (vm_compute; reflexivity).
  pose proof (EnvOne.saveenv_loads one_cfg 96 (board_at one_mem 1000) one_layout one_bytes Hcrc) as H.
  assert (Hrc : snd (EnvOne.saveenv one_cfg (board_at one_mem 1000)) = 0) by (vm_compute; reflexivity).
  assert (Hon : powered (fst (EnvOne.saveenv one_cfg (board_at one_mem 1000))) = true) by (vm_compute; reflexivity).
  cbv zeta. destruct (EnvOne.saveenv one_cfg (board_at one_mem 1000)) as [s' rc]. cbn [fst snd] in *. exact (proj2 (proj2 (H Hrc Hon))).
Defined.
